(* ===== verification/_CoqProject ===== *)
-Q . S2P
Prelude.v
GoSort.v
Keyset.v
GoStrings.v
GoCrypto.v
GoHeap.v
GoJson.v
GoFloat.v
JsonRoundTrip.v
GoBase64.v
Domain.v
Job.v
JobStore.v
JobRestore.v
GraphSCC.v
FormulaDecimal.v
DomainEntity.v
FormulaRegistry.v
FormulaAst.v
FormulaLexer.v
FormulaParser.v
FormulaSemantic.v
SimRandom.v
SimScenario.v
SimEngine.v
SimMetric.v
VersionGate.v
DiffSequence.v
VersionDiff.v
DiffArrays.v
DiffCompare.v
DiffEntities.v
DiffRevisions.v
DiffPaging.v
RiskContract.v
RiskThreshold.v
RiskComparison.v
BackupPolicy.v
ReleaseTypes.v
ReleaseStore.v
ReleaseHistory.v
ValidationTypes.v
ValidationGraph.v
ValidationWalk.v
ValidationAnalyze.v
EntityStore.v
EntityRestore.v
StoreCursors.v
EntityHistory.v
EntityReads.v
EntityFacts.v
EntityPaging.v
EntityRuns.v
GraphProjector.v
GraphText.v
GraphPlan.v
GraphProjection.v
GraphSync.v
GraphStore.v
GraphServices.v
GraphRuntime.v
GraphHistory.v
GraphPuts.v
GraphServiceFacts.v
GraphRuntimeFacts.v
GraphExamples.v
ReleasePreflight.v
ReleaseSaga.v
ReleaseRecovery.v
ReleaseRecoveryFacts.v
ReleaseExamples.v
ReleaseRuntime.v
GraphGate.v
GraphGateExamples.v
ImpactPlan.v
ImpactAnalysis.v
ImpactRetrieval.v
GraphClient.v
ImpactExamples.v
