(* ===== verification/Prelude.v ===== *)
(** * Eco Guardian: a verification development

    Eco Guardian is a local server over one project at a time: a catalog of game
    entities (tags, skills, effects, ...) kept in SQLite, edited by patches,
    frozen into immutable revisions, validated, simulated, compared, assessed
    for risk and released to an external Graph service.  This library models
    the parts of src/internal that decide something, and proves what they
    promise.  Shallow embedding: a Go function is a function here, an error is a
    value of [result] ([inl error] / [inr value]), a panic is an outcome, a
    store is a record, a store operation is one step of a relation.

    ** How the program's parts interact

    An entity ([DomainEntity]) is checked and written by the store
    ([EntityStore]), which maintains the reference index and the formula index
    of its payload; formulas are compiled by [FormulaParser] and
    [FormulaSemantic].  A checkpoint freezes the active entities into a revision
    with the content hash of their canonical blobs ([GoJson], [GoCrypto]) and
    the manifest of [VersionGate].  Validation ([ValidationAnalyze]) runs over a
    frozen source and leaves a run whose hash and counts the gate of
    [EntityStore] and [ReleasePreflight] reads.  Two revisions are compared by
    [VersionDiff].  The simulation engine ([SimEngine]) produces samples that
    [SimMetric] reduces and [RiskComparison] assesses against the thresholds of
    [RiskThreshold].  Long work is a job of the job table ([JobStore]); a
    release is a job with an intent ([ReleaseStore]) that the live saga
    ([ReleaseSaga], [ReleaseRuntime]) or the recovery after a crash
    ([ReleaseRecovery]) carries through preflight, backup, Graph activation and
    commit.  A new revision is validated and projected ([GraphProjector],
    [GraphPlan]); a graph_sync job then puts the projection on the Graph
    provider, polls its task, and finishes or fails job and record in one
    transaction ([GraphServices], [GraphRuntime] over [GraphStore]).  The gate of
    [GraphGate] reads that record and the provider before a release.  The impact
    analysis takes the changed entities of a comparison ([ImpactPlan]), asks the
    projected graph what they reach and along which paths ([ImpactAnalysis]) and
    for related evidence ([ImpactRetrieval]), through the provider's client
    ([GraphClient]).  Two restores cut across this: the working set goes back to
    a release in a new revision ([EntityRestore]); and the whole database goes
    back to an earlier one, in which unfinished jobs are closed ([JobRestore]) and
    every synchronisation is invalidated ([GraphStore]).

    ** Files and the code they model (paths under src/internal)

    Go's libraries, as far as the program uses them: [GoSort] (sort), [Keyset]
    (the keyset pagination shared by the SQLite queries), [GoStrings] (UTF-8,
    strings, unicode, strconv), [GoCrypto] (sha256, hex), [GoHeap]
    (container/heap), [GoJson] and [GoFloat] (encoding/json,
    domain/canonical.go), [JsonRoundTrip] (its round trip), [GoBase64].

    Domain: [Domain] (identities and kinds), [DomainEntity] (domain/entity.go,
    registry.go, validation.go, references.go, numeric.go).

    Jobs: [Job] (job/job.go), [JobStore] (storage/sqlite/jobs.go; the state is
    the rows of jobs and job_events, [step] one committed operation),
    [JobRestore] (storage/sqlite/restore_reconciliation.go: what a restore of
    the database does to them).

    Formulas: [FormulaDecimal], [FormulaRegistry], [FormulaAst],
    [FormulaLexer], [FormulaParser], [FormulaSemantic] (formula/*.go).

    Simulation: [SimRandom] (simulation/random), [SimScenario]
    (simulation/scenario), [SimEngine] (simulation/engine), [SimMetric]
    (simulation/metric).

    Versioning: [VersionGate] (versioning/revision, policy, gate),
    [DiffSequence], [VersionDiff] (versioning/diff) with its theory in
    [DiffArrays], [DiffCompare], [DiffEntities], [DiffRevisions], [DiffPaging].

    Risk: [RiskContract] (risk/contract), [RiskThreshold] (risk/threshold),
    [RiskComparison] (risk/comparison).  Backup: [BackupPolicy]
    (backup/domain/policy.go).

    Release: [ReleaseTypes] (versioning/release/types.go, job_adapter.go),
    [ReleaseStore] (storage/sqlite/release_*.go) and its executions
    [ReleaseHistory], [ReleasePreflight] (preflight.go, confirmation.go,
    canonical.go, validation/gate.go), [ReleaseSaga] (graph.go, backup.go,
    worker.go), [ReleaseRecovery] (recovery.go) with [ReleaseRecoveryFacts],
    [ReleaseRuntime] (bootstrap/release_runtime.go), [ReleaseExamples].

    Validation: [GraphSCC] (the Tarjan closure of graph.go and safety.go),
    [ValidationTypes] (types.go, report.go, catalog.go, gate.go),
    [ValidationGraph] (graph.go, safety.go), [ValidationWalk] (references.go,
    formula_index.go, symbols.go, rules.go), [ValidationAnalyze] (analyze.go,
    orchestrator.go).

    Graph projection: [GraphProjector] (graph/projector/registry.go, format.go,
    project.go, manifest.go, summary.go, base.go, fallback.go), [GraphPlan]
    (plan.go), with the theory of manifest texts in [GraphText] and the contents
    of a projection in [GraphProjection].

    Graph synchronisation: [GraphSync] (the values and decisions of graph/sync
    and graph/client/compatibility.go), [GraphStore] (storage/sqlite/graph_*.go:
    the tables and their transactions, the invalidation of a restore),
    [GraphServices] (the services of graph/sync as programs [Saga] over a
    [World]: this process's database, the provider and what others commit),
    [GraphRuntime] (bootstrap/graph_sync_runtime.go, app/graph_sync_service.go:
    one worker run, submission, retry, full rebuild, cancellation,
    reconciliation, status).  Its theory: [GraphHistory] (executions of the
    tables and their invariant), [GraphPuts] (what a program sends to the
    provider), [GraphServiceFacts] (the program calculus [runs], [lively]),
    [GraphRuntimeFacts] (the worker run and every operation), [GraphExamples] (a
    simulated provider and evaluated runs).

    Graph gate and activation: [GraphGate] (graph/gate and graphResult of
    bootstrap/release_gate_results.go), with evaluated runs in
    [GraphGateExamples].

    Graph impact analysis: [ImpactPlan] (graph/impact/planner, report and its
    canonical order), [ImpactAnalysis] (graph/impact/analysis: traversal, default
    paths and their expansion, merged warnings), [ImpactRetrieval]
    (graph/impact/retrieval), [GraphClient] (the queries, wire checks, error
    classes and retries of graph/client), [ImpactExamples].

    Entity store: [EntityStore] (storage/sqlite/store.go, checkpoint.go,
    local_validation.go, validation_*.go, derived_indexes.go,
    revision_metadata.go), [EntityRestore] (restore_release.go and the entity
    writes of ai_decisions.go), [StoreCursors] and [EntityReads] (its page tokens
    and queries), [EntityHistory] (its executions), [EntityFacts] and [EntityPaging]
    (its theorems), [EntityRuns] (concrete executions).

    ** What the theorems show

    The catalog: every reachable configuration agrees with its blobs and
    indexes; revisions never change; a patch commits at the version its caller
    named whatever other writers commit meanwhile, over the very entity it was
    computed from unless a release is restored in between; a deletion leaves no
    dangling reference; the validation gate passes only on a clean FULL run of
    the exact content; a client that follows the cursors while the catalog
    changes sees no key and identity twice and misses none that stays under its
    key.  JSON text
    and cursors read back.

    Jobs and releases: a terminal job stays terminal and a canceled one never
    succeeds; a request key names one job; releases form one chain of baselines
    and an intent commits once, under any interleaving; a live release passed
    preflight after the Graph had activated it and did nothing but commit after
    that; recovery reports the truth and publishes what can be published.

    Validation and formulas: a clean analysis is exactly a project whose
    schemas, references, formulas, extracted event edges and stacks are sound;
    cycles and loops of what is extracted are found exactly; parsing is total, evaluation is type sound and
    does not panic.

    Comparison, simulation, risk, backup: no reported change means the same
    content, segments add up to the whole comparison, the array diff is a longest
    common subsequence; the event queue refines a sorted list and a run ends in
    its budgets; a bounded draw takes every value from equally many states of the
    stream; reduction ignores arrival order;
    assessment fails closed; retention removes the oldest surplus only.

    Graph: a projection has exactly the nodes and edges of its revision; a delta
    plan rebuilds the target's manifest and sends only what changed.  A worker
    run that reports a commit has shown that exact snapshot in the provider; it
    submits at most once; a settled record is backed by its job, and every
    operation of the synchronisation is a path of legal table steps that moves
    its pipeline only forward, whatever others commit in between; the log of a
    Graph job follows the worker's phases, and may end in a restore; reconciliation
    sends again only a snapshot the provider does not have.  A Graph gate that
    passes has read a Ready record and a provider snapshot that agree, and a
    candidate it passed gets the provider's own answer when it is activated.  The
    changed
    set of an impact analysis and the entities its traversal reports are exactly
    those of the comparison and of the provider's answer; the default paths do
    not depend on the order the answers arrive in; which queries of the analysis the
    client refuses is exactly known.

    ** Fuel and bounds

    JSON decoding: [decode_fuel], two units per byte, and every call consumes a
    byte; nesting stops at Go's 10000.  The lexer: one iteration per byte
    ([lex_spec]).  The parser: three calls per token ([parse_fuel_enough]).
    Tarjan's visit: one unit per node that is not yet visited.
    The heap loops: the slice's length.  A simulation run: the event budget plus
    one.  Bounded draws: the loop ends at the first accepted word, and
    [Uint64n_total_and_unbiased] shows that every state has one ahead.  Patches
    retry at most the code's own 16 times.  A worker run polls its task as
    long as the process lives: the argument [polls] of [GraphRuntime] counts the
    waits left before the process closes, which is an outcome of its own, and
    the theorems hold for every value of it.  Machine integers: uint64 of the
    random stream with its wrap-around in [Z]; other Go ints are counts and
    versions in [Z] whose bounds the code checks.

    ** Parameters

    What is not in src/ is an argument with its documented behaviour as laws:
    google/uuid ([UuidLib], [UuidLaws]), the Unicode tables ([UnicodeTables]),
    cockroachdb/apd ([ApdLib], [ApdText], [ApdOrder]), the float64 and time
    formatters ([FloatText], [FloatTextLaws], [TimeText]), SQLite's lower and
    LIKE ([SqliteText]), the canonicalizer gowebpki/jcs ([JcsLib]), the Graph service, clock and fresh identifiers
    of a release (the class [GraphGate] of [ReleaseSaga], [Runtime], [RuntimeLaws]), the readers of the diff
    ([SegmentReaderLaws]).  For the synchronisation the provider is a
    [GraphProvider] that answers from a state of its own, and an [Environment]
    gives the clock, fresh identifiers and what other transactions do to the
    tables between two of this program's, which is assumed to be a path of
    table steps and nothing else.  The gate's provider is a [GraphActivator], the
    analysis' a [GraphQueryProvider], the client's transport an [Exchange].  The
    witnesses instantiate them with concrete
    functions.

    ** Not modelled

    HTTP routing and generated DTOs, process supervision, platform calls,
    provider network I/O and the JSON decoding of its answers, project
    directories, packaging and the web client: I/O and glue around the modelled
    operations.  The AI design pipeline (an accepted proposal's entities are an
    argument of [EntityRestore]), the jobs that orchestrate an impact
    analysis and the store of its reports, rule materialization, simulation
    orchestration, risk reports and the backup file formats have logic of their
    own that this library does not cover.  Of the Graph runtime, the goroutines,
    timers and in-flight set are left out (a run is one call of [run]), and of a
    restore's table of invalidations only its count, an argument of the status.
    The theorems on jobs of [JobStore] are about the operations of the job
    table, under a clock that does not go back; the Graph transactions write its
    rows with rules of their own, stated in [GraphHistory], which takes the jobs
    of other services as any commits that leave Graph jobs alone ([foreign]).  A
    restore of the database installs an earlier reachable one; how its file is
    replaced is not modelled.  SQL is modelled by its effect on
    the rows: transactions are atomic steps, and I/O failures of the database
    are left out except where the code turns them into an outcome. *)
From Stdlib Require Export ZArith Lia.
From stdpp Require Export base tactics option strings gmap sorting numbers list.

(** ** Fallible computations

    A Go function returning [(T, error)] becomes a function to [result T E]:
    [Ok v] for [(v, nil)] and [Err e] for [(_, e)]. *)
Inductive result (T E : Type) : Type :=
  | Ok (value : T)
  | Err (error : E).
Arguments Ok {T E} value.
Arguments Err {T E} error.

Definition result_bind {T U E : Type} (r : result T E) (f : T -> result U E) : result U E :=
  match r with Ok v => f v | Err e => Err e end.

Declare Scope eco_scope.
Delimit Scope eco_scope with eco.
Notation "'let?' x := c1 'in' c2" :=
  (result_bind c1 (fun x => c2)) (at level 10, x pattern, c1 at level 100, c2 at level 200) : eco_scope.
Open Scope eco_scope.

Definition is_ok {T E : Type} (r : result T E) : bool :=
  match r with Ok _ => true | Err _ => false end.

Lemma result_bind_Ok {T U E : Type} (r : result T E) (f : T -> result U E) (u : U) :
  result_bind r f = Ok u <-> exists v, r = Ok v /\ f v = Ok u.
Proof. destruct r; simpl; naive_solver. Qed.

Global Instance result_eq_dec {T E : Type} `{EqDecision T, EqDecision E} : EqDecision (result T E).
Proof. solve_decision. Defined.

(** A Go panic is an outcome of its own: [Err] of one of these. *)
Inductive go_panic := IndexOutOfRange | NilDereference.

(** Sequential traversal with an early return on the first error, the shape of
    a Go [for] loop whose body returns on [err != nil]. *)
Fixpoint foldr_result {A S E : Type} (f : S -> A -> result S E) (s : S) (l : list A) : result S E :=
  match l with
  | [] => Ok s
  | a :: l' => let? s' := f s a in foldr_result f s' l'
  end.

(** An invariant of the elements processed so far and the state. *)
Lemma foldr_result_inv {A S E : Type} (f : S -> A -> result S E) (P : list A -> S -> Prop) s l s' :
  P [] s -> (forall done a s1 s2, P done s1 -> f s1 a = Ok s2 -> P (done ++ [a])%list s2) ->
  foldr_result f s l = Ok s' -> P l s'.
Proof.
  intros H0 Hstep.
  assert (forall d s0, P d s0 -> foldr_result f s0 l = Ok s' -> P (d ++ l)%list s') as Hgen; [|exact (Hgen [] s H0)].
  clear H0 s. induction l as [|a l IH]; intros d s0 H0; simpl; [intros [= <-]; by rewrite app_nil_r|].
  intros (s1 & Ha & Hl)%result_bind_Ok.
  replace (d ++ a :: l)%list with ((d ++ [a]) ++ l)%list by (by rewrite <- app_assoc).
  eapply IH; [|exact Hl]. by eapply Hstep.
Qed.

(** The traversal succeeds where every step does. *)
Lemma foldr_result_total {A S E : Type} (f : S -> A -> result S E) (P : list A -> S -> Prop) s l :
  P [] s ->
  (forall done a rest s1, l = (done ++ a :: rest)%list -> P done s1 -> exists s2, f s1 a = Ok s2 /\ P (done ++ [a])%list s2) ->
  exists s', foldr_result f s l = Ok s' /\ P l s'.
Proof.
  intros H0 Hstep.
  assert (forall d k s0, l = (d ++ k)%list -> P d s0 -> exists s', foldr_result f s0 k = Ok s' /\ P l s') as Hgen; [|by apply (Hgen [])].
  clear H0 s. intros d k. revert d. induction k as [|a k IH]; intros d s0 Hl H0; simpl.
  - exists s0. rewrite Hl, app_nil_r. done.
  - destruct (Hstep d a k s0 Hl H0) as (s2 & -> & H2). simpl. apply (IH (d ++ [a])%list); [|done].
    by rewrite <- app_assoc.
Qed.

(** Mapping a fallible function, left to right. *)
Definition map_result {A B E : Type} (f : A -> result B E) : list A -> result (list B) E :=
  fix go l := match l with
  | [] => Ok []
  | a :: l' => let? b := f a in let? bs := go l' in Ok (b :: bs)
  end.

Lemma map_result_cons {A B E : Type} (f : A -> result B E) a l :
  map_result f (a :: l) = (let? b := f a in let? bs := map_result f l in Ok (b :: bs)).
Proof. reflexivity. Qed.

Lemma map_result_Ok {A B E : Type} (f : A -> result B E) l k :
  map_result f l = Ok k <-> Forall2 (fun a b => f a = Ok b) l k.
Proof.
  revert k. induction l as [|a l IH]; intros k; simpl.
  - split; [by intros [= <-]|]. intros Hk. by inversion Hk.
  - rewrite result_bind_Ok. setoid_rewrite result_bind_Ok. setoid_rewrite IH. split.
    + intros (b & Hb & bs & Hbs & [= <-]). by constructor.
    + intros Hk. inversion Hk; subst. eauto.
Qed.

(** ** Booleans, decisions and automation *)
Ltac bool_to_prop :=
  repeat match goal with
  | H : (_ && _)%bool = true |- _ => apply andb_prop in H as [? ?]
  | H : (_ || _)%bool = false |- _ => apply orb_false_elim in H as [? ?]
  | H : negb _ = true |- _ => apply negb_true_iff in H
  | H : negb _ = false |- _ => apply negb_false_iff in H
  | H : bool_decide _ = true |- _ => apply bool_decide_eq_true in H
  | H : bool_decide _ = false |- _ => apply bool_decide_eq_false in H
  | H : (_ <? _)%Z = true |- _ => apply Z.ltb_lt in H
  | H : (_ <? _)%Z = false |- _ => apply Z.ltb_ge in H
  | H : (_ <=? _)%Z = true |- _ => apply Z.leb_le in H
  | H : (_ <=? _)%Z = false |- _ => apply Z.leb_gt in H
  | H : (_ =? _)%Z = true |- _ => apply Z.eqb_eq in H
  | H : (_ =? _)%Z = false |- _ => apply Z.eqb_neq in H
  | H : Is_true _ |- _ => apply Is_true_true in H
  end.

(** Case analysis on every [if] and [match] scrutinee of a hypothesis that
    equates a computed result with a constructor. *)
Ltac case_result H :=
  repeat (first
    [ progress simplify_eq
    | match type of H with
      | context [if ?b then _ else _] => destruct b eqn:?
      | context [match ?x with _ => _ end] => destruct x eqn:?
      end ]; simpl in H).

(** Case analysis on the outermost boolean test of the goal. *)
Tactic Notation "case_guard" "as" ident(H) :=
  match goal with |- context [if ?b then _ else _] =>
    match type of b with bool => destruct b eqn:H end
  end.
Tactic Notation "case_guard" := let H := fresh "Hguard" in case_guard as H.

(** Case analysis on the outermost decision of the goal, whatever the
    hypotheses mention. *)
Tactic Notation "case_goal" "as" simple_intropattern(H) :=
  match goal with |- context [@decide ?P ?D] => destruct (@decide P D) as H end.
Tactic Notation "case_goal" := case_goal as [?|?].

(** Closed decidable goals. *)
Ltac compute_decide := apply (bool_decide_unpack _); vm_compute; exact I.

Create HintDb eco discriminated.

(** ** Option and list lemmas shared by the components *)
Definition option_forallb {A : Type} (p : A -> bool) (o : option A) : bool :=
  match o with None => true | Some a => p a end.

Fixpoint nodupb {A : Type} `{EqDecision A} (l : list A) : bool :=
  match l with
  | [] => true
  | a :: l' => negb (bool_decide (a ∈ l')) && nodupb l'
  end.

Lemma nodupb_NoDup {A : Type} `{EqDecision A} (l : list A) : nodupb l = true <-> NoDup l.
Proof.
  induction l as [|a l IH]; simpl.
  - split; [constructor | done].
  - rewrite andb_true_iff, NoDup_cons, IH.
    destruct (decide (a ∈ l)) as [Hin|Hin].
    + rewrite bool_decide_true by done. naive_solver.
    + rewrite bool_decide_false by done. naive_solver.
Qed.

Lemma forallb_Forall {A : Type} (p : A -> bool) (l : list A) :
  forallb p l = true <-> Forall (fun a => p a = true) l.
Proof.
  induction l as [|a l IH]; simpl; [by split|].
  rewrite andb_true_iff, Forall_cons, IH. done.
Qed.

Lemma existsb_Exists {A : Type} (p : A -> bool) (l : list A) :
  existsb p l = true <-> Exists (fun a => p a = true) l.
Proof.
  induction l as [|a l IH]; simpl; [by rewrite Exists_nil|].
  rewrite orb_true_iff, Exists_cons, IH. done.
Qed.

(** Elements with distinct keys are determined by their key. *)
Lemma NoDup_fmap_key {A K : Type} (key : A -> K) (l : list A) x y :
  NoDup (key <$> l) -> x ∈ l -> y ∈ l -> key x = key y -> x = y.
Proof.
  intros Hnd [i Hi]%list_elem_of_lookup [j Hj]%list_elem_of_lookup Heq. assert (i = j) as ->; [|congruence].
  eapply NoDup_lookup; [exact Hnd| |]; rewrite list_lookup_fmap; [by rewrite Hi|]. rewrite Hj. simpl. by rewrite Heq.
Qed.

#[export] Hint Resolve NoDup_nil_2 : eco.
