(* ===== verification/GoSort.v ===== *)
(** * Go's [sort] package as the program uses it

    [sort.Slice], [sort.SliceStable] and [sort.Strings] are one stable
    insertion sort over the program's own [less] functions.  Go's [sort.Slice]
    is not stable: the results are the same whenever [less] orders the sorted
    elements totally ([sort_by_unique_on]), and the theorems of the development
    use the order of a sorted result only there. *)
From S2P Require Import Prelude.

Section sort.
Context {A : Type} (less : A -> A -> bool).

Fixpoint insert_by (x : A) (l : list A) : list A :=
  match l with
  | [] => [x]
  | y :: l' => if less y x then y :: insert_by x l' else x :: y :: l'
  end.

Definition sort_by (l : list A) : list A := foldr insert_by [] l.

(** The relation a sorted slice satisfies: no later element is smaller. *)
Definition not_after (x y : A) : Prop := less y x = false.

Lemma insert_by_perm x l : insert_by x l ≡ₚ x :: l.
Proof.
  induction l as [|y l IH]; simpl; [done|].
  destruct (less y x); [|done]. rewrite IH. apply Permutation_swap.
Qed.

Lemma sort_by_perm l : sort_by l ≡ₚ l.
Proof. induction l as [|x l IH]; simpl; [done|]. by rewrite insert_by_perm, IH. Qed.

Lemma elem_of_sort_by x l : x ∈ sort_by l <-> x ∈ l.
Proof. by rewrite sort_by_perm. Qed.

Lemma length_sort_by l : length (sort_by l) = length l.
Proof. by rewrite sort_by_perm. Qed.

Lemma NoDup_sort_by l : NoDup (sort_by l) <-> NoDup l.
Proof. by rewrite sort_by_perm. Qed.

Lemma Forall_sort_by P l : Forall P (sort_by l) <-> Forall P l.
Proof. by rewrite sort_by_perm. Qed.
End sort.

(** Strict weak orders and strict total orders as boolean [less] functions. *)
Class WeakOrder {A : Type} (less : A -> A -> bool) : Prop := {
  wo_irrefl x : less x x = false;
  wo_trans x y z : less x y = true -> less y z = true -> less x z = true;
  wo_incomp x y z : less y x = false -> less z y = false -> less z x = false
}.
Class StrictTotal {A : Type} (less : A -> A -> bool) : Prop := {
  st_weak :: WeakOrder less;
  st_total x y : less x y = false -> less y x = false -> x = y
}.

Lemma wo_asym {A : Type} (less : A -> A -> bool) `{!WeakOrder less} x y :
  less x y = true -> less y x = false.
Proof.
  intros H. destruct (less y x) eqn:E; [|done].
  pose proof (wo_trans x y x H E) as F. by rewrite wo_irrefl in F.
Qed.

Section sorted.
Context {A : Type} (less : A -> A -> bool) `{!WeakOrder less}.

Global Instance not_after_trans : Transitive (not_after less).
Proof. intros x y z. unfold not_after. apply wo_incomp. Qed.

Lemma insert_by_sorted x l :
  StronglySorted (not_after less) l -> StronglySorted (not_after less) (insert_by less x l).
Proof.
  induction l as [|y l IH]; intros Hl; simpl; [repeat constructor|].
  apply StronglySorted_cons in Hl as [Hy Hl]. destruct (less y x) eqn:E.
  - constructor; [by apply IH|]. rewrite insert_by_perm. constructor; [|done].
    by apply (wo_asym less).
  - assert (not_after less x y) by done.
    constructor; [by constructor|]. constructor; [done|].
    eapply Forall_impl; [exact Hy|]. intros z ?. by etrans.
Qed.

Lemma sort_by_sorted l : StronglySorted (not_after less) (sort_by less l).
Proof. induction l; simpl; [constructor|]. by apply insert_by_sorted. Qed.

(** Sorting forgets the order of its input as soon as [less] separates the
    elements that occur in it. *)
Lemma sort_by_unique_on l1 l2 :
  (forall x y, x ∈ l1 -> y ∈ l1 -> less x y = false -> less y x = false -> x = y) ->
  l1 ≡ₚ l2 -> sort_by less l1 = sort_by less l2.
Proof.
  intros Hinj Hperm. apply (StronglySorted_unique_strong (not_after less));
    [|apply sort_by_sorted..|by rewrite !sort_by_perm].
  intros x y Hx Hy ??. apply Hinj; [| |done..].
  - by apply elem_of_sort_by in Hx.
  - apply elem_of_sort_by in Hy. by rewrite Hperm.
Qed.

Lemma sort_by_id l : StronglySorted (not_after less) l -> sort_by less l = l.
Proof.
  induction l as [|x l IH]; simpl; [done|]. intros [Hx Hl]%StronglySorted_cons.
  rewrite IH by done. destruct l as [|y l]; simpl; [done|].
  apply Forall_cons in Hx as [Hxy _]. unfold not_after in Hxy. by rewrite Hxy.
Qed.
End sorted.

Lemma sort_by_unique {A : Type} (less : A -> A -> bool) `{!StrictTotal less} l1 l2 :
  l1 ≡ₚ l2 -> sort_by less l1 = sort_by less l2.
Proof. apply sort_by_unique_on; [apply _|]. intros. by apply (st_total (less := less)). Qed.

(** ** The orders of the program *)

(** Go compares strings bytewise, as [String.ltb] does. *)
Lemma string_ltb_le a b : String.ltb a b = false <-> (b ≤ a)%string.
Proof.
  unfold String.le, String.leb, String.ltb.
  rewrite (String.compare_antisym a b). destruct (String.compare b a); simpl; naive_solver.
Qed.

Global Instance string_ltb_total : StrictTotal String.ltb.
Proof.
  split; [split|].
  - intros x. by apply string_ltb_le.
  - intros x y z Hxy Hyz. apply not_false_is_true. rewrite string_ltb_le. intros Hzx.
    apply not_false_iff_true in Hyz. apply Hyz, string_ltb_le. etrans; [exact Hzx|].
    destruct (total String.le x y) as [|Hyx]; [done|].
    apply string_ltb_le in Hyx. congruence.
  - intros x y z. rewrite !string_ltb_le. intros. by etrans.
  - intros x y Hxy%string_ltb_le Hyx%string_ltb_le. by apply (anti_symm String.le).
Qed.

Global Instance Z_ltb_total : StrictTotal Z.ltb.
Proof. split; [split|]; intros; bool_to_prop; lia. Qed.

(** [less] on a projection: [sort.Slice(v, func(i, j) { return v[i].K < v[j].K })]. *)
Definition less_on {A K : Type} (key : A -> K) (less : K -> K -> bool) (x y : A) : bool :=
  less (key x) (key y).

Global Instance less_on_weak {A K : Type} (key : A -> K) less `{!WeakOrder less} :
  WeakOrder (less_on key less).
Proof.
  unfold less_on. split; intros; [apply wo_irrefl|by eapply wo_trans|by eapply wo_incomp].
Qed.

Lemma sort_on_key_unique {A K : Type} (key : A -> K) less `{!StrictTotal less} l1 l2 :
  NoDup (key <$> l1) -> l1 ≡ₚ l2 -> sort_by (less_on key less) l1 = sort_by (less_on key less) l2.
Proof.
  intros Hnd. apply sort_by_unique_on; [apply _|]. intros x y Hx Hy Hxy Hyx.
  apply (NoDup_fmap_key key l1); [done..|]. by apply (st_total (less := less)).
Qed.

(** The lexicographic idiom [if a.K != b.K { return a.K < b.K }; return rest]. *)
Definition then_by {A K : Type} `{EqDecision K} (key : A -> K) (less : K -> K -> bool)
    (rest : A -> A -> bool) (x y : A) : bool :=
  if decide (key x = key y) then rest x y else less (key x) (key y).

Global Instance then_by_weak {A K : Type} `{EqDecision K} (key : A -> K) less rest
  `{!StrictTotal less, !WeakOrder rest} : WeakOrder (then_by key less rest).
Proof.
  unfold then_by. split.
  - intros x. rewrite decide_True by done. apply wo_irrefl.
  - intros x y z. repeat case_decide; try congruence; intros Ha Hb.
    + by eapply wo_trans.
    + match goal with Ha : less (key x) (key y) = true |- _ =>
        pose proof (wo_asym less _ _ Ha) end. congruence.
    + by eapply wo_trans.
  - intros x y z H1 H2.
    destruct (decide (key y = key x)) as [E1|E1]; destruct (decide (key z = key y)) as [E2|E2].
    + rewrite decide_True by congruence. by eapply wo_incomp.
    + rewrite decide_False by congruence. by rewrite <-E1.
    + rewrite decide_False by congruence. by rewrite E2.
    + destruct (decide (key z = key x)) as [E3|E3]; [|by eapply wo_incomp].
      exfalso. apply E1, (st_total (less := less)); [done|]. by rewrite <-E3.
Qed.

Lemma then_by_eq {A K : Type} `{EqDecision K} (key : A -> K) less rest `{!StrictTotal less} x y :
  then_by key less rest x y = false -> then_by key less rest y x = false ->
  key x = key y /\ rest x y = false /\ rest y x = false.
Proof.
  unfold then_by. destruct (decide (key x = key y)) as [E|E].
  - by rewrite decide_True.
  - rewrite decide_False by congruence. intros. by destruct E; apply (st_total (less := less)).
Qed.

(** A descending order. *)
Definition greater {A : Type} (less : A -> A -> bool) (x y : A) : bool := less y x.

#[global] Typeclasses Opaque greater.

Global Instance greater_total {A : Type} (less : A -> A -> bool) `{!StrictTotal less} : StrictTotal (greater less).
Proof.
  unfold greater. split; [split|].
  - intros x. apply wo_irrefl.
  - intros x y z Hxy Hyz. by eapply wo_trans.
  - intros x y z Hxy Hyz. by eapply wo_incomp.
  - intros x y Hxy Hyx. by apply (st_total (less := less)).
Qed.

Definition sort_strings : list string -> list string := sort_by String.ltb.

Lemma sort_strings_NoDup_lt l :
  NoDup l -> StronglySorted (fun a b => String.ltb a b = true) (sort_strings l).
Proof.
  intros Hnd. pose proof (sort_by_sorted String.ltb l) as Hs. fold (sort_strings l) in Hs.
  assert (NoDup (sort_strings l)) as Hnd' by by apply NoDup_sort_by.
  clear Hnd. induction Hs as [|x l' Hs IH Hx]; [constructor|].
  apply NoDup_cons in Hnd' as [Hnin Hnd']. constructor; [by apply IH|].
  rewrite Forall_forall in Hx |- *. intros y Hy. apply not_false_is_true. intros Hxy.
  assert (x = y) as -> by (apply (st_total (less := String.ltb)); [done|by apply Hx]). done.
Qed.

(** ** [sort.SearchStrings]: binary search for the first index not below [x] *)
Fixpoint search_loop (fuel : nat) (values : list string) (x : string) (i j : nat) : nat :=
  match fuel with
  | O => i
  | S fuel' =>
      if decide (i < j) then
        let h := Nat.div2 (i + j) in
        if String.ltb (default ""%string (values !! h)) x
        then search_loop fuel' values x (S h) j
        else search_loop fuel' values x i h
      else i
  end.

Definition SearchStrings (values : list string) (x : string) : nat :=
  search_loop (length values) values x 0 (length values).

Lemma StronglySorted_lookup {A : Type} (R : relation A) l i j x y :
  StronglySorted R l -> i < j -> l !! i = Some x -> l !! j = Some y -> R x y.
Proof.
  intros Hs. revert i j. induction Hs as [|a l Hs IH Ha]; intros i j Hij Hi Hj; [done|].
  destruct j as [|j]; [lia|]. simpl in Hj. destruct i as [|i]; simpl in Hi.
  - simplify_eq. rewrite Forall_forall in Ha. apply Ha. by eapply list_elem_of_lookup_2.
  - eapply IH; [|done..]. lia.
Qed.

(** Below [r] everything is smaller than [x], from [r] on nothing is. *)
Definition splits_at (values : list string) (x : string) (r : nat) : Prop :=
  r <= length values /\
  (forall k v, k < r -> values !! k = Some v -> String.ltb v x = true) /\
  (forall k v, r <= k -> values !! k = Some v -> String.ltb v x = false).

Lemma sorted_below values x h m k v :
  StronglySorted (not_after String.ltb) values -> values !! h = Some m ->
  String.ltb m x = true -> k <= h -> values !! k = Some v -> String.ltb v x = true.
Proof.
  intros Hs Hm Hmx Hk Hv. destruct (decide (k = h)) as [->|]; [congruence|].
  assert (not_after String.ltb v m) as Hvm by (eapply StronglySorted_lookup; [done| |done..]; lia).
  apply not_false_is_true. intros Hvx. unfold not_after in Hvm.
  assert (String.ltb m x = false) by (eapply wo_incomp; [|exact Hvm]; done). congruence.
Qed.

Lemma sorted_above values x h m k v :
  StronglySorted (not_after String.ltb) values -> values !! h = Some m ->
  String.ltb m x = false -> h <= k -> values !! k = Some v -> String.ltb v x = false.
Proof.
  intros Hs Hm Hmx Hk Hv. destruct (decide (k = h)) as [->|]; [congruence|].
  assert (not_after String.ltb m v) as Hmv by (eapply StronglySorted_lookup; [done| |done..]; lia).
  eapply wo_incomp; [exact Hmx|exact Hmv].
Qed.

Lemma search_loop_spec fuel values x i j :
  StronglySorted (not_after String.ltb) values ->
  j - i <= fuel -> i <= j -> j <= length values ->
  (forall k v, k < i -> values !! k = Some v -> String.ltb v x = true) ->
  (forall k v, j <= k -> values !! k = Some v -> String.ltb v x = false) ->
  splits_at values x (search_loop fuel values x i j).
Proof.
  intros Hs. revert i j. induction fuel as [|fuel IH]; intros i j Hf Hij Hj Hlo Hhi; simpl.
  { assert (i = j) as -> by lia. done. }
  case_decide as Hlt; [|assert (i = j) as -> by lia; done].
  assert (i <= Nat.div2 (i + j) < j) as [Hh1 Hh2].
  { rewrite Nat.div2_div.
    split; [apply Nat.div_le_lower_bound|apply Nat.Div0.div_lt_upper_bound]; lia. }
  destruct (lookup_lt_is_Some_2 values (Nat.div2 (i + j))) as [m Hm]; [lia|].
  rewrite Hm; simpl. destruct (String.ltb m x) eqn:E.
  - apply IH; [lia..| |done]. intros k v Hk Hv. apply (sorted_below values x (Nat.div2 (i + j)) m k); try done. lia.
  - apply IH; [lia..|done|]. intros k v Hk Hv. by apply (sorted_above values x (Nat.div2 (i + j)) m k).
Qed.

Lemma SearchStrings_spec values x :
  StronglySorted (not_after String.ltb) values -> splits_at values x (SearchStrings values x).
Proof.
  intros Hs. apply search_loop_spec; [done|lia..| |].
  - intros k v Hk. lia.
  - intros k v Hk Hv. apply lookup_lt_Some in Hv. lia.
Qed.

(** The program's membership idiom: search, then compare the element found. *)
Definition search_contains (values : list string) (x : string) : bool :=
  let index := SearchStrings values x in
  bool_decide (index < length values) && bool_decide (values !! index = Some x).

Lemma search_contains_sorted values x :
  StronglySorted (not_after String.ltb) values -> search_contains values x = true <-> x ∈ values.
Proof.
  intros Hs. destruct (SearchStrings_spec values x Hs) as (Hr & Hlo & Hhi).
  unfold search_contains. rewrite andb_true_iff, !bool_decide_eq_true. split.
  - intros [_ H]. by eapply list_elem_of_lookup_2.
  - intros [k Hk]%list_elem_of_lookup_1.
    set (r := SearchStrings values x) in *.
    assert (r <= k) as Hrk.
    { destruct (decide (k < r)); [|lia]. pose proof (Hlo k x ltac:(done) Hk) as H.
      by rewrite (wo_irrefl (less := String.ltb)) in H. }
    pose proof (lookup_lt_Some _ _ _ Hk) as Hlen.
    destruct (lookup_lt_is_Some_2 values r) as [v Hv]; [lia|].
    split; [lia|]. rewrite Hv. f_equal.
    destruct (decide (r = k)) as [->|]; [congruence|].
    assert (not_after String.ltb v x) as Hvx.
    { apply (StronglySorted_lookup _ values r k); [done|lia|done..]. }
    apply (st_total (less := String.ltb)); [by apply (Hhi r v)|done].
Qed.
