(* ===== verification/Keyset.v ===== *)
(** * Keyset pagination

    What the catalog and history queries share: the rows after a cursor in the
    order of their keys, one more than the limit to learn whether there is a next
    page, and the key of the last row as its cursor.  Reading pages from sources
    that change in between visits no key twice and misses no row that stays. *)
From S2P Require Import Prelude GoSort.

Section keyset.
Context {A K : Type} (key : A -> K) (less : K -> K -> bool).

Definition follows (after : option K) (x : A) : bool := match after with Some c => less c (key x) | None => true end.
Definition page_of (rows : list A) (after : option K) (limit : nat) : list A * option K :=
  let found := take (S limit) (List.filter (follows after) rows) in
  if decide (limit < length found) then (take limit found, key <$> found !! pred limit) else (found, None).
(** The pages of a client that reads page [i] from source [i]; [true] when the
    last page was reached. *)
Fixpoint read_pages (sources : list (list A)) (after : option K) (limit : nat) : list A * bool :=
  match sources with
  | [] => ([], false)
  | rows :: rest =>
      let '(items, next) := page_of rows after limit in
      match next with
      | None => (items, true)
      | Some c => let '(more, finished) := read_pages rest (Some c) limit in (items ++ more, finished)
      end
  end.

Definition key_before (x y : A) : Prop := less (key x) (key y) = true.
Definition in_order (rows : list A) : Prop := StronglySorted key_before rows.
Context `{!StrictTotal less}.

Lemma in_order_filter (p : A -> bool) rows : in_order rows -> in_order (List.filter p rows).
Proof.
  induction 1 as [|x l Hl IH Hx]; [constructor|]. cbn [List.filter]. destruct (p x); [|done]. constructor; [done|].
  rewrite Forall_forall in Hx |- *. intros y Hy. apply Hx. rewrite list_elem_of_In, filter_In, <- list_elem_of_In in Hy. by destruct Hy.
Qed.
Lemma in_order_take n rows : in_order rows -> in_order (take n rows).
Proof.
  intros Hs. revert n. induction Hs as [|x l Hl IH Hx]; intros [|n]; [constructor..|]. constructor; [apply IH|].
  rewrite Forall_forall in Hx |- *. intros y Hy%elem_of_take. destruct Hy as (i & Hi & _). by apply Hx, (list_elem_of_lookup_2 _ i).
Qed.
Lemma in_order_app l k : in_order l -> in_order k -> (forall x y, x ∈ l -> y ∈ k -> key_before x y) -> in_order (l ++ k).
Proof.
  intros Hl Hk Hlk. induction Hl as [|x l Hl IH Hx]; [done|]. constructor.
  - apply IH. intros y z Hy. apply Hlk. by right.
  - apply Forall_app. split; [done|]. apply Forall_forall. intros y Hy. apply Hlk; [by left|done].
Qed.

(** A page: the first rows after the cursor; with a next page it is full and the
    cursor is its last key, without one it is everything. *)
Lemma page_spec rows after limit items next : in_order rows -> 1 <= limit -> page_of rows after limit = (items, next) ->
  let found := List.filter (follows after) rows in
  in_order items /\ items = take limit found /\
  match next with
  | None => items = found
  | Some c => length items = limit /\ exists x, last items = Some x /\ key x = c /\ limit < length found
  end.
Proof.
  intros Hs Hl. unfold page_of. set (found := List.filter (follows after) rows). cbv zeta.
  assert (in_order found) as Hf by by apply in_order_filter. rewrite length_take. case_decide as Hlen; intros [= <- <-].
  - rewrite take_take. replace (limit `min` S limit) with limit by lia. split_and!; [by apply in_order_take|done|].
    rewrite lookup_take_lt by lia. destruct (lookup_lt_is_Some_2 found (pred limit)) as [x Hx]; [lia|]. rewrite Hx. cbn.
    assert (length (take limit found) = limit) as Hlt by (rewrite length_take; lia). split; [done|]. exists x. split_and!; [|done|lia].
    rewrite last_lookup, Hlt. rewrite lookup_take_lt by lia. done.
  - rewrite (take_ge found (S limit)) by lia. rewrite (take_ge found limit) by lia. done.
Qed.
Lemma follows_after x c y : key_before x y -> follows (Some c) x = true -> follows (Some c) y = true.
Proof. unfold key_before. cbn. intros Hxy Hc. by eapply wo_trans. Qed.
(** What comes after the last row of a full page is after everything on it. *)
Lemma in_order_last items x : in_order items -> last items = Some x -> forall y, y ∈ items -> y = x \/ key_before y x.
Proof.
  intros Hs [l ->]%last_Some y Hy. apply elem_of_app in Hy as [Hy|Hy]; [|apply list_elem_of_singleton in Hy; by left]. right.
  unfold in_order in Hs. induction l as [|z l IH]; [by apply elem_of_nil in Hy|]. cbn in Hs. apply StronglySorted_cons in Hs as [Hz Hs].
  apply elem_of_cons in Hy as [->|Hy]; [|by apply IH]. rewrite Forall_forall in Hz. apply Hz. apply elem_of_app. right. by left.
Qed.

Lemma elem_of_found rows after y : y ∈ List.filter (follows after) rows <-> y ∈ rows /\ follows after y = true.
Proof. by rewrite list_elem_of_In, filter_In, <- list_elem_of_In. Qed.
Lemma take_before n l x y : in_order l -> last (take n l) = Some x -> y ∈ drop n l -> key_before x y.
Proof.
  intros Hs Hx Hy. rewrite <- (take_drop n l) in Hs.
  apply last_Some in Hx as [l' Hx]. rewrite Hx in Hs. unfold in_order in Hs. clear -Hs Hy.
  induction l' as [|z l' IH]; cbn in Hs; apply StronglySorted_cons in Hs as [Hz Hs]; [|by apply IH].
  rewrite Forall_forall in Hz. by apply Hz.
Qed.

(** No key twice, in order. *)
Lemma read_pages_in_order sources after limit items finished : Forall in_order sources -> 1 <= limit ->
  read_pages sources after limit = (items, finished) -> in_order items /\ Forall (fun x => follows after x = true) items.
Proof.
  intros Hall Hl. revert after items. induction Hall as [|rows rest Hrows Hall IH]; intros after items; cbn [read_pages]; [intros [= <- _]; split; constructor|].
  destruct (page_of rows after limit) as [page next] eqn:Hp. destruct (page_spec _ _ _ _ _ Hrows Hl Hp) as (Hs & Htake & Hnext).
  assert (Forall (fun x => follows after x = true) page) as Hfollow.
  { apply Forall_forall. intros x Hx. rewrite Htake in Hx. apply elem_of_take in Hx as (i & Hi & _).
    apply list_elem_of_lookup_2, elem_of_found in Hi. by destruct Hi. }
  destruct next as [c|]; [|intros [= <- _]; done]. destruct Hnext as (_ & x & Hx & <- & _).
  destruct (read_pages rest (Some (key x)) limit) as [more fin] eqn:Hm. intros [= <- ->].
  destruct (IH _ _ Hm) as [Hmore Hafter]. rewrite Forall_forall in Hafter.
  assert (forall y z, y ∈ page -> z ∈ more -> key_before y z) as Hyz.
  { intros y z Hy Hz. specialize (Hafter z Hz). cbn in Hafter. destruct (in_order_last _ _ Hs Hx y Hy) as [->|Hy']; [done|]. by eapply wo_trans. }
  split; [by apply in_order_app|]. apply Forall_app. split; [done|]. apply Forall_forall. intros z Hz.
  destruct after as [c|]; [|done]. apply last_Some in Hx as [l' Hx]. assert (x ∈ page) as Hxp by (rewrite Hx; apply elem_of_app; right; by left).
  rewrite Forall_forall in Hfollow. by eapply follows_after; [apply Hyz|apply Hfollow].
Qed.
(** Nothing that no source holds. *)
Lemma read_pages_sound sources after limit items finished x : Forall in_order sources -> 1 <= limit ->
  read_pages sources after limit = (items, finished) -> x ∈ items -> exists rows, rows ∈ sources /\ x ∈ rows.
Proof.
  intros Hall Hl. revert after items. induction Hall as [|rows rest Hrows Hall IH]; intros after items; cbn [read_pages]; [intros [= <- _] []%elem_of_nil|].
  destruct (page_of rows after limit) as [page next] eqn:Hp. destruct (page_spec _ _ _ _ _ Hrows Hl Hp) as (_ & Htake & _).
  assert (x ∈ page -> x ∈ rows) as Hpage.
  { rewrite Htake. intros (i & Hi & _)%elem_of_take. by apply list_elem_of_lookup_2, elem_of_found in Hi as [? _]. }
  destruct next as [c|]; [|intros [= <- _] Hx; exists rows; split; [by left|auto]].
  destruct (read_pages rest (Some c) limit) as [more fin] eqn:Hm. intros [= <- ->] [Hx|Hx]%elem_of_app; [exists rows; split; [by left|auto]|].
  destruct (IH _ _ Hm Hx) as (rows' & Hr & Hx'). exists rows'. split; [by right|done].
Qed.
(** Nothing missed that every source holds. *)
Lemma read_pages_complete sources after limit items k : Forall in_order sources -> 1 <= limit ->
  read_pages sources after limit = (items, true) ->
  (forall rows, rows ∈ sources -> exists x, x ∈ rows /\ key x = k) ->
  match after with Some c => less c k = true | None => True end -> exists x, x ∈ items /\ key x = k.
Proof.
  intros Hall Hl. revert after items. induction Hall as [|rows rest Hrows Hall IH]; intros after items; cbn [read_pages]; [done|].
  destruct (page_of rows after limit) as [page next] eqn:Hp. destruct (page_spec _ _ _ _ _ Hrows Hl Hp) as (Hs & Htake & Hnext).
  intros Hread Hin Hafter. destruct (Hin rows) as (x & Hx & Hk); [by left|].
  assert (x ∈ List.filter (follows after) rows) as Hf by (apply elem_of_found; split; [done|]; destruct after; cbn; by rewrite ?Hk).
  destruct next as [c|].
  - destruct Hnext as (_ & z & Hz & <- & _). destruct (read_pages rest (Some (key z)) limit) as [more fin] eqn:Hm.
    injection Hread as <- ->. rewrite <- (take_drop limit (List.filter _ _)), elem_of_app, <- Htake in Hf. destruct Hf as [Hxp|Hxp]; [exists x; split; [apply elem_of_app; by left|done]|].
    destruct (IH (Some (key z)) more) as (y & Hy & Hyk); [done| | |exists y; split; [apply elem_of_app; by right|done]].
    + intros rows' Hr. apply Hin. by right.
    + rewrite <- Hk. rewrite Htake in Hz. by apply (take_before limit _ _ _ (in_order_filter _ _ Hrows) Hz Hxp).
  - injection Hread as <-. exists x. by rewrite Hnext.
Qed.

Lemma in_order_NoDup l : in_order l -> NoDup l.
Proof.
  induction 1 as [|x l Hl IH Hx]; constructor; [|done]. intros Hin. rewrite Forall_forall in Hx. specialize (Hx x Hin).
  unfold key_before in Hx. by rewrite wo_irrefl in Hx.
Qed.
Lemma in_order_ext l k : in_order l -> in_order k -> (forall x, x ∈ l <-> x ∈ k) -> l = k.
Proof.
  intros Hl Hk Hext. apply (StronglySorted_unique_strong key_before); [|done|done|apply NoDup_Permutation; [by apply in_order_NoDup..|done]].
  intros x y _ _ Hxy Hyx. unfold key_before in *. by rewrite (wo_asym _ _ _ Hxy) in Hyx.
Qed.
Lemma next_rows rows after limit x : in_order rows -> last (take limit (List.filter (follows after) rows)) = Some x ->
  drop limit (List.filter (follows after) rows) = List.filter (follows (Some (key x))) rows.
Proof.
  intros Hs Hx. set (found := List.filter (follows after) rows) in *. assert (in_order found) as Hf by by apply in_order_filter.
  assert (x ∈ take limit found) as Hin by (apply last_Some in Hx as [l' ->]; apply elem_of_app; right; by left).
  apply in_order_ext; [|by apply in_order_filter|].
  - unfold in_order in *. rewrite <- (take_drop limit found) in Hf. clear -Hf. induction (take limit found) as [|z l IH]; [done|].
    apply IH. cbn in Hf. by apply StronglySorted_cons in Hf as [_ Hf].
  - intros y. rewrite elem_of_found. split.
    + intros Hy. split; [|by apply (take_before limit found)].
      assert (y ∈ found) as [Hr _]%elem_of_found by (rewrite <- (take_drop limit found); apply elem_of_app; by right). done.
    + intros [Hy Hxy]. cbn in Hxy. assert (follows after x = true) as Hax.
      { assert (x ∈ found) as [_ ?]%elem_of_found by (rewrite <- (take_drop limit found); apply elem_of_app; by left). done. }
      assert (y ∈ found) as Hyf by (apply elem_of_found; split; [done|]; destruct after; [by eapply follows_after|done]).
      rewrite <- (take_drop limit found) in Hyf. apply elem_of_app in Hyf as [Hyt|]; [|done]. exfalso.
      destruct (in_order_last _ _ (in_order_take limit found Hf) Hx y Hyt) as [->|Hyx]; [by rewrite wo_irrefl in Hxy|].
      unfold key_before in Hyx. by rewrite (wo_asym _ _ _ Hxy) in Hyx.
Qed.
(** A source at rest is read completely, in as many pages as it has rows at most. *)
Lemma read_pages_at_rest rows after limit n : in_order rows -> 1 <= limit -> length (List.filter (follows after) rows) <= n ->
  read_pages (replicate (S n) rows) after limit = (List.filter (follows after) rows, true).
Proof.
  intros Hs Hl. revert after. induction n as [|n IH]; intros after Hn; change (replicate (S ?m) rows) with (rows :: replicate m rows);
    cbn [read_pages]; destruct (page_of rows after limit) as [page next] eqn:Hp;
    destruct (page_spec _ _ _ _ _ Hs Hl Hp) as (_ & Htake & Hnext); destruct next as [c|]; try (by rewrite Hnext);
    destruct Hnext as (_ & x & Hx & <- & Hlen).
  - lia.
  - rewrite Htake in Hx. pose proof (next_rows _ _ _ _ Hs Hx) as Hrest. rewrite IH.
    + by rewrite <- Hrest, Htake, take_drop.
    + rewrite <- Hrest, length_drop. lia.
Qed.
End keyset.
