(* ===== verification/GoStrings.v ===== *)
(** * Go strings: UTF-8, [strings], [unicode], [strconv]

    A Go string is a byte sequence, Rocq's [string].  UTF-8 decoding follows
    [unicode/utf8]: an invalid byte decodes to U+FFFD with width 1. *)
From S2P Require Import Prelude.
From Stdlib Require Import Ascii.
From stdpp Require Import pretty list.
Open Scope Z_scope.

Definition byte_of (a : ascii) : Z := Z.of_N (N_of_ascii a).
Definition char_of (z : Z) : ascii := ascii_of_N (Z.to_N z).

Fixpoint bytes (s : string) : list Z :=
  match s with
  | EmptyString => []
  | String a s' => byte_of a :: bytes s'
  end.

Fixpoint string_drop (n : nat) (s : string) : string :=
  match n, s with
  | O, _ => s
  | _, EmptyString => EmptyString
  | S n', String _ s' => string_drop n' s'
  end.

Fixpoint string_take (n : nat) (s : string) : string :=
  match n, s with
  | O, _ => EmptyString
  | _, EmptyString => EmptyString
  | S n', String a s' => String a (string_take n' s')
  end.

(** [s[i:j]] *)
Definition substr (i j : nat) (s : string) : string := string_take (j - i) (string_drop i s).

Definition string_len (s : string) : Z := Z.of_nat (String.length s).

Lemma length_string_drop n s : String.length (string_drop n s) = (String.length s - n)%nat.
Proof. revert n; induction s as [|a s IH]; intros [|n]; simpl; auto. Qed.

(** ** [utf8.DecodeRuneInString] *)
Definition RuneError : Z := 65533.

Definition in_range (lo b hi : Z) : bool := (lo <=? b) && (b <=? hi).

(** Bounds of the second byte for a leading byte ([acceptRanges]). *)
Definition accept2 (b0 b1 : Z) : bool :=
  if b0 =? 224 then in_range 160 b1 191
  else if b0 =? 237 then in_range 128 b1 159
  else if b0 =? 240 then in_range 144 b1 191
  else if b0 =? 244 then in_range 128 b1 143
  else in_range 128 b1 191.

Definition decode_bytes (l : list Z) : Z * nat :=
  match l with
  | [] => (RuneError, 0%nat)
  | b0 :: l1 =>
      if b0 <? 128 then (b0, 1%nat)
      else if negb (in_range 194 b0 244) then (RuneError, 1%nat)
      else match l1 with
      | [] => (RuneError, 1%nat)
      | b1 :: l2 =>
          if negb (accept2 b0 b1) then (RuneError, 1%nat)
          else if b0 <? 224 then (Z.lor (Z.shiftl (Z.land b0 31) 6) (Z.land b1 63), 2%nat)
          else match l2 with
          | [] => (RuneError, 1%nat)
          | b2 :: l3 =>
              if negb (in_range 128 b2 191) then (RuneError, 1%nat)
              else if b0 <? 240 then
                (Z.lor (Z.lor (Z.shiftl (Z.land b0 15) 12) (Z.shiftl (Z.land b1 63) 6)) (Z.land b2 63), 3%nat)
              else match l3 with
              | [] => (RuneError, 1%nat)
              | b3 :: _ =>
                  if negb (in_range 128 b3 191) then (RuneError, 1%nat)
                  else (Z.lor (Z.lor (Z.lor (Z.shiftl (Z.land b0 7) 18) (Z.shiftl (Z.land b1 63) 12))
                                     (Z.shiftl (Z.land b2 63) 6)) (Z.land b3 63), 4%nat)
              end
          end
      end
  end.

Definition decode_rune (s : string) : Z * nat := decode_bytes (bytes (string_take 4 s)).

(** A non-empty string decodes to a rune of positive width within the string. *)
Lemma decode_bytes_width l : l <> [] -> (1 <= (decode_bytes l).2 <= length l)%nat.
Proof.
  intros Hl. destruct l as [|b0 l]; [done|]. unfold decode_bytes.
  repeat (case_match; simpl; try lia).
Qed.

Lemma length_bytes s : length (bytes s) = String.length s.
Proof. induction s; simpl; auto. Qed.

Lemma length_string_take n s : String.length (string_take n s) = Nat.min n (String.length s).
Proof. revert s; induction n as [|n IH]; intros [|a s]; simpl; auto. Qed.

Lemma decode_rune_width s : s <> EmptyString -> (1 <= (decode_rune s).2 <= String.length s)%nat.
Proof.
  intros Hs. destruct s as [|a s]; [done|].
  pose proof (decode_bytes_width (bytes (string_take 4 (String a s)))) as H.
  rewrite length_bytes, length_string_take in H. unfold decode_rune.
  destruct H as [H1 H2]; [done|]. lia.
Qed.

(** Only an ASCII byte decodes to an ASCII rune. *)
Lemma lor_ge a b : 0 <= a -> 0 <= b -> a <= Z.lor a b.
Proof.
  intros Ha Hb. pose proof (Z.sub_lor_l_same_l b a) as Hs.
  pose proof (proj2 (Z.land_nonneg b (Z.lnot a)) (or_introl Hb)). lia.
Qed.

Lemma land_shift_nonneg x m k : 0 <= m -> 0 <= k -> 0 <= Z.shiftl (Z.land x m) k.
Proof. intros Hm Hk. apply Z.shiftl_nonneg, Z.land_nonneg. by right. Qed.

Lemma bits_above b m k lo hi :
  forallb (fun i => 128 <=? Z.shiftl (Z.land (lo + Z.of_nat i) m) k) (seq 0 (Z.to_nat (hi - lo))) = true ->
  lo <= b < hi -> 128 <= Z.shiftl (Z.land b m) k.
Proof.
  intros Hall Hb. rewrite forallb_forall in Hall. specialize (Hall (Z.to_nat (b - lo))).
  rewrite in_seq in Hall. rewrite Z2Nat.id in Hall by lia. replace (lo + (b - lo)) with b in Hall by lia.
  apply Z.leb_le, Hall. lia.
Qed.

Lemma decode_bytes_ascii l r w : decode_bytes l = (r, w) -> r < 128 -> exists l', l = r :: l' /\ w = 1%nat.
Proof.
  unfold decode_bytes. destruct l as [|b0 l1]; [by intros [= <- _]|].
  destruct (b0 <? 128) eqn:E0; [intros [= <- <-]; eauto|].
  destruct (in_range 194 b0 244) eqn:E1; [|by intros [= <- _]]. simpl negb. cbv iota.
  unfold in_range in E1. bool_to_prop. destruct l1 as [|b1 l2]; [by intros [= <- _]|].
  destruct (accept2 b0 b1) eqn:E2; [|by intros [= <- _]]. simpl negb. cbv iota.
  destruct (b0 <? 224) eqn:E3.
  { intros [= <- _] Hlt. exfalso. bool_to_prop.
    pose proof (bits_above b0 31 6 194 224 eq_refl ltac:(lia)) as Hb.
    pose proof (lor_ge (Z.shiftl (Z.land b0 31) 6) (Z.land b1 63)) as Hl.
    assert (0 <= Z.land b1 63) by (apply Z.land_nonneg; lia). lia. }
  destruct l2 as [|b2 l3]; [by intros [= <- _]|].
  destruct (in_range 128 b2 191) eqn:E4; [|by intros [= <- _]]. simpl negb. cbv iota.
  assert (Hn1 : 0 <= Z.land b1 63) by (apply Z.land_nonneg; lia).
  assert (Hn2 : 0 <= Z.land b2 63) by (apply Z.land_nonneg; lia).
  destruct (b0 <? 240) eqn:E5.
  { intros [= <- _] Hlt. exfalso. bool_to_prop.
    pose proof (land_shift_nonneg b0 15 12) as Hs1. pose proof (land_shift_nonneg b1 63 6) as Hs2.
    pose proof (lor_ge (Z.lor (Z.shiftl (Z.land b0 15) 12) (Z.shiftl (Z.land b1 63) 6)) (Z.land b2 63)) as Hl.
    pose proof (lor_ge (Z.shiftl (Z.land b0 15) 12) (Z.shiftl (Z.land b1 63) 6)) as Hl1.
    pose proof (lor_ge (Z.shiftl (Z.land b1 63) 6) (Z.shiftl (Z.land b0 15) 12)) as Hl2. rewrite Z.lor_comm in Hl2.
    destruct (decide (b0 = 224)) as [->|].
    - unfold accept2 in E2. simpl in E2. unfold in_range in E2. bool_to_prop.
      pose proof (bits_above b1 63 6 160 192 eq_refl ltac:(lia)). lia.
    - pose proof (bits_above b0 15 12 225 240 eq_refl ltac:(lia)). lia. }
  destruct l3 as [|b3 l4]; [by intros [= <- _]|].
  destruct (in_range 128 b3 191) eqn:E6; [|by intros [= <- _]]. simpl negb. cbv iota.
  intros [= <- _] Hlt. exfalso. bool_to_prop.
  assert (Hn3 : 0 <= Z.land b3 63) by (apply Z.land_nonneg; lia).
  pose proof (land_shift_nonneg b0 7 18) as Hs0. pose proof (land_shift_nonneg b1 63 12) as Hs1.
  pose proof (land_shift_nonneg b2 63 6) as Hs2.
  set (x0 := Z.shiftl (Z.land b0 7) 18) in *. set (x1 := Z.shiftl (Z.land b1 63) 12) in *.
  set (x2 := Z.shiftl (Z.land b2 63) 6) in *.
  pose proof (lor_ge (Z.lor (Z.lor x0 x1) x2) (Z.land b3 63)) as Hl.
  pose proof (lor_ge (Z.lor x0 x1) x2) as Hl1.
  pose proof (lor_ge x0 x1) as Hl2. pose proof (lor_ge x1 x0) as Hl3. rewrite Z.lor_comm in Hl3.
  destruct (decide (b0 = 240)) as [->|].
  - unfold accept2 in E2. simpl in E2. unfold in_range in E2. bool_to_prop.
    pose proof (bits_above b1 63 12 144 192 eq_refl ltac:(lia)) as Hx. fold x1 in Hx. lia.
  - pose proof (bits_above b0 7 18 241 245 eq_refl ltac:(lia)) as Hx. fold x0 in Hx. lia.
Qed.

Lemma decode_rune_ascii s r w : decode_rune s = (r, w) -> r < 128 ->
  exists a s', s = String a s' /\ r = byte_of a /\ w = 1%nat.
Proof.
  unfold decode_rune. intros Hd Hr. destruct (decode_bytes_ascii _ _ _ Hd Hr) as (l' & Hb & ->).
  destruct s as [|a s]; [done|]. simpl in Hb. injection Hb as <- _. eauto.
Qed.

Lemma char_of_byte_of a : char_of (byte_of a) = a.
Proof. unfold char_of, byte_of. by rewrite N2Z.id, ascii_N_embedding. Qed.

(** [utf8.DecodeLastRuneInString]: back up over at most three continuation
    bytes and accept the decoding that ends exactly at the end. *)
Definition rune_start (a : option ascii) : bool :=
  match a with Some a => negb (Z.land (byte_of a) 192 =? 128) | None => false end.

Fixpoint last_start (fuel : nat) (s : string) (start : nat) : nat :=
  match fuel with
  | O => start
  | S fuel' =>
      if rune_start (String.get start s) then start
      else match start with O => O | S start' => last_start fuel' s start' end
  end.

Definition decode_last_rune (s : string) : Z * nat :=
  let n := String.length s in
  match n with
  | O => (RuneError, 0%nat)
  | S k =>
      match String.get k s with
      | Some a =>
          if byte_of a <? 128 then (byte_of a, 1%nat)
          else
            let start := if bool_decide (k = O) then O else last_start 3 s (k - 1) in
            let '(r, size) := decode_rune (substr start n s) in
            if bool_decide (start + size = n)%nat then (r, size) else (RuneError, 1%nat)
      | None => (RuneError, 1%nat)
      end
  end.

(** [utf8.ValidString] and [utf8.RuneCountInString]: one pass over the runes. *)
Fixpoint runes_fuel (fuel : nat) (s : string) : list (Z * nat) :=
  match fuel, s with
  | O, _ => []
  | _, EmptyString => []
  | S fuel', _ =>
      let '(r, w) := decode_rune s in (r, w) :: runes_fuel fuel' (string_drop w s)
  end.

Definition runes (s : string) : list (Z * nat) := runes_fuel (String.length s) s.

Definition ValidString (s : string) : bool :=
  forallb (fun '(r, w) => negb ((r =? RuneError) && bool_decide (w = 1%nat))) (runes s).

Definition RuneCount (s : string) : Z := Z.of_nat (length (runes s)).

(** ** [unicode] *)
Definition IsSpace (r : Z) : bool :=
  in_range 9 r 13 || (r =? 32) || (r =? 133) || (r =? 160) || (r =? 5760) ||
  in_range 8192 r 8202 || (r =? 8232) || (r =? 8233) || (r =? 8239) || (r =? 8287) || (r =? 12288).

(** The letter and digit tables above Latin-1 are data of Go's [unicode]
    package; every definition and theorem holds for all tables. *)
Class UnicodeTables := {
  letter_table : Z -> bool;
  digit_table : Z -> bool;
  print_table : Z -> bool
}.

Definition latin1_letter (r : Z) : bool :=
  in_range 65 r 90 || in_range 97 r 122 || (r =? 170) || (r =? 181) || (r =? 186) ||
  in_range 192 r 214 || in_range 216 r 246 || in_range 248 r 255.

Definition IsLetter `{UnicodeTables} (r : Z) : bool :=
  if r <=? 255 then latin1_letter r else letter_table r.
Definition IsDigit `{UnicodeTables} (r : Z) : bool :=
  if r <=? 255 then in_range 48 r 57 else digit_table r.
Definition IsPrint `{UnicodeTables} (r : Z) : bool :=
  if r <=? 255 then in_range 32 r 126 || (in_range 161 r 255 && negb (r =? 173)) else print_table r.

(** A concrete choice of the tables, for evaluation: no letter, digit or
    printable rune above Latin-1. *)
#[export] Instance latin1_tables : UnicodeTables :=
  {| letter_table := fun _ => false; digit_table := fun _ => false; print_table := fun _ => false |}.

(** ** [strings] *)
Fixpoint trim_left_fuel (fuel : nat) (s : string) : string :=
  match fuel, s with
  | O, _ => s
  | _, EmptyString => EmptyString
  | S fuel', _ =>
      let '(r, w) := decode_rune s in
      if IsSpace r then trim_left_fuel fuel' (string_drop w s) else s
  end.

Fixpoint trim_right_fuel (fuel : nat) (s : string) : string :=
  match fuel, s with
  | O, _ => s
  | _, EmptyString => EmptyString
  | S fuel', _ =>
      let '(r, w) := decode_last_rune s in
      if IsSpace r then trim_right_fuel fuel' (string_take (String.length s - w) s) else s
  end.

Definition TrimSpace (s : string) : string :=
  let t := trim_left_fuel (String.length s) s in trim_right_fuel (String.length t) t.

(** A string that starts with an ASCII character other than a space is not
    blank. *)
Lemma decode_rune_first a s : byte_of a < 128 -> decode_rune (String a s) = (byte_of a, 1%nat).
Proof. intros Ha. unfold decode_rune, decode_bytes. cbn [string_take bytes]. by rewrite (proj2 (Z.ltb_lt _ _) Ha). Qed.

Lemma decode_last_rune_first a s r w :
  byte_of a < 128 -> decode_last_rune (String a s) = (r, w) -> (S (String.length s) <= w)%nat -> r = byte_of a.
Proof.
  intros Ha. unfold decode_last_rune.
  replace (String.length (String a s)) with (S (String.length s)) by done. cbv beta iota zeta.
  destruct (String.get (String.length s) (String a s)) as [b|] eqn:Hb.
  - destruct (byte_of b <? 128) eqn:Hlt.
    + intros [= <- <-] Hw. destruct s; [|simpl in Hw; lia]. simpl in Hb. by injection Hb as <-.
    + set (start := if bool_decide _ then O else _).
      destruct (decode_rune (substr start _ _)) as [r' size] eqn:Hd. case_bool_decide as Hs.
      * intros [= <- <-] Hw. assert (start = O) as Hz by lia. rewrite Hz in Hd. unfold substr in Hd.
        cbn [string_drop string_take Nat.sub] in Hd. rewrite decode_rune_first in Hd by done. congruence.
      * intros [= <- <-] Hw. destruct s; [|simpl in Hw; lia]. simpl in Hb. injection Hb as <-. bool_to_prop. lia.
  - intros [= <- <-] Hw. destruct s; [done|simpl in Hw; lia].
Qed.

Lemma trim_right_nonblank fuel a s :
  byte_of a < 128 -> IsSpace (byte_of a) = false -> trim_right_fuel fuel (String a s) <> EmptyString.
Proof.
  intros Ha Hspace. revert s. induction fuel as [|fuel IH]; intros s; [done|]. cbn [trim_right_fuel].
  destruct (decode_last_rune (String a s)) as [r w] eqn:Hd. destruct (IsSpace r) eqn:Hr; [|done].
  destruct (decide (S (String.length s) <= w)%nat) as [Hw|Hw].
  - rewrite (decode_last_rune_first _ _ _ _ Ha Hd Hw) in Hr. congruence.
  - replace (String.length (String a s)) with (S (String.length s)) by done.
    destruct (S (String.length s) - w)%nat as [|k] eqn:Hk; [lia|]. cbn [string_take]. apply IH.
Qed.

Lemma TrimSpace_nonblank a s :
  byte_of a < 128 -> IsSpace (byte_of a) = false -> TrimSpace (String a s) <> EmptyString.
Proof.
  intros Ha Hspace. unfold TrimSpace.
  replace (trim_left_fuel _ (String a s)) with (String a s); [by apply trim_right_nonblank|].
  cbn [String.length trim_left_fuel]. by rewrite decode_rune_first, Hspace.
Qed.

(** [strings.Trim(s, cutset)] for an ASCII cutset. *)
Fixpoint mem_char (a : ascii) (cutset : string) : bool :=
  match cutset with
  | EmptyString => false
  | String c cutset' => if decide (a = c) then true else mem_char a cutset'
  end.

Fixpoint trim_set_left (cutset s : string) : string :=
  match s with
  | EmptyString => EmptyString
  | String a s' => if mem_char a cutset then trim_set_left cutset s' else s
  end.

Fixpoint trim_set_right (cutset s : string) : string :=
  match s with
  | EmptyString => EmptyString
  | String a s' =>
      match trim_set_right cutset s' with
      | EmptyString => if mem_char a cutset then EmptyString else String a EmptyString
      | t => String a t
      end
  end.

Definition Trim (s cutset : string) : string := trim_set_right cutset (trim_set_left cutset s).

Fixpoint all_chars (p : ascii -> bool) (s : string) : bool :=
  match s with EmptyString => true | String a s' => p a && all_chars p s' end.

(** Trimming leaves nothing exactly when every byte is in the cutset. *)
Lemma Trim_empty s cutset :
  Trim s cutset = EmptyString <-> all_chars (fun a => mem_char a cutset) s = true.
Proof.
  unfold Trim. induction s as [|a s IH]; simpl; [done|].
  destruct (mem_char a cutset) eqn:E; simpl; [done|].
  rewrite E. split; [|done]. by destruct (trim_set_right cutset s).
Qed.

Fixpoint has_prefix (prefix s : string) : bool :=
  match prefix, s with
  | EmptyString, _ => true
  | String a p, String b s' => bool_decide (a = b) && has_prefix p s'
  | _, EmptyString => false
  end.

Definition has_suffix (suffix s : string) : bool :=
  bool_decide (string_drop (String.length s - String.length suffix) s = suffix) &&
  bool_decide (String.length suffix <= String.length s)%nat.

Definition TrimPrefix (s prefix : string) : string :=
  if has_prefix prefix s then string_drop (String.length prefix) s else s.
Definition TrimSuffix (s suffix : string) : string :=
  if has_suffix suffix s then string_take (String.length s - String.length suffix) s else s.

(** Index of the first occurrence of a byte. *)
Fixpoint index_byte (c : ascii) (s : string) : option nat :=
  match s with
  | EmptyString => None
  | String a s' => if decide (a = c) then Some O else S <$> index_byte c s'
  end.

Fixpoint replace_char (c : ascii) (by_ : string) (s : string) : string :=
  match s with
  | EmptyString => EmptyString
  | String a s' => (if decide (a = c) then by_ else String a EmptyString) +:+ replace_char c by_ s'
  end.

Definition newline : string := String (char_of 10) EmptyString.
Definition nul : string := String (char_of 0) EmptyString.

(** [strings.Join] *)
Fixpoint Join (parts : list string) (sep : string) : string :=
  match parts with
  | [] => EmptyString
  | [p] => p
  | p :: ps => p +:+ sep +:+ Join ps sep
  end.

Definition ContainsAny (s chars : string) : bool := negb (all_chars (fun a => negb (mem_char a chars)) s).

(** ** [strconv] *)
Definition Itoa (z : Z) : string := pretty z.

Definition MinInt64 : Z := - 2 ^ 63.
Definition MaxInt64 : Z := 2 ^ 63 - 1.
Definition MaxUint64 : Z := 2 ^ 64 - 1.
Definition int64_ok (z : Z) : bool := in_range MinInt64 z MaxInt64.

Fixpoint parse_digits (acc : Z) (l : list Z) : option Z :=
  match l with
  | [] => Some acc
  | b :: l' => if in_range 48 b 57 then parse_digits (acc * 10 + (b - 48)) l' else None
  end.

(** [strconv.ParseInt(s, 10, 64)]: optional sign, at least one digit, in range. *)
Definition ParseInt (s : string) : option Z :=
  let parse l := match l with [] => None | _ => parse_digits 0 l end in
  let value := match bytes s with
               | 43 :: l => parse l
               | 45 :: l => Z.opp <$> parse l
               | l => parse l
               end in
  match value with Some z => if int64_ok z then Some z else None | None => None end.

(** ** Decimal text: [ParseInt] reads back what [Itoa] writes *)
Definition digit_char (a : ascii) : bool := in_range 48 (byte_of a) 57.

Lemma pretty_digit (x : N) : (x < 10)%N -> byte_of (pretty_N_char x) = 48 + Z.of_N x.
Proof.
  intros Hx. assert (x = 0 \/ x = 1 \/ x = 2 \/ x = 3 \/ x = 4 \/ x = 5 \/ x = 6 \/ x = 7 \/ x = 8 \/ x = 9)%N as Hc by lia.
  naive_solver.
Qed.

Lemma pretty_go_spec (x : N) : forall s,
  all_chars digit_char s = true ->
  all_chars digit_char (pretty_N_go x s) = true /\
  parse_digits 0 (bytes (pretty_N_go x s)) = parse_digits (Z.of_N x) (bytes s).
Proof.
  induction (N.lt_wf_0 x) as [x _ IH]. intros s Hs. destruct (decide (0 < x)%N) as [Hx|Hx].
  - rewrite pretty_N_go_step by done.
    assert (x `mod` 10 < 10)%N as Hm by (by apply N.mod_lt). pose proof (pretty_digit _ Hm) as Hd.
    assert (in_range 48 (byte_of (pretty_N_char (x `mod` 10))) 57 = true) as Hr.
    { rewrite Hd. unfold in_range. pose proof (N2Z.is_nonneg (x `mod` 10)). apply andb_true_iff. split; apply Z.leb_le; lia. }
    destruct (IH (x `div` 10)%N (N.div_lt x 10 Hx eq_refl) (String (pretty_N_char (x `mod` 10)) s)) as [H1 H2].
    { simpl. by rewrite Hs, andb_true_r. }
    split; [done|]. rewrite H2. cbn [bytes parse_digits]. rewrite Hr, Hd. f_equal.
    pose proof (N.div_mod x 10 ltac:(done)) as Hdm. apply (f_equal Z.of_N) in Hdm. rewrite N2Z.inj_add, N2Z.inj_mul in Hdm. lia.
  - assert (x = 0%N) as -> by lia. by rewrite pretty_N_go_0.
Qed.

Lemma Itoa_digits (z : Z) : exists d, d <> EmptyString /\ all_chars digit_char d = true /\
  parse_digits 0 (bytes d) = Some (Z.abs z) /\ Itoa z = if z <? 0 then String "-" d else d.
Proof.
  assert (forall n : N, (0 < n)%N -> exists d, d <> EmptyString /\ all_chars digit_char d = true /\
    parse_digits 0 (bytes d) = Some (Z.of_N n) /\ pretty n = d) as Hpos.
  { intros n Hn. destruct (pretty_go_spec n "" eq_refl) as [H1 H2]. exists (pretty n).
    unfold pretty, pretty_N. rewrite decide_False by lia. split_and!; [|done|done|done].
    intros Hd. rewrite Hd in H2. simpl in H2. injection H2. lia. }
  unfold Itoa. destruct z as [|p|p].
  - exists "0"%string. by split_and!.
  - destruct (Hpos (Npos p) eq_refl) as (d & H1 & H2 & H3 & H4). by exists d.
  - destruct (Hpos (Npos p) eq_refl) as (d & H1 & H2 & H3 & H4). exists d. split_and!; [done..|].
    change (pretty (Z.neg p)) with ("-" +:+ pretty (Npos p))%string. by rewrite H4.
Qed.

Lemma ParseInt_Itoa (z : Z) : int64_ok z = true -> ParseInt (Itoa z) = Some z.
Proof.
  intros Hok. destruct (Itoa_digits z) as (d & Hne & Hd & Hp & ->). unfold ParseInt.
  destruct d as [|a d]; [done|]. cbn [all_chars] in Hd. apply andb_prop in Hd as [Ha _].
  unfold digit_char, in_range in Ha. bool_to_prop.
  assert ((match parse_digits 0 (bytes (String a d)) with Some z => Some z | None => None end) = Some (Z.abs z)) as Habs by by rewrite Hp.
  destruct (z <? 0) eqn:E; bool_to_prop.
  - cbn [bytes]. change (byte_of "-") with 45. cbn [bytes] in Hp. rewrite Hp. simpl.
    replace (- Z.abs z) with z by lia. by rewrite Hok.
  - cbn [bytes] in *. assert (byte_of a <> 43 /\ byte_of a <> 45) as [H43 H45] by lia.
    replace (Z.abs z) with z in Hp by lia.
    destruct (byte_of a) as [|p|p] eqn:Eb; [lia| |lia].
    repeat (match goal with |- context [match ?p with _ => _ end] => is_var p; destruct p end); try lia;
      rewrite Hp; by rewrite Hok.
Qed.

Lemma Itoa_not (z : Z) (chars : string) :
  all_chars (fun a => negb (digit_char a) && negb (bool_decide (a = "-"%char))) chars = true ->
  ContainsAny (Itoa z) chars = false.
Proof.
  intros Hc. destruct (Itoa_digits z) as (d & _ & Hd & _ & ->). unfold ContainsAny. apply negb_false_iff.
  assert (forall a, digit_char a = true \/ a = "-"%char -> negb (mem_char a chars) = true) as Hmem.
  { intros a Ha. apply negb_true_iff. revert Hc. induction chars as [|c chars IH]; simpl; [done|].
    intros [[H1 H2]%andb_prop H3]%andb_prop. destruct (decide (a = c)) as [->|]; [|auto].
    bool_to_prop. destruct Ha; congruence. }
  assert (all_chars (fun a => negb (mem_char a chars)) d = true) as Hd'.
  { revert Hd. induction d as [|a d IH]; cbn [all_chars]; [done|]. intros [Ha Hd]%andb_prop.
    rewrite Hmem by auto. by apply IH. }
  destruct (z <? 0); [|done]. cbn [all_chars]. by rewrite Hmem by auto.
Qed.

(** The runes of an ASCII text are its bytes. *)
Lemma runes_ascii (s : string) : all_chars (fun a => byte_of a <? 128) s = true -> runes s = (fun b => (b, 1%nat)) <$> bytes s.
Proof.
  unfold runes. induction s as [|a s IH]; cbn [all_chars String.length]; [done|]. intros [Ha Hs]%andb_prop.
  cbn [runes_fuel]. assert (decode_rune (String a s) = (byte_of a, 1%nat)) as ->.
  { unfold decode_rune. cbn [string_take bytes decode_bytes]. by rewrite Ha. }
  cbn [string_drop bytes fmap list_fmap]. f_equal. rewrite <- IH by done. by destruct s.
Qed.

(** [strconv.Quote], the [q] verb: one escape per rune. *)
Definition hex_digit (n : Z) : ascii := char_of (if n <? 10 then 48 + n else 87 + n).
Fixpoint hex_of (width : nat) (z : Z) : string :=
  match width with
  | O => EmptyString
  | S k => hex_of k (Z.shiftr z 4) +:+ String (hex_digit (Z.land z 15)) EmptyString
  end.
Definition escape (c : string) : string := String (char_of 92) c.
Definition quote_rune `{UnicodeTables} (raw : string) (r : Z) (w : nat) : string :=
  if (r =? RuneError) && bool_decide (w = 1%nat) then
    escape "x" +:+ hex_of 2 (match bytes raw with b :: _ => b | [] => 0 end)
  else if (r =? 34) || (r =? 92) || IsPrint r then
    if (r =? 34) || (r =? 92) then escape raw else raw
  else if r =? 7 then escape "a"
  else if r =? 8 then escape "b"
  else if r =? 12 then escape "f"
  else if r =? 10 then escape "n"
  else if r =? 13 then escape "r"
  else if r =? 9 then escape "t"
  else if r =? 11 then escape "v"
  else if (r <? 32) || (r =? 127) then escape "x" +:+ hex_of 2 r
  else if r <? 65536 then escape "u" +:+ hex_of 4 r
  else escape "U" +:+ hex_of 8 r.

Fixpoint quote_fuel `{UnicodeTables} (fuel : nat) (s : string) : string :=
  match fuel, s with
  | O, _ => EmptyString
  | _, EmptyString => EmptyString
  | S fuel', _ =>
      let '(r, w) := decode_rune s in
      quote_rune (string_take w s) r w +:+ quote_fuel fuel' (string_drop w s)
  end.
Definition quote_mark : string := String (char_of 34) EmptyString.
Definition Quote `{UnicodeTables} (s : string) : string :=
  quote_mark +:+ quote_fuel (String.length s) s +:+ quote_mark.

(** [strings.ContainsAny(strings.ToLower(s), chars)] for ASCII [chars]: besides
    the ASCII capitals, only U+0130 and U+212A have an ASCII lower case. *)
Definition ToLowerRune (r : Z) : Z :=
  if in_range 65 r 90 then r + 32 else if r =? 304 then 105 else if r =? 8490 then 107 else r.
Definition LowerContainsAny (s chars : string) : bool :=
  existsb (fun '(r, _) => existsb (Z.eqb (ToLowerRune r)) (bytes chars)) (runes s).

Lemma Itoa_not_lower (z : Z) (chars : string) :
  all_chars (fun a => negb (digit_char a) && negb (bool_decide (a = "-"%char))) chars = true ->
  LowerContainsAny (Itoa z) chars = false.
Proof.
  intros Hc. unfold LowerContainsAny. destruct (Itoa_digits z) as (d & _ & Hd & _ & ->).
  set (t := if z <? 0 then String "-" d else d).
  assert (all_chars (fun a => digit_char a || bool_decide (a = "-"%char)) t = true) as Ht.
  { assert (all_chars (fun a => digit_char a || bool_decide (a = "-"%char)) d = true) as Hd'.
    { clear -Hd. induction d as [|a d IH]; cbn [all_chars] in *; [done|]. apply andb_prop in Hd as [-> Hd]. by apply IH. }
    unfold t. destruct (z <? 0); [|done]. cbn [all_chars]. by rewrite Hd'. }
  clearbody t. clear Hd d. rewrite runes_ascii.
  - induction t as [|a t IH]; cbn [all_chars] in *; [done|]. apply andb_prop in Ht as [Ha Ht].
    cbn [bytes fmap list_fmap existsb]. rewrite (IH Ht), orb_false_r.
    assert (byte_of a = 45 \/ 48 <= byte_of a <= 57) as Hb.
    { apply orb_prop in Ha as [Ha|Ha]; [right; unfold digit_char, in_range in Ha|left]; bool_to_prop; [lia|by subst]. }
    assert (ToLowerRune (byte_of a) = byte_of a) as ->.
    { unfold ToLowerRune, in_range. replace (65 <=? byte_of a) with false by (symmetry; apply Z.leb_gt; lia).
      simpl. replace (byte_of a =? 304) with false by (symmetry; apply Z.eqb_neq; lia).
      by replace (byte_of a =? 8490) with false by (symmetry; apply Z.eqb_neq; lia). }
    clear -Hc Hb. induction chars as [|c chars IH]; cbn [all_chars bytes existsb] in *; [done|].
    apply andb_prop in Hc as [[H1 H2]%andb_prop Hc]. rewrite (IH Hc), orb_false_r. apply Z.eqb_neq. intros Heq.
    unfold digit_char, in_range in H1. bool_to_prop. destruct Hb as [Hb|Hb].
    + apply H2. rewrite <- (ascii_N_embedding c). unfold byte_of in Heq, Hb.
      assert (N_of_ascii c = 45%N) as -> by lia. done.
    + lia.
  - clear -Ht. induction t as [|a t IH]; cbn [all_chars] in *; [done|]. apply andb_prop in Ht as [Ha Ht].
    rewrite (IH Ht), andb_true_r. apply Z.ltb_lt. apply orb_prop in Ha as [Ha|Ha];
      [unfold digit_char, in_range in Ha; bool_to_prop; lia|bool_to_prop; by subst].
Qed.

(** ** Checks shared by the program's packages *)

(** [len(v) == 64 && strings.Trim(v, "0123456789abcdef") == ""] *)
Definition hex_digits : string := "0123456789abcdef".
Definition hash_shape (v : string) : bool :=
  (string_len v =? 64) && bool_decide (Trim v hex_digits = EmptyString).

Lemma hash_shape_spec v :
  hash_shape v = true <->
  String.length v = 64%nat /\ all_chars (fun a => mem_char a hex_digits) v = true.
Proof.
  unfold hash_shape, string_len.
  rewrite andb_true_iff, bool_decide_eq_true, Trim_empty, Z.eqb_eq.
  split; intros [? ?]; split; auto; lia.
Qed.
