(* ===== verification/GoCrypto.v ===== *)
(** * [crypto/sha256] and [encoding/hex]

    SHA-256 (FIPS 180-4) on byte lists, executable, so that the content hashes
    the program stores can be evaluated on concrete inputs. *)
From S2P Require Import Prelude GoStrings.
Open Scope Z_scope.

Definition mask32 (x : Z) : Z := Z.land x (2 ^ 32 - 1).
Definition add32 (x y : Z) : Z := mask32 (x + y).
Definition rotr32 (x n : Z) : Z := Z.lor (Z.shiftr x n) (mask32 (Z.shiftl x (32 - n))).

(** The round constants are the first 32 fractional bits of the cube roots of
    the first 64 primes, the initial state those of the square roots of the
    first 8: both are computed here instead of being listed. *)
Definition is_prime (n : nat) : bool :=
  (1 <? n)%nat && forallb (fun d => negb (n mod d =? 0)%nat) (seq 2 (n - 2)).
Definition primes : list Z := Eval vm_compute in Z.of_nat <$> List.filter is_prime (seq 2 310).

(** The largest [x < 2^bits] with [x ^ e <= n]. *)
Fixpoint root_below (e n : Z) (bits : nat) (x : Z) : Z :=
  match bits with
  | O => x
  | S k => let y := x + 2 ^ Z.of_nat k in root_below e n k (if y ^ e <=? n then y else x)
  end.
Definition root_fraction (e p : Z) : Z := mask32 (root_below e (p * 2 ^ (32 * e)) 40 0).

Definition sha_k : list Z := Eval vm_compute in root_fraction 3 <$> primes.
Definition sha_init : list Z := Eval vm_compute in root_fraction 2 <$> take 8 primes.

(** The message schedule, most recent word first. *)
Fixpoint sha_extend (n : nat) (w : list Z) : list Z :=
  match n with
  | O => w
  | S n' =>
      let at_ k := default 0 (w !! k) in
      let s0 := Z.lxor (Z.lxor (rotr32 (at_ 14%nat) 7) (rotr32 (at_ 14%nat) 18)) (Z.shiftr (at_ 14%nat) 3) in
      let s1 := Z.lxor (Z.lxor (rotr32 (at_ 1%nat) 17) (rotr32 (at_ 1%nat) 19)) (Z.shiftr (at_ 1%nat) 10) in
      sha_extend n' (add32 (add32 (at_ 15%nat) s0) (add32 (at_ 6%nat) s1) :: w)
  end.

Definition sha_round (st : list Z) (kw : Z * Z) : list Z :=
  match st with
  | [a; b; c; d; e; f; g; h] =>
      let s1 := Z.lxor (Z.lxor (rotr32 e 6) (rotr32 e 11)) (rotr32 e 25) in
      let ch := Z.lxor (Z.land e f) (Z.land (Z.lxor e (2 ^ 32 - 1)) g) in
      let t1 := add32 (add32 (add32 h s1) (add32 ch kw.1)) kw.2 in
      let s0 := Z.lxor (Z.lxor (rotr32 a 2) (rotr32 a 13)) (rotr32 a 22) in
      let maj := Z.lxor (Z.lxor (Z.land a b) (Z.land a c)) (Z.land b c) in
      [add32 t1 (add32 s0 maj); a; b; c; add32 d t1; e; f; g]
  | _ => st
  end.

Fixpoint words_be (l : list Z) : list Z :=
  match l with
  | a :: b :: c :: d :: l' =>
      Z.lor (Z.lor (Z.shiftl a 24) (Z.shiftl b 16)) (Z.lor (Z.shiftl c 8) d) :: words_be l'
  | _ => []
  end.

Definition sha_block (st : list Z) (block : list Z) : list Z :=
  let w := rev (sha_extend 48 (rev (words_be block))) in
  zip_with add32 st (fold_left sha_round (zip sha_k w) st).

Fixpoint sha_blocks (n : nat) (st : list Z) (l : list Z) : list Z :=
  match n with
  | O => st
  | S n' => sha_blocks n' (sha_block st (take 64 l)) (drop 64 l)
  end.

Definition be_bytes (n : nat) (x : Z) : list Z :=
  map (fun i => Z.land (Z.shiftr x (8 * Z.of_nat i)) 255) (rev (seq 0 n)).

Definition sha_pad (l : list Z) : list Z :=
  let n := Z.of_nat (length l) in
  l ++ 128 :: replicate (Z.to_nat ((55 - n) mod 64)) 0 ++ be_bytes 8 (8 * n).

(** [sha256.Sum256] *)
Definition Sum256 (s : string) : list Z :=
  let p := sha_pad (bytes s) in
  flat_map (be_bytes 4) (sha_blocks (length p / 64)%nat sha_init p).

Definition hex_char (n : Z) : Ascii.ascii := char_of (if n <? 10 then 48 + n else 87 + n).

(** [hex.EncodeToString] and [fmt.Sprintf] with the hexadecimal verb *)
Fixpoint hex_encode (l : list Z) : string :=
  match l with
  | [] => EmptyString
  | b :: l' => String (hex_char (Z.shiftr b 4)) (String (hex_char (Z.land b 15)) (hex_encode l'))
  end.

Definition sha256_hex (s : string) : string := hex_encode (Sum256 s).

Example sha256_abc :
  sha256_hex "abc" = "ba7816bf8f01cfea414140de5dae2223b00361a396177a9cb410ff61f20015ad"%string.
Proof. vm_compute. reflexivity. Qed.

Lemma length_hex_encode l : String.length (hex_encode l) = (2 * length l)%nat.
Proof. induction l; simpl; lia. Qed.

Lemma length_sha_round st kw : length st = 8%nat -> length (sha_round st kw) = 8%nat.
Proof. intros H. destruct st as [|? [|? [|? [|? [|? [|? [|? [|? [|]]]]]]]]]; done. Qed.

Lemma length_sha_block st block : length st = 8%nat -> length (sha_block st block) = 8%nat.
Proof.
  intros H. unfold sha_block. rewrite length_zip_with, H.
  assert (forall kws st, length st = 8%nat -> length (fold_left sha_round kws st) = 8%nat) as Hf.
  { induction kws as [|kw kws IH]; intros s Hs; simpl; [done|]. by apply IH, length_sha_round. }
  by rewrite Hf.
Qed.

Lemma length_sha_blocks n st l : length st = 8%nat -> length (sha_blocks n st l) = 8%nat.
Proof. revert st l. induction n as [|n IH]; intros st l H; simpl; [done|]. by apply IH, length_sha_block. Qed.

Lemma length_sha256_hex s : String.length (sha256_hex s) = 64%nat.
Proof.
  unfold sha256_hex, Sum256. rewrite length_hex_encode.
  pose proof (length_sha_blocks (length (sha_pad (bytes s)) / 64) sha_init (sha_pad (bytes s)) eq_refl) as H.
  revert H. generalize (sha_blocks (length (sha_pad (bytes s)) / 64) sha_init (sha_pad (bytes s))).
  intros l H. by destruct l as [|? [|? [|? [|? [|? [|? [|? [|? [|]]]]]]]]].
Qed.

(** Hashes are only ever computed by [vm_compute], never by unification. *)
#[global] Opaque sha256_hex.
