(* ===== verification/GoHeap.v ===== *)
(** * Go's [container/heap] over a slice, for a boolean [less]

    [up] and [down] are the two loops of the package; their fuel is the slice
    length, which bounds every path of the tree. *)
From S2P Require Import Prelude GoSort.

Section heap.
Context {A : Type} (less : A -> A -> bool).

(** [h.Less(i, j)] and [h.Swap(i, j)] on a slice. *)
Definition less_at (l : list A) (i j : nat) : bool :=
  match l !! i, l !! j with Some x, Some y => less x y | _, _ => false end.
Definition swap (l : list A) (i j : nat) : list A :=
  match l !! i, l !! j with Some x, Some y => <[i := y]> (<[j := x]> l) | _, _ => l end.

Definition parent (j : nat) : nat := ((j - 1) / 2)%nat.

Fixpoint up (fuel : nat) (l : list A) (j : nat) : list A :=
  match fuel with
  | O => l
  | S f =>
      let i := parent j in
      if bool_decide (i = j) || negb (less_at l j i) then l else up f (swap l i j) i
  end.

(** The smaller child of [i] below [n], given that the left one exists. *)
Definition min_child (l : list A) (i n : nat) : nat :=
  let j1 := (2 * i + 1)%nat in
  let j2 := (j1 + 1)%nat in
  if bool_decide (j2 < n)%nat && less_at l j2 j1 then j2 else j1.

Fixpoint down (fuel : nat) (l : list A) (i n : nat) : list A :=
  match fuel with
  | O => l
  | S f =>
      if bool_decide (n <= 2 * i + 1)%nat then l
      else
        let j := min_child l i n in
        if negb (less_at l j i) then l else down f (swap l i j) j n
  end.

Definition heap_push (l : list A) (x : A) : list A :=
  up (S (length l)) (l ++ [x]) (length l).

Definition heap_pop (l : list A) : option (A * list A) :=
  match l with
  | [] => None
  | _ =>
      let n := (length l - 1)%nat in
      let l' := down (length l) (swap l 0 n) 0 n in
      match l' !! n with Some x => Some (x, take n l') | None => None end
  end.

(** ** Swapping *)
Lemma swap_eq l i j x y : l !! i = Some x -> l !! j = Some y -> swap l i j = <[i := y]> (<[j := x]> l).
Proof. intros Hi Hj. unfold swap. by rewrite Hi, Hj. Qed.

Lemma length_swap l i j : length (swap l i j) = length l.
Proof. unfold swap. destruct (l !! i), (l !! j); rewrite ?length_insert; done. Qed.

Lemma swap_lookup l i j k :
  (i < length l)%nat -> (j < length l)%nat ->
  swap l i j !! k = if decide (k = i) then l !! j else if decide (k = j) then l !! i else l !! k.
Proof.
  intros Hi Hj. destruct (lookup_lt_is_Some_2 l i Hi) as [x Hx], (lookup_lt_is_Some_2 l j Hj) as [y Hy].
  rewrite (swap_eq l i j x y) by done.
  destruct (decide (k = i)) as [->|Hki].
  - rewrite list_lookup_insert_eq by (by rewrite length_insert). done.
  - rewrite list_lookup_insert_ne by done.
    destruct (decide (k = j)) as [->|Hkj]; [by rewrite list_lookup_insert_eq|by rewrite list_lookup_insert_ne].
Qed.

Lemma swap_perm l i j : swap l i j ≡ₚ l.
Proof.
  unfold swap. destruct (l !! i) as [x|] eqn:Hx; [|done]. destruct (l !! j) as [y|] eqn:Hy; [|done].
  destruct (decide (i = j)) as [->|Hij].
  - rewrite Hx in Hy. injection Hy as <-. by rewrite !list_insert_id; rewrite ?list_lookup_insert_eq by (by eapply lookup_lt_Some).
  - apply Permutation_inj. split; [by rewrite !length_insert|].
    exists (fun k => if decide (k = i) then j else if decide (k = j) then i else k). split.
    + intros a b. repeat destruct (decide _); congruence.
    + intros k. rewrite <- (swap_eq l i j x y) by done.
      rewrite swap_lookup by (by eapply lookup_lt_Some). by repeat destruct (decide _).
Qed.

Lemma up_perm fuel l j : up fuel l j ≡ₚ l.
Proof.
  revert l j. induction fuel as [|f IH]; intros l j; simpl; [done|]. case_guard; [done|]. by rewrite IH, swap_perm.
Qed.
Lemma down_perm fuel l i n : down fuel l i n ≡ₚ l.
Proof.
  revert l i. induction fuel as [|f IH]; intros l i; simpl; [done|].
  case_guard; [done|]. case_guard; [done|]. by rewrite IH, swap_perm.
Qed.

(** [down] leaves everything at or beyond its bound in place. *)
Lemma min_child_bounds l i n : (2 * i + 1 < n)%nat -> (2 * i + 1 <= min_child l i n < n)%nat /\ parent (min_child l i n) = i.
Proof.
  intros Hn. unfold min_child, parent. case_guard as Hg; bool_to_prop; split; try lia.
  - replace (2 * i + 1 + 1 - 1)%nat with (1 + i * 2)%nat by lia. by rewrite Nat.div_add.
  - replace (2 * i + 1 - 1)%nat with (i * 2)%nat by lia. by rewrite Nat.div_mul.
Qed.

Lemma down_beyond fuel l i n k : (n <= k)%nat -> (n <= length l)%nat -> down fuel l i n !! k = l !! k.
Proof.
  intros Hk Hl. revert l i Hl. induction fuel as [|f IH]; intros l i Hl; simpl; [done|].
  case_guard as Hg; [done|]. bool_to_prop. case_guard; [done|].
  destruct (min_child_bounds l i n) as [Hb _]; [lia|].
  rewrite IH by (by rewrite length_swap). rewrite swap_lookup by lia.
  rewrite !decide_False by lia. done.
Qed.
End heap.

(** ** The heap order *)
#[local] Arguments parent : simpl never.
#[local] Arguments min_child : simpl never.
Section heap_order.
Context {A : Type} (less : A -> A -> bool) `{!WeakOrder less}.

Notation le := (not_after less).

(** The node at [k] is not smaller than the node at [p]. *)
Definition above (l : list A) (p k : nat) : Prop :=
  forall x y, l !! p = Some x -> l !! k = Some y -> le x y.
(** The first [n] elements form a heap, except for the pairs excluded. *)
Definition heap_except (excluded : nat -> Prop) (n : nat) (l : list A) : Prop :=
  forall k, (0 < k < n)%nat -> ~ excluded k -> above l (parent k) k.
Definition heap (l : list A) : Prop := forall k, (0 < k)%nat -> above l (parent k) k.

Lemma le_refl x : le x x.
Proof. apply wo_irrefl. Qed.
Lemma le_trans x y z : le x y -> le y z -> le x z.
Proof. apply wo_incomp. Qed.
Lemma less_le x y : less x y = true -> le x y.
Proof. apply (wo_asym less). Qed.

Lemma parent_lt k : (0 < k)%nat -> (parent k < k)%nat.
Proof. intros Hk. unfold parent. apply Nat.Div0.div_lt_upper_bound. lia. Qed.

Lemma parent_children k i : (0 < k)%nat -> parent k = i -> k = (2 * i + 1)%nat \/ k = (2 * i + 2)%nat.
Proof.
  intros Hk <-. unfold parent.
  pose proof (Nat.div_mod_eq (k - 1) 2). pose proof (Nat.mod_upper_bound (k - 1) 2). lia.
Qed.

Lemma heap_root l x : heap l -> l !! 0%nat = Some x -> Forall (le x) l.
Proof.
  intros Hh Hx. apply Forall_lookup. intros k. induction (lt_wf k) as [k _ IH]. intros y Hy.
  destruct (decide (k = 0%nat)) as [->|Hk]; [rewrite Hx in Hy; injection Hy as ->; apply le_refl|].
  assert (parent k < k)%nat as Hp by (apply parent_lt; lia).
  destruct (lookup_lt_is_Some_2 l (parent k)) as [z Hz]; [apply lookup_lt_Some in Hy; lia|].
  apply (le_trans x z y); [by apply (IH (parent k))|]. by apply (Hh k ltac:(lia)).
Qed.

(** *** Sifting up *)
Lemma up_heap fuel l j :
  (j < fuel)%nat -> (j < length l)%nat ->
  heap_except (fun k => k = j) (length l) l ->
  ((0 < j)%nat -> forall k, (0 < k)%nat -> parent k = j -> above l (parent j) k) ->
  heap (up less fuel l j).
Proof.
  revert l j. induction fuel as [|f IH]; intros l j Hf Hj Hh Hg; simpl; [lia|].
  assert (done_ : (j = 0%nat \/ above l (parent j) j) -> heap l).
  { intros Hd k Hk x y Hx Hy. pose proof (lookup_lt_Some _ _ _ Hy).
    destruct (decide (k = j)) as [->|Hkj]; [destruct Hd as [->|Hd]; [lia|by apply Hd]|].
    by apply (Hh k). }
  destruct (decide (j = 0%nat)) as [->|Hj0].
  { rewrite bool_decide_true by done. simpl. auto. }
  pose proof (parent_lt j ltac:(lia)) as Hp.
  rewrite bool_decide_false by lia. simpl.
  destruct (lookup_lt_is_Some_2 l j Hj) as [y Hy].
  destruct (lookup_lt_is_Some_2 l (parent j)) as [x Hx]; [lia|].
  unfold less_at. rewrite Hx, Hy. destruct (less y x) eqn:Hlt; simpl; cycle 1.
  { apply done_. right. intros x' y'. rewrite Hx, Hy. by intros [= <-] [= <-]. }
  assert (Hsw : forall k, swap l (parent j) j !! k =
    if decide (k = j) then Some x else if decide (k = parent j) then Some y else l !! k).
  { intros k. rewrite swap_lookup by lia. rewrite Hx, Hy. repeat destruct (decide _); try done; lia. }
  apply IH; [lia|rewrite length_swap; lia| |].
  - intros k Hk Hne u v Hu Hv. rewrite length_swap in Hk. rewrite Hsw in Hu, Hv.
    destruct (decide (k = j)) as [->|Hkj].
    + rewrite decide_False in Hu by lia. rewrite decide_True in Hu by done.
      injection Hu as <-. injection Hv as <-. by apply less_le.
    + rewrite decide_False in Hv by done.
      destruct (decide (parent k = j)) as [Hpk|Hpk].
      * injection Hu as <-. by apply (Hg ltac:(lia) k ltac:(lia) Hpk).
      * destruct (decide (parent k = parent j)) as [Hpp|Hpp].
        -- injection Hu as <-. apply (le_trans y x v); [by apply less_le|].
           apply (Hh k ltac:(lia) Hkj); [by rewrite Hpp|done].
        -- by apply (Hh k ltac:(lia) Hkj).
  - intros Hpos k Hk Hpk u v Hu Hv.
    pose proof (parent_lt (parent j) Hpos). rewrite Hsw in Hu, Hv.
    rewrite !decide_False in Hu by lia.
    assert (le u x) as Hux by (apply (Hh (parent j)); [lia | cbn; lia | done | done]).
    destruct (decide (k = j)) as [->|Hkj]; [by injection Hv as <-|].
    rewrite decide_False in Hv by (intros ->; lia).
    apply (le_trans u x v); [done|]. apply (Hh k); [|done|by rewrite Hpk|done].
    apply lookup_lt_Some in Hv. lia.
Qed.

Lemma heap_push_heap l x : heap l -> heap (heap_push less l x).
Proof.
  intros Hh. unfold heap_push. apply up_heap; rewrite ?length_app; simpl; [lia|lia| |].
  - intros k Hk Hne u v Hu Hv. rewrite lookup_app_l in Hv by lia.
    pose proof (parent_lt k ltac:(lia)). rewrite lookup_app_l in Hu by lia.
    by apply (Hh k ltac:(lia)).
  - intros Hpos k Hk Hpk u v Hu Hv. exfalso. apply lookup_lt_Some in Hv. rewrite length_app in Hv. simpl in Hv.
    pose proof (parent_lt k Hk). lia.
Qed.

Lemma heap_push_perm l x : heap_push less l x ≡ₚ x :: l.
Proof. unfold heap_push. rewrite up_perm. by rewrite Permutation_app_comm. Qed.

(** *** Sifting down *)
Lemma min_child_least l i n k x y :
  (n <= length l)%nat -> (2 * i + 1 < n)%nat -> (0 < k < n)%nat -> parent k = i ->
  l !! min_child less l i n = Some x -> l !! k = Some y -> le x y.
Proof.
  intros Hl Hn Hk Hp Hx Hy. destruct (parent_children k i ltac:(lia) Hp) as [-> | ->]; revert Hx; unfold min_child.
  - case_guard as Hg; [|intros Hx; rewrite Hx in Hy; injection Hy as ->; apply le_refl].
    apply andb_prop in Hg as [_ Hg]. unfold less_at in Hg. intros Hx. rewrite Hx, Hy in Hg. by apply less_le.
  - replace (2 * i + 1 + 1)%nat with (2 * i + 2)%nat by lia. rewrite bool_decide_true, andb_true_l by lia.
    case_guard as Hg; intros Hx; [rewrite Hx in Hy; injection Hy as ->; apply le_refl|].
    unfold less_at in Hg. by rewrite Hx, Hy in Hg.
Qed.

Lemma down_heap fuel l i n :
  (n - i <= fuel)%nat -> (n <= length l)%nat ->
  heap_except (fun k => parent k = i) n l ->
  ((0 < i)%nat -> forall k, (0 < k < n)%nat -> parent k = i -> above l (parent i) k) ->
  forall k, (0 < k < n)%nat -> above (down less fuel l i n) (parent k) k.
Proof.
  revert l i. induction fuel as [|f IH]; intros l i Hf Hl Hh Hg; simpl.
  { intros k Hk. destruct (decide (parent k = i)) as [Hp|Hp]; [|by apply Hh].
    pose proof (parent_lt k ltac:(lia)). lia. }
  case_guard as Hleaf; bool_to_prop.
  { intros k Hk. apply (Hh k Hk). intros Hp. destruct (parent_children k i ltac:(lia) Hp); lia. }
  destruct (min_child_bounds less l i n ltac:(lia)) as [Hb Hpj].
  set (j := min_child less l i n) in *.
  destruct (lookup_lt_is_Some_2 l j ltac:(lia)) as [y Hy].
  destruct (lookup_lt_is_Some_2 l i ltac:(lia)) as [x Hx].
  assert (Hleast : forall k v, (0 < k < n)%nat -> parent k = i -> l !! k = Some v -> le y v).
  { intros k v Hk Hp Hv. by apply (min_child_least l i n k y v Hl ltac:(lia)). }
  unfold less_at. rewrite Hx, Hy. destruct (less y x) eqn:Hlt; simpl; cycle 1.
  { intros k Hk. destruct (decide (parent k = i)) as [Hp|Hp]; [|by apply Hh].
    intros u v Hu Hv. rewrite Hp, Hx in Hu. injection Hu as <-.
    apply (le_trans x y v); [exact Hlt|by eapply Hleast]. }
  assert (Hsw : forall k, swap l i j !! k =
    if decide (k = i) then Some y else if decide (k = j) then Some x else l !! k).
  { intros k. rewrite swap_lookup by lia. by rewrite Hx, Hy. }
  apply IH; [lia|by rewrite length_swap| |].
  - intros k Hk Hne u v Hu Hv. rewrite Hsw in Hu, Hv. pose proof (parent_lt k ltac:(lia)).
    destruct (decide (k = i)) as [->|Hki].
    + injection Hv as <-. rewrite !decide_False in Hu by lia.
      by apply (Hg ltac:(lia) j ltac:(lia) Hpj).
    + destruct (decide (parent k = i)) as [Hp|Hp].
      * injection Hu as <-. destruct (decide (k = j)) as [->|Hkj]; [injection Hv as <-; by apply less_le|].
        by eapply Hleast.
      * rewrite decide_False in Hu by done.
        destruct (decide (k = j)) as [->|Hkj]; [lia|]. by apply (Hh k Hk Hp).
  - intros Hpos k Hk Hpk u v Hu Hv. rewrite Hpj in Hu. rewrite Hsw in Hu, Hv.
    rewrite decide_True in Hu by done. injection Hu as <-.
    pose proof (parent_lt k ltac:(lia)). rewrite !decide_False in Hv by lia.
    apply (Hh k Hk); [lia|by rewrite Hpk|done].
Qed.

Lemma heap_pop_None l : heap_pop less l = None -> l = [].
Proof.
  unfold heap_pop. destruct l as [|a l]; [done|].
  destruct (lookup_lt_is_Some_2 (down less (length (a :: l)) (swap (a :: l) 0 (length (a :: l) - 1)) 0 (length (a :: l) - 1))
              (length (a :: l) - 1)) as [x Hx]; [|by rewrite Hx].
  rewrite (Permutation_length (down_perm less _ _ _ _)), length_swap. simpl. lia.
Qed.

(** Pop removes the root, keeps the other elements and the heap order. *)
Lemma heap_pop_Some l x l' :
  heap l -> heap_pop less l = Some (x, l') -> heap l' /\ x :: l' ≡ₚ l /\ Forall (le x) l.
Proof.
  intros Hh. unfold heap_pop. destruct l as [|a l]; [done|]. set (l0 := a :: l) in *.
  assert (0 < length l0)%nat as Hpos by (simpl; lia). set (n := (length l0 - 1)%nat) in *.
  set (l1 := swap l0 0 n). set (l2 := down less (length l0) l1 0 n).
  assert (length l1 = length l0) as Hl1 by apply length_swap.
  assert (l2 ≡ₚ l0) as Hperm by (by unfold l2, l1; rewrite down_perm, swap_perm).
  assert (length l2 = S n) as Hl2 by (rewrite (Permutation_length Hperm); lia).
  destruct (l2 !! n) as [x'|] eqn:Hx; [|done]. intros [= -> <-].
  assert (l0 !! 0%nat = Some x) as Hroot.
  { unfold l2 in Hx. rewrite down_beyond in Hx by lia. unfold l1 in Hx. rewrite swap_lookup in Hx by lia.
    destruct (decide (n = 0%nat)) as [He|]; [by rewrite He in Hx|]. by rewrite decide_True in Hx. }
  assert (Hsw : forall k, (0 < k < n)%nat -> l1 !! k = l0 !! k).
  { intros k Hk. unfold l1. rewrite swap_lookup by lia. by rewrite !decide_False by lia. }
  split; [|split].
  - assert (forall k, (0 < k < n)%nat -> above l2 (parent k) k) as Hh2.
    { apply down_heap; [lia|lia| |lia]. intros k Hk Hne u v Hu Hv.
      pose proof (parent_lt k ltac:(lia)). rewrite Hsw in Hu, Hv by lia. by apply (Hh k ltac:(lia)). }
    intros k Hk u v Hu Hv. apply lookup_take_Some in Hu as [Hu _]. apply lookup_take_Some in Hv as [Hv Hkn].
    by apply (Hh2 k ltac:(lia)).
  - rewrite <- Hperm. rewrite <- (take_drop n l2) at 2.
    assert (drop n l2 = [x]) as ->.
    { apply list_eq. intros [|i]; rewrite lookup_drop; simpl; [by rewrite Nat.add_0_r|].
      apply lookup_ge_None_2. lia. }
    by rewrite Permutation_app_comm.
  - by apply heap_root.
Qed.
End heap_order.
