(* ===== verification/GoJson.v ===== *)
(** * [encoding/json] as the program uses it: values, decoding, canonical text

    A decoded [any] is a [json] value; numbers keep their literal, as under
    [UseNumber].  Objects are association lists with distinct keys: a later
    duplicate key replaces the earlier value.  The decoder recurses on fuel, one
    unit per byte, which is enough since every call consumes a byte. *)
From Stdlib Require Import Ascii.
From S2P Require Import Prelude GoSort GoStrings.
Open Scope Z_scope.

Inductive json :=
  | JNull
  | JBool (b : bool)
  | JNumber (literal : string)
  | JString (s : string)
  | JArray (values : list json)
  | JObject (fields : list (string * json)).

Lemma json_rect_nested (P : json -> Prop) :
  P JNull -> (forall b, P (JBool b)) -> (forall s, P (JNumber s)) -> (forall s, P (JString s)) ->
  (forall l, Forall P l -> P (JArray l)) -> (forall l, Forall (fun kv => P (snd kv)) l -> P (JObject l)) ->
  forall v, P v.
Proof.
  intros H1 H2 H3 H4 H5 H6. fix go 1. intros [|b|s|s|l|l]; [done|apply H2|apply H3|apply H4|apply H5|apply H6].
  - induction l as [|v l IH]; constructor; [apply go|exact IH].
  - induction l as [|[k v] l IH]; constructor; [apply go|exact IH].
Qed.

Definition field (fields : list (string * json)) (key : string) : option json :=
  snd <$> List.find (fun kv => bool_decide (fst kv = key)) fields.

(** ** UTF-8 encoding of a rune *)
Definition encode_rune (r : Z) : string :=
  let r := if in_range 55296 r 57343 || (1114111 <? r) || (r <? 0) then RuneError else r in
  let b z := char_of z in
  if r <? 128 then String (b r) ""
  else if r <? 2048 then
    String (b (Z.lor 192 (Z.shiftr r 6))) (String (b (Z.lor 128 (Z.land r 63))) "")
  else if r <? 65536 then
    String (b (Z.lor 224 (Z.shiftr r 12)))
      (String (b (Z.lor 128 (Z.land (Z.shiftr r 6) 63))) (String (b (Z.lor 128 (Z.land r 63))) ""))
  else
    String (b (Z.lor 240 (Z.shiftr r 18)))
      (String (b (Z.lor 128 (Z.land (Z.shiftr r 12) 63)))
        (String (b (Z.lor 128 (Z.land (Z.shiftr r 6) 63))) (String (b (Z.lor 128 (Z.land r 63))) ""))).

(** ** Encoding strings: [json.Marshal] of a string, with HTML escaping *)
Definition marshal_rune (raw : string) (r : Z) (w : nat) : string :=
  if (r =? RuneError) && bool_decide (w = 1%nat) then escape "ufffd"
  else if r =? 34 then escape quote_mark
  else if r =? 92 then escape (escape "")
  else if r =? 8 then escape "b"
  else if r =? 12 then escape "f"
  else if r =? 10 then escape "n"
  else if r =? 13 then escape "r"
  else if r =? 9 then escape "t"
  else if (r <? 32) || (r =? 60) || (r =? 62) || (r =? 38) then escape "u00" +:+ hex_of 2 r
  else if r =? 8232 then escape "u2028"
  else if r =? 8233 then escape "u2029"
  else raw.
Fixpoint marshal_runes (fuel : nat) (s : string) : string :=
  match fuel, s with
  | O, _ => EmptyString
  | _, EmptyString => EmptyString
  | S fuel', _ =>
      let '(r, w) := decode_rune s in
      marshal_rune (string_take w s) r w +:+ marshal_runes fuel' (string_drop w s)
  end.
Definition marshal_string (s : string) : string :=
  quote_mark +:+ marshal_runes (String.length s) s +:+ quote_mark.

(** ** Decoding *)
Definition is_ws (a : ascii) : bool := mem_char a (String " " (String (char_of 9) (String (char_of 10) (String (char_of 13) "")))).
Fixpoint skip_ws (s : string) : string :=
  match s with String a s' => if is_ws a then skip_ws s' else s | EmptyString => s end.

Definition is_digit (a : ascii) : bool := in_range 48 (byte_of a) 57.
Fixpoint take_digits (s : string) : string * string :=
  match s with
  | String a s' => if is_digit a then let '(d, r) := take_digits s' in (String a d, r) else (EmptyString, s)
  | EmptyString => (EmptyString, s)
  end.
Definition nonempty (s : string) : bool := negb (bool_decide (s = EmptyString)).

(** The number grammar: the literal and the rest. *)
Definition scan_number (s : string) : option (string * string) :=
  let '(sign, s) := match s with String "-" s' => ("-"%string, s') | _ => (""%string, s) end in
  let int := match s with
             | String "0" s' => Some ("0"%string, s')
             | _ => let '(d, r) := take_digits s in if nonempty d then Some (d, r) else None
             end in
  '(int, s) ← int;
  let frac := match s with
              | String "." s' => let '(d, r) := take_digits s' in if nonempty d then Some (("." +:+ d)%string, r) else None
              | _ => Some (""%string, s)
              end in
  '(frac, s) ← frac;
  let exp := match s with
             | String e s' =>
                 if mem_char e "eE" then
                   let '(sg, s') := match s' with
                                    | String c s'' => if mem_char c "+-" then (String c "", s'') else (""%string, s')
                                    | EmptyString => (""%string, s')
                                    end in
                   let '(d, r) := take_digits s' in
                   if nonempty d then Some ((String e "" +:+ sg +:+ d)%string, r) else None
                 else Some (""%string, s)
             | EmptyString => Some (""%string, s)
             end in
  '(exp, s) ← exp;
  Some ((sign +:+ int +:+ frac +:+ exp)%string, s).

Definition hex_value (a : ascii) : option Z :=
  let b := byte_of a in
  if in_range 48 b 57 then Some (b - 48)
  else if in_range 97 b 102 then Some (b - 87)
  else if in_range 65 b 70 then Some (b - 55) else None.
Definition hex4 (s : string) : option (Z * string) :=
  match s with
  | String a (String b (String c (String d r))) =>
      x ← hex_value a; y ← hex_value b; z ← hex_value c; w ← hex_value d;
      Some (4096 * x + 256 * y + 16 * z + w, r)
  | _ => None
  end.

(** The body of a string literal, after its opening quote. *)
Fixpoint scan_string (fuel : nat) (s : string) : option (string * string) :=
  match fuel with
  | O => None
  | S f =>
      match s with
      | EmptyString => None
      | String a s' =>
          if byte_of a =? 34 then Some (EmptyString, s')
          else if byte_of a <? 32 then None
          else if byte_of a =? 92 then
            match s' with
            | EmptyString => None
            | String e s'' =>
                let simple c := '(t, r) ← scan_string f s''; Some ((c +:+ t)%string, r) in
                if byte_of e =? 34 then simple quote_mark
                else if byte_of e =? 92 then simple (escape "")
                else if mem_char e "/" then simple "/"%string
                else if mem_char e "b" then simple (String (char_of 8) "")
                else if mem_char e "f" then simple (String (char_of 12) "")
                else if mem_char e "n" then simple (String (char_of 10) "")
                else if mem_char e "r" then simple (String (char_of 13) "")
                else if mem_char e "t" then simple (String (char_of 9) "")
                else if mem_char e "u" then
                  '(u, r) ← hex4 s'';
                  (* a surrogate pair is one rune, a lone surrogate U+FFFD *)
                  let low := match r with
                             | String b (String c r') =>
                                 if (byte_of b =? 92) && mem_char c "u" then hex4 r' else None
                             | _ => None
                             end in
                  match low with
                  | Some (l, r') =>
                      if in_range 55296 u 56319 && in_range 56320 l 57343 then
                        '(t, r'') ← scan_string f r';
                        Some ((encode_rune (65536 + 1024 * (u - 55296) + (l - 56320)) +:+ t)%string, r'')
                      else '(t, r'') ← scan_string f r; Some ((encode_rune u +:+ t)%string, r'')
                  | None => '(t, r'') ← scan_string f r; Some ((encode_rune u +:+ t)%string, r'')
                  end
                else None
            end
          else
            let '(r, w) := decode_rune s in
            '(t, rest) ← scan_string f (string_drop w s);
            Some ((encode_rune r +:+ t)%string, rest)
      end
  end.

Definition put (fields : list (string * json)) (key : string) (v : json) : list (string * json) :=
  List.filter (fun kv => negb (bool_decide (fst kv = key))) fields ++ [(key, v)].

Definition literal (word : string) (v : json) (s : string) : option (json * string) :=
  if has_prefix word s then Some (v, string_drop (String.length word) s) else None.

(** The rest of the text after white space and the byte [c]. *)
Definition expect (c : ascii) (s : string) : option string :=
  match skip_ws s with
  | String a r => if decide (a = c) then Some r else None
  | EmptyString => None
  end.
Definition quote_char : ascii := char_of 34.

(** Arrays and objects nest at most [maxNestingDepth] deep. *)
Definition maxNestingDepth : nat := Z.to_nat 10000.

Fixpoint scan_value (fuel depth : nat) (s : string) : option (json * string) :=
  match fuel with
  | O => None
  | S f =>
      match expect "{" s, expect "[" s, expect quote_char s with
      | Some r, _, _ =>
          match depth with
          | O => None
          | S d =>
              match expect "}" r with
              | Some r' => Some (JObject [], r')
              | None => '(fields, r') ← scan_fields f d r []; Some (JObject fields, r')
              end
          end
      | None, Some r, _ =>
          match depth with
          | O => None
          | S d =>
              match expect "]" r with
              | Some r' => Some (JArray [], r')
              | None => '(values, r') ← scan_values f d r; Some (JArray values, r')
              end
          end
      | None, None, Some r => '(t, r') ← scan_string (S (String.length r)) r; Some (JString t, r')
      | None, None, None =>
          let s := skip_ws s in
          match literal "true" (JBool true) s, literal "false" (JBool false) s, literal "null" JNull s with
          | Some x, _, _ => Some x
          | None, Some x, _ => Some x
          | None, None, Some x => Some x
          | None, None, None => '(n, r') ← scan_number s; Some (JNumber n, r')
          end
      end
  end
with scan_values (fuel depth : nat) (s : string) : option (list json * string) :=
  match fuel with
  | O => None
  | S f =>
      '(v, r) ← scan_value f depth s;
      match expect "," r, expect "]" r with
      | Some r', _ => '(vs, r'') ← scan_values f depth r'; Some (v :: vs, r'')
      | None, Some r' => Some ([v], r')
      | None, None => None
      end
  end
with scan_fields (fuel depth : nat) (s : string) (acc : list (string * json)) : option (list (string * json) * string) :=
  match fuel with
  | O => None
  | S f =>
      q ← expect quote_char s;
      '(key, r) ← scan_string (S (String.length q)) q;
      r ← expect ":" r;
      '(v, r) ← scan_value f depth r;
      match expect "," r, expect "}" r with
      | Some r', _ => scan_fields f depth r' (put acc key v)
      | None, Some r' => Some (put acc key v, r')
      | None, None => None
      end
  end.

Definition decode_fuel (s : string) : nat := S (S (2 * String.length s)).

(** [json.NewDecoder(s)] with [UseNumber], one [Decode]: what follows the first
    value is not looked at. *)
Definition Decode (s : string) : option json := fst <$> scan_value (decode_fuel s) maxNestingDepth s.

(** [json.Valid] *)
Definition json_Valid (s : string) : bool :=
  match scan_value (decode_fuel s) maxNestingDepth s with
  | Some (_, rest) => bool_decide (skip_ws rest = EmptyString)
  | None => false
  end.

Example decode_object :
  Decode (String.concat quote_mark ["{"; "b"; ":[1,-2.5e3,true,null],"; "a"; ":{"; "x"; ":"; "\u0041\n"; "}}"]) =
  Some (JObject [("b"%string, JArray [JNumber "1"; JNumber "-2.5e3"; JBool true; JNull]);
                 ("a"%string, JObject [("x"%string, JString ("A" +:+ String (char_of 10) ""))])]).
Proof. vm_compute. reflexivity. Qed.

(** ** Canonical text: internal/domain/canonical.go

    [CanonicalJSON] passes numbers through float64 ([json.Unmarshal] into [any]
    and back); [float_text] is that conversion of [strconv]: the encoding of the
    nearest float64, or the error of a literal out of its range. *)
Class FloatText := { float_text : string -> result string string }.

Definition sort_fields {V : Type} (l : list (string * V)) : list (string * V) := sort_by (less_on fst String.ltb) l.

Section canonical.
Context `{FloatText}.

(** [appendCanonical] on the decoded value. *)
Fixpoint appendCanonical (v : json) : result string string :=
  match v with
  | JNull => Ok "null"%string
  | JBool b => Ok (if b then "true" else "false")%string
  | JNumber lit => float_text lit
  | JString s => Ok (marshal_string s)
  | JArray l =>
      let? texts := map_result appendCanonical l in Ok ("[" +:+ Join texts "," +:+ "]")%string
  | JObject l =>
      let? texts := map_result (fun '(k, v) => let? t := appendCanonical v in Ok (k, t)) l in
      Ok ("{" +:+ Join ((fun '(k, t) => marshal_string k +:+ ":" +:+ t) <$> sort_fields texts) "," +:+ "}")%string
  end.
Definition CanonicalJSON (v : json) : result string string := appendCanonical v.

End canonical.
