(* ===== verification/GoFloat.v ===== *)
(** * float64 values of JSON numbers, and [json.Unmarshal] into [any]

    A literal denotes [coefficient * 10 ^ exponent]; [strconv.ParseFloat] rounds
    it to the nearest float64, ties to even.  A float64 is kept exactly, as a
    signed mantissa and a power of two; a literal that rounds past the largest
    finite value is an error. *)
From Stdlib Require Import Ascii.
From S2P Require Import Prelude GoStrings GoJson.
Open Scope Z_scope.

(** ** The value of a literal *)
Definition digit (a : ascii) : Z := byte_of a - 48.
Fixpoint digits_value (acc : Z) (s : string) : Z :=
  match s with EmptyString => acc | String a s => digits_value (10 * acc + digit a) s end.

Record decimal_literal := mkLiteral { Lit_negative : bool; Lit_coefficient : Z; Lit_exponent : Z }.

Definition literal_of (s : string) : decimal_literal :=
  let '(negative, s) := match s with String "-" s' => (true, s') | _ => (false, s) end in
  let '(whole, s) := take_digits s in
  let '(fraction, s) := match s with String "." s' => take_digits s' | _ => (EmptyString, s) end in
  let exponent := match s with
                  | String _ (String "-" s') => - digits_value 0 s'
                  | String _ (String "+" s') => digits_value 0 s'
                  | String _ s' => digits_value 0 s'
                  | EmptyString => 0
                  end in
  mkLiteral negative (digits_value (digits_value 0 whole) fraction) (exponent - string_len fraction).

(** ** Rounding *)
Record float64 := mkFloat { Mantissa : Z; Exponent : Z }.

(** [num / den] rounded to an integer, ties to even. *)
Definition round_half_even (num den : Z) : Z :=
  let q := num / den in let r := num mod den in
  if (2 * r <? den) || ((2 * r =? den) && Z.even q) then q else q + 1.

(** The exponent [k] with [2 ^ k <= num / den < 2 ^ (k + 1)]. *)
Definition scaled_le (k num den : Z) : bool :=
  if 0 <=? k then den * 2 ^ k <=? num else den <=? num * 2 ^ (- k).
Definition binary_exponent (num den : Z) : Z :=
  let k := Z.log2 num - Z.log2 den in if scaled_le k num den then k else k - 1.

(** The nearest float64 of a nonnegative fraction, before the overflow check. *)
Definition float_of_fraction (num den : Z) : float64 :=
  if num =? 0 then mkFloat 0 0
  else
    let e := Z.max (binary_exponent num den - 52) (- 1074) in
    mkFloat (if 0 <=? e then round_half_even num (den * 2 ^ e) else round_half_even (num * 2 ^ (- e)) den) e.
Definition overflows (f : float64) : bool := (0 <=? Exponent f) && (2 ^ 1024 <=? Mantissa f * 2 ^ Exponent f).

Definition ParseFloat (s : string) : option float64 :=
  let l := literal_of s in
  let f := if 0 <=? Lit_exponent l then float_of_fraction (Lit_coefficient l * 10 ^ Lit_exponent l) 1
           else float_of_fraction (Lit_coefficient l) (10 ^ (- Lit_exponent l)) in
  if overflows f then None
  else Some (if Lit_negative l then mkFloat (- Mantissa f) (Exponent f) else f).

Definition float_positive (f : float64) : bool := 0 <? Mantissa f.

(** [int(f)]: towards zero; out of range the result is the implementation's,
    taken here as on amd64, the least integer. *)
Definition float_trunc (f : float64) : Z :=
  if 0 <=? Exponent f then Mantissa f * 2 ^ Exponent f else Z.quot (Mantissa f) (2 ^ (- Exponent f)).
Definition int_of_float (f : float64) : Z := if int64_ok (float_trunc f) then float_trunc f else MinInt64.

(** [f == float64(n)] *)
Definition float_is_int (f : float64) (n : Z) : bool :=
  let g := float_of_fraction (Z.abs n) 1 in
  let m := if n <? 0 then - Mantissa g else Mantissa g in
  let e := Z.min (Exponent f) (Exponent g) in
  Mantissa f * 2 ^ (Exponent f - e) =? m * 2 ^ (Exponent g - e).

(** ** [json.Unmarshal] *)
(** One value and nothing but white space after it. *)
Definition decode_document (s : string) : option json :=
  match scan_value (decode_fuel s) maxNestingDepth s with
  | Some (v, rest) => if bool_decide (skip_ws rest = EmptyString) then Some v else None
  | None => None
  end.
Fixpoint numbers_fit (v : json) : bool :=
  match v with
  | JNumber lit => bool_decide (is_Some (ParseFloat lit))
  | JArray l => forallb numbers_fit l
  | JObject l => forallb (fun kv => numbers_fit (snd kv)) l
  | _ => true
  end.

(** Into [any]: [None] is a non-nil error. *)
Definition Unmarshal (raw : string) : option json :=
  v ← decode_document raw; if numbers_fit v then Some v else None.
(** Into a [string]: null leaves the zero value. *)
Definition Unmarshal_string (raw : string) : option string :=
  match decode_document raw with Some (JString s) => Some s | Some JNull => Some EmptyString | _ => None end.
(** Into a [[]any]: null leaves a nil slice. *)
Definition Unmarshal_array (raw : string) : option (list json) :=
  match Unmarshal raw with Some (JArray l) => Some l | Some JNull => Some [] | _ => None end.

(** ** Facts *)
Lemma round_half_even_exact m den : 0 < den -> round_half_even (m * den) den = m.
Proof.
  intros Hd. unfold round_half_even. rewrite Z.div_mul, Z.mod_mul by lia.
  destruct (2 * 0 <? den) eqn:E; [done|]. bool_to_prop. lia.
Qed.
Lemma round_half_even_nearest num den : 0 < den -> 2 * Z.abs (num - den * round_half_even num den) <= den.
Proof.
  intros Hd. unfold round_half_even. pose proof (Z.div_mod num den ltac:(lia)) as Hdm.
  pose proof (Z.mod_pos_bound num den Hd). set (q := num / den) in *. set (r := num mod den) in *.
  destruct ((2 * r <? den) || ((2 * r =? den) && Z.even q)) eqn:E.
  - apply orb_prop in E as [E|E]; bool_to_prop; lia.
  - bool_to_prop. lia.
Qed.

(** The mantissa has at most 53 bits. *)
Lemma binary_exponent_spec num den : 0 < num -> 0 < den ->
  let k := binary_exponent num den in
  scaled_le k num den = true /\ scaled_le (k + 1) num den = false.
Proof.
  intros Hn Hd k. unfold binary_exponent in k. set (k0 := Z.log2 num - Z.log2 den) in *.
  pose proof (Z.log2_spec num Hn) as [Hn1 Hn2]. pose proof (Z.log2_spec den Hd) as [Hd1 Hd2].
  pose proof (Z.log2_nonneg num). pose proof (Z.log2_nonneg den).
  assert (forall j, 0 <= j -> 2 ^ Z.succ j = 2 * 2 ^ j) as Hpow by (intros j Hj; by rewrite Z.pow_succ_r).
  rewrite Hpow in Hn2, Hd2 by done.
  assert (scaled_le (k0 + 1) num den = false) as Hup.
  { unfold scaled_le. destruct (0 <=? k0 + 1) eqn:E; bool_to_prop.
    - apply Z.leb_gt. assert (2 ^ (k0 + 1) * 2 ^ Z.log2 den = 2 * 2 ^ Z.log2 num) as Heq.
      { rewrite <- Z.pow_add_r by lia. replace (k0 + 1 + Z.log2 den) with (Z.succ (Z.log2 num)) by lia. by apply Hpow. }
      nia.
    - apply Z.leb_gt. assert (2 * 2 ^ Z.log2 num * 2 ^ (- (k0 + 1)) = 2 ^ Z.log2 den) as Heq.
      { rewrite <- Hpow, <- Z.pow_add_r by lia. f_equal. lia. }
      assert (0 < 2 ^ (- (k0 + 1))) by (apply Z.pow_pos_nonneg; lia). nia. }
  assert (scaled_le (k0 - 1) num den = true) as Hdown.
  { unfold scaled_le. destruct (0 <=? k0 - 1) eqn:E; bool_to_prop.
    - apply Z.leb_le. assert (2 ^ (k0 - 1) * (2 * 2 ^ Z.log2 den) = 2 ^ Z.log2 num) as Heq.
      { rewrite <- Hpow, <- Z.pow_add_r by lia. f_equal. lia. }
      assert (0 < 2 ^ (k0 - 1)) by (apply Z.pow_pos_nonneg; lia). nia.
    - apply Z.leb_le. assert (2 ^ Z.log2 num * 2 ^ (- (k0 - 1)) = 2 * 2 ^ Z.log2 den) as Heq.
      { rewrite <- Hpow, <- Z.pow_add_r by lia. f_equal. lia. }
      assert (0 < 2 ^ (- (k0 - 1))) by (apply Z.pow_pos_nonneg; lia). nia. }
  unfold k. destruct (scaled_le k0 num den) eqn:E; [done|]. split; [done|]. by replace (k0 - 1 + 1) with k0 by lia.
Qed.

Example floats :
  ParseFloat "0" = Some (mkFloat 0 0) /\ ParseFloat "1e400" = None /\
  (float_positive <$> ParseFloat "1e-400") = Some false /\ (float_positive <$> ParseFloat "5e-324") = Some true /\
  (int_of_float <$> ParseFloat "-12.0") = Some (-12) /\
  ((fun f => float_is_int f (int_of_float f)) <$> ParseFloat "12.5") = Some false /\
  ((fun f => float_is_int f (int_of_float f)) <$> ParseFloat "9007199254740993") = Some true.
Proof. vm_compute. done. Qed.
