(* ===== verification/JsonRoundTrip.v ===== *)
(** * The canonical JSON text of a value reads back as that value

    [CanonicalJSON] (internal/domain/canonical.go) prints what [json.Unmarshal]
    decoded.  Decoding its text again gives the same value up to the order of
    object keys and the spelling of numbers, and printing that gives the same
    text: a blob's bytes determine its content, and its hash does not change when
    it is read and saved again. *)
From Stdlib Require Import Ascii.
From S2P Require Import Prelude GoSort GoStrings GoJson GoFloat.
Open Scope Z_scope.

(** ** Runes *)
Definition scalar (r : Z) : Prop := 0 <= r <= 1114111 /\ ~ (55296 <= r <= 57343).

Lemma byte_of_char_of z : 0 <= z < 256 -> byte_of (char_of z) = z.
Proof. intros Hz. unfold byte_of, char_of. rewrite N_ascii_embedding by lia. lia. Qed.

Lemma lor_add m n x : 0 <= n -> 0 <= x < 2 ^ n -> Z.lor (m * 2 ^ n) x = m * 2 ^ n + x.
Proof.
  intros Hn Hx. enough (Z.land (m * 2 ^ n) x = 0) as H0 by (pose proof (Z.add_lor_land (m * 2 ^ n) x); lia).
  apply Z.bits_inj'. intros i Hi. rewrite Z.land_spec, Z.bits_0.
  destruct (decide (i < n)) as [Hlt|Hge].
  - rewrite Z.mul_pow2_bits_low by lia. done.
  - replace x with (x mod 2 ^ n) by (apply Z.mod_small; lia). rewrite Z.mod_pow2_bits_high by lia. apply andb_false_r.
Qed.
Lemma land_63 x : Z.land x 63 = x mod 64. Proof. exact (Z.land_ones x 6 ltac:(lia)). Qed.
Lemma land_31 x : Z.land x 31 = x mod 32. Proof. exact (Z.land_ones x 5 ltac:(lia)). Qed.
Lemma land_15 x : Z.land x 15 = x mod 16. Proof. exact (Z.land_ones x 4 ltac:(lia)). Qed.
Lemma land_7 x : Z.land x 7 = x mod 8. Proof. exact (Z.land_ones x 3 ltac:(lia)). Qed.
Lemma lead_192 x : 0 <= x < 64 -> Z.lor 192 x = 192 + x. Proof. intros. by apply (lor_add 3 6). Qed.
Lemma lead_224 x : 0 <= x < 32 -> Z.lor 224 x = 224 + x. Proof. intros. by apply (lor_add 7 5). Qed.
Lemma lead_240 x : 0 <= x < 16 -> Z.lor 240 x = 240 + x. Proof. intros. by apply (lor_add 15 4). Qed.
Lemma cont_128 x : 0 <= x < 64 -> Z.lor 128 x = 128 + x. Proof. intros. apply (lor_add 1 7); lia. Qed.
Lemma lor_6 a x : 0 <= x < 64 -> Z.lor (a * 64) x = a * 64 + x. Proof. apply (lor_add a 6). lia. Qed.

Lemma shiftr_div x n : 0 <= n -> Z.shiftr x n = x / 2 ^ n. Proof. apply Z.shiftr_div_pow2. Qed.
Lemma shiftl_mul x n : 0 <= n -> Z.shiftl x n = x * 2 ^ n. Proof. apply Z.shiftl_mul_pow2. Qed.

Ltac euclid := Z.to_euclidean_division_equations; lia.

(** The bytes of a scalar value, by length. *)
Lemma encode_rune_2 r : 128 <= r < 2048 ->
  encode_rune r = String (char_of (192 + r / 64)) (String (char_of (128 + r mod 64)) "").
Proof.
  intros Hr. unfold encode_rune, in_range.
  rewrite (proj2 (Z.leb_gt 55296 r)), (proj2 (Z.ltb_ge 1114111 r)), (proj2 (Z.ltb_ge r 0)) by lia. cbn [orb andb].
  rewrite (proj2 (Z.ltb_ge r 128)), (proj2 (Z.ltb_lt r 2048)) by lia. cbv zeta.
  rewrite land_63, shiftr_div, lead_192, cont_128 by euclid. done.
Qed.
Lemma encode_rune_3 r : scalar r -> 2048 <= r < 65536 ->
  encode_rune r = String (char_of (224 + r / 4096)) (String (char_of (128 + r / 64 mod 64)) (String (char_of (128 + r mod 64)) "")).
Proof.
  intros [_ Hs] Hr. unfold encode_rune, in_range.
  rewrite (proj2 (Z.ltb_ge 1114111 r)), (proj2 (Z.ltb_ge r 0)) by lia.
  assert ((55296 <=? r) && (r <=? 57343) = false) as ->
    by (destruct (55296 <=? r) eqn:E1, (r <=? 57343) eqn:E2; try done; bool_to_prop; lia). cbn [orb].
  rewrite (proj2 (Z.ltb_ge r 128)), (proj2 (Z.ltb_ge r 2048)), (proj2 (Z.ltb_lt r 65536)) by lia. cbv zeta.
  rewrite !land_63, !shiftr_div, lead_224, !cont_128 by euclid. done.
Qed.
Lemma encode_rune_4 r : 65536 <= r <= 1114111 ->
  encode_rune r = String (char_of (240 + r / 262144)) (String (char_of (128 + r / 4096 mod 64))
                    (String (char_of (128 + r / 64 mod 64)) (String (char_of (128 + r mod 64)) ""))).
Proof.
  intros Hr. unfold encode_rune, in_range.
  rewrite (proj2 (Z.leb_gt r 57343)), (proj2 (Z.ltb_ge 1114111 r)), (proj2 (Z.ltb_ge r 0)), andb_false_r by lia. cbn [orb].
  rewrite (proj2 (Z.ltb_ge r 128)), (proj2 (Z.ltb_ge r 2048)), (proj2 (Z.ltb_ge r 65536)) by lia. cbv zeta.
  rewrite !land_63, !shiftr_div, lead_240, !cont_128 by euclid. done.
Qed.

Lemma decode_encode_2 r s : 128 <= r < 2048 -> decode_rune (encode_rune r +:+ s) = (r, 2%nat).
Proof.
  intros Hr. rewrite encode_rune_2 by done.
  change (decode_bytes (byte_of (char_of (192 + r / 64)) :: byte_of (char_of (128 + r mod 64)) :: bytes (string_take 2 s)) = (r, 2%nat)).
  rewrite !byte_of_char_of by euclid. unfold decode_bytes, accept2, in_range.
  rewrite (proj2 (Z.ltb_ge _ 128)), (proj2 (Z.leb_le 194 _)), (proj2 (Z.leb_le _ 244)) by euclid. cbn [andb negb].
  rewrite !(proj2 (Z.eqb_neq (192 + r / 64) _)) by euclid.
  rewrite (proj2 (Z.leb_le 128 _)), (proj2 (Z.leb_le _ 191)), (proj2 (Z.ltb_lt _ 224)) by euclid. cbn [andb negb].
  rewrite land_31, land_63, shiftl_mul by lia. change (2 ^ 6) with 64. rewrite lor_6 by euclid. f_equal. euclid.
Qed.
Lemma accept2_3 r : scalar r -> 2048 <= r < 65536 -> accept2 (224 + r / 4096) (128 + r / 64 mod 64) = true.
Proof.
  intros [_ Hs] Hr. unfold accept2, in_range. assert (r = 4096 * (r / 4096) + r mod 4096) as Hd by euclid.
  assert (r / 64 mod 64 = r mod 4096 / 64) as -> by euclid.
  destruct (224 + r / 4096 =? 224) eqn:E1; bool_to_prop.
  { apply andb_true_iff. split; apply Z.leb_le; euclid. }
  destruct (224 + r / 4096 =? 237) eqn:E2; bool_to_prop.
  { apply andb_true_iff. split; apply Z.leb_le; euclid. }
  rewrite !(proj2 (Z.eqb_neq (224 + r / 4096) _)) by euclid.
  apply andb_true_iff. split; apply Z.leb_le; euclid.
Qed.
Lemma lor_12 a x : 0 <= x < 4096 -> Z.lor (a * 4096) x = a * 4096 + x. Proof. apply (lor_add a 12). lia. Qed.
Lemma lor_18 a x : 0 <= x < 262144 -> Z.lor (a * 262144) x = a * 262144 + x. Proof. apply (lor_add a 18). lia. Qed.
Lemma decode_encode_3 r s : scalar r -> 2048 <= r < 65536 -> decode_rune (encode_rune r +:+ s) = (r, 3%nat).
Proof.
  intros Hsc Hr. rewrite encode_rune_3 by done.
  change (decode_bytes (byte_of (char_of (224 + r / 4096)) :: byte_of (char_of (128 + r / 64 mod 64)) ::
            byte_of (char_of (128 + r mod 64)) :: bytes (string_take 1 s)) = (r, 3%nat)).
  rewrite !byte_of_char_of by euclid. unfold decode_bytes. rewrite accept2_3 by done. unfold in_range.
  rewrite (proj2 (Z.ltb_ge _ 128)), (proj2 (Z.leb_le 194 _)), (proj2 (Z.leb_le _ 244)) by euclid. cbn [andb negb].
  rewrite (proj2 (Z.ltb_ge _ 224)), (proj2 (Z.leb_le 128 _)), (proj2 (Z.leb_le _ 191)), (proj2 (Z.ltb_lt _ 240)) by euclid.
  cbn [andb negb]. rewrite land_15, !land_63, !shiftl_mul by lia. change (2 ^ 6) with 64. change (2 ^ 12) with 4096.
  rewrite <- Z.lor_assoc, lor_6, lor_12 by euclid. f_equal. euclid.
Qed.
Lemma accept2_4 r : 65536 <= r <= 1114111 -> accept2 (240 + r / 262144) (128 + r / 4096 mod 64) = true.
Proof.
  intros Hr. unfold accept2, in_range.
  rewrite (proj2 (Z.eqb_neq _ 224)), (proj2 (Z.eqb_neq _ 237)) by euclid.
  destruct (240 + r / 262144 =? 240) eqn:E1; bool_to_prop.
  { apply andb_true_iff. split; apply Z.leb_le; euclid. }
  destruct (240 + r / 262144 =? 244) eqn:E2; bool_to_prop;
    apply andb_true_iff; split; apply Z.leb_le; euclid.
Qed.
Lemma decode_encode_4 r s : 65536 <= r <= 1114111 -> decode_rune (encode_rune r +:+ s) = (r, 4%nat).
Proof.
  intros Hr. rewrite encode_rune_4 by done.
  change (decode_bytes (byte_of (char_of (240 + r / 262144)) :: byte_of (char_of (128 + r / 4096 mod 64)) ::
            byte_of (char_of (128 + r / 64 mod 64)) :: byte_of (char_of (128 + r mod 64)) :: bytes (string_take 0 s)) = (r, 4%nat)).
  rewrite !byte_of_char_of by euclid. unfold decode_bytes. rewrite accept2_4 by done. unfold in_range.
  rewrite (proj2 (Z.ltb_ge _ 128)), (proj2 (Z.leb_le 194 _)), (proj2 (Z.leb_le _ 244)) by euclid. cbn [andb negb].
  rewrite (proj2 (Z.ltb_ge _ 224)), !(proj2 (Z.leb_le 128 _)), !(proj2 (Z.leb_le _ 191)), (proj2 (Z.ltb_ge _ 240)) by euclid.
  cbn [andb negb]. rewrite land_7, !land_63, !shiftl_mul by lia. change (2 ^ 6) with 64. change (2 ^ 12) with 4096.
  change (2 ^ 18) with 262144.
  rewrite <- !Z.lor_assoc, lor_6, lor_12, lor_18 by euclid. f_equal. euclid.
Qed.
Lemma decode_encode r s : scalar r ->
  decode_rune (encode_rune r +:+ s) = (r, String.length (encode_rune r)).
Proof.
  intros Hsc. destruct (decide (r < 128)) as [H1|H1].
  - assert (encode_rune r = String (char_of r) "") as ->.
    { destruct Hsc as [? ?]. unfold encode_rune, in_range.
      rewrite (proj2 (Z.leb_gt 55296 r)), (proj2 (Z.ltb_ge 1114111 r)), (proj2 (Z.ltb_ge r 0)) by lia. cbn [orb andb].
      by rewrite (proj2 (Z.ltb_lt r 128)). }
    destruct Hsc as [? _]. change (decode_rune (String (char_of r) s) = (r, 1%nat)).
    rewrite decode_rune_first; rewrite byte_of_char_of by lia; done.
  - destruct (decide (r < 2048)); [rewrite decode_encode_2, encode_rune_2 by lia; done|].
    destruct (decide (r < 65536)); [rewrite decode_encode_3, encode_rune_3 by (done || lia); done|].
    destruct Hsc. rewrite decode_encode_4, encode_rune_4 by lia. done.
Qed.

(** ** Strings *)
Definition joined (f : Z -> string) (rs : list Z) : string := foldr (fun r t => f r +:+ t) EmptyString rs.
(** A string is valid UTF-8: the encoding of scalar values. *)
Definition valid_text (s : string) : Prop := exists rs, Forall scalar rs /\ s = joined encode_rune rs.
Definition escaped (r : Z) : string := marshal_rune (encode_rune r) r (String.length (encode_rune r)).

Lemma encode_rune_nonempty r : (1 <= String.length (encode_rune r))%nat.
Proof. unfold encode_rune. cbv zeta. repeat case_match; simpl; lia. Qed.
Lemma string_take_app s t : string_take (String.length s) (s +:+ t) = s.
Proof. induction s as [|a s IH]; simpl; [by destruct t|by rewrite IH]. Qed.
Lemma string_drop_app s t : string_drop (String.length s) (s +:+ t) = t.
Proof. induction s as [|a s IH]; simpl; [by destruct t|done]. Qed.
Lemma string_app_assoc s t u : ((s +:+ t) +:+ u = s +:+ (t +:+ u))%string.
Proof. induction s as [|a s IH]; [done|]. exact (f_equal (String a) IH). Qed.
Lemma string_length_app s t : String.length (s +:+ t) = (String.length s + String.length t)%nat.
Proof. induction s as [|a s IH]; [done|]. exact (f_equal S IH). Qed.

Lemma string_app_empty s : (s +:+ EmptyString = s)%string.
Proof. induction s as [|a s IH]; [done|]. exact (f_equal (String a) IH). Qed.

Lemma marshal_runes_joined rs fuel : Forall scalar rs -> (String.length (joined encode_rune rs) <= fuel)%nat ->
  marshal_runes fuel (joined encode_rune rs) = joined escaped rs.
Proof.
  intros Hrs. revert fuel. induction Hrs as [|r rs Hr Hrs IH]; intros fuel Hf; cbn [joined foldr] in *; [by destruct fuel|].
  rewrite string_length_app in Hf. pose proof (encode_rune_nonempty r) as Hne. destruct fuel as [|fuel]; [lia|].
  assert (exists a s, encode_rune r +:+ joined encode_rune rs = String a s) as (a & s & Hs).
  { destruct (encode_rune r); simpl in *; [lia|eauto]. }
  unfold joined in *. cbn [marshal_runes]. rewrite Hs, <- Hs. rewrite decode_encode by done.
  rewrite string_take_app, string_drop_app, IH by lia. done.
Qed.
Lemma marshal_string_joined rs : Forall scalar rs ->
  marshal_string (joined encode_rune rs) = (quote_mark +:+ joined escaped rs +:+ quote_mark)%string.
Proof. intros Hrs. unfold marshal_string. by rewrite marshal_runes_joined. Qed.

Definition prepend (t : string) (o : option (string * string)) : option (string * string) :=
  '(s, r) ← o; Some ((t +:+ s)%string, r).

Lemma scan_unicode f s tail u : hex4 s = Some (u, tail) -> in_range 55296 u 56319 = false ->
  scan_string (S f) (String (char_of 92) (String "u" s)) = prepend (encode_rune u) (scan_string f tail).
Proof.
  intros Hh Hu. cbn -[hex4 encode_rune]. rewrite Hh. cbn -[hex4 encode_rune]. rewrite Hu. cbn [andb].
  by destruct (match tail with String _ _ => _ | EmptyString => None end) as [[? ?]|].
Qed.

Definition control_escapes : list Z := (Z.of_nat <$> seq 0 32) ++ [60; 62; 38].
Lemma hex4_control r tail : r ∈ control_escapes -> hex4 ("00" +:+ hex_of 2 r +:+ tail) = Some (r, tail).
Proof.
  intros Hr. unfold control_escapes in Hr. simpl in Hr. repeat (apply elem_of_cons in Hr as [->|Hr]; [reflexivity|]).
  by apply elem_of_nil in Hr.
Qed.

Lemma encode_rune_1 r : 0 <= r < 128 -> encode_rune r = String (char_of r) "".
Proof.
  intros Hr. unfold encode_rune, in_range.
  rewrite (proj2 (Z.leb_gt 55296 r)), (proj2 (Z.ltb_ge 1114111 r)), (proj2 (Z.ltb_ge r 0)) by lia. cbn [orb andb].
  by rewrite (proj2 (Z.ltb_lt r 128)) by lia.
Qed.

(** One escaped rune is read back as the rune. *)
Lemma scan_escaped f r tail : scalar r ->
  scan_string (S f) (escaped r +:+ tail) = prepend (encode_rune r) (scan_string f tail).
Proof.
  intros Hr. unfold escaped, marshal_rune.
  destruct (decide (r = RuneError)) as [->|Hre]; [reflexivity|]. rewrite (proj2 (Z.eqb_neq _ _) Hre). cbn [andb].
  repeat match goal with
  | |- context [if (r =? ?n) then _ else _] =>
      lazymatch n with
      | 8232 => fail | 8233 => fail
      | _ => destruct (decide (r = n)) as [->|?]; [reflexivity|rewrite (proj2 (Z.eqb_neq r n)) by done]
      end
  end.
  destruct ((r <? 32) || (r =? 60) || (r =? 62) || (r =? 38)) eqn:Hc.
  { assert (r ∈ control_escapes) as Hin.
    { unfold control_escapes. apply elem_of_app. destruct (decide (r < 32)).
      - left. apply list_elem_of_fmap. exists (Z.to_nat r). destruct Hr. split; [lia|]. apply elem_of_seq. lia.
      - right. rewrite (proj2 (Z.ltb_ge r 32)) in Hc by lia. cbn [orb] in Hc.
        destruct (r =? 60) eqn:?, (r =? 62) eqn:?, (r =? 38) eqn:?; bool_to_prop; subst; try done; set_solver. }
    change (escape "u00" +:+ hex_of 2 r) with (String (char_of 92) (String "u" ("00" +:+ hex_of 2 r))).
    cbn [String.app app]. change (String (char_of 92) (String "u" ("00" +:+ hex_of 2 r)) +:+ tail)
      with (String (char_of 92) (String "u" (("00" +:+ hex_of 2 r) +:+ tail))).
    apply scan_unicode; [by rewrite string_app_assoc; apply hex4_control|].
    unfold in_range. apply andb_false_iff. left. apply Z.leb_gt.
    unfold control_escapes in Hin. rewrite elem_of_app, list_elem_of_fmap in Hin.
    destruct Hin as [(k & -> & Hk%elem_of_seq)|Hin]; [lia|]. rewrite !elem_of_cons in Hin. destruct Hin as [->|[->|[->|Hin]]]; try lia. }
  destruct (decide (r = 8232)) as [->|H1]; [by apply scan_unicode|].
  destruct (decide (r = 8233)) as [->|H2]; [by apply scan_unicode|].
  rewrite (proj2 (Z.eqb_neq r 8232)), (proj2 (Z.eqb_neq r 8233)) by done.
  pose proof (decode_encode r tail Hr) as Hd.
  pose proof (string_drop_app (encode_rune r) tail) as Hdrop.
  assert (exists a s, encode_rune r = String a s /\ 32 <= byte_of a /\ byte_of a <> 34 /\ byte_of a <> 92) as (a & s & Hs & Ha & Ha1 & Ha2).
  { apply orb_false_elim in Hc as [Hc _]. apply orb_false_elim in Hc as [Hc _]. apply orb_false_elim in Hc as [Hc _].
    bool_to_prop. destruct Hr as [Hr1 Hr2].
    destruct (decide (r < 128)); [rewrite encode_rune_1 by lia|destruct (decide (r < 2048)); [rewrite encode_rune_2 by lia|
      destruct (decide (r < 65536)); [rewrite encode_rune_3 by (split; lia) || lia|rewrite encode_rune_4 by lia]]];
      eexists _, _; (split; [reflexivity|]); rewrite byte_of_char_of by euclid; split_and!; try euclid; done. }
  rewrite Hs in *. change (String a s +:+ tail)%string with (String a (s +:+ tail)) in Hd, Hdrop |- *.
  cbn [scan_string].
  rewrite (proj2 (Z.eqb_neq _ 34)), (proj2 (Z.ltb_ge _ 32)), (proj2 (Z.eqb_neq _ 92)) by done.
  rewrite Hd, Hdrop, <- Hs. done.
Qed.

Lemma scan_string_joined rs f tail : Forall scalar rs -> (length rs < f)%nat ->
  scan_string f (joined escaped rs +:+ quote_mark +:+ tail) = Some (joined encode_rune rs, tail).
Proof.
  intros Hrs. revert f. induction Hrs as [|r rs Hr Hrs IH]; intros f Hf; cbn [length] in Hf; (destruct f as [|f]; [lia|]).
  - reflexivity.
  - cbn [joined foldr]. rewrite string_app_assoc, scan_escaped by done.
    unfold joined in IH. rewrite IH by lia. done.
Qed.

(** ** Numbers *)
(** A rest of text that cannot continue a number. *)
Definition stops (rest : string) : Prop :=
  match rest with EmptyString => True | String a _ => is_digit a = false /\ mem_char a ".eE+-" = false end.
Definition is_number (t : string) : Prop := scan_number t = Some (t, EmptyString).

Definition sign_part (s : string) : string * string :=
  match s with String "-" s' => ("-"%string, s') | _ => (""%string, s) end.
Definition int_part (s : string) : option (string * string) :=
  match s with
  | String "0" s' => Some ("0"%string, s')
  | _ => let '(d, r) := take_digits s in if nonempty d then Some (d, r) else None
  end.
Definition frac_part (s : string) : option (string * string) :=
  match s with
  | String "." s' => let '(d, r) := take_digits s' in if nonempty d then Some (("." +:+ d)%string, r) else None
  | _ => Some (""%string, s)
  end.
Definition exp_sign (s : string) : string * string :=
  match s with
  | String c s' => if mem_char c "+-" then (String c "", s') else (""%string, s)
  | EmptyString => (""%string, s)
  end.
Definition exp_part (s : string) : option (string * string) :=
  match s with
  | String e s' =>
      if mem_char e "eE" then
        let '(sg, s') := exp_sign s' in
        let '(d, r) := take_digits s' in
        if nonempty d then Some ((String e "" +:+ sg +:+ d)%string, r) else None
      else Some (""%string, s)
  | EmptyString => Some (""%string, s)
  end.
Lemma scan_number_parts s :
  scan_number s =
  let '(sign, s) := sign_part s in
  '(int, s) ← int_part s; '(frac, s) ← frac_part s; '(exp, s) ← exp_part s;
  Some ((sign +:+ int +:+ frac +:+ exp)%string, s).
Proof. reflexivity. Qed.

Lemma take_digits_app s rest d r : stops rest -> take_digits s = (d, r) -> take_digits (s +:+ rest) = (d, (r +:+ rest)%string).
Proof.
  intros Hstop. revert d r. induction s as [|a s IH]; intros d r.
  - intros [= <- <-]. change (EmptyString +:+ rest)%string with rest. destruct rest as [|a rest]; [done|].
    destruct Hstop as [Hd _]. cbn [take_digits]. by rewrite Hd.
  - change (String a s +:+ rest)%string with (String a (s +:+ rest)). cbn [take_digits].
    destruct (is_digit a); [|by intros [= <- <-]].
    destruct (take_digits s) as [d' r']. rewrite (IH d' r' eq_refl). by intros [= <- <-].
Qed.

Ltac all_bytes a := destruct a as [[] [] [] [] [] [] [] []].
Lemma sign_part_other a s : a <> "-"%char -> sign_part (String a s) = (""%string, String a s).
Proof. intros Ha. all_bytes a; try reflexivity. by destruct Ha. Qed.
Lemma int_part_other a s : a <> "0"%char ->
  int_part (String a s) = let '(d, r) := take_digits (String a s) in if nonempty d then Some (d, r) else None.
Proof. intros Ha. all_bytes a; try reflexivity. by destruct Ha. Qed.
Lemma frac_part_other a s : a <> "."%char -> frac_part (String a s) = Some (""%string, String a s).
Proof. intros Ha. all_bytes a; try reflexivity. by destruct Ha. Qed.

Lemma stops_char a s : stops (String a s) -> a <> "."%char /\ mem_char a "eE" = false.
Proof. intros [Hd Hm]. all_bytes a; try discriminate; done. Qed.

Section stopped.
Context (rest : string) (Hstop : stops rest).

Lemma app_cons a s : (String a s +:+ rest)%string = String a (s +:+ rest). Proof. reflexivity. Qed.

Lemma int_part_app s d r : int_part s = Some (d, r) -> int_part (s +:+ rest) = Some (d, (r +:+ rest)%string).
Proof.
  destruct s as [|a s]; [done|]. rewrite app_cons. destruct (decide (a = "0"%char)) as [->|Ha]; [by intros [= <- <-]|].
  rewrite !int_part_other by done. destruct (take_digits (String a s)) as [d' r'] eqn:Ht.
  rewrite <- app_cons, (take_digits_app _ _ _ _ Hstop Ht). by destruct (nonempty d'); intros [= <- <-].
Qed.
Lemma frac_part_app s d r : frac_part s = Some (d, r) -> frac_part (s +:+ rest) = Some (d, (r +:+ rest)%string).
Proof.
  destruct s as [|a s].
  - intros [= <- <-]. change (EmptyString +:+ rest)%string with rest. clear -Hstop. destruct rest as [|a s]; [done|].
    by apply frac_part_other, (stops_char a s).
  - rewrite app_cons. destruct (decide (a = "."%char)) as [->|Ha]; [|by rewrite !frac_part_other by done; intros [= <- <-]].
    cbn [frac_part]. destruct (take_digits s) as [d' r'] eqn:Ht. rewrite (take_digits_app _ _ _ _ Hstop Ht).
    by destruct (nonempty d'); intros [= <- <-].
Qed.
Lemma exp_sign_app s sg r : s <> EmptyString -> exp_sign s = (sg, r) -> exp_sign (s +:+ rest) = (sg, (r +:+ rest)%string).
Proof.
  destruct s as [|a s]; [done|]. intros _. rewrite app_cons. cbn [exp_sign].
  destruct (mem_char a "+-"); by intros [= <- <-].
Qed.
Lemma exp_part_app s d r : exp_part s = Some (d, r) -> exp_part (s +:+ rest) = Some (d, (r +:+ rest)%string).
Proof.
  destruct s as [|a s].
  - intros [= <- <-]. change (EmptyString +:+ rest)%string with rest. clear -Hstop. destruct rest as [|a s]; [done|].
    cbn [exp_part]. by rewrite (proj2 (stops_char a s Hstop)).
  - rewrite app_cons. cbn [exp_part]. destruct (mem_char a "eE"); [|by intros [= <- <-]].
    destruct (decide (s = EmptyString)) as [->|Hs]; [done|].
    destruct (exp_sign s) as [sg s'] eqn:E. rewrite (exp_sign_app _ _ _ Hs E).
    destruct (take_digits s') as [d' r'] eqn:Ht. rewrite (take_digits_app _ _ _ _ Hstop Ht).
    by destruct (nonempty d'); intros [= <- <-].
Qed.
Lemma scan_number_app t : is_number t -> scan_number (t +:+ rest) = Some (t, rest).
Proof.
  unfold is_number. rewrite !scan_number_parts. destruct t as [|a t]; [done|].
  assert (sign_part (String a t +:+ rest) = let '(sg, s) := sign_part (String a t) in (sg, (s +:+ rest)%string)) as ->.
  { rewrite app_cons. destruct (decide (a = "-"%char)) as [->|Ha]; [done|]. by rewrite !sign_part_other. }
  destruct (sign_part (String a t)) as [sg s].
  destruct (int_part s) as [[i s1]|] eqn:Hi; [|done]. rewrite (int_part_app _ _ _ Hi). cbn [mbind option_bind].
  destruct (frac_part s1) as [[fr s2]|] eqn:Hf; [|done]. rewrite (frac_part_app _ _ _ Hf). cbn [mbind option_bind].
  destruct (exp_part s2) as [[ex s3]|] eqn:He; [|done]. rewrite (exp_part_app _ _ _ He). cbn [mbind option_bind].
  intros [= Ht Hs3]. rewrite Ht. subst s3. done.
Qed.
End stopped.

Lemma number_start t : is_number t -> exists a s, t = String a s /\ (a = "-"%char \/ is_digit a = true).
Proof.
  unfold is_number. rewrite scan_number_parts. destruct t as [|a s]; [done|]. intros H. exists a, s. split; [done|].
  destruct (decide (a = "-"%char)) as [|Ha]; [by left|]. right. rewrite sign_part_other in H by done.
  destruct (decide (a = "0"%char)) as [->|H0]; [done|]. rewrite int_part_other in H by done.
  cbn [take_digits] in H. destruct (is_digit a); [done|]. done.
Qed.

(** ** Values *)
(** What [strconv] does with a finite float64: a JSON number that stands for the
    same float64. *)
Class FloatTextLaws `{FloatText} : Prop := {
  float_text_number lit t : float_text lit = Ok t -> is_number t;
  float_text_again lit t : float_text lit = Ok t -> float_text t = Ok t
}.

(** What a decoder returns: valid UTF-8, distinct keys. *)
Fixpoint wellformed (v : json) : Prop :=
  match v with
  | JString s => valid_text s
  | JArray l => fold_right and True (wellformed <$> l)
  | JObject l => NoDup l.*1 /\ fold_right and True ((fun kv => valid_text (fst kv) /\ wellformed (snd kv)) <$> l)
  | _ => True
  end.
Fixpoint depth (v : json) : nat :=
  match v with
  | JArray l => S (list_max (depth <$> l))
  | JObject l => S (list_max ((fun kv => depth (snd kv)) <$> l))
  | _ => O
  end.

Section roundtrip.
Context `{FloatTextLaws}.

(** The value the canonical text stands for: keys sorted, numbers respelled. *)
Fixpoint normal (v : json) : json :=
  match v with
  | JNumber lit => match float_text lit with Ok t => JNumber t | Err _ => v end
  | JArray l => JArray (normal <$> l)
  | JObject l => JObject (sort_fields ((fun '(k, v) => (k, normal v)) <$> l))
  | _ => v
  end.

Definition element_start (a : ascii) : Prop :=
  is_ws a = false /\ a <> "]"%char /\ a <> "}"%char /\ a <> ","%char.
Lemma number_char a : a = "-"%char \/ is_digit a = true ->
  element_start a /\ a <> "{"%char /\ a <> "["%char /\ a <> quote_char /\ a <> "t"%char /\ a <> "f"%char /\ a <> "n"%char.
Proof.
  intros [->|Hd]; [split_and!; done|]. unfold element_start. all_bytes a; try discriminate; split_and!; done.
Qed.
Lemma text_start v t : appendCanonical v = Ok t -> exists a s, t = String a s /\ element_start a.
Proof.
  destruct v as [|b|lit|s|l|l]; cbn [appendCanonical].
  - intros [= <-]. eexists _, _. split; [reflexivity|]. done.
  - intros [= <-]. destruct b; (eexists _, _; split; [reflexivity|]; done).
  - intros Ht. destruct (number_start t (float_text_number _ _ Ht)) as (a & s & -> & Ha). exists a, s.
    split; [done|]. by apply number_char.
  - intros [= <-]. eexists _, _. split; [reflexivity|]. done.
  - intros (ts & _ & [= <-])%result_bind_Ok. eexists _, _. split; [reflexivity|]. done.
  - intros (ts & _ & [= <-])%result_bind_Ok. eexists _, _. split; [reflexivity|]. done.
Qed.

Lemma expect_char c s : is_ws c = false -> expect c (String c s) = Some s.
Proof. intros Hc. unfold expect. cbn [skip_ws]. rewrite Hc. by rewrite decide_True. Qed.
Lemma expect_other c a s : is_ws a = false -> a <> c -> expect c (String a s) = None.
Proof. intros Ha Hc. unfold expect. cbn [skip_ws]. rewrite Ha. by rewrite decide_False. Qed.
Lemma literal_other word v a s b w : word = String b w -> a <> b -> literal word v (String a s) = None.
Proof. intros -> Hab. unfold literal. cbn [has_prefix]. by rewrite bool_decide_false. Qed.

Lemma scan_value_number f d lit t rest : float_text lit = Ok t -> stops rest ->
  scan_value (S f) d (t +:+ rest) = Some (JNumber t, rest).
Proof.
  intros Ht Hr. pose proof (float_text_number _ _ Ht) as Hn. pose proof (scan_number_app rest Hr t Hn) as Hscan.
  destruct (number_start t Hn) as (a & s & -> & Ha).
  destruct (number_char a Ha) as ((Hws & _ & _ & _) & Hb & Hb' & Hq & Hlt & Hlf & Hln).
  change (String a s +:+ rest)%string with (String a (s +:+ rest)) in *. cbn [scan_value].
  rewrite !expect_other by done. cbn [skip_ws]. rewrite Hws.
  rewrite !(literal_other _ _ a _ _ _ eq_refl) by done. by rewrite Hscan.
Qed.

Lemma scan_value_string f d s rest : valid_text s -> (2 * String.length (marshal_string s) <= f)%nat ->
  scan_value f d (marshal_string s +:+ rest) = Some (JString s, rest).
Proof.
  intros (rs & Hrs & ->) Hf. rewrite marshal_string_joined in * by done. destruct f as [|f]; [simpl in Hf; lia|].
  cbn [scan_value]. change ((quote_mark +:+ joined escaped rs +:+ quote_mark) +:+ rest)%string
    with (String quote_char ((joined escaped rs +:+ quote_mark) +:+ rest)).
  rewrite !expect_other, expect_char by done. rewrite string_app_assoc.
  rewrite scan_string_joined; [done..|]. apply Nat.lt_succ_r. clear. induction rs as [|r rs IH]; [simpl; lia|].
  cbn [joined foldr length]. rewrite string_app_assoc, string_length_app. unfold joined in IH.
  enough (1 <= String.length (escaped r))%nat by lia.
  unfold escaped, marshal_rune. pose proof (encode_rune_nonempty r). repeat case_match; simpl; lia.
Qed.

Definition delim (rest : string) : Prop :=
  match rest with EmptyString => True | String a _ => a = ","%char \/ a = "]"%char \/ a = "}"%char end.
Lemma delim_stops rest : delim rest -> stops rest.
Proof. destruct rest as [|a s]; [done|]. by intros [->|[->| ->]]. Qed.

Definition reads (v : json) : Prop := forall t f d rest,
  appendCanonical v = Ok t -> (depth v <= d)%nat -> (2 * String.length t <= f)%nat -> delim rest ->
  scan_value f d (t +:+ rest) = Some (normal v, rest).

Lemma scan_values_joined l : Forall reads l -> forall ts f d rest, l <> [] ->
  Forall2 (fun v t => appendCanonical v = Ok t) l ts -> Forall (fun v => depth v <= d)%nat l ->
  (2 * String.length (Join ts ",") + 1 <= f)%nat ->
  scan_values f d (Join ts "," +:+ String "]" rest) = Some (normal <$> l, rest).
Proof.
  induction 1 as [|v l Hv Hl IH]; intros ts f d rest Hne Hts Hd Hf; [done|].
  inversion Hts as [|? t ? ts' Ht Hts']; subst. inversion Hd as [|? ? Hdv Hdl]; subst.
  destruct f as [|f]; [lia|]. destruct l as [|v' l].
  - inversion Hts'; subst. cbn [Join] in *. cbn [scan_values].
    rewrite (Hv t f d (String "]" rest) Ht Hdv) by (try lia; right; by left). reflexivity.
  - inversion Hts' as [|? t' ? ts'' Ht' Hts'']; subst.
    change (Join (t :: t' :: ts'') ",") with (t +:+ "," +:+ Join (t' :: ts'') ",")%string in *.
    rewrite !string_length_app in Hf. rewrite !string_app_assoc. cbn [scan_values].
    rewrite (Hv t f d ("," +:+ Join (t' :: ts'') "," +:+ String "]" rest)%string Ht Hdv) by (try lia; by left).
    cbn [mbind option_bind]. change ("," +:+ Join (t' :: ts'') "," +:+ String "]" rest)%string
      with (String "," (Join (t' :: ts'') "," +:+ String "]" rest)).
    rewrite expect_char by done. rewrite (IH (t' :: ts'') f d rest); [done..|]. change (String.length ",") with 1%nat in Hf. lia.
Qed.

Lemma put_fresh fields key v : key ∉ fields.*1 -> put fields key v = (fields ++ [(key, v)])%list.
Proof.
  intros Hk. unfold put. f_equal. induction fields as [|[k w] fields IH]; [done|]. cbn [List.filter fst].
  csimpl in Hk. rewrite not_elem_of_cons in Hk. destruct Hk as [Hne Hk].
  rewrite bool_decide_false by congruence. cbn [negb]. by rewrite IH.
Qed.

Definition field_text (kt : string * string) : string := (marshal_string kt.1 +:+ ":" +:+ kt.2)%string.
Definition texts_of (l : list (string * json)) (ts : list (string * string)) : Prop :=
  Forall2 (fun kv kt => kt.1 = kv.1 /\ appendCanonical kv.2 = Ok kt.2) l ts.
Definition normal_field (kv : string * json) : string * json := (kv.1, normal kv.2).

Lemma scan_key key tail : valid_text key ->
  exists q, expect quote_char (marshal_string key +:+ tail) = Some q /\ scan_string (S (String.length q)) q = Some (key, tail).
Proof.
  intros (rs & Hrs & ->). rewrite marshal_string_joined by done.
  exists (joined escaped rs +:+ quote_mark +:+ tail)%string. split.
  - change ((quote_mark +:+ joined escaped rs +:+ quote_mark) +:+ tail)%string
      with (String quote_char ((joined escaped rs +:+ quote_mark) +:+ tail)). by rewrite expect_char, string_app_assoc.
  - apply scan_string_joined; [done|]. apply Nat.lt_succ_r. rewrite string_length_app.
    enough (length rs <= String.length (joined escaped rs))%nat by lia. clear.
    induction rs as [|r rs IH]; [simpl; lia|]. cbn [joined foldr length]. rewrite string_length_app. unfold joined in IH.
    enough (1 <= String.length (escaped r))%nat by lia.
    unfold escaped, marshal_rune. pose proof (encode_rune_nonempty r). repeat case_match; simpl; lia.
Qed.

Lemma scan_fields_joined l : Forall (fun kv => reads kv.2) l -> forall ts f d rest acc, l <> [] ->
  texts_of l ts -> Forall (fun kv => valid_text kv.1 /\ depth kv.2 <= d)%nat l -> NoDup (acc.*1 ++ l.*1) ->
  (2 * String.length (Join (field_text <$> ts) ",") + 1 <= f)%nat ->
  scan_fields f d (Join (field_text <$> ts) "," +:+ String "}" rest) acc = Some ((acc ++ (normal_field <$> l))%list, rest).
Proof.
  induction 1 as [|[k v] l Hv Hl IH]; intros ts f d rest acc Hne Hts Hd Hnd Hf; [done|].
  inversion Hts as [|? [k' t] ? ts' [Hk Ht] Hts']; subst. inversion Hd as [|? ? [Hkv Hdv] Hdl]; subst. cbn [fst snd] in *. subst k'.
  destruct f as [|f]; [lia|].
  assert (k ∉ acc.*1) as Hfresh by (intros Hin; apply NoDup_app in Hnd as (_ & Hdis & _); apply (Hdis k Hin); csimpl; by left).
  destruct l as [|[k2 v2] l].
  - inversion Hts'; subst. cbn [Join fmap list_fmap] in *. unfold field_text in *. cbn [fst snd] in *.
    rewrite !string_length_app in Hf. rewrite !string_app_assoc.
    destruct (scan_key k (":" +:+ t +:+ String "}" rest) Hkv) as (q & Hq & Hscan). cbn [scan_fields].
    rewrite Hq. cbn [mbind option_bind]. rewrite Hscan. cbn [mbind option_bind].
    change (":" +:+ t +:+ String "}" rest)%string with (String ":" (t +:+ String "}" rest)). rewrite expect_char by done.
    cbn [mbind option_bind]. rewrite (Hv t f d (String "}" rest) Ht Hdv) by (try lia; right; by right). cbn [mbind option_bind].
    rewrite expect_other, expect_char by done. by rewrite put_fresh.
  - inversion Hts' as [|? [k3 t2] ? ts'' [Hk2 Ht2] Hts'']; subst. cbn [fst snd] in *. subst k3.
    change (Join (field_text <$> (k, t) :: (k2, t2) :: ts'') ",")
      with (field_text (k, t) +:+ "," +:+ Join (field_text <$> (k2, t2) :: ts'') ",")%string in *.
    unfold field_text at 1 in Hf. cbn [fst snd] in Hf. rewrite !string_length_app in Hf.
    unfold field_text at 1. cbn [fst snd]. rewrite !string_app_assoc.
    set (tail := (Join (field_text <$> (k2, t2) :: ts'') "," +:+ String "}" rest)%string).
    destruct (scan_key k (":" +:+ t +:+ "," +:+ tail) Hkv) as (q & Hq & Hscan). cbn [scan_fields].
    rewrite Hq. cbn [mbind option_bind]. rewrite Hscan. cbn [mbind option_bind].
    change (":" +:+ t +:+ "," +:+ tail)%string with (String ":" (t +:+ String "," tail)). rewrite expect_char by done.
    cbn [mbind option_bind]. rewrite (Hv t f d (String "," tail) Ht Hdv) by (try lia; by left). cbn [mbind option_bind].
    rewrite expect_char by done. rewrite put_fresh by done. unfold tail.
    rewrite (IH ((k2, t2) :: ts'') f d rest (acc ++ [(k, normal v)])%list); [by rewrite <- app_assoc|done|done|done| |].
    + rewrite fmap_app, <- app_assoc. exact Hnd.
    + change (String.length ",") with 1%nat in Hf. lia.
Qed.

(** Sorting by key looks at the keys only. *)
Lemma sort_fields_Forall2 {V W : Type} (R : string * V -> string * W -> Prop) l k :
  (forall x y, R x y -> y.1 = x.1) -> Forall2 R l k -> Forall2 R (sort_fields l) (sort_fields k).
Proof.
  intros Hkey. assert (forall x y xs ys, R x y -> Forall2 R xs ys ->
    Forall2 R (insert_by (less_on fst String.ltb) x xs) (insert_by (less_on fst String.ltb) y ys)) as Hins.
  { intros x y xs ys Hxy. induction 1 as [|a b xs ys Hab Hl IH]; cbn [insert_by]; [by repeat constructor|].
    unfold less_on in *. rewrite (Hkey _ _ Hxy), (Hkey _ _ Hab). destruct (String.ltb a.1 x.1); by repeat constructor. }
  unfold sort_fields, sort_by. induction 1; cbn [foldr]; auto.
Qed.

Lemma fold_right_and {A : Type} (P : A -> Prop) l : fold_right and True (P <$> l) <-> Forall P l.
Proof. induction l as [|a l IH]; csimpl; [by split; constructor|]. by rewrite Forall_cons, IH. Qed.

Lemma array_texts l t : appendCanonical (JArray l) = Ok t ->
  exists ts, Forall2 (fun v t => appendCanonical v = Ok t) l ts /\ t = ("[" +:+ Join ts "," +:+ "]")%string.
Proof. cbn [appendCanonical]. intros (ts & Hts & [= <-])%result_bind_Ok. exists ts. split; [by apply map_result_Ok|done]. Qed.
Lemma object_texts l t : appendCanonical (JObject l) = Ok t <->
  exists ts, texts_of l ts /\ t = ("{" +:+ Join (field_text <$> sort_fields ts) "," +:+ "}")%string.
Proof.
  cbn [appendCanonical]. rewrite result_bind_Ok.
  assert (forall ts, map_result (fun '(k, v) => let? t := appendCanonical v in Ok (k, t)) l = Ok ts <-> texts_of l ts) as Heq.
  { intros ts. rewrite map_result_Ok. unfold texts_of. split; (intros HF; eapply Forall2_impl; [exact HF|]; intros [k v] [k' t']; cbn [fst snd]).
    - intros (u & Hu & Heq)%result_bind_Ok. injection Heq as -> ->. done.
    - intros [-> Hu]. by rewrite Hu. }
  assert (forall ts : list (string * string), ((fun '(k, t) => marshal_string k +:+ ":" +:+ t)%string <$> sort_fields ts) = (field_text <$> sort_fields ts)) as Htext
    by (intros ts; apply list_fmap_ext; by intros i [k u] _).
  split; intros (ts & Hts & Ht); exists ts; (split; [by apply Heq|]).
  - injection Ht as <-. by rewrite Htext.
  - by rewrite Htext, Ht.
Qed.

Lemma texts_sorted l ts : texts_of l ts -> texts_of (sort_fields l) (sort_fields ts).
Proof. apply sort_fields_Forall2. by intros x y [? _]. Qed.
Lemma normal_object l : normal (JObject l) = JObject (normal_field <$> sort_fields l).
Proof.
  cbn [normal]. f_equal.
  assert (Forall2 (fun x y => y = normal_field x) (sort_fields l) (sort_fields (normal_field <$> l))) as H2.
  { apply sort_fields_Forall2; [by intros x y ->|]. apply Forall2_fmap_r. by apply Forall_Forall2_diag, Forall_true. }
  transitivity (sort_fields (normal_field <$> l)).
  { f_equal. apply list_fmap_ext. by intros i [k v] _. }
  induction H2 as [|x y xs ys -> H2 IH]; csimpl; [done|by rewrite IH].
Qed.

Lemma Join_length ts sep : ts <> [] -> Forall (fun t => 1 <= String.length t)%nat ts -> (1 <= String.length (Join ts sep))%nat.
Proof.
  destruct ts as [|t [|t' ts]]; [done|..]; intros _ Hall; inversion Hall; subst; cbn [Join]; rewrite ?string_length_app; lia.
Qed.

Lemma text_reads v : wellformed v -> reads v.
Proof.
  induction v as [|b|lit|s|l IH|l IH] using json_rect_nested; intros Hwf t f d rest Ht Hd Hf Hrest.
  - injection Ht as <-. destruct f as [|f]; [simpl in Hf; lia|]. reflexivity.
  - injection Ht as <-. destruct f as [|f]; [destruct b; simpl in Hf; lia|]. by destruct b.
  - cbn [appendCanonical] in Ht. cbn [normal]. rewrite Ht.
    destruct (number_start t (float_text_number _ _ Ht)) as (a & s & -> & _). destruct f as [|f]; [simpl in Hf; lia|].
    eapply scan_value_number; [exact Ht|by apply delim_stops].
  - injection Ht as <-. by apply scan_value_string.
  - apply array_texts in Ht as (ts & Hts & ->). cbn [depth] in Hd. destruct d as [|d]; [lia|].
    rewrite !string_length_app in Hf. change (String.length "[") with 1%nat in Hf. change (String.length "]") with 1%nat in Hf.
    destruct f as [|f]; [lia|]. rewrite !string_app_assoc.
    change ("[" +:+ Join ts "," +:+ "]" +:+ rest)%string with (String "[" (Join ts "," +:+ String "]" rest)). cbn [scan_value].
    rewrite expect_other, expect_char by done. cbn [normal]. destruct l as [|v l].
    + inversion Hts; subst. cbn [Join]. change (EmptyString +:+ String "]" rest)%string with (String "]" rest).
      by rewrite expect_char.
    + assert (expect "]" (Join ts "," +:+ String "]" rest) = None) as ->.
      { inversion Hts as [|? t1 ? ts' Ht1 Hts']; subst. destruct (text_start v t1 Ht1) as (a & s & -> & Hws & Hne & _).
        assert (exists u, Join (String a s :: ts') "," = String a u) as [u ->] by (destruct ts'; eexists; reflexivity).
        change (String a u +:+ String "]" rest)%string with (String a (u +:+ String "]" rest)). by apply expect_other. }
      cbn [wellformed] in Hwf. rewrite fold_right_and in Hwf.
      rewrite (scan_values_joined (v :: l)); [done| |done|exact Hts| |lia].
      * rewrite Forall_forall in *. intros x Hx. apply IH; [done|]. by apply Hwf.
      * apply le_S_n, list_max_le in Hd. by rewrite Forall_fmap in Hd.
  - apply object_texts in Ht as (ts & Hts & ->). cbn [depth] in Hd. destruct d as [|d]; [lia|].
    rewrite !string_length_app in Hf. change (String.length "{") with 1%nat in Hf. change (String.length "}") with 1%nat in Hf.
    destruct f as [|f]; [lia|]. rewrite !string_app_assoc. rewrite normal_object.
    change ("{" +:+ Join (field_text <$> sort_fields ts) "," +:+ "}" +:+ rest)%string
      with (String "{" (Join (field_text <$> sort_fields ts) "," +:+ String "}" rest)). cbn [scan_value].
    rewrite expect_char by done. pose proof (texts_sorted l ts Hts) as Hsorted.
    assert (sort_fields l ≡ₚ l) as Hperm by apply sort_by_perm. set (sl := sort_fields l) in *. set (st := sort_fields ts) in *.
    clearbody sl st. destruct sl as [|[k v] sl].
    + apply Forall2_nil_inv_l in Hsorted as ->. cbn [fmap list_fmap Join].
      change (EmptyString +:+ String "}" rest)%string with (String "}" rest). by rewrite expect_char.
    + assert (expect "}" (Join (field_text <$> st) "," +:+ String "}" rest) = None) as ->.
      { destruct st as [|[k' t1] ts']; [by inversion Hsorted|]. clear. unfold field_text, marshal_string.
        destruct ts'; cbn [fmap list_fmap Join fst snd];
          (match goal with |- expect _ ?s = _ => change s with (String quote_char (string_drop 1 s)) end; by apply expect_other). }
      cbn [wellformed] in Hwf. rewrite fold_right_and in Hwf. destruct Hwf as [Hnd Hwf].
      rewrite <- Hperm in Hnd, IH, Hwf. apply le_S_n, list_max_le in Hd. rewrite Forall_fmap, <- Hperm in Hd.
      rewrite (scan_fields_joined ((k, v) :: sl)); [done| |done|exact Hsorted| | |lia].
      * rewrite Forall_forall in *. intros x Hx. apply IH; [done|]. by apply Hwf.
      * rewrite Forall_forall in *. intros x Hx. split; [by apply Hwf|by apply Hd].
      * exact Hnd.
Qed.

Lemma appendCanonical_normal v : forall t, appendCanonical v = Ok t -> appendCanonical (normal v) = Ok t.
Proof.
  induction v as [|b|lit|s|l IH|l IH] using json_rect_nested; intros t Ht; [done|done| |done|..].
  - cbn [appendCanonical normal] in *. rewrite Ht. cbn [appendCanonical]. by eapply float_text_again.
  - apply array_texts in Ht as (ts & Hts & ->). cbn [normal appendCanonical].
    assert (map_result appendCanonical (normal <$> l) = Ok ts) as ->; [|done].
    apply map_result_Ok, Forall2_fmap_l. clear -IH Hts. induction Hts; inversion IH; subst; constructor; auto.
  - apply object_texts in Ht as (ts & Hts & ->). rewrite normal_object. apply object_texts. exists (sort_fields ts). split.
    + apply texts_sorted in Hts. unfold texts_of in *. apply Forall2_fmap_l.
      rewrite <- (sort_by_perm (less_on fst String.ltb) l) in IH. fold (sort_fields l) in IH.
      clear -IH Hts. induction Hts as [|x y xs ys [Hk Ht] Hl IHl]; inversion IH; subst; constructor; auto.
    + unfold sort_fields at 2. f_equal. rewrite sort_by_id; [done|]. apply sort_by_sorted. apply _.
Qed.
End roundtrip.

(** ** The decoder returns well-formed values *)
Lemma valid_app s t : valid_text s -> valid_text t -> valid_text (s +:+ t).
Proof.
  intros (rs & Hrs & ->) (us & Hus & ->). exists (rs ++ us)%list. split; [by apply Forall_app|]. clear.
  induction rs as [|r rs IH]; [done|]. cbn [joined foldr app]. rewrite string_app_assoc. f_equal. exact IH.
Qed.
Lemma valid_encode r : valid_text (encode_rune r).
Proof.
  set (u := if in_range 55296 r 57343 || (1114111 <? r) || (r <? 0) then RuneError else r).
  assert (scalar u) as Hu.
  { unfold u, scalar, RuneError, in_range. destruct (((55296 <=? r) && (r <=? 57343)) || (1114111 <? r) || (r <? 0)) eqn:E; [lia|].
    bool_to_prop. split; [lia|]. intros [? ?]. apply andb_false_iff in H as [H|H]; bool_to_prop; lia. }
  exists [u]. split; [by constructor|]. cbn [joined foldr]. rewrite string_app_empty. symmetry.
  unfold encode_rune. fold u. assert ((if in_range 55296 u 57343 || (1114111 <? u) || (u <? 0) then RuneError else u) = u) as ->; [|done].
    destruct Hu as [Hu1 Hu2]. unfold in_range. rewrite (proj2 (Z.ltb_ge 1114111 u)), (proj2 (Z.ltb_ge u 0)) by lia.
    destruct (55296 <=? u) eqn:E1, (u <=? 57343) eqn:E2; try done. bool_to_prop. lia.
Qed.
Lemma valid_empty : valid_text EmptyString. Proof. by exists []. Qed.

Lemma scan_string_valid f : forall s t r, scan_string f s = Some (t, r) -> valid_text t.
Proof.
  induction f as [|f IH]; intros s t r; [done|].
  assert (forall c u t r, valid_text c -> prepend c (scan_string f u) = Some (t, r) -> valid_text t) as Hpre.
  { intros c u t' r' Hc Hp. unfold prepend in Hp. destruct (scan_string f u) as [[t1 r1]|] eqn:E; [|done].
    injection Hp as <- <-. apply valid_app; [done|]. by eapply IH. }
  destruct s as [|a s]; [done|]. cbn [scan_string].
  destruct (byte_of a =? 34); [intros [= <- <-]; apply valid_empty|]. destruct (byte_of a <? 32); [done|].
  destruct (byte_of a =? 92).
  - destruct s as [|e s]; [done|]. cbv zeta.
    destruct (byte_of e =? 34); [apply (Hpre _ _ _ _ (valid_encode 34))|].
    destruct (byte_of e =? 92); [apply (Hpre _ _ _ _ (valid_encode 92))|].
    destruct (mem_char e "/"); [apply (Hpre _ _ _ _ (valid_encode 47))|].
    destruct (mem_char e "b"); [apply (Hpre _ _ _ _ (valid_encode 8))|].
    destruct (mem_char e "f"); [apply (Hpre _ _ _ _ (valid_encode 12))|].
    destruct (mem_char e "n"); [apply (Hpre _ _ _ _ (valid_encode 10))|].
    destruct (mem_char e "r"); [apply (Hpre _ _ _ _ (valid_encode 13))|].
    destruct (mem_char e "t"); [apply (Hpre _ _ _ _ (valid_encode 9))|].
    destruct (mem_char e "u"); [|done]. destruct (hex4 s) as [[u r']|]; [|done]. cbn [mbind option_bind].
    destruct (match r' with String _ _ => _ | EmptyString => None end) as [[l r'']|];
      [destruct (in_range 55296 u 56319 && in_range 56320 l 57343)|]; apply Hpre, valid_encode.
  - destruct (decode_rune (String a s)) as [u w]. apply Hpre, valid_encode.
Qed.

Lemma put_wellformed fields key v :
  wellformed (JObject fields) -> valid_text key -> wellformed v -> wellformed (JObject (put fields key v)).
Proof.
  cbn [wellformed]. rewrite !fold_right_and. intros [Hnd Hall] Hk Hv. unfold put.
  assert (Forall (fun kv : string * json => valid_text kv.1 /\ wellformed kv.2) (List.filter (fun kv => negb (bool_decide (kv.1 = key))) fields)) as Hf.
  { rewrite Forall_forall in *. intros x Hx. apply Hall. rewrite list_elem_of_In in *. by apply filter_In in Hx as [? _]. }
  split; [|by apply Forall_app; split; [|repeat constructor]]. rewrite fmap_app. apply NoDup_app. split_and!.
  - clear -Hnd. induction fields as [|[k w] fields IH]; [done|]. csimpl in *. apply NoDup_cons in Hnd as [Hni Hnd].
    destruct (negb _); [|auto]. csimpl. apply NoDup_cons. split; [|auto]. intros Hin. apply Hni.
    apply list_elem_of_fmap in Hin as (x & Hx & Hin). apply list_elem_of_fmap. exists x. split; [done|].
    rewrite list_elem_of_In in *. by apply filter_In in Hin as [? _].
  - intros k Hk1 Hk2. apply list_elem_of_singleton in Hk2 as ->. apply list_elem_of_fmap in Hk1 as (x & Hx & Hin).
    rewrite list_elem_of_In in Hin. apply filter_In in Hin as [_ Hne]. bool_to_prop. csimpl in Hx. done.
  - csimpl. apply NoDup_singleton.
Qed.
Lemma depth_put fields key v d : Forall (fun kv : string * json => depth kv.2 <= d)%nat fields -> (depth v <= d)%nat ->
  Forall (fun kv : string * json => depth kv.2 <= d)%nat (put fields key v).
Proof.
  intros Hall Hv. unfold put. apply Forall_app. split; [|by repeat constructor]. rewrite Forall_forall in *.
  intros x Hx. apply Hall. rewrite list_elem_of_In in *. by apply filter_In in Hx as [? _].
Qed.

Lemma scan_wellformed f :
  (forall d s v r, scan_value f d s = Some (v, r) -> wellformed v /\ (depth v <= d)%nat) /\
  (forall d s l r, scan_values f d s = Some (l, r) -> Forall (fun v => wellformed v /\ depth v <= d)%nat l) /\
  (forall d s acc l r, scan_fields f d s acc = Some (l, r) ->
     wellformed (JObject acc) -> Forall (fun kv : string * json => depth kv.2 <= d)%nat acc ->
     wellformed (JObject l) /\ Forall (fun kv : string * json => depth kv.2 <= d)%nat l).
Proof.
  induction f as [|f (IHv & IHl & IHf)]; [done|]. split_and!.
  - intros d s v r. cbn [scan_value]. destruct (expect "{" s) as [q|].
    { destruct d as [|d]; [done|]. destruct (expect "}" q) as [q'|].
      - intros [= <- <-]. cbn. split; [|lia]. split; [constructor|done].
      - destruct (scan_fields f d q []) as [[l q']|] eqn:E; [|done]. intros [= <- <-].
        destruct (IHf _ _ _ _ _ E) as [Hw Hd]; [cbn; split; [constructor|done]|constructor|].
        split; [done|]. cbn [depth]. apply le_n_S, list_max_le. by rewrite Forall_fmap. }
    destruct (expect "[" s) as [q|].
    { destruct d as [|d]; [done|]. destruct (expect "]" q) as [q'|]; [intros [= <- <-]; cbn; split; [done|lia]|].
      destruct (scan_values f d q) as [[l q']|] eqn:E; [|done]. intros [= <- <-]. apply IHl in E as [Hw Hd]%Forall_and.
      split; [by cbn [wellformed]; rewrite fold_right_and|]. cbn [depth]. apply le_n_S, list_max_le. by rewrite Forall_fmap. }
    destruct (expect quote_char s) as [q|].
    { destruct (scan_string _ q) as [[t q']|] eqn:E; [|done]. intros [= <- <-]. split; [by eapply scan_string_valid|cbn; lia]. }
    assert (forall w x u y, literal w x u = Some y -> y.1 = x) as Hlit
      by (intros w x u y; unfold literal; destruct (has_prefix w u); [by intros [= <-]|done]).
    destruct (literal "true" _ _) as [y|] eqn:E1; [intros [= ->]; apply Hlit in E1; cbn in E1; subst; cbn; split; [done|lia]|].
    destruct (literal "false" _ _) as [y|] eqn:E2; [intros [= ->]; apply Hlit in E2; cbn in E2; subst; cbn; split; [done|lia]|].
    destruct (literal "null" _ _) as [y|] eqn:E3; [intros [= ->]; apply Hlit in E3; cbn in E3; subst; cbn; split; [done|lia]|].
    destruct (scan_number _) as [[n r']|]; [|done]. intros [= <- <-]. cbn. split; [done|lia].
  - intros d s l r. cbn [scan_values]. destruct (scan_value f d s) as [[v q]|] eqn:E; [|done]. apply IHv in E. cbn [mbind option_bind].
    destruct (expect "," q) as [q'|].
    + destruct (scan_values f d q') as [[vs q'']|] eqn:E'; [|done]. intros [= <- <-]. constructor; [done|]. by eapply IHl.
    + destruct (expect "]" q) as [q'|]; [|done]. intros [= <- <-]. by apply Forall_singleton.
  - intros d s acc l r. cbn [scan_fields]. destruct (expect quote_char s) as [q|]; [|done]. cbn [mbind option_bind].
    destruct (scan_string _ q) as [[key q1]|] eqn:Ek; [|done]. apply scan_string_valid in Ek. cbn [mbind option_bind].
    destruct (expect ":" q1) as [q2|]; [|done]. cbn [mbind option_bind].
    destruct (scan_value f d q2) as [[v q3]|] eqn:E; [|done]. apply IHv in E as [Hv Hdv]. cbn [mbind option_bind].
    destruct (expect "," q3) as [q4|].
    + intros E Hacc Hd. by apply (IHf _ _ _ _ _ E); [apply put_wellformed|apply depth_put].
    + destruct (expect "}" q3) as [q4|]; [|done]. intros [= <- <-] Hacc Hd.
      split; [by apply put_wellformed|by apply depth_put].
Qed.

Lemma decode_wellformed raw v : decode_document raw = Some v -> wellformed v /\ (depth v <= maxNestingDepth)%nat.
Proof.
  unfold decode_document. destruct (scan_value _ _ raw) as [[u rest]|] eqn:E; [|done].
  destruct (bool_decide _); [|done]. intros [= <-]. by eapply scan_wellformed.
Qed.

(** C30: The canonical text of a decoded document decodes to the same value, with
    keys sorted and numbers respelled, and printing that value gives the same text
    again. *)
Theorem canonical_roundtrip `{FloatTextLaws} raw v t :
  decode_document raw = Some v -> CanonicalJSON v = Ok t ->
  decode_document t = Some (normal v) /\ CanonicalJSON (normal v) = Ok t.
Proof.
  intros Hraw Ht. apply decode_wellformed in Hraw as [Hwf Hd]. split; [|by apply appendCanonical_normal].
  pose proof (text_reads v Hwf t (decode_fuel t) maxNestingDepth EmptyString Ht Hd) as Hread.
  unfold decode_document. rewrite string_app_empty in Hread. by rewrite Hread by (unfold decode_fuel; lia || done).
Qed.

(** ASCII texts are valid. *)
Fixpoint ascii_runes (s : string) : list Z := match s with EmptyString => [] | String a s => byte_of a :: ascii_runes s end.
Lemma ascii_text s : all_chars (fun a => byte_of a <? 128) s = true -> valid_text s.
Proof.
  intros Hs. exists (ascii_runes s). induction s as [|a s IH]; [done|]. cbn [all_chars] in Hs. apply andb_prop in Hs as [Ha Hs].
  destruct (IH Hs) as [Hall Heq]. apply Z.ltb_lt in Ha. assert (0 <= byte_of a) by (unfold byte_of; lia). split.
  - constructor; [unfold scalar; lia|done].
  - cbn [ascii_runes joined foldr]. unfold joined in Heq. rewrite <- Heq. unfold encode_rune, in_range.
    destruct ((_ <=? _) && _ || _ || _) eqn:E; [bool_to_prop; lia|]. rewrite (proj2 (Z.ltb_lt _ _)) by lia. by rewrite char_of_byte_of.
Qed.

Module RoundTripExamples.
(** A number text that is kept as it is. *)
#[local] Instance literal_floats : FloatText :=
  {| float_text lit := if bool_decide (scan_number lit = Some (lit, EmptyString)) then Ok lit else Err "not a number"%string |}.
#[local] Instance literal_floats_laws : FloatTextLaws.
Proof.
  split; intros lit t; cbn [float_text literal_floats]; case_bool_decide as Hl; try done; intros [= <-]; [done|].
  by rewrite bool_decide_true.
Qed.
Definition spaced : string := String.concat quote_mark ["{ "; "b"; " : [1, -2.5e3, "; "<\u00e9\n"; "], "; "a"; ":{} }"].
Definition dense : string := String.concat quote_mark ["{"; "a"; ":{},"; "b"; ":[1,-2.5e3,"; "\u003cé\n"; "]}"].
Lemma canonical_roundtrip_witness :
  exists v, decode_document spaced = Some v /\ CanonicalJSON v = Ok dense /\
    decode_document dense = Some (normal v) /\ CanonicalJSON (normal v) = Ok dense.
Proof.
  eexists. split; [vm_compute; reflexivity|]. split; [vm_compute; reflexivity|].
  apply (canonical_roundtrip spaced); vm_compute; reflexivity.
Defined.
End RoundTripExamples.
