(* ===== verification/GoBase64.v ===== *)
(** * encoding/base64: RawURLEncoding

    Bytes three at a time as four digits of base 64, a rest of one or two bytes
    as two or three digits, no padding.  Decoding skips line ends and ignores the
    unused bits of the last digit. *)
From Stdlib Require Import Ascii.
From S2P Require Import Prelude GoStrings GoJson JsonRoundTrip.
Open Scope Z_scope.

Definition base64_digit (n : Z) : ascii :=
  char_of (if n <? 26 then 65 + n else if n <? 52 then 71 + n else if n <? 62 then n - 4 else if n =? 62 then 45 else 95).
Definition base64_value (a : ascii) : option Z :=
  let b := byte_of a in
  if in_range 65 b 90 then Some (b - 65) else if in_range 97 b 122 then Some (b - 71)
  else if in_range 48 b 57 then Some (b + 4) else if b =? 45 then Some 62 else if b =? 95 then Some 63 else None.

Definition digit_at (value shift : Z) : ascii := base64_digit (Z.land (Z.shiftr value shift) 63).
Definition byte_at (value shift : Z) : ascii := char_of (Z.land (Z.shiftr value shift) 255).

Fixpoint EncodeToString (s : string) : string :=
  match s with
  | EmptyString => EmptyString
  | String a EmptyString =>
      let v := Z.shiftl (byte_of a) 16 in String (digit_at v 18) (String (digit_at v 12) EmptyString)
  | String a (String b EmptyString) =>
      let v := Z.lor (Z.shiftl (byte_of a) 16) (Z.shiftl (byte_of b) 8) in
      String (digit_at v 18) (String (digit_at v 12) (String (digit_at v 6) EmptyString))
  | String a (String b (String c s)) =>
      let v := Z.lor (Z.lor (Z.shiftl (byte_of a) 16) (Z.shiftl (byte_of b) 8)) (byte_of c) in
      String (digit_at v 18) (String (digit_at v 12) (String (digit_at v 6) (String (digit_at v 0) (EncodeToString s))))
  end.

Fixpoint without_line_ends (s : string) : string :=
  match s with
  | EmptyString => EmptyString
  | String a s => if (byte_of a =? 10) || (byte_of a =? 13) then without_line_ends s else String a (without_line_ends s)
  end.
Definition quantum (w x y z : Z) : Z := Z.lor (Z.lor (Z.lor (Z.shiftl w 18) (Z.shiftl x 12)) (Z.shiftl y 6)) z.
Fixpoint decode_digits (s : string) : option string :=
  match s with
  | EmptyString => Some EmptyString
  | String a EmptyString => None
  | String a (String b EmptyString) =>
      w ← base64_value a; x ← base64_value b; Some (String (byte_at (quantum w x 0 0) 16) EmptyString)
  | String a (String b (String c EmptyString)) =>
      w ← base64_value a; x ← base64_value b; y ← base64_value c;
      let v := quantum w x y 0 in Some (String (byte_at v 16) (String (byte_at v 8) EmptyString))
  | String a (String b (String c (String d s))) =>
      w ← base64_value a; x ← base64_value b; y ← base64_value c; z ← base64_value d;
      t ← decode_digits s;
      let v := quantum w x y z in Some (String (byte_at v 16) (String (byte_at v 8) (String (byte_at v 0) t)))
  end.
Definition DecodeString (s : string) : option string := decode_digits (without_line_ends s).

(** ** Round trip *)
Lemma base64_digit_value n : 0 <= n < 64 ->
  base64_value (base64_digit n) = Some n /\ (byte_of (base64_digit n) =? 10) || (byte_of (base64_digit n) =? 13) = false.
Proof.
  intros Hn. assert (forallb (fun n => bool_decide (base64_value (base64_digit n) = Some n) &&
    negb ((byte_of (base64_digit n) =? 10) || (byte_of (base64_digit n) =? 13))) (Z.of_nat <$> seq 0 64) = true) as Hall
    by (vm_compute; reflexivity).
  rewrite forallb_Forall, Forall_forall in Hall. specialize (Hall n). rewrite andb_true_iff, bool_decide_eq_true, negb_true_iff in Hall.
  apply Hall. apply list_elem_of_fmap. exists (Z.to_nat n). split; [lia|]. apply elem_of_seq. lia.
Qed.
Lemma byte_of_range a : 0 <= byte_of a < 256.
Proof. unfold byte_of. pose proof (N_ascii_bounded a). lia. Qed.
Lemma land_255 x : Z.land x 255 = x mod 256. Proof. exact (Z.land_ones x 8 ltac:(lia)). Qed.

(** A value as its bytes and as its digits. *)
Lemma digit_land v k : 0 <= k -> Z.land (Z.shiftr v k) 63 = v / 2 ^ k mod 64.
Proof. intros. by rewrite land_63, shiftr_div. Qed.
Lemma byte_land v k : 0 <= k -> Z.land (Z.shiftr v k) 255 = v / 2 ^ k mod 256.
Proof. intros. by rewrite land_255, shiftr_div. Qed.
Lemma quantum_sum w x y z : 0 <= w < 64 -> 0 <= x < 64 -> 0 <= y < 64 -> 0 <= z < 64 ->
  quantum w x y z = w * 262144 + x * 4096 + y * 64 + z.
Proof.
  intros. unfold quantum. rewrite !shiftl_mul by lia.
  change (2 ^ 18) with 262144. change (2 ^ 12) with 4096. change (2 ^ 6) with 64.
  rewrite <- !Z.lor_assoc. rewrite (lor_6 y z) by lia. rewrite (lor_12 x) by lia. rewrite (lor_18 w) by lia. lia.
Qed.
Lemma value_of_bytes a b c : 0 <= a < 256 -> 0 <= b < 256 -> 0 <= c < 256 ->
  Z.lor (Z.lor (Z.shiftl a 16) (Z.shiftl b 8)) c = a * 65536 + b * 256 + c.
Proof.
  intros. rewrite !shiftl_mul by lia. rewrite <- !Z.lor_assoc.
  change (2 ^ 16) with 65536. change (2 ^ 8) with 256.
  assert (Z.lor (b * 256) c = b * 256 + c) as -> by (apply (lor_add b 8); lia).
  assert (Z.lor (a * 65536) (b * 256 + c) = a * 65536 + (b * 256 + c)) as -> by (apply (lor_add a 16); lia). lia.
Qed.
(** The digits of a value give the value back. *)
Lemma digits_value v : 0 <= v < 16777216 ->
  quantum (Z.land (Z.shiftr v 18) 63) (Z.land (Z.shiftr v 12) 63) (Z.land (Z.shiftr v 6) 63) (Z.land (Z.shiftr v 0) 63) = v.
Proof.
  intros Hv. rewrite !digit_land by lia. rewrite quantum_sum by (apply Z.mod_pos_bound; lia).
  change (2 ^ 18) with 262144. change (2 ^ 12) with 4096. change (2 ^ 6) with 64. change (2 ^ 0) with 1.
  rewrite Z.div_1_r, (Z.mod_small (v / 262144)) by (split; [apply Z.div_pos; lia|apply Z.div_lt_upper_bound; lia]).
  pose proof (Z.div_mod v 64 ltac:(lia)). pose proof (Z.div_mod (v / 64) 64 ltac:(lia)) as H64.
  pose proof (Z.div_mod (v / 64 / 64) 64 ltac:(lia)) as H4096. rewrite (Z.div_div v 64 64) in H64, H4096 by lia.
  change (64 * 64) with 4096 in *. rewrite (Z.div_div v 4096 64) in H4096 by lia. change (4096 * 64) with 262144 in *. lia.
Qed.
Lemma digit_range v k : 0 <= Z.land (Z.shiftr v k) 63 < 64.
Proof. rewrite land_63. apply Z.mod_pos_bound. lia. Qed.
Lemma value_of_digit v k : base64_value (digit_at v k) = Some (Z.land (Z.shiftr v k) 63).
Proof. apply base64_digit_value, digit_range. Qed.
Lemma digit_no_line_end v k s : without_line_ends (String (digit_at v k) s) = String (digit_at v k) (without_line_ends s).
Proof. unfold digit_at. cbn [without_line_ends]. by rewrite (proj2 (base64_digit_value _ (digit_range v k))). Qed.

Definition packed (a b c : ascii) : Z := byte_of a * 65536 + byte_of b * 256 + byte_of c.
Lemma packed_bytes a b c :
  byte_at (packed a b c) 16 = a /\ byte_at (packed a b c) 8 = b /\ byte_at (packed a b c) 0 = c /\ 0 <= packed a b c < 16777216.
Proof.
  unfold packed. pose proof (byte_of_range a). pose proof (byte_of_range b). pose proof (byte_of_range c).
  unfold byte_at. rewrite !byte_land by lia. change (2 ^ 16) with 65536. change (2 ^ 8) with 256. change (2 ^ 0) with 1.
  set (v := byte_of a * 65536 + _ + _).
  assert (v / 65536 mod 256 = byte_of a /\ v / 256 mod 256 = byte_of b /\ v / 1 mod 256 = byte_of c) as (-> & -> & ->).
  { unfold v. rewrite Z.div_1_r. split_and!.
    - rewrite Z.mod_small; [|split; [apply Z.div_pos; lia|apply Z.div_lt_upper_bound; lia]].
      symmetry. apply (Z.div_unique _ _ _ (byte_of b * 256 + byte_of c)); lia.
    - symmetry. apply (Z.mod_unique _ _ (byte_of a)); [lia|]. symmetry. apply (Z.div_unique _ _ _ (byte_of c)); lia.
    - symmetry. apply (Z.mod_unique _ _ (byte_of a * 256 + byte_of b)); lia. }
  rewrite !char_of_byte_of. unfold v. split_and!; lia || done.
Qed.
Lemma packed_lor a b c : Z.lor (Z.lor (Z.shiftl (byte_of a) 16) (Z.shiftl (byte_of b) 8)) (byte_of c) = packed a b c.
Proof. apply value_of_bytes; apply byte_of_range. Qed.
Lemma packed_two a b : Z.lor (Z.shiftl (byte_of a) 16) (Z.shiftl (byte_of b) 8) = packed a b (char_of 0).
Proof. rewrite <- packed_lor. by rewrite Z.lor_0_r. Qed.
Lemma packed_one a : Z.shiftl (byte_of a) 16 = packed a (char_of 0) (char_of 0).
Proof. rewrite <- packed_two. by rewrite Z.lor_0_r. Qed.
(** The digits a short rest leaves out are zero. *)
Lemma packed_two_digit a b : Z.land (Z.shiftr (packed a b (char_of 0)) 0) 63 = 0.
Proof.
  rewrite digit_land by lia. rewrite Z.div_1_r. unfold packed. change (byte_of (char_of 0)) with 0.
  replace (byte_of a * 65536 + byte_of b * 256 + 0) with ((byte_of a * 1024 + byte_of b * 4) * 64) by lia. apply Z.mod_mul. lia.
Qed.
Lemma packed_one_digit a : Z.land (Z.shiftr (packed a (char_of 0) (char_of 0)) 6) 63 = 0.
Proof.
  rewrite digit_land by lia. unfold packed. change (byte_of (char_of 0)) with 0. change (2 ^ 6) with 64.
  replace (byte_of a * 65536 + 0 * 256 + 0) with ((byte_of a * 16) * 64 * 64) by lia. rewrite Z.div_mul by lia. apply Z.mod_mul. lia.
Qed.

(** Decoding undoes encoding. *)
Lemma base64_roundtrip s : DecodeString (EncodeToString s) = Some s.
Proof.
  unfold DecodeString. remember (String.length s) as n eqn:Hn. revert s Hn.
  induction (lt_wf n) as [n _ IH]. intros s ->.
  destruct s as [|a [|b [|c s]]]; [done|..]; cbn [EncodeToString]; cbv zeta; rewrite ?packed_lor, ?packed_two, ?packed_one;
    rewrite !digit_no_line_end; cbn [decode_digits without_line_ends].
  - rewrite !value_of_digit. destruct (packed_bytes a (char_of 0) (char_of 0)) as (H1 & _ & _ & Hv).
    pose proof (digits_value _ Hv) as Hd. rewrite packed_two_digit, packed_one_digit in Hd. cbn -[quantum packed byte_at Z.land Z.shiftr char_of]. by rewrite Hd, H1.
  - rewrite !value_of_digit. destruct (packed_bytes a b (char_of 0)) as (H1 & H2 & _ & Hv).
    pose proof (digits_value _ Hv) as Hd. rewrite packed_two_digit in Hd. cbn -[quantum packed byte_at Z.land Z.shiftr char_of]. by rewrite Hd, H1, H2.
  - rewrite !value_of_digit. destruct (packed_bytes a b c) as (H1 & H2 & H3 & Hv).
    rewrite (IH (String.length s)) by (cbn; lia || done). cbn -[quantum packed byte_at Z.land Z.shiftr char_of]. by rewrite digits_value, H1, H2, H3.
Qed.
