(* ===== verification/Domain.v ===== *)
(** * internal/domain: identities, entity kinds, canonical checks

    [ID.Valid] parses with google/uuid, which is not part of the repository:
    [uuid_v7 s] stands for [u, err := uuid.Parse(s); err == nil && u.Version() == 7]. *)
From Stdlib Require Import Ascii.
From S2P Require Import Prelude GoStrings.
Open Scope Z_scope.

Class UuidLib := { uuid_v7 : string -> bool }.

(** The fact of the library the program relies on: the empty string is not a
    UUID.  (It accepts several spellings, canonical, URN, braced and bare
    hexadecimal, and looks only at the middle of a braced one.) *)
Class UuidLaws `{UuidLib} : Prop := {
  uuid_v7_empty : uuid_v7 "" = false
}.

(** A concrete reading of the canonical form, used to evaluate examples:
    36 bytes, hyphens in place, version digit 7. *)
Definition canonical_v7 (s : string) : bool :=
  bool_decide (String.length s = 36%nat) &&
  bool_decide (String.get 14 s = Some "7"%char) &&
  all_chars (fun a => mem_char a "0123456789abcdef-") s.

#[export] Instance canonical_uuid : UuidLib := {| uuid_v7 := canonical_v7 |}.

#[export] Instance canonical_uuid_laws : @UuidLaws canonical_uuid.
Proof. split. reflexivity. Qed.

Abbreviation ID := string.

Definition ID_Valid `{UuidLib} (id : ID) : bool := uuid_v7 id.

Inductive EntityKind :=
  | KindAttribute | KindTag | KindCharacter | KindSkill | KindItem | KindEffect
  | KindOther (spelling : string).
Global Instance EntityKind_eq_dec : EqDecision EntityKind.
Proof. solve_decision. Defined.

Definition EntityKind_Valid (k : EntityKind) : bool :=
  match k with
  | KindAttribute | KindTag | KindCharacter | KindSkill | KindItem | KindEffect => true
  | KindOther _ => false
  end.

Inductive EntityStatus := StatusActive | StatusArchived | StatusOther (spelling : string).
Global Instance EntityStatus_eq_dec : EqDecision EntityStatus.
Proof. solve_decision. Defined.

(** [time.Time] as nanoseconds from Go's zero time, which is [0]. *)
Abbreviation Time := Z.
Definition IsZero (t : Time) : bool := t =? 0.
Definition Before (t u : Time) : bool := t <? u.
