(* ===== verification/Job.v ===== *)
(** * internal/job/job.go: the durable job protocol *)
From S2P Require Import Prelude GoStrings Domain.
Open Scope Z_scope.

Definition Kind_Valid (k : string) : bool :=
  bool_decide (TrimSpace k = k) && ValidString k && (0 <? string_len k) && (string_len k <=? 64).

Inductive Status :=
  | Queued | Running | Succeeded | Failed | Canceled | Interrupted
  | StatusUnknown (spelling : string).
Global Instance Status_eq_dec : EqDecision Status.
Proof. solve_decision. Defined.

Definition Status_Valid (s : Status) : bool :=
  match s with
  | Queued | Running | Succeeded | Failed | Canceled | Interrupted => true
  | StatusUnknown _ => false
  end.

Definition Terminal (s : Status) : bool :=
  bool_decide (s = Succeeded) || bool_decide (s = Failed) || bool_decide (s = Canceled).

Definition CanTransitionTo (s next : Status) : bool :=
  let to x := bool_decide (next = x) in
  match s with
  | Queued => to Running || to Failed || to Canceled || to Interrupted
  | Running => to Succeeded || to Failed || to Canceled || to Interrupted
  | Interrupted => to Succeeded || to Failed || to Canceled
  | _ => false
  end.

Record Result := mkResult { Result_Type : string; Result_ID : ID; Result_URL : string }.
Global Instance Result_eq_dec : EqDecision Result.
Proof. solve_decision. Defined.

Record Request := mkRequest {
  ProjectID : ID; Kind : string; RevisionID : ID;
  InputHash : string; IdempotencyKey : string; RequestHash : string
}.
Global Instance Request_eq_dec : EqDecision Request.
Proof. solve_decision. Defined.

(** [Record] embeds the fields of its [Request()] projection. *)
Record JobRecord := mkRecord {
  Record_ID : ID;
  Record_Request : Request;
  Record_Status : Status;
  Record_Result : option Result;
  CancelGeneration : Z;
  CancelRequestedAt : option Time;
  CreatedAt : Time;
  UpdatedAt : Time
}.
Global Instance JobRecord_eq_dec : EqDecision JobRecord.
Proof. solve_decision. Defined.

Record Event := mkEvent {
  JobID : ID; Ordinal : Z; Phase : string; Progress : Z;
  Warning : string; SafeError : string; Event_Result : option Result; Event_CreatedAt : Time
}.
Global Instance Event_eq_dec : EqDecision Event.
Proof. solve_decision. Defined.

Definition validHash (v : string) : bool := hash_shape v.
Definition validKey (v : string) : bool :=
  bool_decide (v <> ""%string) && bool_decide (v = TrimSpace v) && ValidString v && (RuneCount v <=? 256).

Section validity.
Context `{UuidLib}.

Definition Result_Valid (r : Result) : bool :=
  bool_decide (TrimSpace (Result_Type r) <> ""%string) && ID_Valid (Result_ID r) &&
  bool_decide (TrimSpace (Result_URL r) <> ""%string).

Definition Request_Valid (r : Request) : bool :=
  ID_Valid (ProjectID r) && Kind_Valid (Kind r) &&
  (bool_decide (RevisionID r = ""%string) || ID_Valid (RevisionID r)) &&
  validHash (InputHash r) && validKey (IdempotencyKey r) && validHash (RequestHash r).

Definition Equivalent (r other : Request) : bool := bool_decide (r = other).

Definition Record_Valid (r : JobRecord) : bool :=
  ID_Valid (Record_ID r) && Request_Valid (Record_Request r) && Status_Valid (Record_Status r) &&
  (0 <=? CancelGeneration r) && negb (IsZero (CreatedAt r)) && negb (IsZero (UpdatedAt r)) &&
  negb (Before (UpdatedAt r) (CreatedAt r)) &&
  option_forallb Result_Valid (Record_Result r) &&
  negb (bool_decide (Record_Status r = Succeeded) && bool_decide (Record_Result r = None)) &&
  (((CancelGeneration r =? 0) && bool_decide (CancelRequestedAt r = None)) ||
   ((0 <? CancelGeneration r) &&
    match CancelRequestedAt r with Some t => negb (IsZero t) | None => false end)).

Definition Event_Valid (e : Event) : bool :=
  ID_Valid (JobID e) && (0 <? Ordinal e) && bool_decide (TrimSpace (Phase e) <> ""%string) &&
  ValidString (Phase e) && (0 <=? Progress e) && (Progress e <=? 100) &&
  (string_len (Warning e) <=? 256) && (string_len (SafeError e) <=? 1024) &&
  ValidString (Warning e) && ValidString (SafeError e) &&
  option_forallb Result_Valid (Event_Result e) && negb (IsZero (Event_CreatedAt e)).

(** [RequireUncanceled]: nil exactly on a valid, never-canceled record. *)
Definition RequireUncanceled (r : JobRecord) (observed : Z) : result unit string :=
  if negb (Record_Valid r) || (observed <? 0) || negb (observed =? CancelGeneration r) ||
     negb (CancelGeneration r =? 0)
  then Err "job cancellation generation changed"%string
  else Ok tt.
End validity.

(** ** The status machine *)

Definition status_step (s s' : Status) : Prop := CanTransitionTo s s' = true.

(** Every transition climbs this rank, so a job takes at most three. *)
Definition status_rank (s : Status) : nat :=
  match s with
  | Queued => 0 | Running => 1 | Interrupted => 2
  | Succeeded | Failed | Canceled => 3 | StatusUnknown _ => 3
  end%nat.

Lemma status_step_rank s s' : status_step s s' -> (status_rank s < status_rank s')%nat.
Proof.
  unfold status_step, CanTransitionTo. destruct s; try done;
    destruct s'; try (intros; simpl; lia); intros H; by vm_compute in H.
Qed.

Lemma status_step_valid s s' : status_step s s' -> Status_Valid s = true /\ Status_Valid s' = true.
Proof.
  unfold status_step, CanTransitionTo. destruct s; try done; destruct s'; try done.
Qed.

Lemma Terminal_no_step s s' : Terminal s = true -> ~ status_step s s'.
Proof. unfold status_step. destruct s; try done. Qed.

(** A lifecycle: the statuses a job goes through, oldest first. *)
Inductive lifecycle : Status -> list Status -> Prop :=
  | lifecycle_nil s : lifecycle s []
  | lifecycle_cons s s' l : status_step s s' -> lifecycle s' l -> lifecycle s (s' :: l).

Lemma lifecycle_rank s l : lifecycle s l -> (status_rank s + length l <= 3)%nat.
Proof.
  induction 1 as [s|s s' l Hs _ IH]; simpl; [by destruct s; simpl; lia|].
  apply status_step_rank in Hs. lia.
Qed.
