(* ===== verification/JobStore.v ===== *)
(** * internal/storage/sqlite/jobs.go: the job table as a state machine

    The store of one open project: the rows of [jobs] and [job_events], the
    revisions a job may reference, and the backup jobs whose publication has
    started.  A write holds [s.writes] from its first read to its commit, so an
    operation is one atomic step; the allocated identifier and the clock reading
    are its inputs.  Errors of the database driver are not modelled, the
    constraints of the schema (primary key, foreign key) are.

    Each operation returns the pair of its Go results and the next state: an
    error after the commit keeps the committed state. *)
From S2P Require Import Prelude GoSort GoStrings Domain Job.
Open Scope Z_scope.

Inductive JobError :=
  | ErrJobInvalid | ErrJobNotFound | ErrJobProjectScope | ErrJobIdempotencyConflict
  | ErrJobTransition | ErrJobEvent
  | ErrStoredJob (* scanSharedJob: invalid stored shared job *)
  | ErrStoredEvent (* scanSharedEvent: invalid stored shared job event *)
  | ErrConstraint (* rejected by a constraint of the schema *).
Global Instance JobError_eq_dec : EqDecision JobError.
Proof. solve_decision. Defined.

Record Store := mkStore {
  projectID : ID;
  config_revisions : gset ID;
  jobs : gmap ID JobRecord;
  job_events : gmap (ID * Z) Event;
  publication_started : gset ID
}.

Definition set_jobs (st : Store) (m : gmap ID JobRecord) : Store :=
  mkStore (projectID st) (config_revisions st) m (job_events st) (publication_started st).
Definition set_events (st : Store) (m : gmap (ID * Z) Event) : Store :=
  mkStore (projectID st) (config_revisions st) (jobs st) m (publication_started st).

(** [time.Format(time.RFC3339Nano)], the text the rows are ordered by. *)
Class TimeText := { rfc3339nano : Time -> string }.

Definition with_status (r : JobRecord) (next : Status) (res : option Result) (now : Time) : JobRecord :=
  mkRecord (Record_ID r) (Record_Request r) next res (CancelGeneration r) (CancelRequestedAt r)
    (CreatedAt r) now.

Definition with_cancellation (r : JobRecord) (now : Time) : JobRecord :=
  mkRecord (Record_ID r) (Record_Request r) (Record_Status r) (Record_Result r)
    (CancelGeneration r + 1) (Some now) (CreatedAt r) now.

Definition sameSharedResult (left right : option Result) : bool := bool_decide (left = right).
Definition sameSharedEvent (left right : Event) : bool := bool_decide (left = right).

Section store.
Context `{UuidLib}.

Definition scanSharedJob (row : JobRecord) : result JobRecord JobError :=
  if Record_Valid row then Ok row else Err ErrStoredJob.
Definition scanSharedEvent (row : Event) : result Event JobError :=
  if Event_Valid row then Ok row else Err ErrStoredEvent.

(** [WHERE id=? AND project_uuid=?] *)
Definition row_of (st : Store) (id : ID) : option JobRecord :=
  r ← jobs st !! id; if decide (ProjectID (Record_Request r) = projectID st) then Some r else None.

Definition GetJob (st : Store) (id : ID) : result JobRecord JobError :=
  if negb (ID_Valid id) then Err ErrJobNotFound
  else match row_of st id with None => Err ErrJobNotFound | Some row => scanSharedJob row end.

(** [WHERE project_uuid=? AND idempotency_key=?] *)
Definition has_key (project : ID) (key : string) (r : JobRecord) : Prop :=
  ProjectID (Record_Request r) = project /\ IdempotencyKey (Record_Request r) = key.
Global Instance has_key_dec project key r : Decision (has_key project key r).
Proof. unfold has_key. apply _. Defined.

Definition findSharedJobByKey (st : Store) (key : string) : result (option JobRecord) JobError :=
  match head (filter (has_key (projectID st) key) (map_to_list (jobs st)).*2) with
  | None => Ok None
  | Some row => let? r := scanSharedJob row in Ok (Some r)
  end.

Definition queued_record (id : ID) (request : Request) (now : Time) : JobRecord :=
  mkRecord id request Queued None 0 None now now.

Definition insert_job (st : Store) (r : JobRecord) : option Store :=
  if decide (jobs st !! Record_ID r = None /\
             (RevisionID (Record_Request r) = ""%string \/
              RevisionID (Record_Request r) ∈ config_revisions st))
  then Some (set_jobs st (<[Record_ID r := r]> (jobs st))) else None.

Definition CreateOrGet (st : Store) (newID : ID) (now : Time) (request : Request)
  : result (JobRecord * bool) JobError * Store :=
  if negb (Request_Valid request) then (Err ErrJobInvalid, st)
  else if decide (ProjectID request = projectID st) then
    match findSharedJobByKey st (IdempotencyKey request) with
    | Err e => (Err e, st)
    | Ok (Some existing) =>
        if negb (Equivalent (Record_Request existing) request) then (Err ErrJobIdempotencyConflict, st)
        else (Ok (existing, true), st)
    | Ok None =>
        let record := queued_record newID request now in
        if negb (Record_Valid record) then (Err ErrJobInvalid, st)
        else match insert_job st record with
             | None => (Err ErrConstraint, st)
             | Some st' => (Ok (record, false), st')
             end
    end
  else (Err ErrJobProjectScope, st).

(** Rows in the order of the query, up to the limit; one unreadable row fails
    the whole scan. *)
Definition recoverable (st : Store) (r : JobRecord) : Prop :=
  ProjectID (Record_Request r) = projectID st /\
  (Record_Status r = Queued \/ Record_Status r = Running \/ Record_Status r = Interrupted).
Global Instance recoverable_dec st r : Decision (recoverable st r).
Proof. unfold recoverable. apply _. Defined.

Fixpoint scan_all (rows : list JobRecord) : result (list JobRecord) JobError :=
  match rows with
  | [] => Ok []
  | row :: rows' => let? r := scanSharedJob row in let? rs := scan_all rows' in Ok (r :: rs)
  end.

Definition ListRecoverableJobs `{TimeText} (st : Store) (limit : Z) : result (list JobRecord) JobError :=
  if (limit <? 1) || (1000 <? limit) then Err ErrJobInvalid
  else scan_all (take (Z.to_nat limit)
    (sort_by (then_by (fun r => rfc3339nano (CreatedAt r)) String.ltb (less_on Record_ID String.ltb))
       (filter (recoverable st) (map_to_list (jobs st)).*2))).

(** [Transition]: the compare-and-swap on status and cancellation generation. *)
Definition Transition (st : Store) (now : Time) (id : ID) (expected next : Status)
    (res : option Result) (observed : Z) : result (option JobRecord * bool) JobError * Store :=
  if negb (ID_Valid id) || negb (Status_Valid expected) || negb (Status_Valid next) ||
     (observed <? 0) || (bool_decide (next = Succeeded) && bool_decide (res = None)) ||
     negb (option_forallb Result_Valid res)
  then (Err ErrJobTransition, st)
  else if decide (expected = next) then
    match GetJob st id with
    | Err e => (Err e, st)
    | Ok record =>
        if negb (bool_decide (Record_Status record = next)) ||
           negb (sameSharedResult (Record_Result record) res) ||
           negb (CancelGeneration record =? observed)
        then (Ok (None, false), st) else (Ok (Some record, true), st)
    end
  else if negb (CanTransitionTo expected next) then (Err ErrJobTransition, st)
  else if bool_decide (next = Succeeded) && negb (observed =? 0) then (Err ErrJobTransition, st)
  else match row_of st id with
       | Some row =>
           if decide (Record_Status row = expected /\ CancelGeneration row = observed) then
             let st' := set_jobs st (<[id := with_status row next res now]> (jobs st)) in
             match GetJob st' id with
             | Ok record => (Ok (Some record, true), st')
             | Err e => (Err e, st')
             end
           else (Ok (None, false), st)
       | None => (Ok (None, false), st)
       end.

Definition RequestCancellation (st : Store) (now : Time) (id : ID)
  : result (JobRecord * bool) JobError * Store :=
  if negb (ID_Valid id) then (Err ErrJobNotFound, st)
  else match row_of st id with
  | None => (Err ErrJobNotFound, st)
  | Some row =>
      match scanSharedJob row with
      | Err e => (Err e, st)
      | Ok record =>
          if Terminal (Record_Status record) || (0 <? CancelGeneration record) then (Ok (record, true), st)
          else if bool_decide (Kind (Record_Request record) = "backup"%string) &&
                  bool_decide (id ∈ publication_started st) then (Ok (record, true), st)
          else
            let st' := set_jobs st (<[id := with_cancellation record now]> (jobs st)) in
            match GetJob st' id with
            | Ok updated => (Ok (updated, false), st')
            | Err e => (Err e, st')
            end
      end
  end.

(** [ORDER BY e.event_ordinal], the events after an ordinal. *)
Definition events_after (st : Store) (id : ID) (after : Z) : list Event :=
  match row_of st id with
  | None => []
  | Some _ => sort_by (less_on Ordinal Z.ltb) (filter (fun e => JobID e = id /\ after < Ordinal e) (map_to_list (job_events st)).*2)
  end.
Definition ListEvents (st : Store) (id : ID) (after : Z) : result (list Event) JobError :=
  if negb (ID_Valid id) || (after <? 0) then Err ErrJobNotFound else map_result scanSharedEvent (events_after st id after).

(** The events of a job of this project, latest ordinal first in use. *)
Definition event_row (st : Store) (id : ID) (ordinal : Z) : option Event :=
  match row_of st id with Some _ => job_events st !! (id, ordinal) | None => None end.

Definition later (e : Event) (best : option Event) : option Event :=
  match best with
  | None => Some e
  | Some b => if Ordinal b <? Ordinal e then Some e else Some b
  end.
Definition latest_row (st : Store) (id : ID) : option Event :=
  match row_of st id with
  | None => None
  | Some _ => foldr later None (filter (fun e => JobID e = id) (map_to_list (job_events st)).*2)
  end.

Definition scan_option (o : option Event) : result (option Event) JobError :=
  match o with None => Ok None | Some row => let? e := scanSharedEvent row in Ok (Some e) end.

Definition Append (st : Store) (event : Event) : result (Event * bool) JobError * Store :=
  if negb (Event_Valid event) then (Err ErrJobEvent, st)
  else match scan_option (event_row st (JobID event) (Ordinal event)) with
  | Err e => (Err e, st)
  | Ok (Some existing) =>
      if negb (sameSharedEvent existing event) then (Err ErrJobEvent, st)
      else (Ok (existing, true), st)
  | Ok None =>
      match scan_option (latest_row st (JobID event)) with
      | Err e => (Err e, st)
      | Ok previous =>
          if match previous with
             | Some p => (Ordinal event <=? Ordinal p) || (Progress event <? Progress p)
             | None => false
             end
          then (Err ErrJobEvent, st)
          else match row_of st (JobID event) with
               | None => (Err ErrJobNotFound, st)
               | Some _ =>
                   (Ok (event, false),
                    set_events st (<[(JobID event, Ordinal event) := event]> (job_events st)))
               end
      end
  end.
End store.

(** ** Executions

    [step now st st']: one committed operation at clock reading [now].  The last
    two steps belong to other writers of the same database: a backup job starts
    its publication, a revision is created. *)
Section executions.
Context `{UuidLib}.

Inductive step (now : Time) (st : Store) : Store -> Prop :=
  | step_create newID request : step now st (CreateOrGet st newID now request).2
  | step_transition id expected next res observed :
      step now st (Transition st now id expected next res observed).2
  | step_cancel id : step now st (RequestCancellation st now id).2
  | step_append event : step now st (Append st event).2
  | step_publication id :
      step now st (mkStore (projectID st) (config_revisions st) (jobs st) (job_events st)
                     ({[id]} ∪ publication_started st))
  | step_revision id :
      step now st (mkStore (projectID st) ({[id]} ∪ config_revisions st) (jobs st) (job_events st)
                     (publication_started st)).

Definition empty_store (project : ID) : Store := mkStore project ∅ ∅ ∅ ∅.

(** [runs t st t' st']: operations from [st] at time [t] to [st'] at [t'],
    under a clock that does not go backwards. *)
Inductive runs (t : Time) (st : Store) : Time -> Store -> Prop :=
  | runs_refl : runs t st t st
  | runs_step t' st' now st'' :
      runs t st t' st' -> t' <= now -> step now st' st'' -> runs t st now st''.

Definition reachable (t : Time) (st : Store) : Prop :=
  exists project t0, 0 < t0 /\ runs t0 (empty_store project) t st.

(** The change one step makes to one row of [jobs]. *)
Inductive row_change (now : Time) (project id : ID) : option JobRecord -> JobRecord -> Prop :=
  | change_create request :
      ProjectID request = project -> Record_Valid (queued_record id request now) = true ->
      row_change now project id None (queued_record id request now)
  | change_status r next res :
      status_step (Record_Status r) next -> option_forallb Result_Valid res = true ->
      (next = Succeeded -> res <> None /\ CancelGeneration r = 0) ->
      ProjectID (Record_Request r) = project ->
      row_change now project id (Some r) (with_status r next res now)
  | change_cancel r :
      Record_Valid r = true -> Terminal (Record_Status r) = false -> CancelGeneration r = 0 ->
      ProjectID (Record_Request r) = project ->
      row_change now project id (Some r) (with_cancellation r now).

Definition jobs_change (now : Time) (st st' : Store) : Prop :=
  projectID st' = projectID st /\
  (jobs st' = jobs st \/
   exists id r', row_change now (projectID st) id (jobs st !! id) r' /\
     jobs st' = <[id := r']> (jobs st) /\
     (jobs st !! id = None ->
      findSharedJobByKey st (IdempotencyKey (Record_Request r')) = Ok None)).

Lemma row_of_Some st id r :
  row_of st id = Some r <-> jobs st !! id = Some r /\ ProjectID (Record_Request r) = projectID st.
Proof.
  unfold row_of. destruct (jobs st !! id) as [r0|]; simpl; [|naive_solver].
  case_decide; naive_solver.
Qed.

Lemma Record_Valid_iff r :
  Record_Valid r = true <->
  ID_Valid (Record_ID r) = true /\ Request_Valid (Record_Request r) = true /\
  Status_Valid (Record_Status r) = true /\ 0 <= CancelGeneration r /\ CreatedAt r <> 0 /\
  UpdatedAt r <> 0 /\ CreatedAt r <= UpdatedAt r /\
  option_forallb Result_Valid (Record_Result r) = true /\
  (Record_Status r = Succeeded -> Record_Result r <> None) /\
  ((CancelGeneration r = 0 /\ CancelRequestedAt r = None) \/
   (0 < CancelGeneration r /\ exists t, CancelRequestedAt r = Some t /\ t <> 0)).
Proof.
  unfold Record_Valid, IsZero, Before.
  rewrite !andb_true_iff, orb_true_iff, !andb_true_iff, !negb_true_iff, andb_false_iff,
    !bool_decide_eq_true, !bool_decide_eq_false, Z.leb_le, !Z.eqb_neq, Z.ltb_ge, Z.ltb_lt, Z.eqb_eq.
  assert ((Record_Status r <> Succeeded \/ Record_Result r <> None) <->
          (Record_Status r = Succeeded -> Record_Result r <> None)) as ->.
  { destruct (decide (Record_Status r = Succeeded)); naive_solver. }
  destruct (CancelRequestedAt r) as [t|].
  - rewrite negb_true_iff, Z.eqb_neq.
    assert ((exists t0, Some t = Some t0 /\ t0 <> 0) <-> t <> 0) as -> by naive_solver. tauto.
  - assert ((exists t0, @None Time = Some t0 /\ t0 <> 0) <-> false = true) as -> by naive_solver. tauto.
Qed.

Lemma scanSharedJob_Ok row r : scanSharedJob row = Ok r <-> r = row /\ Record_Valid row = true.
Proof. unfold scanSharedJob. destruct (Record_Valid row); naive_solver. Qed.

Lemma jobs_change_refl now st : jobs_change now st st.
Proof. unfold jobs_change. auto. Qed.

Lemma jobs_change_row now st id r r' :
  jobs st !! id = Some r -> row_change now (projectID st) id (Some r) r' ->
  jobs_change now st (set_jobs st (<[id := r']> (jobs st))).
Proof. intros Hr Hc. split; [done|]. right. exists id, r'. by rewrite Hr. Qed.

(** Splits the guards of an operation, closing the branches that leave the
    store as it is. *)
Ltac unchanged := first [apply jobs_change_refl | idtac].

Lemma CreateOrGet_change st newID now request :
  jobs_change now st (CreateOrGet st newID now request).2.
Proof.
  unfold CreateOrGet. destruct (Request_Valid request); simpl; unchanged.
  case_decide as Hp; simpl; unchanged.
  destruct (findSharedJobByKey st _) as [[existing|]|] eqn:Hk; simpl; unchanged.
  { destruct (Equivalent _ _); simpl; unchanged. }
  destruct (Record_Valid (queued_record newID request now)) eqn:Hv; simpl; unchanged.
  unfold insert_job. case_decide as Hi; simpl; unchanged.
  destruct Hi as [Hnone _]. simpl in Hnone.
  split; [done|]. right. exists newID, (queued_record newID request now).
  rewrite Hnone. split; [|done]. by constructor.
Qed.

Lemma Transition_change st now id expected next res observed :
  jobs_change now st (Transition st now id expected next res observed).2.
Proof.
  unfold Transition. case_guard as Hg; simpl; unchanged. bool_to_prop.
  destruct (decide (expected = next)) as [Heq|Heq].
  { destruct (GetJob st id); simpl; unchanged. case_guard; simpl; unchanged. }
  destruct (CanTransitionTo expected next) eqn:Hc; simpl; unchanged.
  destruct (bool_decide (next = Succeeded) && negb (observed =? 0)) eqn:Hs; simpl; unchanged.
  destruct (row_of st id) as [row|] eqn:Hr; simpl; unchanged.
  apply row_of_Some in Hr as [Hr Hp].
  destruct (decide (_ /\ _)) as [[Hst Hgen]|Hd]; simpl; unchanged.
  assert (jobs_change now st (set_jobs st (<[id := with_status row next res now]> (jobs st)))) as Hch.
  { eapply jobs_change_row; [done|]. constructor; [by unfold status_step; rewrite Hst|done| |done].
    intros ->. rewrite bool_decide_true in * by done. simpl in *.
    apply negb_false_iff, Z.eqb_eq in Hs. split; [|lia]. by intros ->. }
  by destruct (GetJob _ id).
Qed.

Lemma RequestCancellation_change st now id :
  jobs_change now st (RequestCancellation st now id).2.
Proof.
  unfold RequestCancellation. destruct (ID_Valid id); simpl; unchanged.
  destruct (row_of st id) as [row|] eqn:Hr; simpl; unchanged.
  apply row_of_Some in Hr as [Hr Hp].
  destruct (scanSharedJob row) as [record|] eqn:Hs; simpl; unchanged.
  apply scanSharedJob_Ok in Hs as [-> Hv].
  case_guard as Ht; simpl; unchanged. bool_to_prop.
  case_guard; simpl; unchanged.
  assert (jobs_change now st (set_jobs st (<[id := with_cancellation row now]> (jobs st)))) as Hch.
  { eapply jobs_change_row; [done|]. pose proof Hv as Hv'. apply Record_Valid_iff in Hv'.
    constructor; [done|done|lia|done]. }
  by destruct (GetJob _ id).
Qed.

Lemma Append_jobs st event : jobs (Append st event).2 = jobs st /\
  projectID (Append st event).2 = projectID st.
Proof.
  unfold Append. destruct (negb (Event_Valid event)); [done|].
  destruct (scan_option (event_row _ _ _)) as [[existing|]|]; [| |done].
  - by destruct (negb _).
  - destruct (scan_option (latest_row _ _)) as [previous|]; [|done].
    destruct (match previous with Some _ => _ | None => _ end); [done|].
    by destruct (row_of _ _).
Qed.

Lemma step_jobs_change now st st' : step now st st' -> jobs_change now st st'.
Proof.
  destruct 1; auto using CreateOrGet_change, Transition_change, RequestCancellation_change.
  - destruct (Append_jobs st event) as [Hj Hp]. unfold jobs_change. auto.
  - by split; [|left].
  - by split; [|left].
Qed.

(** The revisions a job may reference are never withdrawn. *)
Lemma step_revisions now st st' : step now st st' -> config_revisions st ⊆ config_revisions st'.
Proof.
  destruct 1 as [newID request|id expected next res observed|id|event|id|id]; simpl; [..|set_solver].
  - unfold CreateOrGet. case_guard; [done|]. case_goal; [|done].
    destruct (findSharedJobByKey st _) as [[]|]; [by case_guard| |done]. case_guard; [done|].
    unfold insert_job. by case_goal.
  - unfold Transition. case_guard; [done|]. case_goal; [destruct (GetJob st id); [by case_guard|done]|].
    case_guard; [done|]. case_guard; [done|]. destruct (row_of st id); [|done].
    case_goal; [|done]. by destruct (GetJob _ id).
  - unfold RequestCancellation. case_guard; [done|]. destruct (row_of st id) as [row|]; [|done].
    destruct (scanSharedJob row); [|done]. case_guard; [done|]. case_guard; [done|].
    by destruct (GetJob _ id).
  - unfold Append. case_guard; [done|]. destruct (scan_option (event_row _ _ _)) as [[]|]; [by case_guard| |done].
    destruct (scan_option (latest_row _ _)); [|done]. destruct (match _ with Some _ => _ | None => _ end); [done|].
    by destruct (row_of _ _).
  - done.
Qed.

(** *** The invariant of the store *)
Definition row_ok (t : Time) (project id : ID) (r : JobRecord) : Prop :=
  Record_ID r = id /\ ProjectID (Record_Request r) = project /\ Record_Valid r = true /\
  (Record_Status r = Succeeded -> CancelGeneration r = 0) /\
  CancelGeneration r <= 1 /\ UpdatedAt r <= t.

Definition store_ok (t : Time) (st : Store) : Prop :=
  0 < t /\
  (forall id r, jobs st !! id = Some r -> row_ok t (projectID st) id r) /\
  (forall id1 id2 r1 r2, jobs st !! id1 = Some r1 -> jobs st !! id2 = Some r2 ->
     IdempotencyKey (Record_Request r1) = IdempotencyKey (Record_Request r2) -> id1 = id2).

Lemma row_ok_mono t t' project id r : t <= t' -> row_ok t project id r -> row_ok t' project id r.
Proof. unfold row_ok. intros ? (?&?&?&?&?&?). split_and!; auto. lia. Qed.

Lemma with_status_valid r next res now :
  Record_Valid r = true -> status_step (Record_Status r) next ->
  option_forallb Result_Valid res = true -> (next = Succeeded -> res <> None) ->
  0 < now -> CreatedAt r <= now -> Record_Valid (with_status r next res now) = true.
Proof.
  rewrite !Record_Valid_iff. simpl. intros (?&?&?&?&?&?&?&?&?&?) Hs ????.
  apply status_step_valid in Hs as [_ ?]. split_and!; auto. lia.
Qed.

Lemma with_cancellation_valid r now :
  Record_Valid r = true -> CancelGeneration r = 0 -> 0 < now -> CreatedAt r <= now ->
  Record_Valid (with_cancellation r now) = true.
Proof.
  rewrite !Record_Valid_iff. simpl. intros (?&?&?&?&?&?&?&?&?&?) ???.
  split_and!; auto; try lia. right. split; [lia|]. exists now. split; [done|lia].
Qed.

Lemma row_change_ok t now project id old r' :
  0 < t <= now -> (forall r, old = Some r -> row_ok t project id r) ->
  row_change now project id old r' -> row_ok now project id r'.
Proof.
  intros [Ht Hn] Hold Hc. destruct Hc as [request Hp Hv|r next res Hs Hres Hsucc Hp|r Hv Hterm Hg Hp].
  - unfold row_ok; simpl. split_and!; auto; lia.
  - destruct (Hold r eq_refl) as (Hid&_&Hv&Hsg&Hg&Hu).
    assert (CreatedAt r <= now) by (apply Record_Valid_iff in Hv; lia).
    unfold row_ok; simpl. split_and!; auto; [|naive_solver|lia].
    apply with_status_valid; auto; [naive_solver|lia].
  - destruct (Hold r eq_refl) as (Hid&_&_&Hsg&_&Hu).
    assert (CreatedAt r <= now) by (apply Record_Valid_iff in Hv; lia).
    unfold row_ok; simpl. split_and!; auto; [|by intros Hs; rewrite Hs in Hterm|lia..].
    apply with_cancellation_valid; auto; lia.
Qed.

Lemma row_change_request now project id r r' :
  row_change now project id (Some r) r' -> Record_Request r' = Record_Request r.
Proof. by inversion 1. Qed.

Lemma findSharedJobByKey_None st key id r :
  findSharedJobByKey st key = Ok None -> jobs st !! id = Some r ->
  ProjectID (Record_Request r) = projectID st -> IdempotencyKey (Record_Request r) <> key.
Proof.
  unfold findSharedJobByKey. intros Hf Hr Hp Hk.
  destruct (filter _ _) as [|row l] eqn:Hfl; simpl in Hf;
    [|unfold scanSharedJob in Hf; by destruct (Record_Valid row)].
  assert (r ∈ filter (has_key (projectID st) key) (map_to_list (jobs st)).*2) as Hin.
  { apply list_elem_of_filter. split; [done|]. apply list_elem_of_fmap.
    exists (id, r). split; [done|]. by apply elem_of_map_to_list. }
  rewrite Hfl in Hin. by apply elem_of_nil in Hin.
Qed.

Lemma jobs_change_ok t now st st' :
  t <= now -> store_ok t st -> jobs_change now st st' -> store_ok now st'.
Proof.
  intros Hn (Ht&Hrows&Hkeys) (Hp&[Hj|(id&r'&Hc&Hj&Hfresh)]); unfold store_ok; rewrite Hj, Hp.
  { split_and!; [lia| |done]. eauto using row_ok_mono. }
  assert (forall r, jobs st !! id = Some r -> Record_Request r' = Record_Request r) as Hreq.
  { intros r Hr. rewrite Hr in Hc. by eapply row_change_request. }
  assert (forall id2 r2, id2 <> id -> jobs st !! id2 = Some r2 ->
    IdempotencyKey (Record_Request r2) <> IdempotencyKey (Record_Request r')) as Huniq.
  { intros id2 r2 Hne Hr2 Heq. destruct (jobs st !! id) as [r|] eqn:Hr.
    - rewrite (Hreq r eq_refl) in Heq. eauto.
    - eapply findSharedJobByKey_None; eauto. by destruct (Hrows _ _ Hr2) as (_&?&_). }
  split_and!; [lia| |].
  - intros id2 r2. rewrite lookup_insert. case_decide as Heq; [|eauto using row_ok_mono].
    intros [= <-]. subst id2. eapply row_change_ok; [split; [exact Ht|done]| |done]. eauto.
  - intros id1 id2 r1 r2. rewrite !lookup_insert. repeat case_decide; subst; intros; simplify_eq; eauto.
    + by destruct (Huniq id2 r2).
    + by destruct (Huniq id1 r1).
Qed.

Lemma store_ok_step t now st st' :
  t <= now -> store_ok t st -> step now st st' -> store_ok now st'.
Proof. eauto using jobs_change_ok, step_jobs_change. Qed.

Lemma store_ok_runs t st t' st' : store_ok t st -> runs t st t' st' -> store_ok t' st'.
Proof. induction 2; eauto using store_ok_step. Qed.

Lemma store_ok_reachable t st : reachable t st -> store_ok t st.
Proof.
  intros (project&t0&Ht0&Hr). eapply store_ok_runs; [|done].
  split_and!; [done|..]; simpl; intros *; by rewrite lookup_empty.
Qed.

Lemma runs_trans t st t1 st1 t2 st2 : runs t st t1 st1 -> runs t1 st1 t2 st2 -> runs t st t2 st2.
Proof. induction 2; [done|]. eauto using runs. Qed.

Lemma runs_project t st t' st' : runs t st t' st' -> projectID st' = projectID st.
Proof.
  induction 1 as [|t' st' now st'' _ IH _ Hs]; [done|].
  apply step_jobs_change in Hs as [Hp _]. congruence.
Qed.

(** A row survives every run: same identity, a cancellation is never undone,
    the status climbs or stays. *)
Definition row_le (r r' : JobRecord) : Prop :=
  Record_Request r' = Record_Request r /\ Record_ID r' = Record_ID r /\
  CancelGeneration r <= CancelGeneration r' /\
  (Record_Status r' = Record_Status r \/
   (status_rank (Record_Status r) < status_rank (Record_Status r'))%nat).

Global Instance row_le_preorder : PreOrder row_le.
Proof.
  split.
  - intros r. unfold row_le. split_and!; auto. lia.
  - intros r1 r2 r3 (?&?&?&?) (?&?&?&?). unfold row_le. split_and!; try congruence; [lia|].
    destruct H3 as [E1|?], H7 as [E2|?]; try rewrite E2; try rewrite <-E1; auto; right; try congruence; lia.
Qed.

Lemma jobs_change_row_le now st st' id r :
  jobs_change now st st' -> jobs st !! id = Some r -> exists r', jobs st' !! id = Some r' /\ row_le r r'.
Proof.
  intros (_&[Hj|(id'&r'&Hc&Hj&_)]) Hr; rewrite Hj; [by exists r|].
  destruct (decide (id' = id)) as [->|Hne].
  - rewrite lookup_insert_eq. exists r'. split; [done|]. rewrite Hr in Hc.
    inversion Hc; subst; unfold row_le; simpl; split_and!; auto; try lia.
    right. by apply status_step_rank.
  - rewrite lookup_insert_ne by done. by exists r.
Qed.

Lemma runs_row_le t st t' st' id r :
  runs t st t' st' -> jobs st !! id = Some r -> exists r', jobs st' !! id = Some r' /\ row_le r r'.
Proof.
  induction 1 as [|t' st' now st'' _ IH _ Hs]; intros Hr; [by exists r|].
  destruct (IH Hr) as (r1&Hr1&Hle). apply step_jobs_change in Hs.
  destruct (jobs_change_row_le _ _ _ _ _ Hs Hr1) as (r2&Hr2&Hle2).
  exists r2. split; [done|]. by etrans.
Qed.

Lemma GetJob_Ok st id r :
  GetJob st id = Ok r <->
  ID_Valid id = true /\ jobs st !! id = Some r /\
  ProjectID (Record_Request r) = projectID st /\ Record_Valid r = true.
Proof.
  unfold GetJob. destruct (ID_Valid id); simpl; [|naive_solver].
  destruct (row_of st id) as [row|] eqn:Hr.
  - apply row_of_Some in Hr as [Hr Hp]. rewrite scanSharedJob_Ok. naive_solver.
  - split; [done|]. intros (_&Hj&Hp&_).
    assert (row_of st id = Some r) by by apply row_of_Some. congruence.
Qed.

Lemma store_ok_readable t st id r :
  store_ok t st -> jobs st !! id = Some r -> GetJob st id = Ok r.
Proof.
  intros (_&Hrows&_) Hr. destruct (Hrows _ _ Hr) as (Hid&Hp&Hv&_).
  apply GetJob_Ok. split_and!; auto. apply Record_Valid_iff in Hv as [Hv _]. congruence.
Qed.

Lemma store_ok_find t st id r key :
  store_ok t st -> jobs st !! id = Some r -> IdempotencyKey (Record_Request r) = key ->
  findSharedJobByKey st key = Ok (Some r).
Proof.
  intros Hok Hr Hk. pose proof Hok as (_&Hrows&Hkeys).
  destruct (Hrows _ _ Hr) as (Hid&Hp&Hv&_).
  destruct (findSharedJobByKey st key) as [[r0|]|e] eqn:Hf.
  - unfold findSharedJobByKey in Hf. destruct (filter _ _) as [|row l] eqn:Hfl; [done|].
    simpl in Hf. unfold scanSharedJob in Hf. destruct (Record_Valid row); [|done].
    simplify_eq/=. repeat f_equal.
    assert (r0 ∈ filter (has_key (projectID st) (IdempotencyKey (Record_Request r)))
              (map_to_list (jobs st)).*2) as Hin by (rewrite Hfl; by left).
    apply list_elem_of_filter in Hin as [[_ Hk] Hin].
    apply list_elem_of_fmap in Hin as ([id0 r1]&Heq&Hin). simpl in Heq. subst r1.
    apply elem_of_map_to_list in Hin. assert (id0 = Record_ID r) as -> by eauto. congruence.
  - by destruct (findSharedJobByKey_None st key id r Hf Hr).
  - exfalso. unfold findSharedJobByKey in Hf. destruct (filter _ _) as [|row l] eqn:Hfl; [done|].
    simpl in Hf. unfold scanSharedJob in Hf. destruct (Record_Valid row) eqn:Hv0; [done|].
    assert (row ∈ filter (has_key (projectID st) key) (map_to_list (jobs st)).*2) as Hin
      by (rewrite Hfl; by left).
    apply list_elem_of_filter in Hin as [_ Hin].
    apply list_elem_of_fmap in Hin as ([id0 r1]&Heq&Hin). simpl in Heq. subst r1.
    apply elem_of_map_to_list in Hin. destruct (Hrows _ _ Hin) as (_&_&?&_). congruence.
Qed.

(** *** The event log *)
Definition events_ok (st : Store) : Prop :=
  (forall id o e, job_events st !! (id, o) = Some e -> JobID e = id /\ Ordinal e = o /\ Event_Valid e = true) /\
  (forall id o1 o2 e1 e2, job_events st !! (id, o1) = Some e1 -> job_events st !! (id, o2) = Some e2 ->
     o1 < o2 -> Progress e1 <= Progress e2).

Lemma foldr_later_max l :
  match foldr later None l with
  | None => l = []
  | Some b => b ∈ l /\ Forall (fun e => Ordinal e <= Ordinal b) l
  end.
Proof.
  induction l as [|e l IH]; simpl; [done|].
  destruct (foldr later None l) as [b|]; simpl.
  - destruct IH as [Hb Hl]. destruct (Z.ltb_spec (Ordinal b) (Ordinal e)).
    + split; [by left|]. constructor; [lia|]. eapply Forall_impl; [done|]. simpl; lia.
    + split; [by right|]. by constructor.
  - subst l. split; [by left|]. by repeat constructor.
Qed.

Lemma latest_row_max st id o e :
  events_ok st -> is_Some (row_of st id) -> job_events st !! (id, o) = Some e ->
  exists b, latest_row st id = Some b /\ JobID b = id /\
    job_events st !! (id, Ordinal b) = Some b /\ o <= Ordinal b.
Proof.
  intros [Hkey _] [row Hrow] He. unfold latest_row. rewrite Hrow.
  set (l := filter _ _).
  assert (forall x, x ∈ l <-> JobID x = id /\ job_events st !! (id, Ordinal x) = Some x) as Hl.
  { intros x. unfold l. rewrite list_elem_of_filter, list_elem_of_fmap. split.
    - intros [Hx ([[i o'] y]&->&Hin)]. apply elem_of_map_to_list in Hin. simpl in *.
      destruct (Hkey _ _ _ Hin) as (?&?&_). split; [done|]. congruence.
    - intros [Hx Hin]. split; [done|]. exists ((id, Ordinal x), x). split; [done|].
      by apply elem_of_map_to_list. }
  pose proof (foldr_later_max l) as Hm.
  destruct (Hkey _ _ _ He) as (Hj&Ho&_).
  assert (e ∈ l) as Hel by (apply Hl; split; [done|congruence]).
  destruct (foldr later None l) as [b|]; [|by rewrite Hm in Hel; apply elem_of_nil in Hel].
  destruct Hm as [Hb Hmax]. apply Hl in Hb as [Hbj Hb].
  exists b. split_and!; auto. rewrite Forall_forall in Hmax. specialize (Hmax e Hel). lia.
Qed.

Lemma Append_events st event :
  (Append st event).2 = st \/
  (exists row, row_of st (JobID event) = Some row) /\ Event_Valid event = true /\
  (Append st event).2 =
    set_events st (<[(JobID event, Ordinal event) := event]> (job_events st)) /\
  (forall b, latest_row st (JobID event) = Some b ->
     Ordinal b < Ordinal event /\ Progress b <= Progress event).
Proof.
  unfold Append. destruct (Event_Valid event) eqn:Hv; simpl; [|by left].
  destruct (scan_option (event_row _ _ _)) as [[existing|]|]; [| |by left].
  { by destruct (negb _); left. }
  destruct (latest_row st (JobID event)) as [b|] eqn:Hb; simpl.
  - unfold scanSharedEvent. destruct (Event_Valid b); simpl; [|by left].
    case_guard as Hg; simpl; [by left|]. bool_to_prop.
    destruct (row_of st (JobID event)) as [row|]; [|by left].
    right. split_and!; eauto. intros b' [= <-]. lia.
  - destruct (row_of st (JobID event)) as [row|]; [|by left].
    right. split_and!; eauto. done.
Qed.

Lemma events_ok_step now st st' : events_ok st -> step now st st' -> events_ok st'.
Proof.
  intros Hok Hs.
  assert (job_events st' = job_events st \/ exists event, st' = (Append st event).2) as [He|[event ->]].
  { destruct Hs; try (by left); try (right; by eexists); left.
    - unfold CreateOrGet. repeat (case_match; try done). unfold insert_job in *.
      case_decide; by simplify_eq/=.
    - unfold Transition. by repeat (case_match; try done).
    - unfold RequestCancellation. by repeat (case_match; try done). }
  { unfold events_ok. by rewrite He. }
  destruct (Append_events st event) as [->|([row Hrow]&Hv&->&Hlatest)]; [done|].
  pose proof Hok as [Hkey Hmono].
  assert (forall o e, job_events st !! (JobID event, o) = Some e ->
    o < Ordinal event /\ Progress e <= Progress event) as Hbefore.
  { intros o e He. destruct (latest_row_max st _ o e Hok ltac:(eauto) He) as (b&Hb&_&Hbl&Hle).
    destruct (Hlatest b Hb). split; [lia|]. destruct (decide (o = Ordinal b)) as [->|].
    - rewrite Hbl in He. by simplify_eq.
    - assert (Progress e <= Progress b) by (eapply Hmono; [exact He|exact Hbl|lia]). lia. }
  split; simpl.
  - intros id o e. rewrite lookup_insert. case_decide; [|by apply Hkey]. intros; by simplify_eq.
  - intros id o1 o2 e1 e2. rewrite !lookup_insert.
    repeat case_decide; intros; simplify_eq; eauto; try lia.
    + destruct (Hbefore o2 e2); [done|]. lia.
    + by apply (Hbefore o1).
Qed.
End executions.

(** ** Properties *)
Section properties.
Context `{UuidLib}.

(** C3: In every store that the operations of the job table reach from the empty
    one at times that do not decrease, each stored job is readable, well formed,
    canceled at most once, and has succeeded only with a result and if it was never
    canceled.  A clock that goes back ([clock_regression_bricks_job]) and the other
    writers of the table are outside this. *)
Theorem reachable_jobs_wellformed t st id r :
  reachable t st -> jobs st !! id = Some r ->
  GetJob st id = Ok r /\ Record_Valid r = true /\ CancelGeneration r <= 1 /\
  (Record_Status r = Succeeded -> CancelGeneration r = 0 /\ Record_Result r <> None).
Proof.
  intros Hre%store_ok_reachable Hr. pose proof (store_ok_readable _ _ _ _ Hre Hr) as Hget.
  destruct Hre as (_&Hrows&_). destruct (Hrows _ _ Hr) as (_&_&Hv&Hs&Hg&_).
  split_and!; auto. apply Record_Valid_iff in Hv. naive_solver.
Qed.

(** C1: Once the cancellation of a job is recorded, no later operations of the
    job table, in any order, make the job succeed. *)
Theorem cancellation_prevents_success t st t' st' id r r' :
  reachable t st -> GetJob st id = Ok r -> 0 < CancelGeneration r ->
  runs t st t' st' -> GetJob st' id = Ok r' ->
  0 < CancelGeneration r' /\ Record_Status r' <> Succeeded.
Proof.
  intros Hre%store_ok_reachable Hget Hg Hruns Hget'.
  apply GetJob_Ok in Hget as (_&Hr&_). apply GetJob_Ok in Hget' as (_&Hr'&_).
  destruct (runs_row_le _ _ _ _ _ _ Hruns Hr) as (r2&Hr2&_&_&Hle&_). simplify_eq.
  destruct (store_ok_runs _ _ _ _ Hre Hruns) as (_&Hrows&_).
  destruct (Hrows _ _ Hr') as (_&_&_&Hs&_). split; [lia|]. intros E. specialize (Hs E). lia.
Qed.

(** A terminal status is final. *)
Theorem terminal_is_final t st t' st' id r :
  reachable t st -> GetJob st id = Ok r -> Terminal (Record_Status r) = true ->
  runs t st t' st' ->
  exists r', GetJob st' id = Ok r' /\ Record_Status r' = Record_Status r.
Proof.
  intros Hre%store_ok_reachable Hget Hterm Hruns. apply GetJob_Ok in Hget as (_&Hr&_).
  destruct (runs_row_le _ _ _ _ _ _ Hruns Hr) as (r'&Hr'&Hle).
  exists r'. split; [eapply store_ok_readable; [by eapply store_ok_runs|done]|].
  destruct Hle as (_&_&_&[|Hlt]); [done|].
  unfold status_rank in Hlt. by destruct (Record_Status r), (Record_Status r'); simpl in *; try lia.
Qed.

(** C2: Creation is idempotent under a clock that never goes back: after
    [CreateOrGet] has stored a request, the same request later returns the stored
    job as a duplicate whatever operations of the job table ran in between at
    times that do not decrease, and another request under its key is a conflict;
    neither changes the store.  ([clock_regression_bricks_job] shows that the
    clock condition is needed.) *)
Theorem create_is_idempotent t st now id req rec dup t' st' id' now' :
  reachable t st -> t <= now -> (CreateOrGet st id now req).1 = Ok (rec, dup) ->
  runs now (CreateOrGet st id now req).2 t' st' ->
  (exists rec', CreateOrGet st' id' now' req = (Ok (rec', true), st') /\ Record_ID rec' = Record_ID rec) /\
  (forall req', Request_Valid req' = true -> ProjectID req' = ProjectID req ->
     IdempotencyKey req' = IdempotencyKey req -> req' <> req ->
     CreateOrGet st' id' now' req' = (Err ErrJobIdempotencyConflict, st')).
Proof.
  intros Hre%store_ok_reachable Ht Hc Hruns.
  assert (store_ok now (CreateOrGet st id now req).2) as Hok
    by (eapply store_ok_step; [exact Ht|done|constructor]).
  assert (Request_Valid req = true /\ ProjectID req = projectID st /\ Record_Request rec = req /\
          jobs (CreateOrGet st id now req).2 !! Record_ID rec = Some rec) as (Hv&Hp&Hreq&Hstored).
  { revert Hc. unfold CreateOrGet. destruct (Request_Valid req) eqn:Hv; simpl; [|done].
    case_decide as Hp; simpl; [|done].
    destruct (findSharedJobByKey st _) as [[existing|]|] eqn:Hf; simpl; [| |done].
    - destruct (Equivalent _ req) eqn:He; simpl; [|done]. intros; simplify_eq.
      apply bool_decide_eq_true in He. split_and!; auto.
      unfold findSharedJobByKey in Hf. destruct (filter _ _) as [|row l] eqn:Hfl; [done|].
      simpl in Hf. unfold scanSharedJob in Hf. destruct (Record_Valid row); [|done]. simplify_eq/=.
      assert (rec ∈ filter (has_key (projectID st) (IdempotencyKey (Record_Request rec)))
                (map_to_list (jobs st)).*2) as Hin by (rewrite Hfl; by left).
      apply list_elem_of_filter in Hin as [_ Hin].
      apply list_elem_of_fmap in Hin as ([i y]&Heq&Hin). simpl in Heq. subst y.
      apply elem_of_map_to_list in Hin. destruct Hre as (_&Hrows&_).
      by destruct (Hrows _ _ Hin) as (->&_).
    - destruct (Record_Valid (queued_record _ _ _)); simpl; [|done].
      unfold insert_job. case_decide; simpl; [|done]. intros; simplify_eq/=.
      split_and!; auto. apply lookup_insert_eq. }
  destruct (runs_row_le _ _ _ _ _ _ Hruns Hstored) as (rec'&Hrec'&Hreq'&Hid'&_).
  pose proof (store_ok_runs _ _ _ _ Hok Hruns) as Hok'.
  assert (projectID st' = projectID st) as Hp'.
  { rewrite (runs_project _ _ _ _ Hruns).
    by destruct (CreateOrGet_change st id now req) as [-> _]. }
  assert (forall key, IdempotencyKey req = key -> findSharedJobByKey st' key = Ok (Some rec')) as Hfind.
  { intros key Hk. eapply store_ok_find; [done..|]. congruence. }
  split.
  - exists rec'. split; [|congruence]. unfold CreateOrGet. rewrite Hv. simpl.
    rewrite decide_True by congruence. rewrite (Hfind _ eq_refl). simpl.
    unfold Equivalent. by rewrite bool_decide_true by congruence.
  - intros req' Hv' Hpq Hk Hne. unfold CreateOrGet. rewrite Hv'. simpl.
    rewrite decide_True by congruence. rewrite (Hfind _ (eq_sym Hk)). simpl.
    unfold Equivalent. by rewrite bool_decide_false by congruence.
Qed.

(** Within one job the progress of the event log never decreases with the
    ordinal, and each entry is stored under its own job and ordinal. *)
Theorem event_log_monotone t st id o1 o2 e1 e2 :
  reachable t st -> job_events st !! (id, o1) = Some e1 -> job_events st !! (id, o2) = Some e2 ->
  o1 < o2 -> Ordinal e1 = o1 /\ Ordinal e2 = o2 /\ Progress e1 <= Progress e2.
Proof.
  intros (project&t0&_&Hruns) He1 He2 Hlt.
  assert (events_ok st) as [Hkey Hmono].
  { clear He1 He2. induction Hruns as [|? ? ? ? _ IH _ Hs]; [|by eapply events_ok_step].
    split; simpl; intros *; by rewrite lookup_empty. }
  destruct (Hkey _ _ _ He1) as (_&?&_), (Hkey _ _ _ He2) as (_&?&_). split_and!; eauto.
Qed.

(** A clock reading before the creation time defeats the compare-and-swap: the
    update commits, [Transition] reports an error, and the job cannot be read
    any more. *)
Theorem clock_regression_bricks_job t st now id r res :
  reachable t st -> GetJob st id = Ok r -> Record_Status r = Queued ->
  now < CreatedAt r -> option_forallb Result_Valid res = true ->
  let '(out, st') := Transition st now id Queued Running res (CancelGeneration r) in
  out = Err ErrStoredJob /\ GetJob st' id = Err ErrStoredJob.
Proof.
  intros Hre%store_ok_reachable Hget Hst Hnow Hres.
  apply GetJob_Ok in Hget as (Hid&Hr&Hp&Hv).
  assert (0 <= CancelGeneration r) as Hg by (apply Record_Valid_iff in Hv; lia).
  assert (row_of st id = Some r) as Hrow by by apply row_of_Some.
  assert (GetJob (set_jobs st (<[id := with_status r Running res now]> (jobs st))) id = Err ErrStoredJob) as Hbad.
  { unfold GetJob. rewrite Hid. simpl.
    assert (row_of (set_jobs st (<[id := with_status r Running res now]> (jobs st))) id =
            Some (with_status r Running res now)) as ->.
    { apply row_of_Some. simpl. by rewrite lookup_insert_eq. }
    unfold scanSharedJob. destruct (Record_Valid (with_status _ _ _ _)) eqn:E; [|done].
    apply Record_Valid_iff in E as (_&_&_&_&_&_&Hle&_). simpl in Hle. lia. }
  unfold Transition. rewrite Hid, Hres. simpl.
  destruct (Z.ltb_spec (CancelGeneration r) 0); [lia|]. simpl.
  rewrite Hrow. rewrite decide_True by done. by rewrite Hbad.
Qed.
End properties.

(** ** Concrete runs that exercise the properties *)
Module Examples.
Local Existing Instance canonical_uuid.

Definition project : ID := "018f6f00-0000-7000-8000-000000000001".
Definition job : ID := "018f6f00-0000-7000-8000-00000000000a".
Definition other : ID := "018f6f00-0000-7000-8000-00000000000b".
Definition hash : string := "00112233445566778899aabbccddeeff00112233445566778899aabbccddeeff".
Definition request : Request := mkRequest project "graph_sync" "" hash "key-1" hash.
Definition request2 : Request := mkRequest project "impact" "" hash "key-1" hash.
Definition created : Store := (CreateOrGet (empty_store project) job 5 request).2.
Definition record : JobRecord := queued_record job request 5.
Definition canceled : Store := (RequestCancellation created 7 job).2.
Definition canceled_record : JobRecord := with_cancellation record 7.
Definition finished : Store := (Transition canceled 9 job Queued Canceled None 1).2.
Definition finished_record : JobRecord := with_status canceled_record Canceled None 9.
Definition event1 : Event := mkEvent job 1 "QUEUED" 0 "" "" None 6.
Definition event2 : Event := mkEvent job 2 "PROJECTED" 40 "" "" None 7.
Definition logged : Store := (Append (Append created event1).2 event2).2.

Lemma created_reachable : reachable 5 created.
Proof.
  exists project, 1. split; [lia|]. eapply runs_step; [apply runs_refl|lia|].
  apply (step_create 5 (empty_store project) job request).
Defined.

Lemma canceled_runs : runs 5 created 7 canceled.
Proof. eapply runs_step; [apply runs_refl|lia|apply step_cancel]. Defined.

Lemma finished_runs : runs 7 canceled 9 finished.
Proof. eapply runs_step; [apply runs_refl|lia|apply step_transition]. Defined.

Lemma canceled_reachable : reachable 7 canceled.
Proof.
  destruct created_reachable as (p&t0&Ht&Hr). exists p, t0. split; [exact Ht|].
  exact (runs_trans _ _ _ _ _ _ Hr canceled_runs).
Defined.

Lemma finished_reachable : reachable 9 finished.
Proof.
  destruct canceled_reachable as (p&t0&Ht&Hr). exists p, t0. split; [exact Ht|].
  exact (runs_trans _ _ _ _ _ _ Hr finished_runs).
Defined.

Lemma logged_reachable : reachable 8 logged.
Proof.
  destruct created_reachable as (p&t0&Ht&Hr). exists p, t0. split; [exact Ht|].
  eapply (runs_step _ _ 7); [|lia|apply step_append].
  eapply runs_step; [exact Hr|lia|apply step_append].
Defined.

Lemma reachable_jobs_wellformed_witness :
  GetJob canceled job = Ok canceled_record /\ Record_Valid canceled_record = true /\
  CancelGeneration canceled_record <= 1 /\
  (Record_Status canceled_record = Succeeded ->
   CancelGeneration canceled_record = 0 /\ Record_Result canceled_record <> None).
Proof.
  apply (reachable_jobs_wellformed 7 canceled job canceled_record canceled_reachable).
  vm_compute. reflexivity.
Defined.

Lemma cancellation_prevents_success_witness :
  0 < CancelGeneration finished_record /\ Record_Status finished_record <> Succeeded.
Proof.
  apply (cancellation_prevents_success 7 canceled 9 finished job canceled_record finished_record
           canceled_reachable); [vm_compute; reflexivity|reflexivity|apply finished_runs|].
  vm_compute. reflexivity.
Defined.

Lemma terminal_is_final_witness :
  exists r', GetJob (RequestCancellation finished 12 job).2 job = Ok r' /\
    Record_Status r' = Record_Status finished_record.
Proof.
  apply (terminal_is_final 9 finished 12 _ job finished_record finished_reachable);
    [vm_compute; reflexivity|reflexivity|].
  eapply runs_step; [apply runs_refl|lia|apply step_cancel].
Defined.

Lemma create_is_idempotent_witness :
  (exists rec', CreateOrGet finished other 20 request = (Ok (rec', true), finished) /\
     Record_ID rec' = Record_ID record) /\
  (forall req', Request_Valid req' = true -> ProjectID req' = ProjectID request ->
     IdempotencyKey req' = IdempotencyKey request -> req' <> request ->
     CreateOrGet finished other 20 req' = (Err ErrJobIdempotencyConflict, finished)).
Proof.
  apply (create_is_idempotent 1 (empty_store project) 5 job request record false 9 finished other 20).
  - exists project, 1. split; [lia|apply runs_refl].
  - lia.
  - vm_compute. reflexivity.
  - exact (runs_trans _ _ _ _ _ _ canceled_runs finished_runs).
Defined.

Lemma event_log_monotone_witness :
  Ordinal event1 = 1 /\ Ordinal event2 = 2 /\ Progress event1 <= Progress event2.
Proof.
  apply (event_log_monotone 8 logged job 1 2 event1 event2 logged_reachable);
    [vm_compute; reflexivity|vm_compute; reflexivity|lia].
Defined.

Lemma clock_regression_bricks_job_witness :
  let '(out, st') := Transition created 4 job Queued Running None 0 in
  out = Err ErrStoredJob /\ GetJob st' job = Err ErrStoredJob.
Proof.
  apply (clock_regression_bricks_job 5 created 4 job record None created_reachable);
    [vm_compute; reflexivity|reflexivity|reflexivity|reflexivity].
Defined.
End Examples.
