(* ===== verification/JobRestore.v ===== *)
(** * internal/storage/sqlite/restore_reconciliation.go: the job table after a restore

    A restore installs an earlier database.  The original restore job is put back
    into it ([ReconcileRestoreJob]), and the work the backup had captured unfinished
    is closed ([ReconcileRestoredJobs]): one failed job and one last event each. *)
From S2P Require Import Prelude GoSort GoStrings Domain Job JobStore.
Open Scope Z_scope.

Inductive RestoreError := ErrRestoreReconciliationInvalid | ErrRestoreReconciliationConflict | ErrRestoreStorage (e : JobError).
(** A row of [restore_reconciliation]. *)
Record Reconciliation := mkReconciliation {
  Reconciled_Project : ID; Reconciled_RequestHash : string; Reconciled_Key : string; LastEventOrdinal : Z; JournalGeneration : Z;
  ReconciledAt : Time
}.

Section reconciliation.
Context `{UuidLib, TimeText}.

(** The restore job as it is put back: interrupted, with its own creation time. *)
Definition restored_record (original : JobRecord) (now : Time) : JobRecord :=
  mkRecord (Record_ID original) (Record_Request original) Interrupted None 0 None (CreatedAt original) now.
Definition put_back (st : Store) (original : JobRecord) (now : Time) : result Store RestoreError :=
  match row_of st (Record_ID original) with
  | Some row =>
      match scanSharedJob row with
      | Err e => Err (ErrRestoreStorage e)
      | Ok existing =>
          if negb (Equivalent (Record_Request existing) (Record_Request original)) ||
             negb (bool_decide (Kind (Record_Request existing) = "restore"%string))
          then Err ErrRestoreReconciliationConflict else Ok st
      end
  | None =>
      if bool_decide (filter (has_key (projectID st) (IdempotencyKey (Record_Request original))) (map_to_list (jobs st)).*2 = []) then
        match insert_job st (restored_record original now) with Some st' => Ok st' | None => Err (ErrRestoreStorage ErrConstraint) end
      else Err (ErrRestoreStorage ErrConstraint)
  end.
Definition ReconcileRestoreJob (st : Store) (table : gmap ID Reconciliation) (now : Time) (original : JobRecord)
    (lastOrdinal journalGeneration : Z) : result unit RestoreError * (Store * gmap ID Reconciliation) :=
  let id := Record_ID original in let request := Record_Request original in
  let row := mkReconciliation (ProjectID request) (RequestHash request) (IdempotencyKey request) lastOrdinal journalGeneration now in
  let unchanged e := (Err e, (st, table)) in
  if negb (Record_Valid original) || negb (bool_decide (Kind request = "restore"%string)) ||
     negb (bool_decide (ProjectID request = projectID st)) || (lastOrdinal <? 0) || (journalGeneration <? 1)
  then unchanged ErrRestoreReconciliationInvalid
  else
    match put_back st original now with
    | Err e => unchanged e
    | Ok st' =>
        match table !! id with
        | None => (Ok tt, (st', <[id := row]> table))
        | Some old =>
            if negb (bool_decide (Reconciled_Project old = ProjectID request)) then unchanged (ErrRestoreStorage ErrJobNotFound)
            else if negb (bool_decide (Reconciled_RequestHash old = RequestHash request)) ||
                    negb (bool_decide (Reconciled_Key old = IdempotencyKey request)) ||
                    (lastOrdinal <? LastEventOrdinal old) || (journalGeneration <? JournalGeneration old)
            then unchanged ErrRestoreReconciliationConflict
            else if (LastEventOrdinal old =? lastOrdinal) && (JournalGeneration old =? journalGeneration) then (Ok tt, (st', table))
            else (Ok tt, (st', <[id := mkReconciliation (Reconciled_Project old) (Reconciled_RequestHash old) (Reconciled_Key old)
                                       lastOrdinal journalGeneration now]> table))
        end
    end.

(** ** ReconcileRestoredJobs *)
Definition superseded_phase : string := "superseded_by_restore".
Definition unfinished (st : Store) (coordinator : ID) (entry : ID * JobRecord) : Prop :=
  ProjectID (Record_Request entry.2) = projectID st /\ entry.1 <> coordinator /\
  (Record_Status entry.2 = Queued \/ Record_Status entry.2 = Running \/ Record_Status entry.2 = Interrupted).
#[global] Instance unfinished_dec st coordinator entry : Decision (unfinished st coordinator entry).
Proof. unfold unfinished. apply _. Defined.
Definition candidates (st : Store) (coordinator : ID) : list (ID * JobRecord) :=
  sort_by (then_by (fun entry => rfc3339nano (CreatedAt entry.2)) String.ltb (less_on fst String.ltb))
    (filter (unfinished st coordinator) (map_to_list (jobs st))).
(** The last event of a job, by ordinal. *)
Definition last_event (st : Store) (id : ID) : option Event := foldr later None (filter (fun e => JobID e = id) (map_to_list (job_events st)).*2).
Definition superseding_event (st : Store) (now : Time) (id : ID) : Event :=
  let '(ordinal, progress) := match last_event st id with Some e => (Ordinal e, Progress e) | None => (0, 0) end in
  mkEvent id (ordinal + 1) superseded_phase progress "" "JOB_SUPERSEDED_BY_RESTORE" None now.
Definition supersede (now : Time) (st : Store) (entry : ID * JobRecord) : result Store RestoreError :=
  let '(id, seen) := entry in
  let event := superseding_event st now id in
  match job_events st !! (id, Ordinal event), row_of st id with
  | None, Some row =>
      if bool_decide (Record_Status row = Record_Status seen) then
        Ok (mkStore (projectID st) (config_revisions st) (<[id := with_status row Failed (Record_Result row) now]> (jobs st))
              (<[(id, Ordinal event) := event]> (job_events st)) (publication_started st))
      else Err ErrRestoreReconciliationConflict
  | Some _, _ => Err (ErrRestoreStorage ErrConstraint)
  | None, None => Err ErrRestoreReconciliationConflict
  end.
Definition ReconcileRestoredJobs (st : Store) (now : Time) (coordinator : ID) : result unit RestoreError * Store :=
  if negb (ID_Valid coordinator) then (Err ErrRestoreReconciliationInvalid, st)
  else if negb (forallb (fun entry => ID_Valid entry.1) (candidates st coordinator)) then (Err ErrRestoreReconciliationConflict, st)
  else match foldr_result (supersede now) st (candidates st coordinator) with
       | Ok st' => (Ok tt, st')
       | Err e => (Err e, st)
       end.
End reconciliation.

(** ** Facts *)
Section facts.
Context `{UuidLib, TimeText}.

(** The status of a job leaves "unfinished" for good. *)
Lemma supersede_inv now st id seen st' : supersede now st (id, seen) = Ok st' ->
  exists row, jobs st !! id = Some row /\ ProjectID (Record_Request row) = projectID st /\ Record_Status row = Record_Status seen /\
    job_events st !! (id, Ordinal (superseding_event st now id)) = None /\
    st' = mkStore (projectID st) (config_revisions st) (<[id := with_status row Failed (Record_Result row) now]> (jobs st))
            (<[(id, Ordinal (superseding_event st now id)) := superseding_event st now id]> (job_events st)) (publication_started st).
Proof.
  unfold supersede. destruct (job_events st !! _) eqn:Hn; [done|]. destruct (row_of st id) as [row|] eqn:Hrow; [|done].
  case_bool_decide; [|done]. intros [= <-]. apply row_of_Some in Hrow as [? ?]. by exists row.
Qed.
Lemma superseding_event_fields st now id :
  JobID (superseding_event st now id) = id /\ Phase (superseding_event st now id) = superseded_phase.
Proof. unfold superseding_event. by destruct (last_event st id). Qed.
(** The closing event comes after every other, next to the last. *)
Lemma superseding_event_last st now id : events_ok st -> is_Some (row_of st id) ->
  let e := superseding_event st now id in
  (forall o p, job_events st !! (id, o) = Some p -> o < Ordinal e /\ Progress p <= Progress e) /\
  ((Ordinal e = 1 /\ Progress e = 0) \/ exists p, job_events st !! (id, Ordinal e - 1) = Some p /\ Progress e = Progress p /\ 0 < Ordinal p).
Proof.
  intros Hok [row Hrow]. pose proof Hok as [Hkey Hmono]. cbv zeta. unfold superseding_event.
  assert (latest_row st id = last_event st id) as Heq by (unfold latest_row; by rewrite Hrow).
  destruct (last_event st id) as [b|] eqn:Hb; cbn [Ordinal Progress].
  - assert (b ∈ filter (fun e => JobID e = id) (map_to_list (job_events st)).*2) as Hin.
    { unfold last_event in Hb. pose proof (foldr_later_max (filter (fun e => JobID e = id) (map_to_list (job_events st)).*2)) as Hm.
      rewrite Hb in Hm. by destruct Hm. }
    apply list_elem_of_filter in Hin as [Hj ([[i o] y] & -> & Hin)%list_elem_of_fmap]. apply elem_of_map_to_list in Hin. simpl in *.
    destruct (Hkey _ _ _ Hin) as (Hi & <- & Hv). assert (i = id) as -> by congruence. split.
    + intros o p Hp. destruct (latest_row_max st id o p Hok ltac:(eauto) Hp) as (b' & Hb' & _ & Hl & Hle).
      assert (b' = y) as -> by congruence. split; [lia|]. destruct (decide (o = Ordinal y)) as [->|]; [assert (p = y) as -> by congruence; lia|].
      eapply Hmono; [exact Hp|exact Hin|lia].
    + right. exists y. replace (Ordinal y + 1 - 1) with (Ordinal y) by lia. split_and!; [done|done|].
      unfold Event_Valid in Hv. rewrite !andb_true_iff in Hv. destruct Hv as [[[[[[[[[[[_ Hv] _] _] _] _] _] _] _] _] _] _]. lia.
  - split; [|by left]. intros o p Hp. destruct (latest_row_max st id o p Hok ltac:(eauto) Hp) as (b & Hl & _). congruence.
Qed.
Lemma supersede_events_ok now st id seen st' : events_ok st -> ID_Valid id = true -> now <> 0 ->
  supersede now st (id, seen) = Ok st' -> events_ok st'.
Proof.
  intros Hok Hid Hnow (row & Hrow & Hp & _ & Hn & ->)%supersede_inv.
  destruct (superseding_event_last st now id Hok) as [Hlast Hprev]; [exists row; by apply row_of_Some|].
  destruct (superseding_event_fields st now id) as [Hj Hph]. pose proof Hok as [Hkey Hmono].
  assert (Event_Valid (superseding_event st now id) = true) as Hv.
  { assert (0 < Ordinal (superseding_event st now id) /\ 0 <= Progress (superseding_event st now id) <= 100) as (Ho & Hp0 & Hp1).
    { destruct Hprev as [[-> ->]|(p & Hl & -> & Hpos)]; [lia|]. destruct (Hkey _ _ _ Hl) as (_ & Ho & Hv).
      unfold Event_Valid in Hv. rewrite !andb_true_iff, !Z.leb_le in Hv. lia. }
    revert Ho Hp0 Hp1. unfold superseding_event. destruct (match last_event st id with Some _ => _ | None => _ end) as [o p]. cbn [Ordinal Progress].
    intros Ho Hp0 Hp1. unfold Event_Valid. cbn [JobID Ordinal Phase Progress Warning SafeError Event_Result Event_CreatedAt].
    rewrite Hid, (proj2 (Z.ltb_lt _ _) Ho), (proj2 (Z.leb_le _ _) Hp0), (proj2 (Z.leb_le _ _) Hp1). unfold IsZero.
    rewrite (proj2 (Z.eqb_neq _ _) Hnow). by vm_compute. }
  split; cbn [job_events].
  - intros i o e. rewrite lookup_insert. case_decide as Hk; [|by apply Hkey]. intros [= <-]. injection Hk as <- <-. done.
  - intros i o1 o2 e1 e2. rewrite !lookup_insert. repeat case_decide; intros; simplify_eq; eauto; try lia.
    + destruct (Hlast o2 e2); [done|]. lia.
    + by apply (Hlast o1).
Qed.

(** After the reconciliation no job but the coordinator's is unfinished. *)
Lemma supersede_others now st entry st' i : supersede now st entry = Ok st' -> i <> entry.1 -> jobs st' !! i = jobs st !! i.
Proof. destruct entry as [id seen]. intros (row & _ & _ & _ & _ & ->)%supersede_inv Hne. cbn in *. by rewrite lookup_insert_ne. Qed.
Lemma elem_of_candidates st coordinator id r : (id, r) ∈ candidates st coordinator <->
  jobs st !! id = Some r /\ unfinished st coordinator (id, r).
Proof. unfold candidates. rewrite elem_of_sort_by, list_elem_of_filter, elem_of_map_to_list. tauto. Qed.
Theorem restored_jobs_are_over st now coordinator st' id r : ReconcileRestoredJobs st now coordinator = (Ok tt, st') ->
  jobs st' !! id = Some r -> ~ unfinished st' coordinator (id, r).
Proof.
  unfold ReconcileRestoredJobs. case_guard; [done|]. case_guard; [done|].
  destruct (foldr_result (supersede now) st (candidates st coordinator)) as [s|] eqn:Hf; [|done]. intros [= <-].
  assert (projectID s = projectID st /\ forall i x, jobs s !! i = Some x -> (i ∈ (candidates st coordinator).*1 /\ Record_Status x = Failed) \/
            (i ∉ (candidates st coordinator).*1 /\ jobs st !! i = Some x)) as [Hp Hall].
  { eapply (foldr_result_inv (supersede now) (fun l s => projectID s = projectID st /\ forall i x, jobs s !! i = Some x ->
      (i ∈ l.*1 /\ Record_Status x = Failed) \/ (i ∉ l.*1 /\ jobs st !! i = Some x))); [..|exact Hf].
    - split; [done|]. intros i x Hx. right. split; [by intros ?%elem_of_nil|done].
    - intros l [i0 seen] s1 s2 [Hp1 Hl] Hs. pose proof Hs as (row & Hrow & _ & _ & _ & E)%supersede_inv. split; [by subst s2|].
      intros i x Hx. rewrite fmap_app, elem_of_app. cbn. rewrite list_elem_of_singleton. destruct (decide (i = i0)) as [->|Hne].
      + left. split; [by right|]. subst s2. cbn in Hx. rewrite lookup_insert_eq in Hx. by injection Hx as <-.
      + rewrite (supersede_others _ _ _ _ i Hs Hne) in Hx. destruct (Hl i x Hx) as [[? ?]|[? ?]]; [left; auto|right; naive_solver]. }
  intros Hr (Hproj & Hne & Hstatus). cbn in *. destruct (Hall id r Hr) as [[_ Hs]|[Hnot Hst]]; [rewrite Hs in Hstatus; naive_solver congruence|].
  apply Hnot, list_elem_of_fmap. exists (id, r). split; [done|]. apply elem_of_candidates. split; [done|]. unfold unfinished. by rewrite <- Hp.
Qed.
End facts.
