(* ===== verification/GraphSCC.v ===== *)
(** * Strongly connected components as internal/validation computes them

    [StaticFormulaCycles] (graph.go) and [stringSCC] (safety.go) hold the same
    closure [visit], Tarjan's algorithm over string nodes with low links.  The
    Go maps default to zero, so index 0 means unvisited; the slice [stack] is a
    list with its top first; [onStack] is the set of the keys mapped to true.
    The recursion takes fuel, one unit per nested call: every nested call visits
    a node that was unvisited, so the number of nodes plus one is enough
    ([visit_spec]). *)
From S2P Require Import Prelude GoSort.
Open Scope Z_scope.

Record scc_state := mkScc {
  index : Z; indices : gmap string Z; low : gmap string Z;
  stack : list string; onStack : gset string; components : list (list string)
}.
Definition scc_start : scc_state := mkScc 0 ∅ ∅ [] ∅ [].

Definition num (s : scc_state) (x : string) : Z := default 0 (indices s !! x).
Definition low_of (s : scc_state) (x : string) : Z := default 0 (low s !! x).

Definition enter (node : string) (s : scc_state) : scc_state :=
  mkScc (index s + 1) (<[node := index s + 1]> (indices s)) (<[node := index s + 1]> (low s))
    (node :: stack s) ({[node]} ∪ onStack s) (components s).
Definition set_low (node : string) (v : Z) (s : scc_state) : scc_state :=
  mkScc (index s) (indices s) (<[node := v]> (low s)) (stack s) (onStack s) (components s).

(** The loop that pops the stack down to [node]; [None] is the index panic of
    an empty stack. *)
Fixpoint pop_to (node : string) (stack : list string) : option (list string * list string) :=
  match stack with
  | [] => None
  | last :: rest =>
      if decide (last = node) then Some ([last], rest)
      else '(component, rest) ← pop_to node rest; Some (last :: component, rest)
  end.

Definition close (node : string) (s : scc_state) : option scc_state :=
  '(component, rest) ← pop_to node (stack s);
  Some (mkScc (index s) (indices s) (low s) rest (onStack s ∖ list_to_set component)
          (components s ++ [sort_strings component])).

Section scc.
Context (adj : string -> list string).

(** The loop over the successors of [node]. *)
Fixpoint successors (visit : string -> scc_state -> option scc_state) (node : string) (nexts : list string)
    (s : scc_state) : option scc_state :=
  match nexts with
  | [] => Some s
  | next :: nexts =>
      if num s next =? 0 then
        s ← visit next s;
        successors visit node nexts (if low_of s next <? low_of s node then set_low node (low_of s next) s else s)
      else
        successors visit node nexts
          (if bool_decide (next ∈ onStack s) && (num s next <? low_of s node)
           then set_low node (num s next) s else s)
  end.

Fixpoint visit (fuel : nat) (node : string) (s : scc_state) : option scc_state :=
  match fuel with
  | O => None
  | S fuel =>
      s ← successors (visit fuel) node (adj node) (enter node s);
      if negb (low_of s node =? num s node) then Some s else close node s
  end.

(** The loop over the sorted keys. *)
Fixpoint visit_all (fuel : nat) (keys : list string) (s : scc_state) : option scc_state :=
  match keys with
  | [] => Some s
  | node :: keys =>
      s ← (if num s node =? 0 then visit fuel node s else Some s);
      visit_all fuel keys s
  end.

Definition scc (keys : list string) : option (list (list string)) :=
  components <$> visit_all (S (length keys)) keys scc_start.

(** ** Correctness *)
Definition edge (x y : string) : Prop := y ∈ adj x.
Definition reach : relation string := rtc edge.

(** A list is a strongly connected component: the sorted class of its members. *)
Definition is_scc (c : list string) : Prop :=
  c <> [] /\ (exists l, c = sort_strings l) /\ forall x, x ∈ c -> forall y, y ∈ c <-> reach x y /\ reach y x.

Section invariant.
(** The nodes: closed under successors. *)
Context (U : gset string) (U_closed : forall x y, x ∈ U -> edge x y -> y ∈ U).

(** What holds between calls, where [G] are the nodes whose calls are open. *)
Record wf (G : list string) (s : scc_state) : Prop := {
  wf_num x : 0 <= num s x <= index s;
  wf_universe x : num s x <> 0 -> x ∈ U;
  wf_sorted : StronglySorted (fun x y => num s y < num s x) (stack s);
  wf_stack x : x ∈ stack s -> num s x <> 0;
  wf_onStack x : x ∈ onStack s <-> x ∈ stack s;
  wf_open x : x ∈ G -> x ∈ stack s;
  wf_closed x y : num s x <> 0 -> x ∉ G -> edge x y -> num s y <> 0;
  wf_up x y : x ∈ stack s -> y ∈ stack s -> num s x <= num s y -> reach x y;
  wf_down y : y ∈ stack s -> exists x, x ∈ G /\ num s x <= num s y /\ reach y x;
  wf_done x : num s x <> 0 -> x ∈ stack s \/ exists c, c ∈ components s /\ x ∈ c;
  wf_component c : c ∈ components s -> is_scc c;
  wf_settled c x : c ∈ components s -> x ∈ c -> num s x <> 0 /\ x ∉ stack s;
  wf_apart : NoDup (concat (components s))
}.

(** A later state keeps what a visited node has. *)
Definition extends (s s' : scc_state) : Prop :=
  index s <= index s' /\ forall x, num s x <> 0 -> num s' x = num s x /\ low_of s' x = low_of s x.

Record visited_from (G : list string) (node : string) (s s' : scc_state) : Prop := {
  vf_wf : wf G s';
  vf_extends : extends s s';
  vf_visited : num s' node <> 0;
  vf_low : index s < low_of s' node \/ exists y, y ∈ stack s /\ num s y = low_of s' node /\ reach node y;
  vf_stack : exists new, stack s' = new ++ stack s /\
    forall x, x ∈ new -> index s < num s' x /\ forall y, y ∈ stack s -> edge x y -> low_of s' node <= num s y
}.

(** The state inside the call for [node] that began in [s0], when the
    successors [l] are processed. *)
Record in_call (G : list string) (node : string) (s0 : scc_state) (l : list string) (s : scc_state) : Prop := {
  ic_wf : wf (node :: G) s;
  ic_extends : extends s0 s;
  ic_num : num s node = index s0 + 1;
  ic_low : low_of s node <= num s node;
  ic_witness : low_of s node = num s node \/ exists y, y ∈ stack s0 /\ num s0 y = low_of s node /\ reach node y;
  ic_stack : exists new, stack s = new ++ node :: stack s0 /\
    forall x, x ∈ new -> forall y, y ∈ stack s0 -> edge x y -> low_of s node <= num s0 y;
  ic_done y : y ∈ l -> num s y <> 0 /\ (y ∈ stack s0 -> low_of s node <= num s0 y)
}.

Definition unvisited (s : scc_state) : gset string := filter (fun x => num s x = 0) U.
Definition visit_ok (fuel : nat) : Prop := forall G node s,
  wf G s -> num s node = 0 -> node ∈ U -> (forall g, g ∈ G -> reach g node) -> (size (unvisited s) <= fuel)%nat ->
  exists s', visit fuel node s = Some s' /\ visited_from G node s s'.

(** ** Basic facts *)
Lemma elem_of_concat {A : Type} (x : A) (ls : list (list A)) : x ∈ concat ls <-> exists l, x ∈ l /\ l ∈ ls.
Proof.
  rewrite list_elem_of_In, in_concat. split; intros (l & Hl & Hx); exists l; rewrite !list_elem_of_In in *; done.
Qed.
Lemma wf_set_low G node v s : wf G s -> wf G (set_low node v s).
Proof. intros []. by constructor. Qed.

Lemma num_enter node s x : num (enter node s) x = if decide (x = node) then index s + 1 else num s x.
Proof. unfold num, enter. simpl. destruct (decide (x = node)) as [->|]; by simplify_map_eq. Qed.
Lemma low_enter node s x : low_of (enter node s) x = if decide (x = node) then index s + 1 else low_of s x.
Proof. unfold low_of, enter. simpl. destruct (decide (x = node)) as [->|]; by simplify_map_eq. Qed.
Lemma low_set_low node v s x : low_of (set_low node v s) x = if decide (x = node) then v else low_of s x.
Proof. unfold low_of, set_low. simpl. destruct (decide (x = node)) as [->|]; by simplify_map_eq. Qed.

Lemma extends_refl s : extends s s.
Proof. split; [lia|done]. Qed.
Lemma extends_trans s1 s2 s3 : extends s1 s2 -> extends s2 s3 -> extends s1 s3.
Proof.
  intros [Hi12 H12] [Hi23 H23]. split; [lia|]. intros x Hx. destruct (H12 x Hx) as [Hn Hl].
  destruct (H23 x) as [Hn' Hl']; [by rewrite Hn|]. by rewrite Hn', Hl'.
Qed.

(** The members of the stack below a node are exactly those with a lower number. *)
Lemma stack_below G s new node old x :
  wf G s -> stack s = new ++ node :: old -> x ∈ old -> num s x < num s node.
Proof.
  intros Hwf Hs Hx. pose proof (wf_sorted _ _ Hwf) as Hss. rewrite Hs in Hss.
  apply StronglySorted_app in Hss as (_ & _ & Hss). inversion Hss as [|? ? _ Hf]; subst.
  rewrite Forall_forall in Hf. auto.
Qed.
Lemma stack_above G s new node old x :
  wf G s -> stack s = new ++ node :: old -> x ∈ new -> num s node < num s x.
Proof.
  intros Hwf Hs Hx. pose proof (wf_sorted _ _ Hwf) as Hss. rewrite Hs in Hss.
  apply StronglySorted_app in Hss as (Hsep & _ & _). apply Hsep; [done|]. by left.
Qed.
Lemma StronglySorted_impl_in {A : Type} (R S : relation A) l :
  StronglySorted R l -> (forall x y, x ∈ l -> y ∈ l -> R x y -> S x y) -> StronglySorted S l.
Proof.
  induction 1 as [|x l Hl IH Hf]; intros Himp; constructor.
  - apply IH. intros y z Hy Hz. apply Himp; by right.
  - rewrite Forall_forall in Hf |- *. intros y Hy. apply Himp; [by left|by right|auto].
Qed.
Lemma wf_NoDup G s : wf G s -> NoDup (stack s).
Proof.
  intros Hwf. pose proof (wf_sorted _ _ Hwf) as Hss. clear Hwf. induction Hss as [|x l Hl IH Hf]; constructor; [|done].
  intros Hx. rewrite Forall_forall in Hf. specialize (Hf x Hx). lia.
Qed.

Lemma unvisited_size s s' node :
  extends s s' -> node ∈ U -> num s node = 0 -> num s' node <> 0 -> (size (unvisited s') < size (unvisited s))%nat.
Proof.
  intros [_ He] HU Hn Hn'. apply subset_size. split.
  - intros x. unfold unvisited. rewrite !elem_of_filter. intros [Hx Hu]. split; [|done].
    destruct (decide (num s x = 0)) as [|Hne]; [done|]. destruct (He x Hne) as [Heq _]. congruence.
  - intros Hsub. specialize (Hsub node). unfold unvisited in Hsub. rewrite !elem_of_filter in Hsub. tauto.
Qed.
Lemma unvisited_mono s s' : extends s s' -> (size (unvisited s') <= size (unvisited s))%nat.
Proof.
  intros [_ He]. apply subseteq_size. intros x. unfold unvisited. rewrite !elem_of_filter. intros [Hx Hu].
  split; [|done]. destruct (decide (num s x = 0)) as [|Hne]; [done|]. destruct (He x Hne) as [Heq _]. congruence.
Qed.

Lemma pop_to_spec node new old : node ∉ new -> pop_to node (new ++ node :: old) = Some (new ++ [node], old).
Proof.
  induction new as [|x new IH]; intros Hn; simpl.
  - by rewrite decide_True.
  - apply not_elem_of_cons in Hn as [Hx Hn]. rewrite decide_False by congruence. by rewrite IH.
Qed.

(** ** Opening a call *)
Lemma enter_wf G node s :
  wf G s -> num s node = 0 -> node ∈ U -> (forall g, g ∈ G -> reach g node) -> wf (node :: G) (enter node s).
Proof.
  intros Hwf Hn HU Hg. assert (node ∉ stack s) as Hout by (intros ?%(wf_stack _ _ Hwf); done).
  assert (0 <= index s) as Hi by (pose proof (wf_num _ _ Hwf node); lia).
  assert (forall x, x ∈ stack s -> reach x node) as Hup.
  { intros x (g & Hgin & _ & Hr)%(wf_down _ _ Hwf). etrans; [exact Hr|auto]. }
  assert (forall x, x <> node -> num (enter node s) x = num s x) as Hother.
  { intros x Hx. by rewrite num_enter, decide_False. }
  assert (num (enter node s) node = index s + 1) as Hself by (by rewrite num_enter, decide_True).
  assert (forall x, x ∈ stack s -> num (enter node s) x = num s x) as Hold.
  { intros x Hx. apply Hother. by intros ->. }
  constructor.
  - intros x. rewrite num_enter. simpl. pose proof (wf_num _ _ Hwf x). case_goal; lia.
  - intros x. rewrite num_enter. case_goal; [by subst|]. apply (wf_universe _ _ Hwf).
  - simpl. constructor.
    + pose proof (wf_sorted _ _ Hwf) as Hss. eapply StronglySorted_impl_in; [exact Hss|].
      intros x y Hx Hy Hlt. by rewrite !Hold.
    + apply Forall_forall. intros x Hx. rewrite Hold, Hself by done. pose proof (wf_num _ _ Hwf x). lia.
  - intros x [->|Hx]%elem_of_cons; [rewrite Hself; lia|]. rewrite Hold by done. by apply (wf_stack _ _ Hwf).
  - intros x. simpl. pose proof (wf_onStack _ _ Hwf x). set_solver.
  - intros x [->|Hx]%elem_of_cons; [by left|right]. by apply (wf_open _ _ Hwf).
  - intros x y Hx [Hne Hout']%not_elem_of_cons He. rewrite Hother in Hx by done.
    rewrite num_enter. case_goal; [lia|]. by eapply (wf_closed _ _ Hwf).
  - intros x y Hx Hy. simpl in Hx, Hy. apply elem_of_cons in Hx as [->|Hx], Hy as [->|Hy]; intros Hle.
    + apply rtc_refl.
    + rewrite Hself, Hold in Hle by done. pose proof (wf_num _ _ Hwf y). lia.
    + auto.
    + rewrite !Hold in Hle by done. by apply (wf_up _ _ Hwf).
  - intros y [->|Hy]%elem_of_cons.
    + exists node. split_and!; [by left|lia|apply rtc_refl].
    + destruct (wf_down _ _ Hwf y Hy) as (x & Hx & Hle & Hr). exists x. split_and!; [by right| |done].
      rewrite !Hold by (done || by apply (wf_open _ _ Hwf)). done.
  - intros x. rewrite num_enter. case_goal; [subst; intros _; left; by left|]. intros Hx.
    destruct (wf_done _ _ Hwf x Hx) as [?|?]; [left; by right|by right].
  - apply (wf_component _ _ Hwf).
  - intros c x Hc Hx. destruct (wf_settled _ _ Hwf c x Hc Hx) as [Hv Hs].
    assert (x <> node) as Hne by congruence. rewrite Hother by done. split; [done|].
    simpl. by apply not_elem_of_cons.
  - apply (wf_apart _ _ Hwf).
Qed.

Lemma enter_in_call G node s :
  wf G s -> num s node = 0 -> node ∈ U -> (forall g, g ∈ G -> reach g node) -> in_call G node s [] (enter node s).
Proof.
  intros Hwf Hn HU Hg. constructor.
  - by apply enter_wf.
  - split; [simpl; lia|]. intros x Hx. rewrite num_enter, low_enter, !decide_False by congruence. done.
  - by rewrite num_enter, decide_True.
  - rewrite num_enter, low_enter, !decide_True by done. lia.
  - left. by rewrite num_enter, low_enter, !decide_True.
  - exists []. split; [done|]. by intros x ?%elem_of_nil.
  - by intros y ?%elem_of_nil.
Qed.

(** ** One successor *)
Lemma in_call_stack G node s0 l s : in_call G node s0 l s -> node ∈ stack s /\ forall x, x ∈ stack s0 -> x ∈ stack s.
Proof. intros Hic. destruct (ic_stack _ _ _ _ _ Hic) as (new & -> & _). set_solver. Qed.
Lemma in_call_old G node s0 l s x : wf G s0 -> in_call G node s0 l s -> x ∈ stack s0 -> num s x = num s0 x.
Proof. intros Hwf Hic Hx. apply (ic_extends _ _ _ _ _ Hic), (wf_stack _ _ Hwf x Hx). Qed.

(** A node on the stack below [node]'s number was there before the call. *)
Lemma in_call_below G node s0 l s y :
  in_call G node s0 l s -> y ∈ stack s -> num s y < num s node -> y ∈ stack s0.
Proof.
  intros Hic Hy Hlt. destruct (ic_stack _ _ _ _ _ Hic) as (new & Hst & _).
  rewrite Hst in Hy. apply elem_of_app in Hy as [Hy|[->|Hy]%elem_of_cons]; [|lia|done].
  pose proof (stack_above _ _ _ _ _ _ (ic_wf _ _ _ _ _ Hic) Hst Hy). lia.
Qed.

(** Lowering the link of [node] to [v]. *)
Lemma in_call_lower G node s0 l s v :
  num s0 node = 0 -> in_call G node s0 l s -> v <= low_of s node ->
  (v = low_of s node \/ exists y, y ∈ stack s0 /\ num s0 y = v /\ reach node y) ->
  in_call G node s0 l (set_low node v s).
Proof.
  intros Hfresh [Hwf [Hidx Hext] Hnum Hlow Hwit Hst Hdone] Hle Hv.
  assert (low_of (set_low node v s) node = v) as Hself by (by rewrite low_set_low, decide_True).
  constructor.
  - by apply wf_set_low.
  - split; [done|]. intros x Hx. rewrite low_set_low, decide_False by congruence. apply (Hext x Hx).
  - exact Hnum.
  - rewrite Hself. change (num (set_low node v s) node) with (num s node). lia.
  - rewrite Hself. change (num (set_low node v s) node) with (num s node). destruct Hv as [->|Hv]; [done|by right].
  - rewrite Hself. destruct Hst as (new & Hst & Hnew). exists new. split; [done|]. intros x Hx y Hy He.
    specialize (Hnew x Hx y Hy He). lia.
  - rewrite Hself. intros y Hy. destruct (Hdone y Hy) as [Hn Hl]. split; [done|]. intros Hin. specialize (Hl Hin). lia.
Qed.

Lemma in_call_push G node s0 l s next :
  in_call G node s0 l s -> num s next <> 0 -> (next ∈ stack s0 -> low_of s node <= num s0 next) ->
  in_call G node s0 (next :: l) s.
Proof. intros [] Hn Hl. constructor; [done..|]. intros y [->|Hy]%elem_of_cons; auto. Qed.

(** A visited successor. *)
Lemma step_visited G node s0 l s next :
  wf G s0 -> num s0 node = 0 -> in_call G node s0 l s -> edge node next -> num s next <> 0 ->
  in_call G node s0 (next :: l)
    (if bool_decide (next ∈ onStack s) && (num s next <? low_of s node) then set_low node (num s next) s else s).
Proof.
  intros Hwf Hfresh Hic He Hn. pose proof (in_call_old _ _ _ _ _ next Hwf Hic) as Hold.
  destruct (bool_decide (next ∈ onStack s) && (num s next <? low_of s node)) eqn:E.
  - apply andb_prop in E as [Hon%bool_decide_eq_true Hlt%Z.ltb_lt].
    apply (wf_onStack _ _ (ic_wf _ _ _ _ _ Hic)) in Hon. pose proof (ic_low _ _ _ _ _ Hic).
    assert (next ∈ stack s0) as Hin by (eapply in_call_below; [exact Hic|done|lia]).
    apply in_call_push; [apply in_call_lower; [done|done|lia|]|done|].
    + right. exists next. split_and!; [done|by rewrite Hold|by apply rtc_once].
    + intros _. rewrite low_set_low, decide_True by done. rewrite Hold; [lia|done].
  - apply in_call_push; [done..|]. intros Hin. rewrite <- (Hold Hin).
    assert (next ∈ onStack s) as Hon.
    { apply (wf_onStack _ _ (ic_wf _ _ _ _ _ Hic)). by apply (in_call_stack _ _ _ _ _ Hic). }
    rewrite bool_decide_true in E by done. by apply Z.ltb_ge in E.
Qed.

(** A successor visited by a nested call. *)
Lemma nested_in_call G node s0 l s s' next (links : gmap string Z) :
  wf G s0 -> num s0 node = 0 -> in_call G node s0 l s -> edge node next -> num s next = 0 ->
  visited_from (node :: G) next s s' ->
  let s'' := mkScc (index s') (indices s') links (stack s') (onStack s') (components s') in
  low_of s'' node = Z.min (low_of s' next) (low_of s' node) ->
  (forall x, x <> node -> low_of s'' x = low_of s' x) ->
  in_call G node s0 (next :: l) s''.
Proof.
  intros Hwf Hfresh Hic He Hnew0 [Hwf' Hext Hv Hl (new' & Hst' & Hnew')] s'' Hm Hsame.
  pose proof (ic_num _ _ _ _ _ Hic) as Hnum. pose proof (wf_num _ _ Hwf node) as H0.
  assert (num s node <> 0) as Hvis by lia. pose proof Hext as [Hidx Hkeep]. destruct (Hkeep node Hvis) as [Hnn Hll].
  pose proof (wf_num _ _ (ic_wf _ _ _ _ _ Hic) node) as Hle. pose proof (ic_low _ _ _ _ _ Hic) as Hlow.
  constructor; change (num s'') with (num s'); rewrite ?Hm.
  - destruct Hwf'. by constructor.
  - pose proof (extends_trans _ _ _ (ic_extends _ _ _ _ _ Hic) Hext) as [Hi Hk]. split; [done|]. intros x Hx.
    rewrite Hsame by congruence. apply (Hk x Hx).
  - congruence.
  - lia.
  - destruct (Z.le_gt_cases (low_of s' node) (low_of s' next)) as [Hge|Hlt].
    { rewrite Z.min_r, Hll, Hnn by done. apply (ic_witness _ _ _ _ _ Hic). }
    destruct Hl as [Hl|(y & Hy & Hny & Hr)]; [lia|]. right. exists y.
    assert (y ∈ stack s0) as Hy0 by (eapply in_call_below; [exact Hic|done|lia]).
    split_and!; [done| |by eapply rtc_l].
    rewrite <- (in_call_old _ _ _ _ _ y Hwf Hic Hy0). lia.
  - destruct (ic_stack _ _ _ _ _ Hic) as (new & Hst & Hnew). exists (new' ++ new).
    simpl. rewrite Hst', Hst, <- app_assoc. split; [done|].
    intros x [Hx|Hx]%elem_of_app y Hy Hxy.
    + destruct (Hnew' x Hx) as [_ Hb]. pose proof (Hb y (proj2 (in_call_stack _ _ _ _ _ Hic) y Hy) Hxy) as Hb'.
      rewrite (in_call_old _ _ _ _ _ y Hwf Hic Hy) in Hb'. lia.
    + specialize (Hnew x Hx y Hy Hxy). lia.
  - intros y [->|Hy]%elem_of_cons.
    + split; [done|]. intros Hin. pose proof (wf_stack _ _ Hwf next Hin).
      rewrite (in_call_old _ _ _ _ _ next Hwf Hic Hin) in Hnew0. done.
    + destruct (ic_done _ _ _ _ _ Hic y Hy) as [Hyv Hyl]. destruct (Hkeep y Hyv) as [Hyn _].
      split; [congruence|]. intros Hin. specialize (Hyl Hin). lia.
Qed.

Lemma step_nested G node s0 l s s' next :
  wf G s0 -> num s0 node = 0 -> in_call G node s0 l s -> edge node next -> num s next = 0 ->
  visited_from (node :: G) next s s' ->
  in_call G node s0 (next :: l) (if low_of s' next <? low_of s' node then set_low node (low_of s' next) s' else s').
Proof.
  intros Hwf Hfresh Hic He Hn Hv. destruct (low_of s' next <? low_of s' node) eqn:E.
  - apply Z.ltb_lt in E. apply (nested_in_call _ _ _ _ s s' next); [done..| |].
    + unfold low_of at 1. simpl. rewrite lookup_insert_eq. simpl. lia.
    + intros x Hx. unfold low_of at 1. simpl. by rewrite lookup_insert_ne.
  - apply Z.ltb_ge in E. replace s' with (mkScc (index s') (indices s') (low s') (stack s') (onStack s') (components s'))
      at 1 by by destruct s'.
    apply (nested_in_call _ _ _ _ s s' next); [done..| |done]. change (low_of s' node = Z.min (low_of s' next) (low_of s' node)). lia.
Qed.

(** ** The loop over the successors *)
Lemma successors_ok fuel G node s0 nexts : forall l s,
  visit_ok fuel -> wf G s0 -> num s0 node = 0 -> node ∈ U -> (forall g, g ∈ G -> reach g node) ->
  (size (unvisited s0) <= S fuel)%nat -> (forall x, x ∈ nexts -> edge node x) -> in_call G node s0 l s ->
  exists s', successors (visit fuel) node nexts s = Some s' /\ in_call G node s0 (reverse nexts ++ l) s'.
Proof.
  induction nexts as [|next nexts IH]; intros l s Hok Hwf Hfresh HU Hg Hfuel Hedge Hic; simpl.
  { by exists s. }
  rewrite reverse_cons, <- app_assoc. simpl.
  assert (edge node next) as He by (apply Hedge; by left).
  assert (forall x, x ∈ nexts -> edge node x) as Hedge' by (intros x Hx; apply Hedge; by right).
  destruct (num s next =? 0) eqn:E.
  - apply Z.eqb_eq in E.
    pose proof (ic_num _ _ _ _ _ Hic) as Hnum. pose proof (wf_num _ _ Hwf node) as H0.
    pose proof (unvisited_size _ _ node (ic_extends _ _ _ _ _ Hic) HU Hfresh ltac:(lia)) as Hsz.
    destruct (Hok (node :: G) next s) as (s' & -> & Hv).
    + apply (ic_wf _ _ _ _ _ Hic).
    + done.
    + by eapply U_closed.
    + intros g [->|Hgin]%elem_of_cons; [by apply rtc_once|]. eapply rtc_r; [by apply Hg|done].
    + lia.
    + simpl. eapply IH; [done..|]. by eapply step_nested.
  - apply Z.eqb_neq in E. eapply IH; [done..|]. by apply step_visited.
Qed.

(** ** Leaving a call *)
Definition all_done (node : string) (l : list string) : Prop := forall y, edge node y -> y ∈ l.

Lemma left_open G node s0 l s :
  wf G s0 -> num s0 node = 0 -> all_done node l -> in_call G node s0 l s -> low_of s node <> num s node ->
  visited_from G node s0 s.
Proof.
  intros Hwf Hfresh Hall Hic Hne. pose proof (ic_num _ _ _ _ _ Hic) as Hnum. pose proof (ic_low _ _ _ _ _ Hic) as Hlow.
  pose proof (wf_num _ _ Hwf node) as H0. pose proof (ic_wf _ _ _ _ _ Hic) as Hs.
  destruct (ic_witness _ _ _ _ _ Hic) as [?|(w & Hw & Hnw & Hr)]; [done|].
  pose proof (in_call_old _ _ _ _ _ w Hwf Hic Hw) as Hw'. pose proof (proj2 (in_call_stack _ _ _ _ _ Hic) w Hw) as Hws.
  destruct (ic_stack _ _ _ _ _ Hic) as (new & Hst & Hnew).
  constructor.
  - destruct Hs as [H1 H2 H3 H4 H5 H6 H7 H8 H9 H10 H11 H12 H13]. constructor; try done.
    + intros x Hx. apply H6. by right.
    + intros x y Hx Hout He. destruct (decide (x = node)) as [->|Hx'].
      * apply (ic_done _ _ _ _ _ Hic), Hall, He.
      * eapply H7; [done| |done]. by apply not_elem_of_cons.
    + intros y Hy. destruct (H9 y Hy) as (x & [->|Hx]%elem_of_cons & Hle & Hyx); [|by exists x].
      destruct (H9 w Hws) as (x & [->|Hx]%elem_of_cons & Hle' & Hwx); [lia|]. exists x.
      split_and!; [done|lia|]. etrans; [exact Hyx|]. etrans; [exact Hr|done].
  - apply (ic_extends _ _ _ _ _ Hic).
  - lia.
  - right. exists w. done.
  - exists (new ++ [node]). split; [by rewrite Hst, <- app_assoc|].
    intros x [Hx| ->%list_elem_of_singleton]%elem_of_app.
    + pose proof (stack_above _ _ _ _ _ _ Hs Hst Hx). split; [lia|]. by apply Hnew.
    + split; [lia|]. intros y Hy He. apply (ic_done _ _ _ _ _ Hic y); [by apply Hall|done].
Qed.

(** At the root of a component, what is above it on the stack is its class. *)
Lemma root_class G node s0 l s new :
  wf G s0 -> num s0 node = 0 -> all_done node l -> in_call G node s0 l s -> low_of s node = num s node ->
  stack s = new ++ node :: stack s0 ->
  (forall x, x ∈ new -> forall y, y ∈ stack s0 -> edge x y -> low_of s node <= num s0 y) ->
  forall x y, x ∈ new ++ [node] -> y ∈ new ++ [node] <-> reach x y /\ reach y x.
Proof.
  intros Hwf Hfresh Hall Hic Heq Hst Hnew. pose proof (ic_wf _ _ _ _ _ Hic) as Hs. pose proof (ic_num _ _ _ _ _ Hic) as Hnum.
  assert (forall x, x ∈ new ++ [node] -> x ∈ stack s /\ num s node <= num s x) as Hin.
  { intros x [Hx| ->%list_elem_of_singleton]%elem_of_app.
    - pose proof (stack_above _ _ _ _ _ _ Hs Hst Hx). rewrite Hst. split; [set_solver|lia].
    - rewrite Hst. split; [set_solver|lia]. }
  assert (forall x, x ∈ new ++ [node] -> reach node x /\ reach x node) as Hnode.
  { intros x Hx. destruct (Hin x Hx) as [Hxs Hle]. pose proof (proj1 (in_call_stack _ _ _ _ _ Hic)) as Hns. split.
    - by apply (wf_up _ _ Hs).
    - destruct (wf_down _ _ Hs x Hxs) as (g & [->|Hg]%elem_of_cons & _ & Hr); [done|]. etrans; [exact Hr|].
      pose proof (wf_open _ _ Hwf g Hg) as Hgs. pose proof (in_call_old _ _ _ _ _ g Hwf Hic Hgs) as Hgn.
      pose proof (wf_num _ _ Hwf g). apply (wf_up _ _ Hs); [by apply (in_call_stack _ _ _ _ _ Hic)|done|lia]. }
  assert (forall x z, reach x z -> x ∈ new ++ [node] -> reach z x -> z ∈ new ++ [node]) as Hmax.
  { intros x z Hr. induction Hr as [z|x x' z Hxx' Hx'z IH]; [done|]. intros Hx Hzx.
    assert (reach z x') as Hzx' by (eapply rtc_r; done). apply IH; [|done].
    destruct (Hin x Hx) as [Hxs _].
    assert (num s x' <> 0) as Hv.
    { apply elem_of_app in Hx as [Hx| ->%list_elem_of_singleton].
      - eapply (wf_closed _ _ Hs); [by apply (wf_stack _ _ Hs)| |done].
        intros [->|Hg]%elem_of_cons; pose proof (stack_above _ _ _ _ _ _ Hs Hst Hx) as Hab; [lia|].
        apply (wf_open _ _ Hwf) in Hg. pose proof (stack_below _ _ _ _ _ _ Hs Hst Hg). lia.
      - apply (ic_done _ _ _ _ _ Hic). by apply Hall. }
    destruct (wf_done _ _ Hs x' Hv) as [Hs'|(c & Hc & Hx'c)].
    - rewrite Hst in Hs'. apply elem_of_app in Hs' as [?|[->|Hold]%elem_of_cons]; [set_solver|set_solver|].
      exfalso. assert (low_of s node <= num s0 x') as Hlow.
      { apply elem_of_app in Hx as [Hx| ->%list_elem_of_singleton]; [by eapply Hnew|].
        apply (ic_done _ _ _ _ _ Hic x'); [by apply Hall|done]. }
      pose proof (wf_num _ _ Hwf x'). lia.
    - exfalso. destruct (wf_component _ _ Hs c Hc) as (_ & _ & Hclass).
      destruct (wf_settled _ _ Hs c x Hc) as [_ Hno]; [|done]. apply (Hclass x' Hx'c). split.
      + by etrans.
      + by apply rtc_once. }
  intros x y Hx. destruct (Hnode x Hx) as [Hnx Hxn]. split.
  - intros Hy. destruct (Hnode y Hy) as [Hny Hyn]. split; by etrans.
  - intros [Hxy Hyx]. by eapply Hmax.
Qed.

Lemma left_closed G node s0 l s :
  wf G s0 -> num s0 node = 0 -> all_done node l -> in_call G node s0 l s -> low_of s node = num s node ->
  exists s', close node s = Some s' /\ visited_from G node s0 s'.
Proof.
  intros Hwf Hfresh Hall Hic Heq. pose proof (ic_wf _ _ _ _ _ Hic) as Hs. pose proof (ic_num _ _ _ _ _ Hic) as Hnum.
  pose proof (wf_num _ _ Hwf node) as H0.
  destruct (ic_stack _ _ _ _ _ Hic) as (new & Hst & Hnew).
  pose proof (wf_NoDup _ _ Hs) as Hnd. pose proof Hnd as Hnd'. rewrite Hst in Hnd'.
  rewrite cons_middle, app_assoc in Hnd'. apply NoDup_app in Hnd' as (Hnd1 & Hsep & _).
  assert (node ∉ new) as Hout.
  { apply NoDup_app in Hnd1 as (_ & Hx & _). intros Hn. apply (Hx node Hn). by left. }
  unfold close. rewrite Hst, pop_to_spec by done. simpl. eexists. split; [done|].
  assert (forall x, x ∈ new ++ [node] -> x ∈ stack s /\ x ∉ stack s0) as Hin.
  { intros x Hx. split; [rewrite Hst, cons_middle, app_assoc; set_solver|by apply Hsep]. }
  assert (forall x, x ∈ stack s -> x ∈ new ++ [node] \/ x ∈ stack s0) as Hcase.
  { intros x. rewrite Hst, cons_middle, app_assoc. intros ?%elem_of_app. done. }
  constructor.
  - constructor; change (num (mkScc _ _ _ _ _ _)) with (num s); simpl.
    + apply (wf_num _ _ Hs).
    + apply (wf_universe _ _ Hs).
    + pose proof (wf_sorted _ _ Hs) as Hss. rewrite Hst, cons_middle, app_assoc in Hss.
      apply StronglySorted_app in Hss. tauto.
    + intros x Hx. apply (wf_stack _ _ Hs). by apply (in_call_stack _ _ _ _ _ Hic).
    + intros x. rewrite elem_of_difference, elem_of_list_to_set, (wf_onStack _ _ Hs). split.
      * intros [[?|?]%Hcase ?]; done.
      * intros Hx. split; [by apply (in_call_stack _ _ _ _ _ Hic)|]. intros Hx'. by apply (Hin x Hx').
    + apply (wf_open _ _ Hwf).
    + intros x y Hx Hg He. destruct (decide (x = node)) as [->|Hne].
      * apply (ic_done _ _ _ _ _ Hic), Hall, He.
      * eapply (wf_closed _ _ Hs); [done| |done]. by apply not_elem_of_cons.
    + intros x y Hx Hy. apply (wf_up _ _ Hs); by apply (in_call_stack _ _ _ _ _ Hic).
    + intros y Hy. pose proof (in_call_old _ _ _ _ _ y Hwf Hic Hy) as Hyn.
      destruct (wf_down _ _ Hs y) as (x & [->|Hx]%elem_of_cons & Hle & Hr);
        [by apply (in_call_stack _ _ _ _ _ Hic)| |by exists x].
      pose proof (wf_num _ _ Hwf y). lia.
    + intros x Hx. destruct (wf_done _ _ Hs x Hx) as [[Hc|Hc]%Hcase|(c & Hc & Hxc)].
      * right. exists (sort_strings (new ++ [node])). split; [set_solver|by apply elem_of_sort_by].
      * by left.
      * right. exists c. split; [set_solver|done].
    + intros c [Hc| ->%list_elem_of_singleton]%elem_of_app; [by apply (wf_component _ _ Hs)|]. split_and!.
      * intros Hnil. assert (node ∈ sort_strings (new ++ [node])) as Hn by (apply elem_of_sort_by; set_solver).
        rewrite Hnil in Hn. by apply elem_of_nil in Hn.
      * by exists (new ++ [node]).
      * intros x Hx%elem_of_sort_by y. rewrite <- (root_class G node s0 l s new) by done. apply elem_of_sort_by.
    + intros c x [Hc| ->%list_elem_of_singleton]%elem_of_app Hx.
      * destruct (wf_settled _ _ Hs c x Hc Hx) as [Hv Hno]. split; [done|]. intros Hx0. apply Hno.
        by apply (in_call_stack _ _ _ _ _ Hic).
      * apply elem_of_sort_by in Hx. destruct (Hin x Hx). split; [by apply (wf_stack _ _ Hs)|done].
    + rewrite concat_app. apply NoDup_app. simpl. rewrite app_nil_r. split_and!.
      * apply (wf_apart _ _ Hs).
      * intros x (c & Hxc & Hc)%elem_of_concat Hx%elem_of_sort_by.
        destruct (wf_settled _ _ Hs c x Hc Hxc) as [_ Hno]. by apply Hno, Hin.
      * by apply NoDup_sort_by.
  - apply (ic_extends _ _ _ _ _ Hic).
  - change (num s node <> 0). lia.
  - left. change (index s0 < low_of s node). lia.
  - exists []. split; [done|]. by intros x ?%elem_of_nil.
Qed.

Lemma visit_spec fuel : visit_ok fuel.
Proof.
  induction fuel as [|fuel IH]; intros G node s Hwf Hfresh HU Hg Hfuel.
  - exfalso. assert (node ∈ unvisited s) as Hin by (by apply elem_of_filter).
    assert (size (unvisited s) = 0%nat) as Hz%size_empty_inv by lia. by apply Hz in Hin.
  - simpl.
    destruct (successors_ok fuel G node s (adj node) [] (enter node s)) as (s1 & -> & Hic); [done..| |].
    { by apply enter_in_call. }
    simpl. rewrite app_nil_r in Hic.
    assert (all_done node (reverse (adj node))) as Hall by (intros y Hy; by apply elem_of_reverse).
    destruct (low_of s1 node =? num s1 node) eqn:E; simpl.
    + apply Z.eqb_eq in E. by eapply left_closed.
    + apply Z.eqb_neq in E. exists s1. split; [done|]. by eapply left_open.
Qed.

Lemma start_wf : wf [] scc_start.
Proof.
  assert (forall x, num scc_start x = 0) as Hn by (intros x; unfold num; simpl; by rewrite lookup_empty).
  constructor; simpl.
  - intros x. rewrite Hn. lia.
  - intros x. by rewrite Hn.
  - constructor.
  - by intros x ?%elem_of_nil.
  - set_solver.
  - done.
  - intros x y. by rewrite Hn.
  - by intros x y ?%elem_of_nil.
  - by intros y ?%elem_of_nil.
  - intros x. by rewrite Hn.
  - by intros c ?%elem_of_nil.
  - by intros c x ?%elem_of_nil.
  - constructor.
Qed.

Lemma visit_all_spec fuel keys : forall s,
  wf [] s -> (forall x, x ∈ keys -> x ∈ U) -> (size U <= fuel)%nat ->
  exists s', visit_all fuel keys s = Some s' /\ wf [] s' /\ extends s s' /\ forall x, x ∈ keys -> num s' x <> 0.
Proof.
  induction keys as [|node keys IH]; intros s Hwf HU Hfuel; simpl.
  { exists s. split_and!; [done|done|apply extends_refl|by intros x ?%elem_of_nil]. }
  assert (exists s1, (if num s node =? 0 then visit fuel node s else Some s) = Some s1 /\ wf [] s1 /\ extends s s1 /\
    num s1 node <> 0) as (s1 & -> & Hwf1 & He1 & Hv1).
  { destruct (num s node =? 0) eqn:E.
    - apply Z.eqb_eq in E. destruct (visit_spec fuel [] node s) as (s1 & Hr & Hv);
        [done|done|apply HU; by left|by intros g ?%elem_of_nil| |].
      { etrans; [|exact Hfuel]. apply subseteq_size. intros x. unfold unvisited. by intros [_ ?]%elem_of_filter. }
      exists s1. destruct Hv. done.
    - apply Z.eqb_neq in E. exists s. split_and!; [done|done|apply extends_refl|done]. }
  simpl. destruct (IH s1 Hwf1) as (s2 & -> & Hwf2 & He2 & Hv2); [intros x Hx; apply HU; by right|done|].
  exists s2. split_and!; [done|done|by eapply extends_trans|].
  intros x [->|Hx]%elem_of_cons; [|by apply Hv2]. destruct He2 as [_ Hk]. by destruct (Hk node Hv1) as [-> _].
Qed.
End invariant.

Lemma size_list_to_set_le (l : list string) : (size (list_to_set l : gset string) <= length l)%nat.
Proof.
  induction l as [|x l IH]; simpl; [done|].
  pose proof (size_union_alt ({[x]} : gset string) (list_to_set l)) as Hu. rewrite size_singleton in Hu.
  pose proof (subseteq_size (list_to_set l ∖ {[x]}) (list_to_set l : gset string) ltac:(set_solver)). lia.
Qed.

(** The algorithm returns, and its components are the classes of mutual
    reachability of the nodes, each listed once. *)
Theorem scc_exact keys :
  (forall x y, x ∈ keys -> y ∈ adj x -> y ∈ keys) ->
  exists cs, scc keys = Some cs /\ (forall c, c ∈ cs -> is_scc c) /\ NoDup (concat cs) /\
    forall x, x ∈ keys <-> exists c, c ∈ cs /\ x ∈ c.
Proof.
  intros Hclosed. set (U := list_to_set keys : gset string).
  assert (forall x, x ∈ U <-> x ∈ keys) as HU by (intros x; apply elem_of_list_to_set).
  assert (forall x y, x ∈ U -> edge x y -> y ∈ U) as HUc.
  { intros x y Hx He. apply HU. eapply Hclosed; [by apply HU|exact He]. }
  assert (size U <= S (length keys))%nat as Hsz by (pose proof (size_list_to_set_le keys); unfold U; lia).
  destruct (visit_all_spec U HUc (S (length keys)) keys scc_start (start_wf U HUc) (fun x => proj2 (HU x)) Hsz)
    as (s & Hs & Hwf & _ & Hv).
  unfold scc. rewrite Hs. exists (components s). split_and!.
  - done.
  - apply (wf_component _ _ _ Hwf).
  - apply (wf_apart _ _ _ Hwf).
  - intros x. split.
    + intros Hx. destruct (wf_done _ _ _ Hwf x (Hv x Hx)) as [Hst|Hc]; [|done].
      destruct (wf_down _ _ _ Hwf x Hst) as (g & Hg & _). by apply elem_of_nil in Hg.
    + intros (c & Hc & Hx). apply HU, (wf_universe _ _ _ Hwf). by apply (wf_settled _ _ _ Hwf c).
Qed.

Lemma is_scc_unique c c' x : is_scc c -> is_scc c' -> NoDup c -> NoDup c' -> x ∈ c -> x ∈ c' -> c = c'.
Proof.
  intros (_ & (l & ->) & Hcl) (_ & (l' & ->) & Hcl') Hnd Hnd' Hx Hx'.
  apply sort_by_unique; [apply _|]. rewrite <- (sort_by_perm String.ltb l), <- (sort_by_perm String.ltb l').
  apply NoDup_Permutation; [done..|]. intros y. change (sort_by String.ltb) with sort_strings.
  by rewrite (Hcl x Hx), (Hcl' x Hx').
Qed.

Lemma NoDup_concat_part {A : Type} (l : list A) (ls : list (list A)) : NoDup (concat ls) -> l ∈ ls -> NoDup l.
Proof.
  induction ls as [|l' ls IH]; intros Hnd Hl; [by apply elem_of_nil in Hl|].
  simpl in Hnd. apply NoDup_app in Hnd as (H1 & _ & H2). apply elem_of_cons in Hl as [->|Hl]; auto.
Qed.

(** ** Cycles *)
(** A component with more than one node, or with an edge to itself. *)
Definition cyclic (c : list string) : bool :=
  negb (bool_decide (length c < 2)%nat) ||
  match c with [x] => bool_decide (x ∈ adj x) | _ => false end.
Definition on_cycle (x : string) : Prop := tc edge x x.

Lemma cyclic_on_cycle c x : is_scc c -> NoDup c -> x ∈ c -> cyclic c = true <-> on_cycle x.
Proof.
  intros (_ & _ & Hclass) Hnd Hx. unfold cyclic, on_cycle. split.
  - intros Hc. destruct c as [|a [|b c]]; simpl in Hc; [done| |].
    + apply list_elem_of_singleton in Hx as ->. apply bool_decide_eq_true in Hc. by apply tc_once.
    + destruct (decide (x = a)) as [->|Hne].
      * assert (a <> b) as Hab by (intros ->; apply NoDup_cons in Hnd as [Hn _]; apply Hn; by left).
        destruct (proj1 (Hclass a Hx b)) as [H1 H2]; [right; by left|].
        apply rtc_tc in H1 as [?|H1]; [done|]. by eapply tc_rtc_r.
      * destruct (proj1 (Hclass x Hx a)) as [H1 H2]; [by left|].
        apply rtc_tc in H1 as [?|H1]; [done|]. by eapply tc_rtc_r.
  - intros Ht. assert (exists y, edge x y /\ reach y x) as (y & Hxy & Hyx)
      by (inversion Ht; subst; eexists; split; [done|apply rtc_refl|done|by apply tc_rtc]).
    assert (y ∈ c) as Hy by (apply (Hclass x Hx); split; [by apply rtc_once|done]).
    destruct c as [|a [|b c]]; simpl; [by apply elem_of_nil in Hx| |done].
    apply list_elem_of_singleton in Hx as ->. apply list_elem_of_singleton in Hy as ->. by apply bool_decide_eq_true.
Qed.
End scc.
