(* ===== verification/FormulaDecimal.v ===== *)
(** * internal/formula/decimal.go: decimal128 values over the apd library

    [github.com/cockroachdb/apd] is not part of the repository: [ApdLib] is the
    interface the code uses of it (the operations of its [Context] return a
    value or an error message). *)
From Stdlib Require Import Ascii.
From S2P Require Import Prelude GoStrings.
Open Scope Z_scope.

Class ApdLib := {
  apd : Type;
  apd_eq_dec :: EqDecision apd;                     (* [reflect.DeepEqual] on values *)
  apd_zero : apd;                                   (* the zero [apd.Decimal{}] *)
  apd_NewFromString : string -> result apd string;
  apd_Finite : apd -> bool;
  apd_IsZero : apd -> bool;
  apd_Text : apd -> string;                         (* [Text] in the f format *)
  apd_Cmp : apd -> apd -> Z;
  apd_Add : apd -> apd -> result apd string;
  apd_Sub : apd -> apd -> result apd string;
  apd_Mul : apd -> apd -> result apd string;
  apd_Quo : apd -> apd -> result apd string;
  apd_Abs : apd -> result apd string;
  apd_Floor : apd -> result apd string;
  apd_Ceil : apd -> result apd string;
  apd_RoundToIntegralValue : apd -> result apd string
}.

(** [NumericPolicyV1]; the [apd] context of [ApdLib] is built with the same
    numbers. *)
Record NumericPolicy := mkNumericPolicy {
  Version : string; Precision : Z; MinExponent : Z; MaxExponent : Z; Rounding : string; FiniteOnly : bool
}.
Definition NumericPolicyV1 : NumericPolicy :=
  mkNumericPolicy "numeric-v1" 34 (-6143) 6144 "HALF_EVEN" true.

Section decimal.
Context `{UnicodeTables, ApdLib}.

Record Decimal := mkDecimal { value : apd }.
#[global] Instance Decimal_eq_dec : EqDecision Decimal.
Proof. solve_decision. Defined.

Definition not_finite : string := "decimal must be finite".

Definition ParseDecimal (text : string) : result Decimal string :=
  if bool_decide (text = ""%string) || LowerContainsAny text "naninf" then Err not_finite
  else
    let invalid err := Err ("invalid decimal " +:+ Quote text +:+ ": " +:+ err)%string in
    match apd_NewFromString text with
    | Err err => invalid err
    | Ok d => if apd_Finite d then Ok (mkDecimal d) else invalid not_finite
    end.

Definition Decimal_String (d : Decimal) : string :=
  if apd_IsZero (value d) then "0"
  else
    let text := apd_Text (value d) in
    if mem_char "."%char text then trim_set_right "." (trim_set_right "0" text) else text.

Definition binary (left right : Decimal) (operation : apd -> apd -> result apd string) : result Decimal string :=
  let? result := operation (value left) (value right) in Ok (mkDecimal result).
Definition Add (left right : Decimal) := binary left right apd_Add.
Definition Subtract (left right : Decimal) := binary left right apd_Sub.
Definition Multiply (left right : Decimal) := binary left right apd_Mul.
Definition Divide (left right : Decimal) := binary left right apd_Quo.
Definition Compare (d other : Decimal) : Z := apd_Cmp (value d) (value other).

Definition unary (v : Decimal) (operation : apd -> result apd string) : result Decimal string :=
  let? result := operation (value v) in Ok (mkDecimal result).
Definition Abs (v : Decimal) := unary v apd_Abs.
Definition Floor (v : Decimal) := unary v apd_Floor.
Definition Ceil (v : Decimal) := unary v apd_Ceil.
Definition Round (v : Decimal) := unary v apd_RoundToIntegralValue.

(** A Go call [x, _ := ParseDecimal(text)] that drops the error keeps the zero
    value. *)
Definition ParseDecimal_or_zero (text : string) : Decimal :=
  match ParseDecimal text with Ok d => d | Err _ => mkDecimal apd_zero end.

Record Percentage := mkPercentage { ratio : Decimal }.
Definition ParsePercentage (text : string) : result Percentage string :=
  let? d := ParseDecimal text in Ok (mkPercentage d).
Definition Percentage_String (p : Percentage) : string := Decimal_String (ratio p).
Definition ParsePercentageDisplay (text : string) : result Percentage string :=
  let? percent := ParseDecimal text in
  let? ratio := Divide percent (ParseDecimal_or_zero "100") in
  Ok (mkPercentage ratio).
Definition DisplayPercent (p : Percentage) : result string string :=
  let? v := Multiply (ratio p) (ParseDecimal_or_zero "100") in
  Ok (Decimal_String v).
End decimal.

(** ** Durations: integer milliseconds *)
Definition Duration := Z.
Inductive DurationError := DurationNotInteger | DurationInvalid.

Definition ParseDuration (text : string) : result Duration DurationError :=
  if bool_decide (text = ""%string) || ContainsAny text ".eE" then Err DurationNotInteger
  else match ParseInt text with Some n => Ok n | None => Err DurationInvalid end.

Definition Duration_String (d : Duration) : string := Itoa d.

(** What the code relies on of [Cmp]: a total preorder, antisymmetric in sign. *)
Class ApdOrder `{ApdLib} : Prop := {
  cmp_refl x : apd_Cmp x x = 0;
  cmp_swap x y : apd_Cmp y x = - apd_Cmp x y;
  cmp_trans x y z : apd_Cmp x y <= 0 -> apd_Cmp y z <= 0 -> apd_Cmp x z <= 0
}.

(** A concrete decimal library for the evaluations: integers within int64, with
    truncated division. *)
Definition integer_apd : ApdLib := {|
  apd := Z;
  apd_eq_dec := _;
  apd_zero := 0;
  apd_NewFromString s := match ParseInt s with Some n => Ok n | None => Err "parse mantissa"%string end;
  apd_Finite _ := true;
  apd_IsZero z := z =? 0;
  apd_Text z := Itoa z;
  apd_Cmp x y := match Z.compare x y with Lt => -1 | Eq => 0 | Gt => 1 end;
  apd_Add x y := Ok (x + y);
  apd_Sub x y := Ok (x - y);
  apd_Mul x y := Ok (x * y);
  apd_Quo x y := if y =? 0 then Err "division by zero"%string else Ok (Z.quot x y);
  apd_Abs x := Ok (Z.abs x);
  apd_Floor x := Ok x;
  apd_Ceil x := Ok x;
  apd_RoundToIntegralValue x := Ok x
|}.

#[global] Instance integer_apd_order : @ApdOrder integer_apd.
Proof.
  split; simpl.
  - intros x. by rewrite Z.compare_refl.
  - intros x y. rewrite Z.compare_antisym. by destruct (x ?= y).
  - intros x y z. destruct (Z.compare_spec x y), (Z.compare_spec y z), (Z.compare_spec x z); lia.
Qed.
