(* ===== verification/DomainEntity.v ===== *)
(** * internal/domain: entities, patches, schema checks, references, numeric normal form

    entity.go, registry.go, validation.go, references.go, numeric.go.  A
    [map[string]json.RawMessage] is nil or an association list of raw texts with
    distinct keys, in the order in which this run iterates over the map (Go
    leaves the order open); the embedded schema files are an argument. *)
From Stdlib Require Import Ascii.
From S2P Require Import Prelude GoSort GoStrings GoCrypto GoJson GoFloat Domain FormulaDecimal.
Open Scope Z_scope.

Definition raw_map : Type := option (list (string * string)).
Definition entries (m : raw_map) : list (string * string) := default [] m.
Definition assoc {V : Type} (l : list (string * V)) (key : string) : option V :=
  snd <$> List.find (fun kv => bool_decide (fst kv = key)) l.

(** ** entity.go *)
Definition EntityKind_text (k : EntityKind) : string :=
  match k with
  | KindAttribute => "attribute" | KindTag => "tag" | KindCharacter => "character" | KindSkill => "skill"
  | KindItem => "item" | KindEffect => "effect" | KindOther s => s
  end%string.
Definition builtin_kinds : list EntityKind := [KindAttribute; KindTag; KindCharacter; KindSkill; KindItem; KindEffect].

Record Entity := mkEntity {
  Entity_ID : ID; Entity_Kind : EntityKind; Entity_Key : string; Entity_Name : string; Entity_Description : string;
  Entity_TagIDs : option (list ID); BalanceGroup : string; Entity_Status : EntityStatus; SchemaVersion : Z;
  Payload : raw_map; Extensions : raw_map; EntityVersion : Z; Entity_CreatedAt : Time; Entity_UpdatedAt : Time
}.
#[global] Instance Entity_eq_dec : EqDecision Entity.
Proof. solve_decision. Defined.
(** A nil slice and an empty one range over the same elements; only their JSON
    texts differ. *)
Definition TagIDs (e : Entity) : list ID := default [] (Entity_TagIDs e).
Record EntityDraft := mkDraft {
  Draft_Key : string; Draft_Name : string; Draft_Description : string; Draft_TagIDs : list ID;
  Draft_BalanceGroup : string; Draft_Payload : raw_map; Draft_Extensions : raw_map
}.

(** [newID] is what [uuid.NewV7] returns. *)
Definition NewEntity (newID : option ID) (kind : EntityKind) (draft : EntityDraft) (now : Time) : result Entity string :=
  match newID with
  | None => Err "allocate UUIDv7"%string
  | Some id =>
      Ok (mkEntity id kind (Draft_Key draft) (Draft_Name draft) (Draft_Description draft) (Some (Draft_TagIDs draft))
            (Draft_BalanceGroup draft) StatusActive 1 (Some (entries (Draft_Payload draft)))
            (Some (entries (Draft_Extensions draft))) 1 now now)
  end.

(** *** [json.Unmarshal] into fields that already hold a value *)
(** The raw text of each field of an object, a later duplicate replacing an
    earlier one. *)
Fixpoint put_raw (m : list (string * string)) (key raw : string) : list (string * string) :=
  match m with
  | [] => [(key, raw)]
  | (k, v) :: m => if decide (k = key) then (key, raw) :: m else (k, v) :: put_raw m key raw
  end.
Fixpoint raw_fields (fuel : nat) (s : string) (m : list (string * string)) : option (list (string * string)) :=
  match fuel with
  | O => None
  | S fuel =>
      q ← expect quote_char s;
      '(key, r) ← scan_string (S (String.length q)) q;
      r ← expect ":" r;
      let r := skip_ws r in
      '(_, rest) ← scan_value (decode_fuel r) maxNestingDepth r;
      let m := put_raw m key (string_take (String.length r - String.length rest) r) in
      match expect "," rest with Some r' => raw_fields fuel r' m | None => Some m end
  end.
(** A JSON object is decoded into the existing map, keeping its entries; null
    makes the map nil.  (The map and the slice below are shared with the
    receiver of [ApplyPatch]; its only caller drops that value.) *)
Definition unmarshal_map (raw : string) (m : raw_map) : option raw_map :=
  match decode_document raw with
  | Some JNull => Some None
  | Some (JObject []) => Some (Some (entries m))
  | Some (JObject _) =>
      r ← expect "{" raw;
      fields ← raw_fields (String.length raw) r (entries m);
      Some (Some fields)
  | _ => None
  end.
(** A string element: null keeps the element's old value, another value is an
    error that is reported at the end. *)
Fixpoint store_strings (old : list string) (values : list json) : list string * bool :=
  match values with
  | [] => ([], true)
  | v :: values =>
      let '(rest, ok) := store_strings (tail old) values in
      match v with
      | JString s => (s :: rest, ok)
      | JNull => (default EmptyString (head old) :: rest, ok)
      | _ => (default EmptyString (head old) :: rest, false)
      end
  end.
Definition unmarshal_strings (raw : string) (old : list string) : option (option (list string)) :=
  match decode_document raw with
  | Some JNull => Some None
  | Some (JArray values) => let '(l, ok) := store_strings old values in if ok then Some (Some l) else None
  | _ => None
  end.

(** *** [ApplyPatch] *)
Definition set_text (field value : string) (e : Entity) : Entity :=
  let pick name old := if decide (field = name) then value else old in
  mkEntity (Entity_ID e) (Entity_Kind e) (pick "key"%string (Entity_Key e)) (pick "name"%string (Entity_Name e))
    (pick "description"%string (Entity_Description e)) (Entity_TagIDs e) (pick "balance_group"%string (BalanceGroup e))
    (Entity_Status e) (SchemaVersion e) (Payload e) (Extensions e) (EntityVersion e) (Entity_CreatedAt e) (Entity_UpdatedAt e).
Definition set_tags (l : option (list ID)) (e : Entity) : Entity :=
  mkEntity (Entity_ID e) (Entity_Kind e) (Entity_Key e) (Entity_Name e) (Entity_Description e) l (BalanceGroup e)
    (Entity_Status e) (SchemaVersion e) (Payload e) (Extensions e) (EntityVersion e) (Entity_CreatedAt e) (Entity_UpdatedAt e).
Definition set_maps (payload extensions : raw_map) (e : Entity) : Entity :=
  mkEntity (Entity_ID e) (Entity_Kind e) (Entity_Key e) (Entity_Name e) (Entity_Description e) (Entity_TagIDs e) (BalanceGroup e)
    (Entity_Status e) (SchemaVersion e) payload extensions (EntityVersion e) (Entity_CreatedAt e) (Entity_UpdatedAt e).
Definition text_fields : list string := ["key"; "name"; "description"; "balance_group"]%string.
Definition immutable_fields : list string :=
  ["id"; "kind"; "status"; "schema_version"; "entity_version"; "created_at"; "updated_at"]%string.

(** One entry of the patch on [next]. *)
Definition patch_field (next : Entity) (field raw : string) : result Entity string :=
  if bool_decide (field ∈ text_fields) then
    match Unmarshal_string raw with
    | Some value =>
        (* null leaves the local [value], the empty string *)
        Ok (set_text field value next)
    | None => Err field
    end
  else if decide (field = "tag_ids"%string) then
    match unmarshal_strings raw (TagIDs next) with Some l => Ok (set_tags l next) | None => Err field end
  else if decide (field = "payload"%string) then
    match unmarshal_map raw (Payload next) with Some m => Ok (set_maps m (Extensions next) next) | None => Err field end
  else if decide (field = "extensions"%string) then
    match unmarshal_map raw (Extensions next) with Some m => Ok (set_maps (Payload next) m next) | None => Err field end
  else if bool_decide (field ∈ immutable_fields) then Err (field +:+ " is immutable")%string
  else Err "unsupported patch field"%string.

Definition touched (now : Time) (e : Entity) : Entity :=
  mkEntity (Entity_ID e) (Entity_Kind e) (Entity_Key e) (Entity_Name e) (Entity_Description e) (Entity_TagIDs e) (BalanceGroup e)
    (Entity_Status e) (SchemaVersion e) (Payload e) (Extensions e) (EntityVersion e + 1) (Entity_CreatedAt e) now.
Definition ApplyPatch (e : Entity) (patch : list (string * string)) (now : Time) : result Entity string :=
  let? next := foldr_result (fun next '(field, raw) => patch_field next field raw) e patch in
  Ok (touched now next).

(** ** registry.go *)
Record Schema := mkSchema { Schema_ID : string; Schema_Raw : string }.
Record SchemaRegistry := mkSchemaRegistry { byID : gmap string Schema; byKind : list (EntityKind * string) }.
Definition kindSchema (k : EntityKind) : string := ("urn:eco:schema:" +:+ EntityKind_text k +:+ ":1")%string.

Fixpoint references_of (v : json) : list string :=
  match v with
  | JObject l =>
      match assoc l "$ref" with Some (JString ref) => [ref] | _ => [] end ++
      concat (map (fun '(_, child) => references_of child) l)
  | JArray l => concat (map references_of l)
  | _ => []
  end.
Definition schemaReferences (raw : string) : list string :=
  match Unmarshal raw with Some v => references_of v | None => [] end.

(** One embedded file, by its name and content. *)
Definition load_schema (m : gmap string Schema) (file : string * string) : result (gmap string Schema) string :=
  let '(name, raw) := file in
  if negb (has_suffix ".json" name) then Ok m
  else match Unmarshal raw with
  | Some (JObject doc) =>
      let id := match assoc doc "$id" with Some (JString id) => id | _ => EmptyString end in
      if bool_decide (id = EmptyString) then Err "schema has no $id"%string
      else if bool_decide (is_Some (m !! id)) then Err "duplicate schema id"%string
      else Ok (<[id := mkSchema id raw]> m)
  | Some JNull => Err "schema has no $id"%string
  | _ => Err "parse"%string
  end.
Definition references_resolve (m : gmap string Schema) (s : Schema) : bool :=
  forallb (fun ref => negb (has_prefix "urn:eco:schema:" ref) || bool_decide (is_Some (m !! ref)))
    (schemaReferences (Schema_Raw s)).
Definition NewSchemaRegistry (files : list (string * string)) : result SchemaRegistry string :=
  let? m := foldr_result load_schema ∅ files in
  if negb (forallb (fun k => bool_decide (is_Some (m !! kindSchema k))) builtin_kinds)
  then Err "kind points to missing schema"%string
  else if negb (forallb (references_resolve m) (map_to_list m).*2) then Err "schema references missing"%string
  else Ok (mkSchemaRegistry m ((fun k => (k, kindSchema k)) <$> builtin_kinds)).

Definition schema_id (r : SchemaRegistry) (k : EntityKind) : option string :=
  snd <$> List.find (fun kv => bool_decide (fst kv = k)) (byKind r).
Definition Registry_Schema (r : SchemaRegistry) (k : EntityKind) : option Schema :=
  id ← schema_id r k; byID r !! id.
Definition SchemaByID (r : SchemaRegistry) (id : string) : option Schema := byID r !! id.
Definition Kinds (r : SchemaRegistry) : list EntityKind :=
  sort_by (less_on EntityKind_text String.ltb) (byKind r).*1.

(** ** validation.go *)
Record FieldIssue := mkFieldIssue { Issue_Path : string; Issue_Message : string }.
#[global] Instance FieldIssue_eq_dec : EqDecision FieldIssue.
Proof. solve_decision. Defined.

Definition eventValues : list string := ["on_use"; "on_hit"; "on_damage"; "on_heal"; "on_interval"; "on_effect_applied"]%string.
Definition selectorValues : list string := ["self"; "source"; "primary_target"; "all_targets"; "targets_with_tag"]%string.
Definition operationValues : list string := ["Add"; "Multiply"; "Override"; "Max"; "Min"]%string.

(** [^[a-z][a-z0-9_]*$] *)
Definition lower_letter (a : ascii) : bool := in_range 97 (byte_of a) 122.
Definition keyPattern (s : string) : bool :=
  match s with
  | EmptyString => false
  | String a s => lower_letter a && all_chars (fun a => lower_letter a || is_digit a || bool_decide (a = "_"%char)) s
  end.

Definition item_path (path : string) (i : nat) : string := (path +:+ "[" +:+ Itoa (Z.of_nat i) +:+ "]")%string.
(** A [for i, child := range l] that appends. *)
Definition concat_index {A B : Type} (f : nat -> A -> list B) : nat -> list A -> list B :=
  fix go i l := match l with [] => [] | a :: l => f i a ++ go (S i) l end.

(** The values a string field of an object is checked against. *)
Definition allowed_values (path : string) (object : list (string * json)) (key : string) : option (list string) :=
  if decide (key = "event"%string) then Some eventValues
  else if decide (key = "type"%string) then
    if has_suffix ".target" path || has_suffix ".target_selector" path ||
       match assoc object "tag_id" with Some JNull | None => false | Some _ => true end
    then Some selectorValues else None
  else if decide (key = "operation"%string) then Some operationValues else None.

Fixpoint validateRuleValues (v : json) (path : string) : list FieldIssue :=
  match v with
  | JObject x =>
      concat (map (fun '(key, child) =>
        let p := (path +:+ "." +:+ key)%string in
        match child, allowed_values path x key with
        | JString value, Some allowed =>
            if bool_decide (value ∈ allowed) then [] else [mkFieldIssue p "unregistered value"]
        | _, _ => []
        end ++ validateRuleValues child p) x)
  | JArray x => concat_index (fun i child => validateRuleValues child (item_path path i)) 0 x
  | _ => []
  end.

Definition required_fields (k : EntityKind) : list string :=
  match k with
  | KindAttribute => ["value_type"; "dimension"; "base_unit"; "default"]
  | KindTag => ["category"; "parent_tag_ids"]
  | KindCharacter => ["attribute_values"; "skill_ids"; "item_ids"; "rule_blocks"]
  | KindSkill => ["costs"; "cooldown"; "target_selector"; "effect_ids"; "rule_blocks"]
  | KindItem => ["slot"; "effect_ids"; "attribute_modifiers"; "enhance_tag_ids"; "rule_blocks"]
  | KindEffect => ["duration"; "modifiers"; "trigger_blocks"; "stack_rule"]
  | KindOther _ => []
  end%string.
Definition array_fields : list string :=
  ["parent_tag_ids"; "attribute_values"; "skill_ids"; "item_ids"; "rule_blocks"; "costs"; "effect_ids";
   "attribute_modifiers"; "enhance_tag_ids"; "modifiers"; "trigger_blocks"]%string.
Definition isArray (raw : string) : bool := bool_decide (is_Some (Unmarshal_array raw)).

(** [json.Marshal(payload)] and [json.Unmarshal] into [any], errors dropped: an
    entry that is not JSON leaves nothing; a number out of range leaves the
    others, and the walks below do not look at numbers. *)
Definition generic_payload (m : raw_map) : json :=
  match mapM (M:=option) (fun '(key, raw) => v ← decode_document raw; Some (key, v)) (entries m) with
  | Some fields => JObject (sort_fields fields)
  | None => JNull
  end.

Definition validatePayload (kind : EntityKind) (payload : raw_map) : list FieldIssue :=
  let at_ name := assoc (entries payload) name in
  concat (map (fun name => if decide (at_ name = None) then [mkFieldIssue ("payload." +:+ name) "is required"] else [])
            (required_fields kind)) ++
  match at_ "value_type"%string with
  | Some raw =>
      if match Unmarshal_string raw with
         | Some v => bool_decide (v ∈ ["integer"; "decimal"; "boolean"]%string)
         | None => false
         end
      then [] else [mkFieldIssue "payload.value_type" "must be integer, decimal, or boolean"]
  | None => []
  end ++
  concat (map (fun name =>
    match at_ name with
    | Some raw => if isArray raw then [] else [mkFieldIssue ("payload." +:+ name) "must be an array"]
    | None => []
    end) array_fields) ++
  validateRuleValues (generic_payload payload) "payload".

Section validate.
Context `{UuidLib}.

Definition Registry_Validate (r : SchemaRegistry) (e : Entity) : list FieldIssue :=
  sort_by (less_on Issue_Path String.ltb)
    ((if decide (Registry_Schema r (Entity_Kind e) = None) then [mkFieldIssue "kind" "unsupported kind"] else []) ++
     (if keyPattern (Entity_Key e) then [] else [mkFieldIssue "key" "must be lower_snake_case"]) ++
     (if bool_decide (TrimSpace (Entity_Name e) = EmptyString) then [mkFieldIssue "name" "is required"] else []) ++
     (if bool_decide (Entity_Status e = StatusActive) || bool_decide (Entity_Status e = StatusArchived) then []
      else [mkFieldIssue "status" "must be active or archived"]) ++
     (if SchemaVersion e =? 1 then [] else [mkFieldIssue "schema_version" "must be 1"]) ++
     concat_index (fun i id => if ID_Valid id then [] else [mkFieldIssue (item_path "tag_ids" i) "must be UUIDv7"]) 0 (TagIDs e) ++
     concat (map (fun '(namespace, _) =>
       if mem_char "/" namespace then [] else [mkFieldIssue ("extensions." +:+ namespace) "must use a namespace key"])
       (entries (Extensions e))) ++
     validatePayload (Entity_Kind e) (Payload e)).

(** ** references.go *)
Record Reference := mkReference {
  Ref_SourceID : ID; Ref_FieldPath : string; Ref_ExpectedKind : EntityKind; Ref_TargetID : ID; Ref_Ordinal : Z
}.
Record TagIndex := mkTagIndex { Tag_EntityID : ID; Tag_TagID : ID }.

Definition referenceFieldKind (field : string) : option EntityKind :=
  if bool_decide (field ∈ ["tag_ids"; "parent_tag_ids"; "enhance_tag_ids"; "tag_id"]%string) then Some KindTag
  else if bool_decide (field = "skill_ids"%string) then Some KindSkill
  else if bool_decide (field = "item_ids"%string) then Some KindItem
  else if bool_decide (field = "effect_ids"%string) then Some KindEffect
  else if bool_decide (field ∈ ["output_attribute_id"; "attribute_id"]%string) then Some KindAttribute
  else None.

(** The calls of [add], in order. *)
Definition candidate : Type := string * EntityKind * ID.
Definition field_references (path : string) (kind : EntityKind) (child : json) : list candidate :=
  match child with
  | JString id => [(path, kind, id)]
  | JArray ids => concat_index (fun i item => match item with JString id => [(item_path path i, kind, id)] | _ => [] end) 0 ids
  | _ => []
  end.
Fixpoint walkReferences (value : json) (path : string) : list candidate :=
  match value with
  | JObject v =>
      concat ((fun kc : string * list candidate => kc.2) <$>
        sort_fields (map (fun '(key, child) =>
          let childPath := (path +:+ "." +:+ key)%string in
          (key, match referenceFieldKind key with Some kind => field_references childPath kind child | None => [] end ++
                walkReferences child childPath)) v))
  | JArray v => concat_index (fun i child => walkReferences child (item_path path i)) 0 v
  | _ => []
  end.

(** The closure [add]: only valid targets are recorded and numbered. *)
Definition add_reference (source : ID) (refs : list Reference) (c : candidate) : list Reference :=
  let '(path, kind, id) := c in
  if ID_Valid id then refs ++ [mkReference source path kind id (Z.of_nat (length refs))] else refs.

Definition tag_candidates (e : Entity) : list candidate :=
  concat_index (fun i id => [(item_path "tag_ids" i, KindTag, id)]) 0 (TagIDs e).
Definition ExtractIndexes (e : Entity) : list Reference * list TagIndex :=
  let refs := foldl (add_reference (Entity_ID e)) []
                (tag_candidates e ++ walkReferences (generic_payload (Payload e)) "payload") in
  (sort_by (then_by Ref_FieldPath String.ltb (less_on Ref_Ordinal Z.ltb)) refs,
   (mkTagIndex (Entity_ID e)) <$> List.filter ID_Valid (TagIDs e)).
End validate.

(** ** numeric.go *)
Definition duration_keys : list string := ["duration"; "cooldown"; "termination_budget"; "priority"; "max_stacks"]%string.
Definition decimal_keys : list string := ["default"; "min"; "max"; "display_scale"; "value"; "cap"]%string.
Definition numericPayloadField (key : string) : bool := bool_decide (key ∈ duration_keys ++ decimal_keys).

Section numeric.
Context `{UnicodeTables, ApdLib, FloatText}.

Definition normalize_text (key current : string) : result string string :=
  if bool_decide (key ∈ duration_keys) then
    match ParseDuration current with
    | Err _ => Err key
    | Ok duration =>
        if bool_decide (key ∈ ["duration"; "cooldown"; "termination_budget"; "max_stacks"]%string) && (duration <? 0)
        then Err (key +:+ " must not be negative")%string
        else Ok (Duration_String duration)
    end
  else if bool_decide (key ∈ decimal_keys) then
    match ParseDecimal current with Err _ => Err key | Ok decimal => Ok (Decimal_String decimal) end
  else Ok current.

Fixpoint normalizeNumericValue (value : json) (key : string) : result json string :=
  match value with
  | JObject l => let? out := map_result (fun '(name, child) => let? c := normalizeNumericValue child name in Ok (name, c)) l in Ok (JObject out)
  | JArray l => let? out := map_result (fun child => normalizeNumericValue child key) l in Ok (JArray out)
  | JString current => let? s := normalize_text key current in Ok (JString s)
  | JNumber _ => if numericPayloadField key then Err (key +:+ " must be a canonical numeric string")%string else Ok value
  | _ => Ok value
  end.

Definition with_payload (payload : raw_map) (e : Entity) : Entity := set_maps payload (Extensions e) e.
Definition normalize_entry (entry : string * string) : result (string * string) string :=
  let '(key, raw) := entry in
  match Unmarshal raw with
  | None => Err ("payload." +:+ key)%string
  | Some value =>
      let? normalized := normalizeNumericValue value key in
      let? encoded := CanonicalJSON normalized in
      Ok (key, encoded)
  end.
Definition NormalizeNumericEntity (e : Entity) : result Entity string :=
  let? payload := map_result normalize_entry (entries (Payload e)) in Ok (with_payload (Some payload) e).
End numeric.

(** ** Patches *)
Lemma patch_field_fixed next field raw next' : patch_field next field raw = Ok next' ->
  Entity_ID next' = Entity_ID next /\ Entity_Kind next' = Entity_Kind next /\ Entity_Status next' = Entity_Status next /\
  SchemaVersion next' = SchemaVersion next /\ EntityVersion next' = EntityVersion next /\
  Entity_CreatedAt next' = Entity_CreatedAt next /\
  (field <> "key"%string -> Entity_Key next' = Entity_Key next) /\
  (field <> "name"%string -> Entity_Name next' = Entity_Name next) /\
  (field <> "tag_ids"%string -> Entity_TagIDs next' = Entity_TagIDs next) /\
  (field <> "payload"%string -> Payload next' = Payload next) /\
  (field <> "extensions"%string -> Extensions next' = Extensions next) /\
  field ∉ immutable_fields.
Proof.
  unfold patch_field. destruct (decide (field ∈ text_fields)) as [Ht|Ht].
  - rewrite bool_decide_true by done. destruct (Unmarshal_string raw) as [v|]; [|done]. intros [= <-].
    unfold set_text. simpl. split_and!; try done; try (intros Hne; by rewrite decide_False by done).
    unfold text_fields, immutable_fields in *. set_solver.
  - rewrite bool_decide_false by done.
    destruct (decide (field = "tag_ids"%string)) as [->|H1].
    { destruct (unmarshal_strings _ _); [|done]. intros [= <-]. by split_and!; [..|compute_decide]. }
    destruct (decide (field = "payload"%string)) as [->|H2].
    { destruct (unmarshal_map _ _); [|done]. intros [= <-]. by split_and!; [..|compute_decide]. }
    destruct (decide (field = "extensions"%string)) as [->|H3].
    { destruct (unmarshal_map _ _); [|done]. intros [= <-]. by split_and!; [..|compute_decide]. }
    by destruct (bool_decide (field ∈ immutable_fields)).
Qed.

(** A patch keeps an entity's identity, kind, status and creation, moves its
    version and its update time, leaves every unmentioned field alone, and is
    refused when it names an immutable field. *)
Theorem patch_keeps_identity e patch now next :
  ApplyPatch e patch now = Ok next ->
  Entity_ID next = Entity_ID e /\ Entity_Kind next = Entity_Kind e /\ Entity_Status next = Entity_Status e /\
  SchemaVersion next = SchemaVersion e /\ Entity_CreatedAt next = Entity_CreatedAt e /\
  EntityVersion next = EntityVersion e + 1 /\ Entity_UpdatedAt next = now /\
  ("key"%string ∉ patch.*1 -> Entity_Key next = Entity_Key e) /\
  ("name"%string ∉ patch.*1 -> Entity_Name next = Entity_Name e) /\
  ("tag_ids"%string ∉ patch.*1 -> Entity_TagIDs next = Entity_TagIDs e) /\
  ("payload"%string ∉ patch.*1 -> Payload next = Payload e) /\
  ("extensions"%string ∉ patch.*1 -> Extensions next = Extensions e) /\
  Forall (fun field => field ∉ immutable_fields) patch.*1.
Proof.
  unfold ApplyPatch. intros (next' & Hf & [= <-])%result_bind_Ok. simpl.
  revert e Hf. induction patch as [|[field raw] patch IH]; intros e Hf; simpl in Hf.
  - injection Hf as <-. by split_and!.
  - apply result_bind_Ok in Hf as (e1 & H1 & Hf). apply patch_field_fixed in H1.
    destruct H1 as (? & ? & ? & ? & ? & ? & Hk & Hn & Ht & Hp & Hx & Himm). apply IH in Hf.
    destruct Hf as (? & ? & ? & ? & ? & ? & _ & Hk' & Hn' & Ht' & Hp' & Hx' & Hall). csimpl.
    split_and!; try congruence; try (intros Hout; apply not_elem_of_cons in Hout as [? ?]; rewrite ?Hk', ?Hn', ?Ht', ?Hp', ?Hx' by done; by auto).
    by constructor.
Qed.

(** [key] occurs in a list of fields. *)
Definition has_field (key : string) (l : list (string * string)) : Prop := is_Some (assoc l key).
Lemma has_field_elem key l : has_field key l <-> key ∈ l.*1.
Proof.
  unfold has_field, assoc. induction l as [|[k v] l IH]; csimpl.
  - split; [by intros [? ?]|]. by intros ?%elem_of_nil.
  - rewrite elem_of_cons. case_bool_decide as Hk; csimpl; [split; [by left|eauto]|]. rewrite IH.
    split; [by right|]. by intros [?|?].
Qed.
Lemma put_raw_keys key raw m k : k ∈ (put_raw m key raw).*1 <-> k = key \/ k ∈ m.*1.
Proof.
  induction m as [|[k' v] m IH]; csimpl.
  - rewrite list_elem_of_singleton. split; [by left|]. by intros [?|?%elem_of_nil].
  - destruct (decide (k' = key)) as [->|Hne]; csimpl; rewrite !elem_of_cons; [tauto|]. rewrite IH. tauto.
Qed.
Lemma raw_fields_keep fuel : forall s m m' k, raw_fields fuel s m = Some m' -> k ∈ m.*1 -> k ∈ m'.*1.
Proof.
  induction fuel as [|fuel IH]; intros s m m' k H Hk; [done|]. cbn [raw_fields] in H.
  apply bind_Some in H as (q & _ & H). apply bind_Some in H as ([key r] & _ & H).
  apply bind_Some in H as (r1 & _ & H). apply bind_Some in H as ([v rest] & _ & H).
  destruct (expect "," rest) as [r'|].
  - eapply IH; [exact H|]. apply put_raw_keys. by right.
  - injection H as <-. apply put_raw_keys. by right.
Qed.

(** A payload patch merges: unless it is the literal null, no payload field of
    the entity disappears, whatever object the patch holds. *)
Theorem payload_patch_never_removes e raw now next key :
  ApplyPatch e [("payload"%string, raw)] now = Ok next -> decode_document raw <> Some JNull ->
  has_field key (entries (Payload e)) -> has_field key (entries (Payload next)).
Proof.
  unfold ApplyPatch. intros (next' & Hf & [= <-])%result_bind_Ok Hnull. simpl in Hf.
  apply result_bind_Ok in Hf as (e1 & H1 & [= <-]). rewrite !has_field_elem. simpl.
  unfold patch_field in H1. rewrite bool_decide_false in H1 by compute_decide. simpl in H1.
  destruct (unmarshal_map raw (Payload e)) as [m|] eqn:Hm; [|done]. injection H1 as <-. simpl. unfold unmarshal_map in Hm.
  destruct (decode_document raw) as [[| | | | |[|f fs]]|]; try done.
  - by injection Hm as <-.
  - apply bind_Some in Hm as (r & _ & Hm). apply bind_Some in Hm as (fields & Hr & [= <-]). by eapply raw_fields_keep.
Qed.

(** ** Numeric normal form *)
(** What the code relies on of the decimal library: the text it prints for a
    parsed number, without the trailing zeros of a fraction, is a plain number
    that it parses back to one with the same text. *)
Class ApdText `{UnicodeTables, ApdLib} : Prop := {
  apd_text_plain s d : apd_NewFromString s = Ok d -> apd_Finite d = true ->
    Decimal_String (mkDecimal d) <> ""%string /\ LowerContainsAny (Decimal_String (mkDecimal d)) "naninf" = false;
  apd_text_again s d : apd_NewFromString s = Ok d -> apd_Finite d = true ->
    exists d', apd_NewFromString (Decimal_String (mkDecimal d)) = Ok d' /\ apd_Finite d' = true /\
      Decimal_String (mkDecimal d') = Decimal_String (mkDecimal d)
}.

Lemma ParseInt_ok s n : ParseInt s = Some n -> int64_ok n = true.
Proof.
  unfold ParseInt. cbv zeta. match goal with |- match ?v with Some _ => _ | None => _ end = _ -> _ => destruct v as [z|] end; [|done].
  destruct (int64_ok z) eqn:E; [|done]. intros [= ->]. exact E.
Qed.

Lemma duration_again text n : ParseDuration text = Ok n -> ParseDuration (Duration_String n) = Ok n.
Proof.
  unfold ParseDuration. case_guard; [done|]. destruct (ParseInt text) as [m|] eqn:Hm; [|done]. intros [= ->].
  apply ParseInt_ok in Hm. unfold Duration_String. rewrite ParseInt_Itoa by done.
  rewrite Itoa_not by done. destruct (Itoa_digits n) as (d & Hd & _ & _ & ->).
  rewrite bool_decide_false; [done|]. by destruct (n <? 0).
Qed.

Section normal.
Context `{UnicodeTables, ApdLib, !ApdText, FloatText}.

Lemma decimal_again text d : ParseDecimal text = Ok d ->
  exists d', ParseDecimal (Decimal_String d) = Ok d' /\ Decimal_String d' = Decimal_String d.
Proof.
  unfold ParseDecimal. case_guard; [done|]. destruct (apd_NewFromString text) as [v|] eqn:Hv; [|done].
  destruct (apd_Finite v) eqn:Hf; [|done]. intros [= <-].
  destruct (apd_text_plain _ _ Hv Hf) as [Hne Hplain]. destruct (apd_text_again _ _ Hv Hf) as (v' & Hv' & Hf' & Ht).
  exists (mkDecimal v'). rewrite bool_decide_false by done. by rewrite Hplain, Hv', Hf'.
Qed.

Lemma normalize_text_again key text s : normalize_text key text = Ok s -> normalize_text key s = Ok s.
Proof.
  unfold normalize_text. destruct (bool_decide (key ∈ duration_keys)).
  - destruct (ParseDuration text) as [n|] eqn:Hn; [|done]. case_guard as Hneg; [done|]. intros [= <-].
    by rewrite (duration_again _ _ Hn), Hneg.
  - destruct (bool_decide (key ∈ decimal_keys)); [|done].
    destruct (ParseDecimal text) as [d|] eqn:Hd; [|done]. intros [= <-].
    destruct (decimal_again _ _ Hd) as (d' & -> & Ht). by rewrite Ht.
Qed.

(** Normalizing is idempotent: a stored payload value is its own normal form,
    so an entity that is saved again keeps its hash. *)
Theorem normalization_idempotent value key v :
  normalizeNumericValue value key = Ok v -> normalizeNumericValue v key = Ok v.
Proof.
  revert key v. induction value as [|b|lit|s|l IH|l IH] using json_rect_nested; intros key v Hv; cbn in Hv.
  - by injection Hv as <-.
  - by injection Hv as <-.
  - destruct (numericPayloadField key) eqn:E; [done|]. injection Hv as <-. cbn. by rewrite E.
  - apply result_bind_Ok in Hv as (s' & Hs & [= <-]). cbn. by rewrite (normalize_text_again _ _ _ Hs).
  - apply result_bind_Ok in Hv as (out & Hout & [= <-]). apply map_result_Ok in Hout. cbn.
    assert (map_result (fun child => normalizeNumericValue child key) out = Ok out) as ->; [|done].
    apply map_result_Ok. induction Hout as [|x y xs ys Hxy _ IHl]; constructor.
    + apply Forall_cons in IH as [IHx _]. by eapply IHx.
    + apply IHl. by apply Forall_cons in IH as [_ ?].
  - apply result_bind_Ok in Hv as (out & Hout & [= <-]). apply map_result_Ok in Hout. cbn.
    match goal with |- result_bind ?m _ = _ => assert (m = Ok out) as ->; [|done] end.
    apply map_result_Ok. induction Hout as [|[n x] y xs ys Hxy _ IHl]; constructor.
    + apply result_bind_Ok in Hxy as (c & Hc & [= <-]). apply Forall_cons in IH as [IHx _]. simpl in IHx.
      by rewrite (IHx _ _ Hc).
    + apply IHl. by apply Forall_cons in IH as [_ ?].
Qed.
End normal.

(** ** References *)
Lemma mapM_perm {A B : Type} (f : A -> option B) l l' : l ≡ₚ l' ->
  match mapM f l, mapM f l' with Some k, Some k' => k ≡ₚ k' | None, None => True | _, _ => False end.
Proof.
  induction 1 as [|x l l' _ IH|x y l|l1 l2 l3 _ IH1 _ IH2]; simpl.
  - done.
  - destruct (f x); simpl; [|done]. destruct (mapM f l), (mapM f l'); simpl; try done. by constructor.
  - destruct (f x), (f y); simpl; try done. destruct (mapM f l); simpl; [|done]. by constructor.
  - destruct (mapM f l1), (mapM f l2), (mapM f l3); try done. by etrans.
Qed.
Lemma mapM_keys {V W : Type} (f : string * V -> option (string * W)) l k :
  (forall x y, f x = Some y -> y.1 = x.1) -> mapM f l = Some k -> k.*1 = l.*1.
Proof.
  intros Hf. rewrite mapM_Some. induction 1 as [|x y l k Hxy _ IH]; csimpl; [done|]. by rewrite (Hf _ _ Hxy), IH.
Qed.

(** The decoded payload does not depend on the order of the map. *)
Lemma generic_payload_perm p p' : NoDup p.*1 -> p ≡ₚ p' -> generic_payload (Some p) = generic_payload (Some p').
Proof.
  intros Hnd Hp. unfold generic_payload. simpl.
  set (f := fun '(key, raw) => v ← decode_document raw; Some (key, v)).
  pose proof (mapM_perm f _ _ Hp) as Hm. destruct (mapM f p) as [k|] eqn:Ek, (mapM f p') as [k'|]; try done.
  f_equal. apply sort_on_key_unique; [apply _| |done].
  rewrite (mapM_keys f p k); [done| |done]. intros [key raw] y. simpl. intros (v & _ & [= <-])%bind_Some. done.
Qed.

Section indexes.
Context `{UuidLib}.

Lemma add_references_spec source cs : forall refs,
  (forall i r, refs !! i = Some r -> Ref_Ordinal r = Z.of_nat i /\ Ref_SourceID r = source /\ ID_Valid (Ref_TargetID r) = true) ->
  let out := foldl (add_reference source) refs cs in
  (forall i r, out !! i = Some r -> Ref_Ordinal r = Z.of_nat i /\ Ref_SourceID r = source /\ ID_Valid (Ref_TargetID r) = true) /\
  (forall path kind id, (exists r, r ∈ out /\ Ref_FieldPath r = path /\ Ref_ExpectedKind r = kind /\ Ref_TargetID r = id) <->
     (exists r, r ∈ refs /\ Ref_FieldPath r = path /\ Ref_ExpectedKind r = kind /\ Ref_TargetID r = id) \/
     (path, kind, id) ∈ cs /\ ID_Valid id = true).
Proof.
  induction cs as [|[[path kind] id] cs IH]; intros refs Hrefs; simpl.
  - split; [done|]. intros p k i. split; [by left|]. intros [?|[?%elem_of_nil _]]; done.
  - destruct (ID_Valid id) eqn:Hid.
    + destruct (IH (refs ++ [mkReference source path kind id (Z.of_nat (length refs))])) as [H1 H2].
      { intros i r [Hi|[Hlen Hi]]%lookup_app_Some; [by apply Hrefs|].
        apply list_lookup_singleton_Some in Hi as [Hz <-]. simpl. split_and!; [lia|done|done]. }
      split; [done|]. intros p k i. rewrite H2. setoid_rewrite elem_of_app. setoid_rewrite list_elem_of_singleton.
      rewrite elem_of_cons. split.
      * intros [(r & [Hr| ->] & <- & <- & <-)|[Hin Hv]].
        { left. by exists r. }
        { right. split; [by left|done]. }
        { right. split; [by right|done]. }
      * intros [(r & Hr & <- & <- & <-)|[[[= -> -> ->]|Hin] Hv]].
        { left. exists r. auto. }
        { left. eexists. split; [by right|done]. }
        { by right. }
    + destruct (IH refs Hrefs) as [H1 H2]. split; [done|]. intros p k i. rewrite H2, elem_of_cons.
      split; [tauto|]. intros [?|[[[= -> -> ->]|?] Hv]]; [tauto|congruence|tauto].
Qed.

(** The reference index of an entity is sorted by path, numbers its references
    from zero in the order of the walk, holds exactly the valid identities the
    walk meets, and does not depend on the order of the payload map. *)
Theorem reference_index_exact e p p' :
  Payload e = Some p -> NoDup p.*1 -> p ≡ₚ p' ->
  let '(refs, tags) := ExtractIndexes e in
  ExtractIndexes (with_payload (Some p') e) = (refs, tags) /\
  Ref_Ordinal <$> sort_by (less_on Ref_Ordinal Z.ltb) refs = Z.of_nat <$> seq 0 (length refs) /\
  (forall path kind id, (exists r, r ∈ refs /\ Ref_FieldPath r = path /\ Ref_ExpectedKind r = kind /\ Ref_TargetID r = id) <->
     ID_Valid id = true /\
     (path, kind, id) ∈ tag_candidates e ++ walkReferences (generic_payload (Some p)) "payload") /\
  (forall t, t ∈ tags <-> Tag_EntityID t = Entity_ID e /\ Tag_TagID t ∈ TagIDs e /\ ID_Valid (Tag_TagID t) = true).
Proof.
  intros Hp Hnd Hperm. unfold ExtractIndexes. rewrite Hp.
  set (cs := tag_candidates e ++ walkReferences _ "payload").
  destruct (add_references_spec (Entity_ID e) cs []) as [Hall Hmem]; [by intros i r; rewrite lookup_nil|].
  set (out := foldl _ [] cs) in *. split_and!.
  - simpl. by rewrite <- (generic_payload_perm _ _ Hnd Hperm).
  - assert (Ref_Ordinal <$> out = Z.of_nat <$> seq 0 (length out)) as Hord.
    { apply list_eq. intros i. rewrite !list_lookup_fmap. destruct (out !! i) as [r|] eqn:Hi; simpl.
      - destruct (Hall i r Hi) as [-> _]. rewrite lookup_seq_lt by (by eapply lookup_lt_Some). done.
      - apply lookup_ge_None in Hi. by rewrite lookup_seq_ge. }
    rewrite length_sort_by, <- Hord. f_equal.
    assert (NoDup (Ref_Ordinal <$> out)) as Hndo by (rewrite Hord; apply NoDup_fmap_2; [apply _|apply NoDup_seq]).
    rewrite (sort_on_key_unique Ref_Ordinal Z.ltb _ out); [| |apply sort_by_perm].
    + apply sort_by_id. assert (StronglySorted Z.lt (Ref_Ordinal <$> out)) as Hs.
      { rewrite Hord. clear. generalize (length out) as n, 0%nat as k. induction n as [|n IH]; intros k; csimpl; constructor; [apply IH|].
        apply Forall_forall. intros z (m & -> & Hm%elem_of_seq)%list_elem_of_fmap. lia. }
      clear -Hs. induction out as [|r out IH]; csimpl in *; [constructor|]. apply StronglySorted_cons in Hs as [Hf Hs].
      constructor; [by apply IH|]. rewrite Forall_fmap in Hf. eapply Forall_impl; [exact Hf|]. intros q Hq.
      unfold not_after, less_on. simpl in Hq. apply Z.ltb_ge. lia.
    + by rewrite sort_by_perm.
  - intros path kind id. setoid_rewrite elem_of_sort_by. rewrite Hmem. split.
    + intros [(r & ?%elem_of_nil & _)|[? ?]]; done.
    + intros [? ?]. by right.
  - intros t. rewrite list_elem_of_fmap. split.
    + intros (id & -> & Hid). rewrite list_elem_of_In, filter_In, <- list_elem_of_In in Hid. simpl. tauto.
    + intros (Hs & Hin & Hv). exists (Tag_TagID t). split; [destruct t; simpl in *; by subst|].
      by rewrite list_elem_of_In, filter_In, <- list_elem_of_In.
Qed.
End indexes.

(** ** The schema registry *)
Lemma load_schemas_ids files : forall m m',
  (forall id s, m !! id = Some s -> Schema_ID s = id) ->
  foldr_result load_schema m files = Ok m' -> forall id s, m' !! id = Some s -> Schema_ID s = id.
Proof.
  induction files as [|[name raw] files IH]; intros m m' Hm H; simpl in H; [by injection H as <-|].
  apply result_bind_Ok in H as (m1 & H1 & H). eapply IH; [|exact H]. clear IH H m'.
  unfold load_schema in H1. destruct (has_suffix ".json" name); simpl in H1; [|by injection H1 as <-].
  destruct (Unmarshal raw) as [[| | | | |doc]|]; try discriminate.
  match type of H1 with context [bool_decide (?x = EmptyString)] => set (id := x) in * end.
  destruct (bool_decide (id = EmptyString)); [discriminate|].
  destruct (bool_decide (is_Some (m !! id))); [discriminate|]. injection H1 as <-.
  intros id' s. intros [[<- <-]|[_ ?]]%lookup_insert_Some; auto.
Qed.

#[local] Arguments has_prefix : simpl never.
Theorem registry_covers_builtin_kinds files r :
  NewSchemaRegistry files = Ok r ->
  forall k, match Registry_Schema r k with
            | Some s => EntityKind_Valid k = true /\ Schema_ID s = kindSchema k /\
                        (forall ref, ref ∈ schemaReferences (Schema_Raw s) -> has_prefix "urn:eco:schema:" ref = true ->
                           is_Some (SchemaByID r ref))
            | None => EntityKind_Valid k = false
            end.
Proof.
  unfold NewSchemaRegistry. intros (m & Hm & H)%result_bind_Ok. match type of H with (if ?b then _ else _) = _ => destruct b eqn:Hk end; [discriminate|].
  match type of H with (if ?b then _ else _) = _ => destruct b eqn:Hr end; [discriminate|]. injection H as <-.
  apply negb_false_iff in Hk, Hr. apply forallb_Forall in Hk, Hr. rewrite Forall_forall in Hk. rewrite Forall_forall in Hr. intros k.
  unfold Registry_Schema, schema_id. simpl. unfold SchemaByID. simpl.
  assert (snd <$> List.find (fun kv => bool_decide (fst kv = k)) ((fun k => (k, kindSchema k)) <$> builtin_kinds) =
          if EntityKind_Valid k then Some (kindSchema k) else None) as Hfind by by destruct k.
  simpl in Hfind. rewrite Hfind. clear Hfind. destruct (EntityKind_Valid k) eqn:Hv; simpl; [|done].
  assert (k ∈ builtin_kinds) as Hin by (destruct k; [compute_decide..|done]).
  pose proof (Hk k Hin) as [s Hs]%bool_decide_eq_true. rewrite Hs. split_and!; [done| |].
  - eapply load_schemas_ids; [|exact Hm|exact Hs]. intros id s'. by rewrite lookup_empty.
  - intros ref Href Hp. assert (s ∈ (map_to_list m).*2) as Hsm.
    { apply list_elem_of_fmap. exists (kindSchema k, s). split; [done|]. by apply elem_of_map_to_list. }
    specialize (Hr s Hsm). unfold references_resolve in Hr. apply forallb_Forall in Hr. rewrite Forall_forall in Hr.
    specialize (Hr ref Href). cbv beta in Hr. rewrite Hp in Hr. cbn [negb orb] in Hr. by apply bool_decide_eq_true in Hr.
Qed.

Module EntityExamples.
Local Existing Instance canonical_uuid.
Local Existing Instance latin1_tables.
Local Existing Instance integer_apd.
#[local] Instance text_floats : FloatText := {| float_text := Ok |}.

Definition quoted (s : string) : string := (quote_mark +:+ s +:+ quote_mark)%string.
Definition uuid (last : string) : ID := ("01890a5d-ac96-774b-bcce-b302099a805" +:+ last)%string.
Definition skill : Entity :=
  mkEntity (uuid "1") KindSkill "fireball" "Fireball" "" (Some []) "" StatusActive 1
    (Some [("costs"%string, "[]"%string); ("cooldown"%string, quoted "0010");
           ("effect_ids"%string, ("[" +:+ quoted (uuid "2") +:+ "," +:+ quoted "x" +:+ "]")%string)])
    (Some []) 3 1 1.

Definition renamed : Entity := Eval vm_compute in
  match ApplyPatch skill [("name"%string, quoted "Comet")] 9 with Ok e => e | Err _ => skill end.
Lemma patch_keeps_identity_witness :
  Entity_Name renamed = "Comet"%string /\ EntityVersion renamed = 3 + 1 /\ Payload renamed = Payload skill.
Proof.
  destruct (patch_keeps_identity skill [("name"%string, quoted "Comet")] 9 renamed) as (_ & _ & _ & _ & _ & Hv & _ & _ & _ & _ & Hp & _).
  - vm_compute. reflexivity.
  - split_and!; [reflexivity|exact Hv|apply Hp; compute_decide].
Defined.

(** The patch object names one field; the others stay. *)
Definition costs_only : string := ("{" +:+ quoted "costs" +:+ ": [1] }")%string.
Definition repriced : Entity := Eval vm_compute in
  match ApplyPatch skill [("payload"%string, costs_only)] 9 with Ok e => e | Err _ => skill end.
Lemma payload_patch_never_removes_witness :
  assoc (entries (Payload repriced)) "costs" = Some "[1]"%string /\ has_field "cooldown" (entries (Payload repriced)).
Proof.
  split; [reflexivity|]. apply (payload_patch_never_removes skill costs_only 9).
  - vm_compute. reflexivity.
  - vm_compute. discriminate.
  - vm_compute. eauto.
Defined.

#[local] Instance integer_text : ApdText.
Proof.
  assert (forall s d, apd_NewFromString (ApdLib := integer_apd) s = Ok d -> int64_ok d = true /\ Decimal_String (mkDecimal d) = Itoa d) as Hd.
  { intros s d. simpl. destruct (ParseInt s) as [n|] eqn:E; [|done]. intros [= <-]. split; [by eapply ParseInt_ok|].
    unfold Decimal_String. simpl. destruct (n =? 0) eqn:Ez; bool_to_prop; [by subst|].
    pose proof (Itoa_not n "." eq_refl) as Hnot. unfold ContainsAny in Hnot. apply negb_false_iff in Hnot.
    assert (mem_char "." (Itoa n) = false) as ->; [|done].
    clear -Hnot. induction (Itoa n) as [|a t IH]; [done|]. cbn [all_chars mem_char] in *.
    apply andb_prop in Hnot as [Ha Ht]. destruct (decide ("."%char = a)) as [<-|]; [done|auto]. }
  split.
  - intros s d Hs _. destruct (Hd s d Hs) as [_ ->].
    destruct (Itoa_digits d) as (t & Hne & Hdig & _ & Heq). split.
    + rewrite Heq. by destruct (d <? 0).
    + by apply Itoa_not_lower.
  - intros s d Hs _. destruct (Hd s d Hs) as [Hok ->]. exists d. split_and!; [|done|].
    + simpl. by rewrite (ParseInt_Itoa d Hok).
    + by apply (Hd s d).
Qed.

Lemma normalization_idempotent_witness :
  normalizeNumericValue (JObject [("cooldown"%string, JString "0010")]) "" = Ok (JObject [("cooldown"%string, JString "10")]) /\
  normalizeNumericValue (JObject [("cooldown"%string, JString "10")]) "" = Ok (JObject [("cooldown"%string, JString "10")]).
Proof.
  split; [vm_compute; reflexivity|].
  apply (normalization_idempotent (JObject [("cooldown"%string, JString "0010")])). vm_compute. reflexivity.
Defined.

Lemma reference_index_exact_witness :
  length (ExtractIndexes skill).1 = 1%nat /\
  exists r, r ∈ (ExtractIndexes skill).1 /\ Ref_FieldPath r = "payload.effect_ids[0]"%string /\
    Ref_ExpectedKind r = KindEffect /\ Ref_TargetID r = uuid "2".
Proof.
  split; [vm_compute; reflexivity|].
  pose proof (reference_index_exact skill (entries (Payload skill)) (entries (Payload skill)) eq_refl
    ltac:(compute_decide) ltac:(reflexivity)) as H.
  destruct (ExtractIndexes skill) as [refs tags]. destruct H as (_ & _ & Hmem & _). apply Hmem.
  split; [vm_compute; reflexivity|]. compute_decide.
Defined.
End EntityExamples.
