(* ===== verification/FormulaRegistry.v ===== *)
(** * internal/formula/registry.go: the closed registry of units and functions *)
From S2P Require Import Prelude GoSort GoStrings GoCrypto.
Open Scope string_scope.

Definition DSLVersion : string := "dsl-v1".
Definition ASTSchemaVersion : string := "ast-v1".

Definition ValueType := string.
Definition DecimalType : ValueType := "decimal".
Definition IntegerType : ValueType := "integer".
Definition BooleanType : ValueType := "boolean".

Record Unit := mkUnit { Unit_Name : string; Unit_ValueType : ValueType; Dimension : string; Base : string }.
Global Instance Unit_eq_dec : EqDecision Unit.
Proof. solve_decision. Defined.
(** The zero value [Unit{}]. *)
Definition no_unit : Unit := mkUnit "" "" "" "".

Inductive BinaryOperation :=
  | OperationAdd | OperationSubtract | OperationCompare | OperationMultiply | OperationDivide.

Definition AllowsBinary (operation : BinaryOperation) (left right : Unit) : bool :=
  match operation with
  | OperationAdd | OperationSubtract | OperationCompare =>
      bool_decide (Dimension left = Dimension right) &&
      bool_decide (Unit_ValueType left = Unit_ValueType right)
  | OperationMultiply | OperationDivide =>
      bool_decide (Dimension left = "scalar") || bool_decide (Dimension right = "scalar")
  end.

Definition UnitsV1 : list Unit :=
  [ mkUnit "scalar" DecimalType "scalar" "scalar";
    mkUnit "count" IntegerType "count" "count";
    mkUnit "millisecond" IntegerType "duration" "millisecond";
    mkUnit "ratio" DecimalType "ratio" "ratio";
    mkUnit "resource_point" DecimalType "resource" "resource_point";
    mkUnit "health_point" DecimalType "health" "health_point";
    mkUnit "damage_point" DecimalType "damage" "damage_point";
    mkUnit "healing_point" DecimalType "healing" "healing_point";
    mkUnit "control_millisecond" IntegerType "control_duration" "control_millisecond" ].

Record Function_ := mkFunction {
  Function_Name : string; Signature : string; Pure : bool; ImplementationVersion : string
}.
Global Instance Function_eq_dec : EqDecision Function_.
Proof. solve_decision. Defined.

Definition v1_signature_list : list (string * string) :=
  [ ("if", "(Boolean,T,T)->T"); ("min", "(T,T,...)->T"); ("max", "(T,T,...)->T");
    ("clamp", "(T,T,T)->T"); ("abs", "(T)->T"); ("floor", "(T)->T"); ("ceil", "(T)->T");
    ("round", "(T)->T") ].
Definition v1FunctionSignatures : gmap string string := list_to_map v1_signature_list.

Definition FunctionsV1 : list Function_ :=
  (fun '(name, signature) => mkFunction name signature true "1") <$> v1_signature_list.

Record Registry := mkRegistry {
  units : gmap string Unit;
  functions : gmap string Function_;
  manifestHash : string
}.

Section registry.
Context `{UnicodeTables}.

Definition unit_part (u : Unit) : string :=
  "unit:" +:+ Unit_Name u +:+ ":" +:+ Unit_ValueType u +:+ ":" +:+ Dimension u +:+ ":" +:+ Base u.
Definition function_part (f : Function_) : string :=
  "function:" +:+ Function_Name f +:+ ":" +:+ Signature f +:+ ":" +:+ ImplementationVersion f.

Definition unit_invalid (u : Unit) : bool :=
  bool_decide (Unit_Name u = "") || bool_decide (Dimension u = "") || bool_decide (Base u = "") ||
  (negb (bool_decide (Unit_ValueType u = DecimalType)) && negb (bool_decide (Unit_ValueType u = IntegerType))).
Definition function_invalid (f : Function_) : bool :=
  bool_decide (Function_Name f = "") || bool_decide (Signature f = "") || negb (Pure f) ||
  bool_decide (ImplementationVersion f = "").

(** The bodies of the two loops of [NewRegistry]. *)
Definition register_unit (s : gmap string Unit * list string) (u : Unit) :
    result (gmap string Unit * list string) string :=
  let '(us, parts) := s in
  if unit_invalid u then Err ("invalid unit " +:+ Quote (Unit_Name u))
  else if us !! Unit_Name u then Err ("duplicate unit " +:+ Quote (Unit_Name u))
  else Ok (<[Unit_Name u := u]> us, (parts ++ [unit_part u])%list).

Definition register_function (s : gmap string Function_ * list string) (f : Function_) :
    result (gmap string Function_ * list string) string :=
  let '(fs, parts) := s in
  if function_invalid f then Err ("invalid function " +:+ Quote (Function_Name f))
  else if fs !! Function_Name f then Err ("duplicate function " +:+ Quote (Function_Name f))
  else if bool_decide (v1FunctionSignatures !! Function_Name f = Some (Signature f)) then
    Ok (<[Function_Name f := f]> fs, (parts ++ [function_part f])%list)
  else Err ("unknown or changed v1 function signature for " +:+ Quote (Function_Name f)).


Definition NewRegistry (us : list Unit) (fs : list Function_) : result Registry string :=
  if negb (bool_decide (length us = length UnitsV1)) ||
     negb (bool_decide (length fs = size v1FunctionSignatures))
  then Err "v1 registry module count changed; create a new DSL/Registry version"
  else
    let? (unit_map, parts) := foldr_result register_unit (∅, [DSLVersion]) us in
    let? (function_map, parts) := foldr_result register_function (∅, parts) fs in
    match List.find (fun '(name, _) => negb (bool_decide (is_Some (function_map !! name)))) v1_signature_list with
    | Some (name, _) => Err ("missing v1 function " +:+ Quote name)
    | None => Ok (mkRegistry unit_map function_map (sha256_hex (Join (sort_strings parts) newline)))
    end.

Definition V1Registry : result Registry string := NewRegistry UnitsV1 FunctionsV1.
End registry.

Definition Registry_Unit (r : Registry) (name : string) : option Unit := units r !! name.
Definition Registry_Function (r : Registry) (name : string) : option Function_ := functions r !! name.
Definition ManifestHash (r : Registry) : string := manifestHash r.
Definition Registry_Units (r : Registry) : list Unit :=
  sort_by (less_on Unit_Name String.ltb) (map_to_list (units r)).*2.
Definition Registry_Functions (r : Registry) : list Function_ :=
  sort_by (less_on Function_Name String.ltb) (map_to_list (functions r)).*2.
Definition VerifyManifestHash (r : Registry) (expected : string) : result unit string :=
  if negb (bool_decide (expected = manifestHash r)) then Err "registry manifest hash mismatch" else Ok tt.

(** ** What a successful construction establishes *)
Section registry_lemmas.
Context `{UnicodeTables}.

Definition unit_entry (u : Unit) : string * Unit := (Unit_Name u, u).
Definition function_entry (f : Function_) : string * Function_ := (Function_Name f, f).

Lemma register_unit_Ok us parts u s' :
  register_unit (us, parts) u = Ok s' <->
  unit_invalid u = false /\ us !! Unit_Name u = None /\
  s' = (<[Unit_Name u := u]> us, (parts ++ [unit_part u])%list).
Proof.
  unfold register_unit. destruct (unit_invalid u); [naive_solver|].
  destruct (us !! Unit_Name u); naive_solver.
Qed.

Lemma register_function_Ok fs parts f s' :
  register_function (fs, parts) f = Ok s' <->
  function_invalid f = false /\ fs !! Function_Name f = None /\
  v1FunctionSignatures !! Function_Name f = Some (Signature f) /\
  s' = (<[Function_Name f := f]> fs, (parts ++ [function_part f])%list).
Proof.
  unfold register_function. destruct (function_invalid f); [naive_solver|].
  destruct (fs !! Function_Name f); [naive_solver|].
  case_bool_decide; naive_solver.
Qed.
End registry_lemmas.

(** A loop that registers valid, fresh entries under their names: its result is
    the map of the whole list, whatever the order. *)
Section register_all.
Context {A : Type} (name : A -> string) (ok : A -> Prop) (part : A -> string).
Context (register : gmap string A * list string -> A -> result (gmap string A * list string) string).
Hypothesis register_Ok : forall m parts a s',
  register (m, parts) a = Ok s' <->
  ok a /\ m !! name a = None /\ s' = (<[name a := a]> m, (parts ++ [part a])%list).

Lemma register_all l m parts s' :
  foldr_result register (m, parts) l = Ok s' <->
  Forall ok l /\ NoDup (name <$> l) /\ (forall a, a ∈ l -> m !! name a = None) /\
  s' = (foldl (fun m a => <[name a := a]> m) m l, (parts ++ (part <$> l))%list).
Proof.
  revert m parts. induction l as [|a l IH]; intros m parts; simpl.
  { rewrite app_nil_r. split.
    - intros [= <-]. repeat split; try constructor. intros a Ha. by apply not_elem_of_nil in Ha.
    - by intros (_ & _ & _ & ->). }
  rewrite result_bind_Ok. setoid_rewrite register_Ok. split.
  - intros ([m1 p1] & (Hok & Hfresh & [= -> ->]) & Hrest).
    apply IH in Hrest as (Hall & Hnd & Hnone & ->).
    repeat split.
    + by constructor.
    + constructor; [|done]. intros (b & Hb & Hin)%list_elem_of_fmap.
      specialize (Hnone b Hin). rewrite <- Hb, lookup_insert_eq in Hnone. done.
    + intros b [->|Hb]%elem_of_cons; [done|].
      specialize (Hnone b Hb). by apply lookup_insert_None in Hnone as [? _].
    + by rewrite <- app_assoc.
  - intros (Hok%Forall_cons & Hnd%NoDup_cons & Hnone & ->).
    destruct Hok as [Hok Hall], Hnd as [Hna Hnd].
    eexists. split; [repeat split; [done | apply Hnone; left]|].
    apply IH. repeat split; [done|done| |by rewrite <- app_assoc].
    intros b Hb. apply lookup_insert_None. split; [by apply Hnone; right|].
    intros Heq. apply Hna. rewrite Heq. by apply list_elem_of_fmap_2.
Qed.

Lemma foldl_insert_lookup l (m : gmap string A) k :
  NoDup (name <$> l) ->
  foldl (fun m a => <[name a := a]> m) m l !! k =
  match list_find (fun a => name a = k) l with Some (_, a) => Some a | None => m !! k end.
Proof.
  revert m. induction l as [|a l IH]; intros m Hnd; simpl; [done|].
  apply NoDup_cons in Hnd as [Hna Hnd]. rewrite IH by done.
  destruct (decide (name a = k)) as [<-|Hne].
  - destruct (list_find (fun b => name b = name a) l) as [[i b]|] eqn:E; simpl.
    + apply list_find_Some in E as (Hb & Heq & _). exfalso. apply Hna.
      rewrite <- Heq. apply list_elem_of_fmap_2. by eapply list_elem_of_lookup_2.
    + by rewrite lookup_insert_eq.
  - destruct (list_find (fun b => name b = k) l) as [[i b]|]; simpl; [done|].
    by rewrite lookup_insert_ne.
Qed.

Lemma foldl_insert_perm l l' (m : gmap string A) :
  l ≡ₚ l' -> NoDup (name <$> l) ->
  foldl (fun m a => <[name a := a]> m) m l = foldl (fun m a => <[name a := a]> m) m l'.
Proof.
  intros Hp. revert m. induction Hp as [|a l l' _ IH|a b l|l l1 l2 Hp1 IH1 _ IH2]; intros m Hnd; simpl in *.
  - done.
  - apply IH. by apply NoDup_cons in Hnd as [_ ?].
  - apply NoDup_cons in Hnd as [Hab _]. rewrite insert_insert_ne; [done|].
    intros Heq. apply Hab. rewrite Heq. left.
  - rewrite IH1 by done. apply IH2. by rewrite <- Hp1.
Qed.
End register_all.

Section registry_facts.
Context `{UnicodeTables}.

Definition unit_ok (u : Unit) : Prop := unit_invalid u = false.
Definition function_ok (f : Function_) : Prop :=
  function_invalid f = false /\ v1FunctionSignatures !! Function_Name f = Some (Signature f).

Lemma register_units l m parts s' :
  foldr_result register_unit (m, parts) l = Ok s' <->
  Forall unit_ok l /\ NoDup (Unit_Name <$> l) /\ (forall a, a ∈ l -> m !! Unit_Name a = None) /\
  s' = (foldl (fun m a => <[Unit_Name a := a]> m) m l, (parts ++ (unit_part <$> l))%list).
Proof. apply register_all. intros. apply register_unit_Ok. Qed.

Lemma register_functions l m parts s' :
  foldr_result register_function (m, parts) l = Ok s' <->
  Forall function_ok l /\ NoDup (Function_Name <$> l) /\ (forall a, a ∈ l -> m !! Function_Name a = None) /\
  s' = (foldl (fun m a => <[Function_Name a := a]> m) m l, (parts ++ (function_part <$> l))%list).
Proof.
  apply register_all. intros. rewrite register_function_Ok. unfold function_ok. naive_solver.
Qed.

Definition unit_map (us : list Unit) : gmap string Unit := foldl (fun m a => <[Unit_Name a := a]> m) ∅ us.
Definition function_map (fs : list Function_) : gmap string Function_ :=
  foldl (fun m a => <[Function_Name a := a]> m) ∅ fs.
Definition missing_v1 (m : gmap string Function_) : option (string * string) :=
  List.find (fun '(name, _) => negb (bool_decide (is_Some (m !! name)))) v1_signature_list.

(** [NewRegistry] succeeds exactly on lists of the fixed sizes of valid,
    distinctly named entries that cover every v1 function. *)
Lemma NewRegistry_Ok us fs r :
  NewRegistry us fs = Ok r <->
  length us = length UnitsV1 /\ length fs = size v1FunctionSignatures /\
  Forall unit_ok us /\ NoDup (Unit_Name <$> us) /\ Forall function_ok fs /\ NoDup (Function_Name <$> fs) /\
  missing_v1 (function_map fs) = None /\
  r = mkRegistry (unit_map us) (function_map fs)
        (sha256_hex (Join (sort_strings (DSLVersion :: (unit_part <$> us) ++ (function_part <$> fs))) newline)).
Proof.
  unfold NewRegistry. destruct (decide (length us = length UnitsV1)) as [Hu|Hu];
    [|rewrite bool_decide_false by done; split; [done|naive_solver]].
  destruct (decide (length fs = size v1FunctionSignatures)) as [Hf|Hf];
    [|rewrite (bool_decide_false (length fs = _)), orb_true_r by done; split; [done|naive_solver]].
  rewrite !bool_decide_true by done. simpl negb. simpl orb. cbv iota.
  rewrite result_bind_Ok. split.
  - intros ([um p] & (Hok & Hnd & _ & [= -> ->])%register_units & H1).
    apply result_bind_Ok in H1 as ([fm p] & (Hok' & Hnd' & _ & [= -> ->])%register_functions & H1).
    fold (function_map fs) in H1. fold (missing_v1 (function_map fs)) in H1.
    destruct (missing_v1 (function_map fs)) as [[? ?]|] eqn:Hm; [done|]. injection H1 as <-.
    repeat split; assumption || reflexivity.
  - intros (_ & _ & Hok & Hnd & Hok' & Hnd' & Hm & ->).
    eexists (_, _). split; [apply register_units; split_and!; [done|done|intros; apply lookup_empty|reflexivity]|].
    apply result_bind_Ok. eexists (_, _).
    split; [apply register_functions; split_and!; [done|done|intros; apply lookup_empty|reflexivity]|].
    fold (function_map fs). fold (missing_v1 (function_map fs)). rewrite Hm. done.
Qed.

(** Every unit of a registry has a numeric value type. *)
Lemma registry_unit_numeric us fs r name u :
  NewRegistry us fs = Ok r -> Registry_Unit r name = Some u ->
  Unit_Name u = name /\ Unit_ValueType u <> BooleanType.
Proof.
  intros (_ & _ & Hok & Hnd & _ & _ & _ & ->)%NewRegistry_Ok Hu.
  unfold Registry_Unit, unit_map in Hu. simpl in Hu.
  rewrite (foldl_insert_lookup Unit_Name) in Hu by done.
  destruct (list_find _ us) as [[i b]|] eqn:E; [|by rewrite lookup_empty in Hu].
  apply list_find_Some in E as (Hb & Heq & _). injection Hu as ->. split; [done|].
  rewrite Forall_lookup in Hok. specialize (Hok i u Hb). unfold unit_ok, unit_invalid in Hok.
  intros Ht. rewrite Ht in Hok. rewrite orb_true_r in Hok. done.
Qed.

(** A registered function is one of the eight of the language. *)
Lemma registry_function_v1 us fs r name f :
  NewRegistry us fs = Ok r -> Registry_Function r name = Some f ->
  Function_Name f = name /\ v1FunctionSignatures !! name = Some (Signature f).
Proof.
  intros (_ & _ & _ & _ & Hok & Hnd & _ & ->)%NewRegistry_Ok Hf.
  unfold Registry_Function, function_map in Hf. simpl in Hf.
  rewrite (foldl_insert_lookup Function_Name) in Hf by done.
  destruct (list_find _ fs) as [[i b]|] eqn:E; [|by rewrite lookup_empty in Hf].
  apply list_find_Some in E as (Hb & Heq & _). injection Hf as ->. split; [done|].
  rewrite Forall_lookup in Hok. destruct (Hok i f Hb) as [_ Hs]. by rewrite <- Heq.
Qed.

(** The registry, its manifest hash included, does not depend on the order in
    which the units and functions are declared. *)
Theorem registry_order_independent us us' fs fs' r :
  us ≡ₚ us' -> fs ≡ₚ fs' -> NewRegistry us fs = Ok r -> NewRegistry us' fs' = Ok r.
Proof.
  intros Hu Hf (Hlu & Hlf & Hok & Hnd & Hok' & Hnd' & Hm & ->)%NewRegistry_Ok.
  apply NewRegistry_Ok.
  apply (Permutation_length) in Hu as Hlu'. apply Permutation_length in Hf as Hlf'.
  assert (unit_map us = unit_map us') as <- by by apply foldl_insert_perm.
  assert (function_map fs = function_map fs') as <- by by apply foldl_insert_perm.
  split_and!; [congruence | congruence | by rewrite <- Hu | by rewrite <- Hu | by rewrite <- Hf
    | by rewrite <- Hf | assumption |].
  f_equal. f_equal. f_equal. apply sort_by_unique; [apply _|]. by rewrite Hu, Hf.
Qed.
End registry_facts.

Module RegistryExamples.
Lemma v1_registry_ok : is_ok V1Registry = true.
Proof. vm_compute. reflexivity. Qed.

Lemma registry_order_independent_witness :
  exists r, V1Registry = Ok r /\ NewRegistry (rev UnitsV1) (rev FunctionsV1) = Ok r.
Proof.
  eexists. split; [vm_compute; reflexivity|].
  apply (registry_order_independent UnitsV1 (rev UnitsV1) FunctionsV1 (rev FunctionsV1));
    [apply Permutation_rev | apply Permutation_rev | vm_compute; reflexivity].
Defined.
End RegistryExamples.
