(* ===== verification/FormulaAst.v ===== *)
(** * internal/formula/ast.go: the data-only syntax tree *)
From S2P Require Import Prelude GoStrings GoCrypto GoJson.
Open Scope Z_scope.

Record Span := mkSpan { StartByte : Z; EndByte : Z }.
Global Instance Span_eq_dec : EqDecision Span.
Proof. solve_decision. Defined.
Definition Span_Valid (s : Span) : bool := (0 <=? StartByte s) && (StartByte s <=? EndByte s).

Inductive NodeKind :=
  | NodeInvalid | NodeDecimal | NodeBoolean | NodeQuantity | NodeSelector | NodeCall | NodeUnary | NodeBinary
  | NodeKindUnknown (spelling : string).
Global Instance NodeKind_eq_dec : EqDecision NodeKind.
Proof. solve_decision. Defined.

Inductive Node := mkNode {
  Node_Kind : NodeKind; Node_Span : Span; Text : string; Node_Unit : string;
  Scope_ : string; Symbol : string; Operator : string; Args : list Node
}.

Record AST := mkAST { AST_Version : string; Root : Node }.

(** ** The canonical bytes: [json.Marshal] of the struct, fields in declaration
    order, empty ones omitted.  Nothing in it can fail. *)
Definition NodeKind_text (k : NodeKind) : string :=
  match k with
  | NodeInvalid => "invalid" | NodeDecimal => "decimal" | NodeBoolean => "boolean" | NodeQuantity => "quantity"
  | NodeSelector => "selector" | NodeCall => "call" | NodeUnary => "unary" | NodeBinary => "binary"
  | NodeKindUnknown s => s
  end%string.
Definition member (name text : string) : string := (marshal_string name +:+ ":" +:+ text)%string.
Definition text_member (name value : string) : list string :=
  if decide (value = EmptyString) then [] else [member name (marshal_string value)].
Definition marshal_span (s : Span) : string :=
  ("{" +:+ Join [member "start_byte" (Itoa (StartByte s)); member "end_byte" (Itoa (EndByte s))] "," +:+ "}")%string.
Fixpoint marshal_node (n : Node) : string :=
  match n with
  | mkNode kind span text unit_ scope symbol operator args =>
      ("{" +:+ Join ([member "kind" (marshal_string (NodeKind_text kind)); member "span" (marshal_span span)] ++
         text_member "text" text ++ text_member "unit" unit_ ++ text_member "scope" scope ++
         text_member "symbol" symbol ++ text_member "operator" operator ++
         match args with [] => [] | _ => [member "args" ("[" +:+ Join (map marshal_node args) "," +:+ "]")] end) "," +:+ "}")%string
  end.
Definition CanonicalBytes (a : AST) : string :=
  ("{" +:+ Join [member "version" (marshal_string (AST_Version a)); member "root" (marshal_node (Root a))] "," +:+ "}")%string.
Definition AST_Hash (a : AST) : string := sha256_hex (CanonicalBytes a).

(** Go composite literals that set only some of the fields. *)
Definition leaf (kind : NodeKind) (span : Span) (text : string) : Node := mkNode kind span text "" "" "" "" [].

(** Every node of a tree, the root included. *)
Inductive subnode : Node -> Node -> Prop :=
  | subnode_here n : subnode n n
  | subnode_arg n a m : a ∈ Args n -> subnode m a -> subnode m n.

Lemma Node_rect_args (P : Node -> Prop) :
  (forall n, Forall P (Args n) -> P n) -> forall n, P n.
Proof.
  intros step. fix go 1. intros n. apply step. destruct n as [k s t u sc sy o args]. simpl.
  induction args as [|a args IH]; constructor; [apply go | exact IH].
Qed.

(** [everywhere p n]: the predicate holds of every node of the tree. *)
Fixpoint everywhere (p : Node -> bool) (n : Node) : bool :=
  p n && match n with mkNode _ _ _ _ _ _ _ args => forallb (everywhere p) args end.

Lemma everywhere_eq p n : everywhere p n = p n && forallb (everywhere p) (Args n).
Proof. by destruct n. Qed.

Lemma everywhere_subnode p n m : everywhere p n = true -> subnode m n -> p m = true.
Proof.
  intros He Hs. induction Hs as [n|n a m Ha _ IH]; rewrite everywhere_eq in He;
    apply andb_prop in He as [Hp Hargs]; [done|].
  apply IH. apply forallb_Forall in Hargs. rewrite Forall_forall in Hargs. by apply Hargs.
Qed.

Lemma everywhere_impl (p q : Node -> bool) n :
  (forall m, p m = true -> q m = true) -> everywhere p n = true -> everywhere q n = true.
Proof.
  intros Himp. induction n as [n IH] using Node_rect_args.
  rewrite !everywhere_eq, !andb_true_iff, !forallb_Forall. intros [Hp Hargs]. split; [auto|].
  rewrite Forall_forall in *. eauto.
Qed.
