(* ===== verification/FormulaLexer.v ===== *)
(** * internal/formula/parser.go: the lexer

    [lex_step] is one iteration of the loop of [lex]; [lex_loop] iterates it.
    Every iteration advances by at least one byte, so [String.length source]
    iterations are enough ([lex_spec]). *)
From Stdlib Require Import Ascii.
From S2P Require Import Prelude GoStrings FormulaAst.
Open Scope Z_scope.

Record SyntaxError := mkSyntaxError { SyntaxError_Span : Span; Message : string }.
Record token := mkToken { kind : string; text : string; span : Span }.

Definition nat_span (a b : nat) : Span := mkSpan (Z.of_nat a) (Z.of_nat b).

(** [source[i:j]] and [source[i]]. *)
Definition slice (source : string) (i j : nat) : string := substr i j source.
Definition byte_at (source : string) (i : nat) : option ascii := String.get i source.

Fixpoint digits_len (s : string) : nat :=
  match s with
  | String a s' => if in_range 48 (byte_of a) 57 then S (digits_len s') else O
  | EmptyString => O
  end.
(** [for offset < len(source) && '0' <= source[offset] <= '9' { offset++ }] *)
Definition skip_digits (source : string) (offset : nat) : nat :=
  (offset + digits_len (string_drop offset source))%nat.

Definition is_byte (source : string) (i : nat) (cs : string) : bool :=
  match byte_at source i with Some a => mem_char a cs | None => false end.

(** [strings.ContainsRune] for an ASCII set. *)
Definition rune_in (r : Z) (set_ : string) : bool := existsb (Z.eqb r) (bytes set_).

Section lexer.
Context `{UnicodeTables}.

Definition number_end (source : string) (offset : nat) : nat :=
  let offset := skip_digits source offset in
  let offset := if is_byte source offset "." then skip_digits source (S offset) else offset in
  if is_byte source offset "eE" then
    let offset := S offset in
    let offset := if is_byte source offset "+-" then S offset else offset in
    skip_digits source offset
  else offset.

Definition identifier_rune (ch : Z) : bool := IsLetter ch || IsDigit ch || (ch =? 95).

Fixpoint identifier_len (fuel : nat) (s : string) : nat :=
  match fuel, s with
  | O, _ => O
  | _, EmptyString => O
  | S fuel', _ =>
      let '(ch, w) := decode_rune s in
      if identifier_rune ch then (w + identifier_len fuel' (string_drop w s))%nat else O
  end.
Definition identifier_end (source : string) (offset : nat) : nat :=
  (offset + identifier_len (String.length source) (string_drop offset source))%nat.

Definition operator_end (source : string) (r : Z) (offset : nat) : nat :=
  if is_byte source offset "=" then S offset
  else if ((r =? 38) || (r =? 124)) && is_byte source offset (String (char_of r) "") then S offset
  else offset.

Inductive lexeme :=
  | Skip (offset : nat)                               (* continue *)
  | Tok (kind : string) (offset : nat)                (* append a token and continue *)
  | Unsupported (offset : nat)                        (* report a rune and continue *)
  | Unterminated.                                     (* report, append the rest and break *)

Definition lex_step (source : string) (offset : nat) : lexeme :=
  let '(r, width) := decode_rune (string_drop offset source) in
  let next := (offset + width)%nat in
  if IsSpace r then Skip next
  else if rune_in r "()+-*/!,[]" then Tok (String (char_of r) "") next
  else if rune_in r "<>=&|" then Tok "op" (operator_end source r next)
  else if (r =? 36) && has_prefix "${" (string_drop offset source) then
    match index_byte "}"%char (string_drop (offset + 2) source) with
    | None => Unterminated
    | Some close => Tok "selector" (offset + 2 + close + 1)
    end
  else if IsDigit r || (r =? 46) then Tok "number" (number_end source next)
  else if IsLetter r || (r =? 95) then Tok "identifier" (identifier_end source next)
  else Unsupported next.

Definition eof_token (source : string) : token :=
  mkToken "eof" "" (nat_span (String.length source) (String.length source)).

Fixpoint lex_loop (fuel : nat) (source : string) (offset : nat) : list token * list SyntaxError :=
  match fuel with
  | O => ([eof_token source], [])
  | S fuel' =>
      if bool_decide (String.length source <= offset)%nat then ([eof_token source], [])
      else match lex_step source offset with
      | Skip next => lex_loop fuel' source next
      | Tok k next =>
          let '(tokens, errs) := lex_loop fuel' source next in
          (mkToken k (slice source offset next) (nat_span offset next) :: tokens, errs)
      | Unsupported next =>
          let '(tokens, errs) := lex_loop fuel' source next in
          (tokens, mkSyntaxError (nat_span offset next) "unsupported character" :: errs)
      | Unterminated =>
          let all_rest := nat_span offset (String.length source) in
          ([mkToken "selector" (slice source offset (String.length source)) all_rest; eof_token source],
           [mkSyntaxError all_rest "unterminated selector"])
      end
  end.

Definition lex (source : string) : list token * list SyntaxError :=
  lex_loop (String.length source) source 0.
End lexer.

Example lex_example :
  (fun t => (kind t, text t)) <$> (lex "min(${self:hp}, 1.5e3 [count]) >= 2 != 3").1 =
  [("identifier", "min"); ("(", "("); ("selector", "${self:hp}"); (",", ","); ("number", "1.5e3");
   ("[", "["); ("identifier", "count"); ("]", "]"); (")", ")"); ("op", ">="); ("number", "2");
   ("!", "!"); ("op", "="); ("number", "3"); ("eof", "")]%string.
Proof. vm_compute. reflexivity. Qed.

(** ** What the lexer guarantees *)
Section lexer_spec.
Context `{UnicodeTables}.

(** [covers source offset tokens errs]: from [offset] on, the source splits
    into whitespace, tokens (whose text is their span of the source) and runes
    reported as errors, in this order and without gaps. *)
Inductive covers (source : string) : nat -> list token -> list SyntaxError -> Prop :=
  | covers_end : covers source (String.length source) [eof_token source] []
  | covers_space offset next ts es :
      (offset < next <= String.length source)%nat ->
      IsSpace (decode_rune (string_drop offset source)).1 = true ->
      covers source next ts es -> covers source offset ts es
  | covers_token offset next k ts es :
      (offset < next <= String.length source)%nat ->
      k <> "eof"%string -> slice source offset next <> "!="%string ->
      (String.length k = 1%nat -> slice source offset next = k) ->
      covers source next ts es ->
      covers source offset (mkToken k (slice source offset next) (nat_span offset next) :: ts) es
  | covers_error offset next ts es message :
      (offset < next <= String.length source)%nat ->
      covers source next ts es ->
      covers source offset ts (mkSyntaxError (nat_span offset next) message :: es)
  | covers_unterminated offset message :
      (offset < String.length source)%nat ->
      slice source offset (String.length source) <> "!="%string ->
      covers source offset
        [mkToken "selector" (slice source offset (String.length source)) (nat_span offset (String.length source));
         eof_token source]
        [mkSyntaxError (nat_span offset (String.length source)) message].

Lemma string_get_lt i s a : String.get i s = Some a -> (i < String.length s)%nat.
Proof. revert i. induction s as [|c s IH]; intros [|i]; simpl; try done; [lia|]. intros Hg%IH. lia. Qed.

Lemma is_byte_lt source i cs : is_byte source i cs = true -> (i < String.length source)%nat.
Proof.
  unfold is_byte, byte_at. destruct (String.get i source) eqn:E; [|done]. intros _. by eapply string_get_lt.
Qed.

Lemma digits_len_le s : (digits_len s <= String.length s)%nat.
Proof. induction s as [|a s IH]; simpl; [lia|]. destruct (in_range _ _ _); lia. Qed.

Lemma skip_digits_bounds source offset :
  (offset <= String.length source)%nat -> (offset <= skip_digits source offset <= String.length source)%nat.
Proof.
  intros Ho. unfold skip_digits. pose proof (digits_len_le (string_drop offset source)) as Hd.
  rewrite length_string_drop in Hd. lia.
Qed.

Lemma number_end_bounds source offset :
  (offset <= String.length source)%nat -> (offset <= number_end source offset <= String.length source)%nat.
Proof.
  intros Ho. unfold number_end. cbv zeta.
  pose proof (skip_digits_bounds source offset Ho) as H1.
  set (o1 := skip_digits source offset) in *. clearbody o1.
  set (o2 := if is_byte source o1 "." then _ else _).
  assert (H2 : (o1 <= o2 <= String.length source)%nat).
  { unfold o2. destruct (is_byte source o1 ".") eqn:E; [|lia]. apply is_byte_lt in E.
    pose proof (skip_digits_bounds source (S o1)). lia. }
  clearbody o2. destruct (is_byte source o2 "eE") eqn:E; [|lia]. apply is_byte_lt in E.
  destruct (is_byte source (S o2) "+-") eqn:E2.
  - apply is_byte_lt in E2. pose proof (skip_digits_bounds source (S (S o2))). lia.
  - pose proof (skip_digits_bounds source (S o2)). lia.
Qed.

Lemma identifier_len_le fuel s : (identifier_len fuel s <= String.length s)%nat.
Proof.
  revert s. induction fuel as [|fuel IH]; intros [|a s]; simpl; try lia.
  destruct (decode_rune (String a s)) as [ch w] eqn:E.
  destruct (identifier_rune ch); [|lia].
  pose proof (decode_rune_width (String a s)) as Hw. rewrite E in Hw. simpl in Hw.
  specialize (IH (string_drop w (String a s))). rewrite length_string_drop in IH. simpl in IH.
  destruct Hw; [done|]. lia.
Qed.

Lemma operator_end_bounds source r offset :
  (offset <= String.length source)%nat -> (offset <= operator_end source r offset <= String.length source)%nat.
Proof.
  intros Ho. unfold operator_end. destruct (is_byte source offset "=") eqn:E; [apply is_byte_lt in E; lia|].
  case_guard; [|lia]. bool_to_prop. match goal with Hb : is_byte _ _ _ = true |- _ => apply is_byte_lt in Hb end. lia.
Qed.

Lemma index_byte_lt c s i : index_byte c s = Some i -> (i < String.length s)%nat.
Proof.
  revert i. induction s as [|a s IH]; intros i; simpl; [done|].
  destruct (decide (a = c)); [intros [= <-]; lia|].
  destruct (index_byte c s) as [j|]; [|done]. intros [= <-]. specialize (IH j eq_refl). lia.
Qed.

(** A step that continues moves forward, within the source. *)
Definition next_of (l : lexeme) : option nat :=
  match l with Skip n | Tok _ n | Unsupported n => Some n | Unterminated => None end.

Lemma lex_step_progress source offset next :
  (offset < String.length source)%nat -> next_of (lex_step source offset) = Some next ->
  (offset < next <= String.length source)%nat.
Proof.
  intros Ho. unfold lex_step.
  pose proof (decode_rune_width (string_drop offset source)) as Hw.
  rewrite length_string_drop in Hw.
  assert (string_drop offset source <> ""%string) as Hne.
  { intros Heq. pose proof (length_string_drop offset source) as Hl. rewrite Heq in Hl. simpl in Hl. lia. }
  specialize (Hw Hne). destruct (decode_rune _) as [r width]. simpl in Hw.
  case_guard; [by intros [= <-]; lia|].
  case_guard; [by intros [= <-]; lia|].
  case_guard. { intros [= <-]. pose proof (operator_end_bounds source r (offset + width)). lia. }
  case_guard as Hs.
  { destruct (index_byte _ _) as [close|] eqn:E; [|done]. intros [= <-].
    apply index_byte_lt in E. rewrite length_string_drop in E. lia. }
  case_guard. { intros [= <-]. pose proof (number_end_bounds source (offset + width)). lia. }
  case_guard; [|by intros [= <-]; lia].
  intros [= <-]. unfold identifier_end.
  pose proof (identifier_len_le (String.length source) (string_drop (offset + width) source)) as Hi.
  rewrite length_string_drop in Hi. lia.
Qed.

Lemma string_drop_cons offset source :
  (offset < String.length source)%nat ->
  exists a s, string_drop offset source = String a s.
Proof.
  intros Ho. pose proof (length_string_drop offset source) as Hl.
  destruct (string_drop offset source) as [|a s]; simpl in Hl; [lia|eauto].
Qed.

(** The bang is a token of its own, so no token reads [!=]. *)
Lemma lex_step_not_bang source offset k next :
  lex_step source offset = Tok k next -> slice source offset next <> "!="%string.
Proof.
  intros Hstep Htext. unfold slice, substr in Htext.
  destruct (string_drop offset source) as [|a s] eqn:Ed.
  { by destruct (next - offset)%nat. }
  assert (a = "!"%char) as ->.
  { destruct (next - offset)%nat as [|n]; simpl in Htext; [done|]. by injection Htext as ->. }
  unfold lex_step in Hstep. rewrite Ed in Hstep.
  assert (decode_rune (String "!" s) = (33, 1%nat)) as Hd by done.
  rewrite Hd in Hstep. change (IsSpace 33) with false in Hstep.
  change (rune_in 33 "()+-*/!,[]") with true in Hstep. cbv iota beta zeta in Hstep.
  injection Hstep as _ <-.
  replace (offset + 1 - offset)%nat with 1%nat in Htext by lia. done.
Qed.

Lemma lex_step_kind source offset k next : lex_step source offset = Tok k next -> k <> "eof"%string.
Proof.
  unfold lex_step. destruct (decode_rune _) as [r width].
  intros Hs ->. revert Hs. repeat (case_guard; [done|]).
  case_guard; [by destruct (index_byte _ _)|]. by repeat case_guard.
Qed.

Lemma rune_in_ascii r set_ : forallb (fun b => b <? 128) (bytes set_) = true -> rune_in r set_ = true -> r < 128.
Proof.
  intros Hall (b & Hb & Heq)%existsb_exists. rewrite forallb_forall in Hall. specialize (Hall b Hb). lia.
Qed.

(** The token kinds of one byte are spelled by their own text. *)
Lemma lex_step_single source offset k next :
  lex_step source offset = Tok k next -> String.length k = 1%nat -> slice source offset next = k.
Proof.
  unfold lex_step. destruct (decode_rune _) as [r width] eqn:Hd.
  case_guard; [done|]. case_guard as Hin.
  - intros [= <- <-] _. apply rune_in_ascii in Hin; [|done].
    destruct (decode_rune_ascii _ _ _ Hd Hin) as (a & s' & Hs & -> & ->).
    unfold slice, substr. rewrite Hs. replace (offset + 1 - offset)%nat with 1%nat by lia.
    simpl. by rewrite char_of_byte_of.
  - intros Hs Hk. exfalso. revert Hs Hk. case_guard; [by intros [= <- _]|].
    case_guard; [destruct (index_byte _ _); [by intros [= <- _]|done]|].
    repeat (case_guard; [by intros [= <- _]|]). done.
Qed.

Lemma lex_step_unterminated source offset :
  lex_step source offset = Unterminated -> slice source offset (String.length source) <> "!="%string.
Proof.
  unfold lex_step. destruct (decode_rune _) as [r width].
  repeat (case_guard; [done|]). case_guard as Hd; [|by repeat case_guard].
  intros _ Ht. unfold slice, substr in Ht. bool_to_prop.
  destruct (string_drop offset source) as [|a s]; [by destruct (_ - _)%nat|].
  destruct (_ - _)%nat as [|n]; simpl in Ht; [done|]. by injection Ht as -> _.
Qed.

Lemma lex_step_skip source offset next :
  lex_step source offset = Skip next -> IsSpace (decode_rune (string_drop offset source)).1 = true.
Proof.
  unfold lex_step. destruct (decode_rune _) as [r width]. simpl.
  case_guard as Hsp; [done|]. repeat (case_guard; [done|]).
  case_guard; [by destruct (index_byte _ _)|]. by repeat case_guard.
Qed.

Lemma lex_loop_covers fuel source offset :
  (offset <= String.length source)%nat -> (String.length source - offset <= fuel)%nat ->
  covers source offset (lex_loop fuel source offset).1 (lex_loop fuel source offset).2.
Proof.
  revert offset. induction fuel as [|fuel IH]; intros offset Hle Hfuel; simpl.
  { replace offset with (String.length source) by lia. constructor. }
  case_bool_decide; [replace offset with (String.length source) by lia; constructor|].
  destruct (lex_step source offset) as [next|k next|next|] eqn:Hstep;
    [pose proof (lex_step_progress source offset next) as Hp; rewrite Hstep in Hp;
     destruct Hp as [Hp1 Hp2]; [lia|done|] ..|].
  - eapply covers_space; [done| by eapply lex_step_skip | apply IH; lia].
  - specialize (IH next Hp2 ltac:(lia)). destruct (lex_loop fuel source next) as [ts es]. simpl in *.
    constructor; [lia | by eapply lex_step_kind | by eapply lex_step_not_bang |
      by apply lex_step_single | done].
  - specialize (IH next Hp2 ltac:(lia)). destruct (lex_loop fuel source next) as [ts es]. simpl in *.
    constructor; [lia | done].
  - constructor; [lia | by apply lex_step_unterminated].
Qed.

(** The lexer accounts for every byte of the source, in order: each is
    whitespace, part of exactly one token, or reported as an error; the last
    token is the end marker. *)
Theorem lex_covers source : covers source 0 (lex source).1 (lex source).2.
Proof. apply lex_loop_covers; lia. Qed.
End lexer_spec.
