(* ===== verification/FormulaParser.v ===== *)
(** * internal/formula/parser.go: the precedence-climbing parser

    The token slice and the registry are fixed during a parse; the parser
    state is the position and the errors reported so far.  The four mutually
    recursive methods take fuel; [3 * (tokens left) + 3] is enough
    ([parse_fuel_enough]), so [Parse] always returns. *)
From Stdlib Require Import Ascii.
From S2P Require Import Prelude GoStrings FormulaDecimal FormulaRegistry FormulaAst FormulaLexer.
Open Scope Z_scope.

Record ParseResult := mkParseResult { ParseResult_AST : AST; Errors : list SyntaxError }.

Record parser := mkParser { at_ : nat; errors : list SyntaxError }.

Definition precedence (op : string) : Z :=
  if bool_decide (op = "||"%string) then 1
  else if bool_decide (op = "&&"%string) then 2
  else if bool_decide (op ∈ ["<"; "<="; ">"; ">="; "=="; "!="]%string) then 3
  else if bool_decide (op ∈ ["+"; "-"]%string) then 4
  else if bool_decide (op ∈ ["*"; "/"]%string) then 5
  else -1.

Section parser_methods.
Context `{UnicodeTables, ApdLib}.
Context (tokens : list token) (registry : option Registry).

Definition no_token : token := mkToken "eof" "" (mkSpan 0 0).
Definition peek (p : parser) : token := default no_token (tokens !! at_ p).
Definition advance (p : parser) : parser :=
  if bool_decide (at_ p < length tokens - 1)%nat then mkParser (S (at_ p)) (errors p) else p.
Definition take (p : parser) : token * parser := (peek p, advance p).
Definition error (p : parser) (span : Span) (message : string) : parser :=
  mkParser (at_ p) (errors p ++ [mkSyntaxError span message]).
Definition match_ (p : parser) (kinds : list string) : option (token * parser) :=
  if existsb (fun k => bool_decide (kind (peek p) = k) || bool_decide (text (peek p) = k)) kinds
  then Some (take p) else None.

(** [if !p.match(kind) { p.error(p.peek().span, message) }] *)
Definition expect (p : parser) (k message : string) : parser :=
  match match_ p [k] with Some (_, p) => p | None => error p (span (peek p)) message end.

Definition report_unless (ok : bool) (p : parser) (sp : Span) (message : string) : parser :=
  if ok then p else error p sp message.

Definition known_unit (name : string) : bool :=
  match registry with Some r => bool_decide (is_Some (Registry_Unit r name)) | None => true end.
Definition known_function (name : string) : bool :=
  match registry with Some r => bool_decide (is_Some (Registry_Function r name)) | None => true end.

(** The number branch of [primary], after its token [t]. *)
Definition number_node (t : token) (p : parser) : Node * parser :=
  match ParseDecimal (text t) with
  | Err _ => (leaf NodeInvalid (span t) "", error p (span t) "invalid decimal literal")
  | Ok canonical =>
      match match_ p ["["%string] with
      | None => (leaf NodeDecimal (span t) (Decimal_String canonical), p)
      | Some (_, p) =>
          let '(unit, p) := take p in
          let p := report_unless (bool_decide (kind unit = "identifier"%string)) p (span unit) "expected unit" in
          let p := report_unless (known_unit (text unit)) p (span unit) "unknown unit" in
          let '(end_, p) :=
            match match_ p ["]"%string] with
            | Some (close, p) => (EndByte (span close), p)
            | None => (EndByte (span unit), error p (span (peek p)) "expected ]")
            end in
          (mkNode NodeQuantity (mkSpan (StartByte (span t)) end_) (Decimal_String canonical) (text unit) "" "" "" [], p)
      end
  end.

(** The selector branch of [primary]. *)
Definition selector_node (t : token) (p : parser) : Node * parser :=
  let raw := TrimSuffix (TrimPrefix (text t) "${") "}" in
  let invalid := (leaf NodeInvalid (span t) "", error p (span t) "invalid selector") in
  match index_byte ":"%char raw with
  | None => invalid
  | Some i =>
      let scope := string_take i raw in
      let symbol := string_drop (S i) raw in
      if bool_decide (symbol = ""%string) then invalid
      else
        let known := bool_decide (scope ∈ ["self"; "source"; "target"; "scenario"]%string) in
        (mkNode NodeSelector (span t) "" "" scope symbol "" [],
         report_unless known p (span t) "unknown selector scope")
  end.

Definition binary_node (op : string) (left right : Node) : Node :=
  mkNode NodeBinary (mkSpan (StartByte (Node_Span left)) (EndByte (Node_Span right))) "" "" "" "" op [left; right].
Definition unary_node (t : token) (child : Node) : Node :=
  mkNode NodeUnary (mkSpan (StartByte (span t)) (EndByte (Node_Span child))) "" "" "" "" (text t) [child].

(** The end of a call, after its arguments. *)
Definition call_node (t : token) (args : list Node) (p : parser) : Node * parser :=
  let '(end_, p) :=
    match match_ p [")"%string] with
    | Some (close, p) => (EndByte (span close), p)
    | None => (EndByte (span t), error p (span (peek p)) "expected )")
    end in
  let p := report_unless (known_function (text t)) p (span t) ("unknown function " +:+ text t) in
  (mkNode NodeCall (mkSpan (StartByte (span t)) end_) (text t) "" "" "" "" args, p).

Fixpoint expression (fuel : nat) (p : parser) : option (Node * parser) :=
  match fuel with
  | O => None
  | S f => '(first, p) ← primary f p; binary f first 0 p
  end
with binary (fuel : nat) (lhs : Node) (min : Z) (p : parser) : option (Node * parser) :=
  match fuel with
  | O => None
  | S f =>
      let op := text (peek p) in
      let level := precedence op in
      if level <? min then Some (lhs, p)
      else
        let p := advance p in
        '(operand, p) ← primary f p;
        '(rhs, p) ← binary f operand (level + 1) p;
        binary f (binary_node op lhs rhs) min p
  end
with primary (fuel : nat) (p : parser) : option (Node * parser) :=
  match fuel with
  | O => None
  | S f =>
      match match_ p ["-"; "!"]%string with
      | Some (t, p) => '(child, p) ← primary f p; Some (unary_node t child, p)
      | None =>
      match match_ p ["("%string] with
      | Some (_, p) => '(n, p) ← expression f p; Some (n, expect p ")" "expected )")
      | None =>
      match match_ p ["number"%string] with
      | Some (t, p) => Some (number_node t p)
      | None =>
      match match_ p ["selector"%string] with
      | Some (t, p) => Some (selector_node t p)
      | None =>
      match match_ p ["identifier"%string] with
      | Some (t, p) =>
          if bool_decide (text t ∈ ["true"; "false"]%string) then Some (leaf NodeBoolean (span t) (text t), p)
          else match match_ p ["("%string] with
          | None => Some (leaf NodeInvalid (span t) "", error p (span t) "bare identifiers are not valid expressions")
          | Some (_, p) =>
              if bool_decide (kind (peek p) = ")"%string) then Some (call_node t [] p)
              else '(args, p) ← arguments f p; Some (call_node t args p)
          end
      | None => let '(t, p) := take p in Some (leaf NodeInvalid (span t) "", error p (span t) "expected expression")
      end end end end end
  end
(** [for { args = append(args, p.expression()); if !p.match(",") { break } }] *)
with arguments (fuel : nat) (p : parser) : option (list Node * parser) :=
  match fuel with
  | O => None
  | S f =>
      '(arg, p) ← expression f p;
      match match_ p [","%string] with
      | None => Some ([arg], p)
      | Some (_, p) => '(args, p) ← arguments f p; Some (arg :: args, p)
      end
  end.
End parser_methods.

Definition parse_fuel (tokens : list token) : nat := 3 * length tokens + 3.

Definition Parse `{UnicodeTables, ApdLib} (source : string) (registry : option Registry) : option ParseResult :=
  let '(tokens, errs) := lex source in
  '(root, p) ← expression tokens registry (parse_fuel tokens) (mkParser 0 errs);
  let p := report_unless (bool_decide (kind (peek tokens p) = "eof"%string)) p
             (span (peek tokens p)) "unexpected token" in
  Some (mkParseResult (mkAST ASTSchemaVersion root) (errors p)).

(** ** Well-shaped trees *)

(** The operators the parser builds binary nodes with: those with a
    precedence, less [!=], which the lexer never produces. *)
Definition binary_operator (op : string) : bool :=
  (0 <=? precedence op) && negb (bool_decide (op = "!="%string)).

Definition shape_ok (n : Node) : bool :=
  match Node_Kind n with
  | NodeUnary => bool_decide (length (Args n) = 1%nat) && bool_decide (Operator n ∈ ["-"; "!"]%string)
  | NodeBinary => bool_decide (length (Args n) = 2%nat) && binary_operator (Operator n)
  | NodeKindUnknown _ => false
  | _ => true
  end.
Definition span_within (len : Z) (n : Node) : bool :=
  Span_Valid (Node_Span n) && (EndByte (Node_Span n) <=? len).
Definition parsed_node (len : Z) (n : Node) : bool := shape_ok n && span_within len n.
Definition not_invalid (n : Node) : bool := negb (bool_decide (Node_Kind n = NodeInvalid)).

(** ** The invariant of the recursive descent *)
Section descent.
Context `{UnicodeTables, ApdLib}.
Context (tokens : list token) (registry : option Registry) (len : Z).

(** A token stream: spans in order, closed by an end marker with empty text. *)
Record stream : Prop := {
  stream_last : exists ts, tokens = (ts ++ [mkToken "eof" "" (mkSpan len len)])%list;
  stream_bounds : forall i t, tokens !! i = Some t -> 0 <= StartByte (span t) <= EndByte (span t);
  stream_ordered : forall i t t', tokens !! i = Some t -> tokens !! S i = Some t' ->
    EndByte (span t) <= StartByte (span t');
  stream_no_bang : forall i t, tokens !! i = Some t -> text t <> "!="%string
}.
Context (Hstream : stream).

Notation peek := (peek tokens).
Notation advance := (advance tokens).

Definition start_at (p : parser) : Z := StartByte (span (peek p)).
Definition inv (p : parser) : Prop := (at_ p < length tokens)%nat.
Definition follows (p p' : parser) : Prop :=
  (at_ p <= at_ p')%nat /\ inv p' /\ errors p `prefix_of` errors p'.

Lemma follows_refl p : inv p -> follows p p.
Proof. intros Hp. split; [lia|]. by split. Qed.
Lemma follows_trans p1 p2 p3 : follows p1 p2 -> follows p2 p3 -> follows p1 p3.
Proof. intros (? & ? & ?) (? & ? & ?). split; [lia|]. split; [done|]. by etrans. Qed.
Lemma follows_inv p p' : follows p p' -> inv p'.
Proof. by intros (_ & ? & _). Qed.
Lemma follows_errors p p' : follows p p' -> errors p' = [] -> errors p = [].
Proof. intros (_ & _ & Hpre) He. rewrite He in Hpre. by apply prefix_nil_inv in Hpre. Qed.

Lemma peek_lookup p : inv p -> tokens !! at_ p = Some (peek p).
Proof.
  intros Hp. unfold FormulaParser.peek. destruct (lookup_lt_is_Some_2 tokens (at_ p) Hp) as [t Ht]. by rewrite Ht.
Qed.

Lemma tokens_pos : (0 < length tokens)%nat.
Proof. destruct (stream_last Hstream) as [ts ->]. rewrite length_app. simpl. lia. Qed.

Lemma last_token p : inv p -> ~ (at_ p < length tokens - 1)%nat ->
  peek p = mkToken "eof" "" (mkSpan len len).
Proof.
  intros Hp Hlast. pose proof (peek_lookup p Hp) as Hl. unfold inv in Hp.
  revert Hl. generalize (peek p). intros t Hl.
  destruct (stream_last Hstream) as [ts Hts]. rewrite Hts in Hl, Hp, Hlast.
  rewrite length_app in Hp, Hlast. simpl in Hp, Hlast.
  replace (at_ p) with (length ts) in Hl by lia. rewrite list_lookup_middle in Hl by done.
  by injection Hl as <-.
Qed.

Lemma start_at_bounds p : inv p -> 0 <= start_at p <= EndByte (span (peek p)).
Proof. intros Hp. exact (stream_bounds Hstream _ _ (peek_lookup p Hp)). Qed.

Lemma advance_follows p : inv p -> follows p (advance p).
Proof.
  intros Hp. unfold FormulaParser.advance, follows, inv in *. case_bool_decide; simpl; split; try lia; split; try lia; done.
Qed.

Lemma advance_limit p : inv p -> EndByte (span (peek p)) <= start_at (advance p).
Proof.
  intros Hp. pose proof (advance_follows p Hp) as Hf.
  destruct (decide (at_ p < length tokens - 1)%nat) as [Hlt|Hge].
  - apply (stream_ordered Hstream (at_ p)); [by apply peek_lookup|].
    replace (S (at_ p)) with (at_ (advance p)); [apply peek_lookup; by eapply follows_inv|].
    unfold FormulaParser.advance. by rewrite bool_decide_true.
  - unfold start_at, FormulaParser.advance. rewrite bool_decide_false by done.
    rewrite last_token by done. simpl. lia.
Qed.

Lemma start_at_mono p p' : inv p -> follows p p' -> start_at p <= start_at p'.
Proof.
  intros Hp (Hle & Hp' & _). unfold start_at.
  pose proof (peek_lookup p Hp) as Hl. pose proof (peek_lookup p' Hp') as Hl'.
  revert Hl Hl' Hle. generalize (peek p) (peek p') (at_ p) (at_ p'). clear -Hstream.
  intros t t' i j Hi Hj Hle. revert t' Hj. induction Hle as [|j Hle IH]; intros t' Hj.
  - rewrite Hi in Hj. by injection Hj as <-.
  - destruct (lookup_lt_is_Some_2 tokens j) as [u Hu].
    { apply lookup_lt_Some in Hj. lia. }
    specialize (IH u Hu). pose proof (stream_ordered Hstream _ _ _ Hu Hj).
    pose proof (stream_bounds Hstream _ _ Hu). lia.
Qed.

Lemma start_at_le_len p : inv p -> start_at p <= len.
Proof.
  intros Hp. pose proof tokens_pos as Hpos.
  set (pl := mkParser (length tokens - 1) (errors p)).
  assert (follows p pl) as Hf. { unfold follows, pl, inv in *; simpl. split; [lia|]. split; [lia|done]. }
  pose proof (start_at_mono p pl Hp Hf) as Hm. unfold start_at in Hm at 2.
  rewrite (last_token pl) in Hm; [done | by eapply follows_inv | unfold pl; simpl; lia].
Qed.

Lemma error_follows p sp m : inv p -> follows p (error p sp m).
Proof. intros Hp. split; [done|]. split; [done|]. by eexists. Qed.
Lemma error_not_nil p sp m : errors (error p sp m) <> [].
Proof. simpl. by destruct (errors p). Qed.
Lemma report_follows ok p sp m : inv p -> follows p (report_unless ok p sp m).
Proof. intros Hp. destruct ok; [by apply follows_refl | by apply error_follows]. Qed.
Lemma report_at ok p sp m : at_ (report_unless ok p sp m) = at_ p.
Proof. by destruct ok. Qed.

(** A match consumes a token that is not the end marker. *)
Lemma match_Some p kinds t p' :
  "eof"%string ∉ kinds -> ""%string ∉ kinds -> inv p -> match_ tokens p kinds = Some (t, p') ->
  t = peek p /\ p' = advance p /\ at_ p' = S (at_ p) /\ follows p p' /\ EndByte (span t) <= start_at p' /\
  exists k, k ∈ kinds /\ (kind t = k \/ text t = k).
Proof.
  intros Hk1 Hk2 Hp. unfold match_. destruct (existsb _ kinds) eqn:E; [|done]. intros [= <- <-].
  split; [done|]. split; [done|].
  apply existsb_Exists, Exists_exists in E as (k & Hk & Hor).
  assert (at_ p < length tokens - 1)%nat as Hlt.
  { destruct (decide (at_ p < length tokens - 1)%nat) as [|Hge]; [done|].
    rewrite (last_token p Hp Hge) in Hor. simpl in Hor.
    apply orb_true_iff in Hor as [Hd|Hd]; bool_to_prop; subst; done. }
  split. { unfold FormulaParser.advance. by rewrite bool_decide_true. }
  split; [by apply advance_follows|]. split; [by apply advance_limit|].
  exists k. split; [done|]. apply orb_true_iff in Hor as [Hd|Hd]; bool_to_prop; auto.
Qed.

Lemma precedence_not_last p : inv p -> 0 <= precedence (text (peek p)) -> at_ (advance p) = S (at_ p).
Proof.
  intros Hp Hprec. unfold FormulaParser.advance. destruct (decide (at_ p < length tokens - 1)%nat) as [|Hge].
  - by rewrite bool_decide_true.
  - rewrite (last_token p Hp Hge) in Hprec. by vm_compute in Hprec.
Qed.

(** A node parsed up to the state [p], starting no earlier than [lo]. *)
Record node_ok (lo : Z) (n : Node) (p : parser) : Prop := {
  node_parsed : everywhere (parsed_node len) n = true;
  node_valid : errors p = [] -> everywhere not_invalid n = true;
  node_span : lo <= StartByte (Node_Span n) <= EndByte (Node_Span n) /\ EndByte (Node_Span n) <= start_at p
}.

Lemma node_ok_follows lo n p p' : inv p -> follows p p' -> node_ok lo n p -> node_ok lo n p'.
Proof.
  intros Hp Hf [H1 H2 H3]. pose proof (start_at_mono p p' Hp Hf) as Hm. split; [done| |lia].
  intros He. apply H2. by eapply follows_errors.
Qed.

(** The common part of every node constructor of the parser. *)
Lemma node_intro lo n p :
  0 <= lo -> inv p -> shape_ok n = true ->
  forallb (everywhere (parsed_node len)) (Args n) = true ->
  (errors p = [] -> not_invalid n = true /\ forallb (everywhere not_invalid) (Args n) = true) ->
  lo <= StartByte (Node_Span n) <= EndByte (Node_Span n) -> EndByte (Node_Span n) <= start_at p ->
  node_ok lo n p.
Proof.
  intros Hlo Hp Hs Hargs Hvalid Hspan Hend. pose proof (start_at_le_len p Hp) as Hlen.
  split; [| |lia].
  - rewrite everywhere_eq, Hargs, andb_true_r. unfold parsed_node. rewrite Hs. unfold span_within, Span_Valid. simpl.
    rewrite !andb_true_iff, !Z.leb_le. lia.
  - intros He. destruct (Hvalid He) as [H1 H2]. by rewrite everywhere_eq, H1, H2.
Qed.

(** What every parsing method establishes. *)
Definition parses (p : parser) (n : Node) (p' : parser) : Prop :=
  follows p p' /\ node_ok (start_at p) n p'.

Lemma node_ok_lower lo lo' n p : lo' <= lo -> node_ok lo n p -> node_ok lo' n p.
Proof. intros Hle [H1 H2 H3]. split; [done|done|lia]. Qed.

(** A token read just before the state [p]. *)
Definition token_before (t : token) (p : parser) : Prop :=
  inv p /\ 0 <= StartByte (span t) <= EndByte (span t) /\ EndByte (span t) <= start_at p.

Lemma match_token p kinds t p' :
  "eof"%string ∉ kinds -> ""%string ∉ kinds -> inv p -> match_ tokens p kinds = Some (t, p') ->
  token_before t p' /\ StartByte (span t) = start_at p.
Proof.
  intros Hk1 Hk2 Hp Hm. apply match_Some in Hm as (-> & -> & _ & Hf & Hend & _); [|done..].
  pose proof (start_at_bounds p Hp). split; [|done]. split; [by eapply follows_inv|]. unfold start_at in *. lia.
Qed.

Lemma take_token p : inv p -> token_before (peek p) (advance p) /\ follows p (advance p).
Proof.
  intros Hp. pose proof (advance_follows p Hp) as Hf. pose proof (advance_limit p Hp).
  pose proof (start_at_bounds p Hp). unfold start_at in *.
  split; [|done]. split; [by eapply follows_inv|]. unfold start_at. lia.
Qed.

Lemma leaf_ok k sp tx t p :
  k <> NodeUnary -> k <> NodeBinary -> (forall s, k <> NodeKindUnknown s) ->
  sp = span t -> token_before t p -> (k = NodeInvalid -> errors p <> []) ->
  node_ok (StartByte (span t)) (leaf k sp tx) p.
Proof.
  intros Hk1 Hk2 Hk3 -> (Hp & Hs & He) Hinv.
  apply node_intro; simpl; try lia; try done; [by destruct k; naive_solver|].
  intros Her. split; [|done]. unfold not_invalid. simpl. case_bool_decide; [|done]. exfalso. by apply Hinv.
Qed.

Lemma token_before_follows t p p' : follows p p' -> token_before t p -> token_before t p'.
Proof.
  intros Hf (Hp & Hs & He). pose proof (start_at_mono p p' Hp Hf).
  split; [by eapply follows_inv|]. lia.
Qed.

Lemma invalid_leaf t p message :
  token_before t p -> node_ok (StartByte (span t)) (leaf NodeInvalid (span t) "") (error p (span t) message).
Proof.
  intros Ht. apply leaf_ok; [done|done|done|done| |].
  - eapply token_before_follows; [|done]. apply error_follows. by destruct Ht.
  - intros _. apply error_not_nil.
Qed.

Lemma number_node_ok t p n p' :
  token_before t p -> number_node tokens registry t p = (n, p') ->
  follows p p' /\ node_ok (StartByte (span t)) n p'.
Proof.
  intros Ht. destruct (Ht) as (Hp & Hs & He). unfold number_node.
  destruct (ParseDecimal (text t)) as [canonical|]; cycle 1.
  { intros [= <- <-]. split; [by apply error_follows | by apply invalid_leaf]. }
  destruct (match_ tokens p ["["%string]) as [[t1 p1]|] eqn:Hm; cycle 1.
  { intros [= <- <-]. split; [by apply follows_refl | by apply leaf_ok]. }
  apply match_Some in Hm as (-> & -> & _ & Hf1 & _); [|compute_decide..|done].
  simpl. destruct (take_token (advance p)) as [Htok2 Hf2]; [by eapply follows_inv|].
  set (u := peek (advance p)) in *. set (p2 := advance (advance p)) in *.
  set (p3 := report_unless _ p2 _ _). assert (follows p2 p3) as Hf3 by (apply report_follows; by destruct Htok2).
  set (p4 := report_unless _ p3 _ _).
  assert (follows p3 p4) as Hf4 by (apply report_follows; by eapply follows_inv).
  assert (follows p p4) as Hf by (by do 3 (eapply follows_trans; [done|])).
  assert (token_before u p4) as Hu.
  { eapply token_before_follows; [|exact Htok2]. by eapply follows_trans. }
  assert (EndByte (span t) <= StartByte (span u)) as Hle.
  { pose proof (start_at_mono p _ Hp Hf1). unfold start_at in *. unfold u. lia. }
  destruct Hu as (Hp4 & Hu1 & Hu2).
  assert (forall e p5, follows p4 p5 -> StartByte (span t) <= e <= start_at p5 ->
    follows p p5 /\ node_ok (StartByte (span t))
      (mkNode NodeQuantity (mkSpan (StartByte (span t)) e) (Decimal_String canonical) (text u) "" "" "" []) p5) as Hmk.
  { intros e p5 Hf5 Hend. split; [by eapply follows_trans|].
    apply node_intro; simpl; try lia; try done. by eapply follows_inv. }
  destruct (match_ tokens p4 ["]"%string]) as [[t5 p5]|] eqn:Hm5; intros [= <- <-]; apply Hmk.
  - apply match_Some in Hm5 as (_ & _ & _ & Hf5 & _); [done|compute_decide..|done].
  - apply match_Some in Hm5 as (-> & _ & _ & _ & Hend & _); [|compute_decide..|done].
    pose proof (start_at_bounds p4 Hp4). unfold start_at in *. lia.
  - by apply error_follows.
  - unfold start_at in *. simpl in *. unfold FormulaParser.peek in *. simpl. lia.
Qed.

Lemma selector_node_ok t p n p' :
  token_before t p -> selector_node t p = (n, p') ->
  follows p p' /\ node_ok (StartByte (span t)) n p'.
Proof.
  intros Ht. destruct (Ht) as (Hp & Hs & He). unfold selector_node. cbv zeta.
  assert (forall a, a = (leaf NodeInvalid (span t) "", error p (span t) "invalid selector") -> a = (n, p') ->
    follows p p' /\ node_ok (StartByte (span t)) n p') as Hinv.
  { intros a -> [= <- <-]. split; [by apply error_follows | by apply invalid_leaf]. }
  destruct (index_byte _ _) as [i|]; [|by apply Hinv].
  case_bool_decide; [by apply Hinv|]. intros [= <- <-].
  set (p1 := report_unless _ p _ _). assert (follows p p1) as Hf by by apply report_follows.
  split; [done|]. pose proof (start_at_mono p p1 Hp Hf).
  apply node_intro; simpl; try lia; try done. by eapply follows_inv.
Qed.

Lemma call_node_ok t args p n p' :
  token_before t p -> Forall (fun a => everywhere (parsed_node len) a = true) args ->
  (errors p = [] -> Forall (fun a => everywhere not_invalid a = true) args) ->
  call_node tokens registry t args p = (n, p') ->
  follows p p' /\ node_ok (StartByte (span t)) n p'.
Proof.
  intros (Hp & Hs & He) Hargs Hvalid. unfold call_node.
  assert (forall e p1 p2, follows p p1 -> follows p1 p2 -> StartByte (span t) <= e <= start_at p1 ->
    follows p p2 /\ node_ok (StartByte (span t)) (mkNode NodeCall (mkSpan (StartByte (span t)) e) (text t) "" "" "" "" args) p2)
    as Hmk.
  { intros e p1 p2 Hf1 Hf2 Hend. assert (follows p p2) as Hf by by eapply follows_trans.
    pose proof (start_at_mono p1 p2 (follows_inv _ _ Hf1) Hf2).
    split; [done|]. apply node_intro; simpl; try lia; [by eapply follows_inv|done|by apply forallb_Forall|].
    intros Her. split; [done|]. apply forallb_Forall, Hvalid. by eapply follows_errors. }
  destruct (match_ tokens p [")"%string]) as [[t1 p1]|] eqn:Hm; intros [= <- <-].
  - apply match_Some in Hm as (-> & -> & _ & Hf & Hend & _); [|compute_decide..|done].
    apply (Hmk _ (advance p)); [done|apply report_follows; by eapply follows_inv|].
    pose proof (start_at_bounds p Hp). unfold start_at in *. lia.
  - assert (follows p (error p (span (peek p)) "expected )")) as Hf by by apply error_follows.
    apply (Hmk _ _ _ Hf); [apply report_follows; by eapply follows_inv|].
    pose proof (start_at_mono _ _ Hp Hf). lia.
Qed.
End descent.

(** ** The descent itself *)
Section descent_main.
Context `{UnicodeTables, ApdLib}.
Context (tokens : list token) (registry : option Registry) (len : Z).
Context (Hstream : stream tokens len).

Notation inv := (inv tokens).
Notation follows := (follows tokens).
Notation node_ok := (node_ok tokens len).
Notation start_at := (start_at tokens).

(** Tokens left before the end marker. *)
Definition left_ (p : parser) : nat := length tokens - 1 - at_ p.

Definition primary_spec (fuel : nat) : Prop := forall p, inv p -> (3 * left_ p + 1 <= fuel)%nat ->
  exists n p', primary tokens registry fuel p = Some (n, p') /\ follows p p' /\ node_ok (start_at p) n p'.
Definition expression_spec (fuel : nat) : Prop := forall p, inv p -> (3 * left_ p + 2 <= fuel)%nat ->
  exists n p', expression tokens registry fuel p = Some (n, p') /\ follows p p' /\ node_ok (start_at p) n p'.
Definition binary_spec (fuel : nat) : Prop := forall lo lhs min p,
  inv p -> 0 <= lo -> 0 <= min -> node_ok lo lhs p -> (3 * left_ p + 1 <= fuel)%nat ->
  exists n p', binary tokens registry fuel lhs min p = Some (n, p') /\ follows p p' /\ node_ok lo n p'.
Definition arguments_spec (fuel : nat) : Prop := forall p, inv p -> (3 * left_ p + 3 <= fuel)%nat ->
  exists args p', arguments tokens registry fuel p = Some (args, p') /\ follows p p' /\
    Forall (fun a => everywhere (parsed_node len) a = true) args /\
    (errors p' = [] -> Forall (fun a => everywhere not_invalid a = true) args).

Lemma left_follows p p' : follows p p' -> (left_ p' <= left_ p)%nat.
Proof. intros (? & _). unfold left_. lia. Qed.
Lemma left_step p p' : inv p -> inv p' -> at_ p' = S (at_ p) -> (S (left_ p') = left_ p)%nat.
Proof. unfold FormulaParser.inv, left_. lia. Qed.

Lemma binary_node_ok lo op lhs rhs p1 p2 :
  0 <= lo -> binary_operator op = true -> node_ok lo lhs p1 -> inv p1 -> follows p1 p2 ->
  node_ok (start_at p1) rhs p2 -> node_ok lo (binary_node op lhs rhs) p2.
Proof.
  intros Hlo Hop [Hl1 Hl2 Hl3] Hp1 Hf [Hr1 Hr2 Hr3].
  apply node_intro; [done|done|by eapply follows_inv| | | |simpl; lia|simpl; lia].
  - unfold shape_ok. simpl. by rewrite Hop.
  - simpl. by rewrite Hl1, Hr1.
  - intros He. simpl. rewrite Hr2 by done. rewrite Hl2 by (by eapply follows_errors). done.
Qed.

Lemma unary_node_ok t child p1 p2 :
  text t ∈ ["-"; "!"]%string -> token_before tokens t p1 -> follows p1 p2 ->
  node_ok (start_at p1) child p2 -> node_ok (StartByte (span t)) (unary_node t child) p2.
Proof.
  intros Ht (Hp & Hs & He) Hf [H1 H2 H3].
  apply node_intro; [done|lia|by eapply follows_inv| | | |simpl; lia|simpl; lia].
  - unfold shape_ok. simpl. by rewrite bool_decide_true.
  - simpl. by rewrite H1.
  - intros Her. simpl. by rewrite H2.
Qed.

(** The unary operators are one-byte tokens of their own. *)
Context (Hunary : forall i t, tokens !! i = Some t -> kind t ∈ ["-"; "!"]%string -> text t = kind t).

Lemma match_unary_text p t p' :
  inv p -> match_ tokens p ["-"; "!"]%string = Some (t, p') -> text t ∈ ["-"; "!"]%string.
Proof.
  intros Hp Hm. apply (match_Some tokens len) in Hm as (-> & _ & _ & _ & _ & k & Hk & [Heq|Heq]);
    [| |done|compute_decide..|done].
  - rewrite <- Heq in Hk. by rewrite (Hunary _ _ (peek_lookup tokens p Hp) Hk).
  - by rewrite Heq.
Qed.

Ltac matched Hm :=
  let Hs := fresh "Hstep" in
  pose proof Hm as Hs;
  apply (match_Some tokens len) in Hs as (_ & _ & Hs & ? & _); [|done|compute_decide..|done];
  apply (match_token tokens len) in Hm as [? ?]; [|done|compute_decide..|done].

Lemma expect_follows p k message : "eof"%string <> k -> ""%string <> k -> inv p -> follows p (expect tokens p k message).
Proof.
  intros H1 H2 Hp. unfold expect. destruct (match_ tokens p [k]) as [[t p1]|] eqn:Hm; [|by apply error_follows].
  apply (match_Some tokens len) in Hm as (_ & _ & _ & Hf & _); [done|done|set_solver..|done].
Qed.

Lemma primary_step fuel :
  primary_spec fuel -> expression_spec fuel -> arguments_spec fuel -> primary_spec (S fuel).
Proof.
  intros IHp IHe IHa p Hp Hfuel. simpl.
  destruct (match_ tokens p ["-"; "!"]%string) as [[t p1]|] eqn:Hm.
  { pose proof (match_unary_text _ _ _ Hp Hm) as Ht. matched Hm.
    assert (Hp1 : inv p1) by by eapply follows_inv.
    destruct (IHp p1 Hp1) as (child & p2 & -> & Hf2 & Hc).
    { pose proof (left_step _ _ Hp Hp1 Hstep). lia. }
    simpl. do 2 eexists. split; [done|]. split; [by eapply follows_trans|].
    match goal with Heq : StartByte _ = start_at p |- _ => rewrite <- Heq end.
    by eapply unary_node_ok. }
  clear Hm. destruct (match_ tokens p ["("%string]) as [[t p1]|] eqn:Hm.
  { matched Hm. assert (Hp1 : inv p1) by by eapply follows_inv.
    destruct (IHe p1 Hp1) as (n & p2 & -> & Hf2 & Hn).
    { pose proof (left_step _ _ Hp Hp1 Hstep). lia. }
    simpl. do 2 eexists. split; [done|].
    assert (inv p2) as Hp2 by by eapply follows_inv.
    assert (follows p2 (expect tokens p2 ")" "expected )")) as Hf3 by by apply expect_follows.
    split; [by do 2 (eapply follows_trans; [done|])|].
    eapply node_ok_lower; [|by eapply node_ok_follows].
    by apply (start_at_mono tokens len). }
  clear Hm. destruct (match_ tokens p ["number"%string]) as [[t p1]|] eqn:Hm.
  { matched Hm. destruct (number_node tokens registry t p1) as [n p2] eqn:Hn.
    apply (number_node_ok tokens registry len) in Hn as [Hf2 Hn]; [|done..].
    do 2 eexists. split; [done|]. split; [by eapply follows_trans|]. congruence. }
  clear Hm. destruct (match_ tokens p ["selector"%string]) as [[t p1]|] eqn:Hm.
  { matched Hm. destruct (selector_node t p1) as [n p2] eqn:Hn.
    apply (selector_node_ok tokens len) in Hn as [Hf2 Hn]; [|done..].
    do 2 eexists. split; [done|]. split; [by eapply follows_trans|]. congruence. }
  clear Hm. destruct (match_ tokens p ["identifier"%string]) as [[t p1]|] eqn:Hm; cycle 1.
  { destruct (take_token tokens len Hstream p Hp) as [Htok Hf]. do 2 eexists. split; [done|].
    split; [eapply follows_trans; [done|]; apply error_follows; by destruct Htok|].
    by apply invalid_leaf. }
  matched Hm. assert (Hp1 : inv p1) by by eapply follows_inv.
  match goal with Heq : StartByte _ = start_at p |- _ => rewrite <- Heq; clear Heq end.
  case_bool_decide; [by do 2 eexists; split; [done|]; split; [done|]; apply leaf_ok|].
  destruct (match_ tokens p1 ["("%string]) as [[t2 p2]|] eqn:Hm; cycle 1.
  { do 2 eexists. split; [done|]. split; [eapply follows_trans; [done|]; by apply error_follows|].
    by apply invalid_leaf. }
  rename Hstep into Hstep1. matched Hm. assert (Hp2 : inv p2) by by eapply follows_inv.
  assert (Htok2 : token_before tokens t p2) by by eapply (token_before_follows tokens len).
  assert (follows p p2) as Hf2 by by eapply follows_trans.
  case_bool_decide.
  { destruct (call_node tokens registry t [] p2) as [n p3] eqn:Hn.
    apply (call_node_ok tokens registry len) in Hn as [Hf3 Hn]; [|done|done|by constructor|by constructor].
    do 2 eexists. split; [done|]. split; [by eapply follows_trans|]. done. }
  destruct (IHa p2 Hp2) as (args & p3 & -> & Hf3 & Hargs & Hvalid).
  { pose proof (left_step _ _ Hp Hp1 Hstep1). pose proof (left_step _ _ Hp1 Hp2 Hstep). lia. }
  simpl. destruct (call_node tokens registry t args p3) as [n p4] eqn:Hn.
  apply (call_node_ok tokens registry len) in Hn as [Hf4 Hn];
    [|done|by eapply (token_before_follows tokens len)|done|done].
  do 2 eexists. split; [done|]. split; [by do 2 (eapply follows_trans; [done|])|]. done.
Qed.

Lemma expression_step fuel : primary_spec fuel -> binary_spec fuel -> expression_spec (S fuel).
Proof.
  intros IHp IHb p Hp Hfuel. simpl.
  destruct (IHp p Hp ltac:(lia)) as (n & p1 & -> & Hf1 & Hn). simpl.
  destruct (IHb (start_at p) n 0 p1) as (n' & p2 & -> & Hf2 & Hn');
    [by eapply follows_inv | by apply (start_at_bounds tokens len) | done | done
    | pose proof (left_follows _ _ Hf1); lia |].
  do 2 eexists. split; [done|]. split; [by eapply follows_trans|]. done.
Qed.

Lemma binary_step fuel : primary_spec fuel -> binary_spec fuel -> binary_spec (S fuel).
Proof.
  intros IHp IHb lo lhs min p Hp Hlo Hmin Hlhs Hfuel. simpl.
  destruct (precedence (text (peek tokens p)) <? min) eqn:Hprec; bool_to_prop.
  { do 2 eexists. split; [done|]. split; [by apply follows_refl|]. done. }
  pose proof (precedence_not_last tokens len Hstream p Hp ltac:(lia)) as Hstep.
  pose proof (advance_follows tokens p Hp) as Hf1.
  set (op := text (peek tokens p)) in *. set (p1 := advance tokens p) in *.
  assert (Hp1 : inv p1) by by eapply follows_inv.
  pose proof (left_step _ _ Hp Hp1 Hstep) as Hl.
  destruct (IHp p1 Hp1 ltac:(lia)) as (operand & p2 & -> & Hf2 & Hoperand). simpl.
  destruct (IHb (start_at p1) operand (precedence op + 1) p2) as (rhs & p3 & -> & Hf3 & Hrhs);
    [by eapply follows_inv | by apply (start_at_bounds tokens len) | lia | done
    | pose proof (left_follows _ _ Hf2); lia |]. simpl.
  assert (Hf13 : follows p1 p3) by by eapply follows_trans.
  destruct (IHb lo (binary_node op lhs rhs) min p3) as (n & p4 & -> & Hf4 & Hn);
    [by eapply follows_inv | done | done | | pose proof (left_follows _ _ Hf13); lia |].
  { apply (binary_node_ok lo op lhs rhs p1 p3);
      [done | | by apply (node_ok_follows tokens len Hstream lo lhs p p1) | done | done | done].
    unfold binary_operator. apply andb_true_iff. split; [apply Z.leb_le; lia|].
    rewrite bool_decide_false; [done|].
    exact (stream_no_bang tokens len Hstream _ _ (peek_lookup tokens p Hp)). }
  do 2 eexists. split; [done|]. split; [by do 2 (eapply follows_trans; [done|])|]. done.
Qed.

Lemma arguments_step fuel : expression_spec fuel -> arguments_spec fuel -> arguments_spec (S fuel).
Proof.
  intros IHe IHa p Hp Hfuel. simpl.
  destruct (IHe p Hp ltac:(lia)) as (arg & p1 & -> & Hf1 & [Ha1 Ha2 _]). simpl.
  assert (Hp1 : inv p1) by by eapply follows_inv.
  destruct (match_ tokens p1 [","%string]) as [[t p2]|] eqn:Hm; cycle 1.
  { do 2 eexists. split; [done|]. split; [done|]. split; [by constructor|]. constructor; [auto|constructor]. }
  matched Hm. assert (Hp2 : inv p2) by by eapply follows_inv.
  destruct (IHa p2 Hp2) as (args & p3 & -> & Hf3 & Hargs & Hvalid).
  { pose proof (left_follows _ _ Hf1). pose proof (left_step _ _ Hp1 Hp2 Hstep). lia. }
  simpl. do 2 eexists. split; [done|]. split; [by do 2 (eapply follows_trans; [done|])|].
  split; [by constructor|]. intros He. constructor; [|by apply Hvalid].
  apply Ha2. eapply follows_errors; [|done]. by eapply follows_trans.
Qed.

Lemma descent fuel :
  primary_spec fuel /\ expression_spec fuel /\ binary_spec fuel /\ arguments_spec fuel.
Proof.
  induction fuel as [|fuel (IHp & IHe & IHb & IHa)].
  - split_and!; [intros p _ Hl|intros p _ Hl|intros lo lhs min p _ _ _ _ Hl|intros p _ Hl]; lia.
  - split_and!; [by apply primary_step | by apply expression_step | by apply binary_step | by apply arguments_step].
Qed.
End descent_main.

(** ** From the lexer's output to the parser's input *)
Section parse.
Context `{UnicodeTables, ApdLib}.

Lemma stream_cons t ts len :
  0 <= StartByte (span t) <= EndByte (span t) -> text t <> "!="%string ->
  (forall t', ts !! 0%nat = Some t' -> EndByte (span t) <= StartByte (span t')) ->
  stream ts len -> stream (t :: ts) len.
Proof.
  intros Hb Ht Ho [[l Hl] H2 H3 H4]. split.
  - exists (t :: l). by rewrite Hl.
  - intros [|i] u; simpl; [by intros [= <-]|apply H2].
  - intros [|i] u u'; simpl; [intros [= <-]; apply Ho|apply H3].
  - intros [|i] u; simpl; [by intros [= <-]|apply H4].
Qed.

Lemma stream_eof source :
  stream [eof_token source] (Z.of_nat (String.length source)).
Proof.
  split; [by exists []| | |]; intros [|i]; try done; simpl; [intros t [= <-]; simpl; lia|by intros t [= <-]].
Qed.

(** The length-one kinds of tokens are their own text. *)
Definition single_kinds (ts : list token) : Prop :=
  forall i t, ts !! i = Some t -> String.length (kind t) = 1%nat -> text t = kind t.

Lemma covers_stream source offset ts es :
  covers source offset ts es ->
  stream ts (Z.of_nat (String.length source)) /\ single_kinds ts /\
  (forall t, ts !! 0%nat = Some t -> Z.of_nat offset <= StartByte (span t)).
Proof.
  induction 1 as [|offset next ts es Hb _ _ (IH1 & IH2 & IH3)|offset next k ts es Hb Hk Hbang Hsingle _ (IH1 & IH2 & IH3)
    |offset next ts es m Hb _ (IH1 & IH2 & IH3)|offset m Ho Hbang].
  - split; [apply stream_eof|]. split; [intros [|i] t; try done; by intros [= <-]|].
    intros t [= <-]. simpl. lia.
  - split; [done|]. split; [done|]. intros t Ht. specialize (IH3 t Ht). lia.
  - split; [apply stream_cons; simpl; [lia|done|intros t Ht; by apply IH3|done]|].
    split; [intros [|i] t; simpl; [intros [= <-]; exact Hsingle|apply IH2]|].
    intros t [= <-]. simpl. lia.
  - split; [done|]. split; [done|]. intros t Ht. specialize (IH3 t Ht). lia.
  - split; [apply stream_cons; simpl; [lia|done|intros t [= <-]; simpl; lia|apply stream_eof]|].
    split; [intros [|[|i]] t; simpl; try done; by intros [= <-]|].
    intros t [= <-]. simpl. lia.
Qed.

Definition tree_ok (source : string) (r : ParseResult) : Prop :=
  everywhere (parsed_node (Z.of_nat (String.length source))) (Root (ParseResult_AST r)) = true /\
  (Errors r = [] -> everywhere not_invalid (Root (ParseResult_AST r)) = true).

Lemma Parse_spec source registry : exists r, Parse source registry = Some r /\ tree_ok source r.
Proof.
  unfold Parse. pose proof (lex_loop_covers (String.length source) source 0 ltac:(lia) ltac:(lia)) as Hc.
  fold (lex source) in Hc. destruct (lex source) as [tokens errs]. simpl in Hc.
  apply covers_stream in Hc as (Hs & Hsingle & _).
  pose proof (tokens_pos tokens _ Hs) as Hpos.
  assert (inv tokens (mkParser 0 errs)) as Hinv by done.
  destruct (descent tokens registry _ Hs) with (fuel := parse_fuel tokens) as (_ & He & _).
  { intros i t Ht Hk. apply (Hsingle i t Ht). apply elem_of_cons in Hk as [->|Hk%list_elem_of_singleton]; [done|by rewrite Hk]. }
  destruct (He (mkParser 0 errs) Hinv) as (n & p & -> & Hf & [H1 H2 _]).
  { unfold left_, parse_fuel. lia. }
  simpl. eexists. split; [done|]. split; [done|]. simpl. intros Hnil. apply H2.
  eapply (follows_errors tokens); [|done]. apply report_follows. by eapply follows_inv.
Qed.

(** C23: Parsing is total: on every source and registry the parser returns a tree,
    every node of which has the arity of its kind and a span inside the source,
    and without errors the tree has no invalid node. *)
Theorem Parse_total source registry :
  exists r, Parse source registry = Some r /\
    (forall n, subnode n (Root (ParseResult_AST r)) ->
       parsed_node (Z.of_nat (String.length source)) n = true /\
       (Errors r = [] -> Node_Kind n <> NodeInvalid)).
Proof.
  destruct (Parse_spec source registry) as (r & Hr & H1 & H2). exists r. split; [done|]. intros n Hn.
  split; [by eapply everywhere_subnode|]. intros He. specialize (H2 He).
  apply (everywhere_subnode _ _ n) in H2; [|done]. unfold not_invalid in H2. by bool_to_prop.
Qed.

(** The inequality operator has a precedence, a typing rule and an evaluation
    rule, and the grammar lists it, but no source parses to it: the lexer emits
    the bang as a token of its own. *)
Theorem Parse_never_inequality source registry r n :
  Parse source registry = Some r -> subnode n (Root (ParseResult_AST r)) ->
  Node_Kind n = NodeBinary -> Operator n <> "!="%string.
Proof.
  intros Hr Hn Hk. destruct (Parse_spec source registry) as (r' & Hr' & H1 & _).
  rewrite Hr in Hr'. injection Hr' as <-.
  apply (everywhere_subnode _ _ n) in H1; [|done].
  unfold parsed_node, shape_ok, binary_operator in H1. rewrite Hk in H1. by bool_to_prop.
Qed.
End parse.
