(* ===== verification/FormulaSemantic.v ===== *)
(** * internal/formula/semantic.go: type inference and evaluation

    A Go panic (an index out of range, a nil dereference) is an outcome of the
    model.  [Infer] and [evaluate] compute the outcome of every argument first
    and use only those the code uses, which is the same since both are pure. *)
From S2P Require Import Prelude GoStrings FormulaDecimal FormulaRegistry FormulaAst FormulaLexer FormulaParser.
Open Scope string_scope.

Record Type_ := mkType { Type_ValueType : ValueType; Type_Unit : Unit }.
Definition no_type : Type_ := mkType "" no_unit.

Record Diagnostic := mkDiagnostic { Code : string; Diagnostic_Span : Span; Diagnostic_Message : string }.

(** The [SymbolResolver] interface, and its [SymbolTable] implementation. *)
Definition SymbolResolver := string -> string -> option Type_.
Definition SymbolTable := gmap string Type_.
Definition SymbolTable_Resolve (t : SymbolTable) : SymbolResolver :=
  fun scope symbol => t !! (scope +:+ ":" +:+ symbol).

Definition result_or_panic (T : Type) := result T go_panic.
Definition nth_arg {T : Type} (l : list (result_or_panic T)) (i : nat) : result_or_panic T :=
  match l !! i with Some r => r | None => Err IndexOutOfRange end.

Section infer.
Context (registry : Registry) (symbols : SymbolResolver).

Definition scalar : Unit := default no_unit (Registry_Unit registry "scalar").
Definition typed : Type := Type_ * list Diagnostic.
Definition ok_type (t : Type_) : result_or_panic typed := Ok (t, []).
Definition one_issue (code : string) (sp : Span) (message : string) : result_or_panic typed :=
  Ok (no_type, [mkDiagnostic code sp message]).

Definition boolean_type : Type_ := mkType BooleanType no_unit.
Definition is_boolean (t : Type_) : bool := bool_decide (Type_ValueType t = BooleanType).
Definition same_type (a b : Type_) : bool :=
  bool_decide (Type_ValueType a = Type_ValueType b) &&
  bool_decide (Dimension (Type_Unit a) = Dimension (Type_Unit b)).

Definition infer_unary (sp : Span) (op : string) (v : typed) : result_or_panic typed :=
  let '(value, issues) := v in
  if negb (bool_decide (issues = [])) then Ok (no_type, issues)
  else if bool_decide (op = "!") then
    if negb (is_boolean value) then one_issue "FORMULA_TYPE_MISMATCH" sp "! requires Boolean"
    else ok_type boolean_type
  else if is_boolean value then one_issue "FORMULA_TYPE_MISMATCH" sp "- requires numeric"
  else ok_type value.

Definition syntax_invalid (sp : Span) : result_or_panic typed :=
  one_issue "FORMULA_SYNTAX_INVALID" sp "invalid expression".

Definition comparison_operator (op : string) : bool := bool_decide (op ∈ ["<"; "<="; ">"; ">="; "=="; "!="]).

Definition infer_binary (sp : Span) (op : string) (l r : typed) : result_or_panic typed :=
  let '(left_type, issues) := l in
  let '(right_type, right_issues) := r in
  let issues := (issues ++ right_issues)%list in
  if negb (bool_decide (issues = [])) then Ok (no_type, issues)
  else if bool_decide (op ∈ ["&&"; "||"]) then
    if negb (is_boolean left_type) || negb (is_boolean right_type)
    then one_issue "FORMULA_TYPE_MISMATCH" sp "Boolean operator requires Booleans"
    else ok_type boolean_type
  else if comparison_operator op then
    if negb (AllowsBinary OperationCompare (Type_Unit left_type) (Type_Unit right_type))
    then one_issue "FORMULA_UNIT_MISMATCH" sp "comparison requires same dimension"
    else ok_type boolean_type
  else if bool_decide (op ∈ ["+"; "-"]) then
    if negb (AllowsBinary OperationAdd (Type_Unit left_type) (Type_Unit right_type))
    then one_issue "FORMULA_UNIT_MISMATCH" sp "arithmetic requires same dimension"
    else ok_type left_type
  else if bool_decide (op ∈ ["*"; "/"]) then
    if negb (AllowsBinary OperationMultiply (Type_Unit left_type) (Type_Unit right_type))
    then one_issue "FORMULA_UNIT_MISMATCH" sp "operation is not registered"
    else if bool_decide (Dimension (Type_Unit left_type) = "scalar") then ok_type right_type
    else ok_type left_type
  else syntax_invalid sp.

(** [for _, arg := range node.Args[1:]] *)
Fixpoint infer_rest (first : Type_) (issues : list Diagnostic) (rest : list (Span * result_or_panic typed)) :
    result_or_panic typed :=
  match rest with
  | [] => Ok (first, issues)
  | (arg_span, r) :: rest' =>
      let? (value, arg_issues) := r in
      let mismatch :=
        if same_type value first then [] else [mkDiagnostic "FORMULA_TYPE_MISMATCH" arg_span "function argument mismatch"] in
      infer_rest first (issues ++ arg_issues ++ mismatch)%list rest'
  end.

Definition one_argument (name : string) : bool := bool_decide (name ∈ ["abs"; "floor"; "ceil"; "round"]).

Definition infer_if (sp : Span) (spans : list Span) (rs : list (result_or_panic typed)) : result_or_panic typed :=
  let? (condition, issues) := nth_arg rs 0 in
  if negb (bool_decide (issues = [])) || negb (is_boolean condition)
  then one_issue "FORMULA_TYPE_MISMATCH" (default sp (spans !! 0%nat)) "if condition must be Boolean"
  else
    let? (left_type, left_issues) := nth_arg rs 1 in
    let? (right_type, right_issues) := nth_arg rs 2 in
    if negb (bool_decide (left_issues = [])) || negb (bool_decide (right_issues = [])) ||
       negb (same_type left_type right_type)
    then one_issue "FORMULA_TYPE_MISMATCH" sp "if branches must match"
    else ok_type left_type.

(** The [NodeCall] case, from the outcomes of its arguments. *)
Definition infer_call (sp : Span) (name : string) (spans : list Span) (rs : list (result_or_panic typed)) :
    result_or_panic typed :=
  if negb (bool_decide (is_Some (Registry_Function registry name)))
  then one_issue "FORMULA_UNKNOWN_FUNCTION" sp "unknown function"
  else if bool_decide (length rs = 0%nat) then one_issue "FORMULA_TYPE_MISMATCH" sp "function requires arguments"
  else if bool_decide (name = "if") then
    if negb (bool_decide (length rs = 3%nat)) then one_issue "FORMULA_TYPE_MISMATCH" sp "if requires three arguments"
    else infer_if sp spans rs
  else if bool_decide (name ∈ ["min"; "max"]) && bool_decide (length rs < 2)%nat
  then one_issue "FORMULA_TYPE_MISMATCH" sp "min/max require two arguments"
  else if bool_decide (name = "clamp") && negb (bool_decide (length rs = 3%nat))
  then one_issue "FORMULA_TYPE_MISMATCH" sp "clamp requires three arguments"
  else if one_argument name && negb (bool_decide (length rs = 1%nat))
  then one_issue "FORMULA_TYPE_MISMATCH" sp "function requires one argument"
  else
    let? (first, issues) := nth_arg rs 0 in
    infer_rest first issues (zip (drop 1 spans) (drop 1 rs)).

Fixpoint Infer (node : Node) : result_or_panic typed :=
  match node with
  | mkNode kind sp text unit_ scope symbol op args =>
      let rs := map Infer args in
      match kind with
      | NodeDecimal => ok_type (mkType DecimalType scalar)
      | NodeBoolean => ok_type boolean_type
      | NodeQuantity =>
          match Registry_Unit registry unit_ with
          | None => one_issue "FORMULA_UNIT_MISMATCH" sp "unknown unit"
          | Some u => ok_type (mkType (Unit_ValueType u) u)
          end
      | NodeSelector =>
          match symbols scope symbol with
          | None => one_issue "FORMULA_UNKNOWN_VARIABLE" sp "unknown variable"
          | Some t => ok_type t
          end
      | NodeUnary => let? v := nth_arg rs 0 in infer_unary sp op v
      | NodeBinary => let? l := nth_arg rs 0 in let? r := nth_arg rs 1 in infer_binary sp op l r
      | NodeCall => infer_call sp text (map Node_Span args) rs
      | NodeInvalid | NodeKindUnknown _ => syntax_invalid sp
      end
  end.

Definition InferOutput (node : Node) (expected : Type_) : result_or_panic (list Diagnostic) :=
  let? (actual, issues) := Infer node in
  if negb (bool_decide (issues = [])) then Ok issues
  else if negb (same_type actual expected)
  then Ok [mkDiagnostic "FORMULA_TYPE_MISMATCH" (Node_Span node) "formula output is incompatible with target attribute"]
  else Ok [].
End infer.

(** ** Evaluation *)
Section evaluate.
Context `{UnicodeTables, ApdLib}.

Record Result := mkResult { Result_Type : Type_; Result_Decimal : option Decimal; Result_Boolean : option bool }.
Definition no_result : Result := mkResult no_type None None.
Definition decimal_result (d : Decimal) : Result := mkResult no_type (Some d) None.
Definition boolean_result (b : bool) : Result := mkResult no_type None (Some b).

(** The [RuntimeResolver] interface and its table implementation. *)
Record RuntimeResolver := mkRuntimeResolver {
  Resolve : SymbolResolver;
  ResolveValue : string -> string -> option Result
}.
Definition RuntimeTable := gmap string Result.
Definition RuntimeTable_Resolve (t : RuntimeTable) : SymbolResolver :=
  fun scope symbol => Result_Type <$> t !! (scope +:+ ":" +:+ symbol).
Definition RuntimeTable_ResolveValue (t : RuntimeTable) (scope symbol : string) : option Result :=
  t !! (scope +:+ ":" +:+ symbol).
Definition table_resolver (t : RuntimeTable) : RuntimeResolver :=
  mkRuntimeResolver (RuntimeTable_Resolve t) (RuntimeTable_ResolveValue t).

Definition evaluated : Type := Result * list Diagnostic.
Definition eval_ok (r : Result) : result_or_panic evaluated := Ok (r, []).
Definition eval_issue (code : string) (sp : Span) (message : string) : result_or_panic evaluated :=
  Ok (no_result, [mkDiagnostic code sp message]).

(** [*p]: dereferencing a nil pointer panics. *)
Definition deref {T : Type} (p : option T) : result_or_panic T :=
  match p with Some v => Ok v | None => Err NilDereference end.

(** [value, issues := evaluate(...); if len(issues) > 0 { return Result{}, issues }] *)
Definition and_then (r : result_or_panic evaluated) (k : Result -> result_or_panic evaluated) :
    result_or_panic evaluated :=
  let? (value, issues) := r in
  if negb (bool_decide (issues = [])) then Ok (no_result, issues) else k value.

(** [if err != nil { return NUMERIC_OUT_OF_RANGE } return Result{Decimal: &value}] *)
Definition numeric (sp : Span) (r : result Decimal string) : result_or_panic evaluated :=
  match r with
  | Err err => eval_issue "NUMERIC_OUT_OF_RANGE" sp err
  | Ok d => eval_ok (decimal_result d)
  end.

Definition compare_outcome (op : string) (comparison : Z) : bool :=
  (if bool_decide (op = "<") then comparison <? 0
   else if bool_decide (op = "<=") then comparison <=? 0
   else if bool_decide (op = ">") then 0 <? comparison
   else if bool_decide (op = ">=") then 0 <=? comparison
   else if bool_decide (op = "==") then comparison =? 0
   else negb (comparison =? 0))%Z.

Definition evaluate_arithmetic (sp right_span : Span) (op : string) (l r : Decimal) : result_or_panic evaluated :=
  if comparison_operator op then eval_ok (boolean_result (compare_outcome op (Compare l r)))
  else if bool_decide (op = "+") then numeric sp (Add l r)
  else if bool_decide (op = "-") then numeric sp (Subtract l r)
  else if bool_decide (op = "*") then numeric sp (Multiply l r)
  else if bool_decide (op = "/") then
    if bool_decide (Decimal_String r = "0") then eval_issue "FORMULA_DIVISION_BY_ZERO" right_span "division by zero"
    else numeric sp (Divide l r)
  else eval_ok (decimal_result (mkDecimal apd_zero)).

Definition evaluate_binary (sp : Span) (op : string) (spans : list Span) (rs : list (result_or_panic evaluated)) :
    result_or_panic evaluated :=
  if bool_decide (op ∈ ["&&"; "||"]) then
    and_then (nth_arg rs 0) (fun l =>
      let? b := deref (Result_Boolean l) in
      if bool_decide (op = "&&") && negb b then eval_ok (boolean_result false)
      else if bool_decide (op = "||") && b then eval_ok (boolean_result true)
      else nth_arg rs 1)
  else
    and_then (nth_arg rs 0) (fun l =>
    and_then (nth_arg rs 1) (fun r =>
      match Result_Decimal l, Result_Decimal r with
      | Some a, Some b => evaluate_arithmetic sp (default sp (spans !! 1%nat)) op a b
      | _, _ => eval_issue "FORMULA_TYPE_MISMATCH" sp "numeric operands required"
      end)).

(** The loop that collects the numeric arguments of a call: their values, or
    the outcome of the early return. *)
Fixpoint numeric_arguments (args : list (Span * result_or_panic evaluated)) :
    result (list Decimal) (result_or_panic evaluated) :=
  match args with
  | [] => Ok []
  | (sp, r) :: args' =>
      match r with
      | Err p => Err (Err p)
      | Ok (value, issues) =>
          if negb (bool_decide (issues = [])) then Err (Ok (no_result, issues))
          else match Result_Decimal value with
          | None => Err (eval_issue "FORMULA_TYPE_MISMATCH" sp "numeric argument required")
          | Some d => let? rest := numeric_arguments args' in Ok (d :: rest)
          end
      end
  end.

Definition pick (name : string) (current v : Decimal) : Decimal :=
  if (bool_decide (name = "min") && (Compare v current <? 0)%Z) ||
     (bool_decide (name = "max") && (0 <? Compare v current)%Z) then v else current.

Definition at_index (values : list Decimal) (i : nat) : result_or_panic Decimal :=
  match values !! i with Some d => Ok d | None => Err IndexOutOfRange end.

(** The rest of the [NodeCall] case, on the collected [values]. *)
Definition apply_function (sp : Span) (name : string) (values : list Decimal) : result_or_panic evaluated :=
  let? current := at_index values 0 in
  if bool_decide (name ∈ ["min"; "max"]) then
    eval_ok (decimal_result (foldl (pick name) current (drop 1 values)))
  else if bool_decide (name = "clamp") then
    let? lower := at_index values 1 in
    let current := if (Compare current lower <? 0)%Z then lower else current in
    let? upper := at_index values 2 in
    let current := if (0 <? Compare current upper)%Z then upper else current in
    eval_ok (decimal_result current)
  else
    let mismatch := eval_issue "FORMULA_TYPE_MISMATCH" sp "expression needs a runtime value" in
    if one_argument name then
      match (if bool_decide (name = "abs") then Abs current
             else if bool_decide (name = "floor") then Floor current
             else if bool_decide (name = "ceil") then Ceil current
             else Round current) with
      | Ok d => eval_ok (decimal_result d)
      | Err _ => mismatch
      end
    else mismatch.

Definition evaluate_call (sp : Span) (name : string) (spans : list Span) (rs : list (result_or_panic evaluated)) :
    result_or_panic evaluated :=
  if bool_decide (name = "if") then
    and_then (nth_arg rs 0) (fun condition =>
      let? b := deref (Result_Boolean condition) in
      if b then nth_arg rs 1 else nth_arg rs 2)
  else match numeric_arguments (zip spans rs) with
  | Err early => early
  | Ok values => apply_function sp name values
  end.

Definition evaluate_unary (sp : Span) (op : string) (value : Result) : result_or_panic evaluated :=
  if bool_decide (op = "!") then
    let? b := deref (Result_Boolean value) in eval_ok (boolean_result (negb b))
  else
    let? d := deref (Result_Decimal value) in numeric sp (Subtract (ParseDecimal_or_zero "0") d).

(** Exactly one of the two pointers of a runtime value is set. *)
Definition one_value (v : Result) : bool :=
  match Result_Decimal v, Result_Boolean v with
  | Some _, None | None, Some _ => true
  | _, _ => false
  end.

Context (symbols : RuntimeResolver).

Fixpoint evaluate (node : Node) : result_or_panic evaluated :=
  match node with
  | mkNode kind sp text unit_ scope symbol op args =>
      let rs := map evaluate args in
      match kind with
      | NodeDecimal | NodeQuantity =>
          match ParseDecimal text with
          | Err err => eval_issue "NUMERIC_NON_FINITE" sp err
          | Ok d => eval_ok (decimal_result d)
          end
      | NodeBoolean => eval_ok (boolean_result (bool_decide (text = "true")))
      | NodeSelector =>
          match ResolveValue symbols scope symbol with
          | None => eval_issue "FORMULA_UNKNOWN_VARIABLE" sp "unknown variable"
          | Some value =>
              if one_value value then eval_ok value
              else eval_issue "FORMULA_UNKNOWN_VARIABLE" sp "unknown variable"
          end
      | NodeUnary => and_then (nth_arg rs 0) (evaluate_unary sp op)
      | NodeBinary => evaluate_binary sp op (map Node_Span args) rs
      | NodeCall => evaluate_call sp text (map Node_Span args) rs
      | NodeInvalid | NodeKindUnknown _ =>
          eval_issue "FORMULA_TYPE_MISMATCH" sp "expression needs a runtime value"
      end
  end.
End evaluate.

Definition EvaluateWithSymbols `{UnicodeTables, ApdLib} (node : Node) (registry : Registry)
    (symbols : option RuntimeResolver) : result_or_panic evaluated :=
  let symbols := default (table_resolver ∅) symbols in
  let? (type_info, issues) := Infer registry (Resolve symbols) node in
  if negb (bool_decide (issues = [])) then Ok (no_result, issues)
  else
    let? (value, issues) := evaluate symbols node in
    Ok (mkResult type_info (Result_Decimal value) (Result_Boolean value), issues).

Definition Evaluate `{UnicodeTables, ApdLib} (node : Node) (registry : Registry) : result_or_panic evaluated :=
  EvaluateWithSymbols node registry (Some (table_resolver ∅)).

(** ** No panic in inference *)
Lemma nth_arg_map {T : Type} (f : Node -> result_or_panic T) args i :
  nth_arg (map f args) i = match args !! i with Some a => f a | None => Err IndexOutOfRange end.
Proof. unfold nth_arg. rewrite list_lookup_fmap. by destruct (args !! i). Qed.

Definition returns {T : Type} (r : result_or_panic T) : Prop := exists v, r = Ok v.

Lemma returns_bind {T U : Type} (r : result_or_panic T) (k : T -> result_or_panic U) :
  returns r -> (forall v, returns (k v)) -> returns (result_bind r k).
Proof. intros [v ->] Hk. apply Hk. Qed.

Section infer_total.
Context (registry : Registry) (symbols : SymbolResolver).

Lemma one_issue_returns code sp m : returns (one_issue code sp m).
Proof. by eexists. Qed.
Lemma ok_type_returns t : returns (ok_type t).
Proof. by eexists. Qed.
Hint Resolve one_issue_returns ok_type_returns : eco.

Lemma infer_unary_returns sp op v : returns (infer_unary sp op v).
Proof. destruct v as [t ti]. unfold infer_unary. repeat case_guard; eauto with eco. by eexists. Qed.
Lemma infer_binary_returns sp op l r : returns (infer_binary sp op l r).
Proof.
  destruct l as [lt il], r as [rt ir]. unfold infer_binary, syntax_invalid.
  repeat case_guard; eauto with eco. by eexists.
Qed.
Lemma infer_rest_returns first issues rest :
  Forall (fun x => returns (snd x)) rest -> returns (infer_rest first issues rest).
Proof.
  intros Hr. revert issues. induction Hr as [|[sp r] rest Hr _ IH]; intros issues; simpl; [by eexists|].
  apply returns_bind; [done|]. intros [v vi]. apply IH.
Qed.

Lemma Forall_zip_snd {A B : Type} (P : B -> Prop) (l : list A) (k : list B) :
  Forall P k -> Forall (fun x => P (snd x)) (zip l k).
Proof.
  intros Hk. revert l. induction Hk as [|b k Hb _ IH]; intros [|a l]; simpl; constructor; auto.
Qed.

Lemma infer_call_returns sp name spans rs :
  Forall returns rs -> returns (infer_call registry sp name spans rs).
Proof.
  intros Hrs. unfold infer_call.
  assert (forall i, (i < length rs)%nat -> returns (nth_arg rs i)) as Hn.
  { intros i Hi. unfold nth_arg. destruct (lookup_lt_is_Some_2 rs i Hi) as [r Hr]. rewrite Hr.
    rewrite Forall_lookup in Hrs. by apply (Hrs i). }
  repeat (case_guard; [solve [eauto with eco] |]). case_guard.
  - case_guard as H3; [eauto with eco|]. bool_to_prop. unfold infer_if.
    apply returns_bind; [apply Hn; lia|]. intros [c ci]. case_guard; [eauto with eco|].
    apply returns_bind; [apply Hn; lia|]. intros [lt li].
    apply returns_bind; [apply Hn; lia|]. intros [rt ri]. case_guard; eauto with eco.
  - repeat (case_guard; [solve [eauto with eco] |]). apply returns_bind.
    + apply Hn. bool_to_prop. destruct rs; simpl in *; [done|lia].
    + intros [first issues]. apply infer_rest_returns. by apply Forall_zip_snd, Forall_drop.
Qed.

Lemma Infer_returns node : everywhere shape_ok node = true -> returns (Infer registry symbols node).
Proof.
  induction node as [[k sp tx u sc sy op args] IH] using Node_rect_args. rewrite everywhere_eq.
  simpl Args in *. intros [Hs Hargs]%andb_prop.
  assert (Forall returns (map (Infer registry symbols) args)) as Hrs.
  { apply Forall_fmap. apply forallb_Forall in Hargs. rewrite Forall_forall in *. auto. }
  simpl. destruct k; eauto with eco.
  - by destruct (Registry_Unit registry u); eauto with eco.
  - by destruct (symbols sc sy); eauto with eco.
  - by apply infer_call_returns.
  - unfold shape_ok in Hs. simpl in Hs. bool_to_prop. destruct args as [|a [|? ?]]; try done.
    inversion Hrs; subst. apply returns_bind; [done|]. intros v. apply infer_unary_returns.
  - unfold shape_ok in Hs. simpl in Hs. bool_to_prop. destruct args as [|a [|b [|? ?]]]; try done.
    inversion Hrs as [|? ? Ha Hb]; inversion Hb; subst.
    apply returns_bind; [done|]. intros l. apply returns_bind; [done|]. intros r. apply infer_binary_returns.
Qed.
End infer_total.

(** ** Type soundness: what inference accepts evaluates without a panic to a
    value of the inferred type, or to a reported issue *)
Section soundness.
Context `{UnicodeTables, ApdLib}.
Context (registry : Registry) (symbols : RuntimeResolver).

Notation Infer := (Infer registry (Resolve symbols)).
Notation evaluate := (evaluate symbols).

(** A value of a type: a boolean pointer for Booleans, a decimal otherwise. *)
Definition agrees (t : Type_) (v : Result) : Prop :=
  match Result_Decimal v, Result_Boolean v with
  | Some _, None => is_boolean t = false
  | None, Some _ => is_boolean t = true
  | _, _ => False
  end.

(** The contract of a runtime resolver: a resolvable value has a resolvable
    type, and carries the pointer of that type. *)
Definition resolver_consistent : Prop := forall scope symbol v,
  ResolveValue symbols scope symbol = Some v -> one_value v = true ->
  forall t, Resolve symbols scope symbol = Some t -> agrees t v.

Definition registry_numeric : Prop :=
  forall name u, Registry_Unit registry name = Some u -> Unit_ValueType u <> BooleanType.

Context (Hsymbols : resolver_consistent) (Hunits : registry_numeric).

(** The outcome is not a panic, and without issues the value satisfies [P]. *)
Definition safe (P : Result -> Prop) (r : result_or_panic evaluated) : Prop :=
  exists v issues, r = Ok (v, issues) /\ (issues = [] -> P v).

Lemma safe_issue P code sp m : safe P (eval_issue code sp m).
Proof. by do 2 eexists. Qed.
Lemma safe_ok (P : Result -> Prop) v : P v -> safe P (eval_ok v).
Proof. by do 2 eexists. Qed.
Lemma safe_weaken (P Q : Result -> Prop) r : (forall v, P v -> Q v) -> safe P r -> safe Q r.
Proof. intros HPQ (v & issues & -> & Hv). do 2 eexists. split; [done|]. auto. Qed.
Lemma safe_and_then (P Q : Result -> Prop) r k :
  safe P r -> (forall v, P v -> safe Q (k v)) -> safe Q (and_then r k).
Proof.
  intros (v & issues & -> & Hv) Hk. unfold and_then. simpl. case_bool_decide; simpl; [auto|].
  by do 2 eexists.
Qed.
Lemma safe_numeric t sp r : is_boolean t = false -> safe (agrees t) (numeric sp r).
Proof.
  intros Ht. destruct r as [d|err]; [by apply safe_ok|apply safe_issue].
Qed.

Lemma agrees_kind t t' v : is_boolean t = is_boolean t' -> agrees t v -> agrees t' v.
Proof. unfold agrees. by intros ->. Qed.
Lemma agrees_same t t' v : same_type t t' = true -> agrees t v -> agrees t' v.
Proof. unfold same_type, agrees, is_boolean. intros Hs. bool_to_prop.
  by match goal with Heq : Type_ValueType t = _ |- _ => rewrite <- Heq end.
Qed.

Lemma infer_unary_inv sp op v t :
  infer_unary sp op v = Ok (t, []) ->
  v.2 = [] /\ if bool_decide (op = "!") then is_boolean v.1 = true /\ t = boolean_type
              else is_boolean v.1 = false /\ t = v.1.
Proof.
  destruct v as [t1 i1]. unfold infer_unary, one_issue, ok_type. simpl.
  destruct (decide (i1 = [])) as [->|Hi]; [|rewrite (bool_decide_false (i1 = [])) by done; by intros [= _ ?]].
  simpl. destruct (bool_decide (op = "!")); destruct (is_boolean t1) eqn:E; simpl; naive_solver.
Qed.

Definition arithmetic_operator (op : string) : Prop := op ∈ ["+"; "-"; "*"; "/"].

Lemma infer_binary_inv sp op l r t :
  infer_binary sp op l r = Ok (t, []) ->
  l.2 = [] /\ r.2 = [] /\
  ((op ∈ ["&&"; "||"] /\ is_boolean l.1 = true /\ is_boolean r.1 = true /\ t = boolean_type) \/
   (op ∉ ["&&"; "||"] /\ comparison_operator op = true /\ t = boolean_type) \/
   (op ∉ ["&&"; "||"] /\ comparison_operator op = false /\ arithmetic_operator op /\ (t = l.1 \/ t = r.1))).
Proof.
  destruct l as [lt li], r as [rt ri]. unfold infer_binary, one_issue, ok_type, syntax_invalid. simpl.
  case_bool_decide as Hi; simpl; [|by intros [= _ ?]].
  apply app_eq_nil in Hi as [-> ->].
  case_bool_decide as Hb; [case_guard as Hg; [done|]|].
  { bool_to_prop. intros [= <-]. naive_solver. }
  case_guard as Hc; [case_guard; [done|]; intros [= <-]; naive_solver|].
  case_bool_decide as Hp; [case_guard; [done|]; intros [= <-]|].
  { split; [done|]. split; [done|]. right. right. unfold arithmetic_operator. set_solver. }
  case_bool_decide as Hm; [|done]. case_guard; [done|].
  case_bool_decide; intros [= <-]; (split; [done|]; split; [done|]; right; right;
    unfold arithmetic_operator; set_solver).
Qed.

(** One argument: its outcome in inference and in evaluation. *)
Definition sound (n : Node) : Prop := forall t, Infer n = Ok (t, []) -> safe (agrees t) (evaluate n).

Lemma nth_sound args i t :
  Forall sound args -> nth_arg (map Infer args) i = Ok (t, []) ->
  safe (agrees t) (nth_arg (map evaluate args) i).
Proof.
  intros Hs. rewrite !nth_arg_map. destruct (args !! i) as [a|] eqn:Ha; [|done].
  rewrite Forall_lookup in Hs. by apply (Hs i a).
Qed.

Lemma agrees_boolean t v : agrees t v -> is_boolean t = true -> exists b, Result_Boolean v = Some b.
Proof. unfold agrees. destruct (Result_Decimal v), (Result_Boolean v); intros Ha Hb; try done; eauto; congruence. Qed.
Lemma agrees_decimal t v : agrees t v -> is_boolean t = false -> exists d, Result_Decimal v = Some d.
Proof. unfold agrees. destruct (Result_Decimal v), (Result_Boolean v); intros Ha Hb; try done; eauto; congruence. Qed.
Lemma numeric_not_boolean t v d : agrees t v -> Result_Decimal v = Some d -> is_boolean t = false.
Proof. unfold agrees. intros Ha Hd. rewrite Hd in Ha. by destruct (Result_Boolean v). Qed.

Lemma evaluate_unary_safe sp op v t value :
  infer_unary sp op v = Ok (t, []) -> agrees v.1 value -> safe (agrees t) (evaluate_unary sp op value).
Proof.
  intros (_ & Ht)%infer_unary_inv Hv. unfold evaluate_unary.
  case_bool_decide; destruct Ht as [Hb ->].
  - destruct (agrees_boolean _ _ Hv Hb) as [b ->]. by apply safe_ok.
  - destruct (agrees_decimal _ _ Hv Hb) as [d ->]. by apply safe_numeric.
Qed.

Lemma comparison_safe sp rsp op a b :
  comparison_operator op = true -> safe (agrees boolean_type) (evaluate_arithmetic sp rsp op a b).
Proof. intros Hc. unfold evaluate_arithmetic. rewrite Hc. by apply safe_ok. Qed.

Lemma arithmetic_safe sp rsp op a b t :
  comparison_operator op = false -> is_boolean t = false -> safe (agrees t) (evaluate_arithmetic sp rsp op a b).
Proof.
  intros Hc Ht. unfold evaluate_arithmetic. rewrite Hc.
  do 3 (case_bool_decide; [by apply safe_numeric|]).
  case_bool_decide; [case_bool_decide; [apply safe_issue|by apply safe_numeric]|].
  by apply safe_ok.
Qed.


Lemma evaluate_binary_safe sp op spans args l r t :
  Forall sound args ->
  nth_arg (map Infer args) 0 = Ok l -> nth_arg (map Infer args) 1 = Ok r ->
  infer_binary sp op l r = Ok (t, []) ->
  safe (agrees t) (evaluate_binary sp op spans (map evaluate args)).
Proof.
  intros Hs Hl Hr (El & Er & Hop)%infer_binary_inv. destruct l as [lt li], r as [rt ri]. simpl in *. subst li ri.
  pose proof (nth_sound args 0 lt Hs Hl) as Sl. pose proof (nth_sound args 1 rt Hs Hr) as Sr.
  unfold evaluate_binary.
  destruct Hop as [(Hop & Hbl & Hbr & ->)|Hop].
  { rewrite bool_decide_true by done. eapply safe_and_then; [exact Sl|]. intros v Hv.
    destruct (agrees_boolean _ _ Hv Hbl) as [b ->]. simpl.
    case_guard; [by apply safe_ok|]. case_guard; [by apply safe_ok|].
    eapply safe_weaken; [|exact Sr]. intros w. by apply agrees_kind. }
  assert (op ∉ ["&&"; "||"]) as Hno by by destruct Hop as [(? & _)|(? & _)].
  rewrite bool_decide_false by done.
  eapply safe_and_then; [exact Sl|]. intros vl Hvl. eapply safe_and_then; [exact Sr|]. intros vr Hvr.
  destruct (Result_Decimal vl) as [dl|] eqn:El; [|apply safe_issue].
  destruct (Result_Decimal vr) as [dr|] eqn:Er; [|apply safe_issue].
  pose proof (numeric_not_boolean _ _ _ Hvl El). pose proof (numeric_not_boolean _ _ _ Hvr Er).
  destruct Hop as [(_ & Hc & ->)|(_ & Hc & _ & Ht)]; [by apply comparison_safe|].
  apply arithmetic_safe; [done|]. by destruct Ht as [-> | ->].
Qed.

(** ** Calls *)
Lemma infer_rest_inv first issues rest t :
  infer_rest first issues rest = Ok (t, []) ->
  t = first /\ issues = [] /\ Forall (fun x => exists u, snd x = Ok (u, []) /\ same_type u first = true) rest.
Proof.
  revert issues. induction rest as [|[sp r] rest IH]; intros issues; simpl; [naive_solver|].
  destruct r as [[u ui]|]; simpl; [|done]. intros (-> & Hnil & Hrest)%IH.
  apply app_eq_nil in Hnil as [-> Hnil]. apply app_eq_nil in Hnil as [-> Hnil].
  split; [done|]. split; [done|]. constructor; [|done]. exists u. split; [done|].
  by destruct (same_type u first).
Qed.

Lemma infer_if_inv sp spans rs t :
  infer_if sp spans rs = Ok (t, []) ->
  exists c r, nth_arg rs 0 = Ok (c, []) /\ is_boolean c = true /\
    nth_arg rs 1 = Ok (t, []) /\ nth_arg rs 2 = Ok (r, []) /\ same_type t r = true.
Proof.
  unfold infer_if, one_issue. destruct (nth_arg rs 0) as [[c ci]|]; simpl; [|done].
  case_guard as Hc; [done|]. destruct (nth_arg rs 1) as [[l li]|]; simpl; [|done].
  destruct (nth_arg rs 2) as [[r ri]|]; simpl; [|done]. case_guard as Hg; [done|].
  intros [= ->]. bool_to_prop. naive_solver.
Qed.

(** What a call that infers without issues looks like. *)
Lemma infer_call_inv sp name args t :
  infer_call registry sp name (map Node_Span args) (map Infer args) = Ok (t, []) ->
  is_Some (Registry_Function registry name) /\
  (name = "if" /\ (exists c r, nth_arg (map Infer args) 0 = Ok (c, []) /\ is_boolean c = true /\
       nth_arg (map Infer args) 1 = Ok (t, []) /\ nth_arg (map Infer args) 2 = Ok (r, []) /\
       same_type t r = true) \/
   name <> "if" /\ args <> [] /\ (name = "clamp" -> length args = 3%nat) /\
     Forall (fun a => exists u, Infer a = Ok (u, []) /\ same_type u t = true) args).
Proof.
  unfold infer_call. rewrite length_map.
  case_guard as Hf; [done|]. case_guard as Hlen; [done|]. bool_to_prop.
  case_guard as Hif.
  - case_guard; [done|]. intros Hi%infer_if_inv. bool_to_prop. auto.
  - case_guard; [done|]. case_guard as Hclamp; [done|]. case_guard; [done|]. intros Hi.
    split; [done|]. right. split; [by bool_to_prop|].
    destruct args as [|a args]; [done|]. split; [done|].
    split. { intros ->. destruct (decide (length (a :: args) = 3%nat)); [done|].
      rewrite (bool_decide_true ("clamp" = "clamp")), bool_decide_false in Hclamp by done. done. }
    rewrite nth_arg_map in Hi. simpl in Hi. destruct (Infer a) as [[first ai]|] eqn:Ha; simpl in Hi; [|done].
    apply infer_rest_inv in Hi as (-> & -> & Hrest). constructor.
    + exists first. split; [done|]. unfold same_type. by rewrite !bool_decide_true.
    + rewrite !drop_0 in Hrest. clear -Hrest. induction args as [|b args IH]; [constructor|].
      simpl in Hrest. inversion Hrest; subst. constructor; auto.
Qed.

Lemma numeric_arguments_safe spans args t :
  length spans = length args -> Forall sound args ->
  Forall (fun a => exists u, Infer a = Ok (u, []) /\ same_type u t = true) args ->
  match numeric_arguments (zip spans (map evaluate args)) with
  | Ok values => length values = length args /\ (args <> [] -> is_boolean t = false)
  | Err early => exists v issues, early = Ok (v, issues) /\ issues <> []
  end.
Proof.
  intros Hlen Hs. revert spans Hlen. induction Hs as [|a args Ha _ IH]; intros [|sp spans] Hlen Ht; simpl in *; try done.
  inversion Ht as [|? ? (u & Hu & Hsame) Hrest]; subst. injection Hlen as Hlen.
  destruct (Ha u Hu) as (v & issues & -> & Hv). case_bool_decide as Hi; simpl; [|by do 2 eexists].
  destruct (Result_Decimal v) as [d|] eqn:Hd; [|by do 2 eexists].
  specialize (IH spans Hlen Hrest). destruct (numeric_arguments (zip spans (map evaluate args))) as [values|]; simpl.
  - destruct IH as [IH _]. split; [by rewrite IH|]. intros _.
    eapply (numeric_not_boolean t); [|exact Hd]. eapply agrees_same; [done|auto].
  - done.
Qed.

Lemma apply_function_safe sp name values t :
  is_boolean t = false -> values <> [] -> (name = "clamp" -> length values = 3%nat) ->
  safe (agrees t) (apply_function sp name values).
Proof.
  intros Ht Hne Hclamp. unfold apply_function, at_index. destruct values as [|d values]; [done|]. simpl.
  case_guard; [by apply safe_ok|]. case_guard as Hc.
  - bool_to_prop. specialize (Hclamp Hc). destruct values as [|d1 [|d2 [|? ?]]]; try done. by apply safe_ok.
  - case_guard; [|apply safe_issue].
    match goal with |- safe _ (match ?r with _ => _ end) => destruct r end; [by apply safe_ok|apply safe_issue].
Qed.

Lemma evaluate_call_safe sp name args t :
  Forall sound args ->
  infer_call registry sp name (map Node_Span args) (map Infer args) = Ok (t, []) ->
  safe (agrees t) (evaluate_call sp name (map Node_Span args) (map evaluate args)).
Proof.
  intros Hs (_ & [(-> & c & r & H0' & Hc & H1 & H2 & Hsame)|(Hif & Hne & Hclamp & Hall)])%infer_call_inv;
    unfold evaluate_call.
  - rewrite bool_decide_true by done.
    eapply safe_and_then; [by apply nth_sound|]. intros v Hv.
    destruct (agrees_boolean _ _ Hv Hc) as [b ->]. simpl. destruct b; [by apply nth_sound|].
    eapply safe_weaken; [|by apply nth_sound]. intros w. apply agrees_kind.
    unfold same_type, is_boolean in *. bool_to_prop.
    match goal with Heq : Type_ValueType t = _ |- _ => by rewrite Heq end.
  - rewrite bool_decide_false by done.
    pose proof (numeric_arguments_safe (map Node_Span args) args t ltac:(by rewrite length_map) Hs Hall) as Hn.
    destruct (numeric_arguments _) as [values|early].
    + destruct Hn as [Hlen Hb]. apply apply_function_safe; [by apply Hb| |by rewrite Hlen].
      intros ->. by destruct args.
    + destruct Hn as (v & issues & -> & Hi). by do 2 eexists.
Qed.

Lemma evaluate_sound node : sound node.
Proof.
  induction node as [[k sp tx u sc sy op args] IH] using Node_rect_args. simpl Args in IH. intros t. simpl.
  destruct k; try done.
  - intros [= <-]. by destruct (ParseDecimal tx); [apply safe_ok|apply safe_issue].
  - intros [= <-]. by apply safe_ok.
  - destruct (Registry_Unit registry u) as [un|] eqn:Hu; [|done]. intros [= <-].
    destruct (ParseDecimal tx); [|apply safe_issue]. apply safe_ok. unfold agrees, is_boolean. simpl.
    apply bool_decide_eq_false. by eapply Hunits.
  - destruct (Resolve symbols sc sy) as [ty|] eqn:Hr; [|done]. intros [= <-].
    destruct (ResolveValue symbols sc sy) as [v|] eqn:Hv; [|apply safe_issue].
    destruct (one_value v) eqn:Ho; [|apply safe_issue]. apply safe_ok. by eapply Hsymbols.
  - intros Hi. by apply evaluate_call_safe.
  - destruct (nth_arg (map Infer args) 0) as [v|] eqn:Hv; simpl; [|done]. intros Hi.
    destruct v as [vt vi]. pose proof (infer_unary_inv _ _ _ _ Hi) as [Hnil _]. simpl in Hnil. subst vi.
    eapply safe_and_then; [by apply nth_sound|]. intros w Hw. by eapply evaluate_unary_safe.
  - destruct (nth_arg (map Infer args) 0) as [l|] eqn:Hl; simpl; [|done].
    destruct (nth_arg (map Infer args) 1) as [r|] eqn:Hr; simpl; [|done]. intros Hi.
    by eapply evaluate_binary_safe.
Qed.
End soundness.

(** ** What inference reports

    Every issue has a code of the catalog and the span of a node of the tree; a
    syntax issue needs an incomplete tree. *)
Definition inference_codes : list string :=
  ["FORMULA_TYPE_MISMATCH"; "FORMULA_UNIT_MISMATCH"; "FORMULA_UNKNOWN_VARIABLE"; "FORMULA_UNKNOWN_FUNCTION"]%string.

Section reports.
Context (registry : Registry) (symbols : SymbolResolver).
(** Spans of interest, and what is claimed of an issue at one of them. *)
Context (good : Span -> bool) (P : Diagnostic -> Prop).
Context (P_codes : forall code sp m, code ∈ inference_codes -> good sp = true -> P (mkDiagnostic code sp m)).

Definition reports (r : result_or_panic typed) : Prop := forall v, r = Ok v -> Forall P v.2.

Lemma reports_ok t : reports (ok_type t).
Proof. intros v [= <-]. constructor. Qed.
Lemma reports_issue code sp m : code ∈ inference_codes -> good sp = true -> reports (one_issue code sp m).
Proof. intros Hc Hs v [= <-]. repeat constructor. by apply P_codes. Qed.
Lemma reports_issues t issues : Forall P issues -> reports (Ok (t, issues)).
Proof. by intros Hi v [= <-]. Qed.
Lemma reports_bind (r : result_or_panic typed) k :
  reports r -> (forall v, Forall P v.2 -> reports (k v)) -> reports (result_bind r k).
Proof. intros Hr Hk. destruct r as [v|]; simpl; [auto|done]. Qed.
Lemma reports_nth rs i : Forall reports rs -> reports (nth_arg rs i).
Proof.
  intros Hrs. unfold nth_arg. destruct (rs !! i) as [r|] eqn:E; [|done].
  rewrite Forall_lookup in Hrs. by apply (Hrs i).
Qed.

Ltac report := first [apply reports_ok | apply reports_issue; [compute_decide|done] | by apply reports_issues].

Lemma infer_unary_reports sp op v : good sp = true -> Forall P v.2 -> reports (infer_unary sp op v).
Proof. intros Hsp. destruct v as [t ti]. simpl. intros Hi. unfold infer_unary. repeat (case_guard; [try report|]); report. Qed.

(** A syntax issue is either allowed or ruled out by the shape of the node. *)
Context (P_syntax : Prop) (P_syntax_ok : P_syntax -> forall sp m, good sp = true -> P (mkDiagnostic "FORMULA_SYNTAX_INVALID" sp m)).

Lemma syntax_reports sp : P_syntax -> good sp = true -> reports (syntax_invalid sp).
Proof. intros Hok Hsp v [= <-]. repeat constructor. by apply P_syntax_ok. Qed.

Lemma binary_operator_cases op :
  binary_operator op = true ->
  op ∈ ["&&"; "||"] \/ comparison_operator op = true \/ op ∈ ["+"; "-"] \/ op ∈ ["*"; "/"].
Proof.
  unfold binary_operator, precedence, comparison_operator. intros Hop. bool_to_prop.
  repeat match goal with Hle : (0 <= _)%Z |- _ => revert Hle end.
  case_bool_decide; [set_solver|]. case_bool_decide; [set_solver|].
  case_bool_decide; [auto|]. case_bool_decide; [auto|]. case_bool_decide; [auto|lia].
Qed.

Lemma infer_binary_reports sp op l r :
  P_syntax \/ binary_operator op = true -> good sp = true -> Forall P l.2 -> Forall P r.2 ->
  reports (infer_binary sp op l r).
Proof.
  intros Hop Hsp. destruct l as [lt li], r as [rt ri]. simpl. intros Hl Hr.
  unfold infer_binary. case_guard; [apply reports_issues; by apply Forall_app|].
  case_guard; [case_guard; report|]. case_guard as Hc; [case_guard; report|].
  case_guard; [case_guard; report|]. case_guard; [case_guard; [report|]; case_guard; report|].
  destruct Hop as [Hop|Hop%binary_operator_cases]; [by apply syntax_reports|].
  bool_to_prop. exfalso. destruct Hop as [?|[?|[?|?]]]; congruence || contradiction.
Qed.

Lemma infer_rest_reports first issues rest :
  Forall P issues -> Forall (fun x => good x.1 = true /\ reports x.2) rest -> reports (infer_rest first issues rest).
Proof.
  intros Hi Hr. revert issues Hi. induction Hr as [|[sp r] rest [Hsp Hr] _ IH]; intros issues Hi; simpl in *.
  - by apply reports_issues.
  - apply reports_bind; [done|]. intros [v vi] Hv. apply IH. rewrite !Forall_app. split; [done|].
    split; [done|]. case_guard; repeat constructor. apply P_codes; [compute_decide|done].
Qed.

Lemma infer_call_reports sp name spans rs :
  good sp = true -> Forall (fun s => good s = true) spans -> Forall reports rs ->
  reports (infer_call registry sp name spans rs).
Proof.
  intros Hsp Hspans Hrs. unfold infer_call. do 2 (case_guard; [report|]). case_guard.
  - case_guard; [report|]. unfold infer_if.
    assert (good (default sp (spans !! 0%nat)) = true) as H0.
    { destruct (spans !! 0%nat) as [s0|] eqn:E; [|done]. rewrite Forall_lookup in Hspans. by apply (Hspans 0%nat). }
    do 1 (apply reports_bind; [by apply reports_nth|]; intros [c ci] _). case_guard; [report|].
    apply reports_bind; [by apply reports_nth|]; intros [l li] _.
    apply reports_bind; [by apply reports_nth|]; intros [r ri] _. case_guard; report.
  - do 3 (case_guard; [report|]). apply reports_bind; [by apply reports_nth|].
    intros [first issues] Hi. apply infer_rest_reports; [done|].
    apply (Forall_drop _ 1) in Hspans, Hrs. revert Hspans Hrs. generalize (drop 1 spans), (drop 1 rs).
    intros ss qs Hs. revert qs. induction Hs as [|s ss Hs _ IH]; intros qs Hq; [constructor|].
    destruct Hq as [|q qs Hq Hqs]; constructor; [done|by apply IH].
Qed.

Lemma Infer_reports node :
  everywhere (fun n => good (Node_Span n)) node = true ->
  P_syntax \/ everywhere shape_ok node = true /\ everywhere not_invalid node = true ->
  reports (Infer registry symbols node).
Proof.
  induction node as [[k sp tx u sc sy op args] IH] using Node_rect_args. rewrite !everywhere_eq.
  simpl Args in *. simpl Node_Span. intros [Hsp Hspans]%andb_prop Hshape.
  assert (P_syntax \/ shape_ok (mkNode k sp tx u sc sy op args) = true /\ not_invalid (mkNode k sp tx u sc sy op args) = true) as Hhere.
  { destruct Hshape as [|[[??]%andb_prop [??]%andb_prop]]; [by left|by right]. }
  assert (Forall reports (map (Infer registry symbols) args)) as Hrs.
  { apply Forall_fmap. apply forallb_Forall in Hspans. rewrite Forall_forall in Hspans, IH |- *. intros n Hn.
    apply IH; [done|by apply Hspans|]. destruct Hshape as [|[[_ H1]%andb_prop [_ H2]%andb_prop]]; [by left|right].
    apply forallb_Forall in H1, H2. rewrite Forall_forall in H1. rewrite Forall_forall in H2. auto. }
  assert (Forall (fun s => good s = true) (map Node_Span args)) as Hsp'.
  { apply Forall_fmap. apply forallb_Forall in Hspans. eapply Forall_impl; [exact Hspans|]. intros n Hn.
    cbv beta in Hn |- *. rewrite everywhere_eq in Hn. by apply andb_prop in Hn as [? _]. }
  simpl. destruct k; try report.
  - destruct Hhere as [?|[_ ?]]; [by apply syntax_reports|done].
  - destruct (Registry_Unit registry u); report.
  - destruct (symbols sc sy); report.
  - by apply infer_call_reports.
  - apply reports_bind; [by apply reports_nth|]. intros v Hv'. by apply infer_unary_reports.
  - apply reports_bind; [by apply reports_nth|]. intros l Hl.
    apply reports_bind; [by apply reports_nth|]. intros r Hr. apply infer_binary_reports; [|done..].
    destruct Hhere as [?|[Hs _]]; [by left|right]. unfold shape_ok in Hs. simpl in Hs. by apply andb_prop in Hs as [_ ?].
  - destruct Hhere as [?|[Hs _]]; [by apply syntax_reports|done].
Qed.
End reports.

(** ** Parsed formulas *)
Section formulas.
Context `{UnicodeTables, ApdLib}.

Lemma parsed_shape source r : tree_ok source r -> everywhere shape_ok (Root (ParseResult_AST r)) = true.
Proof.
  intros [Hok _]. eapply everywhere_impl; [|exact Hok]. intros m Hm. by apply andb_prop in Hm as [? _].
Qed.

(** Every entry of a runtime table carries the pointer of its type. *)
Definition table_consistent (t : RuntimeTable) : Prop := map_Forall (fun _ v => agrees (Result_Type v) v) t.

Lemma table_resolver_consistent t : table_consistent t -> resolver_consistent (table_resolver t).
Proof.
  intros Ht scope symbol v Hv _ ty. simpl in *. unfold RuntimeTable_ResolveValue, RuntimeTable_Resolve in *.
  rewrite Hv. simpl. intros [= <-]. by eapply Ht.
Qed.

(** C22: Evaluating a parsed formula over a typed runtime table never panics; a
    result without issues has the inferred type and exactly the pointer of that
    type: a boolean for a Boolean formula, a decimal for a numeric one. *)
Theorem evaluation_is_type_sound us fs registry source r table :
  NewRegistry us fs = Ok registry -> table_consistent table ->
  Parse source (Some registry) = Some r ->
  exists value issues,
    EvaluateWithSymbols (Root (ParseResult_AST r)) registry (Some (table_resolver table)) = Ok (value, issues) /\
    (issues = [] ->
       Infer registry (RuntimeTable_Resolve table) (Root (ParseResult_AST r)) = Ok (Result_Type value, []) /\
       agrees (Result_Type value) value).
Proof.
  intros Hreg Ht Hp. destruct (Parse_spec source (Some registry)) as (r' & Hr' & Hok).
  rewrite Hp in Hr'. injection Hr' as <-. unfold EvaluateWithSymbols. simpl default. simpl Resolve.
  destruct (Infer_returns registry (RuntimeTable_Resolve table) _ (parsed_shape _ _ Hok)) as [[t issues] Hi].
  rewrite Hi. simpl. destruct (decide (issues = [])) as [->|Hne].
  - rewrite bool_decide_true by done. simpl.
    destruct (evaluate_sound registry (table_resolver table) (table_resolver_consistent _ Ht)) with (node := Root (ParseResult_AST r)) (t := t)
      as (v & vi & Hv & Hagree); [|exact Hi|].
    { intros name u Hu. by eapply registry_unit_numeric. }
    rewrite Hv. simpl. do 2 eexists. split; [done|]. intros ->. split; [done|]. by apply Hagree.
  - rewrite bool_decide_false by done. simpl. by do 2 eexists.
Qed.

(** A source the parser accepts without errors is syntactically complete for
    the type checker: inference never reports a syntax issue on it. *)
Theorem parsed_infers_without_syntax_issue registry symbols source r v :
  Parse source (Some registry) = Some r -> Errors r = [] ->
  Infer registry symbols (Root (ParseResult_AST r)) = Ok v ->
  Forall (fun d => Code d <> "FORMULA_SYNTAX_INVALID") v.2.
Proof.
  intros Hp He. destruct (Parse_spec source (Some registry)) as (r' & Hr' & Hok).
  rewrite Hp in Hr'. injection Hr' as <-.
  apply (Infer_reports registry symbols (fun _ => true)) with (P_syntax := False).
  - intros code sp m Hc _ Heq. simpl in Heq. subst. revert Hc. compute_decide.
  - done.
  - eapply (everywhere_impl shape_ok); [done|by eapply parsed_shape].
  - right. split; [by eapply parsed_shape|by apply Hok].
Qed.

(** The type checker compares the units of the operands of an arithmetic or
    comparison operator, not their value types: it accepts two Booleans, and
    the evaluation of what it accepted always fails. *)
Theorem boolean_operands_pass_inference registry symbols sp op a b spa spb :
  comparison_operator op = true \/ op ∈ ["+"; "-"] ->
  let node := mkNode NodeBinary sp "" "" "" "" op [leaf NodeBoolean spa a; leaf NodeBoolean spb b] in
  (exists t, Infer registry (Resolve symbols) node = Ok (t, [])) /\
  exists v, EvaluateWithSymbols node registry (Some symbols) =
    Ok (v, [mkDiagnostic "FORMULA_TYPE_MISMATCH" sp "numeric operands required"]).
Proof.
  intros Hop node.
  assert (op ∉ ["&&"; "||"]) as Hno.
  { rewrite !elem_of_cons, elem_of_nil. intros [-> | [-> | []]];
      (destruct Hop as [Hop|Hop]; [by vm_compute in Hop|]); revert Hop; compute_decide. }
  assert (exists t, Infer registry (Resolve symbols) node = Ok (t, [])) as [t Ht].
  { unfold node. simpl. unfold infer_binary. simpl. rewrite (bool_decide_false (op ∈ _)) by done.
    destruct Hop as [-> | Hop]; [by eexists|]. case_guard; [by eexists|].
    rewrite bool_decide_true by done. by eexists. }
  split; [eauto|]. unfold EvaluateWithSymbols. simpl default. rewrite Ht. simpl.
  unfold evaluate_binary. rewrite bool_decide_false by done. by eexists.
Qed.
End formulas.

Module FormulaExamples.
#[local] Existing Instance integer_apd.

Definition v1 : Registry := Eval vm_compute in
  match V1Registry with Ok r => r | Err _ => mkRegistry ∅ ∅ "" end.
Lemma v1_ok : NewRegistry UnitsV1 FunctionsV1 = Ok v1.
Proof. vm_compute. reflexivity. Qed.

Definition hp_table : RuntimeTable :=
  {[ "self:hp" := mkResult (mkType DecimalType (mkUnit "health_point" DecimalType "health" "health_point"))
                    (Some (mkDecimal 7%Z)) None ]}.
Definition source : string := "if(${self:hp} > 3 [health_point], ${self:hp} * 2, min(${self:hp}, 1 [health_point]))".
Definition parsed : ParseResult := Eval vm_compute in
  default (mkParseResult (mkAST "" (leaf NodeInvalid (mkSpan 0 0) "")) []) (Parse source (Some v1)).
Lemma parsed_ok : Parse source (Some v1) = Some parsed.
Proof. vm_compute. reflexivity. Qed.

Lemma hp_table_consistent : table_consistent hp_table.
Proof.
  intros key v Hv. unfold hp_table, RuntimeTable in Hv. apply lookup_singleton_Some in Hv as [_ <-].
  vm_compute. reflexivity.
Qed.

Definition decimal_of (r : result_or_panic evaluated) : option Z :=
  match r with Ok (v, []) => value <$> Result_Decimal v | _ => None end.

Lemma evaluation_is_type_sound_witness :
  decimal_of (EvaluateWithSymbols (Root (ParseResult_AST parsed)) v1 (Some (table_resolver hp_table))) = Some 14%Z /\
  exists v issues, EvaluateWithSymbols (Root (ParseResult_AST parsed)) v1 (Some (table_resolver hp_table)) = Ok (v, issues) /\
    (issues = [] -> agrees (Result_Type v) v).
Proof.
  split; [vm_compute; reflexivity|].
  destruct (evaluation_is_type_sound UnitsV1 FunctionsV1 v1 source parsed hp_table v1_ok hp_table_consistent parsed_ok)
    as (v & issues & Hv & Hs).
  exists v, issues. split; [exact Hv | intros Hnil; exact (proj2 (Hs Hnil))].
Defined.

Lemma parsed_infers_without_syntax_issue_witness :
  Errors parsed = [] /\
  exists v, Infer v1 (RuntimeTable_Resolve hp_table) (Root (ParseResult_AST parsed)) = Ok v /\
    Forall (fun d => Code d <> "FORMULA_SYNTAX_INVALID") v.2.
Proof.
  split; [vm_compute; reflexivity|]. eexists. split; [vm_compute; reflexivity|].
  apply (parsed_infers_without_syntax_issue v1 (RuntimeTable_Resolve hp_table) source parsed);
    [exact parsed_ok | vm_compute; reflexivity | vm_compute; reflexivity].
Defined.

Lemma boolean_operands_pass_inference_witness :
  exists v, EvaluateWithSymbols
    (mkNode NodeBinary (mkSpan 0 11) "" "" "" "" "+"
       [leaf NodeBoolean (mkSpan 0 4) "true"; leaf NodeBoolean (mkSpan 7 11) "true"]) v1 (Some (table_resolver hp_table)) =
    Ok (v, [mkDiagnostic "FORMULA_TYPE_MISMATCH" (mkSpan 0 11) "numeric operands required"]).
Proof.
  apply (boolean_operands_pass_inference v1 (table_resolver hp_table) (mkSpan 0 11) "+" "true" "true" (mkSpan 0 4) (mkSpan 7 11)).
  right. compute_decide.
Defined.

Lemma Parse_never_inequality_witness :
  exists r, Parse "1 == 2 && 3 < 4" (Some v1) = Some r /\
    Node_Kind (Root (ParseResult_AST r)) = NodeBinary /\ Operator (Root (ParseResult_AST r)) <> "!=".
Proof.
  eexists. split; [vm_compute; reflexivity|]. split; [vm_compute; reflexivity|].
  eapply (Parse_never_inequality "1 == 2 && 3 < 4" (Some v1));
    [vm_compute; reflexivity | apply subnode_here | vm_compute; reflexivity].
Defined.
End FormulaExamples.
