(* ===== verification/SimRandom.v ===== *)
(** * internal/simulation/random/prng.go: the splitmix64 stream

    [uint64] values are integers in [0, 2^64), with the wrap-around of every
    operation written out. *)
From S2P Require Import Prelude.
Open Scope Z_scope.

Definition Version : string := "simulation-prng-v1".
Definition two64 : Z := 2 ^ 64.
Definition seedDomain : Z := 0x73696d756c617469.
Definition sampleDomain : Z := 0x6f6e2d73616d706c.
Definition gamma : Z := 0x9e3779b97f4a7c15.

Definition add64 (x y : Z) : Z := (x + y) mod two64.
Definition mul64 (x y : Z) : Z := (x * y) mod two64.
Definition neg64 (x : Z) : Z := (- x) mod two64.

Definition mix (value : Z) : Z :=
  let value := mul64 (Z.lxor value (Z.shiftr value 30)) 0xbf58476d1ce4e5b9 in
  let value := mul64 (Z.lxor value (Z.shiftr value 27)) 0x94d049bb133111eb in
  Z.lxor value (Z.shiftr value 31).

Record Stream := mkStream { state : Z }.

Definition New (seed sampleOrdinal : Z) : Stream :=
  let state := mix (Z.lxor seed seedDomain) in
  let state := mix (Z.lxor (Z.lxor state sampleOrdinal) sampleDomain) in
  mkStream state.

Definition Uint64 (s : Stream) : Z * Stream :=
  let state := add64 (state s) gamma in (mix state, mkStream state).

(** The rejection loop of [Uint64n]; [None] when the fuel runs out. *)
Fixpoint Uint64n_loop (fuel : nat) (s : Stream) (bound threshold : Z) : option (Z * Stream) :=
  match fuel with
  | O => None
  | S f =>
      let '(value, s) := Uint64 s in
      if threshold <=? value then Some (value mod bound, s) else Uint64n_loop f s bound threshold
  end.

Definition Uint64n (fuel : nat) (s : Stream) (bound : Z) : option (result (Z * Stream) string) :=
  if bound =? 0 then Some (Err "random bound must be positive"%string)
  else
    let threshold := neg64 bound mod bound in
    Ok <$> Uint64n_loop fuel s bound threshold.

Record Ratio := mkRatio { Numerator : Z; Denominator : Z }.
Definition Ratio_Valid (r : Ratio) : bool := (Denominator r =? 2 ^ 53) && (Numerator r <? Denominator r).
Definition Uniform (s : Stream) : Ratio * Stream :=
  let '(value, s) := Uint64 s in (mkRatio (Z.shiftr value 11) (2 ^ 53), s).

(** The test vectors of the repository. *)
Example uint64_vector : (Uint64 (New 1 7)).1 = 0x9b031df87481ace9.
Proof. vm_compute. reflexivity. Qed.

(** ** Words *)
Definition word (x : Z) : Prop := 0 <= x < two64.
Lemma two64_pos : 0 < two64.
Proof. done. Qed.
Lemma max_word : word (two64 - 1).
Proof. pose proof two64_pos. unfold word. lia. Qed.
Lemma mod_word x : word (x mod two64).
Proof. apply Z.mod_pos_bound, two64_pos. Qed.
Lemma word_mod x : word x -> x mod two64 = x.
Proof. apply Z.mod_small. Qed.

Lemma word_bits x : 0 <= x -> (forall n, 64 <= n -> Z.testbit x n = false) -> word x.
Proof.
  intros Hx Hb. split; [done|].
  rewrite <- (Z.mod_small x (2 ^ 64 * (x + 1))) by (unfold two64; split; nia).
  destruct (Z.eq_dec x 0) as [->|Hne]; [done|].
  rewrite Z.mod_small by (split; nia).
  apply Z.log2_lt_pow2; [lia|]. destruct (Z.lt_ge_cases (Z.log2 x) 64) as [|Hge]; [done|].
  specialize (Hb _ Hge). rewrite Z.bit_log2 in Hb by lia. done.
Qed.
Lemma word_high x n : word x -> 64 <= n -> Z.testbit x n = false.
Proof.
  intros [H0 H1] Hn. destruct (Z.eq_dec x 0) as [->|]; [apply Z.bits_0|].
  apply Z.bits_above_log2; [done|]. apply Z.log2_lt_pow2; [lia|].
  eapply Z.lt_le_trans; [exact H1|]. apply Z.pow_le_mono_r; lia.
Qed.
Lemma word_lxor x y : word x -> word y -> word (Z.lxor x y).
Proof.
  intros Hx Hy. apply word_bits; [apply Z.lxor_nonneg; destruct Hx, Hy; lia|].
  intros n Hn. by rewrite Z.lxor_spec, !word_high.
Qed.
Lemma word_shiftr x k : 0 <= k -> word x -> word (Z.shiftr x k).
Proof.
  intros Hk Hx. apply word_bits; [apply Z.shiftr_nonneg; by destruct Hx|].
  intros n Hn. rewrite Z.shiftr_spec by lia. apply word_high; [done|lia].
Qed.
#[export] Hint Resolve word_lxor mod_word : eco.

Lemma mix_word x : word (mix x).
Proof.
  unfold mix. cbv zeta. apply word_lxor; [apply mod_word|]. apply word_shiftr; [lia|apply mod_word].
Qed.

(** ** [mix] is onto: every word is the mix of a word *)
Definition unxorshift (k y : Z) : Z := Z.lxor (Z.lxor y (Z.shiftr y k)) (Z.shiftr y (k + k)).

Lemma xorshift_unxorshift k y :
  22 <= k -> word y -> Z.lxor (unxorshift k y) (Z.shiftr (unxorshift k y) k) = y.
Proof.
  intros Hk Hy. unfold unxorshift. rewrite !Z.shiftr_lxor, !Z.shiftr_shiftr by lia.
  assert (Z.shiftr y (k + k + k) = 0) as ->.
  { apply Z.bits_inj'. intros n Hn. rewrite Z.shiftr_spec, Z.bits_0 by lia. apply word_high; [done|lia]. }
  rewrite Z.lxor_0_r. apply Z.bits_inj'. intros n Hn. rewrite !Z.lxor_spec.
  by destruct (Z.testbit y n), (Z.testbit (Z.shiftr y k) n), (Z.testbit (Z.shiftr y (k + k)) n).
Qed.
Lemma unxorshift_word k y : 0 <= k -> word y -> word (unxorshift k y).
Proof. intros Hk Hy. unfold unxorshift. repeat apply word_lxor; try apply word_shiftr; auto; lia. Qed.

Lemma mul64_inverse x c d : word x -> (d * c) mod two64 = 1 -> mul64 (mul64 x d) c = x.
Proof.
  intros Hx Hdc. unfold mul64. rewrite Z.mul_mod_idemp_l by (pose proof two64_pos; lia).
  rewrite <- Z.mul_assoc, <- Z.mul_mod_idemp_r, Hdc by (pose proof two64_pos; lia).
  rewrite Z.mul_1_r. by apply word_mod.
Qed.

(** The inverses of the two multipliers and of gamma modulo 2^64. *)
Fixpoint newton (n : nat) (c x : Z) : Z :=
  match n with O => x | S n' => newton n' c ((x * (2 - c * x)) mod two64) end.
Definition inverse (c : Z) : Z := newton 6 c 1.

Definition unmix (w : Z) : Z :=
  let v := mul64 (unxorshift 31 w) (inverse 0x94d049bb133111eb) in
  let v := mul64 (unxorshift 27 v) (inverse 0xbf58476d1ce4e5b9) in
  unxorshift 30 v.

Lemma mix_unmix w : word w -> mix (unmix w) = w.
Proof.
  intros Hw. unfold mix, unmix. cbv zeta.
  assert (word (unxorshift 31 w)) as H31 by by apply unxorshift_word.
  set (v2 := mul64 (unxorshift 31 w) _). assert (word v2) as Hv2 by apply mod_word.
  assert (word (unxorshift 27 v2)) as H27 by by apply unxorshift_word.
  set (v1 := mul64 (unxorshift 27 v2) _). assert (word v1) as Hv1 by apply mod_word.
  rewrite (xorshift_unxorshift 30 v1) by (done || lia).
  assert (mul64 v1 0xbf58476d1ce4e5b9 = unxorshift 27 v2) as -> by by apply mul64_inverse.
  rewrite (xorshift_unxorshift 27 v2) by (done || lia).
  assert (mul64 v2 0x94d049bb133111eb = unxorshift 31 w) as -> by by apply mul64_inverse.
  apply xorshift_unxorshift; [lia|done].
Qed.

Lemma unxorshift_xorshift k x :
  22 <= k -> word x -> unxorshift k (Z.lxor x (Z.shiftr x k)) = x.
Proof.
  intros Hk Hx. unfold unxorshift. rewrite !Z.shiftr_lxor, !Z.shiftr_shiftr by lia.
  assert (Z.shiftr x (k + (k + k)) = 0) as ->.
  { apply Z.bits_inj'. intros n Hn. rewrite Z.shiftr_spec, Z.bits_0 by lia. apply word_high; [done|lia]. }
  apply Z.bits_inj'. intros n Hn. rewrite !Z.lxor_spec, Z.bits_0.
  by destruct (Z.testbit x n), (Z.testbit (Z.shiftr x k) n), (Z.testbit (Z.shiftr x (k + k)) n).
Qed.
Lemma unmix_word w : word w -> word (unmix w).
Proof. intros Hw. unfold unmix. cbv zeta. apply unxorshift_word; [lia|apply mod_word]. Qed.
Lemma unmix_mix x : word x -> unmix (mix x) = x.
Proof.
  intros Hx. unfold mix, unmix. cbv zeta.
  assert (word (Z.lxor x (Z.shiftr x 30))) as H30 by (apply word_lxor; [done|by apply word_shiftr]).
  set (v1 := mul64 (Z.lxor x _) _). assert (word v1) as Hv1 by apply mod_word.
  assert (word (Z.lxor v1 (Z.shiftr v1 27))) as H27 by (apply word_lxor; [done|by apply word_shiftr]).
  set (v2 := mul64 (Z.lxor v1 _) _). assert (word v2) as Hv2 by apply mod_word.
  rewrite (unxorshift_xorshift 31 v2) by (done || lia).
  assert (mul64 v2 (inverse 0x94d049bb133111eb) = Z.lxor v1 (Z.shiftr v1 27)) as -> by by apply mul64_inverse.
  rewrite (unxorshift_xorshift 27 v1) by (done || lia).
  assert (mul64 v1 (inverse 0xbf58476d1ce4e5b9) = Z.lxor x (Z.shiftr x 30)) as -> by by apply mul64_inverse.
  apply unxorshift_xorshift; [lia|done].
Qed.

(** ** The rejection loop ends, without bias and within the bound *)

(** The state after [k] draws. *)
Definition state_after (s : Stream) (k : Z) : Z := (state s + k * gamma) mod two64.

Lemma state_after_step s k : state_after (Uint64 s).2 k = state_after s (k + 1).
Proof.
  unfold state_after, Uint64, add64. simpl. rewrite Z.add_mod_idemp_l by (pose proof two64_pos; lia).
  f_equal. lia.
Qed.

(** Gamma is odd, so the stream visits every state. *)
Lemma state_reachable s v : word v -> exists k, 1 <= k /\ state_after s k = v.
Proof.
  intros Hv. set (k := ((v - state s) * inverse gamma) mod two64).
  exists (k + two64). split; [pose proof (mod_word ((v - state s) * inverse gamma)) as [? _]; unfold k, two64 in *; lia|].
  unfold state_after. rewrite Z.mul_add_distr_r.
  replace (state s + (k * gamma + two64 * gamma)) with (state s + k * gamma + gamma * two64) by lia.
  rewrite Z_mod_plus_full. unfold k.
  rewrite <- Z.add_mod_idemp_r, Z.mul_mod_idemp_l, <- Z.mul_assoc, <- Z.mul_mod_idemp_r by (pose proof two64_pos; lia).
  assert ((inverse gamma * gamma) mod two64 = 1) as -> by (vm_compute; reflexivity).
  rewrite Z.mul_1_r, Z.add_mod_idemp_r by (pose proof two64_pos; lia).
  replace (state s + (v - state s)) with v by lia. by apply word_mod.
Qed.

Lemma Uint64n_loop_ends s bound threshold k :
  1 <= k -> threshold <= mix (state_after s k) ->
  exists r, Uint64n_loop (Z.to_nat k) s bound threshold = Some r.
Proof.
  intros Hk. rewrite <- (Z2Nat.id k) at 1 by lia.
  assert (1 <= Z.to_nat k)%nat as Hn by lia. revert s Hn. generalize (Z.to_nat k). clear k Hk.
  induction n as [|n IH]; intros s Hn Hle; [lia|]. simpl.
  case_guard as Hg; [eauto|]. destruct n as [|n].
  { exfalso. bool_to_prop. unfold state_after in Hle. change (Z.of_nat 1) with 1 in Hle.
    rewrite Z.mul_1_l in Hle. unfold add64 in *. lia. }
  apply (IH (Uint64 s).2); [lia|]. rewrite state_after_step.
  by replace (Z.of_nat (S n) + 1) with (Z.of_nat (S (S n))) by lia.
Qed.

Lemma Uint64n_loop_bound fuel s bound threshold r :
  0 < bound -> Uint64n_loop fuel s bound threshold = Some r -> 0 <= r.1 < bound.
Proof.
  intros Hb. revert s. induction fuel as [|f IH]; intros s; simpl; [done|].
  case_guard; [intros [= <-]; by apply Z.mod_pos_bound|apply IH].
Qed.

(** The stream whose next word is [w]. *)
Definition before (w : Z) : Stream := mkStream ((unmix w - gamma) mod two64).
Lemma before_word w : word w -> (Uint64 (before w)).1 = w.
Proof.
  intros Hw. unfold Uint64, before, add64. simpl. rewrite Z.add_mod_idemp_l by (pose proof two64_pos; lia).
  replace (unmix w - gamma + gamma) with (unmix w) by lia. rewrite word_mod by by apply unmix_word. by apply mix_unmix.
Qed.
Lemma before_only s : word (state s) -> before (Uint64 s).1 = s.
Proof.
  intros Hs. unfold Uint64, before. simpl. rewrite unmix_mix by apply mod_word. unfold add64. rewrite Zminus_mod_idemp_l.
  replace (state s + gamma - gamma) with (state s) by lia. rewrite word_mod by done. by destruct s.
Qed.

(** The first draw from [s] is accepted and yields [v]. *)
Definition accepts (s : Stream) (bound v : Z) : Prop := exists s', Uint64n 1 s bound = Some (Ok (v, s')).
Lemma accepts_word s bound v : 0 < bound ->
  accepts s bound v <-> neg64 bound mod bound <= (Uint64 s).1 /\ (Uint64 s).1 mod bound = v.
Proof.
  intros Hb. unfold accepts, Uint64n. rewrite (proj2 (Z.eqb_neq _ _)) by lia. cbn [Uint64n_loop].
  destruct (Uint64 s) as [w s'] eqn:Hw. cbn [fst]. case_guard as Hg; bool_to_prop.
  - split; [intros (s2 & [= -> ->]); done|intros [_ <-]; by exists s'].
  - split; [by intros (s2 & ?)|lia].
Qed.

Lemma threshold_mod bound : 0 < bound < two64 -> neg64 bound mod bound = two64 mod bound.
Proof.
  intros Hb. unfold neg64. rewrite <- (Z_mod_plus_full (- bound) 1), word_mod by (unfold word; lia).
  replace (- bound + 1 * two64) with (two64 + (-1) * bound) by lia. apply Z_mod_plus_full.
Qed.

(** The accepted words of one residue, in order. *)
Definition accepted_word (bound v k : Z) : Z := two64 mod bound + (v - two64 mod bound) mod bound + k * bound.
Lemma accepted_word_spec bound v k : 0 < bound < two64 -> 0 <= v < bound -> 0 <= k < two64 / bound ->
  two64 mod bound <= accepted_word bound v k < two64 /\ accepted_word bound v k mod bound = v.
Proof.
  intros Hb Hv Hk. unfold accepted_word. pose proof (Z.mod_pos_bound (v - two64 mod bound) bound).
  pose proof (Z.mod_pos_bound two64 bound). pose proof (Z.div_mod two64 bound). split; [nia|].
  rewrite Z_mod_plus_full, Z.add_mod_idemp_r by lia.
  replace (two64 mod bound + (v - two64 mod bound)) with v by lia. by apply Z.mod_small.
Qed.
Lemma accepted_word_onto bound v w : 0 < bound < two64 -> two64 mod bound <= w < two64 -> w mod bound = v ->
  exists k, 0 <= k < two64 / bound /\ accepted_word bound v k = w.
Proof.
  intros Hb Hw <-. set (t := two64 mod bound) in *. pose proof (Z.div_mod two64 bound). pose proof (Z.div_mod (w - t) bound).
  pose proof (Z.mod_pos_bound (w - t) bound). assert ((w mod bound - t) mod bound = (w - t) mod bound) as Hm by apply Zminus_mod_idemp_l.
  exists ((w - t) / bound). unfold accepted_word. fold t. rewrite Hm. split; [|lia]. split; [apply Z.div_pos; lia|].
  apply Z.div_lt_upper_bound; [lia|]. fold t in H. lia.
Qed.

(** A result is the first accepted draw of the stream. *)
Lemma Uint64n_first fuel s bound v s' : Uint64n fuel s bound = Some (Ok (v, s')) ->
  exists k, (k < fuel)%nat /\ Uint64n 1 (Nat.iter k (fun s => (Uint64 s).2) s) bound = Some (Ok (v, s')) /\
    forall j, (j < k)%nat -> Uint64n 1 (Nat.iter j (fun s => (Uint64 s).2) s) bound = None.
Proof.
  unfold Uint64n. destruct (bound =? 0); [done|]. cbv zeta. generalize (neg64 bound mod bound) as t. intros t. revert s.
  induction fuel as [|f IH]; intros s; [done|]. cbn [Uint64n_loop]. destruct (Uint64 s) as [w s1] eqn:Hw. case_guard as Hg.
  - intros [= <- <-]. exists O. simpl Nat.iter. cbn [Uint64n_loop]. rewrite Hw, Hg. split_and!; [lia|done|lia].
  - intros Hr. destruct (IH s1 Hr) as (k & Hk & Hacc & Hrej). exists (S k). split; [lia|].
    assert (forall n, Nat.iter (S n) (fun s => (Uint64 s).2) s = Nat.iter n (fun s => (Uint64 s).2) s1) as Hshift.
    { intros n. rewrite Nat.iter_succ_r, Hw. done. }
    rewrite Hshift. split; [exact Hacc|]. intros [|j] Hj; [|rewrite Hshift; apply Hrej; lia].
    simpl Nat.iter. cbn [Uint64n_loop]. by rewrite Hw, Hg.
Qed.

(** C37: Draws below a positive bound always come back, with the first draw of the
    stream that is accepted; and a draw has no modulo bias: of the 2^64 states of
    the stream exactly 2^64/bound have their next draw accepted as [v], the same
    number for every [v] below the bound ([before] lists them), and no state
    accepts a value that is not below it. *)
Theorem Uint64n_total_and_unbiased s bound :
  0 < bound < two64 ->
  (exists fuel r, Uint64n fuel s bound = Some (Ok r)) /\
  (forall fuel v s', Uint64n fuel s bound = Some (Ok (v, s')) -> 0 <= v < bound /\
     exists k, (k < fuel)%nat /\ Uint64n 1 (Nat.iter k (fun s => (Uint64 s).2) s) bound = Some (Ok (v, s')) /\
       forall j, (j < k)%nat -> Uint64n 1 (Nat.iter j (fun s => (Uint64 s).2) s) bound = None) /\
  (forall v, 0 <= v < bound -> exists nth : Z -> Stream,
     (forall k, 0 <= k < two64 / bound -> word (state (nth k)) /\ accepts (nth k) bound v) /\
     (forall k k', 0 <= k < two64 / bound -> 0 <= k' < two64 / bound -> nth k = nth k' -> k = k') /\
     (forall x, word (state x) -> accepts x bound v -> exists k, 0 <= k < two64 / bound /\ nth k = x)).
Proof.
  intros Hb. split; [|split].
  - unfold Uint64n. rewrite (proj2 (Z.eqb_neq _ _)) by lia.
    destruct (state_reachable s (unmix (two64 - 1))) as (k & Hk & Hs).
    { apply unmix_word, max_word. }
    destruct (Uint64n_loop_ends s bound (neg64 bound mod bound) k Hk) as [r Hr].
    { rewrite Hs, mix_unmix by apply max_word. rewrite threshold_mod by done. pose proof (Z.mod_pos_bound two64 bound). lia. }
    exists (Z.to_nat k), r. rewrite Hr. reflexivity.
  - intros fuel v s' Hr. split; [|by apply Uint64n_first]. unfold Uint64n in Hr. destruct (bound =? 0); [done|].
    destruct (Uint64n_loop _ _ _ _) as [r'|] eqn:El; [|done]. injection Hr as ->.
    eapply (Uint64n_loop_bound _ _ _ _ (v, s')); [|exact El]. lia.
  - intros v Hv. exists (fun k => before (accepted_word bound v k)).
    assert (forall k, 0 <= k < two64 / bound -> word (accepted_word bound v k)) as Hword.
    { intros k Hk. destruct (accepted_word_spec bound v k Hb Hv Hk) as [[Hl Hu] _]. pose proof (Z.mod_pos_bound two64 bound). unfold word. lia. }
    split_and!.
    + intros k Hk. split; [apply mod_word|]. apply accepts_word; [lia|]. rewrite before_word, threshold_mod by auto.
      destruct (accepted_word_spec bound v k Hb Hv Hk) as [[? _] ?]. done.
    + intros k k' Hk Hk' Heq. apply (f_equal (fun s => (Uint64 s).1)) in Heq. rewrite !before_word in Heq by auto.
      unfold accepted_word in Heq. nia.
    + intros x Hx [Ht Hm]%accepts_word; [|lia]. rewrite threshold_mod in Ht by done.
      destruct (accepted_word_onto bound v (Uint64 x).1 Hb) as (k & Hk & Hw); [|done|].
      { split; [done|]. unfold Uint64. simpl. by destruct (mix_word (add64 (state x) gamma)). }
      exists k. rewrite Hw. split; [done|by apply before_only].
Qed.

(** [Uniform] yields a valid ratio: a 53-bit numerator over 2^53. *)
Theorem Uniform_valid s : Ratio_Valid (Uniform s).1 = true /\ 0 <= Numerator (Uniform s).1.
Proof.
  unfold Ratio_Valid, Uniform. simpl.
  pose proof (mix_word (add64 (state s) gamma)) as [H0 H1].
  rewrite Z.shiftr_div_pow2 by lia. split; [|apply Z.div_pos; lia].
  apply Z.ltb_lt, Z.div_lt_upper_bound; [lia|]. unfold two64 in H1. lia.
Qed.

Lemma Uint64n_total_and_unbiased_witness :
  0 < 10 < two64 /\ exists fuel r, Uint64n fuel (New 1 0) 10 = Some (Ok r).
Proof.
  split; [split; vm_compute; reflexivity|].
  exact (proj1 (Uint64n_total_and_unbiased (New 1 0) 10 (conj eq_refl eq_refl))).
Defined.
