(* ===== verification/SimScenario.v ===== *)
(** * internal/simulation/scenario/schema.go: bounded declarative scenarios *)
From Stdlib Require Import Ascii.
From S2P Require Import Prelude GoStrings GoJson.
Open Scope Z_scope.

Definition MaxParticipants : Z := 64.
Definition MaxActions : Z := 4096.
Definition MaxParameters : Z := 128.

Record Attribute := mkAttribute { Attribute_ID : string; Attribute_Value : string; Attribute_Unit : string }.
Record Participant := mkParticipant {
  Participant_ID : string; Participant_Kind : string; Attributes : list Attribute
}.
Record Action := mkAction {
  Action_ID : string; Action_EventID : string; Action_EvaluatorID : string; AtMS : Z;
  Action_SourceID : string; Action_TargetID : string; Inputs : list Attribute
}.

Inductive ParameterType :=
  | ParameterString | ParameterInteger | ParameterDecimal | ParameterDurationMS | ParameterBoolean
  | ParameterTypeUnknown (spelling : string).

Record Parameter_ := mkParameter {
  Path : string; Parameter_Type : ParameterType; DefaultValue : string;
  Minimum : string; Maximum : string; Parameter_Unit : string
}.
Record Budgets := mkBudgets { MaxEvents : Z; MaxSteps : Z; MaxSamples : Z; MaxRuntimeMS : Z }.
Record Definition_ := mkDefinition {
  Definition_ID : string; Definition_Version : string;
  Participants : list Participant; Actions : list Action;
  DurationMS : Z; DefaultSeed : Z; Parameters : list Parameter_; Definition_Budgets : Budgets
}.

(** ["\x00\r\n"] *)
Definition control_chars : string := String (char_of 0) (String (char_of 13) (String (char_of 10) "")).

Definition stableID (value : string) : bool :=
  negb (bool_decide (TrimSpace value = ""%string)) && ValidString value && (string_len value <=? 128) &&
  negb (ContainsAny value control_chars).

Definition Budgets_valid (b : Budgets) : bool :=
  (0 <? MaxEvents b) && (0 <? MaxSteps b) && (0 <? MaxSamples b) && (0 <? MaxRuntimeMS b).

Section validate.
Context `{UnicodeTables}.

Definition validAttribute (a : Attribute) : bool :=
  stableID (Attribute_ID a) && negb (bool_decide (TrimSpace (Attribute_Value a) = ""%string)) &&
  (bool_decide (Attribute_Unit a = ""%string) || stableID (Attribute_Unit a)).

(** The loops of [Validate] carry the set of names seen so far. *)
Definition validateAttribute (seen : gset string) (a : Attribute) : result (gset string) string :=
  if negb (validAttribute a) then Err ("invalid scenario attribute " +:+ Quote (Attribute_ID a))%string
  else if bool_decide (Attribute_ID a ∈ seen) then Err ("duplicate scenario attribute " +:+ Quote (Attribute_ID a))%string
  else Ok ({[Attribute_ID a]} ∪ seen).
Definition validateAttributes (attributes : list Attribute) : result (gset string) string :=
  foldr_result validateAttribute ∅ attributes.

Definition validateParticipant (participants : gset string) (p : Participant) : result (gset string) string :=
  if negb (stableID (Participant_ID p)) || negb (stableID (Participant_Kind p))
  then Err ("invalid scenario participant " +:+ Quote (Participant_ID p))%string
  else if bool_decide (Participant_ID p ∈ participants)
  then Err ("duplicate scenario participant " +:+ Quote (Participant_ID p))%string
  else let? _ := validateAttributes (Attributes p) in Ok ({[Participant_ID p]} ∪ participants).

Definition validateAction (durationMS : Z) (participants : gset string) (actions : gset string) (a : Action) :
    result (gset string) string :=
  if negb (stableID (Action_ID a)) || negb (stableID (Action_EventID a)) || negb (stableID (Action_EvaluatorID a)) ||
     (AtMS a <? 0) || (durationMS <? AtMS a)
  then Err ("invalid scenario action " +:+ Quote (Action_ID a))%string
  else if bool_decide (Action_ID a ∈ actions) then Err ("duplicate scenario action " +:+ Quote (Action_ID a))%string
  else if negb (bool_decide (Action_SourceID a ∈ participants))
  then Err ("unknown action source " +:+ Quote (Action_SourceID a))%string
  else if negb (bool_decide (Action_TargetID a ∈ participants))
  then Err ("unknown action target " +:+ Quote (Action_TargetID a))%string
  else let? _ := validateAttributes (Inputs a) in Ok ({[Action_ID a]} ∪ actions).

Definition validParameter (p : Parameter_) : bool :=
  if negb (has_prefix "/" (Path p)) || negb (ValidString (Path p)) || negb (json_Valid (DefaultValue p)) then false
  else match Parameter_Type p with
  | ParameterString | ParameterInteger | ParameterDecimal | ParameterDurationMS | ParameterBoolean => true
  | ParameterTypeUnknown _ => false
  end.

Definition validateParameter (paths : gset string) (p : Parameter_) : result (gset string) string :=
  if negb (validParameter p) then Err ("invalid scenario parameter " +:+ Quote (Path p))%string
  else if bool_decide (Path p ∈ paths) then Err ("duplicate scenario parameter " +:+ Quote (Path p))%string
  else Ok ({[Path p]} ∪ paths).

Definition list_len {A : Type} (l : list A) : Z := Z.of_nat (length l).

Definition Validate (d : Definition_) : result unit string :=
  if negb (stableID (Definition_ID d)) || negb (stableID (Definition_Version d)) || (DurationMS d <=? 0) ||
     (list_len (Participants d) =? 0) || (MaxParticipants <? list_len (Participants d)) ||
     (MaxActions <? list_len (Actions d)) || (MaxParameters <? list_len (Parameters d)) ||
     negb (Budgets_valid (Definition_Budgets d))
  then Err "invalid bounded scenario definition"%string
  else
    let? participants := foldr_result validateParticipant ∅ (Participants d) in
    let? _ := foldr_result (validateAction (DurationMS d) participants) ∅ (Actions d) in
    let? _ := foldr_result validateParameter ∅ (Parameters d) in
    Ok tt.

(** What a valid definition promises of its actions. *)
Definition action_ok (d : Definition_) (a : Action) : Prop :=
  stableID (Action_EventID a) = true /\ stableID (Action_EvaluatorID a) = true /\
  stableID (Action_SourceID a) = true /\ stableID (Action_TargetID a) = true /\ 0 <= AtMS a <= DurationMS d.

Lemma validateParticipants_stable l s s' :
  foldr_result validateParticipant s l = Ok s' ->
  (forall x, x ∈ s -> stableID x = true) -> forall x, x ∈ s' -> stableID x = true.
Proof.
  revert s. induction l as [|p l IH]; intros s; simpl; [by intros [= <-]|].
  intros (s1 & Hp & Hl)%result_bind_Ok Hs. apply (IH s1 Hl).
  unfold validateParticipant in Hp. revert Hp. case_guard as Hg; [done|]. case_guard; [done|].
  intros (_ & _ & [= <-])%result_bind_Ok. bool_to_prop. intros x [->%elem_of_singleton|Hx]%elem_of_union; auto.
Qed.

Lemma validateActions_ok dur parts l s s' :
  foldr_result (validateAction dur parts) s l = Ok s' ->
  Forall (fun a => stableID (Action_EventID a) = true /\ stableID (Action_EvaluatorID a) = true /\
    Action_SourceID a ∈ parts /\ Action_TargetID a ∈ parts /\ 0 <= AtMS a <= dur) l.
Proof.
  revert s. induction l as [|a l IH]; intros s; simpl; [constructor|].
  intros (s1 & Ha & Hl)%result_bind_Ok. constructor; [|by eapply IH].
  unfold validateAction in Ha. revert Ha. do 4 (case_guard; [done|]). intros _. bool_to_prop. auto with lia.
Qed.

Lemma Validate_bounded d : Validate d = Ok tt -> (length (Actions d) <= 4096)%nat.
Proof.
  unfold Validate. case_guard as Hg; [done|]. intros _. bool_to_prop. unfold list_len, MaxActions in *. lia.
Qed.

Lemma Validate_actions d : Validate d = Ok tt -> Forall (action_ok d) (Actions d).
Proof.
  unfold Validate. case_guard; [done|]. intros (parts & Hp & (? & Ha & _)%result_bind_Ok)%result_bind_Ok.
  apply validateActions_ok in Ha. eapply Forall_impl; [exact Ha|]. intros a (? & ? & Hs & Ht & ?).
  pose proof (validateParticipants_stable _ _ _ Hp) as Hst. unfold action_ok.
  repeat split; try done; try lia; apply Hst; set_solver.
Qed.
End validate.
