(* ===== verification/SimEngine.v ===== *)
(** * internal/simulation/engine: event.go, diagnostic.go, run.go

    The discrete-event engine: a priority queue of events over
    [container/heap], an emitter that schedules derived events, and the loop
    that runs an evaluator over the events within its budgets. *)
From S2P Require Import Prelude GoSort GoHeap GoStrings SimScenario.
Open Scope Z_scope.

(** ** event.go *)
Record Event := mkEvent {
  TimeMS : Z; RulePriority : Z; SourceID : string; InsertionOrdinal : Z;
  Event_Kind : string; Event_Version : string; EvaluatorID : string; TargetID : string; Payload : string
}.

(** The engine's stable identities have no length bound. *)
Definition stableID (value : string) : bool :=
  negb (bool_decide (TrimSpace value = ""%string)) && ValidString value && negb (ContainsAny value control_chars).

Definition Event_Valid (e : Event) : bool :=
  (0 <=? TimeMS e) && stableID (SourceID e) && stableID (Event_Kind e) && stableID (Event_Version e) &&
  stableID (EvaluatorID e) && stableID (TargetID e).

Definition compare (l r : Event) : Z :=
  if negb (TimeMS l =? TimeMS r) then if TimeMS l <? TimeMS r then -1 else 1
  else if negb (RulePriority l =? RulePriority r) then if RulePriority l <? RulePriority r then -1 else 1
  else if negb (bool_decide (SourceID l = SourceID r)) then if String.ltb (SourceID l) (SourceID r) then -1 else 1
  else if InsertionOrdinal l <? InsertionOrdinal r then -1
  else if InsertionOrdinal r <? InsertionOrdinal l then 1
  else 0.

(** [eventHeap.Less] *)
Definition Less (l r : Event) : bool := compare l r <? 0.

Definition eventKey : Type := Z * Z * string * Z.
Definition key_of (e : Event) : eventKey := (TimeMS e, RulePriority e, SourceID e, InsertionOrdinal e).

Inductive EngineError :=
  | ErrEventInvalid | ErrDuplicateEvent | ErrOrdinalOverflow
  | ErrPastEvent | ErrEventBudget | ErrStepBudget | ErrExecutionLimit
  | DiagnosticError (code : string)                         (* a [Diagnostic] *)
  | ForeignError (message : string)                         (* an error of another package *)
  | WrappedError (message : string) (err : EngineError).    (* [fmt.Errorf] with the w verb *)
Global Instance EngineError_eq_dec : EqDecision EngineError.
Proof. solve_decision. Defined.

Record Queue := mkQueue { events : list Event; keys : gset eventKey }.
Definition NewQueue : Queue := mkQueue [] ∅.
Definition Len (q : Queue) : Z := Z.of_nat (length (events q)).

Definition Enqueue (q : Queue) (event : Event) : result Queue EngineError :=
  if negb (Event_Valid event) then Err ErrEventInvalid
  else if bool_decide (key_of event ∈ keys q) then Err ErrDuplicateEvent
  else Ok (mkQueue (heap_push Less (events q) event) ({[key_of event]} ∪ keys q)).

Definition Pop (q : Queue) : option (Event * Queue) :=
  match heap_pop Less (events q) with
  | None => None
  | Some (event, rest) => Some (event, mkQueue rest (keys q ∖ {[key_of event]}))
  end.

Record OrdinalAllocator := mkAllocator { next : Z }.
Definition Next (a : OrdinalAllocator) : result (Z * OrdinalAllocator) EngineError :=
  if next a =? MaxUint64 then Err ErrOrdinalOverflow else Ok (next a, mkAllocator (next a + 1)).

Section initial.
Context `{UnicodeTables}.

Definition action_event (action : Action) (ordinal : Z) : Event :=
  mkEvent (AtMS action) 0 (Action_SourceID action) ordinal (Action_EventID action) "v1"
    (Action_EvaluatorID action) (Action_TargetID action) "".

Fixpoint initial_events (a : OrdinalAllocator) (actions : list Action) : result (list Event) EngineError :=
  match actions with
  | [] => Ok []
  | action :: actions' =>
      let? (ordinal, a) := Next a in
      let? events := initial_events a actions' in
      Ok (action_event action ordinal :: events)
  end.

Definition InitialEvents (d : Definition_) : result (list Event) EngineError :=
  match Validate d with
  | Err message => Err (ForeignError message)
  | Ok _ => initial_events (mkAllocator 0) (Actions d)
  end.
End initial.

(** ** diagnostic.go *)
Definition EvaluatorDiagnostic (code : string) : EngineError :=
  let code := TrimSpace code in
  DiagnosticError
    (if bool_decide (code = "NUMERIC_NON_FINITE") then "SIMULATION_NUMERIC_NON_FINITE"
     else if bool_decide (code = "FORMULA_DIVISION_BY_ZERO") then "SIMULATION_DIVISION_BY_ZERO"
     else if bool_decide (code = "NUMERIC_OUT_OF_RANGE") then "SIMULATION_NUMERIC_OUT_OF_RANGE"
     else if bool_decide (code ∈ ["FORMULA_UNIT_MISMATCH"; "FORMULA_UNKNOWN_VARIABLE"; "FORMULA_TYPE_MISMATCH";
       "FORMULA_UNKNOWN_FUNCTION"]) then "SIMULATION_UNIT_OR_SCOPE_INVALID"
     else if bool_decide (code = "SIMULATION_EVALUATOR_MISSING") then "SIMULATION_EVALUATOR_MISSING"
     else "SIMULATION_CONTRACT_DRIFT")%string.

(** [errors.Is] for a sentinel, [errors.As] for a [Diagnostic]. *)
Fixpoint errors_Is (err target : EngineError) : bool :=
  bool_decide (err = target) || match err with WrappedError _ inner => errors_Is inner target | _ => false end.
Fixpoint errors_As_Diagnostic (err : EngineError) : option EngineError :=
  match err with
  | DiagnosticError _ => Some err
  | WrappedError _ inner => errors_As_Diagnostic inner
  | _ => None
  end.

Definition stable_errors : list EngineError :=
  [ErrPastEvent; ErrEventBudget; ErrStepBudget; ErrEventInvalid; ErrDuplicateEvent; ErrOrdinalOverflow].

Definition normalizeEvaluatorError (err : EngineError) : EngineError :=
  if existsb (errors_Is err) stable_errors then err
  else match errors_As_Diagnostic err with
  | Some diagnostic => diagnostic
  | None => EvaluatorDiagnostic ""
  end.

(** ** run.go *)
Record Limits := mkLimits { Limits_DurationMS : Z; Limits_MaxEvents : Z; Limits_MaxSteps : Z }.
Definition Limits_Valid (l : Limits) : bool :=
  (0 <? Limits_DurationMS l) && (0 <? Limits_MaxEvents l) && (0 <? Limits_MaxSteps l).

Record Stats := mkStats { NowMS : Z; EventsExecuted : Z; Steps : Z; ReachedSceneEnd : bool }.

Record Emitter := mkEmitter { queue : Queue; nowMS : Z; allocator : OrdinalAllocator }.

Definition with_ordinal (e : Event) (ordinal : Z) : Event :=
  mkEvent (TimeMS e) (RulePriority e) (SourceID e) ordinal (Event_Kind e) (Event_Version e) (EvaluatorID e)
    (TargetID e) (Payload e).

(** [Schedule]: an ordinal is consumed even when the queue refuses the event. *)
Definition Schedule (em : Emitter) (event : Event) : option EngineError * Emitter :=
  if TimeMS event <? nowMS em then (Some ErrPastEvent, em)
  else match Next (allocator em) with
  | Err err => (Some err, em)
  | Ok (ordinal, a) =>
      match Enqueue (queue em) (with_ordinal event ordinal) with
      | Err err => (Some err, mkEmitter (queue em) (nowMS em) a)
      | Ok q => (None, mkEmitter q (nowMS em) a)
      end
  end.

Section run.
(** The state an evaluator closes over. *)
Context {S_ : Type}.

(** What an evaluator does with one event: it schedules finitely many derived
    events, seeing the outcome of each, and returns. *)
Inductive activity :=
  | Return (s : S_) (err : option EngineError)
  | Emit (event : Event) (k : option EngineError -> activity).
Definition Evaluator : Type := S_ -> Event -> activity.
(** The checkpoint observes state outside the engine: its answer may depend on
    how often it was called. *)
Definition Checkpoint : Type := nat -> Stats -> option EngineError.

Fixpoint perform (a : activity) (em : Emitter) : S_ * option EngineError * Emitter :=
  match a with
  | Return s err => (s, err, em)
  | Emit event k => let '(err, em) := Schedule em event in perform (k err) em
  end.

(** The variables of the loop; [executed] records the events handed to the
    evaluator, latest first, for the statements below. *)
Record loop := mkLoop { emitter : Emitter; stats : Stats; eval_state : S_; executed : list Event }.
Definition outcome : Type := loop * option EngineError.

(** One iteration: the final outcome, or the state of the next iteration. *)
Definition iterate (limits : Limits) (evaluate : Evaluator) (checkpoint : option Checkpoint) (i : nat) (w : loop) :
    outcome + loop :=
  match (match checkpoint with Some c => c i (stats w) | None => None end) with
  | Some err => inl (w, Some err)
  | None =>
      match Pop (queue (emitter w)) with
      | None => inl (w, None)
      | Some (event, q) =>
          let st := stats w in
          let em := mkEmitter q (nowMS (emitter w)) (allocator (emitter w)) in
          let popped := mkLoop em st (eval_state w) (executed w) in
          if Limits_DurationMS limits <? TimeMS event then
            inl (mkLoop em (mkStats (NowMS st) (EventsExecuted st) (Steps st) true) (eval_state w) (executed w), None)
          else if TimeMS event <? NowMS st then inl (popped, Some ErrPastEvent)
          else if Limits_MaxEvents limits <=? EventsExecuted st then inl (popped, Some ErrEventBudget)
          else if Limits_MaxSteps limits <=? Steps st then inl (popped, Some ErrStepBudget)
          else
            let st := mkStats (TimeMS event) (EventsExecuted st) (Steps st) (ReachedSceneEnd st) in
            let em := mkEmitter q (TimeMS event) (allocator em) in
            let '(s, err, em) := perform (evaluate (eval_state w) event) em in
            match err with
            | Some err => inl (mkLoop em st s (event :: executed w), Some (normalizeEvaluatorError err))
            | None =>
                inr (mkLoop em (mkStats (NowMS st) (EventsExecuted st + 1) (Steps st + 1) (ReachedSceneEnd st)) s
                       (event :: executed w))
            end
      end
  end.

Fixpoint iterations (fuel i : nat) (limits : Limits) (evaluate : Evaluator) (checkpoint : option Checkpoint) (w : loop) :
    option outcome :=
  match fuel with
  | O => None
  | S f =>
      match iterate limits evaluate checkpoint i w with
      | inl o => Some o
      | inr w => iterations f (S i) limits evaluate checkpoint w
      end
  end.

Definition start (q : Queue) (s : S_) : loop :=
  mkLoop (mkEmitter q 0 (mkAllocator (Len q))) (mkStats 0 0 0 false) s [].

(** The fuel of a run: one iteration per event of the budget and a last one. *)
Definition run_fuel (limits : Limits) : nat := S (Z.to_nat (Limits_MaxEvents limits)).

Definition RunWithCheckpoint (q : option Queue) (limits : Limits) (evaluate : option Evaluator)
    (checkpoint : option Checkpoint) (s : S_) : option outcome :=
  match q, evaluate with
  | Some q, Some evaluate =>
      if negb (Limits_Valid limits) then Some (start q s, Some ErrExecutionLimit)
      else iterations (run_fuel limits) 0 limits evaluate checkpoint (start q s)
  | _, _ => Some (start (default NewQueue q) s, Some ErrExecutionLimit)
  end.

Definition Run (q : option Queue) (limits : Limits) (evaluate : option Evaluator) (s : S_) : option outcome :=
  RunWithCheckpoint q limits evaluate None s.
End run.
Arguments activity : clear implicits.
Arguments Evaluator : clear implicits.
Arguments loop : clear implicits.

(** ** The order of events *)
Definition key_less : Event -> Event -> bool :=
  then_by TimeMS Z.ltb (then_by RulePriority Z.ltb (then_by SourceID String.ltb (less_on InsertionOrdinal Z.ltb))).

Lemma Less_key_less l r : Less l r = key_less l r.
Proof.
  unfold Less, compare, key_less, then_by, less_on.
  destruct (decide (TimeMS l = TimeMS r)) as [->|Ht]; [rewrite Z.eqb_refl|
    rewrite (proj2 (Z.eqb_neq _ _) Ht); by destruct (TimeMS l <? TimeMS r)]. simpl.
  destruct (decide (RulePriority l = RulePriority r)) as [->|Hp]; [rewrite Z.eqb_refl|
    rewrite (proj2 (Z.eqb_neq _ _) Hp); by destruct (RulePriority l <? RulePriority r)]. simpl.
  destruct (decide (SourceID l = SourceID r)) as [->|Hs]; [rewrite bool_decide_true by done|
    rewrite bool_decide_false by done; simpl; by destruct (String.ltb _ _)]. simpl.
  destruct (InsertionOrdinal l <? InsertionOrdinal r); [done|].
  by destruct (InsertionOrdinal r <? InsertionOrdinal l).
Qed.

Global Instance Less_weak : WeakOrder Less.
Proof.
  assert (WeakOrder key_less) as [H1 H2 H3] by apply _.
  split; intros *; rewrite !Less_key_less; [apply H1|apply H2|apply H3].
Qed.

Lemma Less_total_key l r : Less l r = false -> Less r l = false -> key_of l = key_of r.
Proof.
  rewrite !Less_key_less. unfold key_less, key_of.
  intros Hl Hr.
  destruct (then_by_eq _ _ _ _ _ Hl Hr) as (-> & Hl1 & Hr1).
  destruct (then_by_eq _ _ _ _ _ Hl1 Hr1) as (-> & Hl2 & Hr2).
  destruct (then_by_eq _ _ _ _ _ Hl2 Hr2) as (-> & Hl3 & Hr3).
  unfold less_on in *. bool_to_prop. f_equal. lia.
Qed.

Lemma Less_time l r : not_after Less l r -> TimeMS l <= TimeMS r.
Proof.
  unfold not_after. rewrite Less_key_less. unfold key_less, then_by. case_decide; intros; bool_to_prop; lia.
Qed.

(** ** The queue refines a sorted list of events *)
Record queue_ok (q : Queue) : Prop := {
  queue_heap : heap Less (events q);
  queue_distinct : NoDup (key_of <$> events q);
  queue_keys : forall k, k ∈ keys q <-> k ∈ key_of <$> events q
}.

(** The abstract queue: the pending events in the order of [compare]. *)
Definition pending (q : Queue) : list Event := sort_by Less (events q).

Lemma queue_ok_new : queue_ok NewQueue.
Proof.
  split; simpl; [by intros k _ x y Hx|constructor|]. intros k. split; [set_solver|]. by intros ?%elem_of_nil.
Qed.

Lemma pending_unique q l : queue_ok q -> l ≡ₚ events q -> sort_by Less l = pending q.
Proof.
  intros [_ Hd _] Hp. symmetry. apply (sort_by_unique_on Less); [|by rewrite Hp].
  intros x y Hx Hy Hxy Hyx. apply (Less_total_key x y Hxy) in Hyx.
  apply list_elem_of_lookup in Hx as [i Hi], Hy as [j Hj].
  assert (i = j) as ->.
  { eapply NoDup_lookup; [exact Hd| |]; rewrite list_lookup_fmap; [by rewrite Hi|]. by rewrite Hj, Hyx. }
  rewrite Hi in Hj. by injection Hj.
Qed.

Lemma Enqueue_Ok q event q' :
  Enqueue q event = Ok q' <->
  Event_Valid event = true /\ key_of event ∉ keys q /\
  q' = mkQueue (heap_push Less (events q) event) ({[key_of event]} ∪ keys q).
Proof.
  unfold Enqueue. destruct (Event_Valid event); simpl; [|naive_solver].
  case_bool_decide; naive_solver.
Qed.

Lemma Enqueue_spec q event q' :
  queue_ok q -> Enqueue q event = Ok q' ->
  queue_ok q' /\ events q' ≡ₚ event :: events q /\ pending q' = insert_by Less event (pending q).
Proof.
  intros Hq (_ & Hfresh & ->)%Enqueue_Ok. pose proof (heap_push_perm Less (events q) event) as Hp.
  assert (queue_ok (mkQueue (heap_push Less (events q) event) ({[key_of event]} ∪ keys q))) as Hq'.
  { destruct Hq as [Hh Hd Hk]. split; simpl.
    - by apply (heap_push_heap Less).
    - rewrite Hp. simpl. constructor; [|done]. by rewrite <- Hk.
    - intros k. rewrite Hp. simpl. rewrite elem_of_cons, <- Hk. set_solver. }
  split; [done|]. split; [done|]. rewrite <- (pending_unique _ (event :: events q) Hq') by (simpl; by rewrite Hp).
  done.
Qed.

Lemma insert_by_least e l : Forall (not_after Less e) l -> insert_by Less e l = e :: l.
Proof. destruct l as [|x l]; [done|]. intros [Hx _]%Forall_cons. simpl. by rewrite Hx. Qed.

Lemma Pop_None q : Pop q = None <-> events q = [].
Proof.
  unfold Pop. destruct (heap_pop Less (events q)) as [[e rest]|] eqn:E.
  - split; [done|]. intros Hnil. by rewrite Hnil in E.
  - split; [|done]. intros _. by eapply heap_pop_None.
Qed.

Lemma Pop_spec q event q' :
  queue_ok q -> Pop q = Some (event, q') ->
  queue_ok q' /\ event :: events q' ≡ₚ events q /\ pending q = event :: pending q' /\
  Forall (not_after Less event) (events q).
Proof.
  intros Hq. unfold Pop. destruct (heap_pop Less (events q)) as [[e rest]|] eqn:E; [|done].
  intros [= -> <-]. apply (heap_pop_Some Less) in E as (Hh & Hp & Hleast); [|by destruct Hq].
  assert (queue_ok (mkQueue rest (keys q ∖ {[key_of event]}))) as Hq'.
  { destruct Hq as [_ Hd Hk]. rewrite <- Hp in Hd. simpl in Hd. apply NoDup_cons in Hd as [Hn Hd].
    split; simpl; [done|done|]. intros k. rewrite elem_of_difference, Hk, <- Hp. simpl.
    rewrite elem_of_cons, elem_of_singleton. split; [naive_solver|].
    intros Hin. split; [by right|]. intros ->. by apply Hn. }
  split; [done|]. split; [done|]. split; [|done].
  rewrite <- (pending_unique q (event :: rest) Hq Hp). simpl.
  apply insert_by_least. apply Forall_sort_by. rewrite <- Hp in Hleast. by apply Forall_cons in Hleast as [_ ?].
Qed.

(** C35: The queue behaves as the list of its pending events in the order of
    [compare]: enqueuing an event inserts it, popping removes the first one, and
    an event is refused exactly when it is invalid or its key is taken. *)
Theorem queue_refines_sorted_list q event :
  queue_ok q ->
  (forall q', Enqueue q event = Ok q' -> queue_ok q' /\ pending q' = insert_by Less event (pending q)) /\
  (Enqueue q event = Err ErrEventInvalid <-> Event_Valid event = false) /\
  (Enqueue q event = Err ErrDuplicateEvent <->
     Event_Valid event = true /\ key_of event ∈ key_of <$> pending q) /\
  match Pop q with
  | None => pending q = []
  | Some (first, q') => queue_ok q' /\ pending q = first :: pending q'
  end.
Proof.
  intros Hq. split; [|split; [|split]].
  - intros q' He. destruct (Enqueue_spec _ _ _ Hq He) as (? & _ & ?). done.
  - unfold Enqueue. destruct (Event_Valid event); simpl; [|done]. case_bool_decide; naive_solver.
  - unfold Enqueue, pending. rewrite sort_by_perm, <- (queue_keys q Hq).
    destruct (Event_Valid event); simpl; [|naive_solver]. case_bool_decide; naive_solver.
  - destruct (Pop q) as [[first q']|] eqn:E.
    + destruct (Pop_spec _ _ _ Hq E) as (? & _ & ? & _). done.
    + apply Pop_None in E. unfold pending. by rewrite E.
Qed.

(** ** The emitter never produces a taken key *)
Record emitter_ok (em : Emitter) : Prop := {
  emitter_queue : queue_ok (queue em);
  emitter_future : Forall (fun e => nowMS em <= TimeMS e) (events (queue em));
  emitter_ordinals : Forall (fun e => InsertionOrdinal e < next (allocator em)) (events (queue em))
}.

Lemma Schedule_spec em event err em' :
  emitter_ok em -> Schedule em event = (err, em') ->
  emitter_ok em' /\ nowMS em' = nowMS em /\ err <> Some ErrDuplicateEvent /\
  (err = None -> Event_Valid (with_ordinal event (next (allocator em))) = true /\
     pending (queue em') = insert_by Less (with_ordinal event (next (allocator em))) (pending (queue em))).
Proof.
  intros [Hq Hf Ho]. unfold Schedule, Next.
  destruct (TimeMS event <? nowMS em) eqn:Ht; [by intros [= <- <-]|].
  destruct (next (allocator em) =? MaxUint64); [by intros [= <- <-]|].
  assert (Forall (fun e => InsertionOrdinal e < next (allocator em) + 1) (events (queue em))) as Ho'.
  { eapply Forall_impl; [exact Ho|]. simpl. lia. }
  destruct (Enqueue (queue em) (with_ordinal event (next (allocator em)))) as [q|e] eqn:E.
  - intros [= <- <-]. pose proof (Enqueue_spec _ _ _ Hq E) as (Hq' & Hp & Hpend).
    apply Enqueue_Ok in E as (Hv & _ & _). bool_to_prop.
    split; [|done]. split; simpl; [done|rewrite Hp; constructor; [simpl; lia|done]|].
    rewrite Hp. constructor; [simpl; lia|done].
  - intros [= <- <-]. split; [by split|]. split; [done|]. split; [|done]. intros [= ->].
    unfold Enqueue in E. destruct (Event_Valid _); simpl in E; [|done].
    case_bool_decide as Hk; [|done]. apply (queue_keys _ Hq) in Hk.
    apply list_elem_of_fmap in Hk as (e & He & Hin). rewrite Forall_forall in Ho. specialize (Ho e Hin).
    injection He as _ _ _ He. lia.
Qed.

Section run_facts.
Context {S_ : Type}.
Implicit Types (w : loop S_) (a : activity S_).

Lemma perform_ok a em s err em' :
  emitter_ok em -> perform a em = (s, err, em') -> emitter_ok em' /\ nowMS em' = nowMS em.
Proof.
  revert em. induction a as [s0 e0|event k IH]; intros em Hem; simpl.
  - by intros [= <- <- <-].
  - destruct (Schedule em event) as [r em1] eqn:E. intros Hp.
    apply (Schedule_spec _ _ _ _ Hem) in E as (Hem1 & Hnow & _).
    rewrite <- Hnow. by eapply IH.
Qed.

(** The invariant of the loop: the queue is sound, holds no event before the
    clock, and the events executed so far are in the order of time. *)
Record loop_ok (limits : Limits) w : Prop := {
  loop_emitter : emitter_ok (emitter w);
  loop_clock : nowMS (emitter w) = NowMS (stats w);
  loop_counts : 0 <= EventsExecuted (stats w) <= Limits_MaxEvents limits /\
    0 <= Steps (stats w) <= Limits_MaxSteps limits /\
    NowMS (stats w) <= Limits_DurationMS limits;
  loop_executed : Z.of_nat (length (executed w)) = EventsExecuted (stats w);
  loop_sorted : StronglySorted (fun later earlier => TimeMS earlier <= TimeMS later) (executed w);
  loop_past : Forall (fun e => TimeMS e <= NowMS (stats w)) (executed w)
}.

Context (limits : Limits) (evaluate : Evaluator S_) (checkpoint : option Checkpoint).

Lemma iterate_next i w w' :
  loop_ok limits w -> iterate limits evaluate checkpoint i w = inr w' ->
  loop_ok limits w' /\ EventsExecuted (stats w') = EventsExecuted (stats w) + 1.
Proof.
  intros [Hem Hclock Hcounts Hlen Hsorted Hpast]. unfold iterate.
  destruct (match checkpoint with Some c => _ | None => _ end); [done|].
  destruct (Pop (queue (emitter w))) as [[event q]|] eqn:Hpop; [|done].
  destruct (Limits_DurationMS limits <? TimeMS event) eqn:H1; [done|].
  destruct (TimeMS event <? NowMS (stats w)) eqn:H2; [done|].
  destruct (Limits_MaxEvents limits <=? EventsExecuted (stats w)) eqn:H3; [done|].
  destruct (Limits_MaxSteps limits <=? Steps (stats w)) eqn:H4; [done|]. bool_to_prop. simpl.
  destruct Hem as [Hq Hf Ho]. apply (Pop_spec _ _ _ Hq) in Hpop as (Hq' & Hp & _ & Hleast).
  rewrite <- Hp in Hf, Ho, Hleast. apply Forall_cons in Hf as [_ Hf], Ho as [_ Ho], Hleast as [_ Hleast].
  destruct (perform _ _) as [[s err] em] eqn:Hperf. destruct err; [done|]. intros [= <-].
  apply perform_ok in Hperf as [Hem Hnow]; cycle 1.
  { split; simpl; [done| |done]. eapply Forall_impl; [exact Hleast|]. intros e. apply Less_time. }
  simpl in Hnow. split; [|done]. split; simpl.
  - done.
  - done.
  - lia.
  - lia.
  - constructor; [done|]. eapply Forall_impl; [exact Hpast|]. simpl. lia.
  - constructor; [lia|]. eapply Forall_impl; [exact Hpast|]. simpl. lia.
Qed.

(** The last iteration changes the counters by at most the event that failed. *)
Lemma iterate_last i w o :
  loop_ok limits w -> iterate limits evaluate checkpoint i w = inl o ->
  EventsExecuted (stats o.1) = EventsExecuted (stats w) /\ Steps (stats o.1) = Steps (stats w) /\
  NowMS (stats o.1) <= Limits_DurationMS limits /\
  StronglySorted (fun later earlier => TimeMS earlier <= TimeMS later) (executed o.1) /\
  emitter_ok (emitter o.1).
Proof.
  intros [Hem Hclock Hcounts Hlen Hsorted Hpast]. unfold iterate.
  destruct (match checkpoint with Some c => _ | None => _ end); [intros [= <-]; simpl; split_and!; (lia || done)|].
  destruct (Pop (queue (emitter w))) as [[event q]|] eqn:Hpop;
    [|intros [= <-]; simpl; split_and!; (lia || done)].
  destruct Hem as [Hq Hf Ho]. apply (Pop_spec _ _ _ Hq) in Hpop as (Hq' & Hp & _ & Hleast).
  rewrite <- Hp in Hf, Ho, Hleast. apply Forall_cons in Hf as [Hf0 Hf], Ho as [Ho0 Ho], Hleast as [_ Hleast].
  assert (emitter_ok (mkEmitter q (nowMS (emitter w)) (allocator (emitter w)))) as Hem by done.
  destruct (Limits_DurationMS limits <? TimeMS event) eqn:H1; [intros [= <-]; simpl; split_and!; (lia || done)|].
  destruct (TimeMS event <? NowMS (stats w)) eqn:H2; [intros [= <-]; simpl; split_and!; (lia || done)|].
  destruct (Limits_MaxEvents limits <=? EventsExecuted (stats w)); [intros [= <-]; simpl; split_and!; (lia || done)|].
  destruct (Limits_MaxSteps limits <=? Steps (stats w)); [intros [= <-]; simpl; split_and!; (lia || done)|].
  bool_to_prop. simpl. destruct (perform _ _) as [[s err] em] eqn:Hperf.
  destruct err as [err|]; [|done]. intros [= <-]. simpl.
  apply perform_ok in Hperf as [Hem' _]; cycle 1.
  { split; simpl; [done| |done]. eapply Forall_impl; [exact Hleast|]. intros e. apply Less_time. }
  split; [done|]. split; [done|]. split; [done|]. split; [|done].
  constructor; [done|]. eapply Forall_impl; [exact Hpast|]. simpl. lia.
Qed.

Lemma iterations_total fuel i w :
  loop_ok limits w -> Limits_MaxEvents limits - EventsExecuted (stats w) < Z.of_nat fuel ->
  exists w' j o, loop_ok limits w' /\ iterations fuel i limits evaluate checkpoint w = Some o /\
    iterate limits evaluate checkpoint j w' = inl o.
Proof.
  revert i w. induction fuel as [|f IH]; intros i w Hw Hfuel; [destruct Hw; lia|]. simpl.
  destruct (iterate limits evaluate checkpoint i w) as [o|w'] eqn:E; [by exists w, i, o|].
  destruct (iterate_next _ _ _ Hw E) as [Hw' Hn]. apply IH; [done|lia].
Qed.

(** A queue a run may start from: no event before time zero, and every ordinal
    below the number of events, as [InitialEvents] numbers them. *)
Definition startable (q : Queue) : Prop :=
  queue_ok q /\ Forall (fun e => 0 <= TimeMS e /\ InsertionOrdinal e < Len q) (events q).

Lemma start_ok q s : Limits_Valid limits = true -> startable q -> loop_ok limits (start q s).
Proof.
  intros Hl [Hq Hall]. unfold Limits_Valid in Hl. bool_to_prop.
  split; simpl; try done; try lia.
  - split; simpl; [done| |]; eapply Forall_impl; try exact Hall; simpl; lia.
  - apply SSorted_nil.
Qed.

Lemma RunWithCheckpoint_final q s :
  Limits_Valid limits = true -> startable q ->
  exists w j o, loop_ok limits w /\
    RunWithCheckpoint (Some q) limits (Some evaluate) checkpoint s = Some o /\
    iterate limits evaluate checkpoint j w = inl o.
Proof.
  intros Hl Hq. unfold RunWithCheckpoint. rewrite Hl. cbn [negb].
  apply iterations_total; [by apply start_ok|]. unfold run_fuel. simpl. unfold Limits_Valid in Hl. bool_to_prop. lia.
Qed.
End run_facts.

(** C36: A run terminates whatever its evaluator schedules and its checkpoint
    answers: it stays within both budgets and the duration, and hands the events
    to the evaluator in the order of time. *)
Theorem run_terminates_within_budget {S_ : Type} (q : Queue) (limits : Limits) (evaluate : Evaluator S_)
    (checkpoint : option Checkpoint) (s : S_) :
  Limits_Valid limits = true -> startable q ->
  exists w err, RunWithCheckpoint (Some q) limits (Some evaluate) checkpoint s = Some (w, err) /\
    EventsExecuted (stats w) <= Limits_MaxEvents limits /\ Steps (stats w) <= Limits_MaxSteps limits /\
    NowMS (stats w) <= Limits_DurationMS limits /\
    StronglySorted (fun later earlier => TimeMS earlier <= TimeMS later) (executed w).
Proof.
  intros Hl Hq. destruct (RunWithCheckpoint_final limits evaluate checkpoint q s Hl Hq) as (w & j & [w' err] & Hw & Hr & Hlast).
  exists w', err. split; [done|]. pose proof (iterate_last limits evaluate checkpoint j w _ Hw Hlast) as (E1 & E2 & ? & ? & _).
  simpl in E1, E2. destruct Hw as [_ _ (? & ? & ?) _ _ _]. rewrite E1, E2. split_and!; (lia || done).
Qed.

(** An evaluator that returns no error, whatever it schedules. *)
Inductive silent {S_ : Type} : activity S_ -> Prop :=
  | silent_return s : silent (Return s None)
  | silent_emit event k : (forall r, silent (k r)) -> silent (Emit event k).

Lemma perform_silent {S_ : Type} (a : activity S_) em s err em' :
  silent a -> perform a em = (s, err, em') -> err = None.
Proof.
  intros Ha. revert em. induction Ha as [s0|event k _ IH]; intros em; simpl; [by intros [= _ <- _]|].
  destruct (Schedule em event) as [r em1]. apply IH.
Qed.

(** The engine's own guard against events in the past never fires: a run with
    silent evaluators and no checkpoint ends without an error or on a budget. *)
Theorem run_fails_only_on_budgets {S_ : Type} (q : Queue) (limits : Limits) (evaluate : Evaluator S_) (s : S_) w err :
  Limits_Valid limits = true -> startable q -> (forall s e, silent (evaluate s e)) ->
  Run (Some q) limits (Some evaluate) s = Some (w, err) ->
  err = None \/ err = Some ErrEventBudget \/ err = Some ErrStepBudget.
Proof.
  intros Hl Hq Hs Hr. unfold Run in Hr.
  destruct (RunWithCheckpoint_final limits evaluate None q s Hl Hq) as (w' & j & o & Hw & Hr' & Hlast).
  rewrite Hr in Hr'. injection Hr' as <-. destruct Hw as [[Hqw Hf _] Hclock _ _ _ _]. unfold iterate in Hlast.
  destruct (Pop (queue (emitter w'))) as [[event q']|] eqn:Hpop; [|injection Hlast; auto].
  apply (Pop_spec _ _ _ Hqw) in Hpop as (_ & Hp & _ & _). rewrite <- Hp in Hf. apply Forall_cons in Hf as [Hf _].
  destruct (Limits_DurationMS limits <? TimeMS event); [injection Hlast; auto|].
  destruct (TimeMS event <? NowMS (stats w')) eqn:H2; [bool_to_prop; lia|].
  destruct (Limits_MaxEvents limits <=? EventsExecuted (stats w')); [injection Hlast; auto|].
  destruct (Limits_MaxSteps limits <=? Steps (stats w')); [injection Hlast; auto|]. simpl in Hlast.
  destruct (perform _ _) as [[s' err'] em'] eqn:Hperf. apply perform_silent in Hperf as ->; [|apply Hs]. done.
Qed.

(** ** The queue a run starts from *)
Section start_queue.
Context `{UnicodeTables}.

Definition enqueue_all (q : Queue) (l : list Event) : result Queue EngineError := foldr_result Enqueue q l.

(** A scenario stable identity is an engine stable identity. *)
Lemma scenario_stable v : SimScenario.stableID v = true -> stableID v = true.
Proof. unfold SimScenario.stableID, stableID. rewrite !andb_true_iff. tauto. Qed.

Lemma initial_events_spec d n actions q :
  Forall (action_ok d) actions -> 0 <= n -> n + Z.of_nat (length actions) <= MaxUint64 ->
  queue_ok q -> Forall (fun e => 0 <= TimeMS e /\ InsertionOrdinal e < n) (events q) -> Len q = n ->
  exists evs q', initial_events (mkAllocator n) actions = Ok evs /\ enqueue_all q evs = Ok q' /\
    length evs = length actions /\ startable q'.
Proof.
  intros Hall. revert n q. induction Hall as [|a actions Ha _ IH]; intros n q Hn Hmax Hq He Hlen; simpl.
  { exists [], q. rewrite <- Hlen in He. done. }
  unfold Next. simpl. rewrite (proj2 (Z.eqb_neq n MaxUint64)) by (simpl in Hmax; lia). simpl.
  destruct Ha as (H1 & H2 & H3 & H4 & H5).
  assert (exists q1, Enqueue q (action_event a n) = Ok q1) as [q1 Hq1].
  { unfold Enqueue. assert (Event_Valid (action_event a n) = true) as ->.
    { unfold Event_Valid. simpl. rewrite !scenario_stable by done. rewrite (proj2 (Z.leb_le _ _)) by lia. done. }
    simpl. rewrite bool_decide_false; [eauto|]. rewrite (queue_keys q Hq).
    intros (e & Hk & Hin)%list_elem_of_fmap. rewrite Forall_forall in He. destruct (He e Hin).
    injection Hk as _ _ _ Hk. lia. }
  pose proof (Enqueue_spec _ _ _ Hq Hq1) as (Hok1 & Hp & _).
  destruct (IH (n + 1) q1) as (evs & q' & Hevs & Hq' & Hl & Hs); [lia|simpl in Hmax; lia|done| | |].
  - rewrite Hp. constructor; simpl; [lia|]. eapply Forall_impl; [exact He|]. simpl. lia.
  - unfold Len. rewrite (Permutation_length Hp). simpl. unfold Len in Hlen. lia.
  - rewrite Hevs. simpl. do 2 eexists. split; [done|]. unfold enqueue_all. simpl. rewrite Hq1. simpl.
    split; [done|]. simpl. by rewrite Hl.
Qed.

(** Every event of a valid scenario is accepted by an empty queue, and the queue
    it fills is one a run may start from: no event of the run is ever refused as
    a duplicate. *)
Theorem initial_events_startable d :
  Validate d = Ok tt ->
  exists evs q, InitialEvents d = Ok evs /\ enqueue_all NewQueue evs = Ok q /\
    length evs = length (Actions d) /\ startable q /\ emitter_ok (mkEmitter q 0 (mkAllocator (Len q))).
Proof.
  intros Hv. pose proof (Validate_bounded d Hv) as Hlen.
  destruct (initial_events_spec d 0 (Actions d) NewQueue) as (evs & q & H1 & H2 & H3 & H4).
  - by apply Validate_actions.
  - lia.
  - unfold MaxUint64. lia.
  - apply queue_ok_new.
  - constructor.
  - done.
  - exists evs, q. unfold InitialEvents. rewrite Hv. split; [done|]. split; [done|]. split; [done|].
    split; [done|]. destruct H4 as [Hq Hall]. split; simpl; [done| |]; eapply Forall_impl; try exact Hall; simpl; lia.
Qed.
End start_queue.

Module EngineExamples.

Definition duel : Definition_ :=
  mkDefinition "duel" "v1" [mkParticipant "hero" "unit" []; mkParticipant "boss" "unit" []]
    [mkAction "second" "hit" "combat" 20 "boss" "hero" []; mkAction "first" "hit" "combat" 10 "hero" "boss" []]
    100 7 [] (mkBudgets 3 3 1 1000).

Definition duel_events : list Event := Eval vm_compute in match InitialEvents duel with Ok l => l | Err _ => [] end.
Definition duel_queue : Queue :=
  match enqueue_all NewQueue duel_events with Ok q => q | Err _ => NewQueue end.

(** Every event derives one 40 ms later, as long as there is time. *)
Definition chain : Evaluator unit := fun s e =>
  Emit (mkEvent (TimeMS e + 40) 0 (SourceID e) 0 "hit" "v1" "combat" (TargetID e) "") (fun _ => Return s None).

Lemma duel_startable : startable duel_queue.
Proof.
  destruct (initial_events_spec duel 0 (Actions duel) NewQueue) as (evs & q & H1 & H2 & _ & H4);
    [apply Validate_actions; vm_compute; reflexivity | lia | vm_compute; discriminate | apply queue_ok_new
    | constructor | reflexivity |].
  assert (duel_queue = q) as ->; [|exact H4].
  assert (evs = duel_events) as ->.
  { assert (initial_events (mkAllocator 0) (Actions duel) = Ok duel_events) as E by (vm_compute; reflexivity). congruence. }
  unfold duel_queue. rewrite H2. reflexivity.
Qed.

Lemma queue_refines_sorted_list_witness :
  exists first q', Pop duel_queue = Some (first, q') /\ TimeMS first = 10 /\ pending duel_queue = first :: pending q'.
Proof.
  pose proof (queue_refines_sorted_list duel_queue (action_event (mkAction "first" "hit" "combat" 10 "hero" "boss" []) 1)
    (proj1 duel_startable)) as (_ & _ & _ & Hpop).
  destruct (Pop duel_queue) as [[first q']|] eqn:E; [|exfalso; vm_compute in E; discriminate].
  exists first, q'. split; [reflexivity|]. split; [|exact (proj2 Hpop)].
  assert (option_map (fun x => TimeMS (fst x)) (Pop duel_queue) = Some 10) as Ht by (vm_compute; reflexivity).
  rewrite E in Ht. simpl in Ht. congruence.
Defined.

Definition duel_limits : Limits := mkLimits 100 3 3.

Lemma run_terminates_within_budget_witness :
  exists w err, RunWithCheckpoint (Some duel_queue) duel_limits (Some chain) (Some (fun i _ => if Nat.eqb i 9 then Some ErrExecutionLimit else None)) tt = Some (w, err) /\
    EventsExecuted (stats w) <= 3.
Proof.
  destruct (run_terminates_within_budget duel_queue duel_limits chain
    (Some (fun i _ => if Nat.eqb i 9 then Some ErrExecutionLimit else None)) tt eq_refl duel_startable) as (w & err & Hr & He & _).
  exists w, err. split; [exact Hr | exact He].
Defined.

Lemma run_fails_only_on_budgets_witness :
  exists w, Run (Some duel_queue) duel_limits (Some chain) tt = Some (w, Some ErrEventBudget) /\
    (Some ErrEventBudget = None \/ Some ErrEventBudget = Some ErrEventBudget \/ Some ErrEventBudget = Some ErrStepBudget).
Proof.
  eexists. split; [vm_compute; reflexivity|].
  eapply (run_fails_only_on_budgets duel_queue duel_limits chain tt);
    [reflexivity | exact duel_startable | intros s e; constructor; intros r; constructor | vm_compute; reflexivity].
Defined.

Lemma initial_events_startable_witness :
  Validate duel = Ok tt /\ exists evs q, InitialEvents duel = Ok evs /\ enqueue_all NewQueue evs = Ok q /\ length evs = 2%nat.
Proof.
  split; [vm_compute; reflexivity|].
  destruct (initial_events_startable duel) as (evs & q & H1 & H2 & H3 & _); [vm_compute; reflexivity|].
  exists evs, q. split; [exact H1|]. split; [exact H2 | exact H3].
Defined.
End EngineExamples.
