(* ===== verification/SimMetric.v ===== *)
(** * internal/simulation/metric: metric.go, modules.go, reduce.go, result.go

    Metrics evaluate the structured observations of a sample; the reduction
    aggregates the samples of a run into one result per metric. *)
From S2P Require Import Prelude GoSort GoStrings GoCrypto FormulaDecimal.
Open Scope Z_scope.

Section metric.
Context `{UnicodeTables, ApdLib}.

(** ** metric.go *)
Inductive Direction := HigherIsRisk | LowerIsRisk | TargetRange | DirectionUnknown (spelling : string).
Inductive MetricStatus := Available | Unavailable | StatusUnknown (spelling : string).
Inductive RangeBounds := Inclusive | BoundsUnknown (spelling : string).
#[global] Instance Direction_eq_dec : EqDecision Direction.
Proof. solve_decision. Defined.
#[global] Instance MetricStatus_eq_dec : EqDecision MetricStatus.
Proof. solve_decision. Defined.
#[global] Instance RangeBounds_eq_dec : EqDecision RangeBounds.
Proof. solve_decision. Defined.

Record ValueRange := mkValueRange { Lower : Decimal; Upper : Decimal; Bounds : RangeBounds }.
#[global] Instance ValueRange_eq_dec : EqDecision ValueRange.
Proof. solve_decision. Defined.
Definition ValueRange_Valid (v : ValueRange) : bool :=
  bool_decide (Bounds v = Inclusive) && (Compare (Lower v) (Upper v) <=? 0).

Record Descriptor := mkDescriptor {
  Descriptor_ID : string; Descriptor_Version : string; RequiredObservations : list string; Unit_ : string;
  Descriptor_Direction : Direction; Descriptor_TargetRange : option ValueRange; AbsoluteThreshold : option Decimal;
  AggregationVersion : string; ConfidenceVersion : string; Assumptions : list string
}.
#[global] Instance Descriptor_eq_dec : EqDecision Descriptor.
Proof. solve_decision. Defined.

Definition blank (s : string) : bool := bool_decide (TrimSpace s = ""%string).
Definition Descriptor_Valid (d : Descriptor) : bool :=
  if blank (Descriptor_ID d) || blank (Descriptor_Version d) || blank (Unit_ d) ||
     blank (AggregationVersion d) || blank (ConfidenceVersion d) then false
  else match Descriptor_Direction d with
  | DirectionUnknown _ => false
  | direction =>
      if negb (Bool.eqb (bool_decide (direction = TargetRange)) (bool_decide (is_Some (Descriptor_TargetRange d)))) ||
         negb (option_forallb ValueRange_Valid (Descriptor_TargetRange d))
      then false
      else forallb (fun o => negb (blank o)) (RequiredObservations d) && nodupb (RequiredObservations d)
  end.

Record Observation := mkObservation { Observation_ID : string; Observation_Value : Decimal; Observation_Unit : string }.
Inductive SampleStatus := SampleUnset | SampleSucceeded | SampleFailed | SampleCanceled | SampleUnknown (spelling : string).
#[global] Instance SampleStatus_eq_dec : EqDecision SampleStatus.
Proof. solve_decision. Defined.
Record Sample := mkSample { Sample_Ordinal : Z; Observations : list Observation; Sample_Status : SampleStatus }.

Record UnavailableReason := mkReason { Reason_Code : string; Missing : list string; Reason_Message : string }.
#[global] Instance UnavailableReason_eq_dec : EqDecision UnavailableReason.
Proof. solve_decision. Defined.
Definition Reason_Valid (r : UnavailableReason) : bool :=
  negb (blank (Reason_Code r)) && negb (blank (Reason_Message r)) && (0 <? Z.of_nat (length (Missing r))).

Record Result := mkResult {
  Result_Descriptor : Descriptor; Result_Status : MetricStatus;
  Result_Value : option Decimal; Result_Unavailable : option UnavailableReason
}.
Definition none {T : Type} (o : option T) : bool := match o with None => true | Some _ => false end.
Definition reason_valid (o : option UnavailableReason) : bool :=
  match o with Some r => Reason_Valid r | None => false end.
Definition Result_Valid (r : Result) : bool :=
  Descriptor_Valid (Result_Descriptor r) &&
  ((bool_decide (Result_Status r = Available) && negb (none (Result_Value r)) && none (Result_Unavailable r)) ||
   (bool_decide (Result_Status r = Unavailable) && none (Result_Value r) && reason_valid (Result_Unavailable r))).

Inductive MetricError :=
  | ErrMetricRegistryInvalid (detail : string)
  | ErrReductionInvalid (detail : string)
  | ErrResultInvalid
  | IncompatibleUnit (detail : string)
  | ArithmeticError (message : string)
  | CheckError (message : string).

(** The [Module] interface. *)
Record Module_ := mkModule { Module_Descriptor : Descriptor; Evaluate : Sample -> result Result MetricError }.
Notation Registry := (gmap string Module_).

Definition register_module (r : Registry) (m : option Module_) : result Registry MetricError :=
  match m with
  | None => Err (ErrMetricRegistryInvalid "")
  | Some m =>
      if negb (Descriptor_Valid (Module_Descriptor m)) then Err (ErrMetricRegistryInvalid "")
      else if bool_decide (is_Some (r !! Descriptor_ID (Module_Descriptor m)))
      then Err (ErrMetricRegistryInvalid ("duplicate metric " +:+ Quote (Descriptor_ID (Module_Descriptor m))))
      else Ok (<[Descriptor_ID (Module_Descriptor m) := m]> r)
  end.
Definition NewRegistry (modules : list (option Module_)) : result Registry MetricError :=
  let? registry := foldr_result register_module ∅ modules in
  if bool_decide (size registry = 0%nat) then Err (ErrMetricRegistryInvalid "") else Ok registry.

Definition Descriptors (r : Registry) : list Descriptor :=
  sort_by (less_on Descriptor_ID String.ltb) (Module_Descriptor <$> (map_to_list r).*2).

Definition MissingResult (d : Descriptor) (missing : list string) (code message : string) : Result :=
  mkResult d Unavailable None (Some (mkReason code (sort_strings missing) message)).

(** ** modules.go: a metric that sums one kind of observation *)
Definition add_decimal (a b : Decimal) : result Decimal MetricError :=
  match Add a b with Ok d => Ok d | Err message => Err (ArithmeticError message) end.

Definition observe (d : Descriptor) (id : string) (total : option Decimal) (o : Observation) :
    result (option Decimal) MetricError :=
  if negb (bool_decide (Observation_ID o = id)) then Ok total
  else if negb (bool_decide (Observation_Unit o = Unit_ d))
  then Err (IncompatibleUnit ("metric " +:+ Descriptor_ID d +:+ " received incompatible unit " +:+ Quote (Observation_Unit o)))
  else match total with
  | None => Ok (Some (Observation_Value o))
  | Some t => let? v := add_decimal t (Observation_Value o) in Ok (Some v)
  end.

Definition observation_Evaluate (d : Descriptor) (id : string) (s : Sample) : result Result MetricError :=
  let? total := foldr_result (observe d id) None (Observations s) in
  match total with
  | None => Ok (MissingResult d [id] "MISSING_STRUCTURED_INPUT" "Required structured observation is unavailable")
  | Some _ => Ok (mkResult d Available total None)
  end.
Definition observationModule (d : Descriptor) (id : string) : Module_ := mkModule d (observation_Evaluate d id).

Definition AggregationV1 : string := "mean-decimal-v1".
Definition ConfidenceV1 : string := "min-max-interval-v1".

Definition v1_descriptor (id observation unit_ : string) (direction : Direction) (range : option ValueRange)
    (assumption : string) : Descriptor :=
  mkDescriptor id "v1" [observation] unit_ direction range None AggregationV1 ConfidenceV1
    ["independent_samples"; assumption]%string.
Definition v1_module (id observation unit_ : string) (direction : Direction) (range : option ValueRange)
    (assumption : string) : Module_ :=
  observationModule (v1_descriptor id observation unit_ direction range assumption) observation.

(** [V1Modules]: [None] is the panic on an unparsable bound. *)
Definition V1Modules : option (list Module_) :=
  match ParseDecimal "0.8", ParseDecimal "1.2" with
  | Ok lower, Ok upper =>
      Some [ v1_module "metric-dps" "damage_per_second" "points_per_second" HigherIsRisk None "structured_damage_events";
             v1_module "metric-healing" "healing_per_second" "points_per_second" HigherIsRisk None "structured_healing_events";
             v1_module "metric-survivability" "survival_seconds" "milliseconds" LowerIsRisk None "terminal_state_observation";
             v1_module "metric-resource" "resource_efficiency" "ratio" TargetRange
               (Some (mkValueRange lower upper Inclusive)) "resource_state_observation";
             v1_module "metric-control" "control_duration" "milliseconds" HigherIsRisk None "structured_control_events" ]
  | _, _ => None
  end.

(** ** reduce.go *)
Record AggregateResult := mkAggregate {
  Aggregate_Descriptor : Descriptor; Aggregate_Status : MetricStatus;
  Value : option Decimal; ConfidenceLow : option Decimal; ConfidenceHigh : option Decimal;
  SampleCount : Z; Aggregate_Unavailable : option UnavailableReason
}.
Definition Aggregate_Valid (r : AggregateResult) : bool :=
  if negb (Descriptor_Valid (Aggregate_Descriptor r)) || (SampleCount r <? 1) then false
  else if bool_decide (Aggregate_Status r = Unavailable) then
    none (Value r) && none (ConfidenceLow r) && none (ConfidenceHigh r) && reason_valid (Aggregate_Unavailable r)
  else bool_decide (Aggregate_Status r = Available) && negb (none (Value r)) && negb (none (ConfidenceLow r)) &&
       negb (none (ConfidenceHigh r)) && none (Aggregate_Unavailable r).

(** [unavailableReason]: the distinct items, sorted. *)
Definition unavailableReason (missing : list string) : UnavailableReason :=
  mkReason "MISSING_STRUCTURED_INPUT" (sort_strings (elements (list_to_set (C := gset string) missing)))
    "Required structured observations are unavailable".

(** The variables of the loop of [reduceModule]: the running total with the
    bounds, set together, and the missing inputs. *)
Record reduction := mkReduction { running : option (Decimal * Decimal * Decimal); missing : list string }.

Definition reduce_sample (m : Module_) (acc : reduction) (s : Sample) : result reduction MetricError :=
  let? r := Evaluate m s in
  if negb (Result_Valid r) || negb (bool_decide (Result_Descriptor r = Module_Descriptor m))
  then Err (ErrReductionInvalid "metric module contract mismatch")
  else if bool_decide (Result_Status r = Unavailable) then
    Ok (mkReduction (running acc)
          (missing acc ++ match Result_Unavailable r with Some u => Missing u | None => [] end))
  else match Result_Value r with
  | None => Ok acc
  | Some v =>
      match running acc with
      | None => Ok (mkReduction (Some (v, v, v)) (missing acc))
      | Some (total, low, high) =>
          let? total := add_decimal total v in
          Ok (mkReduction (Some (total, if Compare v low <? 0 then v else low, if 0 <? Compare v high then v else high))
                (missing acc))
      end
  end.

Definition reduceModule (m : Module_) (samples : list Sample) : result AggregateResult MetricError :=
  let d := Module_Descriptor m in
  let n := Z.of_nat (length samples) in
  let? acc := foldr_result (reduce_sample m) (mkReduction None []) samples in
  match running acc, missing acc with
  | Some (total, low, high), [] =>
      match ParseDecimal (Itoa n) with
      | Err message => Err (ArithmeticError message)
      | Ok count =>
          match Divide total count with
          | Err message => Err (ArithmeticError message)
          | Ok mean => Ok (mkAggregate d Available (Some mean) (Some low) (Some high) n None)
          end
      end
  | _, _ => Ok (mkAggregate d Unavailable None None None n (Some (unavailableReason (missing acc))))
  end.

(** The checks on the samples sorted by ordinal. *)
Fixpoint check_ordered (expected : Z) (index : Z) (previous : option Z) (l : list Sample) : result unit MetricError :=
  match l with
  | [] => Ok tt
  | s :: l' =>
      if negb (bool_decide (Sample_Status s = SampleUnset)) && negb (bool_decide (Sample_Status s = SampleSucceeded))
      then Err (ErrReductionInvalid "sample status")
      else if bool_decide (previous = Some (Sample_Ordinal s)) then Err (ErrReductionInvalid "duplicate sample ordinal")
      else if (0 <? expected) && negb (Sample_Ordinal s =? index) then Err (ErrReductionInvalid "incomplete ordinal set")
      else check_ordered expected (index + 1) (Some (Sample_Ordinal s)) l'
  end.

(** The safe point before every metric; its answer may depend on the call. *)
Definition Check_ : Type := nat -> option string.

Fixpoint reduce_all (registry : Registry) (check : option Check_) (i : nat) (ordered : list Sample) (ds : list Descriptor) :
    result (list AggregateResult) MetricError :=
  match ds with
  | [] => Ok []
  | d :: ds' =>
      match (match check with Some c => c i | None => None end) with
      | Some message => Err (CheckError message)
      | None =>
          match registry !! Descriptor_ID d with
          | None => Err (ErrMetricRegistryInvalid "")
          | Some m =>
              let? r := reduceModule m ordered in
              let? rs := reduce_all registry check (S i) ordered ds' in
              Ok (r :: rs)
          end
      end
  end.

Definition by_ordinal : Sample -> Sample -> bool := less_on Sample_Ordinal Z.ltb.

Definition reduce (registry : option Registry) (samples : list Sample) (expected : Z) (check : option Check_) :
    result (list AggregateResult) MetricError :=
  match registry with
  | None => Err (ErrReductionInvalid "")
  | Some registry =>
      if bool_decide (samples = []) then Err (ErrReductionInvalid "")
      else if (0 <? expected) && negb (Z.of_nat (length samples) =? expected)
      then Err (ErrReductionInvalid "sample count")
      else
        let ordered := sort_by by_ordinal samples in
        let? _ := check_ordered expected 0 None ordered in
        reduce_all registry check 0 ordered (Descriptors registry)
  end.

Definition Reduce (registry : option Registry) (samples : list Sample) := reduce registry samples 0 None.
Definition ReduceExpectedWithCheck (registry : option Registry) (samples : list Sample) (expected : Z) (check : option Check_) :=
  if expected <? 1 then Err (ErrReductionInvalid "") else reduce registry samples expected check.
Definition ReduceExpected (registry : option Registry) (samples : list Sample) (expected : Z) :=
  ReduceExpectedWithCheck registry samples expected None.
End metric.

(** ** What a reduction guarantees *)
Section reduction_facts.
Context `{UnicodeTables, ApdLib}.
Notation Registry := (gmap string Module_).

Lemma check_ordered_distinct expected index prev l :
  StronglySorted (not_after by_ordinal) l -> check_ordered expected index prev l = Ok tt ->
  (forall p s, prev = Some p -> s ∈ l -> p <= Sample_Ordinal s) ->
  (forall p s, prev = Some p -> s ∈ l -> p <> Sample_Ordinal s) /\ NoDup (Sample_Ordinal <$> l).
Proof.
  revert index prev. induction l as [|s l IH]; intros index prev Hs Hc Hle; simpl in *.
  { split; [intros p s _ Hin; by apply elem_of_nil in Hin|constructor]. }
  revert Hc. case_guard; [done|]. case_guard as Hp; [done|]. case_guard; [done|]. intros Hc. apply bool_decide_eq_false in Hp.
  apply StronglySorted_cons in Hs as [Hall Hs]. rewrite Forall_forall in Hall.
  assert (forall t, t ∈ l -> Sample_Ordinal s <= Sample_Ordinal t) as Hge.
  { intros t Ht. specialize (Hall t Ht). unfold not_after, by_ordinal, less_on in Hall. bool_to_prop. lia. }
  destruct (IH _ _ Hs Hc) as [Hne Hnd]; [intros p t [= <-]; apply Hge|].
  split.
  - intros p t -> [->|Ht]%elem_of_cons; [congruence|]. specialize (Hne (Sample_Ordinal s) t eq_refl Ht).
    pose proof (Hle p s eq_refl ltac:(left)). pose proof (Hge t Ht). lia.
  - constructor; [|done]. intros (t & Ht & Hin)%list_elem_of_fmap.
    by apply (Hne (Sample_Ordinal s) t eq_refl Hin).
Qed.

Lemma reduce_Ok registry samples expected check results :
  reduce registry samples expected check = Ok results ->
  exists r, registry = Some r /\ samples <> [] /\ NoDup (Sample_Ordinal <$> samples) /\
    check_ordered expected 0 None (sort_by by_ordinal samples) = Ok tt /\
    reduce_all r check 0 (sort_by by_ordinal samples) (Descriptors r) = Ok results.
Proof.
  unfold reduce. destruct registry as [r|]; [|done]. case_bool_decide as Hne; [done|]. case_guard; [done|].
  intros ([] & Hc & Hr)%result_bind_Ok. exists r. split; [done|]. split; [done|]. split; [|done].
  destruct (check_ordered_distinct _ _ _ _ (sort_by_sorted by_ordinal samples) Hc) as [_ Hnd]; [done|].
  by rewrite sort_by_perm in Hnd.
Qed.

(** The reduction of a run does not depend on the order in which its workers
    complete the samples. *)
Theorem reduce_order_independent registry samples samples' expected check results :
  samples ≡ₚ samples' -> reduce registry samples expected check = Ok results ->
  reduce registry samples' expected check = Ok results.
Proof.
  intros Hp Hr. rewrite <- Hr. apply reduce_Ok in Hr as (r & -> & Hne & Hnd & _).
  unfold reduce. rewrite <- (Permutation_length Hp).
  rewrite (bool_decide_false (samples = [])) by done.
  rewrite (bool_decide_false (samples' = [])) by (intros ->; by apply Hne, Permutation_nil_r).
  rewrite (sort_by_unique_on by_ordinal samples samples'); [done| |done].
  intros x y Hx Hy Hxy Hyx. unfold by_ordinal, less_on in *. bool_to_prop.
  apply list_elem_of_lookup in Hx as [i Hi], Hy as [j Hj].
  assert (i = j) as ->; [|congruence].
  eapply NoDup_lookup; [exact Hnd| |]; rewrite list_lookup_fmap; [by rewrite Hi|rewrite Hj; simpl; f_equal; lia].
Qed.

(** *** One module over the samples *)
Lemma reduce_sample_Ok m acc s acc' :
  reduce_sample m acc s = Ok acc' ->
  exists r, Evaluate m s = Ok r /\ Result_Valid r = true /\ Result_Descriptor r = Module_Descriptor m /\
  ((exists u, Result_Status r = Unavailable /\ Result_Unavailable r = Some u /\ Missing u <> [] /\
      acc' = mkReduction (running acc) (missing acc ++ Missing u)) \/
   (exists v, Result_Status r = Available /\ Result_Value r = Some v /\ missing acc' = missing acc /\
      match running acc, running acc' with
      | None, Some (t, l, h) => l = v /\ h = v
      | Some (t, l, h), Some (t', l', h') =>
          l' = (if Compare v l <? 0 then v else l) /\ h' = (if 0 <? Compare v h then v else h)
      | _, _ => False
      end)).
Proof.
  unfold reduce_sample. intros (r & Hr & Hacc)%result_bind_Ok. revert Hacc. case_guard as Hg; [done|].
  bool_to_prop. intros Hacc. exists r. split; [done|]. split; [done|]. split; [done|].
  assert (Hv : Result_Valid r = true) by done. unfold Result_Valid in Hv. apply andb_prop in Hv as [_ Hv].
  destruct (decide (Result_Status r = Unavailable)) as [Hu|Hu].
  - left. rewrite (bool_decide_true (Result_Status r = Unavailable)) in Hacc by done.
    rewrite Hu in Hv. simpl in Hv. apply andb_prop in Hv as [_ Hv]. unfold reason_valid in Hv.
    destruct (Result_Unavailable r) as [u|] eqn:E; [|done]. injection Hacc as <-. exists u.
    split; [done|]. split; [done|]. split; [|done]. unfold Reason_Valid in Hv. intros Hnil. rewrite Hnil in Hv.
    by rewrite andb_false_r in Hv.
  - right. rewrite (bool_decide_false (Result_Status r = Unavailable)) in Hacc by done.
    rewrite (bool_decide_false (Result_Status r = Unavailable)) in Hv by done.
    rewrite orb_false_r in Hv. bool_to_prop.
    destruct (Result_Value r) as [v|] eqn:E; [|done]. exists v.
    destruct (running acc) as [[[t l] h]|] eqn:Er.
    + apply result_bind_Ok in Hacc as (t' & _ & [= <-]). done.
    + injection Hacc as <-. done.
Qed.

(** The value of a sample, as the module evaluates it. *)
Definition sample_value (m : Module_) (s : Sample) (v : Decimal) : Prop :=
  exists r, Evaluate m s = Ok r /\ Result_Status r = Available /\ Result_Value r = Some v.

Lemma compare_refl `{!ApdOrder} v : Compare v v = 0.
Proof. apply cmp_refl. Qed.

(** What holds of the reduction of the samples processed so far. *)
Definition bounds_so_far (m : Module_) (processed : list Sample) (acc : reduction) : Prop :=
  (processed <> [] -> running acc <> None \/ missing acc <> []) /\
  (running acc = None -> forall s v, s ∈ processed -> ~ sample_value m s v) /\
  forall t l h, running acc = Some (t, l, h) ->
    (exists s, s ∈ processed /\ sample_value m s l) /\ (exists s, s ∈ processed /\ sample_value m s h) /\
    forall s v, s ∈ processed -> sample_value m s v -> Compare l v <= 0 /\ Compare v h <= 0.

Lemma bounds_step `{!ApdOrder} m processed a acc acc' :
  bounds_so_far m processed acc -> reduce_sample m acc a = Ok acc' -> bounds_so_far m (processed ++ [a]) acc'.
Proof.
  intros (Hsome & Hnone & Hb) (r & Hr & _ & _ & [(u & Hs & _ & Hne & ->)|(v & Hs & Hv & Hm & Hacc)])%reduce_sample_Ok.
  - assert (forall w, ~ sample_value m a w) as Hna by (intros w (r' & Hr' & Hs' & _); congruence).
    split; [|split]; simpl.
    + intros _. right. by intros [_ ?]%app_eq_nil.
    + intros Hrun s w [Hin|Hin]%elem_of_app; [by apply Hnone|]. by apply list_elem_of_singleton in Hin as ->.
    + intros t l h Hrun. destruct (Hb t l h Hrun) as ((sl & Hsl & Hl) & (sh & Hsh & Hh) & Hall).
      split; [exists sl; split; [set_solver|done]|]. split; [exists sh; split; [set_solver|done]|].
      intros s w [Hin|Hin]%elem_of_app; [by apply Hall|].
      apply list_elem_of_singleton in Hin as ->. intros Hw. by apply Hna in Hw.
  - assert (sample_value m a v) as Ha by (exists r; done).
    assert (forall w, sample_value m a w -> w = v) as Huniq.
    { intros w (r' & Hr' & _ & Hw). congruence. }
    assert (Hself : Compare v v <= 0) by (rewrite compare_refl; lia).
    assert (running acc' <> None) as Hrun'.
    { destruct (running acc) as [[[? ?] ?]|], (running acc') as [[[? ?] ?]|]; done. }
    split; [auto|]. split; [done|].
    intros t' l' h' Hrun. rewrite Hrun in Hacc. destruct (running acc) as [[[t l] h]|] eqn:Er.
    + destruct (Hb t l h eq_refl) as ((sl & Hsl & Hl) & (sh & Hsh & Hh) & Hall), Hacc as [-> ->].
      assert (Hlow : Compare (if Compare v l <? 0 then v else l) l <= 0 /\ Compare (if Compare v l <? 0 then v else l) v <= 0).
      { destruct (Compare v l <? 0) eqn:E; bool_to_prop; [lia|]. rewrite compare_refl.
        unfold Compare in *. rewrite (cmp_swap (value v)). lia. }
      assert (Hhigh : Compare h (if 0 <? Compare v h then v else h) <= 0 /\ Compare v (if 0 <? Compare v h then v else h) <= 0).
      { destruct (0 <? Compare v h) eqn:E; bool_to_prop; [|rewrite compare_refl; lia]. split; [|done].
        unfold Compare in *. rewrite (cmp_swap (value v)). lia. }
      split; [destruct (Compare v l <? 0); [exists a|exists sl]; (split; [set_solver|done])|].
      split; [destruct (0 <? Compare v h); [exists a|exists sh]; (split; [set_solver|done])|].
      intros s w [Hin|Hin]%elem_of_app Hw.
      * destruct (Hall s w Hin Hw) as [Hlo Hhi]. destruct Hlow as [Hl1 _], Hhigh as [Hh1 _].
        split; [exact (cmp_trans _ _ _ Hl1 Hlo) | exact (cmp_trans _ _ _ Hhi Hh1)].
      * apply list_elem_of_singleton in Hin as ->. rewrite (Huniq w Hw). split; [apply Hlow | apply Hhigh].
    + destruct Hacc as [-> ->].
      split; [exists a; split; [set_solver|done]|]. split; [exists a; split; [set_solver|done]|].
      intros s w [Hin|Hin]%elem_of_app Hw; [by apply (Hnone eq_refl s w) in Hw|].
      apply list_elem_of_singleton in Hin as ->. by rewrite (Huniq w Hw).
Qed.

Lemma bounds_all `{!ApdOrder} m samples acc :
  foldr_result (reduce_sample m) (mkReduction None []) samples = Ok acc -> bounds_so_far m samples acc.
Proof.
  apply (foldr_result_inv (reduce_sample m) (bounds_so_far m)); [|intros; by eapply bounds_step].
  split; [done|]. split; [|done]. intros _ s v Hin. by apply elem_of_nil in Hin.
Qed.

Lemma reduceModule_cases m samples a :
  reduceModule m samples = Ok a ->
  exists acc, foldr_result (reduce_sample m) (mkReduction None []) samples = Ok acc /\
    Aggregate_Descriptor a = Module_Descriptor m /\ SampleCount a = Z.of_nat (length samples) /\
    ((exists t l h mean, running acc = Some (t, l, h) /\ missing acc = [] /\
        a = mkAggregate (Module_Descriptor m) Available (Some mean) (Some l) (Some h) (Z.of_nat (length samples)) None) \/
     ((running acc = None \/ missing acc <> []) /\
        a = mkAggregate (Module_Descriptor m) Unavailable None None None (Z.of_nat (length samples))
              (Some (unavailableReason (missing acc))))).
Proof.
  unfold reduceModule. intros (acc & Hacc & Ha)%result_bind_Ok. exists acc. split; [done|].
  destruct (running acc) as [[[t l] h]|] eqn:Er; cycle 1.
  { injection Ha as <-. split; [done|]. split; [done|]. right. auto. }
  destruct (missing acc) as [|x xs] eqn:Em.
  - destruct (ParseDecimal _) as [count|]; [|done]. destruct (Divide t count) as [mean|]; [|done]. injection Ha as <-.
    split; [done|]. split; [done|]. left. eauto 10.
  - injection Ha as <-. split; [done|]. split; [done|]. right. split; [by right|done].
Qed.

(** The confidence interval of an available metric is tight: its bounds are
    values of samples, and no sample value lies outside. *)
Theorem confidence_interval_tight `{!ApdOrder} m samples a low high :
  reduceModule m samples = Ok a -> ConfidenceLow a = Some low -> ConfidenceHigh a = Some high ->
  (exists s, s ∈ samples /\ sample_value m s low) /\ (exists s, s ∈ samples /\ sample_value m s high) /\
  forall s v, s ∈ samples -> sample_value m s v -> Compare low v <= 0 /\ Compare v high <= 0.
Proof.
  intros (acc & Hacc & _ & _ & [(t & l & h & mean & Hr & _ & ->)|[_ ->]])%reduceModule_cases; [|done].
  simpl. intros [= <-] [= <-]. apply bounds_all in Hacc as (_ & _ & Hb). by eapply Hb.
Qed.

(** *** The shape of the results *)
Lemma unavailableReason_valid missing : missing <> [] -> Reason_Valid (unavailableReason missing) = true.
Proof.
  intros Hne. unfold Reason_Valid. simpl. apply Z.ltb_lt.
  assert (sort_strings (elements (list_to_set (C := gset string) missing)) <> []) as Hs.
  { intros Hnil. destruct missing as [|x xs]; [done|].
    assert (x ∈ sort_strings (elements (list_to_set (C := gset string) (x :: xs)))) as Hx.
    { unfold sort_strings. rewrite elem_of_sort_by, elem_of_elements, elem_of_list_to_set. left. }
    rewrite Hnil in Hx. by apply elem_of_nil in Hx. }
  destruct (sort_strings _); [done|simpl; lia].
Qed.

Lemma reduceModule_valid `{!ApdOrder} m samples a :
  Descriptor_Valid (Module_Descriptor m) = true -> samples <> [] ->
  reduceModule m samples = Ok a -> Aggregate_Valid a = true.
Proof.
  intros Hd Hne Ha. assert (Hlen : (Z.of_nat (length samples) <? 1) = false).
  { apply Z.ltb_ge. destruct samples; [done|simpl; lia]. }
  apply reduceModule_cases in Ha as (acc & Hacc & _ & _ & [(t & l & h & mean & _ & _ & ->)|[Hor ->]]);
    unfold Aggregate_Valid; simpl; rewrite Hd, Hlen; [done|].
  apply bounds_all in Hacc as (Hsome & _ & _). apply unavailableReason_valid.
  destruct (Hsome Hne) as [Hrun|]; [|done]. by destruct Hor.
Qed.

Definition registry_ok (r : Registry) : Prop :=
  map_Forall (fun id m => Descriptor_ID (Module_Descriptor m) = id /\ Descriptor_Valid (Module_Descriptor m) = true) r.

Lemma NewRegistry_registry_ok modules r : NewRegistry modules = Ok r -> registry_ok r.
Proof.
  unfold NewRegistry. intros (r' & Hr & Hne)%result_bind_Ok. revert Hne. case_bool_decide; [done|]. intros [= <-].
  refine (foldr_result_inv register_module (fun _ => registry_ok) ∅ modules r' _ _ Hr).
  - unfold registry_ok. apply map_Forall_empty.
  - intros _ [m|] s1 s2 Hok; simpl; [|done]. case_guard as Hv; [done|]. case_guard; [done|]. intros [= <-].
    intros id m' Hm'. apply lookup_insert_Some in Hm' as [[<- <-]|[_ Hm']]; [by bool_to_prop|].
    by apply Hok.
Qed.

Lemma Descriptors_ids r : registry_ok r -> StronglySorted (fun a b => String.ltb (Descriptor_ID a) (Descriptor_ID b) = true) (Descriptors r).
Proof.
  intros Hok. set (ids := (map_to_list r).*1).
  assert (Hids : Descriptor_ID <$> (Module_Descriptor <$> (map_to_list r).*2) = ids).
  { unfold ids. rewrite <- !list_fmap_compose. apply list_fmap_ext. intros i [id m] Hi. simpl.
    apply list_elem_of_lookup_2, elem_of_map_to_list in Hi. by destruct (Hok id m Hi). }
  assert (NoDup (Descriptor_ID <$> Descriptors r)) as Hnd.
  { unfold Descriptors. rewrite sort_by_perm, Hids. apply NoDup_fst_map_to_list. }
  pose proof (sort_by_sorted (less_on Descriptor_ID String.ltb) (Module_Descriptor <$> (map_to_list r).*2)) as Hs.
  fold (Descriptors r) in Hs. revert Hs Hnd. generalize (Descriptors r). clear.
  induction l as [|d l IH]; intros Hs Hnd; [constructor|]. apply StronglySorted_cons in Hs as [Hd Hs].
  simpl in Hnd. apply NoDup_cons in Hnd as [Hn Hnd]. constructor; [by apply IH|].
  rewrite Forall_forall in *. intros e He. specialize (Hd e He). unfold not_after, less_on in Hd.
  destruct (String.ltb (Descriptor_ID d) (Descriptor_ID e)) eqn:E; [done|]. exfalso. apply Hn.
  rewrite (st_total (less := String.ltb) _ _ E Hd). by apply list_elem_of_fmap_2.
Qed.

Lemma reduce_all_Ok `{!ApdOrder} r check i ordered ds results :
  registry_ok r -> ordered <> [] -> reduce_all r check i ordered ds = Ok results ->
  Aggregate_Descriptor <$> results = (fun d => default d (Module_Descriptor <$> r !! Descriptor_ID d)) <$> ds /\
  Forall (fun a => Aggregate_Valid a = true) results.
Proof.
  intros Hok Hne. revert i results. induction ds as [|d ds IH]; intros i results; simpl; [by intros [= <-]|].
  destruct (match check with Some c => c i | None => None end); [done|].
  destruct (r !! Descriptor_ID d) as [m|] eqn:Hm; [|done].
  intros (a & Ha & (rest & Hrest & [= <-])%result_bind_Ok)%result_bind_Ok.
  destruct (IH _ _ Hrest) as [IH1 IH2]. destruct (Hok _ _ Hm) as [_ Hv]. split.
  - rewrite !fmap_cons, IH1. f_equal. simpl. by apply reduceModule_cases in Ha as (? & _ & ? & _).
  - constructor; [by eapply reduceModule_valid|done].
Qed.

Lemma Descriptors_lookup r d :
  registry_ok r -> d ∈ Descriptors r -> Module_Descriptor <$> r !! Descriptor_ID d = Some d.
Proof.
  intros Hok. unfold Descriptors. rewrite elem_of_sort_by.
  intros (m & -> & ([id m'] & -> & Hin)%list_elem_of_fmap)%list_elem_of_fmap. simpl.
  apply elem_of_map_to_list in Hin. destruct (Hok id m' Hin) as [-> _]. by rewrite Hin.
Qed.

(** A reduction returns one valid aggregate per registered metric, in the
    strict order of the metric identities. *)
Theorem reduce_complete_and_valid `{!ApdOrder} modules r samples expected check results :
  NewRegistry modules = Ok r -> reduce (Some r) samples expected check = Ok results ->
  Aggregate_Descriptor <$> results = Descriptors r /\
  Forall (fun a => Aggregate_Valid a = true) results /\
  StronglySorted (fun a b => String.ltb (Descriptor_ID a) (Descriptor_ID b) = true) (Aggregate_Descriptor <$> results).
Proof.
  intros Hok%NewRegistry_registry_ok (r' & [= <-] & Hne & _ & _ & Hr)%reduce_Ok.
  apply reduce_all_Ok in Hr as [Hd Hv]; [|done|by intros Hnil%(f_equal length); rewrite length_sort_by in Hnil; destruct samples].
  assert (Aggregate_Descriptor <$> results = Descriptors r) as ->; [|split; [done|]; split; [done|by apply Descriptors_ids]].
  rewrite Hd. rewrite <- (list_fmap_id (Descriptors r)) at 2. apply list_fmap_ext. intros i d Hi. simpl.
  apply list_elem_of_lookup_2 in Hi. by rewrite Descriptors_lookup.
Qed.

(** *** The observation modules keep the contract of the reduction *)
Lemma observation_contract d id s r :
  Descriptor_Valid d = true -> Evaluate (observationModule d id) s = Ok r ->
  Result_Valid r = true /\ Result_Descriptor r = d.
Proof.
  intros Hd. simpl. unfold observation_Evaluate. intros ([v|] & _ & [= <-])%result_bind_Ok; unfold Result_Valid; simpl; rewrite Hd; done.
Qed.

Lemma reduce_sample_contract d id acc s detail :
  Descriptor_Valid d = true -> reduce_sample (observationModule d id) acc s <> Err (ErrReductionInvalid detail).
Proof.
  intros Hd. unfold reduce_sample. destruct (Evaluate (observationModule d id) s) as [r|e] eqn:E; simpl.
  - destruct (observation_contract _ _ _ _ Hd E) as [Hv Hr]. rewrite Hv, Hr. simpl. rewrite bool_decide_true by done. simpl.
    case_guard; [done|]. destruct (Result_Value r) as [v|]; [|done]. destruct (running acc) as [[[t l] h]|]; [|done].
    unfold add_decimal. by destruct (Add t v).
  - intros [= ->]. simpl in E. unfold observation_Evaluate in E.
    destruct (foldr_result (observe d id) None (Observations s)) as [[v|]|e] eqn:Ef; [done..|]. simpl in E.
    injection E as ->. revert Ef. generalize (@None Decimal). induction (Observations s) as [|o os IH]; intros t; simpl; [done|].
    destruct (observe d id t o) as [t'|e] eqn:Eo; simpl; [apply IH|]. intros [= ->]. unfold observe in Eo.
    revert Eo. case_guard; [done|]. case_guard; [done|]. destruct t as [t|]; [|done]. unfold add_decimal.
    by destruct (Add t (Observation_Value o)).
Qed.

(** The contract check of the reduction never fails on an observation module
    with a valid descriptor: only arithmetic and unit errors remain. *)
Theorem observation_modules_keep_contract d id samples detail :
  Descriptor_Valid d = true -> reduceModule (observationModule d id) samples <> Err (ErrReductionInvalid detail).
Proof.
  intros Hd. unfold reduceModule.
  assert (forall acc, foldr_result (reduce_sample (observationModule d id)) acc samples <> Err (ErrReductionInvalid detail)) as Hf.
  { induction samples as [|s l IH]; intros acc; simpl; [done|].
    destruct (reduce_sample (observationModule d id) acc s) as [acc'|e] eqn:E; simpl; [apply IH|].
    intros [= ->]. by apply (reduce_sample_contract d id acc s detail Hd). }
  destruct (foldr_result _ _ samples) as [acc|e] eqn:E; simpl; [|intros [= ->]; by eapply Hf].
  destruct (running acc) as [[[t l] h]|]; [|done]. destruct (missing acc); [|done].
  destruct (ParseDecimal _); [|done]. by destruct (Divide _ _).
Qed.
End reduction_facts.

Module MetricExamples.
#[local] Existing Instance integer_apd.
#[local] Existing Instance integer_apd_order.

Definition dps : Module_ :=
  v1_module "metric-dps" "damage_per_second" "points_per_second" HigherIsRisk None "structured_damage_events".
Definition dps_registry : gmap string Module_ := <[Descriptor_ID (Module_Descriptor dps) := dps]> ∅.
Lemma dps_registry_new : NewRegistry [Some dps] = Ok dps_registry.
Proof.
  assert (Hv : Descriptor_Valid (Module_Descriptor dps) = true) by (vm_compute; reflexivity).
  unfold NewRegistry, foldr_result, register_module. rewrite Hv. cbn [negb].
  rewrite (bool_decide_false (is_Some (∅ !! _))) by (rewrite lookup_empty; by intros [? ?]). cbn [result_bind].
  fold dps_registry. rewrite bool_decide_false; [done|].
  unfold dps_registry. rewrite map_size_insert_None by apply lookup_empty. by rewrite map_size_empty.
Qed.

Definition hit (ordinal damage : Z) : Sample :=
  mkSample ordinal [mkObservation "damage_per_second" (mkDecimal (H0 := integer_apd) damage) "points_per_second"] SampleSucceeded.
Definition samples : list Sample := [hit 2 9; hit 0 3; hit 1 6].
Definition dps_result : AggregateResult :=
  mkAggregate (Module_Descriptor dps) Available (Some (mkDecimal (H0 := integer_apd) 6))
    (Some (mkDecimal (H0 := integer_apd) 3)) (Some (mkDecimal (H0 := integer_apd) 9)) 3 None.

Definition summary (r : result (list AggregateResult) MetricError) : list (option Z) :=
  match r with Ok l => (fun a => value <$> Value a) <$> l | Err _ => [] end.
Example reduced : summary (reduce (Some dps_registry) samples 3 None) = [Some 6].
Proof. vm_compute. reflexivity. Qed.

Lemma reduce_order_independent_witness :
  samples ≡ₚ rev samples /\
  exists results, reduce (Some dps_registry) samples 3 None = Ok results /\ reduce (Some dps_registry) (rev samples) 3 None = Ok results.
Proof.
  split; [apply Permutation_rev|].
  destruct (reduce (Some dps_registry) samples 3 None) as [results|e] eqn:E.
  - exists results. split; [reflexivity|].
    apply (reduce_order_independent (Some dps_registry) samples (rev samples) 3 None results); [apply Permutation_rev | exact E].
  - exfalso. pose proof reduced as R. rewrite E in R. discriminate R.
Defined.

Lemma reduce_complete_and_valid_witness :
  exists results, reduce (Some dps_registry) samples 3 None = Ok results /\
    Forall (fun a => Aggregate_Valid a = true) results.
Proof.
  destruct (reduce (Some dps_registry) samples 3 None) as [results|e] eqn:E.
  - exists results. split; [reflexivity|].
    exact (proj1 (proj2 (reduce_complete_and_valid [Some dps] dps_registry samples 3 None results dps_registry_new E))).
  - exfalso. pose proof reduced as R. rewrite E in R. discriminate R.
Defined.

Example dps_bounds :
  match reduceModule dps samples with
  | Ok a => (value <$> ConfidenceLow a, value <$> ConfidenceHigh a) | Err _ => (None, None)
  end = (Some 3, Some 9).
Proof. vm_compute. reflexivity. Qed.

Lemma confidence_interval_tight_witness :
  exists low high, value low = 3 /\ value high = 9 /\
    forall s v, s ∈ samples -> sample_value dps s v -> Compare low v <= 0 /\ Compare v high <= 0.
Proof.
  pose proof dps_bounds as Hb. destruct (reduceModule dps samples) as [a|e] eqn:E; [|discriminate Hb].
  destruct (ConfidenceLow a) as [low|] eqn:El; [|discriminate Hb].
  destruct (ConfidenceHigh a) as [high|] eqn:Eh; [|discriminate Hb].
  exists low, high. injection Hb as Hl Hh. split; [exact Hl|]. split; [exact Hh|].
  exact (proj2 (proj2 (confidence_interval_tight dps samples a low high E El Eh))).
Defined.

Lemma observation_modules_keep_contract_witness :
  Descriptor_Valid (Module_Descriptor dps) = true /\
  reduceModule dps samples <> Err (ErrReductionInvalid "metric module contract mismatch").
Proof.
  split; [vm_compute; reflexivity|].
  apply (observation_modules_keep_contract (Module_Descriptor dps) "damage_per_second" samples). vm_compute. reflexivity.
Defined.
End MetricExamples.
