(* ===== verification/VersionGate.v ===== *)
(** * internal/versioning: revision/types.go and registry.go, policy/types.go, gate

    Immutable revisions and their version manifests, release policies, the Gate
    registry, and the assessment of Gate results against a policy. *)
From S2P Require Import Prelude GoSort GoStrings Domain.
Open Scope Z_scope.

Definition blank (s : string) : bool := bool_decide (TrimSpace s = ""%string).

(** The packages' own [validHash]: 64 bytes, each rune a lower-case hex digit. *)
Definition validHash (value : string) : bool :=
  (string_len value =? 64) && forallb (fun '(r, _) => existsb (Z.eqb r) (bytes hex_digits)) (runes value).

(** ** revision/types.go *)
Inductive RegistrationState := Registered | Unregistered | RegistrationUnknown (spelling : string).
Global Instance RegistrationState_eq_dec : EqDecision RegistrationState.
Proof. solve_decision. Defined.

Record VersionEntry := mkVersionEntry {
  Entry_CapabilityID : string; Entry_ContractVersion : string; Entry_ImplementationVersion : string;
  Entry_State : RegistrationState
}.
Global Instance VersionEntry_eq_dec : EqDecision VersionEntry.
Proof. solve_decision. Defined.
Definition VersionEntry_Valid (v : VersionEntry) : bool :=
  negb (blank (Entry_CapabilityID v)) && negb (blank (Entry_ContractVersion v)) &&
  ((bool_decide (Entry_State v = Registered) && negb (blank (Entry_ImplementationVersion v))) ||
   (bool_decide (Entry_State v = Unregistered) && bool_decide (Entry_ImplementationVersion v = ""%string))).

Record VersionManifest := mkManifest { Entries : list VersionEntry }.
Definition VersionManifest_Valid (m : VersionManifest) : bool :=
  negb (bool_decide (Entries m = [])) && forallb VersionEntry_Valid (Entries m) &&
  nodupb (Entry_CapabilityID <$> Entries m).

Section versioning.
Context `{UnicodeTables, UuidLib}.

Record Metadata := mkMetadata {
  RevisionID : ID; ConfigHash : string; Metadata_Name : string; Description : string;
  ParentRevisionID : ID; SourceRevisionID : ID; SourceReleaseID : ID;
  Manifest : VersionManifest; ManifestHash : string; Metadata_CreatedAt : Time
}.
Definition Metadata_Valid (m : Metadata) : bool :=
  ID_Valid (RevisionID m) && validHash (ConfigHash m) && validHash (ManifestHash m) &&
  VersionManifest_Valid (Manifest m) && negb (IsZero (Metadata_CreatedAt m)).

Record Record_ := mkRecord { DisplayRevision : Z; Record_Metadata : Metadata }.
Definition Record_Valid (r : Record_) : bool := (0 <? DisplayRevision r) && Metadata_Valid (Record_Metadata r).

(** ** revision/registry.go: the startup contributors *)
Definition requiredCapabilities : list string := ["schema"; "dsl"; "validator-registry"; "numeric-policy"]%string.

(** The loop of [NewRegistry]: the entries so far; [seen] is their identities. *)
Definition contribute (expectedContracts : gmap string string) (entries : list VersionEntry)
    (contributor : option VersionEntry) : result (list VersionEntry) string :=
  match contributor with
  | None => Err "nil version contributor"%string
  | Some entry =>
      let id := Entry_CapabilityID entry in
      if negb (VersionEntry_Valid entry) then Err ("invalid version contributor " +:+ Quote id)%string
      else if bool_decide (id ∈ Entry_CapabilityID <$> entries) then Err ("duplicate version contributor " +:+ Quote id)%string
      else match expectedContracts !! id with
      | Some required =>
          if negb (bool_decide (required = Entry_ContractVersion entry))
          then Err ("incompatible version contributor " +:+ Quote id +:+ " contract " +:+ Quote (Entry_ContractVersion entry))%string
          else Ok (entries ++ [entry])%list
      | None => Ok (entries ++ [entry])%list
      end
  end.

Definition NewRegistry (expectedContracts : gmap string string) (contributors : list (option VersionEntry)) :
    result VersionManifest string :=
  if bool_decide (contributors = []) then Err "version contributors are required"%string
  else
    let? entries := foldr_result (contribute expectedContracts) [] contributors in
    match List.find (fun c => negb (bool_decide (c ∈ Entry_CapabilityID <$> entries))) requiredCapabilities with
    | Some capability => Err ("missing required version contributor " +:+ Quote capability)%string
    | None =>
        let manifest := mkManifest (sort_by (less_on Entry_CapabilityID String.ltb) entries) in
        if negb (VersionManifest_Valid manifest) then Err "invalid version manifest"%string else Ok manifest
    end.

Record CandidateContext := mkCandidate {
  Candidate_RevisionID : ID; Candidate_ConfigHash : string; Candidate_ManifestHash : string;
  Candidate_PolicyID : ID; BaselineReleaseID : ID
}.
#[global] Instance CandidateContext_eq_dec : EqDecision CandidateContext.
Proof. solve_decision. Defined.
Definition CandidateContext_Valid (c : CandidateContext) : bool :=
  ID_Valid (Candidate_RevisionID c) && ID_Valid (Candidate_PolicyID c) &&
  validHash (Candidate_ConfigHash c) && validHash (Candidate_ManifestHash c).

(** ** policy/types.go *)
Record Metric := mkMetric { Metric_ID : string; Metric_Required : bool }.
Record Scene := mkScene {
  Scene_ID : string; Scene_Version : string; Seed : option Z; Scene_Required : bool; Metrics : list Metric
}.
Record CapabilityRequirement := mkRequirement {
  CapabilityID : string; GateID : string; ContractVersion : string; ImplementationVersion : string
}.
Record Definition_ := mkDefinition {
  Scenes : list Scene; Samples : Z; ThresholdID : string; ThresholdOn : bool;
  Capabilities : list CapabilityRequirement
}.
Record ReleasePolicy := mkPolicy {
  Policy_Definition : Definition_; Policy_ID : ID; DisplayVersion : Z; CanonicalHash : string; Policy_CreatedAt : Time
}.

Definition separator : string := String (char_of 0) "".
Definition requirement_identity (capabilityID gateID : string) : string := (capabilityID +:+ separator +:+ gateID)%string.

Definition Scene_Valid (s : Scene) : bool :=
  negb (blank (Scene_ID s)) &&
  negb (negb (bool_decide (Scene_Version s = ""%string)) && blank (Scene_Version s)) &&
  forallb (fun m => negb (blank (Metric_ID m))) (Metrics s) && nodupb (Metric_ID <$> Metrics s).
Definition CapabilityRequirement_Valid (c : CapabilityRequirement) : bool :=
  negb (blank (CapabilityID c)) && negb (blank (GateID c)) && negb (blank (ContractVersion c)).

Definition Definition_Valid (d : Definition_) : bool :=
  if bool_decide (Scenes d = []) || (Samples d <? 1) || blank (ThresholdID d) || negb (ThresholdOn d) ||
     bool_decide (Capabilities d = []) then false
  else
    forallb Scene_Valid (Scenes d) && nodupb (Scene_ID <$> Scenes d) &&
    forallb CapabilityRequirement_Valid (Capabilities d) &&
    nodupb ((fun c => requirement_identity (CapabilityID c) (GateID c)) <$> Capabilities d) &&
    existsb (fun s => existsb Metric_Required (Metrics s)) (Scenes d).

Definition ReleasePolicy_Valid (p : ReleasePolicy) : bool :=
  ID_Valid (Policy_ID p) && (0 <? DisplayVersion p) && validHash (CanonicalHash p) &&
  negb (IsZero (Policy_CreatedAt p)) && Definition_Valid (Policy_Definition p).

(** The [ContractCatalog] interface is its one method. *)
Inductive PolicyError := ErrInvalidDefinition | ErrUnknownContract.
Definition ValidateContracts (d : Definition_) (catalog : option (CapabilityRequirement -> bool)) : result unit PolicyError :=
  if negb (Definition_Valid d) then Err ErrInvalidDefinition
  else match catalog with
  | None => Err ErrUnknownContract
  | Some supports => if forallb supports (Capabilities d) then Ok tt else Err ErrUnknownContract
  end.

(** ** gate/types.go *)
Inductive ResultState := Pass | Warning | Block | Unavailable | Stale | StateUnknown (spelling : string).
#[global] Instance ResultState_eq_dec : EqDecision ResultState.
Proof. solve_decision. Defined.
Definition ResultState_Valid (s : ResultState) : bool :=
  match s with StateUnknown _ => false | _ => true end.

Record Descriptor := mkDescriptor {
  Descriptor_CapabilityID : string; Descriptor_GateID : string; Descriptor_ContractVersion : string;
  Descriptor_ImplementationVersion : string; RequiredInputs : list string; SupportedStates : list ResultState;
  OverridableNumericBlock : bool
}.
Definition Descriptor_Valid (d : Descriptor) : bool :=
  if blank (Descriptor_CapabilityID d) || blank (Descriptor_GateID d) || blank (Descriptor_ContractVersion d) ||
     blank (Descriptor_ImplementationVersion d) || bool_decide (RequiredInputs d = []) ||
     bool_decide (SupportedStates d = []) then false
  else
    forallb (fun i => negb (blank i)) (RequiredInputs d) && nodupb (RequiredInputs d) &&
    forallb ResultState_Valid (SupportedStates d) && nodupb (SupportedStates d).

Record Evidence := mkEvidence { Evidence_ID : string; Evidence_Hash : string; Evidence_URL : string }.
Definition Evidence_Valid (e : Evidence) : bool := negb (blank (Evidence_ID e)) && (string_len (Evidence_Hash e) =? 64).

Record EvaluationContext := mkContext {
  Candidate : CandidateContext; PolicyHash : string; SceneID : string; MetricID : string;
  Context_ThresholdID : string; ImplementationVersions : gmap string string
}.
Definition EvaluationContext_Valid (c : EvaluationContext) : bool :=
  if negb (CandidateContext_Valid (Candidate c)) || negb (validHash (PolicyHash c)) ||
     bool_decide (size (ImplementationVersions c) = 0%nat) ||
     negb (Bool.eqb (bool_decide (SceneID c = ""%string)) (bool_decide (MetricID c = ""%string))) then false
  else forallb (fun '(capabilityID, version) => negb (blank capabilityID) && negb (blank version))
         (map_to_list (ImplementationVersions c)).

Record Result := mkResult {
  Result_ID : ID; Result_Descriptor : Descriptor; State : ResultState; Result_Evidence : list Evidence;
  ResultHash : string; Context_ : EvaluationContext
}.
Definition Result_Valid (r : Result) : bool :=
  ID_Valid (Result_ID r) && Descriptor_Valid (Result_Descriptor r) && ResultState_Valid (State r) &&
  validHash (ResultHash r) && EvaluationContext_Valid (Context_ r) &&
  bool_decide (State r ∈ SupportedStates (Result_Descriptor r)) && forallb Evidence_Valid (Result_Evidence r).

(** Exact agreement of a result's context with the expected one. *)
Definition same_context (expected actual : EvaluationContext) : bool :=
  bool_decide (Candidate actual = Candidate expected) && bool_decide (PolicyHash actual = PolicyHash expected) &&
  bool_decide (SceneID actual = SceneID expected) && bool_decide (MetricID actual = MetricID expected) &&
  bool_decide (Context_ThresholdID actual = Context_ThresholdID expected) &&
  bool_decide (ImplementationVersions actual = ImplementationVersions expected).

Definition EvaluateCandidate (candidate : CandidateContext) (policy : ReleasePolicy) (expected : EvaluationContext)
    (r : Result) : ResultState :=
  if negb (CandidateContext_Valid candidate) || negb (ReleasePolicy_Valid policy) ||
     negb (EvaluationContext_Valid expected) || negb (Result_Valid r) then Stale
  else if negb (bool_decide (Candidate expected = candidate)) ||
     negb (bool_decide (PolicyHash expected = CanonicalHash policy)) ||
     negb (bool_decide (Candidate_PolicyID (Candidate expected) = Policy_ID policy)) ||
     negb (same_context expected (Context_ r)) then Stale
  else if negb (bool_decide (default ""%string
            (ImplementationVersions (Context_ r) !! Descriptor_CapabilityID (Result_Descriptor r)) =
          Descriptor_ImplementationVersion (Result_Descriptor r))) then Stale
  else State r.

(** ** gate/policy_evaluator.go *)
Record Finding := mkFinding {
  Finding_CapabilityID : string; Finding_GateID : string; Finding_SceneID : string; Finding_MetricID : string;
  Required : bool; Finding_State : ResultState
}.
Record Assessment := mkAssessment { Assessment_State : ResultState; Findings : list Finding }.

(** [stateFor] *)
Definition stateFor (candidate : CandidateContext) (policy : ReleasePolicy) (required : bool) (r : option Result) : ResultState :=
  match r with
  | None => if required then Block else Warning
  | Some r =>
      let state := EvaluateCandidate candidate policy (Context_ r) r in
      let lost := bool_decide (state = Unavailable) || bool_decide (state = Stale) in
      if required && lost then Block else if negb required && lost then Warning else state
  end.

(** [add] *)
Definition add (a : Assessment) (f : Finding) : Assessment :=
  let state :=
    if bool_decide (Finding_State f = Block) then Block
    else if bool_decide (Finding_State f = Warning) && bool_decide (Assessment_State a = Pass) then Warning
    else Assessment_State a in
  mkAssessment state (Findings a ++ [f]).

Definition matches_capability (c : CapabilityRequirement) (r : Result) : bool :=
  bool_decide (Descriptor_CapabilityID (Result_Descriptor r) = CapabilityID c) &&
  bool_decide (Descriptor_GateID (Result_Descriptor r) = GateID c).
Definition matches_metric (s : Scene) (m : Metric) (r : Result) : bool :=
  bool_decide (SceneID (Context_ r) = Scene_ID s) && bool_decide (MetricID (Context_ r) = Metric_ID m).

Definition capability_finding candidate policy (results : list Result) (c : CapabilityRequirement) : Finding :=
  mkFinding (CapabilityID c) (GateID c) "" "" true
    (stateFor candidate policy true (List.find (matches_capability c) results)).
Definition metric_finding candidate policy (results : list Result) (s : Scene) (m : Metric) : Finding :=
  let required := Scene_Required s && Metric_Required m in
  mkFinding "" "" (Scene_ID s) (Metric_ID m) required
    (stateFor candidate policy required (List.find (matches_metric s m) results)).

Definition AssessPolicy (candidate : CandidateContext) (policy : ReleasePolicy) (results : list Result) : Assessment :=
  let d := Policy_Definition policy in
  let a := foldl (fun a c => add a (capability_finding candidate policy results c)) (mkAssessment Pass []) (Capabilities d) in
  foldl (fun a s => foldl (fun a m => add a (metric_finding candidate policy results s m)) a (Metrics s)) a (Scenes d).

(** ** gate/registry.go and gate/capability.go *)
Inductive GateError := ErrDescriptorInvalid | ErrDescriptorDuplicate | ErrDescriptorNotFound.
Definition Registry : Type := gmap string Descriptor.
Definition descriptorKey (capabilityID gateID : string) : string := requirement_identity capabilityID gateID.

Definition Register (r : Registry) (d : Descriptor) : result Registry GateError :=
  if negb (Descriptor_Valid d) then Err ErrDescriptorInvalid
  else
    let key := descriptorKey (Descriptor_CapabilityID d) (Descriptor_GateID d) in
    match r !! key with Some _ => Err ErrDescriptorDuplicate | None => Ok (<[key := d]> r) end.
Definition NewGateRegistry (descriptors : list Descriptor) : result Registry GateError :=
  foldr_result Register ∅ descriptors.
Definition RegisterProvider (r : Registry) (provider : option Descriptor) : result Registry GateError :=
  match provider with None => Err ErrDescriptorInvalid | Some d => Register r d end.
Definition Registry_Descriptor (r : Registry) (capabilityID gateID : string) : result Descriptor GateError :=
  match r !! descriptorKey capabilityID gateID with Some d => Ok d | None => Err ErrDescriptorNotFound end.

Definition compatible (d : Descriptor) (c : CapabilityRequirement) : bool :=
  bool_decide (Descriptor_ContractVersion d = ContractVersion c) &&
  (bool_decide (ImplementationVersion c = ""%string) ||
   bool_decide (Descriptor_ImplementationVersion d = ImplementationVersion c)).
Definition SupportsCapabilityContract (r : Registry) (c : CapabilityRequirement) : bool :=
  match Registry_Descriptor r (CapabilityID c) (GateID c) with Ok d => compatible d c | Err _ => false end.

Record DisabledReason := mkReason { Reason_CapabilityID : string; Reason_GateID : string; Reason : string }.
Record ReleaseCapability := mkCapability { Enabled : bool; Reasons : list DisabledReason }.

Definition disabled_reason (r : option Registry) (c : CapabilityRequirement) : string :=
  match r with
  | None => "gate registry unavailable"
  | Some r =>
      match Registry_Descriptor r (CapabilityID c) (GateID c) with
      | Err _ => "required gate is unregistered"
      | Ok d => if compatible d c then "" else "required gate contract is incompatible"
      end
  end%string.

Definition CalculateReleaseCapability (r : option Registry) (policy : ReleasePolicy) : ReleaseCapability :=
  if negb (ReleasePolicy_Valid policy) then mkCapability false [mkReason "" "" "invalid release policy"]
  else
    foldl (fun capability c =>
      let reason := disabled_reason r c in
      if bool_decide (reason = ""%string) then capability
      else mkCapability false (Reasons capability ++ [mkReason (CapabilityID c) (GateID c) reason]))
      (mkCapability true []) (Capabilities (Policy_Definition policy)).
End versioning.

(** ** What an assessment says *)
Section assessment.
Context `{UnicodeTables, UuidLib}.
Context (candidate : CandidateContext) (policy : ReleasePolicy) (results : list Result).

(** One finding per required capability, then one per metric of every scene. *)
Definition expected_findings : list Finding :=
  (capability_finding candidate policy results <$> Capabilities (Policy_Definition policy)) ++
  (s ← Scenes (Policy_Definition policy); metric_finding candidate policy results s <$> Metrics s).

Lemma AssessPolicy_fold :
  AssessPolicy candidate policy results = foldl add (mkAssessment Pass []) expected_findings.
Proof.
  unfold AssessPolicy, expected_findings. rewrite foldl_app.
  assert (forall A (f : A -> Finding) l a, foldl (fun a c => add a (f c)) a l = foldl add a (f <$> l)) as Hmap.
  { intros A f l. induction l as [|x l IH]; intros a; simpl; [done|]. by rewrite IH. }
  rewrite Hmap. generalize (foldl add (mkAssessment Pass []) (capability_finding candidate policy results <$>
    Capabilities (Policy_Definition policy))).
  induction (Scenes (Policy_Definition policy)) as [|s l IH]; intros a; simpl; [done|].
  by rewrite foldl_app, <- IH, Hmap.
Qed.

(** The states a finding can have. *)
Definition finding_state (s : ResultState) : Prop := s = Pass \/ s = Warning \/ s = Block.

Lemma stateFor_states required r :
  (forall r, EvaluateCandidate candidate policy (Context_ r) r = Stale \/ ResultState_Valid (State r) = true) ->
  finding_state (stateFor candidate policy required r).
Proof.
  intros _. unfold finding_state, stateFor. destruct r as [r|]; [|destruct required; auto].
  assert (EvaluateCandidate candidate policy (Context_ r) r = Stale \/
    (EvaluateCandidate candidate policy (Context_ r) r = State r /\ ResultState_Valid (State r) = true)) as Hs.
  { unfold EvaluateCandidate. case_guard as Hg; [by left|]. repeat (case_guard; [by left|]). right. split; [done|].
    apply orb_false_elim in Hg as [_ Hg]. apply negb_false_iff in Hg. unfold Result_Valid in Hg. by bool_to_prop. }
  destruct Hs as [-> | [-> Hv]]; [destruct required; simpl; auto|].
  destruct (State r); try done; simpl; destruct required; simpl; auto.
Qed.

Lemma add_states fs a :
  finding_state (Assessment_State a) -> Forall (fun f => finding_state (Finding_State f)) fs ->
  let a' := foldl add a fs in
  Findings a' = Findings a ++ fs /\ finding_state (Assessment_State a') /\
  (Assessment_State a' = Block <-> Assessment_State a = Block \/ Exists (fun f => Finding_State f = Block) fs) /\
  (Assessment_State a' = Pass <-> Assessment_State a = Pass /\ Forall (fun f => Finding_State f = Pass) fs).
Proof.
  intros Ha Hfs. revert a Ha. induction Hfs as [|f fs Hf _ IH]; intros a Ha; simpl.
  { rewrite app_nil_r, Exists_nil. split; [done|]. split; [done|]. split; [tauto|]. split; [by intros|tauto]. }
  destruct (IH (add a f)) as (H1 & H2 & H3 & H4).
  { unfold add. simpl. destruct Hf as [-> | [-> | ->]], Ha as [-> | [-> | ->]]; vm_compute; auto. }
  split; [rewrite H1; simpl; by rewrite <- app_assoc|]. split; [done|].
  rewrite Exists_cons, Forall_cons, H3, H4.
  assert ((Assessment_State (add a f) = Block <-> Assessment_State a = Block \/ Finding_State f = Block) /\
          (Assessment_State (add a f) = Pass <-> Assessment_State a = Pass /\ Finding_State f = Pass)) as [-> ->]; [|tauto].
  unfold add. cbn [Assessment_State].
  destruct Hf as [-> | [-> | ->]], Ha as [-> | [-> | ->]]; vm_compute; intuition congruence.
Qed.

Lemma expected_states : Forall (fun f => finding_state (Finding_State f)) expected_findings.
Proof.
  assert (forall required r, finding_state (stateFor candidate policy required r)) as Hs.
  { intros required r. apply stateFor_states. intros r'. destruct (ResultState_Valid (State r')) eqn:E; [by right|left].
    unfold EvaluateCandidate. case_guard as Hg; [done|]. exfalso. apply orb_false_elim in Hg as [_ Hg].
    apply negb_false_iff in Hg. unfold Result_Valid in Hg. bool_to_prop. congruence. }
  unfold expected_findings. apply Forall_app. split.
  - apply Forall_fmap, Forall_true. intros c. apply Hs.
  - apply Forall_forall. intros f (s & Hf & _)%list_elem_of_bind. apply list_elem_of_fmap in Hf as (m & -> & _). apply Hs.
Qed.

(** The verdict is exactly the worst of its findings, one per requirement of
    the policy: it passes when all pass and blocks when any blocks. *)
Theorem assessment_is_worst_finding :
  let a := AssessPolicy candidate policy results in
  Findings a = expected_findings /\ finding_state (Assessment_State a) /\
  (Assessment_State a = Block <-> Exists (fun f => Finding_State f = Block) expected_findings) /\
  (Assessment_State a = Pass <-> Forall (fun f => Finding_State f = Pass) expected_findings).
Proof.
  intros a. unfold a. rewrite AssessPolicy_fold.
  destruct (add_states expected_findings (mkAssessment Pass []) ltac:(by left) expected_states) as (H1 & H2 & H3 & H4).
  split; [done|]. split; [done|]. rewrite H3, H4. simpl. split; [|tauto]. split; [|by right]. by intros [|].
Qed.

(** A result that is evidence for the candidate under the policy. *)
Definition passing_evidence (r : Result) : Prop :=
  r ∈ results /\ Result_Valid r = true /\ State r = Pass /\ Candidate (Context_ r) = candidate /\
  PolicyHash (Context_ r) = CanonicalHash policy /\
  ImplementationVersions (Context_ r) !! Descriptor_CapabilityID (Result_Descriptor r) =
    Some (Descriptor_ImplementationVersion (Result_Descriptor r)).

Lemma EvaluateCandidate_not_stale expected r :
  EvaluateCandidate candidate policy expected r <> Stale ->
  EvaluateCandidate candidate policy expected r = State r /\ Result_Valid r = true /\ Context_ r = expected /\
  Candidate expected = candidate /\ PolicyHash expected = CanonicalHash policy /\
  ImplementationVersions expected !! Descriptor_CapabilityID (Result_Descriptor r) =
    Some (Descriptor_ImplementationVersion (Result_Descriptor r)).
Proof.
  unfold EvaluateCandidate. case_guard as H1; [done|]. case_guard as H2; [done|]. case_guard as H3; [done|]. intros _.
  unfold same_context in H2. bool_to_prop. split; [done|]. split; [done|].
  assert (Context_ r = expected) as Hc by (destruct (Context_ r), expected; simpl in *; congruence).
  split; [done|]. split; [done|]. split; [done|]. rewrite Hc in *.
  destruct (ImplementationVersions expected !! _) as [v|] eqn:E; simpl in *; [congruence|]. exfalso.
  match goal with Hv : Result_Valid r = true |- _ => unfold Result_Valid in Hv; bool_to_prop end.
  match goal with Hv : Descriptor_Valid _ = true |- _ => unfold Descriptor_Valid in Hv; revert Hv end.
  case_guard as Hb; [done|]. intros _. bool_to_prop.
  match goal with Hx : _ = Descriptor_ImplementationVersion _, Hy : blank (Descriptor_ImplementationVersion _) = false |- _ =>
    rewrite <- Hx in Hy; discriminate Hy end.
Qed.

Lemma stateFor_Pass required p :
  stateFor candidate policy required (List.find p results) = Pass ->
  exists r, passing_evidence r /\ p r = true.
Proof.
  unfold stateFor. destruct (List.find p results) as [r|] eqn:Hf; [|by destruct required].
  apply List.find_some in Hf as [Hin Hp]. apply list_elem_of_In in Hin.
  destruct (decide (EvaluateCandidate candidate policy (Context_ r) r = Stale)) as [->|Hs]; [by destruct required|].
  destruct (EvaluateCandidate_not_stale _ _ Hs) as (-> & Hv & _ & Hc & Hh & Hi).
  intros Hstate. exists r. split; [|done]. split; [done|]. split; [done|]. split; [|done].
  revert Hstate. case_guard; [done|]. by case_guard.
Qed.

(** A passing verdict is backed by passing evidence for every required
    capability and for every metric of every scene of the policy: evidence that
    is valid, bound to this candidate and policy, and evaluated by the
    implementation version its descriptor names. *)
Theorem passing_assessment_has_evidence :
  Assessment_State (AssessPolicy candidate policy results) = Pass ->
  (forall c, c ∈ Capabilities (Policy_Definition policy) ->
     exists r, passing_evidence r /\ matches_capability c r = true) /\
  (forall s m, s ∈ Scenes (Policy_Definition policy) -> m ∈ Metrics s ->
     exists r, passing_evidence r /\ matches_metric s m r = true).
Proof.
  rewrite AssessPolicy_fold. intros Hp.
  apply (add_states expected_findings (mkAssessment Pass []) ltac:(by left) expected_states) in Hp as [_ Hall].
  rewrite Forall_forall in Hall. unfold expected_findings in Hall. split.
  - intros c Hc. apply (stateFor_Pass true).
    apply (Hall (capability_finding candidate policy results c)). apply elem_of_app. left. by apply list_elem_of_fmap_2.
  - intros s m Hs Hm. apply (stateFor_Pass (Scene_Required s && Metric_Required m)).
    apply (Hall (metric_finding candidate policy results s m)). apply elem_of_app. right.
    apply list_elem_of_bind. exists s. split; [by apply list_elem_of_fmap_2|done].
Qed.

(** Missing evidence for a required input blocks the release. *)
Theorem missing_required_blocks :
  (exists c, c ∈ Capabilities (Policy_Definition policy) /\ Forall (fun r => matches_capability c r = false) results) \/
  (exists s m, s ∈ Scenes (Policy_Definition policy) /\ m ∈ Metrics s /\ Scene_Required s = true /\
     Metric_Required m = true /\ Forall (fun r => matches_metric s m r = false) results) ->
  Assessment_State (AssessPolicy candidate policy results) = Block.
Proof.
  assert (forall p, Forall (fun r => p r = false) results -> List.find p results = None) as Hnone.
  { intros p Hp. induction Hp as [|r l Hr _ IH]; simpl; [done|]. by rewrite Hr. }
  rewrite AssessPolicy_fold. intros Hmiss.
  apply (add_states expected_findings (mkAssessment Pass []) ltac:(by left) expected_states). right.
  apply Exists_exists. unfold expected_findings. destruct Hmiss as [(c & Hc & Hall)|(s & m & Hs & Hm & Hsr & Hmr & Hall)].
  - exists (capability_finding candidate policy results c). split; [apply elem_of_app; left; by apply list_elem_of_fmap_2|].
    simpl. by rewrite Hnone.
  - exists (metric_finding candidate policy results s m). split.
    + apply elem_of_app. right. apply list_elem_of_bind. exists s. split; [by apply list_elem_of_fmap_2|done].
    + simpl. rewrite Hnone by done. by rewrite Hsr, Hmr.
Qed.
End assessment.

(** ** Registration *)
Section registration.
Context `{UnicodeTables, UuidLib}.

Lemma disabled_reason_empty r c :
  disabled_reason r c = ""%string <-> exists reg, r = Some reg /\ SupportsCapabilityContract reg c = true.
Proof.
  unfold disabled_reason, SupportsCapabilityContract. destruct r as [reg|]; [|split; [done|by intros (? & ? & _)]].
  split; [intros Hs; exists reg; split; [done|]; revert Hs|intros (reg' & [= <-] & Hs); revert Hs];
    (destruct (Registry_Descriptor reg (CapabilityID c) (GateID c)) as [d|]; [by destruct (compatible d c)|done]).
Qed.

(** Releases are enabled exactly when the policy's contracts validate against
    the registry, and a disabled release names a reason per unsupported
    requirement. *)
Theorem release_enabled_iff_contracts_valid r policy :
  ReleasePolicy_Valid policy = true ->
  (Enabled (CalculateReleaseCapability r policy) = true <->
     exists reg, r = Some reg /\ ValidateContracts (Policy_Definition policy) (Some (SupportsCapabilityContract reg)) = Ok tt) /\
  length (Reasons (CalculateReleaseCapability r policy)) =
    length (List.filter (fun c => negb (bool_decide (disabled_reason r c = ""%string))) (Capabilities (Policy_Definition policy))).
Proof.
  intros Hv. unfold CalculateReleaseCapability. rewrite Hv. simpl.
  assert (Definition_Valid (Policy_Definition policy) = true) as Hd by (unfold ReleasePolicy_Valid in Hv; by bool_to_prop).
  assert (Capabilities (Policy_Definition policy) <> []) as Hne.
  { unfold Definition_Valid in Hd. revert Hd. case_guard as Hg; [done|]. intros _. by bool_to_prop. }
  unfold ValidateContracts. rewrite Hd. simpl.
  set (l := Capabilities (Policy_Definition policy)) in *. clearbody l.
  set (step := fun capability c => if bool_decide (disabled_reason r c = ""%string) then capability
      else mkCapability false (Reasons capability ++ [mkReason (CapabilityID c) (GateID c) (disabled_reason r c)])).
  assert (forall l cap, Enabled (foldl step cap l) = Enabled cap && forallb (fun c => bool_decide (disabled_reason r c = ""%string)) l /\
    length (Reasons (foldl step cap l)) = (length (Reasons cap) +
      length (List.filter (fun c => negb (bool_decide (disabled_reason r c = ""%string))) l))%nat) as Hfold.
  { clear l Hne. induction l as [|c l IH]; intros cap; simpl; [split; [by rewrite andb_true_r|lia]|].
    destruct (IH (step cap c)) as [-> ->]. unfold step. case_bool_decide; simpl; [done|].
    rewrite andb_false_r. split; [done|]. rewrite length_app. simpl. lia. }
  destruct (Hfold l (mkCapability true [])) as [HE HL]. fold step. rewrite HE, HL. split; [|done]. simpl.
  rewrite forallb_Forall, Forall_forall. setoid_rewrite bool_decide_eq_true. setoid_rewrite disabled_reason_empty. split.
  - intros Hall. destruct l as [|c l]; [done|]. destruct (Hall c ltac:(left)) as (reg & -> & _). exists reg. split; [done|].
    rewrite (proj2 (forallb_Forall _ _)); [done|]. apply Forall_forall. intros c' Hc'. destruct (Hall c' Hc') as (reg' & Heq & Hs). injection Heq as ->. exact Hs.
  - intros (reg & -> & Hreg) c Hc. exists reg. split; [done|]. destruct (forallb (SupportsCapabilityContract reg) l) eqn:E; [|done].
    apply forallb_Forall in E. rewrite Forall_forall in E. auto.
Qed.

(** The contributions collected so far are those of the processed prefix. *)
Lemma contribute_spec contracts l acc entries :
  foldr_result (contribute contracts) acc l = Ok entries <->
  exists es, l = Some <$> es /\ entries = (acc ++ es)%list /\
    Forall (fun e => VersionEntry_Valid e = true /\
      forall req, contracts !! Entry_CapabilityID e = Some req -> req = Entry_ContractVersion e) es /\
    NoDup (Entry_CapabilityID <$> es) /\
    Forall (fun e => Entry_CapabilityID e ∉ Entry_CapabilityID <$> acc) es.
Proof.
  revert acc. induction l as [|[e|] l IH]; intros acc; simpl.
  - split; [intros [= <-]; exists []; rewrite app_nil_r; split_and!; auto; constructor|].
    intros ([|? ?] & ? & -> & _); [by rewrite app_nil_r|done].
  - rewrite result_bind_Ok. split.
    + intros (acc' & Hc & Hl). unfold contribute in Hc.
      destruct (VersionEntry_Valid e) eqn:Hv; simpl in Hc; [|done].
      destruct (decide (Entry_CapabilityID e ∈ Entry_CapabilityID <$> acc)) as [Hin|Hin];
        [by rewrite bool_decide_true in Hc|rewrite bool_decide_false in Hc by done].
      assert (acc' = acc ++ [e] /\ forall req, contracts !! Entry_CapabilityID e = Some req -> req = Entry_ContractVersion e) as [-> Hreq].
      { destruct (contracts !! Entry_CapabilityID e) as [req|]; [|by injection Hc as <-].
        revert Hc. case_bool_decide; simpl; [|done]. intros [= <-]. split; [done|]. by intros ? [= <-]. }
      apply IH in Hl as (es & -> & -> & Hall & Hnd & Hout). exists (e :: es). split; [done|].
      split; [by rewrite <- app_assoc|]. split; [by constructor|].
      assert (Forall (fun x => Entry_CapabilityID x ∉ Entry_CapabilityID <$> acc /\ Entry_CapabilityID x <> Entry_CapabilityID e) es) as Hout'.
      { eapply Forall_impl; [exact Hout|]. intros x. simpl. rewrite fmap_app, elem_of_app. simpl. rewrite list_elem_of_singleton. tauto. }
      split.
      * constructor; [|done]. intros (x & Hx & Hin')%list_elem_of_fmap. rewrite Forall_forall in Hout'.
        by destruct (Hout' x Hin').
      * constructor; [done|]. eapply Forall_impl; [exact Hout'|]. by intros x [? _].
    + intros ([|e' es] & Hl & -> & Hall & Hnd & Hout); [done|]. injection Hl as <- ->.
      apply Forall_cons in Hall as [[Hv Hreq] Hall], Hout as [Hin Hout]. apply NoDup_cons in Hnd as [Hn Hnd].
      exists (acc ++ [e])%list. split.
      * unfold contribute. rewrite Hv. simpl. rewrite bool_decide_false by done.
        destruct (contracts !! Entry_CapabilityID e) as [req|]; [|done]. rewrite (Hreq req eq_refl). by rewrite bool_decide_true.
      * apply IH. exists es. split; [done|]. split; [by rewrite <- app_assoc|]. split; [done|]. split; [done|].
        rewrite Forall_forall in *. intros x Hx. rewrite fmap_app, elem_of_app. simpl. rewrite list_elem_of_singleton.
        intros [?|Heq]; [by apply (Hout x Hx)|]. apply Hn. rewrite <- Heq. by apply list_elem_of_fmap_2.
  - split; [done|]. by intros ([|? ?] & ? & _).
Qed.

(** The startup manifest does not depend on the order of its contributors and
    is a valid version manifest. *)
Theorem manifest_order_independent contracts contributors contributors' manifest :
  contributors ≡ₚ contributors' -> NewRegistry contracts contributors = Ok manifest ->
  NewRegistry contracts contributors' = Ok manifest /\ VersionManifest_Valid manifest = true.
Proof.
  intros Hp. unfold NewRegistry. case_bool_decide as Hne; [done|].
  rewrite bool_decide_false by (intros ->; by apply Hne, Permutation_nil_r).
  intros (entries & (es & -> & -> & Hall & Hnd & _)%contribute_spec & Hm)%result_bind_Ok.
  cbv beta in Hm. change ([] ++ es)%list with es in Hm.
  destruct (List.find (fun c => negb (bool_decide (c ∈ Entry_CapabilityID <$> es))) requiredCapabilities) as [?|] eqn:Hf; [done|].
  revert Hm. case_guard as Hv; [done|]. intros [= <-].
  apply negb_false_iff in Hv. split; [|done].
  assert (exists es', contributors' = Some <$> es' /\ es ≡ₚ es') as (es' & -> & Hp').
  { exists (omap id contributors'). split.
    - assert (Forall is_Some contributors') as Hs.
      { rewrite <- Hp. apply Forall_fmap, Forall_true. eauto. }
      clear -Hs. induction Hs as [|x l [e ->] _ IH]; [done|]. csimpl. by rewrite <- IH.
    - rewrite <- Hp. clear. induction es as [|e es IH]; [done|]. csimpl. by rewrite <- IH. }
  assert (foldr_result (contribute contracts) [] (Some <$> es') = Ok es') as ->.
  { apply contribute_spec. exists es'. split; [done|]. split; [done|].
    split; [by rewrite <- Hp'|]. split; [by rewrite <- Hp'|]. apply Forall_true. intros x. apply not_elem_of_nil. }
  cbn [result_bind]. assert (forall c, (c ∈ Entry_CapabilityID <$> es') <-> (c ∈ Entry_CapabilityID <$> es)) as Hin by (intros c; by rewrite Hp').
  assert (List.find (fun c => negb (bool_decide (c ∈ Entry_CapabilityID <$> es'))) requiredCapabilities = None) as ->.
  { rewrite <- Hf. clear -Hin. induction requiredCapabilities as [|c l IH]; simpl; [done|]. rewrite IH.
    by rewrite (bool_decide_ext _ _ (Hin c)). }
  assert (sort_by (less_on Entry_CapabilityID String.ltb) es' = sort_by (less_on Entry_CapabilityID String.ltb) es) as ->.
  { apply sort_by_unique_on; [apply _| |by rewrite Hp'].
    intros x y Hx Hy Hxy Hyx. unfold less_on in *.
    pose proof (st_total (less := String.ltb) _ _ Hxy Hyx) as Heq.
    apply list_elem_of_lookup in Hx as [i Hi], Hy as [j Hj]. assert (i = j) as ->; [|congruence].
    rewrite Hp' in Hnd. eapply NoDup_lookup; [exact Hnd| |]; rewrite list_lookup_fmap; [by rewrite Hi|].
    rewrite Hj. simpl. by rewrite Heq. }
  by rewrite Hv.
Qed.
End registration.

Module GateExamples.
Definition uuid (n : string) : ID := ("00000000-0000-7000-8000-00000000000" +:+ n)%string.
Definition zeros : string := "0000000000000000000000000000000000000000000000000000000000000000".
Definition candidate : CandidateContext := mkCandidate (uuid "1") zeros zeros (uuid "2") "".
Definition policy : ReleasePolicy :=
  mkPolicy (mkDefinition [mkScene "duel" "" None true [mkMetric "dps" true; mkMetric "healing" false]] 10 "threshold" true
              [mkRequirement "validation" "full" "v1" ""]) (uuid "2") 1 zeros 5.
Definition versions : gmap string string := {[ "validation"%string := "1"%string; "simulation"%string := "7"%string ]}.
Definition evidence (n capability gate_id version scene metric : string) (state : ResultState) : Result :=
  mkResult (uuid n) (mkDescriptor capability gate_id "v1" version ["candidate"%string] [Pass; Warning; Block] false) state []
    zeros (mkContext candidate zeros scene metric "" versions).
Definition results : list Result :=
  [ evidence "3" "validation" "full" "1" "" "" Pass; evidence "4" "simulation" "scenario" "7" "duel" "dps" Pass;
    evidence "5" "simulation" "scenario" "7" "duel" "healing" Pass ].

Lemma passing_assessment_has_evidence_witness :
  Assessment_State (AssessPolicy candidate policy results) = Pass /\
  exists r, passing_evidence candidate policy results r /\ matches_capability (mkRequirement "validation" "full" "v1" "") r = true.
Proof.
  split; [vm_compute; reflexivity|].
  apply (passing_assessment_has_evidence candidate policy results); [vm_compute; reflexivity|]. simpl. left.
Defined.

Lemma missing_required_blocks_witness :
  Assessment_State (AssessPolicy candidate policy (take 1 results)) = Block.
Proof.
  apply (missing_required_blocks candidate policy (take 1 results)). right.
  exists (mkScene "duel" "" None true [mkMetric "dps" true; mkMetric "healing" false]), (mkMetric "dps" true).
  split; [left|]. split; [left|]. split; [reflexivity|]. split; [reflexivity|].
  repeat constructor.
Defined.

Definition gates : Registry := Eval vm_compute in
  match NewGateRegistry [mkDescriptor "validation" "full" "v1" "1" ["candidate"%string] [Pass; Block] false] with
  | Ok r => r | Err _ => ∅ end.

Lemma release_enabled_iff_contracts_valid_witness :
  ReleasePolicy_Valid policy = true /\ Enabled (CalculateReleaseCapability (Some gates) policy) = true.
Proof.
  split; [vm_compute; reflexivity|].
  apply (release_enabled_iff_contracts_valid (Some gates) policy); [vm_compute; reflexivity|].
  exists gates. split; [reflexivity|]. vm_compute. reflexivity.
Defined.

Definition contributors : list (option VersionEntry) :=
  (fun id => Some (mkVersionEntry id "v1" "1" Registered)) <$> requiredCapabilities.
Lemma manifest_order_independent_witness :
  exists m, NewRegistry ∅ contributors = Ok m /\ NewRegistry ∅ (rev contributors) = Ok m /\ VersionManifest_Valid m = true.
Proof.
  eexists. split; [vm_compute; reflexivity|].
  apply (manifest_order_independent ∅ contributors (rev contributors)); [apply Permutation_rev | vm_compute; reflexivity].
Defined.
End GateExamples.
