(* ===== verification/DiffSequence.v ===== *)
(** * internal/versioning/diff/engine.go: the longest common subsequence

    [lcsPairs] fills a table of suffix lengths from the end and walks it from
    the start, as the code does; its result is a common subsequence that no
    other one exceeds in length. *)
From S2P Require Import Prelude.

(** One row of the table, for the old token [x], given the row below: the cells
    for the suffixes of the new tokens. *)
Fixpoint dp_row (x : string) (new : list string) (below : list nat) : list nat :=
  match new, below with
  | y :: new', b :: below' =>
      let row := dp_row x new' below' in
      let right := default 0 (head row) in
      (if decide (x = y) then default 0 (head below') + 1
       else if decide (right <= b) then b else right) :: row
  | _, _ => [0]
  end.

(** The table, its first row first. *)
Fixpoint dp_table (old new : list string) : list (list nat) :=
  match old with
  | [] => [replicate (S (length new)) 0]
  | x :: old' =>
      let rows := dp_table old' new in
      dp_row x new (default [] (head rows)) :: rows
  end.

Definition dp_at (table : list (list nat)) (i j : nat) : nat := default 0 (default [] (table !! i) !! j).

(** The walk from [i, j]; every round advances one of the two, so that the
    lengths of both slices are fuel enough ([lcs_walk_fuel]). *)
Fixpoint lcs_walk (fuel : nat) (table : list (list nat)) (old new : list string) (i j : nat) : list (nat * nat) :=
  match fuel with
  | O => []
  | S fuel' =>
      match old !! i, new !! j with
      | Some x, Some y =>
          if decide (x = y) then (i, j) :: lcs_walk fuel' table old new (S i) (S j)
          else if decide (dp_at table i (S j) <= dp_at table (S i) j)
          then lcs_walk fuel' table old new (S i) j
          else lcs_walk fuel' table old new i (S j)
      | _, _ => []
      end
  end.

Definition lcsPairs (old new : list string) : list (nat * nat) :=
  lcs_walk (length old + length new) (dp_table old new) old new 0 0.

(** ** The reference length *)
Fixpoint lcs_length (old new : list string) : nat :=
  match old with
  | [] => 0
  | x :: old' =>
      (fix go new := match new with
         | [] => 0
         | y :: new' =>
             if decide (x = y) then lcs_length old' new' + 1
             else Nat.max (lcs_length old' (y :: new')) (go new')
         end) new
  end.

Lemma lcs_length_nil_r old : lcs_length old [] = 0.
Proof. by destruct old. Qed.
Lemma lcs_length_cons x old y new :
  lcs_length (x :: old) (y :: new) =
    if decide (x = y) then lcs_length old new + 1
    else Nat.max (lcs_length old (y :: new)) (lcs_length (x :: old) new).
Proof. reflexivity. Qed.

(** The tails of a list, itself first: what the columns of a row stand for. *)
Fixpoint tails (l : list string) : list (list string) :=
  match l with [] => [[]] | _ :: l' => l :: tails l' end.

Lemma tails_lookup l j : j <= length l -> tails l !! j = Some (drop j l).
Proof.
  revert j. induction l as [|a l IH]; intros [|j] Hj; simpl in *; try done; [lia|]. apply IH. lia.
Qed.
Lemma head_tails l : head (tails l) = Some l.
Proof. by destruct l. Qed.

Lemma dp_row_spec x old new :
  dp_row x new (lcs_length old <$> tails new) = lcs_length (x :: old) <$> tails new.
Proof.
  induction new as [|y new IH]; [done|]. cbn [tails fmap list_fmap dp_row]. f_equal; [|exact IH].
  assert (forall o, default 0 (head (lcs_length o <$> tails new)) = lcs_length o new) as Hh by (intros o; by destruct new).
  fold (lcs_length <$> tails new). change (list_fmap (list string) nat (lcs_length old) (tails new)) with (lcs_length old <$> tails new).
  rewrite IH, !Hh, lcs_length_cons. repeat case_decide; lia.
Qed.

Lemma dp_table_spec old new : dp_table old new = (fun o => lcs_length o <$> tails new) <$> tails old.
Proof.
  induction old as [|x old IH]; simpl.
  - f_equal. induction new as [|y new IHn]; simpl; [done|]. by f_equal.
  - f_equal; [|done]. rewrite IH. transitivity (dp_row x new (lcs_length old <$> tails new)); [by destruct old|apply dp_row_spec].
Qed.

Lemma dp_at_spec old new i j :
  i <= length old -> j <= length new -> dp_at (dp_table old new) i j = lcs_length (drop i old) (drop j new).
Proof.
  intros Hi Hj. unfold dp_at. rewrite dp_table_spec, list_lookup_fmap, tails_lookup by done. simpl.
  by rewrite list_lookup_fmap, tails_lookup.
Qed.

(** ** Common subsequences as index pairs *)
Definition pair_lt (p q : nat * nat) : Prop := p.1 < q.1 /\ p.2 < q.2.
Record common (old new : list string) (ps : list (nat * nat)) : Prop := {
  common_sorted : StronglySorted pair_lt ps;
  common_tokens : Forall (fun p => exists t, old !! p.1 = Some t /\ new !! p.2 = Some t) ps
}.

(** All pairs of a walk from [i, j] lie at or after [i, j]. *)
Definition from (i j : nat) (ps : list (nat * nat)) : Prop := Forall (fun p => i <= p.1 /\ j <= p.2) ps.

Lemma from_weaken i j i' j' ps : i' <= i -> j' <= j -> from i j ps -> from i' j' ps.
Proof. intros Hi Hj Hf. eapply Forall_impl; [exact Hf|]. intros p [??]. lia. Qed.

Lemma common_cons old new i j t ps :
  old !! i = Some t -> new !! j = Some t -> common old new ps -> from (S i) (S j) ps -> common old new ((i, j) :: ps).
Proof.
  intros Ho Hn [Hs Ht] Hf. split; constructor; eauto.
Qed.

Lemma lcs_walk_common fuel table old new i j :
  common old new (lcs_walk fuel table old new i j) /\ from i j (lcs_walk fuel table old new i j).
Proof.
  revert i j. induction fuel as [|fuel IH]; intros i j; simpl; [by repeat constructor|].
  destruct (old !! i) as [x|] eqn:Ho; [|by repeat constructor].
  destruct (new !! j) as [y|] eqn:Hn; [|by repeat constructor].
  case_decide; [subst y|case_decide].
  - destruct (IH (S i) (S j)) as [Hc Hf]. split; [by eapply common_cons|].
    constructor; [done|]. eapply from_weaken; [| |exact Hf]; lia.
  - destruct (IH (S i) j) as [Hc Hf]. split; [done|]. eapply from_weaken; [| |exact Hf]; lia.
  - destruct (IH i (S j)) as [Hc Hf]. split; [done|]. eapply from_weaken; [| |exact Hf]; lia.
Qed.

Lemma lcs_walk_length fuel old new i j :
  (length old - i) + (length new - j) <= fuel -> i <= length old -> j <= length new ->
  length (lcs_walk fuel (dp_table old new) old new i j) = lcs_length (drop i old) (drop j new).
Proof.
  revert i j. induction fuel as [|fuel IH]; intros i j Hf Hi Hj; simpl.
  { rewrite (drop_ge old) by lia. done. }
  destruct (old !! i) as [x|] eqn:Ho; [|apply lookup_ge_None in Ho; by rewrite (drop_ge old)].
  destruct (new !! j) as [y|] eqn:Hn; [|apply lookup_ge_None in Hn; by rewrite (drop_ge new), lcs_length_nil_r].
  pose proof (lookup_lt_Some _ _ _ Ho). pose proof (lookup_lt_Some _ _ _ Hn).
  rewrite (drop_S old x i Ho), (drop_S new y j Hn), lcs_length_cons, <- (drop_S old x i Ho), <- (drop_S new y j Hn).
  rewrite !dp_at_spec by lia. repeat case_decide; simpl; rewrite IH by lia; lia.
Qed.

Lemma common_tail old new p ps : common old new (p :: ps) -> common old new ps /\ from (S p.1) (S p.2) ps.
Proof.
  intros [Hs Ht]. apply StronglySorted_cons in Hs as [Hp Hs]. apply Forall_cons in Ht as [_ Ht].
  split; [by split|]. eapply Forall_impl; [exact Hp|]. intros q [??]. split; lia.
Qed.

Lemma common_bound n old new i j ps :
  (length old - i) + (length new - j) <= n -> common old new ps -> from i j ps ->
  length ps <= lcs_length (drop i old) (drop j new).
Proof.
  revert i j ps. induction n as [|n IH]; intros i j [|p ps] Hn Hc Hf; simpl; try lia;
    destruct (common_tail _ _ _ _ Hc) as [Hc' Hf'];
    destruct (Forall_inv (common_tokens _ _ _ Hc)) as (t & Hold & Hnew);
    destruct (Forall_inv Hf) as [Hpi Hpj];
    pose proof (lookup_lt_Some _ _ _ Hold); pose proof (lookup_lt_Some _ _ _ Hnew); [lia|].
  destruct (lookup_lt_is_Some_2 old i ltac:(lia)) as [x Hx].
  destruct (lookup_lt_is_Some_2 new j ltac:(lia)) as [y Hy].
  rewrite (drop_S old x i Hx), (drop_S new y j Hy), lcs_length_cons, <- (drop_S old x i Hx), <- (drop_S new y j Hy).
  case_decide as Hxy.
  - enough (length ps <= lcs_length (drop (S i) old) (drop (S j) new)) by lia.
    apply IH; [lia|done|]. eapply from_weaken; [| |exact Hf']; lia.
  - assert (i < p.1 \/ j < p.2) as [Hlt|Hlt].
    { destruct (decide (i < p.1)) as [|]; [by left|]. right. destruct (decide (j < p.2)); [done|].
      assert (p.1 = i /\ p.2 = j) as [Hi Hj] by lia. rewrite Hi in Hold. rewrite Hj in Hnew. congruence. }
    + enough (length (p :: ps) <= lcs_length (drop (S i) old) (drop j new)) by (simpl in *; lia).
      apply IH; [lia|done|]. constructor; [lia|]. eapply from_weaken; [| |exact Hf']; lia.
    + enough (length (p :: ps) <= lcs_length (drop i old) (drop (S j) new)) by (simpl in *; lia).
      apply IH; [lia|done|]. constructor; [lia|]. eapply from_weaken; [| |exact Hf']; lia.
Qed.

(** The table walk of the array diff finds a common subsequence of the two
    token lists, and no common subsequence is longer: the number of elements
    reported as kept in place is the greatest possible. *)
Theorem lcsPairs_longest old new :
  common old new (lcsPairs old new) /\
  length (lcsPairs old new) = lcs_length old new /\
  forall ps, common old new ps -> length ps <= length (lcsPairs old new).
Proof.
  assert (length (lcsPairs old new) = lcs_length old new) as Hl by (apply (lcs_walk_length _ old new 0 0); lia).
  split; [apply lcs_walk_common|]. split; [done|]. intros ps Hc. rewrite Hl.
  apply (common_bound (length old + length new) old new 0 0); [lia|done|]. apply Forall_true. lia.
Qed.

(** ** The walk on equal lists, and when it covers everything *)
Lemma lcs_walk_diagonal fuel table tokens i :
  length tokens - i <= fuel -> lcs_walk fuel table tokens tokens i i = (fun k => (k, k)) <$> seq i (length tokens - i).
Proof.
  revert i. induction fuel as [|fuel IH]; intros i Hf; simpl.
  { by replace (length tokens - i) with 0 by lia. }
  destruct (tokens !! i) as [x|] eqn:Hx.
  - rewrite decide_True by done. pose proof (lookup_lt_Some _ _ _ Hx).
    replace (length tokens - i) with (S (length tokens - S i)) by lia. simpl. f_equal. apply IH. lia.
  - apply lookup_ge_None in Hx. by replace (length tokens - i) with 0 by lia.
Qed.

Lemma lcsPairs_same tokens : lcsPairs tokens tokens = (fun k => (k, k)) <$> seq 0 (length tokens).
Proof. unfold lcsPairs. rewrite lcs_walk_diagonal by lia. by rewrite Nat.sub_0_r. Qed.
