(* ===== verification/VersionDiff.v ===== *)
(** * internal/versioning/diff: engine.go, types.go, ports.go

    The comparison of two immutable revisions: entities are paired by identity,
    their JSON is compared structurally, and the changes are listed in a fixed
    order, at once or in bounded segments.  The Go code appends changes to a
    shared slice that an error discards; here every comparison returns the
    changes it appends. *)
From Stdlib Require Import Ascii.
From S2P Require Import Prelude GoSort GoStrings GoCrypto GoJson Domain DiffSequence.
Open Scope Z_scope.

(** ** types.go and ports.go *)
Inductive ChangeKind := Add | Delete | Move | Modify | KindUnknown (spelling : string).
Definition kind_text (k : ChangeKind) : string :=
  match k with
  | Add => "ADD" | Delete => "DELETE" | Move => "MOVE" | Modify => "MODIFY" | KindUnknown s => s
  end.
Definition ChangeKind_Valid (k : ChangeKind) : bool :=
  match k with Add | Delete | Move | Modify => true | KindUnknown _ => false end.
#[global] Instance ChangeKind_eq_dec : EqDecision ChangeKind.
Proof. solve_decision. Defined.

Inductive BaselineState := BaselineUnset | BaselineAvailable | NoBaseline.
Definition BaselineState_Valid (s : BaselineState) : bool :=
  match s with BaselineAvailable | NoBaseline => true | BaselineUnset => false end.

(** Absent raw values are empty. *)
Record EntityBlob := mkBlob { Blob_EntityID : ID; Blob_Kind : EntityKind; Blob_Status : EntityStatus; Blob_JSON : string }.
Record FieldChange := mkChange {
  EntityID : ID; Change_EntityKind : EntityKind; Path : string; Kind : ChangeKind;
  OldValue : string; NewValue : string; OldOrdinal : option Z; NewOrdinal : option Z }.
Record Comparison := mkComparison {
  Baseline : BaselineState; BaseRevisionID : ID; TargetRevisionID : ID; Changes : list FieldChange }.
Record Segment := mkSegment { Segment_Changes : list FieldChange; NextEntityCursor : ID }.

Definition DefaultEntitySegmentSize : Z := 200.
Definition MaxEntitySegmentSize : Z := 200.

Inductive side := Base | Target.
Inductive DiffError :=
  | ErrTargetRevisionInvalid
  | ErrSegmentLimitInvalid
  | ErrActiveBaselineInvalid
  | ErrInvalidEntity (s : side)
  | ErrDuplicateEntity (s : side) (id : ID)
  | ErrChangesKind (id : ID)
  | ErrDecode
  | ErrCanonical (detail : string)
  | ErrReader (detail : string).

Class ManifestReader := { Materialize : ID -> result (list EntityBlob) string }.
Class ManifestSegmentReader := { MaterializeSegment : ID -> ID -> Z -> result (list EntityBlob) string }.
Class ActiveBaselineReader := { ActiveBaseline : result (ID * bool) string }.

Definition of_reader {T : Type} (r : result T string) : result T DiffError :=
  match r with Ok v => Ok v | Err e => Err (ErrReader e) end.

(** [compared]: an old value with the comparison of it against a new value at a
    path. *)
Abbreviation compared := (json * (string -> json -> result (list FieldChange) DiffError))%type.

(** [entityPair]: the entity of either side. *)
Abbreviation entityPair := (option EntityBlob * option EntityBlob)%type.

Section diff.
Context `{UuidLib, FloatText}.

Definition FieldChange_Valid (c : FieldChange) : bool :=
  ID_Valid (EntityID c) && EntityKind_Valid (Change_EntityKind c) && ChangeKind_Valid (Kind c) &&
  negb (bool_decide (Path c = ""%string)) &&
  option_forallb (fun o => 0 <=? o) (OldOrdinal c) && option_forallb (fun o => 0 <=? o) (NewOrdinal c).

Definition canonical (v : json) : result string DiffError :=
  match CanonicalJSON v with Ok t => Ok t | Err e => Err (ErrCanonical e) end.
Definition decodeJSON (raw : string) : result json DiffError :=
  match Decode raw with Some v => Ok v | None => Err ErrDecode end.
Definition escapePointer (value : string) : string := replace_char "/"%char "~1" (replace_char "~"%char "~0" value).
Definition arrayPath (path : string) (ordinal : nat) : string := path +:+ "/" +:+ Itoa (Z.of_nat ordinal).

(** ** Array identities *)
Definition declaredArrayIdentity : gmap string string :=
  list_to_map [("/payload/attribute_values", "output_attribute_id"); ("/payload/trigger_blocks", "id");
               ("/payload/rule_blocks", "id"); ("/payload/modifiers", "id")]%string.

(** The tokens of elements with unique identity fields; [None] is the code's
    [allUnique = false]. *)
Fixpoint key_tokens (identityField : string) (seen : list string) (values : list json) :
    result (option (list string)) DiffError :=
  match values with
  | [] => Ok (Some [])
  | JObject fields :: values' =>
      match field fields identityField with
      | None => Ok None
      | Some candidate =>
          let? raw := canonical candidate in
          let token := ("key:" +:+ raw)%string in
          if bool_decide (token ∈ seen) then Ok None
          else
            let? rest := key_tokens identityField (token :: seen) values' in
            Ok (cons token <$> rest)
      end
  | _ :: _ => Ok None
  end.

Definition hash_token (hash : string) (occurrence : nat) : string :=
  "hash:" +:+ hash +:+ ":" +:+ Itoa (Z.of_nat occurrence).
Fixpoint hash_tokens (occurrences : gmap string nat) (values : list json) : result (list string) DiffError :=
  match values with
  | [] => Ok []
  | value :: values' =>
      let? raw := canonical value in
      let hash := sha256_hex raw in
      let occurrence := default O (occurrences !! hash) in
      let? rest := hash_tokens (<[hash := S occurrence]> occurrences) values' in
      Ok (hash_token hash occurrence :: rest)
  end.

(** The tokens and the set of keyed ones. *)
Definition arrayTokens (path : string) (values : list json) : result (list string * gset string) DiffError :=
  let by_hash := let? tokens := hash_tokens ∅ values in Ok (tokens, ∅) in
  match declaredArrayIdentity !! path with
  | None => by_hash
  | Some identityField =>
      let? tokens := key_tokens identityField [] values in
      match tokens with
      | Some tokens => Ok (tokens, list_to_set tokens)
      | None => by_hash
      end
  end.

Definition indexed {A : Type} (l : list A) : list (nat * A) := zip (seq 0 (length l)) l.
Definition tokenIndexes (tokens : list string) : gmap string nat :=
  foldl (fun m '(index, token) => <[token := index]> m) ∅ (indexed tokens).

(** ** compareValue and compareArray *)
Fixpoint concat_results (l : list (result (list FieldChange) DiffError)) : result (list FieldChange) DiffError :=
  match l with
  | [] => Ok []
  | r :: l' => let? c := r in let? cs := concat_results l' in Ok (c ++ cs)
  end.

Section entity.
Variables (id : ID) (kind : EntityKind).

Definition added path v ordinal : result (list FieldChange) DiffError :=
  let? raw := canonical v in Ok [mkChange id kind path Add "" raw None ordinal].
Definition deleted path v ordinal : result (list FieldChange) DiffError :=
  let? raw := canonical v in Ok [mkChange id kind path Delete raw "" ordinal None].

(** One round of the loop over the old tokens, and one of the loop over the new. *)
Definition old_element (path : string) (newArray : list json) (newIndex : gmap string nat) (inLCS keyed : gset string)
    (oldOrdinal : nat) (token : string) (child : compared) : result (list FieldChange) DiffError :=
  match newIndex !! token with
  | None => deleted (arrayPath path oldOrdinal) child.1 (Some (Z.of_nat oldOrdinal))
  | Some newOrdinal =>
      let moved :=
        if bool_decide (token ∈ inLCS) then []
        else [mkChange id kind (arrayPath path newOrdinal) Move "" ""
                (Some (Z.of_nat oldOrdinal)) (Some (Z.of_nat newOrdinal))] in
      let? inner :=
        if bool_decide (token ∈ keyed) then child.2 (arrayPath path newOrdinal) (default JNull (newArray !! newOrdinal))
        else Ok [] in
      Ok (moved ++ inner)
  end.
Definition new_element (path : string) (oldIndex : gmap string nat) (newOrdinal : nat) (token : string) (v : json) :
    result (list FieldChange) DiffError :=
  if decide (is_Some (oldIndex !! token)) then Ok []
  else added (arrayPath path newOrdinal) v (Some (Z.of_nat newOrdinal)).

Definition lcs_tokens (oldTokens newTokens : list string) : gset string :=
  list_to_set (omap (fun pair => oldTokens !! pair.1) (lcsPairs oldTokens newTokens)).

Definition compareArray (path : string) (oldArray : list compared) (newArray : list json) :
    result (list FieldChange) DiffError :=
  let? (oldTokens, oldKeyed) := arrayTokens path oldArray.*1 in
  let? (newTokens, newKeyed) := arrayTokens path newArray in
  let oldIndex := tokenIndexes oldTokens in
  let newIndex := tokenIndexes newTokens in
  let inLCS := lcs_tokens oldTokens newTokens in
  let? old_changes := concat_results
    ((fun '(oldOrdinal, (token, child)) =>
        old_element path newArray newIndex inLCS (oldKeyed ∩ newKeyed) oldOrdinal token child)
     <$> indexed (zip oldTokens oldArray)) in
  let? new_changes := concat_results
    ((fun '(newOrdinal, (token, v)) => new_element path oldIndex newOrdinal token v) <$> indexed (zip newTokens newArray)) in
  Ok (old_changes ++ new_changes).

Definition find_field {V : Type} (fields : list (string * V)) (key : string) : option V :=
  snd <$> List.find (fun kv => bool_decide (fst kv = key)) fields.

Definition object_key (path : string) (oldObject : list (string * compared)) (newObject : list (string * json)) (key : string) :
    result (list FieldChange) DiffError :=
  let nextPath := (path +:+ "/" +:+ escapePointer key)%string in
  match find_field oldObject key, find_field newObject key with
  | None, Some newChild => added nextPath newChild None
  | Some oldChild, None => deleted nextPath oldChild.1 None
  | Some oldChild, Some newChild => oldChild.2 nextPath newChild
  | None, None => Ok []  (* every key is one of the two objects' *)
  end.
Definition compareObject (path : string) (oldObject : list (string * compared)) (newObject : list (string * json)) :
    result (list FieldChange) DiffError :=
  let ordered := sort_strings (remove_dups (oldObject.*1 ++ newObject.*1)) in
  concat_results (object_key path oldObject newObject <$> ordered).

Definition compareLeaf (path : string) (oldValue newValue : json) : result (list FieldChange) DiffError :=
  let? oldRaw := canonical oldValue in
  let? newRaw := canonical newValue in
  if bool_decide (oldRaw = newRaw) then Ok []
  else Ok [mkChange id kind (if bool_decide (path = ""%string) then "/" else path) Modify oldRaw newRaw None None].

Fixpoint compareValue (oldValue : json) (path : string) (newValue : json) : result (list FieldChange) DiffError :=
  match oldValue, newValue with
  | JObject oldObject, JObject newObject =>
      compareObject path (map (fun '(k, v) => (k, (v, compareValue v))) oldObject) newObject
  | JArray oldArray, JArray newArray => compareArray path (map (fun v => (v, compareValue v)) oldArray) newArray
  | _, _ => compareLeaf path oldValue newValue
  end.
End entity.

(** ** Entities *)

Definition combine_base (byID : gmap ID entityPair) (b : EntityBlob) : result (gmap ID entityPair) DiffError :=
  if negb (ID_Valid (Blob_EntityID b)) then Err (ErrInvalidEntity Base)
  else match byID !! Blob_EntityID b with
       | Some (Some _, _) => Err (ErrDuplicateEntity Base (Blob_EntityID b))
       | Some (None, target) => Ok (<[Blob_EntityID b := (Some b, target)]> byID)
       | None => Ok (<[Blob_EntityID b := (Some b, None)]> byID)
       end.
Definition combine_target (byID : gmap ID entityPair) (t : EntityBlob) : result (gmap ID entityPair) DiffError :=
  if negb (ID_Valid (Blob_EntityID t)) then Err (ErrInvalidEntity Target)
  else match byID !! Blob_EntityID t with
       | Some (_, Some _) => Err (ErrDuplicateEntity Target (Blob_EntityID t))
       | Some (base, None) => Ok (<[Blob_EntityID t := (base, Some t)]> byID)
       | None => Ok (<[Blob_EntityID t := (None, Some t)]> byID)
       end.
Definition combineEntities (base target : list EntityBlob) : result (gmap ID entityPair) DiffError :=
  let? byID := foldr_result combine_base ∅ base in
  foldr_result combine_target byID target.

Definition sortedEntityIDs (byID : gmap ID entityPair) : list ID := sort_strings (map_to_list byID).*1.

Definition compare_entity (byID : gmap ID entityPair) (id : ID) : result (list FieldChange) DiffError :=
  match byID !! id with
  | Some (None, Some t) => Ok [mkChange id (Blob_Kind t) "/" Add "" (Blob_JSON t) None None]
  | Some (Some b, None) => Ok [mkChange id (Blob_Kind b) "/" Delete (Blob_JSON b) "" None None]
  | Some (Some b, Some t) =>
      if negb (bool_decide (Blob_Kind b = Blob_Kind t)) then Err (ErrChangesKind id)
      else
        let? oldValue := decodeJSON (Blob_JSON b) in
        let? newValue := decodeJSON (Blob_JSON t) in
        compareValue id (Blob_Kind b) oldValue "" newValue
  | _ => Ok []  (* every identity of the map has an entity *)
  end.

Definition change_less : FieldChange -> FieldChange -> bool :=
  then_by EntityID String.ltb (then_by Path String.ltb (less_on (fun c => kind_text (Kind c)) String.ltb)).
Definition sortChanges (changes : list FieldChange) : list FieldChange := sort_by change_less changes.

Definition compareEntityIDs (byID : gmap ID entityPair) (ids : list ID) : result (list FieldChange) DiffError :=
  let? changes := concat_results (compare_entity byID <$> ids) in
  Ok (sortChanges changes).

Definition Compare (base target : list EntityBlob) : result (list FieldChange) DiffError :=
  let? byID := combineEntities base target in
  compareEntityIDs byID (sortedEntityIDs byID).

Definition CompareRevisions `{ManifestReader} (baseID targetID : ID) : result (list FieldChange) DiffError :=
  let? base := of_reader (Materialize baseID) in
  let? target := of_reader (Materialize targetID) in
  Compare base target.

Definition CompareRevisionSegment `{ManifestSegmentReader} (baseID targetID afterEntityID : ID) (limit : Z) :
    result Segment DiffError :=
  if negb (ID_Valid baseID) || negb (ID_Valid targetID) ||
     (negb (bool_decide (afterEntityID = ""%string)) && negb (ID_Valid afterEntityID))
  then Err ErrTargetRevisionInvalid
  else if (limit <? 1) || (MaxEntitySegmentSize <? limit) then Err ErrSegmentLimitInvalid
  else
    let readLimit := limit + 1 in
    let? base := of_reader (MaterializeSegment baseID afterEntityID readLimit) in
    let? target := of_reader (MaterializeSegment targetID afterEntityID readLimit) in
    let? byID := combineEntities base target in
    let ids := sortedEntityIDs byID in
    let more := limit <? Z.of_nat (length ids) in
    let ids := if more then take (Z.to_nat limit) ids else ids in
    let? changes := compareEntityIDs byID ids in
    Ok (mkSegment changes (if more then default ""%string (last ids) else ""%string)).

Definition CompareAgainstActiveBaseline `{ManifestReader, ActiveBaselineReader} (targetID : ID) : result Comparison DiffError :=
  if negb (ID_Valid targetID) then Err ErrTargetRevisionInvalid
  else
    let? (baseID, found) := of_reader ActiveBaseline in
    if negb found then Ok (mkComparison NoBaseline "" targetID [])
    else if negb (ID_Valid baseID) then Err ErrActiveBaselineInvalid
    else
      let? changes := CompareRevisions baseID targetID in
      Ok (mkComparison BaselineAvailable baseID targetID changes).
End diff.
