(* ===== verification/DiffArrays.v ===== *)
(** * Array tokens of the diff: identities, indexes, kept elements

    The lemmas about [arrayTokens], [tokenIndexes] and [lcsPairs] from which the
    theorems about the comparison follow. *)
From stdpp Require Import pretty.
From S2P Require Import Prelude GoSort GoStrings GoCrypto GoJson Domain DiffSequence VersionDiff.
#[local] Open Scope nat_scope.

(** ** Text *)
Lemma string_app_inv_length a b c d : String.length a = String.length b -> (a +:+ c = b +:+ d)%string -> a = b /\ c = d.
Proof.
  revert b. induction a as [|x a IH]; intros [|y b] Hl Heq; simpl in *; try done.
  injection Heq as -> Heq. injection Hl as Hl. by destruct (IH b Hl Heq) as [-> ->].
Qed.

Lemma string_app_inv_head a c d : (a +:+ c = a +:+ d)%string -> c = d.
Proof. intros H. by apply (string_app_inv_length a a). Qed.

Lemma hash_token_inj h1 n1 h2 n2 :
  String.length h1 = String.length h2 -> hash_token h1 n1 = hash_token h2 n2 -> h1 = h2 /\ n1 = n2.
Proof.
  intros Hl Heq. unfold hash_token in Heq. apply string_app_inv_head in Heq.
  apply string_app_inv_length in Heq as [-> Heq]; [|done]. apply string_app_inv_head in Heq.
  unfold Itoa in Heq. apply (inj pretty) in Heq. split; [done|lia].
Qed.

(** ** Tokens of an array are distinct, one per element *)
Section tokens.
Context `{FloatText}.

(** The specification of [hash_tokens]: the occurrence number counts the equal
    hashes so far. *)
Lemma hash_tokens_spec occurrences values tokens :
  hash_tokens occurrences values = Ok tokens ->
  NoDup tokens /\ length tokens = length values /\
  Forall2 (fun v t => exists raw n, canonical v = Ok raw /\ t = hash_token (sha256_hex raw) n /\
             default 0 (occurrences !! sha256_hex raw) <= n) values tokens.
Proof.
  revert occurrences tokens. induction values as [|v values IH]; intros occurrences tokens; simpl.
  { intros [= <-]. split_and!; [constructor|done|constructor]. }
  intros (raw & Hraw & (rest & Hrest & [= <-])%result_bind_Ok)%result_bind_Ok.
  destruct (IH _ _ Hrest) as (Hnd & Hlen & Hall). split_and!.
  - constructor; [|done]. intros Hin. apply list_elem_of_lookup in Hin as [i Hi].
    destruct (Forall2_lookup_r _ _ _ _ _ Hall Hi) as (v' & _ & raw' & n & Hraw' & Heq & Hn).
    apply hash_token_inj in Heq as [Heq1 Heq2]; [|by rewrite !length_sha256_hex].
    rewrite Heq1, <- Heq2, lookup_insert_eq in Hn. simpl in Hn. rewrite Heq1 in Hn. lia.
  - simpl. by rewrite Hlen.
  - constructor; [exists raw, (default 0 (occurrences !! sha256_hex raw)); split_and!; [done|done|lia]|].
    eapply Forall2_impl; [exact Hall|]. intros v' t (raw' & n & Hraw' & -> & Hn). exists raw', n. split_and!; [done|done|].
    destruct (decide (sha256_hex raw = sha256_hex raw')) as [Heq|Hne].
    + rewrite Heq in *. rewrite lookup_insert_eq in Hn. simpl in Hn. lia.
    + by rewrite lookup_insert_ne in Hn.
Qed.

Definition keyed_as (identityField : string) (v : json) (t : string) : Prop :=
  exists fields candidate raw, v = JObject fields /\ field fields identityField = Some candidate /\
    canonical candidate = Ok raw /\ t = ("key:" +:+ raw)%string.

Lemma key_tokens_spec identityField seen values tokens :
  key_tokens identityField seen values = Ok (Some tokens) ->
  NoDup tokens /\ Forall (fun t => t ∉ seen) tokens /\ Forall2 (keyed_as identityField) values tokens.
Proof.
  revert seen tokens. induction values as [|v values IH]; intros seen tokens; simpl.
  { intros [= <-]. split_and!; constructor. }
  destruct v as [| | | | |fields]; try done. destruct (field fields identityField) as [candidate|] eqn:Hf; [|done].
  intros (raw & Hraw & Hk)%result_bind_Ok. case_bool_decide as Hseen; [done|].
  apply result_bind_Ok in Hk as ([rest|] & Hrest & [= <-]). destruct (IH _ _ Hrest) as (Hnd & Hout & Hall).
  rewrite Forall_forall in Hout. split_and!.
  - constructor; [|done]. intros Hin. apply (Hout _ Hin). left.
  - constructor; [done|]. apply Forall_forall. intros t Ht Hs. apply (Hout t Ht). by right.
  - constructor; [|done]. by exists fields, candidate, raw.
Qed.

(** A token of one kind is never one of the other. *)
Lemma key_token_not_hash raw h n : ("key:" +:+ raw)%string <> hash_token h n.
Proof. done. Qed.

Record tokens_ok (path : string) (values : list json) (tokens : list string) (keyed : gset string) : Prop := {
  tokens_distinct : NoDup tokens;
  tokens_length : length tokens = length values;
  tokens_meaning :
    (keyed = list_to_set tokens /\ exists f, Forall2 (keyed_as f) values tokens) \/
    (keyed = ∅ /\ Forall2 (fun v t => exists raw n, canonical v = Ok raw /\ t = hash_token (sha256_hex raw) n) values tokens)
}.

Lemma arrayTokens_ok path values tokens keyed :
  arrayTokens path values = Ok (tokens, keyed) -> tokens_ok path values tokens keyed.
Proof.
  assert (forall tk, (let? ts := hash_tokens ∅ values in Ok (ts, ∅ : gset string)) = (Ok tk : result _ DiffError) ->
    tokens_ok path values tk.1 tk.2) as Hhash.
  { intros tk (ts & (Hnd & Hl & Hall)%hash_tokens_spec & [= <-])%result_bind_Ok. split; [done|done|]. right.
    split; [done|]. eapply Forall2_impl; [exact Hall|]. intros v t (raw & n & ? & ? & _). eauto. }
  unfold arrayTokens. destruct (declaredArrayIdentity !! path) as [f|]; [|by apply (Hhash (_, _))].
  intros ([ts|] & Hk & Hr)%result_bind_Ok; [|by apply (Hhash (_, _))]. injection Hr as <- <-.
  apply key_tokens_spec in Hk as (Hnd & _ & Hall). split; [done|symmetry; by eapply Forall2_length|]. left. eauto.
Qed.
End tokens.

(** ** Token indexes *)
Lemma indexed_snoc {A : Type} (l : list A) (x : A) : indexed (l ++ [x]) = indexed l ++ [(length l, x)].
Proof.
  unfold indexed. rewrite length_app, Nat.add_1_r, seq_S, zip_with_app by (by rewrite length_seq). done.
Qed.

Lemma indexed_lookup {A : Type} (l : list A) i : indexed l !! i = (fun x => (i, x)) <$> l !! i.
Proof.
  unfold indexed. rewrite lookup_zip_with. destruct (l !! i) as [x|] eqn:Hx.
  - rewrite lookup_seq_lt by (by eapply lookup_lt_Some). done.
  - simpl. by destruct (seq 0 (length l) !! i).
Qed.

Lemma tokenIndexes_lookup tokens t i : NoDup tokens -> (tokenIndexes tokens !! t = Some i <-> tokens !! i = Some t).
Proof.
  intros Hnd. revert t i. induction tokens as [|x tokens IH] using rev_ind; intros t i; [done|].
  unfold tokenIndexes. rewrite indexed_snoc, foldl_snoc. fold (tokenIndexes tokens).
  apply NoDup_app in Hnd as (Hnd & Hx & _). specialize (IH Hnd).
  destruct (decide (t = x)) as [->|Hne].
  - rewrite lookup_insert_eq. split.
    + intros [= <-]. rewrite lookup_app_r by lia. by rewrite Nat.sub_diag.
    + intros Hi. apply lookup_app_Some in Hi as [Hi|[Hle Hi]].
      * exfalso. apply (Hx x); [by eapply list_elem_of_lookup_2|left].
      * apply lookup_lt_Some in Hi. simpl in Hi. f_equal. lia.
  - rewrite lookup_insert_ne, IH by done. split; intros Hi; [by apply lookup_app_l_Some|].
    apply lookup_app_Some in Hi as [Hi|[_ Hi]]; [done|]. apply list_elem_of_lookup_2, list_elem_of_singleton in Hi. done.
Qed.

Lemma tokenIndexes_is_Some tokens t : NoDup tokens -> (is_Some (tokenIndexes tokens !! t) <-> t ∈ tokens).
Proof.
  intros Hnd. rewrite list_elem_of_lookup. split; intros [i Hi]; exists i; by apply tokenIndexes_lookup.
Qed.

Lemma lcs_tokens_same tokens t : t ∈ tokens -> t ∈ lcs_tokens tokens tokens.
Proof.
  intros [i Hi]%list_elem_of_lookup. unfold lcs_tokens. rewrite elem_of_list_to_set, lcsPairs_same, list_elem_of_omap.
  exists (i, i). split; [|done]. apply list_elem_of_fmap. exists i. split; [done|]. apply elem_of_seq.
  apply lookup_lt_Some in Hi. lia.
Qed.

(** ** When every token is kept *)
Lemma strictly_sorted_seq l m : StronglySorted lt l -> (forall x, x ∈ l <-> x < m) -> l = seq 0 m.
Proof.
  intros Hs Hin.
  assert (NoDup l) as Hnd.
  { clear Hin. induction Hs as [|x l Hs IH Hx]; constructor; [|done]. intros Hxl.
    rewrite Forall_forall in Hx. specialize (Hx x Hxl). lia. }
  assert (AntiSymm (=) lt) as Hanti by (intros x y ??; lia).
  eapply (StronglySorted_unique lt); [done| |].
  - clear. generalize 0 as i. induction m as [|m IH]; intros i; simpl; constructor; [done|].
    apply Forall_forall. intros x [??]%elem_of_seq. lia.
  - apply NoDup_Permutation; [done|apply NoDup_seq|]. intros x. rewrite Hin, elem_of_seq. lia.
Qed.

Lemma StronglySorted_fmap_impl {A B : Type} (R : relation A) (S : relation B) (f : A -> B) l :
  (forall x y, R x y -> S (f x) (f y)) -> StronglySorted R l -> StronglySorted S (f <$> l).
Proof.
  intros HRS Hs. induction Hs as [|x l Hs IH Hx]; csimpl; constructor; [done|].
  apply Forall_fmap. eapply Forall_impl; [exact Hx|]. intros y. apply HRS.
Qed.

Lemma all_kept old new :
  NoDup old -> NoDup new ->
  (forall t, t ∈ old -> t ∈ new /\ t ∈ lcs_tokens old new) -> (forall t, t ∈ new -> t ∈ old) -> old = new.
Proof.
  intros Ho Hn Hold Hnew. destruct (lcs_walk_common (length old + length new) (dp_table old new) old new 0 0) as [Hc _].
  fold (lcsPairs old new) in Hc. destruct Hc as [Hs Ht]. rewrite Forall_forall in Ht.
  assert (forall t, t ∈ old -> exists p, p ∈ lcsPairs old new /\ old !! p.1 = Some t /\ new !! p.2 = Some t) as Hpair.
  { intros t [_ Hl]%Hold. unfold lcs_tokens in Hl. rewrite elem_of_list_to_set, list_elem_of_omap in Hl.
    destruct Hl as (p & Hp & Hpt). destruct (Ht p Hp) as (t' & H1 & H2). rewrite Hpt in H1. injection H1 as ->. eauto. }
  assert ((lcsPairs old new).*1 = seq 0 (length old)) as H1.
  { apply strictly_sorted_seq; [eapply StronglySorted_fmap_impl; [|exact Hs]; by intros ?? [? _]|].
    intros i. rewrite list_elem_of_fmap. split.
    - intros (p & -> & Hp). destruct (Ht p Hp) as (t & Hpo & _). by eapply lookup_lt_Some.
    - intros [t Hi]%lookup_lt_is_Some_2. destruct (Hpair t) as (p & Hp & Hpo & _); [by eapply list_elem_of_lookup_2|].
      exists p. split; [|done]. by eapply (NoDup_lookup old). }
  assert ((lcsPairs old new).*2 = seq 0 (length new)) as H2.
  { apply strictly_sorted_seq; [eapply StronglySorted_fmap_impl; [|exact Hs]; by intros ?? [_ ?]|].
    intros j. rewrite list_elem_of_fmap. split.
    - intros (p & -> & Hp). destruct (Ht p Hp) as (t & _ & Hpn). by eapply lookup_lt_Some.
    - intros [t Hj]%lookup_lt_is_Some_2. destruct (Hpair t) as (p & Hp & _ & Hpn).
      { apply Hnew. by eapply list_elem_of_lookup_2. }
      exists p. split; [|done]. by eapply (NoDup_lookup new). }
  assert (length old = length new) as Hlen.
  { rewrite <- (length_seq (length old) 0), <- H1, <- (length_seq (length new) 0), <- H2, !length_fmap. done. }
  apply list_eq. intros i. destruct (decide (i < length old)) as [Hi|Hi].
  - pose proof (f_equal (fun l => l !! i) H1) as Hi1. pose proof (f_equal (fun l => l !! i) H2) as Hi2.
    simpl in Hi1, Hi2. rewrite list_lookup_fmap, lookup_seq_lt in Hi1, Hi2 by lia.
    destruct (lcsPairs old new !! i) as [p|] eqn:Hp; [|done]. simpl in *. injection Hi1 as Hp1. injection Hi2 as Hp2.
    destruct (Ht p) as (t & Ha & Hb); [by eapply list_elem_of_lookup_2|]. rewrite Hp1 in Ha. rewrite Hp2 in Hb. congruence.
  - rewrite !lookup_ge_None_2 by lia. done.
Qed.
