(* ===== verification/DiffCompare.v ===== *)
(** * The comparison of two values: soundness and completeness

    A value compared with itself has no changes, and two values without changes
    have the same canonical text, unless two different parts of theirs collide
    under SHA-256. *)
From S2P Require Import Prelude GoSort GoStrings GoCrypto GoJson Domain DiffSequence VersionDiff DiffArrays.
#[local] Open Scope nat_scope.

(** ** Helpers on the combinators *)
Lemma concat_results_nil l : concat_results l = Ok [] <-> Forall (fun r => r = Ok []) l.
Proof.
  induction l as [|r l IH]; simpl; [by split|]. rewrite Forall_cons, <- IH. split.
  - intros (c & -> & (cs & -> & [= Hnil])%result_bind_Ok)%result_bind_Ok. by apply app_eq_nil in Hnil as [-> ->].
  - by intros [-> ->].
Qed.

Lemma find_field_map {V W : Type} (f : V -> W) (fields : list (string * V)) key :
  find_field (map (fun '(k, v) => (k, f v)) fields) key = f <$> find_field fields key.
Proof.
  unfold find_field. induction fields as [|[k v] fields IH]; simpl; [done|]. by case_bool_decide.
Qed.

Lemma find_field_elem {V : Type} (fields : list (string * V)) key v : find_field fields key = Some v -> (key, v) ∈ fields.
Proof.
  unfold find_field. induction fields as [|[k u] fields IH]; simpl; [done|]. case_bool_decide as Hk; simpl.
  - intros [= <-]. simpl in Hk. subst. left.
  - intros H. right. by apply IH.
Qed.

Lemma find_field_is_Some {V : Type} (fields : list (string * V)) key : key ∈ fields.*1 -> is_Some (find_field fields key).
Proof.
  unfold find_field. induction fields as [|[k u] fields IH]; simpl; [by intros ?%elem_of_nil|].
  case_bool_decide as Hk; simpl; [eauto|]. intros [->|Hin]%elem_of_cons; [done|]. by apply IH.
Qed.

Lemma find_field_None {V : Type} (fields : list (string * V)) key : find_field fields key = None -> key ∉ fields.*1.
Proof. intros Hn Hin%find_field_is_Some. rewrite Hn in Hin. by apply is_Some_None in Hin. Qed.

Lemma find_field_distinct {V : Type} (fields : list (string * V)) key v :
  NoDup fields.*1 -> (key, v) ∈ fields -> find_field fields key = Some v.
Proof.
  intros Hnd Hin. unfold find_field. induction fields as [|[k u] fields IH]; [by apply elem_of_nil in Hin|].
  simpl in *. apply NoDup_cons in Hnd as [Hk Hnd]. apply elem_of_cons in Hin as [[= -> ->]|Hin].
  - by rewrite bool_decide_true.
  - rewrite bool_decide_false; [by apply IH|]. intros ->. apply Hk. apply list_elem_of_fmap. by exists (key, v).
Qed.

Lemma map_pair_fst {V W : Type} (f : V -> W) (l : list V) : (map (fun v => (v, f v)) l).*1 = l.
Proof. induction l as [|v l IH]; csimpl; [done|]. by f_equal. Qed.
Lemma map_field_fst {V W : Type} (f : V -> W) (l : list (string * V)) : (map (fun '(k, v) => (k, f v)) l).*1 = l.*1.
Proof. induction l as [|[k v] l IH]; csimpl; [done|]. by f_equal. Qed.

Section compare.
Context `{FloatText}.

Lemma canonical_Ok v t : canonical v = Ok t <-> appendCanonical v = Ok t.
Proof. unfold canonical, CanonicalJSON. destruct (appendCanonical v); naive_solver. Qed.

Definition has_canonical (v : json) : Prop := exists t, canonical v = Ok t.

Lemma has_canonical_array l : has_canonical (JArray l) -> Forall has_canonical l.
Proof.
  intros [t Ht%canonical_Ok]. simpl in Ht. apply result_bind_Ok in Ht as (texts & Hl%map_result_Ok & _).
  eapply Forall2_Forall_l; [exact Hl|]. apply Forall_true. intros b a Ha. exists b. by apply canonical_Ok.
Qed.

Lemma has_canonical_object l : has_canonical (JObject l) -> Forall (fun kv => has_canonical kv.2) l.
Proof.
  intros [t Ht%canonical_Ok]. simpl in Ht. apply result_bind_Ok in Ht as (texts & Hl%map_result_Ok & _).
  eapply Forall2_Forall_l; [exact Hl|]. apply Forall_true. intros b [k v] (t' & Ht' & _)%result_bind_Ok.
  exists t'. by apply canonical_Ok.
Qed.

Lemma has_canonical_field l key v : has_canonical (JObject l) -> find_field l key = Some v -> has_canonical v.
Proof.
  intros Hl%has_canonical_object Hv%find_field_elem. rewrite Forall_forall in Hl. by apply (Hl (key, v)).
Qed.

(** ** Tokens exist wherever the canonical texts do *)
Lemma hash_tokens_total occurrences l : Forall has_canonical l -> exists ts, hash_tokens occurrences l = Ok ts.
Proof.
  intros Hl. revert occurrences. induction Hl as [|v l [raw Hraw] Hl IH]; intros occurrences; simpl; [eauto|].
  rewrite Hraw. simpl. edestruct IH as [ts ->]. simpl. eauto.
Qed.

Lemma key_tokens_total f seen l : Forall has_canonical l -> exists ts, key_tokens f seen l = Ok ts.
Proof.
  intros Hl. revert seen. induction Hl as [|v l Hv Hl IH]; intros seen; simpl; [eauto|].
  destruct v as [| | | | |fields]; eauto. destruct (field fields f) as [c|] eqn:Hc; [|eauto].
  destruct (has_canonical_field fields f c Hv Hc) as [raw Hraw]. rewrite Hraw. simpl.
  case_bool_decide; [eauto|]. destruct (IH (("key:" +:+ raw)%string :: seen)) as [ts ->]. simpl. eauto.
Qed.

Lemma arrayTokens_total path l : Forall has_canonical l -> exists tokens keyed, arrayTokens path l = Ok (tokens, keyed).
Proof.
  intros Hl. unfold arrayTokens. destruct (hash_tokens_total ∅ l Hl) as [ts Hts]. rewrite Hts.
  destruct (declaredArrayIdentity !! path) as [f|]; simpl; [|eauto].
  destruct (key_tokens_total f [] l Hl) as [[ks|] ->]; simpl; eauto.
Qed.

(** ** Comparing a value with itself *)
Section entity.
Variables (id : ID) (kind : EntityKind).
Notation cmp := (compareValue id kind).

Lemma compareArray_same path l :
  Forall has_canonical l -> (forall i v p, l !! i = Some v -> cmp v p v = Ok []) ->
  compareArray id kind path (map (fun v => (v, cmp v)) l) l = Ok [].
Proof.
  intros Hl Hsame. unfold compareArray. rewrite map_pair_fst.
  destruct (arrayTokens_total path l Hl) as (tokens & keyed & Ht). rewrite Ht. simpl.
  destruct (arrayTokens_ok _ _ _ _ Ht) as [Hnd Hlen _].
  rewrite (proj2 (concat_results_nil _)).
  2: { apply Forall_fmap, Forall_lookup_2. intros k [i [token child]]. rewrite indexed_lookup. intros Hz.
       apply fmap_Some in Hz as ([token' child'] & Hz & [= -> -> ->]). apply lookup_zip_Some in Hz as [Htok Hch].
       change (map (fun v => (v, cmp v)) l) with ((fun v => (v, cmp v)) <$> l) in Hch. rewrite list_lookup_fmap in Hch.
       apply fmap_Some in Hch as (v & Hv & ->). simpl. unfold old_element.
       rewrite (proj2 (tokenIndexes_lookup tokens token' k Hnd) Htok).
       rewrite (bool_decide_true (token' ∈ lcs_tokens tokens tokens)) by (apply lcs_tokens_same; by eapply list_elem_of_lookup_2).
       rewrite Hv. simpl.
       case_bool_decide; [|done]. by rewrite (Hsame k). }
  simpl. rewrite (proj2 (concat_results_nil _)); [done|].
  apply Forall_fmap, Forall_lookup_2. intros k [i [token v]]. rewrite indexed_lookup. intros Hz.
  apply fmap_Some in Hz as ([token' v'] & Hz & [= -> -> ->]). apply lookup_zip_Some in Hz as [Htok _]. simpl.
  unfold new_element. rewrite decide_True; [done|]. apply tokenIndexes_is_Some; [done|]. by eapply list_elem_of_lookup_2.
Qed.

Lemma compareValue_same v path : has_canonical v -> cmp v path v = Ok [].
Proof.
  revert path. induction v as [|b|s|s|l IH|l IH] using json_rect_nested; intros path Hc.
  1-4: destruct Hc as [t Ht]; cbn [compareValue]; unfold compareLeaf; rewrite Ht; simpl; by rewrite bool_decide_true.
  - cbn [compareValue]. pose proof (has_canonical_array l Hc) as Hl. apply compareArray_same; [done|].
    intros i v p Hv. eapply Forall_lookup_1 in IH; [|exact Hv]. apply IH. by eapply Forall_lookup_1 in Hl.
  - cbn [compareValue]. unfold compareObject. apply concat_results_nil, Forall_fmap, Forall_forall. intros key Hkey.
    unfold object_key. simpl. rewrite (find_field_map (fun v => (v, cmp v)) l key).
    assert (key ∈ l.*1) as Hin.
    { unfold sort_strings in Hkey. rewrite elem_of_sort_by, elem_of_remove_dups, elem_of_app in Hkey.
      rewrite (map_field_fst (fun v => (v, cmp v))) in Hkey. tauto. }
    destruct (find_field_is_Some _ _ Hin) as [v Hv]. rewrite Hv. simpl.
    rewrite Forall_forall in IH. apply (IH (key, v)); [by apply find_field_elem|]. by eapply has_canonical_field.
Qed.

(** ** No changes: equal canonical texts *)
Lemma added_not_nil path v o : added id kind path v o <> Ok [].
Proof. unfold added. destruct (canonical v); done. Qed.
Lemma deleted_not_nil path v o : deleted id kind path v o <> Ok [].
Proof. unfold deleted. destruct (canonical v); done. Qed.

Lemma old_element_nil path newArray newIndex inLCS keyed i token child :
  old_element id kind path newArray newIndex inLCS keyed i token child = Ok [] ->
  exists j, newIndex !! token = Some j /\ token ∈ inLCS /\
    (token ∈ keyed -> child.2 (arrayPath path j) (default JNull (newArray !! j)) = Ok []).
Proof.
  unfold old_element. destruct (newIndex !! token) as [j|]; [|by intros ?%deleted_not_nil].
  intros (inner & Hin & [= Hnil])%result_bind_Ok. apply app_eq_nil in Hnil as [Hm ->].
  exists j. split; [done|]. split.
  - destruct (decide (token ∈ inLCS)) as [|Hn]; [done|]. by rewrite bool_decide_false in Hm.
  - intros Hk. by rewrite bool_decide_true in Hin.
Qed.
End entity.
End compare.

Inductive subvalue (v : json) : json -> Prop :=
  | sub_refl : subvalue v v
  | sub_array w l : w ∈ l -> subvalue v w -> subvalue v (JArray l)
  | sub_object k w l : (k, w) ∈ l -> subvalue v w -> subvalue v (JObject l).

(** What the decoder yields: objects with distinct keys. *)
Inductive distinct_keys : json -> Prop :=
  | dk_null : distinct_keys JNull
  | dk_bool b : distinct_keys (JBool b)
  | dk_number n : distinct_keys (JNumber n)
  | dk_string s : distinct_keys (JString s)
  | dk_array l : Forall distinct_keys l -> distinct_keys (JArray l)
  | dk_object l : NoDup l.*1 -> Forall (fun kv => distinct_keys kv.2) l -> distinct_keys (JObject l).

Section no_changes.
Context `{FloatText}.
Variables (id : ID) (kind : EntityKind).
Notation cmp := (compareValue id kind).

(** No part of [v] collides under the hash with a different part of [w]. *)
Definition separates (v w : json) : Prop :=
  forall a b ra rb, subvalue a v -> subvalue b w -> canonical a = Ok ra -> canonical b = Ok rb ->
    sha256_hex ra = sha256_hex rb -> ra = rb.
Definition same_text (v w : json) : Prop := exists t, canonical v = Ok t /\ canonical w = Ok t.

Lemma separates_array l k v w : separates (JArray l) (JArray k) -> v ∈ l -> w ∈ k -> separates v w.
Proof. intros Hs Hv Hw a b ra rb Ha Hb. apply Hs; by eapply sub_array. Qed.
Lemma separates_object l k x y v w : separates (JObject l) (JObject k) -> (x, v) ∈ l -> (y, w) ∈ k -> separates v w.
Proof. intros Hs Hv Hw a b ra rb Ha Hb. apply Hs; by eapply sub_object. Qed.

Lemma same_text_array l k : Forall2 same_text l k -> same_text (JArray l) (JArray k).
Proof.
  intros Hall.
  assert (exists ts, map_result appendCanonical l = Ok ts /\ map_result appendCanonical k = Ok ts) as (ts & H1 & H2).
  { induction Hall as [|v w l k (t & Hv%canonical_Ok & Hw%canonical_Ok) Hall (ts & H1 & H2)]; [by exists []|].
    exists (t :: ts). simpl. by rewrite Hv, Hw, H1, H2. }
  eexists. split; apply canonical_Ok; simpl; [rewrite H1|rewrite H2]; simpl; done.
Qed.

Definition field_text : string * json -> result (string * string) string := fun '(k, v) =>
  let? t := appendCanonical v in Ok (k, t).

Lemma field_texts_exist l : Forall (fun kv => has_canonical kv.2) l -> exists ts,
  map_result field_text l = Ok ts /\ ts.*1 = l.*1 /\ forall k t, (k, t) ∈ ts <-> exists v, (k, v) ∈ l /\ canonical v = Ok t.
Proof.
  induction 1 as [|[k v] l [t Ht] Hl (ts & Hts & Hk & Hin)].
  { exists []. split_and!; [done..|]. intros k t. split; [by intros ?%elem_of_nil|by intros (v & ?%elem_of_nil & _)]. }
  simpl in Ht. exists ((k, t) :: ts). rewrite map_result_cons, Hts. simpl.
  rewrite (proj1 (canonical_Ok v t) Ht). csimpl. rewrite Hk. split_and!; [done..|].
  intros k' t'. rewrite elem_of_cons, Hin. split.
  - intros [[= -> ->]|(v' & Hv & Ht')]; [exists v; split; [left|done]|exists v'; split; [by right|done]].
  - intros (v' & [[= -> ->]|Hv]%elem_of_cons & Ht'); [left; congruence|right; eauto].
Qed.

Lemma same_text_object l k :
  NoDup l.*1 -> NoDup k.*1 ->
  (forall x v, (x, v) ∈ l -> exists w, (x, w) ∈ k /\ same_text v w) ->
  (forall x w, (x, w) ∈ k -> exists v, (x, v) ∈ l /\ same_text v w) ->
  same_text (JObject l) (JObject k).
Proof.
  intros Hl Hk Hlk Hkl.
  destruct (field_texts_exist l) as (ts & Hts & Hf & Hin).
  { apply Forall_forall. intros [x v] (w & _ & t & Ht & _)%Hlk. by exists t. }
  destruct (field_texts_exist k) as (us & Hus & Hg & Hin').
  { apply Forall_forall. intros [x w] (v & _ & t & _ & Ht)%Hkl. by exists t. }
  assert (sort_fields ts = sort_fields us) as Heq.
  { apply sort_by_unique_on; [apply _| |].
    - intros [x t] [y u] Hx Hy Hxy Hyx. unfold less_on in *. simpl in *.
      assert (x = y) as -> by (by apply (st_total (less := String.ltb))).
      apply Hin in Hx as (v & Hv & Ht), Hy as (v' & Hv' & Ht').
      apply find_field_distinct in Hv, Hv'; [|done..]. congruence.
    - apply NoDup_Permutation; [by apply (NoDup_fmap_1 fst); rewrite Hf|by apply (NoDup_fmap_1 fst); rewrite Hg|].
      intros [x t]. rewrite Hin, Hin'. split.
      + intros (v & Hv & Ht). destruct (Hlk x v Hv) as (w & Hw & t' & Hv' & Hw'). exists w. split; [done|congruence].
      + intros (w & Hw & Ht). destruct (Hkl x w Hw) as (v & Hv & t' & Hv' & Hw'). exists v. split; [done|congruence]. }
  eexists. split; apply canonical_Ok; cbn [appendCanonical]; fold field_text; [rewrite Hts; reflexivity|rewrite Hus]. cbn [result_bind]. by rewrite <- Heq.
Qed.

(** The keys and elements of a comparison without changes. *)
Lemma compareObject_nil path l k :
  NoDup l.*1 -> NoDup k.*1 ->
  compareObject id kind path (map (fun '(x, v) => (x, (v, cmp v))) l) k = Ok [] ->
  (forall x v, (x, v) ∈ l -> exists w p, (x, w) ∈ k /\ cmp v p w = Ok []) /\
  (forall x w, (x, w) ∈ k -> exists v p, (x, v) ∈ l /\ cmp v p w = Ok []).
Proof.
  intros Hl Hk Hc. unfold compareObject in Hc. rewrite concat_results_nil, Forall_fmap, Forall_forall in Hc.
  rewrite (map_field_fst (fun v => (v, cmp v))) in Hc.
  assert (forall x, x ∈ l.*1 \/ x ∈ k.*1 -> exists v w p, find_field l x = Some v /\ find_field k x = Some w /\ cmp v p w = Ok []) as Hx.
  { intros x Hin. specialize (Hc x). unfold sort_strings in Hc.
    rewrite elem_of_sort_by, elem_of_remove_dups, elem_of_app in Hc. specialize (Hc Hin). simpl in Hc. unfold object_key in Hc.
    rewrite (find_field_map (fun v => (v, cmp v)) l x) in Hc.
    destruct (find_field l x) as [v|] eqn:Hv, (find_field k x) as [w|] eqn:Hw; simpl in Hc.
    - eauto 10.
    - by apply deleted_not_nil in Hc.
    - by apply added_not_nil in Hc.
    - apply find_field_None in Hv, Hw. tauto. }
  split.
  - intros x v Hin. destruct (Hx x) as (v' & w & p & Hv & Hw & Hcmp).
    { left. apply list_elem_of_fmap. by exists (x, v). }
    rewrite (find_field_distinct _ _ _ Hl Hin) in Hv. injection Hv as ->. exists w, p. split; [by apply find_field_elem|done].
  - intros x w Hin. destruct (Hx x) as (v & w' & p & Hv & Hw & Hcmp).
    { right. apply list_elem_of_fmap. by exists (x, w). }
    rewrite (find_field_distinct _ _ _ Hk Hin) in Hw. injection Hw as ->. exists v, p. split; [by apply find_field_elem|done].
Qed.

Lemma compareArray_nil path l k :
  compareArray id kind path (map (fun v => (v, cmp v)) l) k = Ok [] ->
  exists tokens keyed keyed', arrayTokens path l = Ok (tokens, keyed) /\ arrayTokens path k = Ok (tokens, keyed') /\
    forall i t v w, tokens !! i = Some t -> l !! i = Some v -> k !! i = Some w -> t ∈ keyed ∩ keyed' ->
      exists p, cmp v p w = Ok [].
Proof.
  unfold compareArray. rewrite map_pair_fst.
  intros ([old keyed] & Ho & ([new keyed'] & Hn & Hc)%result_bind_Ok)%result_bind_Ok.
  apply result_bind_Ok in Hc as (c1 & H1 & Hc). apply result_bind_Ok in Hc as (c2 & H2 & [= Hnil]).
  apply app_eq_nil in Hnil as [-> ->].
  rewrite concat_results_nil, Forall_fmap in H1. rewrite concat_results_nil, Forall_fmap in H2.
  destruct (arrayTokens_ok _ _ _ _ Ho) as [Hond Holen _]. destruct (arrayTokens_ok _ _ _ _ Hn) as [Hnnd Hnlen _].
  change (map (fun v => (v, cmp v)) l) with ((fun v => (v, cmp v)) <$> l) in H1.
  assert (forall i t v, old !! i = Some t -> l !! i = Some v -> exists j, new !! j = Some t /\ t ∈ lcs_tokens old new /\
    (t ∈ keyed ∩ keyed' -> cmp v (arrayPath path j) (default JNull (k !! j)) = Ok [])) as Hold.
  { intros i t v Ht Hv. eapply Forall_lookup_1 in H1.
    2: { rewrite indexed_lookup, (proj2 (lookup_zip_Some _ _ i t (v, cmp v))); [done|]. by rewrite list_lookup_fmap, Hv. }
    apply old_element_nil in H1 as (j & Hj & Hl & Hc). exists j. split; [by apply tokenIndexes_lookup|]. by split. }
  assert (forall t, t ∈ new -> t ∈ old) as Hnew.
  { intros t [j Hj]%list_elem_of_lookup. destruct (lookup_lt_is_Some_2 k j) as [w Hw].
    { rewrite <- Hnlen. by eapply lookup_lt_Some. }
    eapply Forall_lookup_1 in H2; [|rewrite indexed_lookup, (proj2 (lookup_zip_Some _ _ j t w)) by done; reflexivity].
    revert H2. unfold new_element. simpl. case_decide as Hs; [|by intros ?%added_not_nil].
    intros _. by apply tokenIndexes_is_Some in Hs. }
  assert (old = new) as <-.
  { apply all_kept; [done|done| |done]. intros t [i Hi]%list_elem_of_lookup. destruct (lookup_lt_is_Some_2 l i) as [v Hv].
    { rewrite <- Holen. by eapply lookup_lt_Some. }
    destruct (Hold i t v Hi Hv) as (j & Hj & Hl & _). split; [by eapply list_elem_of_lookup_2|done]. }
  exists old, keyed, keyed'. split; [done|]. split; [done|]. intros i t v w Ht Hv Hw Hk.
  destruct (Hold i t v Ht Hv) as (j & Hj & _ & Hc). assert (j = i) as -> by (by eapply (NoDup_lookup old)).
  rewrite Hw in Hc. eauto.
Qed.

Lemma compareValue_nil v path w :
  distinct_keys v -> distinct_keys w -> separates v w -> cmp v path w = Ok [] -> same_text v w.
Proof.
  assert (forall v path w, compareLeaf id kind path v w = Ok [] -> same_text v w) as Hleaf.
  { intros a p b (ra & Ha & (rb & Hb & Hr)%result_bind_Ok)%result_bind_Ok.
    case_bool_decide as Heq; [subst; by exists rb|done]. }
  revert path w. induction v as [|b|s|s|l IH|l IH] using json_rect_nested; intros path w Hv Hw Hs Hc;
    try (eapply Hleaf; exact Hc).
  - destruct w as [| | | |k|]; try (eapply Hleaf; exact Hc). cbn [compareValue] in Hc.
    apply compareArray_nil in Hc as (tokens & keyed & keyed' & Hl & Hk & Hc). apply same_text_array.
    destruct (arrayTokens_ok _ _ _ _ Hl) as [Hnd Hll Hml], (arrayTokens_ok _ _ _ _ Hk) as [_ Hlk Hmk].
    apply Forall2_same_length_lookup. split; [congruence|]. intros i v w Hvi Hwi.
    destruct (lookup_lt_is_Some_2 tokens i) as [t Ht]; [rewrite Hll; by eapply lookup_lt_Some|].
    pose proof (list_elem_of_lookup_2 _ _ _ Hvi) as Hvl. pose proof (list_elem_of_lookup_2 _ _ _ Hwi) as Hwk.
    destruct Hml as [[-> [f Hml]]|[-> Hml]], Hmk as [[-> [f' Hmk]]|[-> Hmk]];
      pose proof (Forall2_lookup_lr _ _ _ _ _ _ Hml Hvi Ht) as Hvt; pose proof (Forall2_lookup_lr _ _ _ _ _ _ Hmk Hwi Ht) as Hwt.
    + destruct (Hc i t v w Ht Hvi Hwi) as [p Hp].
      { apply elem_of_intersection. split; apply elem_of_list_to_set; by eapply list_elem_of_lookup_2. }
      inversion Hv as [| | | |? Hvs|]; inversion Hw as [| | | |? Hws|]; subst. rewrite Forall_forall in IH, Hvs, Hws.
      eapply IH; [done|auto|auto|by eapply separates_array|exact Hp].
    + destruct Hvt as (? & ? & ? & _ & _ & _ & ->), Hwt as (? & ? & _ & Habs). by apply key_token_not_hash in Habs.
    + destruct Hvt as (? & ? & _ & ->), Hwt as (? & ? & ? & _ & _ & _ & Habs). by symmetry in Habs; apply key_token_not_hash in Habs.
    + destruct Hvt as (ra & n & Hra & ->), Hwt as (rb & n' & Hrb & Heq).
      apply hash_token_inj in Heq as [Heq _]; [|by rewrite !length_sha256_hex]. exists ra. split; [done|].
      rewrite Hrb. f_equal. symmetry. eapply Hs; [eapply sub_array; [exact Hvl|constructor]|eapply sub_array; [exact Hwk|constructor]|done..].
  - destruct w as [| | | | |k]; try (eapply Hleaf; exact Hc). cbn [compareValue] in Hc.
    inversion Hv as [| | | | |? Hl Hvs]; inversion Hw as [| | | | |? Hk Hws]; subst. rewrite Forall_forall in IH, Hvs, Hws.
    apply compareObject_nil in Hc as [Hlk Hkl]; [|done..]. apply same_text_object; [done|done| |].
    + intros x v Hx. destruct (Hlk x v Hx) as (w & p & Hw' & Hp). exists w. split; [done|].
      eapply (IH (x, v)); [done|by apply (Hvs (x, v))|by apply (Hws (x, w))|by eapply separates_object|exact Hp].
    + intros x w Hx. destruct (Hkl x w Hx) as (v & p & Hv' & Hp). exists v. split; [done|].
      eapply (IH (x, v)); [done|by apply (Hvs (x, v))|by apply (Hws (x, w))|by eapply separates_object|exact Hp].
Qed.
End no_changes.
