(* ===== verification/DiffEntities.v ===== *)
(** * The comparison of two revisions: what its changes are

    Decoded values have distinct keys; the entities of two manifests are paired
    by identity; every change is valid, and no changes means equal content. *)
From Stdlib Require Import Ascii.
From S2P Require Import Prelude GoSort GoStrings GoCrypto GoJson Domain DiffSequence VersionDiff DiffArrays DiffCompare.
#[local] Open Scope nat_scope.

(** ** Decoding *)
Definition fields_ok (fs : list (string * json)) : Prop := NoDup fs.*1 /\ Forall (fun kv => distinct_keys kv.2) fs.

Lemma put_ok fs key v : fields_ok fs -> distinct_keys v -> fields_ok (put fs key v).
Proof.
  intros [Hnd Hall] Hv. unfold put.
  assert (forall kv, kv ∈ List.filter (fun kv => negb (bool_decide (kv.1 = key))) fs <-> kv ∈ fs /\ kv.1 <> key) as Hin.
  { intros kv. rewrite !list_elem_of_In, filter_In, negb_true_iff, bool_decide_eq_false. done. }
  split.
  - rewrite fmap_app. apply NoDup_app. split_and!.
    + clear Hin Hall. induction fs as [|[k u] fs IH]; csimpl; [constructor|]. apply NoDup_cons in Hnd as [Hk Hnd].
      case_bool_decide; csimpl; [by apply IH|]. constructor; [|by apply IH].
      intros (kv & -> & Hf)%list_elem_of_fmap. apply Hk. apply list_elem_of_fmap. exists kv. split; [done|].
      rewrite list_elem_of_In, filter_In, <- list_elem_of_In in Hf. tauto.
    + intros k (kv & -> & Hkv)%list_elem_of_fmap. apply Hin in Hkv as [_ Hne]. csimpl.
      by intros ?%list_elem_of_singleton.
    + csimpl. apply NoDup_singleton.
  - apply Forall_app. split; [|by repeat constructor]. rewrite Forall_forall in Hall |- *.
    intros kv [Hkv _]%Hin. by apply Hall.
Qed.

Lemma scan_ok fuel :
  (forall d s v r, scan_value fuel d s = Some (v, r) -> distinct_keys v) /\
  (forall d s vs r, scan_values fuel d s = Some (vs, r) -> Forall distinct_keys vs) /\
  (forall d s acc fs r, fields_ok acc -> scan_fields fuel d s acc = Some (fs, r) -> fields_ok fs).
Proof.
  induction fuel as [|fuel (IHv & IHvs & IHfs)]; [split_and!; done|].
  assert (fields_ok []) as Hempty by (split; constructor).
  split_and!.
  - intros d s v r H. cbn [scan_value] in H.
    destruct (expect "{"%char s) as [r1|]; [destruct d as [|d]; [done|]; destruct (expect "}"%char r1)|].
    { by injection H as <- _; constructor; [constructor|]. }
    { apply bind_Some in H as ([fs r'] & Hf & [= <- _]). destruct (IHfs _ _ _ _ _ Hempty Hf). by constructor. }
    destruct (expect "["%char s) as [r1|]; [destruct d as [|d]; [done|]; destruct (expect "]"%char r1)|].
    { by injection H as <- _; constructor. }
    { apply bind_Some in H as ([vs r'] & Hf & [= <- _]). constructor. by eapply IHvs. }
    destruct (expect quote_char s) as [r1|].
    { apply bind_Some in H as ([t r'] & _ & [= <- _]). constructor. }
    assert (forall word u s, literal word u s = Some (v, r) -> v = u) as Hlit.
    { intros word u s0. unfold literal. by destruct (has_prefix word s0); [intros [= <- _]|]. }
    destruct (literal "true" _ _) as [[v1 r1]|] eqn:E1; [injection H as -> ->; apply Hlit in E1 as ->; constructor|].
    destruct (literal "false" _ _) as [[v1 r1]|] eqn:E2; [injection H as -> ->; apply Hlit in E2 as ->; constructor|].
    destruct (literal "null" _ _) as [[v1 r1]|] eqn:E3; [injection H as -> ->; apply Hlit in E3 as ->; constructor|].
    apply bind_Some in H as ([n r'] & _ & [= <- _]). constructor.
  - intros d s vs r H. cbn [scan_values] in H. apply bind_Some in H as ([v r'] & Hv%IHv & H).
    destruct (expect ","%char r') as [r1|]; [|destruct (expect "]"%char r')].
    + apply bind_Some in H as ([vs' r''] & Hvs%IHvs & [= <- _]). by constructor.
    + injection H as <- _. by repeat constructor.
    + done.
  - intros d s acc fs r Hacc H. cbn [scan_fields] in H.
    apply bind_Some in H as (q & _ & H). apply bind_Some in H as ([key r1] & _ & H).
    apply bind_Some in H as (r2 & _ & H). apply bind_Some in H as ([v r3] & Hv%IHv & H).
    destruct (expect ","%char r3) as [r4|]; [|destruct (expect "}"%char r3)].
    + eapply IHfs; [|exact H]. by apply put_ok.
    + injection H as <- _. by apply put_ok.
    + done.
Qed.

Lemma Decode_distinct s v : Decode s = Some v -> distinct_keys v.
Proof. unfold Decode. intros ([v' r] & Hs & ->)%fmap_Some. by eapply scan_ok. Qed.

(** ** Pairing entities *)
Section entities.
Context `{UuidLib, FloatText}.

Definition entities_ok (l : list EntityBlob) : Prop :=
  Forall (fun b => ID_Valid (Blob_EntityID b) = true) l /\ NoDup (Blob_EntityID <$> l).

(** The entity of a manifest with an identity. *)
Definition entity_of (l : list EntityBlob) (id : ID) : option EntityBlob :=
  List.find (fun b => bool_decide (Blob_EntityID b = id)) l.

Definition pair_of (b t : option EntityBlob) : option entityPair :=
  match b, t with None, None => None | _, _ => Some (b, t) end.

Lemma entity_of_Some l id b : entity_of l id = Some b -> b ∈ l /\ Blob_EntityID b = id.
Proof. intros [Hin Hid]%find_some. apply bool_decide_eq_true in Hid. split; [by apply list_elem_of_In|done]. Qed.

Lemma entity_of_is_Some l id : is_Some (entity_of l id) <-> id ∈ Blob_EntityID <$> l.
Proof.
  split.
  - intros [b [Hin <-]%entity_of_Some]. by apply list_elem_of_fmap_2.
  - intros (b & -> & Hb)%list_elem_of_fmap. destruct (entity_of l (Blob_EntityID b)) eqn:E; [eauto|].
    eapply find_none in E; [|by apply list_elem_of_In]. by apply bool_decide_eq_false in E.
Qed.

Lemma entity_of_None l id : entity_of l id = None <-> id ∉ Blob_EntityID <$> l.
Proof. by rewrite eq_None_not_Some, entity_of_is_Some. Qed.

Lemma entity_of_snoc l b id :
  entity_of (l ++ [b]) id = match entity_of l id with Some x => Some x | None => if decide (Blob_EntityID b = id) then Some b else None end.
Proof.
  unfold entity_of. induction l as [|x l IH]; simpl.
  - repeat case_decide; case_bool_decide; done.
  - by case_bool_decide.
Qed.

(** The two loops of [combineEntities], one invariant each. *)
Lemma combine_base_spec l byID :
  foldr_result combine_base ∅ l = Ok byID -> entities_ok l /\ forall id, byID !! id = pair_of (entity_of l id) None.
Proof.
  apply (foldr_result_inv combine_base (fun done byID => entities_ok done /\ forall id, byID !! id = pair_of (entity_of done id) None)).
  { split; [split; constructor|done]. }
  intros done_ b s1 s2 [[Hv Hnd] Hs1]. unfold combine_base. destruct (ID_Valid (Blob_EntityID b)) eqn:Hb; simpl; [|done].
  rewrite Hs1. destruct (entity_of done_ (Blob_EntityID b)) as [x|] eqn:Hx; simpl; [done|]. intros [= <-]. split.
  - split; [by apply Forall_app; split; [|constructor]|]. rewrite fmap_app. apply NoDup_app. split_and!; [done| |apply NoDup_singleton].
    intros id Hin ->%list_elem_of_singleton. by apply entity_of_None in Hx.
  - intros id. rewrite entity_of_snoc. destruct (decide (Blob_EntityID b = id)) as [<-|Hne].
    + by rewrite lookup_insert_eq, Hx.
    + rewrite lookup_insert_ne, Hs1 by done. by destruct (entity_of done_ id).
Qed.

Lemma entities_ok_snoc l b : entities_ok l -> ID_Valid (Blob_EntityID b) = true -> entity_of l (Blob_EntityID b) = None -> entities_ok (l ++ [b]).
Proof.
  intros [Hv Hnd] Hb Hx%entity_of_None. split; [by apply Forall_app; split; [|constructor]|].
  rewrite fmap_app. apply NoDup_app. split_and!; [done| |apply NoDup_singleton]. by intros id Hin ->%list_elem_of_singleton.
Qed.

Lemma entities_ok_step l done_ b rest : entities_ok l -> l = done_ ++ b :: rest ->
  ID_Valid (Blob_EntityID b) = true /\ entity_of done_ (Blob_EntityID b) = None.
Proof.
  intros [Hv Hnd] ->. apply Forall_app in Hv as [_ Hb%Forall_inv]. split; [done|]. apply entity_of_None.
  rewrite fmap_app in Hnd. apply NoDup_app in Hnd as (_ & Hd & _). intros Hin. apply (Hd _ Hin). left.
Qed.

Lemma pair_of_insert_target (f : ID -> option EntityBlob) l t byID :
  entity_of l (Blob_EntityID t) = None ->
  (forall id, byID !! id = pair_of (f id) (entity_of l id)) ->
  forall id, (<[Blob_EntityID t := (f (Blob_EntityID t), Some t)]> byID : gmap ID entityPair) !! id = pair_of (f id) (entity_of (l ++ [t]) id).
Proof.
  intros Hx Hs id. rewrite entity_of_snoc. destruct (decide (Blob_EntityID t = id)) as [<-|Hne].
  - rewrite lookup_insert_eq, Hx. by destruct (f (Blob_EntityID t)).
  - rewrite lookup_insert_ne, Hs by done. by destruct (entity_of l id).
Qed.

Lemma combine_target_spec (f : ID -> option EntityBlob) l byID0 byID :
  (forall id, byID0 !! id = pair_of (f id) None) -> foldr_result combine_target byID0 l = Ok byID ->
  entities_ok l /\ forall id, byID !! id = pair_of (f id) (entity_of l id).
Proof.
  intros Hinit. apply (foldr_result_inv combine_target (fun d byID => entities_ok d /\ forall id, byID !! id = pair_of (f id) (entity_of d id))).
  { split; [split; constructor|]. done. }
  intros d t s1 s2 [Hok Hs1]. unfold combine_target. destruct (ID_Valid (Blob_EntityID t)) eqn:Ht; simpl; [|done].
  pose proof (Hs1 (Blob_EntityID t)) as Hid. rewrite Hid.
  destruct (entity_of d (Blob_EntityID t)) as [x|] eqn:Hx; [by destruct (f (Blob_EntityID t))|].
  intros Hs2. split; [by apply entities_ok_snoc|].
  assert (s2 = <[Blob_EntityID t := (f (Blob_EntityID t), Some t)]> s1) as -> by (by destruct (f (Blob_EntityID t)); injection Hs2).
  by apply pair_of_insert_target.
Qed.

(** [combineEntities] pairs the two manifests, and fails exactly on invalid and
    duplicate identities. *)
Lemma combineEntities_spec base target byID :
  combineEntities base target = Ok byID ->
  entities_ok base /\ entities_ok target /\ forall id, byID !! id = pair_of (entity_of base id) (entity_of target id).
Proof.
  unfold combineEntities. intros (byID0 & [Hb Hinit]%combine_base_spec & Ht)%result_bind_Ok.
  by apply (combine_target_spec (entity_of base)) in Ht as [Ht H1].
Qed.

Lemma combineEntities_total base target :
  entities_ok base -> entities_ok target -> exists byID, combineEntities base target = Ok byID.
Proof.
  intros Hb Ht. unfold combineEntities.
  destruct (foldr_result_total combine_base (fun d byID => forall id, byID !! id = pair_of (entity_of d id) None) ∅ base) as (byID0 & -> & Hinit).
  { done. }
  { intros d b rest s1 Hl Hs1. destruct (entities_ok_step _ _ _ _ Hb Hl) as [Hv Hx]. unfold combine_base. rewrite Hv, Hs1, Hx. simpl.
    eexists. split; [done|]. intros id. rewrite entity_of_snoc. destruct (decide (Blob_EntityID b = id)) as [<-|Hne].
    - by rewrite lookup_insert_eq, Hx.
    - rewrite lookup_insert_ne, Hs1 by done. by destruct (entity_of d id). }
  simpl.
  destruct (foldr_result_total combine_target (fun d byID => forall id, byID !! id = pair_of (entity_of base id) (entity_of d id)) byID0 target)
    as (byID & -> & _); [done| |eauto].
  intros d t rest s1 Hl Hs1. destruct (entities_ok_step _ _ _ _ Ht Hl) as [Hv Hx].
  exists (<[Blob_EntityID t := (entity_of base (Blob_EntityID t), Some t)]> s1). split; [|by apply pair_of_insert_target].
  unfold combine_target. rewrite Hv, Hs1, Hx. simpl. by destruct (entity_of base (Blob_EntityID t)).
Qed.

Lemma sortedEntityIDs_spec byID :
  StronglySorted (fun a b => String.ltb a b = true) (sortedEntityIDs byID) /\
  forall id, id ∈ sortedEntityIDs byID <-> is_Some (byID !! id).
Proof.
  unfold sortedEntityIDs. split; [apply sort_strings_NoDup_lt, NoDup_fst_map_to_list|].
  intros id. unfold sort_strings. rewrite elem_of_sort_by, list_elem_of_fmap. split.
  - intros ([k p] & -> & Hp%elem_of_map_to_list). eauto.
  - intros [p Hp]. exists (id, p). by rewrite elem_of_map_to_list.
Qed.

Lemma entity_of_NoDup l b : NoDup (Blob_EntityID <$> l) -> b ∈ l -> entity_of l (Blob_EntityID b) = Some b.
Proof.
  intros Hnd Hb. unfold entity_of. induction l as [|x l IH]; [by apply elem_of_nil in Hb|]. simpl in *.
  apply NoDup_cons in Hnd as [Hx Hnd]. apply elem_of_cons in Hb as [->|Hb]; [by rewrite bool_decide_true|].
  rewrite bool_decide_false; [by apply IH|]. intros Heq. apply Hx. rewrite Heq. by apply list_elem_of_fmap_2.
Qed.

(** ** Every change is about its entity *)
Record about (id : ID) (kind : EntityKind) (c : FieldChange) : Prop := {
  about_id : EntityID c = id;
  about_kind : Change_EntityKind c = kind;
  about_valid : ID_Valid id = true -> EntityKind_Valid kind = true -> FieldChange_Valid c = true
}.

Lemma concat_results_Forall (P : FieldChange -> Prop) l cs :
  concat_results l = Ok cs -> Forall (fun r => forall c, r = Ok c -> Forall P c) l -> Forall P cs.
Proof.
  revert cs. induction l as [|r l IH]; intros cs; simpl; [intros [= <-]; constructor|].
  intros (c & Hc & (cs' & Hcs & [= <-])%result_bind_Ok)%result_bind_Ok [Hr Hl]%Forall_cons.
  apply Forall_app. split; [by apply Hr|by apply IH].
Qed.

Lemma arrayPath_nonempty path i : arrayPath path i <> ""%string.
Proof. unfold arrayPath. by destruct path. Qed.

Section about_entity.
Variables (id : ID) (kind : EntityKind).
Notation changes_about := (Forall (about id kind)).
Notation good cmp := (forall path w cs, cmp path w = Ok cs -> changes_about cs).

Lemma about_change path k o n oo no :
  ChangeKind_Valid k = true -> path <> ""%string -> option_forallb (fun x => 0 <=? x)%Z oo = true ->
  option_forallb (fun x => 0 <=? x)%Z no = true -> changes_about [mkChange id kind path k o n oo no].
Proof.
  intros Hk Hp Ho Hn. constructor; [|constructor]. split; [done|done|]. intros Hid Hkind. unfold FieldChange_Valid. simpl.
  by rewrite Hid, Hkind, Hk, Ho, Hn, bool_decide_false.
Qed.

Lemma added_about path v o cs : path <> ""%string -> option_forallb (fun x => 0 <=? x)%Z o = true -> added id kind path v o = Ok cs -> changes_about cs.
Proof. intros Hp Ho (raw & _ & [= <-])%result_bind_Ok. by apply about_change. Qed.
Lemma deleted_about path v o cs : path <> ""%string -> option_forallb (fun x => 0 <=? x)%Z o = true -> deleted id kind path v o = Ok cs -> changes_about cs.
Proof. intros Hp Ho (raw & _ & [= <-])%result_bind_Ok. by apply about_change. Qed.
Lemma ordinal_ok i : option_forallb (fun x => 0 <=? x)%Z (Some (Z.of_nat i)) = true.
Proof. simpl. apply Z.leb_le. lia. Qed.

Lemma old_element_about path newArray newIndex inLCS keyed i token child cs :
  good child.2 -> old_element id kind path newArray newIndex inLCS keyed i token child = Ok cs -> changes_about cs.
Proof.
  intros Hg. unfold old_element. destruct (newIndex !! token) as [j|].
  - intros (inner & Hin & [= <-])%result_bind_Ok. apply Forall_app. split.
    + clear Hin. case_bool_decide; [constructor|]. apply about_change; [done|apply arrayPath_nonempty|apply ordinal_ok..].
    + revert Hin. case_bool_decide; [apply Hg|intros [= <-]; constructor].
  - apply deleted_about; [apply arrayPath_nonempty|apply ordinal_ok].
Qed.

Lemma compareArray_about path l k cs :
  Forall (fun c => good c.2) l -> compareArray id kind path l k = Ok cs -> changes_about cs.
Proof.
  intros Hl. unfold compareArray. intros ([old keyed] & _ & ([new keyed'] & _ & Hc)%result_bind_Ok)%result_bind_Ok.
  apply result_bind_Ok in Hc as (c1 & H1 & Hc). apply result_bind_Ok in Hc as (c2 & H2 & [= <-]).
  apply Forall_app. split; [eapply concat_results_Forall; [exact H1|]|eapply concat_results_Forall; [exact H2|]];
    apply Forall_fmap, Forall_lookup_2; intros i [i' [token c]]; rewrite indexed_lookup; intros Hz c0 Hc0.
  - apply fmap_Some in Hz as ([tok ch] & Hz & [= -> -> ->]). apply lookup_zip_Some in Hz as [_ Hch].
    eapply old_element_about; [|exact Hc0]. by eapply Forall_lookup_1 in Hl.
  - simpl in Hc0. unfold new_element in Hc0. case_decide; [injection Hc0 as <-; constructor|].
    eapply added_about; [apply arrayPath_nonempty|apply ordinal_ok|exact Hc0].
Qed.

Lemma compareObject_about path l k cs :
  Forall (fun kv => good kv.2.2) l -> compareObject id kind path l k = Ok cs -> changes_about cs.
Proof.
  intros Hl Hc. eapply concat_results_Forall; [exact Hc|]. apply Forall_fmap, Forall_forall. intros key _ c.
  unfold object_key. simpl. assert (forall s, (path +:+ "/" +:+ s)%string <> ""%string) as Hp by (intros s; by destruct path).
  destruct (find_field l key) as [old|] eqn:Ho, (find_field k key) as [new|].
  - apply find_field_elem in Ho. rewrite Forall_forall in Hl. apply (Hl _ Ho).
  - by apply deleted_about.
  - by apply added_about.
  - intros [= <-]. constructor.
Qed.

Lemma compareValue_about v : good (compareValue id kind v).
Proof.
  assert (forall v, good (fun path w => compareLeaf id kind path v w)) as Hleaf.
  { intros a path b cs (ra & _ & (rb & _ & Hr)%result_bind_Ok)%result_bind_Ok. revert Hr.
    case_bool_decide; [intros [= <-]; constructor|]. intros [= <-]. apply about_change; [done| |done..]. by case_bool_decide. }
  induction v as [|b|s|s|l IH|l IH] using json_rect_nested; intros path w cs; try (apply Hleaf).
  - destruct w as [| | | |k|]; try (apply Hleaf). cbn [compareValue]. apply compareArray_about.
    change (map ?f l) with (f <$> l). apply Forall_fmap. exact IH.
  - destruct w as [| | | | |k]; try (apply Hleaf). cbn [compareValue]. apply compareObject_about.
    change (map ?f l) with (f <$> l). apply Forall_fmap. eapply Forall_impl; [exact IH|]. by intros [x v].
Qed.
End about_entity.

Lemma compare_entity_about byID id cs :
  compare_entity byID id = Ok cs -> exists kind, Forall (about id kind) cs /\
    (cs = [] \/ exists p, byID !! id = Some p /\ (exists e, (p.1 = Some e \/ p.2 = Some e) /\ kind = Blob_Kind e)).
Proof.
  unfold compare_entity. destruct (byID !! id) as [[[b|] [t|]]|] eqn:Hp.
  - case_bool_decide as Hk; simpl; [|done]. intros (v & _ & (w & _ & Hc)%result_bind_Ok)%result_bind_Ok.
    exists (Blob_Kind b). split; [by eapply compareValue_about|]. right. eexists. split; [done|]. exists b. auto.
  - intros [= <-]. exists (Blob_Kind b). split; [by apply about_change|]. right. eexists. split; [done|]. exists b. auto.
  - intros [= <-]. exists (Blob_Kind t). split; [by apply about_change|]. right. eexists. split; [done|]. exists t. auto.
  - intros [= <-]. exists KindAttribute. split; [constructor|by left].
  - intros [= <-]. exists KindAttribute. split; [constructor|by left].
Qed.
End entities.
