(* ===== verification/DiffRevisions.v ===== *)
(** * The contract of the revision comparison

    The theorems about [Compare] and [CompareRevisionSegment]: the changes of a
    comparison are valid and ordered, identical revisions have none, revisions
    without changes have the same content, and the bounded segments add up to
    the whole comparison. *)
From S2P Require Import Prelude GoSort GoStrings GoCrypto GoJson Domain DiffSequence VersionDiff DiffArrays DiffCompare DiffEntities.
#[local] Open Scope nat_scope.

#[export] Instance change_less_weak : WeakOrder change_less.
Proof. apply _. Qed.

Section revisions.
Context `{UuidLib, FloatText}.

Definition kinds_ok (l : list EntityBlob) : Prop := Forall (fun b => EntityKind_Valid (Blob_Kind b) = true) l.

Lemma pair_of_Some b t p : pair_of b t = Some p -> p = (b, t).
Proof. destruct b, t; simpl; congruence. Qed.

(** The changes of a comparison are valid, are about entities of the two
    revisions, and are listed in the order of entity, path and kind. *)
Theorem compare_changes_valid_and_sorted base target changes :
  kinds_ok base -> kinds_ok target -> Compare base target = Ok changes ->
  Forall (fun c => FieldChange_Valid c = true /\
    EntityID c ∈ (Blob_EntityID <$> base) ++ (Blob_EntityID <$> target)) changes /\
  StronglySorted (not_after change_less) changes.
Proof.
  intros Hkb Hkt (byID & Hby & (cs & Hcs & [= <-])%result_bind_Ok)%result_bind_Ok.
  split; [|apply sort_by_sorted; apply _]. apply Forall_sort_by.
  apply combineEntities_spec in Hby as ([Hvb _] & [Hvt _] & Hby).
  eapply concat_results_Forall; [exact Hcs|]. apply Forall_fmap, Forall_forall. intros id _ c Hc.
  destruct (compare_entity_about _ _ _ Hc) as (kind & Hall & [->|(p & Hp & e & He & ->)]); [constructor|].
  rewrite Hby in Hp. apply pair_of_Some in Hp as ->. unfold kinds_ok in *. rewrite Forall_forall in Hkb, Hkt, Hvb, Hvt.
  assert (ID_Valid id = true /\ EntityKind_Valid (Blob_Kind e) = true /\ id ∈ (Blob_EntityID <$> base) ++ (Blob_EntityID <$> target)) as (Hid & Hk & Hin).
  { destruct He as [[Hin <-]%entity_of_Some|[Hin <-]%entity_of_Some]; (split; [auto|]; split; [auto|]);
      apply elem_of_app; [left|right]; by apply list_elem_of_fmap_2. }
  eapply Forall_impl; [exact Hall|]. intros ch [<- _ Hv]. split; [by apply Hv|done].
Qed.

Definition content (b : EntityBlob) (v : json) : Prop := Decode (Blob_JSON b) = Some v.

(** A revision compared with itself has no changes, whatever the order in which
    its entities arrive. *)
Theorem compare_identical l l' :
  entities_ok l -> Forall (fun b => exists v, content b v /\ has_canonical v) l -> l ≡ₚ l' -> Compare l l' = Ok [].
Proof.
  intros Hok Hc Hp.
  assert (entities_ok l') as Hok' by (destruct Hok as [Hv Hnd]; split; by rewrite <- Hp).
  destruct (combineEntities_total l l' Hok Hok') as [byID Hby]. unfold Compare. rewrite Hby. simpl.
  apply combineEntities_spec in Hby as (_ & _ & Hby). unfold compareEntityIDs.
  rewrite (proj2 (concat_results_nil _)); [done|]. apply Forall_fmap, Forall_forall. intros id _. simpl. unfold compare_entity.
  rewrite Hby. destruct (entity_of l id) as [b|] eqn:Hb.
  - apply entity_of_Some in Hb as [Hb <-]. rewrite (entity_of_NoDup l' b); [|apply Hok'|by rewrite <- Hp]. simpl.
    rewrite bool_decide_true by done. simpl. rewrite Forall_forall in Hc. destruct (Hc b Hb) as (v & Hd & Hv).
    unfold decodeJSON. unfold content in Hd. rewrite Hd. simpl. by apply compareValue_same.
  - apply entity_of_None in Hb. rewrite Hp in Hb. apply entity_of_None in Hb. by rewrite Hb.
Qed.

(** When a comparison reports no changes, the two revisions have the same
    entities, of the same kinds, with the same canonical content; the parts of
    two different contents must not collide under SHA-256. *)
Theorem no_changes_same_content base target :
  (forall b t v w, b ∈ base -> t ∈ target -> content b v -> content t w -> separates v w) ->
  Compare base target = Ok [] ->
  (forall id, id ∈ Blob_EntityID <$> base <-> id ∈ Blob_EntityID <$> target) /\
  (forall b t, b ∈ base -> t ∈ target -> Blob_EntityID b = Blob_EntityID t ->
     Blob_Kind b = Blob_Kind t /\ exists v w, content b v /\ content t w /\ same_text v w).
Proof.
  intros Hsep (byID & Hby & (cs & Hcs & [= Hnil])%result_bind_Ok)%result_bind_Ok.
  assert (cs = []) as -> by (apply length_zero_iff_nil; rewrite <- (length_sort_by change_less cs); unfold sortChanges in Hnil; by rewrite Hnil).
  apply combineEntities_spec in Hby as ([_ Hnb] & [_ Hnt] & Hby).
  destruct (sortedEntityIDs_spec byID) as [_ Hids]. rewrite concat_results_nil, Forall_fmap, Forall_forall in Hcs.
  assert (forall id, is_Some (byID !! id) -> exists b t, entity_of base id = Some b /\ entity_of target id = Some t /\
    Blob_Kind b = Blob_Kind t /\ exists v w, content b v /\ content t w /\ same_text v w) as Hall.
  { intros id Hin. pose proof (proj2 (Hids id) Hin) as Hc%Hcs. simpl in Hc. unfold compare_entity in Hc. rewrite Hby in Hc, Hin.
    destruct (entity_of base id) as [b|] eqn:Hb, (entity_of target id) as [t|] eqn:Ht; simpl in Hc, Hin;
      [|done|done|by apply is_Some_None in Hin].
    revert Hc. case_bool_decide as Hk; simpl; [|done]. intros (v & Hv & (w & Hw & Hc)%result_bind_Ok)%result_bind_Ok.
    unfold decodeJSON in Hv, Hw. destruct (Decode (Blob_JSON b)) as [v'|] eqn:Hdv; [|done]. destruct (Decode (Blob_JSON t)) as [w'|] eqn:Hdw; [|done].
    injection Hv as ->. injection Hw as ->. exists b, t. split; [done|]. split; [done|]. split; [done|]. exists v, w. split; [done|]. split; [done|].
    eapply compareValue_nil; [by eapply Decode_distinct|by eapply Decode_distinct| |exact Hc].
    apply entity_of_Some in Hb as [Hb _], Ht as [Ht _]. by eapply (Hsep b t). }
  assert (forall id, is_Some (byID !! id) <-> is_Some (entity_of base id) \/ is_Some (entity_of target id)) as Hsome.
  { intros id. rewrite Hby. destruct (entity_of base id), (entity_of target id); simpl; split; (intros [? ?] || intros [[? ?]|[? ?]]); eauto; try done. }
  split.
  - intros id. rewrite <- !entity_of_is_Some.
    split; intros Hin; (destruct (Hall id) as (b & t & Hb & Ht & _); [apply Hsome; auto|]); by eexists.
  - intros b t Hb Ht Heq. destruct (Hall (Blob_EntityID b)) as (b' & t' & Hb' & Ht' & Hk & Hc).
    { apply Hsome. left. apply entity_of_is_Some. by apply list_elem_of_fmap_2. }
    rewrite (entity_of_NoDup base b Hnb Hb) in Hb'. rewrite Heq, (entity_of_NoDup target t Hnt Ht) in Ht'.
    injection Hb' as <-. injection Ht' as <-. done.
Qed.
End revisions.

Module RevisionExamples.
#[local] Instance literal_text : FloatText := {| float_text := Ok |}.
Definition uuid (n : string) : ID := ("00000000-0000-7000-8000-00000000000" +:+ n)%string.
Definition quoted (s : string) : string := (quote_mark +:+ s +:+ quote_mark)%string.
Definition blob (n text : string) : EntityBlob := mkBlob (uuid n) KindItem StatusActive text.
Definition member (name text : string) : string := (quoted name +:+ ":" +:+ text)%string.

(** One modifier changes its value, one changes its place and one is new. *)
Definition modifier (id value : string) : string :=
  ("{" +:+ member "id" (quoted id) +:+ "," +:+ member "value" value +:+ "}")%string.
Definition modifiers (l : list string) : string :=
  ("{" +:+ member "payload" ("{" +:+ member "modifiers" ("[" +:+ Join l "," +:+ "]") +:+ "}") +:+ "}")%string.
Definition old_item : EntityBlob := blob "1" (modifiers [modifier "a" "1"; modifier "b" "2"; modifier "c" "3"]).
Definition new_item : EntityBlob := blob "1" (modifiers [modifier "b" "2"; modifier "c" "4"; modifier "a" "1"; modifier "d" "5"]).
Definition item_changes : list FieldChange := Eval vm_compute in
  match Compare [old_item] [new_item; blob "2" "{}"] with Ok l => l | Err _ => [] end.

Example item_changes_are : (fun c => (Path c, kind_text (Kind c), OldOrdinal c, NewOrdinal c)) <$> item_changes =
  [("/payload/modifiers/1/value", "MODIFY", None, None); ("/payload/modifiers/2", "MOVE", Some 0%Z, Some 2%Z);
   ("/payload/modifiers/3", "ADD", None, Some 3%Z); ("/", "ADD", None, None)]%string.
Proof. reflexivity. Qed.

Lemma compare_changes_valid_and_sorted_witness :
  Forall (fun c => FieldChange_Valid c = true /\
    EntityID c ∈ (Blob_EntityID <$> [old_item]) ++ (Blob_EntityID <$> [new_item; blob "2" "{}"])) item_changes /\
  StronglySorted (not_after change_less) item_changes.
Proof.
  apply (compare_changes_valid_and_sorted [old_item] [new_item; blob "2" "{}"]);
    [by repeat constructor..|vm_compute; reflexivity].
Defined.

Lemma compare_identical_witness : Compare [old_item; blob "2" "{}"] [blob "2" "{}"; old_item] = Ok [].
Proof.
  apply compare_identical; [split; [by repeat constructor|compute_decide]| |apply Permutation_swap].
  constructor; [|constructor; [|constructor]]; (eexists; split; [vm_compute; reflexivity|eexists; vm_compute; reflexivity]).
Defined.

(** The same content, written differently. *)
Definition plain : EntityBlob := blob "1" ("{" +:+ member "v" "1" +:+ "}").
Definition spaced : EntityBlob := blob "1" ("{ " +:+ member "v" " 1" +:+ " }").
Definition parsed : json := JObject [("v"%string, JNumber "1")].

Lemma parsed_parts a : subvalue a parsed -> a = parsed \/ a = JNumber "1".
Proof.
  intros H. inversion H as [|? ? Hin Hs|k w l Hin Hs]; [by left|]. subst. right.
  apply list_elem_of_singleton in Hin. injection Hin as -> ->. by inversion Hs.
Qed.

Definition parsed_text : string := ("{" +:+ member "v" "1" +:+ "}")%string.

Lemma parsed_separates : separates parsed parsed.
Proof.
  assert (canonical parsed = Ok parsed_text) as Hp by (vm_compute; reflexivity).
  assert (canonical (JNumber "1") = Ok "1"%string) as Hn by reflexivity.
  assert (sha256_hex parsed_text <> sha256_hex "1") as Hne by (vm_compute; discriminate).
  intros a b ra rb [->| ->]%parsed_parts [->| ->]%parsed_parts; rewrite ?Hp, ?Hn; intros [= <-] [= <-]; congruence.
Qed.

Lemma no_changes_same_content_witness :
  Compare [plain] [spaced] = Ok [] /\ Blob_JSON plain <> Blob_JSON spaced /\
  (forall id, id ∈ Blob_EntityID <$> [plain] <-> id ∈ Blob_EntityID <$> [spaced]).
Proof.
  assert (Compare [plain] [spaced] = Ok []) as Hc by (vm_compute; reflexivity).
  assert (content plain parsed) as Hp by (vm_compute; reflexivity).
  assert (content spaced parsed) as Hq by (vm_compute; reflexivity).
  assert (forall b t v w, b ∈ [plain] -> t ∈ [spaced] -> content b v -> content t w -> separates v w) as Hs.
  { intros b t v w ->%list_elem_of_singleton ->%list_elem_of_singleton Hv Hw.
    unfold content in *. rewrite Hp in Hv. rewrite Hq in Hw. injection Hv as <-. injection Hw as <-. apply parsed_separates. }
  split; [exact Hc|]. split; [vm_compute; discriminate|].
  exact (proj1 (no_changes_same_content [plain] [spaced] Hs Hc)).
Defined.
End RevisionExamples.
