(* ===== verification/DiffPaging.v ===== *)
(** * Bounded segments of a comparison add up to the whole

    [SegmentReaderLaws] is the contract of ports.go: a segment is the sorted
    range of a manifest after a cursor, cut at a limit. *)
From S2P Require Import Prelude GoSort GoStrings GoCrypto GoJson Domain DiffSequence VersionDiff DiffArrays DiffCompare DiffEntities.
#[local] Open Scope nat_scope.

(** ** Strictly sorted lists of identities *)
Definition slt (a b : string) : Prop := String.ltb a b = true.
Notation ascending := (StronglySorted slt).

Lemma slt_irrefl a : slt a a -> False.
Proof. unfold slt. intros H. pose proof (wo_irrefl (less := String.ltb) a). congruence. Qed.
Lemma slt_asym a b : slt a b -> slt b a -> False.
Proof. unfold slt. intros H1 H2. pose proof (wo_asym String.ltb a b H1). congruence. Qed.

Lemma ascending_head_eq a l b k :
  ascending (a :: l) -> ascending (b :: k) -> a ∈ b :: k -> b ∈ a :: l -> a = b.
Proof.
  intros [Ha _]%StronglySorted_cons [Hb _]%StronglySorted_cons [Heq|Hak]%elem_of_cons [Heq'|Hbl]%elem_of_cons; try done.
  rewrite Forall_forall in Ha, Hb. exfalso. eapply slt_asym; [by apply Ha|by apply Hb].
Qed.

Lemma ascending_tail_incl a l k : ascending (a :: l) -> (forall x, x ∈ a :: l -> x ∈ a :: k) -> forall x, x ∈ l -> x ∈ k.
Proof.
  intros [Ha _]%StronglySorted_cons Hin x Hx. rewrite Forall_forall in Ha.
  assert (x ∈ a :: k) as [->|]%elem_of_cons by (apply Hin; by right); [|done]. exfalso. eapply slt_irrefl. by apply Ha.
Qed.

(** A sublist that contains the first [n] elements starts with them. *)
Lemma ascending_prefix n l v :
  ascending l -> ascending v -> (forall x, x ∈ v -> x ∈ l) -> (forall x, x ∈ take n l -> x ∈ v) -> take n v = take n l.
Proof.
  revert l v. induction n as [|n IH]; intros l v Hl Hv Hvl Hlv; [by rewrite !take_0|].
  destruct l as [|a l]; [destruct v as [|b v]; [done|]; destruct (not_elem_of_nil b); apply Hvl; left|].
  destruct v as [|b v]; [destruct (not_elem_of_nil a); apply Hlv; left|].
  assert (a = b) as -> by (eapply ascending_head_eq; [done|done|apply Hlv; left|apply Hvl; left]). simpl. f_equal.
  apply IH; [by apply StronglySorted_cons in Hl as [_ ?]|by apply StronglySorted_cons in Hv as [_ ?]| |].
  - by apply (ascending_tail_incl b).
  - intros x Hx. assert (x ∈ b :: v) as [->|]%elem_of_cons by (apply Hlv; by right); [|done].
    apply StronglySorted_cons in Hl as [Ha _]. rewrite Forall_forall in Ha. exfalso. eapply slt_irrefl, Ha.
    rewrite <- (take_drop n l). apply elem_of_app. by left.
Qed.

(** An element keeps its place or moves forward in a sublist. *)
Lemma ascending_sublist_take n l s x :
  ascending l -> ascending s -> (forall y, y ∈ s -> y ∈ l) -> x ∈ take n l -> x ∈ s -> x ∈ take n s.
Proof.
  revert l s. induction n as [|n IH]; intros l s Hl Hs Hsl Hx Hxs; [by apply elem_of_nil in Hx|].
  destruct l as [|a l]; [by apply elem_of_nil in Hx|]. destruct s as [|b s]; [done|]. simpl in Hx |- *.
  pose proof (proj1 (StronglySorted_cons _ _ _) Hl) as [Ha Hl']. pose proof (proj1 (StronglySorted_cons _ _ _) Hs) as [Hb Hs'].
  rewrite Forall_forall in Ha, Hb. destruct (decide (a = b)) as [->|Hab].
  - apply elem_of_cons in Hxs as [->|Hxs]; [left|]. right. apply elem_of_cons in Hx as [->|Hx]; [destruct (slt_irrefl b); by apply Hb|].
    apply (IH l s); try done. by apply (ascending_tail_incl b).
  - assert (forall y, y ∈ b :: s -> y ∈ l) as Hsl'.
    { intros y Hy. assert (y ∈ a :: l) as [->|]%elem_of_cons by (by apply Hsl); [|done]. exfalso. apply Hab.
      eapply ascending_head_eq; [exact Hl|exact Hs|done|apply Hsl; left]. }
    apply elem_of_cons in Hx as [->|Hx]; [destruct (slt_irrefl a); by apply Ha, Hsl'|].
    assert (x ∈ take n (b :: s)) as Hx' by (by apply (IH l)).
    change (x ∈ take (S n) (b :: s)). rewrite <- (take_drop n (take (S n) (b :: s))), take_take. replace (n `min` S n) with n by lia.
    apply elem_of_app. by left.
Qed.

Lemma ascending_NoDup l : ascending l -> NoDup l.
Proof.
  induction 1 as [|x l Hs IH Hx]; constructor; [|done]. intros Hin. rewrite Forall_forall in Hx. by eapply slt_irrefl, Hx.
Qed.

Lemma ascending_unique l k : ascending l -> ascending k -> (forall x, x ∈ l <-> x ∈ k) -> l = k.
Proof.
  intros Hl Hk Hin. pose proof (ascending_prefix (length l + length k) l k Hl Hk (fun x => proj2 (Hin x))) as Hp.
  rewrite !take_ge in Hp by lia. symmetry. apply Hp. intros x. apply Hin.
Qed.

Lemma ascending_app l k : ascending (l ++ k) -> ascending l /\ ascending k /\ forall x y, x ∈ l -> y ∈ k -> slt x y.
Proof.
  induction l as [|a l IH]; simpl; [intros H; split_and!; [constructor|done|by intros x y ?%elem_of_nil]|].
  intros [Ha Hl]%StronglySorted_cons. apply Forall_app in Ha as [Ha Hak]. destruct (IH Hl) as (H1 & H2 & H3).
  rewrite Forall_forall in Hak. split_and!; [by constructor|done|]. intros x y [->|Hx]%elem_of_cons Hy; [by apply Hak|by apply H3].
Qed.

(** What comes after the last element of a prefix. *)
Definition after (cursor : string) (l : list string) : list string := List.filter (fun x => String.ltb cursor x) l.

Lemma elem_of_after cursor l x : x ∈ after cursor l <-> x ∈ l /\ slt cursor x.
Proof. unfold after. by rewrite !list_elem_of_In, filter_In. Qed.

Lemma ascending_after cursor l : ascending l -> ascending (after cursor l).
Proof.
  induction 1 as [|x l Hs IH Hx]; simpl; [constructor|]. destruct (String.ltb cursor x); [|done]. constructor; [done|].
  rewrite Forall_forall in Hx |- *. intros y [Hy _]%elem_of_after. by apply Hx.
Qed.

Lemma after_split l x k : ascending (l ++ x :: k) -> after x (l ++ x :: k) = k.
Proof.
  intros Hs. pose proof (ascending_app _ _ Hs) as (Hl & Hk & Hlk). apply ascending_unique; [by apply ascending_after| |].
  - by apply StronglySorted_cons in Hk as [_ ?].
  - intros y. rewrite elem_of_after, elem_of_app, elem_of_cons. apply StronglySorted_cons in Hk as [Hx _]. rewrite Forall_forall in Hx. split.
    + intros [[Hy|[->|Hy]] Hxy]; [|by apply slt_irrefl in Hxy|done]. exfalso. apply (slt_asym x y); [done|]. apply Hlk; [done|left].
    + intros Hy. split; [auto|by apply Hx].
Qed.

(** ** Sorting a concatenation *)
Lemma insert_by_app {A : Type} (less : A -> A -> bool) x l k :
  (forall y, y ∈ k -> less y x = false) -> insert_by less x (l ++ k) = insert_by less x l ++ k.
Proof.
  intros Hk. induction l as [|a l IH]; simpl.
  - destruct k as [|b k]; [done|]. simpl. by rewrite (Hk b) by left.
  - destruct (less a x); simpl; [by rewrite IH|done].
Qed.

Lemma sort_by_app {A : Type} (less : A -> A -> bool) l k :
  (forall x y, x ∈ l -> y ∈ k -> less y x = false) -> sort_by less (l ++ k) = sort_by less l ++ sort_by less k.
Proof.
  intros Hlk. induction l as [|a l IH]; simpl; [done|]. rewrite IH by (intros; apply Hlk; [by right|done]).
  apply insert_by_app. intros y Hy%elem_of_sort_by. apply Hlk; [left|done].
Qed.

(** ** One segment *)
Definition sorted_blobs (m : list EntityBlob) : list EntityBlob := sort_by (less_on Blob_EntityID String.ltb) m.
Definition segment_of (m : list EntityBlob) (cursor : ID) (limit : nat) : list EntityBlob :=
  take limit (List.filter (fun b => String.ltb cursor (Blob_EntityID b)) (sorted_blobs m)).

Class SegmentReaderLaws `{ManifestSegmentReader} (manifest : ID -> list EntityBlob) : Prop := {
  segment_law revision cursor limit : (1 <= limit)%Z ->
    MaterializeSegment revision cursor limit = Ok (segment_of (manifest revision) cursor (Z.to_nat limit))
}.

Section paging.
Context `{UuidLib, FloatText}.

Lemma sorted_blobs_ids m : NoDup (Blob_EntityID <$> m) -> ascending (Blob_EntityID <$> sorted_blobs m).
Proof.
  intros Hnd. pose proof (sort_by_sorted (less_on Blob_EntityID String.ltb) m) as Hs. fold (sorted_blobs m) in Hs.
  assert (NoDup (Blob_EntityID <$> sorted_blobs m)) as Hnd' by (unfold sorted_blobs; by rewrite sort_by_perm).
  clear Hnd. induction Hs as [|b l Hs IH Hb]; csimpl in *; constructor; apply NoDup_cons in Hnd' as [Hn Hnd]; [by apply IH|].
  apply Forall_fmap. apply Forall_forall. intros b' Hb'. pose proof (proj1 (Forall_forall _ _) Hb b' Hb') as Hle.
  unfold not_after, less_on in Hle. simpl.
  unfold slt. apply not_false_is_true. intros Hlt. apply Hn. rewrite (st_total (less := String.ltb) _ _ Hlt Hle). by apply list_elem_of_fmap_2.
Qed.

Lemma segment_ids m cursor limit :
  Blob_EntityID <$> segment_of m cursor limit = take limit (after cursor (Blob_EntityID <$> sorted_blobs m)).
Proof.
  unfold segment_of. rewrite fmap_take. f_equal. induction (sorted_blobs m) as [|b l IH]; [done|]. csimpl.
  destruct (String.ltb cursor (Blob_EntityID b)); csimpl; by rewrite IH.
Qed.

Lemma segment_incl m cursor limit b : b ∈ segment_of m cursor limit -> b ∈ m.
Proof.
  unfold segment_of. intros Hb. apply (elem_of_sort_by (less_on Blob_EntityID String.ltb)). fold (sorted_blobs m).
  assert (b ∈ List.filter (fun b => String.ltb cursor (Blob_EntityID b)) (sorted_blobs m)) as Hf.
  { rewrite <- (take_drop limit). apply elem_of_app. by left. }
  rewrite list_elem_of_In, filter_In, <- list_elem_of_In in Hf. tauto.
Qed.

Lemma ascending_take n l : ascending l -> ascending (take n l).
Proof. intros Hl. rewrite <- (take_drop n l) in Hl. by apply ascending_app in Hl as (? & _). Qed.

Lemma segment_ok m cursor limit : entities_ok m -> entities_ok (segment_of m cursor limit).
Proof.
  intros [Hv Hnd]. split.
  - rewrite Forall_forall in Hv |- *. intros b Hb%segment_incl. by apply Hv.
  - rewrite segment_ids. by apply ascending_NoDup, ascending_take, ascending_after, sorted_blobs_ids.
Qed.

Lemma segment_entity m cursor limit id :
  entities_ok m -> (id ∈ Blob_EntityID <$> m -> id ∈ Blob_EntityID <$> segment_of m cursor limit) ->
  entity_of (segment_of m cursor limit) id = entity_of m id.
Proof.
  intros Hok Hin. destruct (entity_of (segment_of m cursor limit) id) as [b|] eqn:Hb.
  - apply entity_of_Some in Hb as [Hb%segment_incl <-]. symmetry. apply entity_of_NoDup; [apply Hok|done].
  - apply entity_of_None in Hb. symmetry. apply entity_of_None. tauto.
Qed.

(** The identities and entities of a segment are those of the first [limit]
    identities after the cursor in the whole comparison. *)
Lemma segment_page base target byID seg cursor limit :
  combineEntities base target = Ok byID ->
  combineEntities (segment_of base cursor limit) (segment_of target cursor limit) = Ok seg ->
  take limit (sortedEntityIDs seg) = take limit (after cursor (sortedEntityIDs byID)) /\
  forall id, id ∈ take limit (after cursor (sortedEntityIDs byID)) -> seg !! id = byID !! id.
Proof.
  intros (Hb & Ht & Hby)%combineEntities_spec (_ & _ & Hseg)%combineEntities_spec.
  destruct (sortedEntityIDs_spec byID) as [HU HUin], (sortedEntityIDs_spec seg) as [HV HVin].
  set (L := after cursor (sortedEntityIDs byID)).
  assert (forall m, m = base \/ m = target -> forall id, id ∈ after cursor (Blob_EntityID <$> sorted_blobs m) -> id ∈ L) as Hm.
  { intros m Hm id [Hin Hlt]%elem_of_after. apply elem_of_after. split; [|done]. apply HUin. rewrite Hby.
    unfold sorted_blobs in Hin. rewrite sort_by_perm in Hin. apply entity_of_is_Some in Hin as [b Hin].
    destruct Hm as [->| ->]; rewrite Hin; [|destruct (entity_of base id)]; simpl; eauto. }
  assert (forall m, m = base \/ m = target -> forall id, id ∈ take limit L -> id ∈ Blob_EntityID <$> m ->
    id ∈ Blob_EntityID <$> segment_of m cursor limit) as Hkeep.
  { intros m Hm' id Hid Hin. rewrite segment_ids. apply (ascending_sublist_take limit L); [by apply ascending_after| |by apply Hm|done|].
    - apply ascending_after, sorted_blobs_ids. by destruct Hm' as [->| ->]; [apply Hb|apply Ht].
    - apply elem_of_after. split; [unfold sorted_blobs; by rewrite sort_by_perm|].
      rewrite <- (take_drop limit L) in Hm. assert (id ∈ L) as HL by (rewrite <- (take_drop limit L); apply elem_of_app; by left).
      by apply elem_of_after in HL as [_ ?]. }
  assert (forall id, id ∈ take limit L -> seg !! id = byID !! id) as Heq.
  { intros id Hid. rewrite Hseg, Hby, !segment_entity; auto. }
  split; [|done]. apply ascending_prefix; [by apply ascending_after|done| |].
  - intros id Hid%HVin. rewrite Hseg in Hid.
    assert (exists m, (m = base \/ m = target) /\ id ∈ Blob_EntityID <$> segment_of m cursor limit) as (m & Hm' & Hin).
    { destruct (entity_of (segment_of base cursor limit) id) eqn:E1; [exists base|exists target].
      - split; [by left|]. apply entity_of_is_Some. eauto.
      - split; [by right|]. apply entity_of_is_Some. destruct (entity_of (segment_of target cursor limit) id); [eauto|by apply is_Some_None in Hid]. }
    rewrite segment_ids in Hin. apply (Hm m Hm'). rewrite <- (take_drop limit). apply elem_of_app. by left.
  - intros id Hid. apply HVin. rewrite Heq by done.
    assert (id ∈ L) as [HU' _]%elem_of_after by (rewrite <- (take_drop limit L); apply elem_of_app; by left). by apply HUin.
Qed.

(** ** Reading every segment *)
Fixpoint all_segments `{ManifestSegmentReader} (fuel : nat) (baseID targetID : ID) (limit : Z) (cursor : ID) :
    option (result (list FieldChange) DiffError) :=
  match fuel with
  | O => None
  | S fuel' =>
      match CompareRevisionSegment baseID targetID cursor limit with
      | Err e => Some (Err e)
      | Ok segment =>
          if bool_decide (NextEntityCursor segment = ""%string) then Some (Ok (Segment_Changes segment))
          else match all_segments fuel' baseID targetID limit (NextEntityCursor segment) with
               | Some (Ok changes) => Some (Ok (Segment_Changes segment ++ changes))
               | other => other
               end
      end
  end.

Lemma changes_of_ids byID ids cs :
  concat_results (compare_entity byID <$> ids) = Ok cs -> Forall (fun c => EntityID c ∈ ids) cs.
Proof.
  intros Hc. eapply concat_results_Forall; [exact Hc|]. apply Forall_fmap, Forall_forall. intros id Hid c Hce.
  destruct (compare_entity_about _ _ _ Hce) as (kind & Hall & _). eapply Forall_impl; [exact Hall|]. by intros ch [-> _ _].
Qed.

Lemma concat_results_app l k cs :
  concat_results (l ++ k) = Ok cs <-> exists c1 c2, concat_results l = Ok c1 /\ concat_results k = Ok c2 /\ cs = c1 ++ c2.
Proof.
  revert cs. induction l as [|r l IH]; intros cs; simpl.
  - split; [intros Hk; by exists [], cs|by intros (c1 & c2 & [= <-] & Hk & ->)].
  - destruct r as [c|e]; simpl; [|by split; [|intros (? & ? & ? & _)]]. split.
    + intros (cs' & (c1 & c2 & -> & Hk & ->)%IH & [= <-])%result_bind_Ok. exists (c ++ c1), c2. by rewrite app_assoc.
    + intros (c1 & c2 & (cl & Hl & [= <-])%result_bind_Ok & Hk & ->).
      rewrite (proj2 (IH (cl ++ c2))); simpl; [by rewrite app_assoc|by exists cl, c2].
Qed.

Lemma compare_entities_ext byID seg (ids : list ID) :
  (forall id, id ∈ ids -> seg !! id = byID !! id) -> compare_entity seg <$> ids = compare_entity byID <$> ids.
Proof. intros Heq. apply list_fmap_ext. intros i id Hid. unfold compare_entity. rewrite Heq; [done|]. by eapply list_elem_of_lookup_2. Qed.

Lemma change_less_ids x y : slt (EntityID x) (EntityID y) -> change_less y x = false.
Proof.
  intros Hlt. unfold change_less, then_by at 1. rewrite decide_False; [by apply (wo_asym String.ltb)|].
  intros Heq. rewrite Heq in Hlt. by apply slt_irrefl in Hlt.
Qed.

Context `{SegmentReaderLaws manifest} `{!UuidLaws}.

(** A segment in terms of the pairing of its two ranges. *)
Lemma segment_unfold base target cursor (limit : Z) seg :
  ID_Valid base = true -> ID_Valid target = true -> cursor = ""%string \/ ID_Valid cursor = true ->
  (1 <= limit <= MaxEntitySegmentSize)%Z ->
  combineEntities (segment_of (manifest base) cursor (S (Z.to_nat limit)))
    (segment_of (manifest target) cursor (S (Z.to_nat limit))) = Ok seg ->
  CompareRevisionSegment base target cursor limit =
    (let ids := sortedEntityIDs seg in let more := (limit <? Z.of_nat (length ids))%Z in
     let ids := if more then take (Z.to_nat limit) ids else ids in
     let? changes := compareEntityIDs seg ids in
     Ok (mkSegment changes (if more then default ""%string (last ids) else ""%string))).
Proof.
  intros Hb Ht Hcur [Hl1 Hl2] Hseg. unfold CompareRevisionSegment. rewrite Hb, Ht. simpl.
  assert (negb (bool_decide (cursor = ""%string)) && negb (ID_Valid cursor) = false) as ->.
  { destruct Hcur as [->| ->]; [done|]. by rewrite andb_false_r. }
  rewrite (proj2 (Z.ltb_ge _ _) Hl1), (proj2 (Z.ltb_ge _ _) Hl2). simpl.
  rewrite !segment_law by lia. simpl. replace (Z.to_nat (limit + 1)) with (S (Z.to_nat limit)) by lia. by rewrite Hseg.
Qed.

(** A cursor the code returns is an identity of one of the manifests. *)
Lemma paired_id_valid base target byID id :
  combineEntities base target = Ok byID -> id ∈ sortedEntityIDs byID -> ID_Valid id = true.
Proof.
  intros ([Hv _] & [Hv' _] & Hlook)%combineEntities_spec [p Hp]%sortedEntityIDs_spec. rewrite Hlook in Hp.
  rewrite Forall_forall in Hv, Hv'.
  destruct (entity_of base id) as [b|] eqn:E; [apply entity_of_Some in E as [? <-]; auto|].
  destruct (entity_of target id) as [b|] eqn:E'; [apply entity_of_Some in E' as [? <-]; auto|done].
Qed.

Lemma all_segments_from base target byID (limit : Z) done_ rest cursor cs fuel :
  ID_Valid base = true -> ID_Valid target = true -> (1 <= limit <= MaxEntitySegmentSize)%Z ->
  combineEntities (manifest base) (manifest target) = Ok byID ->
  sortedEntityIDs byID = done_ ++ rest -> after cursor (sortedEntityIDs byID) = rest ->
  cursor = ""%string \/ ID_Valid cursor = true ->
  concat_results (compare_entity byID <$> rest) = Ok cs -> length rest < fuel ->
  all_segments fuel base target limit cursor = Some (Ok (sortChanges cs)).
Proof.
  intros Hb Ht [Hl1 Hl2] Hby. revert done_ rest cursor cs.
  induction fuel as [|fuel IH]; intros done_ rest cursor cs HU Hafter Hcur Hcs Hf; [lia|].
  destruct (combineEntities_spec _ _ _ Hby) as (Hok & Hok' & Hlook).
  destruct (combineEntities_total (segment_of (manifest base) cursor (S (Z.to_nat limit)))
    (segment_of (manifest target) cursor (S (Z.to_nat limit)))) as [seg Hseg]; [by apply segment_ok..|].
  destruct (segment_page _ _ _ _ _ _ Hby Hseg) as [Hpage Hent]. rewrite Hafter in Hpage, Hent.
  set (n := Z.to_nat limit) in *.
  cbn [all_segments]. rewrite (segment_unfold base target cursor limit seg Hb Ht Hcur (conj Hl1 Hl2) Hseg).
  cbv zeta. fold n. unfold compareEntityIDs.
  destruct (decide (n < length rest)) as [Hmore|Hmore].
  - assert (S n <= length (sortedEntityIDs seg)) as Hlen.
    { apply (f_equal length) in Hpage. rewrite !length_take in Hpage. lia. }
    rewrite (proj2 (Z.ltb_lt _ _)) by lia.
    assert (take n (sortedEntityIDs seg) = take n rest) as ->.
    { apply (f_equal (take n)) in Hpage. rewrite !take_take in Hpage. by replace (n `min` S n) with n in Hpage by lia. }
    rewrite (compare_entities_ext byID).
    2: { intros id Hid. apply Hent. rewrite <- (take_drop n (take (S n) rest)), take_take. replace (n `min` S n) with n by lia.
         apply elem_of_app. by left. }
    rewrite <- (take_drop n rest), fmap_app, concat_results_app in Hcs. destruct Hcs as (c1 & c2 & Hc1 & Hc2 & ->).
    rewrite Hc1. cbn [result_bind NextEntityCursor Segment_Changes].
    destruct (take n rest) as [|y pre _] eqn:Hpre using rev_ind.
    { apply (f_equal length) in Hpre. rewrite length_take in Hpre. simpl in Hpre. lia. }
    rewrite last_snoc. simpl.
    pose proof (sortedEntityIDs_spec byID) as [Hasc Hin].
    assert (sortedEntityIDs byID = (done_ ++ pre) ++ y :: drop n rest) as HU'.
    { rewrite HU. rewrite <- (take_drop n rest) at 1. rewrite Hpre, <- !app_assoc. done. }
    assert (ID_Valid y = true) as Hy.
    { apply (paired_id_valid _ _ _ _ Hby). rewrite HU'. apply elem_of_app. right. left. }
    rewrite bool_decide_false by (intros ->; unfold ID_Valid in Hy; by rewrite uuid_v7_empty in Hy).
    rewrite (IH ((done_ ++ pre) ++ [y]) (drop n rest) y c2); [|by rewrite HU', <- !app_assoc| |by right|done|rewrite length_drop; lia].
    2: { rewrite HU'. apply after_split. rewrite <- HU'. exact Hasc. }
    f_equal. f_equal. symmetry. apply sort_by_app. intros u v Hu Hv. apply change_less_ids.
    apply changes_of_ids in Hc1, Hc2. rewrite Forall_forall in Hc1, Hc2.
    assert (ascending (done_ ++ (pre ++ [y]) ++ drop n rest)) as (_ & (_ & _ & Hsep)%ascending_app & _)%ascending_app.
    { rewrite <- !app_assoc. simpl. rewrite app_assoc, <- HU'. exact Hasc. }
    apply Hsep; auto.
  - assert (sortedEntityIDs seg = rest) as ->.
    { assert (length (sortedEntityIDs seg) <= n) by (apply (f_equal length) in Hpage; rewrite !length_take in Hpage; lia).
      rewrite !take_ge in Hpage by lia. done. }
    rewrite (proj2 (Z.ltb_ge _ _)) by lia.
    rewrite (compare_entities_ext byID) by (intros id Hid; apply Hent; by rewrite take_ge by lia).
    by rewrite Hcs.
Qed.

(** C38: Reading a comparison in bounded segments, from the empty cursor until a
    segment has no next cursor, ends after at most one segment per entity and
    yields exactly the changes of the whole comparison, in its order. *)
Theorem segments_add_up base target limit changes :
  ID_Valid base = true -> ID_Valid target = true -> (1 <= limit <= MaxEntitySegmentSize)%Z ->
  Compare (manifest base) (manifest target) = Ok changes ->
  all_segments (S (length (manifest base) + length (manifest target))) base target limit "" = Some (Ok changes).
Proof.
  intros Hb Ht Hl (byID & Hby & (cs & Hcs & [= <-])%result_bind_Ok)%result_bind_Ok.
  destruct (combineEntities_spec _ _ _ Hby) as (_ & _ & Hlook). destruct (sortedEntityIDs_spec byID) as [Hasc Hin].
  assert (forall id, id ∈ sortedEntityIDs byID -> id ∈ (Blob_EntityID <$> manifest base) ++ (Blob_EntityID <$> manifest target)) as Hids.
  { intros id [p Hp]%Hin. rewrite Hlook in Hp. apply elem_of_app. rewrite <- !entity_of_is_Some.
    destruct (entity_of (manifest base) id); [left|right]; [eauto|]. destruct (entity_of (manifest target) id); [eauto|done]. }
  apply (all_segments_from base target byID limit [] (sortedEntityIDs byID)); try done; [|by left|].
  - apply ascending_unique; [by apply ascending_after|done|]. intros id. rewrite elem_of_after. split; [by intros [? _]|].
    intros Hid. split; [done|]. assert (id <> ""%string) as Hne; [|by destruct id].
    intros ->. apply (paired_id_valid _ _ _ _ Hby) in Hid. unfold ID_Valid in Hid. by rewrite uuid_v7_empty in Hid.
  - apply Nat.lt_succ_r. rewrite <- (length_fmap Blob_EntityID (manifest base)), <- (length_fmap Blob_EntityID (manifest target)), <- length_app.
    apply submseteq_length, NoDup_submseteq; [by apply ascending_NoDup|done].
Qed.
End paging.

Module PagingExamples.
#[local] Instance literal_text : FloatText := {| float_text := Ok |}.
Definition uuid (n : string) : ID := ("00000000-0000-7000-8000-00000000000" +:+ n)%string.
Definition quoted (s : string) : string := (quote_mark +:+ s +:+ quote_mark)%string.
Definition blob (n text : string) : EntityBlob :=
  mkBlob (uuid n) KindItem StatusActive ("{" +:+ quoted "v" +:+ ":" +:+ text +:+ "}")%string.
Definition old_blobs : list EntityBlob := [blob "3" "1"; blob "1" "[1,2]"; blob "2" "null"].
Definition new_blobs : list EntityBlob := [blob "1" "[2,1]"; blob "4" "true"; blob "3" "2"].
Definition manifest_of (id : ID) : list EntityBlob := if decide (id = uuid "8") then old_blobs else new_blobs.
#[local] Instance memory_reader : ManifestSegmentReader :=
  {| MaterializeSegment := fun revision cursor limit => Ok (segment_of (manifest_of revision) cursor (Z.to_nat limit)) |}.
#[local] Instance memory_laws : SegmentReaderLaws manifest_of.
Proof. by split. Qed.

(** Four changes of four entities, read one entity at a time. *)
Definition old_to_new : list FieldChange := Eval vm_compute in
  match Compare old_blobs new_blobs with Ok l => l | Err _ => [] end.
Example old_to_new_kinds : (fun c => (Path c, kind_text (Kind c))) <$> old_to_new =
  [("/v/1", "MOVE"); ("/", "DELETE"); ("/v", "MODIFY"); ("/", "ADD")]%string.
Proof. reflexivity. Qed.

Lemma segments_add_up_witness :
  all_segments (S (length (manifest_of (uuid "8")) + length (manifest_of (uuid "9")))) (uuid "8") (uuid "9") 1 "" =
  Some (Ok old_to_new).
Proof.
  refine (segments_add_up (manifest := manifest_of) (uuid "8") (uuid "9") 1 old_to_new _ _ _ _);
    [vm_compute; reflexivity..|vm_compute; split; discriminate|vm_compute; reflexivity].
Defined.
End PagingExamples.
