(* ===== verification/RiskContract.v ===== *)
(** * internal/risk/contract/types.go: the values a comparison works on

    Metric evidence, target ranges, identities, subjects and threshold scopes,
    with their validity.  Run evidence, reports and selections are not part of
    this file. *)
From Stdlib Require Import Ascii.
From S2P Require Import Prelude GoStrings Domain FormulaDecimal.
Open Scope Z_scope.

Inductive PolicyRole := Required | Optional | RoleUnknown (spelling : string).
Inductive ComparisonStatus := StatusUnset | Comparable | NotComparable | Unavailable | Stale.
Inductive Severity := Block | Warning | Info.
Inductive MetricDirection := HigherIsRisk | LowerIsRisk | TargetRange | DirectionUnknown (spelling : string).
Inductive OverrideClass := NumericOverrideEligible | NonOverridable.
Inductive SubjectKind := CohortSubject | SingletonSubject | SubjectUnknown (spelling : string).
Inductive MetricAvailability := MetricAvailable | MetricUnavailable | AvailabilityUnknown (spelling : string).
#[global] Instance PolicyRole_eq_dec : EqDecision PolicyRole.
Proof. solve_decision. Defined.
#[global] Instance ComparisonStatus_eq_dec : EqDecision ComparisonStatus.
Proof. solve_decision. Defined.
#[global] Instance Severity_eq_dec : EqDecision Severity.
Proof. solve_decision. Defined.
#[global] Instance MetricDirection_eq_dec : EqDecision MetricDirection.
Proof. solve_decision. Defined.
#[global] Instance MetricAvailability_eq_dec : EqDecision MetricAvailability.
Proof. solve_decision. Defined.

Definition blank (s : string) : bool := bool_decide (TrimSpace s = ""%string).

(** [hex.DecodeString] accepts both cases; [strings.ToLower(v) == v] leaves the
    lower one. *)
Definition validHash (value : string) : bool :=
  (string_len value =? 64) && all_chars (fun a => mem_char a "0123456789abcdefABCDEF") value &&
  all_chars (fun a => negb (in_range 65 (byte_of a) 90)) value.

Record Identity := mkIdentity { Identity_ID : string; Identity_Hash : string; Identity_Version : string }.
Definition Identity_Valid (i : Identity) : bool :=
  negb (blank (Identity_ID i)) && validHash (Identity_Hash i) && negb (blank (Identity_Version i)).

Record TargetRangeValue := mkTargetRange { Lower : string; Upper : string; Bounds : string }.
#[global] Instance TargetRangeValue_eq_dec : EqDecision TargetRangeValue.
Proof. solve_decision. Defined.

Record UnavailableReason := mkReason { Reason_Code : string; Missing : list string; Reason_Message : string }.
Definition UnavailableReason_Valid (r : UnavailableReason) : bool :=
  negb (blank (Reason_Code r)) && negb (blank (Reason_Message r)) && forallb (fun m => negb (blank m)) (Missing r).

Record MetricEvidence := mkEvidence {
  MetricID : string; MetricVersion : string; Evidence_Status : MetricAvailability; Evidence_Unit : string;
  Evidence_Direction : MetricDirection; Evidence_TargetRange : option TargetRangeValue;
  AbsoluteThreshold : option string; Evidence_Value : option string;
  ConfidenceLow : option string; ConfidenceHigh : option string; SampleCount : Z;
  Assumptions : list string; Evidence_Unavailable : option UnavailableReason; CanonicalHash : string }.

Definition known_direction (d : MetricDirection) : bool :=
  match d with HigherIsRisk | LowerIsRisk | TargetRange => true | DirectionUnknown _ => false end.
Definition none {A : Type} (o : option A) : bool := match o with None => true | Some _ => false end.

Section contract.
Context `{UnicodeTables, ApdLib}.

Definition canonicalDecimal (v : string) : bool :=
  match ParseDecimal v with Ok parsed => bool_decide (Decimal_String parsed = v) | Err _ => false end.

Definition TargetRange_Valid (r : TargetRangeValue) : bool :=
  bool_decide (Bounds r = "inclusive"%string) &&
  match ParseDecimal (Lower r) with
  | Err _ => false
  | Ok lower =>
      bool_decide (Decimal_String lower = Lower r) &&
      match ParseDecimal (Upper r) with
      | Err _ => false
      | Ok upper => bool_decide (Decimal_String upper = Upper r) && (Compare lower upper <=? 0)
      end
  end.

Definition MetricEvidence_Valid (m : MetricEvidence) : bool :=
  if blank (MetricID m) || blank (MetricVersion m) || blank (Evidence_Unit m) || (SampleCount m <=? 0) ||
     negb (validHash (CanonicalHash m)) then false
  else if negb (known_direction (Evidence_Direction m)) then false
  else if negb (Bool.eqb (bool_decide (Evidence_Direction m = TargetRange)) (negb (none (Evidence_TargetRange m)))) ||
          negb (option_forallb TargetRange_Valid (Evidence_TargetRange m)) then false
  else if negb (option_forallb canonicalDecimal (AbsoluteThreshold m)) then false
  else if bool_decide (Evidence_Status m = MetricUnavailable) then
    none (Evidence_Value m) && none (ConfidenceLow m) && none (ConfidenceHigh m) &&
    match Evidence_Unavailable m with Some u => UnavailableReason_Valid u | None => false end
  else if negb (bool_decide (Evidence_Status m = MetricAvailable)) then false
  else match Evidence_Value m, ConfidenceLow m, ConfidenceHigh m, Evidence_Unavailable m with
       | Some v, Some l, Some h, None =>
           if negb (canonicalDecimal v) || negb (canonicalDecimal l) || negb (canonicalDecimal h) then false
           else
             let low := ParseDecimal_or_zero l in
             let value := ParseDecimal_or_zero v in
             let high := ParseDecimal_or_zero h in
             (Compare low value <=? 0) && (Compare value high <=? 0)
       | _, _, _, _ => false
       end.

Record ThresholdScope := mkScope {
  Scope_SceneID : string; Scope_SceneVersion : string; Scope_MetricID : string; Scope_MetricVersion : string;
  Scope_BalanceGroup : option string; Scope_Unit : string; Scope_Direction : MetricDirection }.
Definition ThresholdScope_Valid (s : ThresholdScope) : bool :=
  negb (blank (Scope_SceneID s) || blank (Scope_SceneVersion s) || blank (Scope_MetricID s) ||
        blank (Scope_MetricVersion s) || blank (Scope_Unit s)) &&
  option_forallb (fun g => negb (blank g)) (Scope_BalanceGroup s) && known_direction (Scope_Direction s).
End contract.

Section subject.
Context `{UuidLib}.
Record Subject := mkSubject {
  Subject_Kind : SubjectKind; Subject_EntityKind : string; Subject_BalanceGroup : string; StableID : ID; Members : list ID }.
Definition Subject_Valid (s : Subject) : bool :=
  negb (blank (Subject_EntityKind s)) && negb (bool_decide (Members s = [])) &&
  forallb ID_Valid (Members s) && nodupb (Members s) &&
  match Subject_Kind s with
  | CohortSubject => negb (blank (Subject_BalanceGroup s)) && bool_decide (StableID s = ""%string)
  | SingletonSubject =>
      bool_decide (Subject_BalanceGroup s = ""%string) && ID_Valid (StableID s) && bool_decide (Members s = [StableID s])
  | SubjectUnknown _ => false
  end.
End subject.
