(* ===== verification/RiskThreshold.v ===== *)
(** * internal/risk/threshold: types.go, canonical.go, resolver.go

    Threshold bodies, their normal form and the resolution of a scope to the one
    entry that decides it.  [Body.Hash] and the versions built on it are not
    modelled. *)
From Stdlib Require Import Ascii.
From S2P Require Import Prelude GoSort GoStrings FormulaDecimal RiskContract.
Open Scope Z_scope.

Inductive ThresholdError := ErrThresholdNotConfigured | ErrThresholdInvalid.

(** [thresholdDecimalPattern]: an optional sign, an integer part without leading
    zeros, an optional fraction. *)
Definition digits (s : string) : bool := negb (bool_decide (s = ""%string)) && all_chars (fun a => in_range 48 (byte_of a) 57) s.
Definition integer_part (s : string) : bool :=
  bool_decide (s = "0"%string) || (digits s && negb (has_prefix "0" s)).
Definition thresholdDecimalPattern (s : string) : bool :=
  let s := TrimPrefix s "-" in
  match index_byte "." s with
  | None => integer_part s
  | Some i => integer_part (string_take i s) && digits (string_drop (S i) s)
  end.

Definition SchemaVersionV1 : string := "v1".
Definition nul : string := String (char_of 0) "".
Definition soh : string := String (char_of 1) "".

Record Boundaries := mkBoundaries { Boundary_Warning : string; Boundary_Block : string }.
Record Entry := mkEntry {
  Entry_SceneID : string; Entry_SceneVersion : string; Entry_MetricID : string; Entry_MetricVersion : string;
  Entry_BalanceGroup : option string; Entry_Unit : string; Entry_Direction : MetricDirection;
  Relative : Boundaries; Absolute : option Boundaries }.
Record Body := mkBody {
  Body_SchemaVersion : string; Source : string; Body_Assumptions : list string; Entries : list Entry;
  StructuralRuleVersions : list Identity }.

(** The scope key of an entry, and of a scope with a group or without. *)
Definition scope_key (sceneID sceneVersion metricID metricVersion : string) (group : option string) : string :=
  (sceneID +:+ nul +:+ sceneVersion +:+ nul +:+ metricID +:+ nul +:+ metricVersion +:+ nul +:+
   match group with None => nul | Some g => soh +:+ g end)%string.
Definition ScopeKey (e : Entry) : string :=
  scope_key (Entry_SceneID e) (Entry_SceneVersion e) (Entry_MetricID e) (Entry_MetricVersion e) (Entry_BalanceGroup e).

Section threshold.
Context `{UnicodeTables, ApdLib}.

Definition parseThresholdDecimal (v : string) : Decimal * bool :=
  match ParseDecimal v with
  | Ok d => (d, thresholdDecimalPattern v)
  | Err _ => (mkDecimal apd_zero, false)
  end.

Definition Boundaries_Valid (b : Boundaries) : bool :=
  let '(warning, valid) := parseThresholdDecimal (Boundary_Warning b) in
  if negb valid then false
  else
    let '(block, valid) := parseThresholdDecimal (Boundary_Block b) in
    let zero := ParseDecimal_or_zero "0" in
    valid && (0 <=? Compare warning zero) && (Compare warning block <=? 0).

Definition Entry_Valid (e : Entry) : bool :=
  if blank (Entry_SceneID e) || blank (Entry_SceneVersion e) || blank (Entry_MetricID e) ||
     blank (Entry_MetricVersion e) || blank (Entry_Unit e) || negb (Boundaries_Valid (Relative e)) then false
  else if negb (option_forallb (fun g => negb (blank g)) (Entry_BalanceGroup e)) then false
  else if negb (known_direction (Entry_Direction e)) then false
  else option_forallb Boundaries_Valid (Absolute e).

(** [Normalize]: the two loops check every element and its predecessor. *)
Definition entry_key_less : Entry -> Entry -> bool := less_on ScopeKey String.ltb.
Definition rule_key (i : Identity) : string := (Identity_ID i +:+ nul +:+ Identity_Version i)%string.

Fixpoint adjacent_ok {A : Type} (valid : A -> bool) (key : A -> string) (previous : option A) (l : list A) : bool :=
  match l with
  | [] => true
  | a :: l' =>
      valid a && match previous with None => true | Some p => negb (bool_decide (key p = key a)) end &&
      adjacent_ok valid key (Some a) l'
  end.

Definition Normalize (b : Body) : result Body ThresholdError :=
  if negb (bool_decide (Body_SchemaVersion b = SchemaVersionV1)) || blank (Source b) ||
     bool_decide (length (Entries b) = O) || bool_decide (length (StructuralRuleVersions b) = O)
  then Err ErrThresholdInvalid
  else if negb (forallb (fun a => negb (blank a)) (Body_Assumptions b)) then Err ErrThresholdInvalid
  else
    let entries := sort_by entry_key_less (Entries b) in
    if negb (adjacent_ok Entry_Valid ScopeKey None entries) then Err ErrThresholdInvalid
    else
      let rules := sort_by (less_on rule_key String.ltb) (StructuralRuleVersions b) in
      if negb (adjacent_ok Identity_Valid Identity_ID None rules) then Err ErrThresholdInvalid
      else Ok (mkBody (Body_SchemaVersion b) (Source b) (sort_strings (Body_Assumptions b)) entries rules).

Definition Body_Valid (b : Body) : bool := is_ok (Normalize b).

Record ResolutionEvidence := mkResolutionEvidence {
  RequestedScope : ThresholdScope; TriedKeys : list string; SelectedKey : string; Priority : string }.
Record Resolution := mkResolution { Resolution_Entry : Entry; Resolution_Evidence : ResolutionEvidence }.

(** The loop over the priorities.  An error carries the keys tried, as the
    evidence the code returns next to it. *)
Fixpoint resolve_priorities (entries : list Entry) (scope : ThresholdScope) (tried : list string)
    (priorities : list (option string)) : result Resolution (ThresholdError * list string) :=
  match priorities with
  | [] => Err (ErrThresholdNotConfigured, sort_strings tried)
  | group :: priorities' =>
      let key := scope_key (Scope_SceneID scope) (Scope_SceneVersion scope) (Scope_MetricID scope) (Scope_MetricVersion scope) group in
      let priority := match group with None => "project_default"%string | Some _ => "exact_balance_group"%string end in
      let tried := (tried ++ [key])%list in
      match List.filter (fun e => bool_decide (ScopeKey e = key)) entries with
      | [] => resolve_priorities entries scope tried priorities'
      | [entry] =>
          if negb (bool_decide (Entry_Unit entry = Scope_Unit scope)) ||
             negb (bool_decide (Entry_Direction entry = Scope_Direction scope))
          then Err (ErrThresholdInvalid, tried)
          else Ok (mkResolution entry (mkResolutionEvidence scope tried key priority))
      | _ => Err (ErrThresholdInvalid, tried)
      end
  end.

Definition Resolve (body : Body) (scope : ThresholdScope) (singleton : bool) : result Resolution (ThresholdError * list string) :=
  if negb (ThresholdScope_Valid scope) then Err (ErrThresholdInvalid, [])
  else match Normalize body with
       | Err _ => Err (ErrThresholdInvalid, [])
       | Ok normalized =>
           let priorities := match Scope_BalanceGroup scope with
                             | Some g => if singleton then [None] else [Some g; None]
                             | None => [None]
                             end in
           resolve_priorities (Entries normalized) scope [] priorities
       end.

Definition NullableGroup (v : string) : option string := if blank v then None else Some v.
End threshold.

(** ** Normal bodies have one entry per scope key *)
Section resolution.
Context `{UnicodeTables, ApdLib}.

Lemma adjacent_sorted_NoDup {A : Type} (valid : A -> bool) (key : A -> string) l :
  StronglySorted (not_after (less_on key String.ltb)) l -> adjacent_ok valid key None l = true -> NoDup (key <$> l).
Proof.
  assert (forall p l, StronglySorted (not_after (less_on key String.ltb)) (p :: l) -> adjacent_ok valid key (Some p) l = true ->
    Forall (fun a => String.ltb (key p) (key a) = true) l /\ NoDup (key <$> l)) as Hgen.
  { intros p l0. revert p. induction l0 as [|a l0 IH]; intros p [Hp Hs]%StronglySorted_cons Ha; [by repeat constructor|].
    simpl in Ha. apply andb_prop in Ha as [Hpa Hl]. apply andb_prop in Hpa as [_ Hne]. bool_to_prop.
    destruct (IH a Hs Hl) as [Hall Hnd]. apply Forall_cons in Hp as [Hpa _]. unfold not_after, less_on in Hpa.
    assert (String.ltb (key p) (key a) = true) as Hlt.
    { apply not_false_is_true. intros Hge. apply Hne. by apply (st_total (less := String.ltb)). }
    split.
    - constructor; [done|]. eapply Forall_impl; [exact Hall|]. intros b Hb. by eapply (wo_trans (less := String.ltb)).
    - csimpl. constructor; [|done]. intros (b & Heq & Hb)%list_elem_of_fmap.
      pose proof (proj1 (Forall_forall _ _) Hall b Hb) as Hab. simpl in Hab. rewrite Heq in Hab.
      pose proof (wo_irrefl (less := String.ltb) (key b)). congruence. }
  destruct l as [|a l]; intros Hs Ha; [constructor|]. simpl in Ha. apply andb_prop in Ha as [_ Ha].
  destruct (Hgen a l Hs Ha) as [Hall Hnd]. csimpl. constructor; [|done]. intros (b & Heq & Hb)%list_elem_of_fmap.
  pose proof (proj1 (Forall_forall _ _) Hall b Hb) as Hab. simpl in Hab. rewrite Heq in Hab.
  pose proof (wo_irrefl (less := String.ltb) (key b)). congruence.
Qed.

Lemma Normalize_entries b n : Normalize b = Ok n -> Entries n ≡ₚ Entries b /\ NoDup (ScopeKey <$> Entries n).
Proof.
  unfold Normalize. do 2 (case_guard; [done|]). case_guard as He; [done|]. case_guard; [done|]. intros [= <-]. simpl.
  apply negb_false_iff in He. split; [apply sort_by_perm|].
  eapply adjacent_sorted_NoDup; [apply sort_by_sorted; apply _|exact He].
Qed.

(** The filter of the resolution loop finds at most one entry. *)
Lemma filter_unique_key (l : list Entry) key :
  NoDup (ScopeKey <$> l) ->
  match List.filter (fun e => bool_decide (ScopeKey e = key)) l with
  | [] => forall e, e ∈ l -> ScopeKey e <> key
  | [e] => e ∈ l /\ ScopeKey e = key /\ forall e', e' ∈ l -> ScopeKey e' = key -> e' = e
  | _ => False
  end.
Proof.
  induction l as [|e l IH]; intros Hnd; [by intros e ?%elem_of_nil|]. csimpl in Hnd. apply NoDup_cons in Hnd as [Hn Hnd].
  specialize (IH Hnd). simpl. case_bool_decide as Hk.
  - destruct (List.filter _ l) as [|x fl] eqn:Hf.
    + split; [left|]. split; [done|]. intros e' [->|He']%elem_of_cons Hk'; [done|]. by destruct (IH e').
    + exfalso. assert (x ∈ l /\ ScopeKey x = key) as [Hx Hxk].
      { assert (In x (List.filter (fun e => bool_decide (ScopeKey e = key)) l)) as Hin by (rewrite Hf; by left).
        apply filter_In in Hin as [Hin Hb]. bool_to_prop. split; [by apply list_elem_of_In|done]. }
      apply Hn. rewrite Hk, <- Hxk. by apply list_elem_of_fmap_2.
  - destruct (List.filter _ l) as [|x [|? ?]] eqn:Hf; [|destruct IH as (Hx & Hxk & Hu)|done].
    + intros e' [->|He']%elem_of_cons; [done|]. by apply IH.
    + split; [by right|]. split; [done|]. intros e' [->|He']%elem_of_cons Hk'; [done|]. by apply Hu.
Qed.

Definition priority_keys (scope : ThresholdScope) (singleton : bool) : list string :=
  let key := scope_key (Scope_SceneID scope) (Scope_SceneVersion scope) (Scope_MetricID scope) (Scope_MetricVersion scope) in
  match Scope_BalanceGroup scope with
  | Some g => if singleton then [key None] else [key (Some g); key None]
  | None => [key None]
  end.

(** The entry that decides a scope: it has the first of the keys that any entry
    has, and it is the only one with it. *)
Record decides (entries : list Entry) (keys : list string) (key : string) (e : Entry) : Prop := {
  decides_entry : e ∈ entries;
  decides_key : ScopeKey e = key;
  decides_unique e' : e' ∈ entries -> ScopeKey e' = key -> e' = e;
  decides_first : exists before rest, keys = (before ++ key :: rest)%list /\ forall e', e' ∈ entries -> ScopeKey e' ∉ before
}.

Lemma resolve_priorities_spec entries scope done_ tried priorities :
  NoDup (ScopeKey <$> entries) -> (forall e, e ∈ entries -> ScopeKey e ∉ done_) ->
  let key := scope_key (Scope_SceneID scope) (Scope_SceneVersion scope) (Scope_MetricID scope) (Scope_MetricVersion scope) in
  let keys := (done_ ++ (key <$> priorities))%list in
  match resolve_priorities entries scope tried priorities with
  | Ok r => decides entries keys (SelectedKey (Resolution_Evidence r)) (Resolution_Entry r) /\
      Entry_Unit (Resolution_Entry r) = Scope_Unit scope /\ Entry_Direction (Resolution_Entry r) = Scope_Direction scope
  | Err (ErrThresholdNotConfigured, _) => forall e, e ∈ entries -> ScopeKey e ∉ keys
  | Err (ErrThresholdInvalid, _) => exists k e, decides entries keys k e /\
      (Entry_Unit e <> Scope_Unit scope \/ Entry_Direction e <> Scope_Direction scope)
  end.
Proof.
  intros Hnd. revert done_ tried. induction priorities as [|g priorities IH]; intros done_ tried Hdone key keys; simpl.
  { unfold keys. csimpl. by rewrite app_nil_r. }
  fold (key g). pose proof (filter_unique_key entries (key g) Hnd) as Hf.
  destruct (List.filter _ entries) as [|e [|? ?]]; [|destruct Hf as (He & Hk & Hu)|done].
  - unfold keys. csimpl. change (done_ ++ key g :: (key <$> priorities))%list with (done_ ++ [key g] ++ (key <$> priorities))%list.
    rewrite app_assoc. apply IH. intros e He. rewrite elem_of_app, list_elem_of_singleton. intros [Hd|Heq]; [by apply (Hdone e)|by apply (Hf e)].
  - assert (decides entries keys (key g) e) as Hd.
    { split; [done|done|done|]. by exists done_, (key <$> priorities). }
    case_guard as Hg.
    + exists (key g), e. split; [done|]. apply orb_prop in Hg as [Hg|Hg]; bool_to_prop; [by left|by right].
    + bool_to_prop. done.
Qed.

(** Resolution picks the entry of the exact balance group when one exists and
    the scope is not a singleton, otherwise the project default; the entry is
    the only one with its key, and agrees with the scope in unit and direction.
    It is not configured exactly when no entry has one of the keys, and the
    ambiguous case of the code does not occur. *)
Theorem resolve_exact_then_default body normalized scope singleton :
  ThresholdScope_Valid scope = true -> Normalize body = Ok normalized ->
  match Resolve body scope singleton with
  | Ok r => decides (Entries body) (priority_keys scope singleton) (SelectedKey (Resolution_Evidence r)) (Resolution_Entry r) /\
      Entry_Unit (Resolution_Entry r) = Scope_Unit scope /\ Entry_Direction (Resolution_Entry r) = Scope_Direction scope
  | Err (ErrThresholdNotConfigured, _) => forall e, e ∈ Entries body -> ScopeKey e ∉ priority_keys scope singleton
  | Err (ErrThresholdInvalid, _) => exists k e, decides (Entries body) (priority_keys scope singleton) k e /\
      (Entry_Unit e <> Scope_Unit scope \/ Entry_Direction e <> Scope_Direction scope)
  end.
Proof.
  intros Hs Hn. destruct (Normalize_entries _ _ Hn) as [Hp Hnd]. unfold Resolve. rewrite Hs, Hn. cbn [negb].
  assert (forall k e, decides (Entries normalized) (priority_keys scope singleton) k e ->
    decides (Entries body) (priority_keys scope singleton) k e) as Hd.
  { intros k e [H1 H2 H3 (before & rest & Hk & H4)]. split; [by rewrite <- Hp|done| |].
    - intros e'. rewrite <- Hp. apply H3.
    - exists before, rest. split; [done|]. intros e'. rewrite <- Hp. apply H4. }
  set (priorities := match Scope_BalanceGroup scope with Some g => if singleton then [None] else [Some g; None] | None => [None] end).
  pose proof (resolve_priorities_spec (Entries normalized) scope [] [] priorities Hnd) as Hr. cbv zeta in Hr. simpl in Hr.
  assert ((scope_key (Scope_SceneID scope) (Scope_SceneVersion scope) (Scope_MetricID scope) (Scope_MetricVersion scope) <$> priorities) =
    priority_keys scope singleton) as Heq.
  { unfold priorities, priority_keys. destruct (Scope_BalanceGroup scope); [by destruct singleton|done]. }
  rewrite Heq in Hr. specialize (Hr ltac:(intros e _; apply not_elem_of_nil)).
  destruct (resolve_priorities _ _ _ _) as [r|[[] ?]].
  - destruct Hr as (H1 & H2 & H3). split; [by apply Hd|done].
  - intros e. rewrite <- Hp. apply Hr.
  - destruct Hr as (k & e & H1 & H2). exists k, e. split; [by apply Hd|done].
Qed.
End resolution.
