(* ===== verification/RiskComparison.v ===== *)
(** * internal/risk/comparison/comparison.go: the assessment of one metric

    [Assess] is the single implementation of comparison status, deltas, threshold
    boundaries, severity and override classification.  A dereference of a nil
    value is a [go_panic]; the theorems show that there is none.  The report item
    and the evidence hash built around the assessment are not modelled. *)
From Stdlib Require Import Ascii.
From S2P Require Import Prelude GoSort GoStrings FormulaDecimal RiskContract RiskThreshold.
Open Scope Z_scope.

Record AssessmentRequest := mkRequest {
  Role : PolicyRole; Candidate : MetricEvidence; Baseline : MetricEvidence; Threshold : Entry;
  StaleReason : string; ContractValid : bool }.
Record Assessment := mkAssessment {
  Status : ComparisonStatus; Assessment_Severity : option Severity; PolicyEffect : option Severity; Reason : string;
  SignedDelta : option string; RiskDelta : option string; RelativeRisk : option string; Override : OverrideClass }.

Definition unavailableAssessment (result : Assessment) (status : ComparisonStatus) (reason : string) (effect : Severity) : Assessment :=
  mkAssessment status None (Some effect) reason (SignedDelta result) (RiskDelta result) (RelativeRisk result) NonOverridable.

Definition policyEffect (role : PolicyRole) (status : ComparisonStatus) : Severity :=
  if bool_decide (status = Stale) || bool_decide (role = Required) then Block else Warning.

Definition sameTargetRange (left right : option TargetRangeValue) : bool :=
  match left, right with
  | Some l, Some r => bool_decide (l = r)
  | _, _ => none left && none right
  end.

(** [*p] on a pointer to a value. *)
Definition deref {A : Type} (p : option A) : result A go_panic :=
  match p with Some a => Ok a | None => Err NilDereference end.

Section comparison.
Context `{UnicodeTables, ApdLib}.

Definition zero : Decimal := ParseDecimal_or_zero "0".

Definition rangeDistance (value : Decimal) (target : TargetRangeValue) : result Decimal string :=
  let? lower := ParseDecimal (Lower target) in
  let? upper := ParseDecimal (Upper target) in
  if Compare value lower <? 0 then Subtract lower value
  else if 0 <? Compare value upper then Subtract value upper
  else Ok zero.

Definition directionalRiskDelta (direction : MetricDirection) (candidate baseline : Decimal) (target : option TargetRangeValue) :
    result Decimal string :=
  match direction with
  | HigherIsRisk => Subtract candidate baseline
  | LowerIsRisk => Subtract baseline candidate
  | TargetRange =>
      match target with
      | None => Err "target range is invalid"%string
      | Some target =>
          if negb (TargetRange_Valid target) then Err "target range is invalid"%string
          else
            let? candidateDistance := rangeDistance candidate target in
            let? baselineDistance := rangeDistance baseline target in
            Subtract candidateDistance baselineDistance
      end
  | DirectionUnknown _ => Err "direction is invalid"%string
  end.

Definition parseBoundary (v : string) : Decimal * bool :=
  match ParseDecimal v with Ok d => (d, true) | Err _ => (mkDecimal apd_zero, false) end.

(** Whether a value reaches the block and the warning boundary. *)
Definition reaches (v : Decimal) (b : Boundaries) : option (bool * bool) :=
  let '(warning, warningValid) := parseBoundary (Boundary_Warning b) in
  let '(block, blockValid) := parseBoundary (Boundary_Block b) in
  if negb warningValid || negb blockValid then None
  else Some (0 <=? Compare v block, 0 <=? Compare v warning).

Definition evaluateSeverity (relative : option Decimal) (riskDelta : Decimal) (entry : Entry) : result Severity string :=
  let? (block, warning) :=
    match relative with
    | None => Ok (false, false)
    | Some relative =>
        match reaches relative (Relative entry) with
        | None => Err "relative boundary invalid"%string
        | Some bw => Ok bw
        end
    end in
  let? (block, warning) :=
    match Absolute entry with
    | None => Ok (block, warning)
    | Some absolute =>
        match reaches riskDelta absolute with
        | None => Err "absolute boundary invalid"%string
        | Some (b, w) => Ok (block || b, warning || w)
        end
    end in
  Ok (if block then Block else if warning then Warning else Info).

(** The relative risk: the risk delta over the absolute baseline, [None] for a
    zero baseline. *)
Definition relativeRisk (riskDelta baseline : Decimal) : result (option Decimal) string :=
  if negb (Compare baseline zero =? 0) then
    let? denominator := Abs baseline in
    let? v := Divide riskDelta denominator in
    Ok (Some v)
  else Ok None.

Definition unset : Assessment := mkAssessment StatusUnset None None "" None None None NonOverridable.

(** The assessment of two available metrics, after every contract check. *)
Definition assess_values (r : AssessmentRequest) (candidate baseline : Decimal) : Assessment :=
  let incomparable result reason := unavailableAssessment result NotComparable reason (policyEffect (Role r) NotComparable) in
  match Subtract candidate baseline with
  | Err _ => incomparable unset "DECIMAL_OPERATION_INVALID"%string
  | Ok signed =>
      match directionalRiskDelta (Evidence_Direction (Candidate r)) candidate baseline (Evidence_TargetRange (Candidate r)) with
      | Err _ => incomparable unset "DECIMAL_OPERATION_INVALID"%string
      | Ok riskDelta =>
          let deltas := mkAssessment StatusUnset None None "" (Some (Decimal_String signed)) (Some (Decimal_String riskDelta))
                          None NonOverridable in
          match relativeRisk riskDelta baseline with
          | Err _ => incomparable deltas "DECIMAL_OPERATION_INVALID"%string
          | Ok relative =>
              if none relative && none (Absolute (Threshold r))
              then incomparable deltas "ZERO_BASELINE_WITHOUT_ABSOLUTE_THRESHOLD"%string
              else
                let deltas := mkAssessment StatusUnset None None "" (SignedDelta deltas) (RiskDelta deltas)
                                (Decimal_String <$> relative) NonOverridable in
                match evaluateSeverity relative riskDelta (Threshold r) with
                | Err _ => incomparable deltas "THRESHOLD_CONTRACT_INVALID"%string
                | Ok severity =>
                    mkAssessment Comparable (Some severity) (Some severity) "" (SignedDelta deltas) (RiskDelta deltas)
                      (RelativeRisk deltas) NumericOverrideEligible
                end
          end
      end
  end.

(** The contract checks, in the order of the code: the reason of the first that
    fails. *)
Definition contract_failure (r : AssessmentRequest) : option string :=
  let c := Candidate r in let b := Baseline r in let t := Threshold r in
  if negb (bool_decide (Role r = Required) || bool_decide (Role r = Optional)) || negb (ContractValid r) || negb (Entry_Valid t)
  then Some "COMPARISON_CONTRACT_INVALID"%string
  else if negb (MetricEvidence_Valid c) || negb (MetricEvidence_Valid b) then Some "METRIC_EVIDENCE_INVALID"%string
  else if negb (bool_decide (MetricID c = MetricID b)) || negb (bool_decide (MetricVersion c = MetricVersion b))
  then Some "METRIC_IDENTITY_MISMATCH"%string
  else if negb (bool_decide (Entry_MetricID t = MetricID c)) || negb (bool_decide (Entry_MetricVersion t = MetricVersion c))
  then Some "THRESHOLD_SCOPE_MISMATCH"%string
  else if negb (bool_decide (Evidence_Unit c = Evidence_Unit b)) || negb (bool_decide (Evidence_Unit c = Entry_Unit t))
  then Some "METRIC_UNIT_MISMATCH"%string
  else if negb (bool_decide (Evidence_Direction c = Evidence_Direction b)) ||
          negb (bool_decide (Evidence_Direction c = Entry_Direction t)) ||
          negb (sameTargetRange (Evidence_TargetRange c) (Evidence_TargetRange b))
  then Some "METRIC_DIRECTION_MISMATCH"%string
  else None.

Definition Assess (r : AssessmentRequest) : result Assessment go_panic :=
  if negb (blank (StaleReason r)) then Ok (unavailableAssessment unset Stale (StaleReason r) Block)
  else match contract_failure r with
       | Some reason => Ok (unavailableAssessment unset NotComparable reason (policyEffect (Role r) NotComparable))
       | None =>
           if bool_decide (Evidence_Status (Candidate r) = MetricUnavailable) ||
              bool_decide (Evidence_Status (Baseline r) = MetricUnavailable)
           then Ok (unavailableAssessment unset Unavailable "METRIC_UNAVAILABLE" (policyEffect (Role r) Unavailable))
           else
             let? candidate := deref (Evidence_Value (Candidate r)) in
             let? baseline := deref (Evidence_Value (Baseline r)) in
             Ok (assess_values r (ParseDecimal_or_zero candidate) (ParseDecimal_or_zero baseline))
       end.
End comparison.

(** ** Every request is assessed *)
Section assessment.
Context `{UnicodeTables, ApdLib}.

(** Evidence that is valid and not unavailable has a value. *)
Lemma valid_evidence_value m :
  MetricEvidence_Valid m = true -> Evidence_Status m <> MetricUnavailable -> exists v, Evidence_Value m = Some v.
Proof.
  intros Hv Hs. revert Hv. unfold MetricEvidence_Valid. do 4 (case_guard; [done|]).
  rewrite (bool_decide_false (Evidence_Status m = MetricUnavailable)) by done. case_guard; [done|].
  destruct (Evidence_Value m); [eauto|done].
Qed.

Lemma contract_failure_None r :
  contract_failure r = None ->
  (Role r = Required \/ Role r = Optional) /\ ContractValid r = true /\ Entry_Valid (Threshold r) = true /\
  MetricEvidence_Valid (Candidate r) = true /\ MetricEvidence_Valid (Baseline r) = true /\
  MetricID (Candidate r) = MetricID (Baseline r) /\ MetricVersion (Candidate r) = MetricVersion (Baseline r) /\
  Entry_MetricID (Threshold r) = MetricID (Candidate r) /\ Entry_MetricVersion (Threshold r) = MetricVersion (Candidate r) /\
  Evidence_Unit (Candidate r) = Evidence_Unit (Baseline r) /\ Evidence_Unit (Candidate r) = Entry_Unit (Threshold r) /\
  Evidence_Direction (Candidate r) = Evidence_Direction (Baseline r) /\ Evidence_Direction (Candidate r) = Entry_Direction (Threshold r) /\
  Evidence_TargetRange (Candidate r) = Evidence_TargetRange (Baseline r).
Proof.
  unfold contract_failure. cbv zeta. do 6 (case_guard; [done|]). intros _. bool_to_prop.
  split; [|split_and!; try done].
  - match goal with H : (_ || _) = true |- _ => apply orb_prop in H as [?|?]; bool_to_prop; auto end.
  - unfold sameTargetRange in *. destruct (Evidence_TargetRange (Candidate r)), (Evidence_TargetRange (Baseline r)); simpl in *; bool_to_prop; congruence.
Qed.

(** The two shapes of an assessment. *)
Definition decided (a : Assessment) : Prop :=
  Status a = Comparable /\ exists s, Assessment_Severity a = Some s /\ PolicyEffect a = Some s /\
    Override a = NumericOverrideEligible /\ Reason a = ""%string.
Definition undecided (role : PolicyRole) (a : Assessment) : Prop :=
  Status a <> Comparable /\ Assessment_Severity a = None /\ PolicyEffect a = Some (policyEffect role (Status a)) /\
  Override a = NonOverridable /\ blank (Reason a) = false.

Lemma assess_values_shape r candidate baseline :
  decided (assess_values r candidate baseline) \/ undecided (Role r) (assess_values r candidate baseline).
Proof.
  assert (forall base reason, blank reason = false ->
    undecided (Role r) (unavailableAssessment base NotComparable reason (policyEffect (Role r) NotComparable))) as Hun by done.
  unfold assess_values. cbv zeta.
  destruct (Subtract candidate baseline) as [signed|]; [|by right; apply Hun].
  destruct (directionalRiskDelta _ _ _ _) as [delta|]; [|by right; apply Hun].
  destruct (relativeRisk delta baseline) as [relative|]; [|by right; apply Hun].
  destruct (none relative && none (Absolute (Threshold r))); [by right; apply Hun|].
  destruct (evaluateSeverity _ _ _) as [s|]; [|by right; apply Hun]. left. split; [done|]. by exists s.
Qed.

(** C39: Every request gets an assessment, without a nil dereference.  Either it is
    comparable, with a severity that is also its policy effect and may be
    overridden, or it has no severity, says why, cannot be overridden, and
    blocks a required metric. *)
Theorem assess_fails_closed r :
  exists a, Assess r = Ok a /\ (decided a \/ undecided (Role r) a) /\
    (Role r = Required -> Status a <> Comparable -> PolicyEffect a = Some Block).
Proof.
  assert (forall a, decided a \/ undecided (Role r) a -> Role r = Required -> Status a <> Comparable -> PolicyEffect a = Some Block) as Hreq.
  { intros a [(Hs & _)|(_ & _ & -> & _)] Hr Hns; [done|]. unfold policyEffect. rewrite (bool_decide_true (Role r = Required)) by done.
    by rewrite orb_true_r. }
  enough (exists a, Assess r = Ok a /\ (decided a \/ undecided (Role r) a)) as (a & Ha & Hshape) by eauto.
  unfold Assess. case_guard as Hstale.
  { apply negb_true_iff in Hstale. eexists. split; [done|]. right. by split_and!. }
  destruct (contract_failure r) as [reason|] eqn:Hf.
  { eexists. split; [done|]. right. split_and!; try done. simpl. revert Hf. unfold contract_failure. cbv zeta.
    repeat (case_guard; [by intros [= <-]|]). done. }
  case_guard as Hu.
  { eexists. split; [done|]. right. by split_and!. }
  apply contract_failure_None in Hf as (_ & _ & _ & Hc & Hb & _). apply orb_false_elim in Hu as [Huc Hub]. bool_to_prop.
  destruct (valid_evidence_value _ Hc) as [c ->]; [done|]. destruct (valid_evidence_value _ Hb) as [b ->]; [done|]. simpl.
  eexists. split; [done|]. apply assess_values_shape.
Qed.

(** Only comparisons of like with like are decided: same metric and version,
    unit, direction and target range in both runs and in the threshold, both
    values available, current evidence, and for a zero baseline an absolute
    threshold. *)
Theorem comparable_only_on_agreement r a :
  Assess r = Ok a -> Status a = Comparable ->
  blank (StaleReason r) = true /\ contract_failure r = None /\
  Evidence_Status (Candidate r) = MetricAvailable /\ Evidence_Status (Baseline r) = MetricAvailable /\
  exists b, Evidence_Value (Baseline r) = Some b /\
    (Compare (ParseDecimal_or_zero b) zero = 0 -> Absolute (Threshold r) <> None).
Proof.
  unfold Assess. case_guard as Hstale; [intros [= <-]; done|]. apply negb_false_iff in Hstale.
  destruct (contract_failure r) as [reason|] eqn:Hf; [intros [= <-]; done|].
  case_guard as Hu; [intros [= <-]; done|]. apply orb_false_elim in Hu as [Huc Hub]. bool_to_prop.
  pose proof (contract_failure_None _ Hf) as (_ & _ & _ & Hc & Hb & _).
  intros (c & Hcv & (b & Hbv & [= <-])%result_bind_Ok)%result_bind_Ok Hst.
  assert (forall m, MetricEvidence_Valid m = true -> Evidence_Status m <> MetricUnavailable -> Evidence_Status m = MetricAvailable) as Hav.
  { intros m Hm Hs. revert Hm. unfold MetricEvidence_Valid. do 4 (case_guard; [done|]).
    rewrite (bool_decide_false (Evidence_Status m = MetricUnavailable)) by done. case_guard as Ha; [done|]. intros _. by bool_to_prop. }
  split; [done|]. split; [done|]. split; [by apply Hav|]. split; [by apply Hav|]. exists b.
  split; [by destruct (Evidence_Value (Baseline r)); simplify_eq/=|]. intros Hz Habs. revert Hst. unfold assess_values. cbv zeta.
  destruct (Subtract _ _); [|done]. destruct (directionalRiskDelta _ _ _ _); [|done].
  assert (forall d, relativeRisk d (ParseDecimal_or_zero b) = Ok None) as -> by (intros d; unfold relativeRisk; by rewrite Hz).
  by rewrite Habs.
Qed.

(** ** Severity *)
Definition rank (s : Severity) : Z := match s with Info => 0 | Warning => 1 | Block => 2 end.

Definition at_most (v w : Decimal) : Prop := Compare v w <= 0.

Lemma Boundaries_Valid_spec b :
  Boundaries_Valid b = true -> exists w k, ParseDecimal (Boundary_Warning b) = Ok w /\ ParseDecimal (Boundary_Block b) = Ok k /\ at_most w k.
Proof.
  unfold Boundaries_Valid, parseThresholdDecimal. destruct (ParseDecimal (Boundary_Warning b)) as [w|]; [|done].
  case_guard; [done|]. destruct (ParseDecimal (Boundary_Block b)) as [k|]; [|done].
  intros Hv. bool_to_prop. exists w, k. done.
Qed.

(** How far a value goes into valid boundaries. *)
Definition level (v : Decimal) (b : Boundaries) : Z :=
  match reaches v b with Some (block, warning) => if block then 2 else if warning then 1 else 0 | None => 0 end.

Lemma Entry_Valid_boundaries e :
  Entry_Valid e = true -> Boundaries_Valid (Relative e) = true /\ option_forallb Boundaries_Valid (Absolute e) = true.
Proof.
  unfold Entry_Valid. case_guard as Hg; [done|]. do 2 (case_guard; [done|]). bool_to_prop. done.
Qed.

(** The value a valid boundary pair is compared with never reaches the block
    boundary without the warning one. *)
Lemma reaches_valid `{!ApdOrder} v b :
  Boundaries_Valid b = true -> exists block warning, reaches v b = Some (block, warning) /\ (block = true -> warning = true).
Proof.
  intros (w & k & Hw & Hk & Hwk)%Boundaries_Valid_spec. unfold reaches, parseBoundary. rewrite Hw, Hk. simpl.
  do 2 eexists. split; [done|]. intros Hb. bool_to_prop. apply Z.leb_le. unfold at_most, Compare in *.
  rewrite cmp_swap in Hb |- *. pose proof (cmp_trans (value w) (value k) (value v)). lia.
Qed.

Lemma level_monotone `{!ApdOrder} v v' b : at_most v v' -> level v b <= level v' b.
Proof.
  intros Hv. unfold level, reaches. destruct (parseBoundary (Boundary_Warning b)) as [w wv], (parseBoundary (Boundary_Block b)) as [k kv].
  case_guard; [done|]. unfold at_most, Compare in *.
  assert (forall x, (0 <=? apd_Cmp (value v) x) = true -> (0 <=? apd_Cmp (value v') x) = true) as Hmono.
  { intros x Hx. bool_to_prop. apply Z.leb_le. rewrite cmp_swap in Hx |- *. pose proof (cmp_trans x (value v) (value v')). lia. }
  pose proof (Hmono (value k)). pose proof (Hmono (value w)).
  destruct (0 <=? apd_Cmp (value v) (value k)); [by rewrite H2|].
  destruct (0 <=? apd_Cmp (value v) (value w)); [rewrite H3 by done|]; repeat case_guard; lia.
Qed.

(** On a valid threshold the severity is the worse of the levels that the
    relative and the absolute risk reach. *)
Theorem severity_is_worst_level `{!ApdOrder} relative riskDelta e :
  Entry_Valid e = true ->
  exists s, evaluateSeverity relative riskDelta e = Ok s /\
    rank s = Z.max (match relative with Some v => level v (Relative e) | None => 0 end)
                   (match Absolute e with Some b => level riskDelta b | None => 0 end) /\
    (forall relative' riskDelta' s', option_relation at_most (fun _ => False) (fun _ => False) relative relative' ->
       at_most riskDelta riskDelta' -> evaluateSeverity relative' riskDelta' e = Ok s' -> rank s <= rank s').
Proof.
  intros [Hr Ha]%Entry_Valid_boundaries.
  assert (forall relative riskDelta, exists s, evaluateSeverity relative riskDelta e = Ok s /\
    rank s = Z.max (match relative with Some v => level v (Relative e) | None => 0 end)
                   (match Absolute e with Some b => level riskDelta b | None => 0 end)) as Hlevel.
  { intros rel d. unfold evaluateSeverity, level.
    destruct rel as [v|]; [destruct (reaches_valid v _ Hr) as (b1 & w1 & E1 & I1); rewrite E1|];
      (destruct (Absolute e) as [ab|]; [destruct (reaches_valid d ab Ha) as (b2 & w2 & E2 & I2); rewrite E2|]);
      cbn [result_bind]; eexists; (split; [done|]).
    - destruct b1, w1, b2, w2; done.
    - destruct b1, w1; done.
    - destruct b2, w2; done.
    - done. }
  destruct (Hlevel relative riskDelta) as (s & Hs & Hrank). exists s. split; [done|]. split; [done|].
  intros rel' d' s' Hrel Hd Hs'. destruct (Hlevel rel' d') as (s'' & Hs'' & Hrank'). rewrite Hs' in Hs''. injection Hs'' as <-.
  rewrite Hrank, Hrank'. apply Z.max_le_compat.
  - destruct relative, rel'; simpl in Hrel; try done. by apply level_monotone.
  - destruct (Absolute e); [by apply level_monotone|done].
Qed.
End assessment.

Module RiskExamples.
#[local] Existing Instance integer_apd.
#[local] Existing Instance integer_apd_order.

Definition zeros : string := "0000000000000000000000000000000000000000000000000000000000000000".
Definition rule : Identity := mkIdentity "structure" zeros "v1".
Definition entry (group : option string) (warning block : string) : Entry :=
  mkEntry "duel" "v1" "dps" "v1" group "points" HigherIsRisk (mkBoundaries "1" "1") (Some (mkBoundaries warning block)).
Definition body : Body := mkBody "v1" "starter" ["b"%string; "a"%string] [entry (Some "mages"%string) "2" "4"; entry None "1" "9"] [rule].
Definition normal_body : Body := Eval vm_compute in match Normalize body with Ok n => n | Err _ => body end.
Definition scope (group : option string) : ThresholdScope := mkScope "duel" "v1" "dps" "v1" group "points" HigherIsRisk.

Example resolved :
  (match Resolve body (scope (Some "mages"%string)) false with Ok r => Absolute (Resolution_Entry r) | Err _ => None end,
   match Resolve body (scope (Some "mages"%string)) true with Ok r => Absolute (Resolution_Entry r) | Err _ => None end,
   match Resolve body (scope (Some "rogues"%string)) false with Ok r => Priority (Resolution_Evidence r) | Err _ => ""%string end)
  = (Some (mkBoundaries "2" "4"), Some (mkBoundaries "1" "9"), "project_default"%string).
Proof. vm_compute. reflexivity. Qed.

Lemma resolve_exact_then_default_witness :
  forallb (fun e => negb (bool_decide (ScopeKey e = ScopeKey (entry (Some "rogues"%string) "1" "1")))) (Entries body) = true /\
  match Resolve body (scope (Some "rogues"%string)) false with
  | Ok r => decides (Entries body) (priority_keys (scope (Some "rogues"%string)) false) (SelectedKey (Resolution_Evidence r)) (Resolution_Entry r) /\
      Entry_Unit (Resolution_Entry r) = "points"%string /\ Entry_Direction (Resolution_Entry r) = HigherIsRisk
  | Err (ErrThresholdNotConfigured, _) => forall e, e ∈ Entries body -> ScopeKey e ∉ priority_keys (scope (Some "rogues"%string)) false
  | Err (ErrThresholdInvalid, _) => exists k e, decides (Entries body) (priority_keys (scope (Some "rogues"%string)) false) k e /\
      (Entry_Unit e <> "points"%string \/ Entry_Direction e <> HigherIsRisk)
  end.
Proof.
  split; [vm_compute; reflexivity|].
  assert (ThresholdScope_Valid (scope (Some "rogues"%string)) = true) as Hs by (vm_compute; reflexivity).
  assert (Normalize body = Ok normal_body) as Hn by (vm_compute; reflexivity).
  exact (resolve_exact_then_default body normal_body (scope (Some "rogues"%string)) false Hs Hn).
Defined.

Definition evidence (v : string) : MetricEvidence :=
  mkEvidence "dps" "v1" MetricAvailable "points" HigherIsRisk None None (Some v) (Some v) (Some v) 10 [] None zeros.
Definition request (role : PolicyRole) (candidate baseline : string) : AssessmentRequest :=
  mkRequest role (evidence candidate) (evidence baseline) (entry None "2" "4") "" true.

(** Severity and delta by candidate value, against a baseline of ten. *)
Example assessed :
  (fun v => match Assess (request Required v "10") with Ok a => (Assessment_Severity a, RiskDelta a) | Err _ => (None, None) end)
    <$> ["9"; "12"; "14"; "25"]%string =
  [(Some Info, Some "-1"%string); (Some Warning, Some "2"%string); (Some Block, Some "4"%string); (Some Block, Some "15"%string)].
Proof. vm_compute. reflexivity. Qed.

Definition twelve : Assessment := Eval vm_compute in
  match Assess (request Optional "12" "10") with Ok a => a | Err _ => unset end.

Lemma comparable_only_on_agreement_witness :
  Status twelve = Comparable /\ contract_failure (request Optional "12" "10") = None.
Proof.
  assert (Assess (request Optional "12" "10") = Ok twelve) as Ha by (vm_compute; reflexivity).
  assert (Status twelve = Comparable) as Hs by reflexivity.
  split; [exact Hs|]. exact (proj1 (proj2 (comparable_only_on_agreement (request Optional "12" "10") twelve Ha Hs))).
Defined.

Lemma severity_is_worst_level_witness :
  exists s, evaluateSeverity (Some (mkDecimal (H0 := integer_apd) 0)) (mkDecimal (H0 := integer_apd) 3) (entry None "2" "4") = Ok s /\
    rank s = 1.
Proof.
  assert (Entry_Valid (entry None "2" "4") = true) as He by (vm_compute; reflexivity).
  destruct (severity_is_worst_level (Some (mkDecimal (H0 := integer_apd) 0)) (mkDecimal (H0 := integer_apd) 3) (entry None "2" "4") He)
    as (s & Hs & Hr & _).
  exists s. split; [exact Hs|]. rewrite Hr. vm_compute. reflexivity.
Defined.
End RiskExamples.
