(* ===== verification/BackupPolicy.v ===== *)
(** * internal/backup/domain: policy.go and the values of types.go it decides on

    Which daily backup a project needs, and which artifacts retention removes.
    The JSON codecs of commands and waivers are not modelled. *)
From Stdlib Require Import Ascii.
From S2P Require Import Prelude GoSort GoStrings Domain.
Open Scope Z_scope.

(** ** types.go *)
Inductive Type_ := Manual | Daily | Migration | RestorePre | Release | TypeUnknown (spelling : string).
Inductive Trigger := TriggerUser | TriggerPolicy | TriggerMigration | TriggerRestore | TriggerRelease | TriggerUnknown (spelling : string).
Inductive ValidationState := ValidationValid | ValidationDamaged | ValidationIncomplete | ValidationMissing | ValidationUnknown (spelling : string).
#[global] Instance Type_eq_dec : EqDecision Type_.
Proof. solve_decision. Defined.
#[global] Instance Trigger_eq_dec : EqDecision Trigger.
Proof. solve_decision. Defined.
#[global] Instance ValidationState_eq_dec : EqDecision ValidationState.
Proof. solve_decision. Defined.

Definition Type_Valid (v : Type_) : bool := match v with TypeUnknown _ => false | _ => true end.
Definition Mandatory (v : Type_) : bool := match v with Migration | RestorePre | Release => true | _ => false end.
Definition ValidFor (v : Trigger) (kind : Type_) : bool :=
  match kind with
  | Manual => bool_decide (v = TriggerUser)
  | Daily => bool_decide (v = TriggerPolicy)
  | Migration => bool_decide (v = TriggerMigration)
  | RestorePre => bool_decide (v = TriggerRestore)
  | Release => bool_decide (v = TriggerRelease)
  | TypeUnknown _ => false
  end.
Definition ValidationState_Valid (v : ValidationState) : bool := match v with ValidationUnknown _ => false | _ => true end.

(** [time.Time]: the instant, and whether its location is [time.UTC]. *)
Record Timestamp := mkTimestamp { instant : Time; utc : bool }.
Definition validTime (t : Timestamp) : bool := negb (IsZero (instant t)) && utc t.

Definition validHash (v : string) : bool := hash_shape v.
Definition unsafe_chars : string :=
  String (char_of 13) (String (char_of 10) (String (char_of 0) (String (char_of 47) (String (char_of 92) "")))).
Definition safeIdentity (v : string) : bool :=
  negb (bool_decide (v = ""%string)) && bool_decide (v = TrimSpace v) && negb (ContainsAny v unsafe_chars).

(** [time.Parse] and [Format] with the layout of a date: the year, month and
    day. *)
Definition number (s : string) : option Z :=
  if all_chars (fun a => in_range 48 (byte_of a) 57) s then parse_digits 0 (bytes s) else None.
Definition leap (y : Z) : bool := (y mod 4 =? 0) && (negb (y mod 100 =? 0) || (y mod 400 =? 0)).
Definition days_in (y m : Z) : Z :=
  if m =? 2 then (if leap y then 29 else 28) else if (m =? 4) || (m =? 6) || (m =? 9) || (m =? 11) then 30 else 31.
Definition Parse_date (s : string) : option (Z * Z * Z) :=
  if negb (string_len s =? 10) || negb (bool_decide (substr 4 5 s = "-"%string)) || negb (bool_decide (substr 7 8 s = "-"%string))
  then None
  else
    y ← number (substr 0 4 s); m ← number (substr 5 7 s); d ← number (substr 8 10 s);
    if in_range 1 m 12 && in_range 1 d (days_in y m) then Some (y, m, d) else None.
Definition pad (width : nat) (z : Z) : string :=
  let t := Itoa z in string_drop (String.length t) (String.concat "" (replicate width "0"%string)) +:+ t.
Definition Format_date (date : Z * Z * Z) : string :=
  let '(y, m, d) := date in (pad 4 y +:+ "-" +:+ pad 2 m +:+ "-" +:+ pad 2 d)%string.

Section policy.
Context `{UuidLib}.

Record SourceIdentity := mkSource {
  Source_RevisionID : ID; Source_ReleaseID : ID; Source_MigrationID : string; Source_CallerJobID : ID; Source_RequestHash : string }.
Definition absent (s : string) : bool := bool_decide (s = ""%string).
Definition SourceIdentity_Valid (v : SourceIdentity) : bool :=
  (absent (Source_RevisionID v) || ID_Valid (Source_RevisionID v)) &&
  (absent (Source_ReleaseID v) || ID_Valid (Source_ReleaseID v)) &&
  (absent (Source_CallerJobID v) || ID_Valid (Source_CallerJobID v)) &&
  (absent (Source_MigrationID v) || (safeIdentity (Source_MigrationID v) && (string_len (Source_MigrationID v) <=? 128))) &&
  (absent (Source_RequestHash v) || validHash (Source_RequestHash v)).

Definition CommandVersion : string := "eco-guardian-backup-command-v1".
Record Command := mkCommand {
  Command_Version : string; Command_ProjectID : ID; Purpose : Type_; Command_LocalDate : string; CallerJobID : ID;
  CallerHash : string; ManualReason : string; Source : SourceIdentity }.
Definition Command_Valid (c : Command) : bool :=
  if negb (bool_decide (Command_Version c = CommandVersion)) || negb (ID_Valid (Command_ProjectID c)) ||
     negb (Type_Valid (Purpose c)) || negb (SourceIdentity_Valid (Source c)) then false
  else if (if bool_decide (Purpose c = Daily) then bool_decide (Parse_date (Command_LocalDate c) = None)
           else negb (absent (Command_LocalDate c))) then false
  else if Mandatory (Purpose c) then ID_Valid (CallerJobID c) && validHash (CallerHash c)
  else if negb (absent (CallerJobID c)) || negb (absent (CallerHash c)) then false
  else negb (bool_decide (Purpose c = Manual)) ||
       (negb (absent (ManualReason c)) && bool_decide (ManualReason c = TrimSpace (ManualReason c)) && (string_len (ManualReason c) <=? 128)).

(** ** The daily policy *)
Inductive DailyState := DailySuccessful | DailyInProgress | DailyRequired | DailyAwaitingWaiver | DailyExplicitlyWaived.
Record DailyWaiver := mkWaiver {
  Waiver_Version : string; Waiver_ProjectID : ID; Waiver_LocalDate : string; Waiver_FailedJobID : ID; Confirmed : bool;
  ConfirmedBy : string; ConfirmedAt : Timestamp }.
Record DailyObservation := mkObservation {
  ProjectID : ID; LocalDate : string; BusinessWrite : bool; SuccessfulToday : bool; InProgress : bool;
  FailedJobID : ID; Waiver : option DailyWaiver }.
Inductive BackupError := ErrInvalidBackup.

Definition DailyWaiver_Valid (w : DailyWaiver) : bool :=
  bool_decide (Waiver_Version w = "daily-waiver-v1"%string) && ID_Valid (Waiver_ProjectID w) &&
  negb (bool_decide (Parse_date (Waiver_LocalDate w) = None)) && ID_Valid (Waiver_FailedJobID w) && Confirmed w &&
  safeIdentity (ConfirmedBy w) && (string_len (ConfirmedBy w) <=? 128) && validTime (ConfirmedAt w).

Definition waives (o : DailyObservation) (w : DailyWaiver) : bool :=
  DailyWaiver_Valid w && bool_decide (Waiver_ProjectID w = ProjectID o) && bool_decide (Waiver_LocalDate w = LocalDate o) &&
  bool_decide (Waiver_FailedJobID w = FailedJobID o).

Definition ReduceDailyPolicy (o : DailyObservation) : result DailyState BackupError :=
  if negb (ID_Valid (ProjectID o)) then Err ErrInvalidBackup
  else match Parse_date (LocalDate o) with
       | None => Err ErrInvalidBackup
       | Some date =>
           if negb (bool_decide (Format_date date = LocalDate o)) then Err ErrInvalidBackup
           else if negb (BusinessWrite o) || SuccessfulToday o then Ok DailySuccessful
           else if InProgress o then Ok DailyInProgress
           else if match Waiver o with Some w => waives o w | None => false end then Ok DailyExplicitlyWaived
           else if ID_Valid (FailedJobID o) then Ok DailyAwaitingWaiver
           else Ok DailyRequired
       end.

(** ** Retention *)
Record Artifact := mkArtifact {
  Artifact_ID : ID; Artifact_Type : Type_; CreatedAt : Timestamp; Validation : ValidationState; Published : bool; Leased : bool }.

Definition created (a : Artifact) : Time := instant (CreatedAt a).
Definition newest : Artifact -> Artifact -> bool :=
  then_by created (greater Z.ltb) (less_on Artifact_ID (greater String.ltb)).
Definition oldest : Artifact -> Artifact -> bool := then_by created Z.ltb (less_on Artifact_ID String.ltb).

Definition Artifact_Valid (a : Artifact) : bool :=
  ID_Valid (Artifact_ID a) && Type_Valid (Artifact_Type a) && validTime (CreatedAt a) && ValidationState_Valid (Validation a).
Definition eligible (a : Artifact) : bool :=
  Published a && bool_decide (Validation a = ValidationValid) && negb (Leased a).

Definition collect (acc : list Artifact * list Artifact) (a : Artifact) : result (list Artifact * list Artifact) BackupError :=
  if negb (Artifact_Valid a) then Err ErrInvalidBackup
  else if negb (eligible a) then Ok acc
  else Ok (match Artifact_Type a with
           | Daily => (acc.1 ++ [a], acc.2)
           | Release | Migration => (acc.1, acc.2 ++ [a])
           | _ => acc
           end).

Definition surplus (pool : list Artifact) (limit : Z) : list Artifact := drop (Z.to_nat limit) (sort_by newest pool).

Definition SelectRetention (artifacts : list Artifact) (dailyLimit releaseMigrationLimit : Z) : result (list ID) BackupError :=
  if (dailyLimit <? 1) || (releaseMigrationLimit <? 1) then Err ErrInvalidBackup
  else
    let? (daily, releaseMigration) := foldr_result collect ([], []) artifacts in
    let selected := surplus daily dailyLimit ++ surplus releaseMigration releaseMigrationLimit in
    Ok (Artifact_ID <$> sort_by oldest selected).
End policy.

(** ** The daily policy: when the day's backup is waived or done *)
Section facts.
Context `{UuidLib}.

(** The day counts as waived only with a confirmed, valid waiver for this
    project, this date and the very job that failed, on a day with business
    writes and neither a success nor a backup in progress; and such a waiver is
    all it takes. *)
Theorem waived_iff_matching_waiver o :
  ReduceDailyPolicy o = Ok DailyExplicitlyWaived <->
  ID_Valid (ProjectID o) = true /\ (exists date, Parse_date (LocalDate o) = Some date /\ Format_date date = LocalDate o) /\
  BusinessWrite o = true /\ SuccessfulToday o = false /\ InProgress o = false /\
  exists w, Waiver o = Some w /\ DailyWaiver_Valid w = true /\ Confirmed w = true /\ Waiver_ProjectID w = ProjectID o /\
    Waiver_LocalDate w = LocalDate o /\ Waiver_FailedJobID w = FailedJobID o /\ ID_Valid (FailedJobID o) = true.
Proof.
  unfold ReduceDailyPolicy. split.
  - case_guard as Hp; [done|]. destruct (Parse_date (LocalDate o)) as [date|]; [|done]. case_guard as Hd; [done|].
    case_guard as Hs; [done|]. case_guard as Hi; [done|]. case_guard as Hw; [|by case_guard]. intros _.
    bool_to_prop. split; [done|]. split; [eauto|]. do 3 (split; [done|]).
    destruct (Waiver o) as [w|]; [|done]. exists w. unfold waives in Hw. bool_to_prop.
    assert (DailyWaiver_Valid w = true) as Hv by done. unfold DailyWaiver_Valid in Hv. bool_to_prop.
    split_and!; try done. congruence.
  - intros (Hp & (date & Hd & Hf) & Hb & Hs & Hi & w & Hw & Hv & _ & H1 & H2 & H3 & _).
    rewrite Hp, Hd, Hb, Hs, Hi, Hw. simpl. rewrite bool_decide_true by done. simpl.
    unfold waives. rewrite Hv, !bool_decide_true by done. done.
Qed.

(** ** Retention *)
Definition daily_pool (a : Artifact) : bool := eligible a && bool_decide (Artifact_Type a = Daily).
Definition release_pool (a : Artifact) : bool :=
  eligible a && (bool_decide (Artifact_Type a = Release) || bool_decide (Artifact_Type a = Migration)).

Lemma filter_app_single {A : Type} (p : A -> bool) l a :
  List.filter p (l ++ [a]) = List.filter p l ++ (if p a then [a] else []).
Proof. rewrite List.filter_app. simpl. by destruct (p a). Qed.

Lemma collect_spec artifacts pools :
  foldr_result collect ([], []) artifacts = Ok pools ->
  pools = (List.filter daily_pool artifacts, List.filter release_pool artifacts) /\ Forall (fun a => Artifact_Valid a = true) artifacts.
Proof.
  apply (foldr_result_inv collect (fun done_ pools => pools = (List.filter daily_pool done_, List.filter release_pool done_) /\
    Forall (fun a => Artifact_Valid a = true) done_)).
  { by split; [|constructor]. }
  intros done_ a s1 s2 [-> Hv]. unfold collect. case_guard as Ha; [done|]. apply negb_false_iff in Ha.
  assert (Forall (fun a => Artifact_Valid a = true) (done_ ++ [a])) as Hv' by (apply Forall_app; by split; [|constructor]).
  rewrite !filter_app_single.
  change (daily_pool a) with (eligible a && bool_decide (Artifact_Type a = Daily)).
  change (release_pool a) with (eligible a && (bool_decide (Artifact_Type a = Release) || bool_decide (Artifact_Type a = Migration))).
  case_guard as He; [apply negb_true_iff in He; rewrite He; simpl; intros [= <-]; by rewrite !app_nil_r|].
  apply negb_false_iff in He. rewrite He. simpl. intros [= <-]. split; [|done].
  destruct (Artifact_Type a); simpl; by rewrite ?app_nil_r.
Qed.

Lemma collect_total artifacts : Forall (fun a => Artifact_Valid a = true) artifacts ->
  exists pools, foldr_result collect ([], []) artifacts = Ok pools.
Proof.
  intros Hv. destruct (foldr_result_total collect (fun _ _ => True) ([], []) artifacts) as (pools & Hp & _); [done| |eauto].
  intros done_ a rest s1 -> _. apply Forall_app in Hv as [_ Ha%Forall_inv]. unfold collect. rewrite Ha. simpl.
  destruct (eligible a); simpl; eauto.
Qed.

Lemma filter_perm {A : Type} (p : A -> bool) l k : l ≡ₚ k -> List.filter p l ≡ₚ List.filter p k.
Proof.
  induction 1 as [|a l k _ IH|a b l|l k m _ IH1 _ IH2]; simpl; [done|by destruct (p a); rewrite IH| |by etrans].
  destruct (p a), (p b); try done. apply Permutation_swap.
Qed.

Lemma filter_all {A : Type} (p : A -> bool) l : (forall a, a ∈ l -> p a = true) -> List.filter p l = l.
Proof.
  induction l as [|a l IH]; intros Hl; simpl; [done|]. rewrite Hl by left. f_equal. apply IH. intros; apply Hl; by right.
Qed.
Lemma filter_none {A : Type} (p : A -> bool) l : (forall a, a ∈ l -> p a = false) -> List.filter p l = [].
Proof.
  induction l as [|a l IH]; intros Hl; simpl; [done|]. rewrite Hl by left. apply IH. intros; apply Hl; by right.
Qed.
Lemma elem_of_filter_bool {A : Type} (p : A -> bool) l a : a ∈ List.filter p l <-> a ∈ l /\ p a = true.
Proof. by rewrite !list_elem_of_In, filter_In. Qed.

Lemma surplus_incl pool limit a : a ∈ surplus pool limit -> a ∈ pool.
Proof.
  unfold surplus. intros Ha. apply (elem_of_sort_by newest). rewrite <- (take_drop (Z.to_nat limit)). apply elem_of_app. by right.
Qed.

#[local] Instance newest_weak : WeakOrder newest.
Proof. apply _. Qed.

(** Whatever of the pool is not surplus is at least as new as the surplus. *)
Lemma surplus_oldest pool limit kept removed :
  kept ∈ pool -> kept ∉ surplus pool limit -> removed ∈ surplus pool limit -> newest removed kept = false.
Proof.
  intros Hk Hns Hr. unfold surplus in *. apply (elem_of_sort_by newest) in Hk.
  rewrite <- (take_drop (Z.to_nat limit)) in Hk. apply elem_of_app in Hk as [Hk|Hk]; [|done].
  pose proof (sort_by_sorted newest pool) as Hs. rewrite <- (take_drop (Z.to_nat limit) (sort_by newest pool)) in Hs.
  apply list_elem_of_lookup in Hk as [i Hi], Hr as [j Hj]. pose proof (lookup_lt_Some _ _ _ Hi) as Hlt.
  apply (StronglySorted_lookup _ _ i (length (take (Z.to_nat limit) (sort_by newest pool)) + j) kept removed Hs); [lia| |].
  - by apply lookup_app_l_Some.
  - rewrite lookup_app_r by lia. by replace (_ + j - _)%nat with j by lia.
Qed.

(** What retention says of one pool of artifacts with a limit. *)
Definition trims (artifacts removed : list Artifact) (pool : Artifact -> bool) (limit : Z) : Prop :=
  length (List.filter pool removed) = (length (List.filter pool artifacts) - Z.to_nat limit)%nat /\
  forall kept gone, kept ∈ artifacts -> pool kept = true -> kept ∉ removed -> gone ∈ removed -> pool gone = true ->
    newest gone kept = false.

Lemma pools_disjoint a : daily_pool a = true -> release_pool a = true -> False.
Proof.
  unfold daily_pool, release_pool. intros [_ H1]%andb_prop [_ H2]%andb_prop. bool_to_prop. by rewrite H1 in H2.
Qed.

Lemma trims_pool artifacts removed other pool (limit : Z) :
  removed ≡ₚ surplus (List.filter pool artifacts) limit ++ other -> (forall a, a ∈ other -> pool a = false) ->
  trims artifacts removed pool limit.
Proof.
  intros Hp Ho. split.
  - rewrite (filter_perm pool _ _ Hp), List.filter_app, (filter_none pool other Ho), app_nil_r.
    rewrite (filter_all pool (surplus _ _)) by (intros a [_ Ha]%surplus_incl%elem_of_filter_bool; exact Ha).
    unfold surplus. by rewrite length_drop, length_sort_by.
  - intros kept gone Hk Hkp Hnr Hg Hgp. rewrite Hp in Hnr, Hg. apply (surplus_oldest (List.filter pool artifacts) limit).
    + by apply elem_of_filter_bool.
    + intros Hin. apply Hnr, elem_of_app. by left.
    + apply elem_of_app in Hg as [Hg|Hg]; [done|]. rewrite (Ho _ Hg) in Hgp. done.
Qed.

(** C40: Retention removes, oldest first, only published, valid and unleased daily,
    release and migration backups; each pool loses exactly what it holds above
    its limit, and nothing newer goes before something older of the same pool. *)
Theorem retention_removes_oldest_surplus artifacts dailyLimit releaseMigrationLimit ids :
  SelectRetention artifacts dailyLimit releaseMigrationLimit = Ok ids ->
  exists removed, ids = Artifact_ID <$> removed /\ StronglySorted (not_after oldest) removed /\
    (forall a, a ∈ removed -> a ∈ artifacts /\ (daily_pool a = true \/ release_pool a = true)) /\
    trims artifacts removed daily_pool dailyLimit /\ trims artifacts removed release_pool releaseMigrationLimit.
Proof.
  unfold SelectRetention. case_guard; [done|]. intros ([daily rel] & [[= -> ->] _]%collect_spec & [= <-])%result_bind_Ok.
  set (s1 := surplus (List.filter daily_pool artifacts) dailyLimit). set (s2 := surplus (List.filter release_pool artifacts) releaseMigrationLimit).
  assert (forall a, a ∈ s1 -> a ∈ artifacts /\ daily_pool a = true) as H1 by (intros a Ha%surplus_incl; by apply elem_of_filter_bool).
  assert (forall a, a ∈ s2 -> a ∈ artifacts /\ release_pool a = true) as H2 by (intros a Ha%surplus_incl; by apply elem_of_filter_bool).
  exists (sort_by oldest (s1 ++ s2)). split; [done|]. split; [apply sort_by_sorted; apply _|]. split_and!.
  - intros a. rewrite elem_of_sort_by, elem_of_app. intros [Ha%H1|Ha%H2]; tauto.
  - apply (trims_pool _ _ s2); [apply sort_by_perm|]. intros a [_ Ha]%H2. destruct (daily_pool a) eqn:E; [|done]. by destruct (pools_disjoint a).
  - apply (trims_pool _ _ s1); [by rewrite sort_by_perm, Permutation_app_comm|].
    intros a [_ Ha]%H1. destruct (release_pool a) eqn:E; [|done]. by destruct (pools_disjoint a).
Qed.

Lemma newest_separates x y : newest x y = false -> newest y x = false -> Artifact_ID x = Artifact_ID y.
Proof.
  intros Hx Hy. destruct (then_by_eq created (greater Z.ltb) _ x y Hx Hy) as (_ & H1 & H2).
  by apply (st_total (less := greater String.ltb)).
Qed.

(** The selection does not depend on the order in which the artifacts are
    listed. *)
Theorem retention_order_independent artifacts artifacts' dailyLimit releaseMigrationLimit :
  NoDup (Artifact_ID <$> artifacts) -> artifacts ≡ₚ artifacts' ->
  SelectRetention artifacts dailyLimit releaseMigrationLimit = SelectRetention artifacts' dailyLimit releaseMigrationLimit.
Proof.
  intros Hnd Hp. unfold SelectRetention. case_guard; [done|].
  destruct (foldr_result collect ([], []) artifacts) as [[d r]|[]] eqn:E1.
  - apply collect_spec in E1 as [[= -> ->] Hv]. destruct (collect_total artifacts') as [[d' r'] E2]; [by rewrite <- Hp|].
    rewrite E2. apply collect_spec in E2 as [[= -> ->] _]. simpl.
    assert (forall p limit, surplus (List.filter p artifacts) limit = surplus (List.filter p artifacts') limit) as Hs.
    { intros p limit. unfold surplus. f_equal. apply sort_by_unique_on; [apply _| |by apply filter_perm].
      intros x y [Hx _]%elem_of_filter_bool [Hy _]%elem_of_filter_bool Hxy Hyx. apply (NoDup_fmap_key Artifact_ID artifacts); try done.
      by apply newest_separates. }
    by rewrite !Hs.
  - destruct (foldr_result collect ([], []) artifacts') as [[d r]|[]] eqn:E2; [|done].
    apply collect_spec in E2 as [_ Hv]. destruct (collect_total artifacts) as [? E]; [by rewrite Hp|]. congruence.
Qed.
End facts.

Module BackupExamples.
Definition uuid (n : string) : ID := ("00000000-0000-7000-8000-00000000000" +:+ n)%string.
Definition artifact (n : string) (kind : Type_) (at_ : Z) (leased : bool) : Artifact :=
  mkArtifact (uuid n) kind (mkTimestamp at_ true) ValidationValid true leased.
Definition artifacts : list Artifact :=
  [artifact "1" Daily 10 false; artifact "2" Daily 30 false; artifact "3" Daily 20 true; artifact "4" Release 5 false;
   artifact "5" Migration 40 false; artifact "6" Manual 1 false; artifact "7" Daily 15 false].

Example selected : SelectRetention artifacts 1 1 = Ok [uuid "4"; uuid "1"; uuid "7"].
Proof. vm_compute. reflexivity. Qed.

Lemma retention_removes_oldest_surplus_witness :
  exists removed, [uuid "4"; uuid "1"; uuid "7"] = Artifact_ID <$> removed /\ trims artifacts removed daily_pool 1 /\
    trims artifacts removed release_pool 1.
Proof.
  assert (SelectRetention artifacts 1 1 = Ok [uuid "4"; uuid "1"; uuid "7"]) as Hs by (vm_compute; reflexivity).
  destruct (retention_removes_oldest_surplus artifacts 1 1 _ Hs) as (removed & H1 & _ & _ & H2 & H3).
  exists removed. split; [exact H1|]. split; [exact H2|exact H3].
Defined.

Lemma retention_order_independent_witness :
  SelectRetention artifacts 1 1 = SelectRetention (rev artifacts) 1 1.
Proof.
  apply retention_order_independent; [compute_decide|]. symmetry. rewrite <- (Permutation_rev artifacts). reflexivity.
Defined.

Definition waiver : DailyWaiver :=
  mkWaiver "daily-waiver-v1" (uuid "1") "2024-02-29" (uuid "2") true "operator" (mkTimestamp 5 true).
Example waived : ReduceDailyPolicy (mkObservation (uuid "1") "2024-02-29" true false false (uuid "2") (Some waiver)) = Ok DailyExplicitlyWaived.
Proof. vm_compute. reflexivity. Qed.
Example not_waived : ReduceDailyPolicy (mkObservation (uuid "1") "2024-02-29" true false false (uuid "3") (Some waiver)) = Ok DailyAwaitingWaiver.
Proof. vm_compute. reflexivity. Qed.
Example no_such_day : ReduceDailyPolicy (mkObservation (uuid "1") "2023-02-29" true false false (uuid "3") None) = Err ErrInvalidBackup.
Proof. vm_compute. reflexivity. Qed.
End BackupExamples.
