(* ===== verification/ReleaseTypes.v ===== *)
(** * internal/versioning/release: types.go, graph.go (requests) and job_adapter.go

    The values of the release saga: commands and their confirmations, the
    release view of a shared job, intents and their phases, releases, the active
    pointer and the Graph requests.  A release job status is the shared status
    type (the conversion of Go's string types is the identity); its transition
    table is the package's own. *)
From S2P Require Import Prelude GoStrings Domain Job.
From S2P Require VersionGate.
Open Scope Z_scope.

Abbreviation validHash := VersionGate.validHash.
Abbreviation JobStatus := Job.Status.
Abbreviation JobResult := Job.Result.

Definition JobStatus_Valid (s : JobStatus) : bool := Job.Status_Valid s.

Definition JobStatus_CanTransitionTo (s next : JobStatus) : bool :=
  let to x := bool_decide (next = x) in
  match s with
  | Queued => to Running || to Failed || to Canceled || to Interrupted
  | Running => to Succeeded || to Failed || to Canceled || to Interrupted
  | Interrupted => to Succeeded || to Failed
  | _ => false
  end.

Definition ConfirmationEstablishBaseline : string := "establish_baseline".
Definition ConfirmationAcknowledgeWarning : string := "acknowledge_warning".
Definition ConfirmationNumericOverride : string := "numeric_override".

Record Confirmation := mkConfirmation { Confirmation_Kind : string; Confirmed : bool }.
Record OverrideAudit := mkOverride { GateResultID : ID; Reason : string; Override_Confirmed : bool }.

(** [BaselineReleaseID] is [""] where Go has the empty string. *)
Record Command := mkCommand {
  Command_CandidateRevisionID : ID; ConfigHash : string; ManifestHash : string; Command_PolicyID : ID;
  Command_BaselineReleaseID : ID; BaselineSpecified : bool; Command_Notes : string;
  Command_Confirmations : list Confirmation; Command_Override : option OverrideAudit;
  Command_IdempotencyKey : string
}.

Definition validIdempotencyKey (key : string) : bool :=
  bool_decide (key <> ""%string) && bool_decide (key = TrimSpace key) && ValidString key && (RuneCount key <=? 256).

Definition Confirmation_Valid (c : Confirmation) : bool :=
  Confirmed c &&
  (bool_decide (Confirmation_Kind c = ConfirmationEstablishBaseline) ||
   bool_decide (Confirmation_Kind c = ConfirmationAcknowledgeWarning) ||
   bool_decide (Confirmation_Kind c = ConfirmationNumericOverride)).

(** [Job], flat as the package has it. *)
Record ReleaseJob := mkJob {
  Job_ID : ID; Job_ProjectID : ID; Job_RevisionID : ID; Job_InputHash : string; Job_IdempotencyKey : string;
  Job_Status : JobStatus; Job_RequestHash : string; Job_Result : option JobResult;
  Job_CancelGeneration : Z; Job_CancelRequestedAt : option Time; Job_CreatedAt : Time; Job_UpdatedAt : Time
}.

Record BackupEvidence := mkBackup { Online : bool; IntegrityChecked : bool; Checksum : string }.
Definition BackupEvidence_Valid (e : BackupEvidence) : bool := Online e && IntegrityChecked e && validHash (Checksum e).

Record GraphActivationRequest := mkActivation {
  Activation_ProjectID : ID; Activation_RevisionID : ID; Activation_ConfigHash : string; Activation_IntentID : ID
}.
Record GraphActivationEvidence := mkEvidence {
  Changed : bool; Evidence_ProjectID : ID; Evidence_RevisionID : ID; Evidence_ConfigHash : string;
  Evidence_IntentID : ID; TaskID : string
}.
Definition Evidence_Matches (e : GraphActivationEvidence) (request : GraphActivationRequest) : bool :=
  bool_decide (Evidence_ProjectID e = Activation_ProjectID request) &&
  bool_decide (Evidence_RevisionID e = Activation_RevisionID request) &&
  bool_decide (Evidence_ConfigHash e = Activation_ConfigHash request) &&
  bool_decide (Evidence_IntentID e = Activation_IntentID request).

Record GraphSnapshot := mkSnapshot { Snapshot_ProjectID : ID; Snapshot_RevisionID : ID; Snapshot_ConfigHash : string }.
Record GraphReadRequest := mkRead { Read_ProjectID : ID; Read_RevisionID : ID; Read_ConfigHash : string }.
Definition Snapshot_Matches (s : GraphSnapshot) (request : GraphActivationRequest) : bool :=
  bool_decide (Snapshot_ProjectID s = Activation_ProjectID request) &&
  bool_decide (Snapshot_RevisionID s = Activation_RevisionID request) &&
  bool_decide (Snapshot_ConfigHash s = Activation_ConfigHash request).
Definition MatchesRead (s : GraphSnapshot) (request : GraphReadRequest) : bool :=
  bool_decide (Snapshot_ProjectID s = Read_ProjectID request) &&
  bool_decide (Snapshot_RevisionID s = Read_RevisionID request) &&
  bool_decide (Snapshot_ConfigHash s = Read_ConfigHash request).

Record GraphRestoreRequest := mkRestore {
  Restore_ProjectID : ID; Restore_PreviousGraphIdentity : string; Restore_PreviousReleaseID : ID; Restore_IntentID : ID
}.

Record JobRequest := mkJobRequest {
  JobRequest_ProjectID : ID; JobRequest_RevisionID : ID; JobRequest_InputHash : string;
  JobRequest_IdempotencyKey : string; JobRequest_RequestHash : string
}.

Inductive IntentPhase :=
  | IntentQueued | IntentRechecked | IntentBackupSucceeded | IntentRecorded | IntentGraphActivating
  | IntentGraphActivated | IntentPointerCommitting | IntentSucceeded | IntentFailed
  | IntentUnknown (spelling : string).
#[global] Instance IntentPhase_eq_dec : EqDecision IntentPhase.
Proof. solve_decision. Defined.
Definition IntentPhase_Valid (p : IntentPhase) : bool := match p with IntentUnknown _ => false | _ => true end.

Record Intent := mkIntent {
  Intent_ID : ID; Intent_JobID : ID; Intent_CandidateRevisionID : ID; Intent_BaselineReleaseID : ID;
  Intent_PolicyID : ID; GateManifest : string; GateManifestHash : string;
  Intent_Confirmations : list Confirmation; Backup : BackupEvidence; PreviousGraphIdentity : string;
  PreviousReleaseID : ID; Intent_RequestHash : string; Intent_IdempotencyKey : string; Intent_Notes : string;
  Intent_Override : option OverrideAudit; ExternalTaskID : string; Intent_Phase : IntentPhase;
  ErrorDetails : string; Intent_CreatedAt : Time; Intent_UpdatedAt : Time
}.

Record Release := mkRelease {
  Release_ID : ID; Release_RevisionID : ID; Release_PolicyID : ID; Release_IntentID : ID; Release_CreatedAt : Time
}.
Record ActivePointer := mkPointer { Pointer_ReleaseID : ID; Generation : Z }.

Section validity.
Context `{UuidLib}.

Definition Command_Valid (c : Command) : bool :=
  if negb (ID_Valid (Command_CandidateRevisionID c)) || negb (ID_Valid (Command_PolicyID c)) ||
     negb (validHash (ConfigHash c)) || negb (validHash (ManifestHash c)) || negb (BaselineSpecified c) ||
     (bool_decide (Command_BaselineReleaseID c <> ""%string) && negb (ID_Valid (Command_BaselineReleaseID c)))
  then false
  else if negb (validIdempotencyKey (Command_IdempotencyKey c)) || negb (ValidString (Command_Notes c)) ||
          (10000 <? RuneCount (Command_Notes c))
  then false
  else
    forallb Confirmation_Valid (Command_Confirmations c) && nodupb (Confirmation_Kind <$> Command_Confirmations c) &&
    match Command_Override c with
    | None => true
    | Some o =>
        ID_Valid (GateResultID o) && Override_Confirmed o && ValidString (Reason o) &&
        bool_decide (TrimSpace (Reason o) <> ""%string) && (RuneCount (Reason o) <=? 10000)
    end.

Definition JobResult_Valid (r : JobResult) : bool :=
  bool_decide (TrimSpace (Result_Type r) <> ""%string) && ID_Valid (Result_ID r) &&
  bool_decide (TrimSpace (Result_URL r) <> ""%string).

Definition Job_Valid (j : ReleaseJob) : bool :=
  if negb (ID_Valid (Job_ID j)) || negb (ID_Valid (Job_ProjectID j)) || negb (ID_Valid (Job_RevisionID j)) ||
     negb (validHash (Job_InputHash j)) || negb (validIdempotencyKey (Job_IdempotencyKey j)) ||
     negb (JobStatus_Valid (Job_Status j)) || negb (validHash (Job_RequestHash j)) ||
     (Job_CancelGeneration j <? 0) || IsZero (Job_CreatedAt j) || IsZero (Job_UpdatedAt j) ||
     Before (Job_UpdatedAt j) (Job_CreatedAt j) ||
     ((Job_CancelGeneration j =? 0) && bool_decide (Job_CancelRequestedAt j <> None)) ||
     ((0 <? Job_CancelGeneration j) &&
      match Job_CancelRequestedAt j with None => true | Some t => IsZero t end)
  then false
  else if negb (option_forallb JobResult_Valid (Job_Result j)) then false
  else bool_decide (Job_Status j <> Succeeded) || bool_decide (Job_Result j <> None).

Definition GraphActivationRequest_Valid (r : GraphActivationRequest) : bool :=
  ID_Valid (Activation_ProjectID r) && ID_Valid (Activation_RevisionID r) &&
  validHash (Activation_ConfigHash r) && ID_Valid (Activation_IntentID r).
Definition GraphSnapshot_Valid (s : GraphSnapshot) : bool :=
  ID_Valid (Snapshot_ProjectID s) && ID_Valid (Snapshot_RevisionID s) && validHash (Snapshot_ConfigHash s).
Definition GraphReadRequest_Valid (r : GraphReadRequest) : bool :=
  ID_Valid (Read_ProjectID r) && ID_Valid (Read_RevisionID r) && validHash (Read_ConfigHash r).
Definition GraphRestoreRequest_Valid (r : GraphRestoreRequest) : bool :=
  ID_Valid (Restore_ProjectID r) && bool_decide (TrimSpace (Restore_PreviousGraphIdentity r) <> ""%string) &&
  ID_Valid (Restore_IntentID r).

Definition JobRequest_Valid (r : JobRequest) : bool :=
  ID_Valid (JobRequest_ProjectID r) && ID_Valid (JobRequest_RevisionID r) && validHash (JobRequest_InputHash r) &&
  validIdempotencyKey (JobRequest_IdempotencyKey r) && validHash (JobRequest_RequestHash r).

Definition Intent_Valid (i : Intent) : bool :=
  ID_Valid (Intent_ID i) && ID_Valid (Intent_JobID i) && ID_Valid (Intent_CandidateRevisionID i) &&
  ID_Valid (Intent_PolicyID i) && (0 <? string_len (GateManifest i)) && validHash (GateManifestHash i) &&
  BackupEvidence_Valid (Backup i) && validHash (Intent_RequestHash i) &&
  validIdempotencyKey (Intent_IdempotencyKey i) && ValidString (Intent_Notes i) &&
  (RuneCount (Intent_Notes i) <=? 10000) &&
  match Intent_Override i with
  | None => true
  | Some o => ID_Valid (GateResultID o) && Override_Confirmed o && bool_decide (TrimSpace (Reason o) <> ""%string)
  end &&
  IntentPhase_Valid (Intent_Phase i) && negb (IsZero (Intent_CreatedAt i)) &&
  negb (IsZero (Intent_UpdatedAt i)) && negb (Before (Intent_UpdatedAt i) (Intent_CreatedAt i)).

Definition Release_Valid (r : Release) : bool :=
  ID_Valid (Release_ID r) && ID_Valid (Release_RevisionID r) && ID_Valid (Release_PolicyID r) &&
  ID_Valid (Release_IntentID r) && negb (IsZero (Release_CreatedAt r)).
Definition ActivePointer_Valid (p : ActivePointer) : bool :=
  (0 <=? Generation p) && (bool_decide (Pointer_ReleaseID p = ""%string) || ID_Valid (Pointer_ReleaseID p)).

(** ** job_adapter.go *)
Definition SharedJobKind : string := "release".

Definition SharedRecord (j : ReleaseJob) : result JobRecord string :=
  let record := Job.mkRecord (Job_ID j)
    (mkRequest (Job_ProjectID j) SharedJobKind (Job_RevisionID j) (Job_InputHash j) (Job_IdempotencyKey j)
       (Job_RequestHash j))
    (Job_Status j) (Job_Result j) (Job_CancelGeneration j) (Job_CancelRequestedAt j) (Job_CreatedAt j)
    (Job_UpdatedAt j) in
  if negb (Job.Record_Valid record) then Err "invalid release job for shared adapter"%string else Ok record.

Definition JobFromSharedRecord (record : JobRecord) : result ReleaseJob string :=
  let request := Record_Request record in
  if negb (Job.Record_Valid record) || negb (bool_decide (Kind request = SharedJobKind)) ||
     negb (ID_Valid (RevisionID request))
  then Err "invalid shared release job"%string
  else
    let job := mkJob (Record_ID record) (ProjectID request) (RevisionID request) (InputHash request)
      (IdempotencyKey request) (Record_Status record) (RequestHash request) (Record_Result record)
      (CancelGeneration record) (CancelRequestedAt record) (CreatedAt record) (UpdatedAt record) in
    if negb (Job_Valid job) then Err "invalid adapted release job"%string else Ok job.
End validity.

(** ** The two spellings of a content hash

    The shared record trims hexadecimal bytes, the release package ranges over
    the runes: the same strings pass. *)
Lemma existsb_byte_of a set : existsb (Z.eqb (byte_of a)) (bytes set) = mem_char a set.
Proof.
  induction set as [|c set IH]; simpl; [done|]. rewrite IH. case_decide as Hd.
  - subst. by rewrite Z.eqb_refl.
  - destruct (Z.eqb_spec (byte_of a) (byte_of c)) as [He|]; [|done].
    exfalso. apply Hd. rewrite <- (char_of_byte_of a), <- (char_of_byte_of c). by f_equal.
Qed.

Lemma hex_below r : existsb (Z.eqb r) (bytes hex_digits) = true -> r < 128.
Proof. intros (c & Hin & Heq)%existsb_exists. apply Z.eqb_eq in Heq as ->. simpl in Hin. naive_solver lia. Qed.

Lemma decode_rune_hex a s : mem_char a hex_digits = true -> decode_rune (String a s) = (byte_of a, 1%nat).
Proof. rewrite <- existsb_byte_of. intros Ha%hex_below. by apply decode_rune_first. Qed.

Lemma runes_hex n s :
  (String.length s <= n)%nat ->
  forallb (fun '(r, _) => existsb (Z.eqb r) (bytes hex_digits)) (runes_fuel n s) =
  all_chars (fun a => mem_char a hex_digits) s.
Proof.
  revert s. induction n as [|n IH]; intros [|a s] Hn; simpl in Hn; try done; [lia|].
  cbn [runes_fuel all_chars]. destruct (mem_char a hex_digits) eqn:Ha.
  - rewrite (decode_rune_hex a s Ha). cbn [forallb string_drop]. rewrite existsb_byte_of, Ha. simpl. apply IH. lia.
  - destruct (decode_rune (String a s)) as [r w] eqn:Hd. cbn [forallb].
    destruct (existsb _ (bytes hex_digits)) eqn:He; [|done].
    destruct (decode_rune_ascii _ _ _ Hd (hex_below _ He)) as (a' & s' & [= <- <-] & -> & _).
    rewrite existsb_byte_of in He. congruence.
Qed.

Lemma validHash_shared v : validHash v = Job.validHash v.
Proof.
  unfold VersionGate.validHash, Job.validHash, runes. rewrite runes_hex by done.
  destruct (hash_shape v) eqn:Hs.
  - apply hash_shape_spec in Hs as [Hl Ha]. rewrite Ha. unfold string_len. rewrite Hl. done.
  - apply not_true_is_false. intros [Hl Ha]%andb_prop. apply Z.eqb_eq in Hl. unfold string_len in Hl.
    assert (hash_shape v = true); [|congruence]. apply hash_shape_spec. split; [lia|done].
Qed.

(** ** The adapter between the release view and the shared record *)
Section adapter.
Context `{UuidLib}.

Definition shared_of (j : ReleaseJob) : JobRecord :=
  Job.mkRecord (Job_ID j)
    (mkRequest (Job_ProjectID j) SharedJobKind (Job_RevisionID j) (Job_InputHash j) (Job_IdempotencyKey j)
       (Job_RequestHash j))
    (Job_Status j) (Job_Result j) (Job_CancelGeneration j) (Job_CancelRequestedAt j) (Job_CreatedAt j)
    (Job_UpdatedAt j).

(** A job is valid exactly when its shared record is, with a revision. *)
Lemma Job_Valid_shared j :
  Job_Valid j = Job.Record_Valid (shared_of j) && ID_Valid (Job_RevisionID j).
Proof.
  unfold Job_Valid, Job.Record_Valid, Request_Valid, shared_of. cbn -[Z.leb Z.ltb Z.eqb].
  rewrite !validHash_shared. change validIdempotencyKey with Job.validKey.
  change JobStatus_Valid with Job.Status_Valid. change JobResult_Valid with Job.Result_Valid.
  replace (Kind_Valid SharedJobKind) with true by (vm_compute; reflexivity).
  destruct (ID_Valid (Job_ID j)), (ID_Valid (Job_ProjectID j)); simpl; try done.
  destruct (ID_Valid (Job_RevisionID j)); [|by rewrite andb_false_r].
  rewrite orb_true_r, andb_true_r.
  destruct (Job.validHash (Job_InputHash j)), (Job.validKey (Job_IdempotencyKey j)),
    (Job.validHash (Job_RequestHash j)), (Status_Valid (Job_Status j)); simpl; try done.
  rewrite Z.ltb_antisym.
  destruct (0 <=? Job_CancelGeneration j) eqn:Hg; [|done]; simpl.
  destruct (IsZero (Job_CreatedAt j)), (IsZero (Job_UpdatedAt j)), (Before _ _); simpl; try done.
  apply Z.leb_le in Hg.
  destruct (option_forallb _ _); simpl; [|by case_guard].
  rewrite negb_andb. rewrite <- !bool_decide_not.
  destruct (Z.eqb_spec (Job_CancelGeneration j) 0) as [E|E], (Z.ltb_spec 0 (Job_CancelGeneration j)); try lia;
    destruct (Job_CancelRequestedAt j) as [t|]; try destruct (IsZero t); simpl; try done;
    by rewrite ?andb_true_r, ?andb_false_r.
Qed.

Lemma SharedRecord_valid j : Job_Valid j = true -> SharedRecord j = Ok (shared_of j).
Proof.
  intros Hv. unfold SharedRecord. fold (shared_of j). rewrite Job_Valid_shared in Hv. bool_to_prop.
  by match goal with H : Job.Record_Valid _ = true |- _ => rewrite H end.
Qed.

Lemma JobFromSharedRecord_inv record j :
  JobFromSharedRecord record = Ok j ->
  record = shared_of j /\ Job.Record_Valid record = true /\ ID_Valid (Job_RevisionID j) = true.
Proof.
  unfold JobFromSharedRecord. case_guard as Hg; [done|]. case_guard as Hj; [done|]. intros [= <-].
  bool_to_prop. destruct record as [id [p k rev ih key rh] st res g ra ca ua]. cbn in *. subst k. done.
Qed.

Lemma JobFromSharedRecord_shared j : Job_Valid j = true -> JobFromSharedRecord (shared_of j) = Ok j.
Proof.
  intros Hv. pose proof Hv as Hs. rewrite Job_Valid_shared in Hs. apply andb_prop in Hs as [Hr Hid].
  unfold JobFromSharedRecord. rewrite Hr. cbn. rewrite Hid. cbn.
  destruct j as [? ? ? ? ? ? ? ? ? ? ? ?]. cbn in *. by rewrite Hv.
Qed.

(** every valid release job survives the round trip through the shared
    record unchanged, and a shared record the adapter accepts is rebuilt exactly
    from the release job it became. *)
Theorem job_adapter_roundtrip j record :
  (Job_Valid j = true ->
   exists shared, SharedRecord j = Ok shared /\ JobFromSharedRecord shared = Ok j) /\
  (JobFromSharedRecord record = Ok j -> SharedRecord j = Ok record).
Proof.
  split.
  - intros Hv. exists (shared_of j). split; [by apply SharedRecord_valid|by apply JobFromSharedRecord_shared].
  - intros Hj. apply JobFromSharedRecord_inv in Hj as (-> & Hr & Hid).
    unfold SharedRecord. fold (shared_of j). by rewrite Hr.
Qed.
End adapter.

Module AdapterExamples.
Local Existing Instance canonical_uuid.
Definition uuid (n : string) : ID := ("00000000-0000-7000-8000-0000000000" +:+ n)%string.
Definition zeros : string := "0000000000000000000000000000000000000000000000000000000000000000".
Definition finished : ReleaseJob :=
  mkJob (uuid "01") (uuid "02") (uuid "03") zeros "key" Succeeded zeros (Some (Job.mkResult "release" (uuid "04") "/api/v1/releases/x"))
    0 None 5 9.
Lemma job_adapter_roundtrip_witness :
  exists shared, SharedRecord finished = Ok shared /\ JobFromSharedRecord shared = Ok finished.
Proof.
  assert (Job_Valid finished = true) as Hv by (vm_compute; reflexivity).
  exact (proj1 (job_adapter_roundtrip finished (shared_of finished)) Hv).
Defined.
End AdapterExamples.
