(* ===== verification/ReleaseStore.v ===== *)
(** * internal/storage/sqlite: release_intents.go, release_commit.go, release_jobs.go,
    release_read.go, release_events.go

    The rows of [release_intents], [releases] and the singleton
    [active_release_pointer], beside the job table of [JobStore].  As there, an
    operation that holds [s.writes] is one step whose clock reading and fresh
    identifier are inputs, driver errors are left out and the constraints of the
    schema (primary and foreign keys, unique indexes, checks) are kept.  The JSON
    columns hold the values they encode, a [NULL] identifier is [""]. *)
From S2P Require Import Prelude GoSort GoStrings GoCrypto Domain Job JobStore ReleaseTypes.
Open Scope Z_scope.

Inductive ReleaseError :=
  | ErrReleaseIntentInvalid | ErrReleaseIntentNotFound | ErrReleaseIntentTransition
  | ErrReleaseCommitConflict | ErrReleaseJobInvalid | ErrIdempotencyConflict | ErrReleaseJobProjectScope
  | ErrReleaseJobNotFound | ErrReleaseJobTransition | ErrReleaseJobEventConflict | ErrReleaseNotFound
  | ErrActivePointer (* invalid active release pointer *)
  | ErrReleaseConstraint (* rejected by a constraint of the schema *)
  | ErrNewID (* domain.NewID *)
  | ErrShared (e : JobError)
  | ErrAdapter (e : string).

(** A row of [releases]. *)
Record ReleaseRow := mkReleaseRow {
  Row_Release : Release; Row_BaselineReleaseID : ID; Row_Notes : string; Row_GateEvidence : string;
  Row_Confirmations : list Confirmation; Row_Override : option OverrideAudit
}.

Record ReleaseStore := mkReleaseStore {
  shared : Store; policies : gset ID; intents : gmap ID Intent; releases : gmap ID ReleaseRow;
  pointer : ActivePointer
}.

Definition set_shared (st : ReleaseStore) (s : Store) : ReleaseStore :=
  mkReleaseStore s (policies st) (intents st) (releases st) (pointer st).
Definition set_intents (st : ReleaseStore) (m : gmap ID Intent) : ReleaseStore :=
  mkReleaseStore (shared st) (policies st) m (releases st) (pointer st).

Definition with_phase (i : Intent) (next : IntentPhase) (external details : string) (now : Time) : Intent :=
  mkIntent (Intent_ID i) (Intent_JobID i) (Intent_CandidateRevisionID i) (Intent_BaselineReleaseID i)
    (Intent_PolicyID i) (GateManifest i) (GateManifestHash i) (Intent_Confirmations i) (Backup i)
    (PreviousGraphIdentity i) (PreviousReleaseID i) (Intent_RequestHash i) (Intent_IdempotencyKey i)
    (Intent_Notes i) (Intent_Override i) external next details (Intent_CreatedAt i) now.

(** A foreign key that may be [NULL]. *)
Definition references {V : Type} (m : gmap ID V) (id : ID) : Prop := id = ""%string \/ is_Some (m !! id).
#[global] Instance references_dec {V : Type} (m : gmap ID V) id : Decision (references m id).
Proof. unfold references. apply _. Defined.

(** [generation + 1] on a Go [int64]. *)
Definition next_generation (g : Z) : Z := if g =? 2 ^ 63 - 1 then - 2 ^ 63 else g + 1.

Section operations.
Context `{UuidLib}.

(** ** release_intents.go *)
Definition scanReleaseIntent (row : Intent) : result Intent ReleaseError :=
  if negb (Intent_Valid row) || negb (bool_decide (sha256_hex (GateManifest row) = GateManifestHash row))
  then Err ErrReleaseIntentInvalid else Ok row.

(** [WHERE job_id=?] *)
Definition intent_of_job (st : ReleaseStore) (job : ID) : option Intent :=
  head (filter (fun i => Intent_JobID i = job) (map_to_list (intents st)).*2).

(** The constraints on a new row of [release_intents]. *)
Definition intent_constraints (st : ReleaseStore) (i : Intent) : Prop :=
  intents st !! Intent_ID i = None /\ intent_of_job st (Intent_JobID i) = None /\
  is_Some (jobs (shared st) !! Intent_JobID i) /\
  Intent_CandidateRevisionID i ∈ config_revisions (shared st) /\
  references (releases st) (Intent_BaselineReleaseID i) /\ Intent_PolicyID i ∈ policies st /\
  references (releases st) (PreviousReleaseID i).
#[global] Instance intent_constraints_dec st i : Decision (intent_constraints st i).
Proof. unfold intent_constraints. apply _. Defined.

Definition CreateIntent (st : ReleaseStore) (intent : Intent) : result (Intent * bool) ReleaseError * ReleaseStore :=
  if negb (Intent_Valid intent) || negb (bool_decide (sha256_hex (GateManifest intent) = GateManifestHash intent)) ||
     negb (bool_decide (Intent_Phase intent = IntentRecorded))
  then (Err ErrReleaseIntentInvalid, st)
  else match intent_of_job st (Intent_JobID intent) with
  | Some row =>
      (match scanReleaseIntent row with Ok existing => Ok (existing, true) | Err e => Err e end, st)
  | None =>
      if decide (intent_constraints st intent)
      then (Ok (intent, false), set_intents st (<[Intent_ID intent := intent]> (intents st)))
      else (Err ErrReleaseConstraint, st)
  end.

Definition GetIntent (st : ReleaseStore) (id : ID) : result Intent ReleaseError :=
  if negb (ID_Valid id) then Err ErrReleaseIntentNotFound
  else match intents st !! id with None => Err ErrReleaseIntentNotFound | Some row => scanReleaseIntent row end.

(** The join with [jobs], and its filter. *)
Definition needs_recovery (st : ReleaseStore) (i : Intent) : bool :=
  match jobs (shared st) !! Intent_JobID i with
  | None => false
  | Some j =>
      negb (bool_decide (Intent_Phase i = IntentSucceeded) || bool_decide (Intent_Phase i = IntentFailed)) ||
      bool_decide (Record_Status j = Queued) || bool_decide (Record_Status j = Running) ||
      bool_decide (Record_Status j = Interrupted)
  end.

Definition ListNonterminalReleaseIntents `{TimeText} (st : ReleaseStore) : result (list Intent) ReleaseError :=
  map_result scanReleaseIntent
    (sort_by (then_by (fun i => rfc3339nano (Intent_CreatedAt i)) String.ltb (less_on Intent_ID String.ltb))
       (List.filter (needs_recovery st) (map_to_list (intents st)).*2)).

Definition TransitionIntent (st : ReleaseStore) (now : Time) (id : ID) (expected next : IntentPhase)
    (externalTaskID errorDetails : string) : result (option Intent * bool) ReleaseError * ReleaseStore :=
  if negb (ID_Valid id) || negb (IntentPhase_Valid expected) || negb (IntentPhase_Valid next)
  then (Err ErrReleaseIntentTransition, st)
  else match intents st !! id with
  | Some row =>
      if decide (Intent_Phase row = expected) then
        let st' := set_intents st (<[id := with_phase row next externalTaskID errorDetails now]> (intents st)) in
        (match GetIntent st' id with Ok intent => Ok (Some intent, true) | Err e => Err e end, st')
      else (Ok (None, false), st)
  | None => (Ok (None, false), st)
  end.

(** ** release_commit.go *)

(** [releases_intent_unique] *)
Definition intent_released (st : ReleaseStore) (intentID : ID) : bool :=
  existsb (fun row => bool_decide (Release_IntentID (Row_Release row) = intentID)) (map_to_list (releases st)).*2.

(** The constraints on a new row of [releases] and on the pointer's update. *)
Definition release_constraints (st : ReleaseStore) (r : ReleaseRow) : Prop :=
  releases st !! Release_ID (Row_Release r) = None /\
  intent_released st (Release_IntentID (Row_Release r)) = false /\
  Release_RevisionID (Row_Release r) ∈ config_revisions (shared st) /\
  Release_PolicyID (Row_Release r) ∈ policies st /\
  references (releases st) (Row_BaselineReleaseID r) /\
  0 <= next_generation (Generation (pointer st)).
#[global] Instance release_constraints_dec st r : Decision (release_constraints st r).
Proof. unfold release_constraints. apply _. Defined.

(** The row the transaction reads: intent joined with its job in this project. *)
Definition intent_with_job (st : ReleaseStore) (intentID : ID) : option (Intent * JobRecord) :=
  i ← intents st !! intentID; j ← row_of (shared st) (Intent_JobID i); Some (i, j).

Definition committable (i : Intent) (j : JobRecord) : bool :=
  (bool_decide (Intent_Phase i = IntentGraphActivated) || bool_decide (Intent_Phase i = IntentPointerCommitting)) &&
  (bool_decide (Record_Status j = Running) || bool_decide (Record_Status j = Interrupted)).

Definition release_row (id : ID) (i : Intent) (now : Time) : ReleaseRow :=
  mkReleaseRow (mkRelease id (Intent_CandidateRevisionID i) (Intent_PolicyID i) (Intent_ID i) now)
    (Intent_BaselineReleaseID i) (Intent_Notes i) (GateManifest i) (Intent_Confirmations i) (Intent_Override i).

Definition committed (st : ReleaseStore) (id : ID) (i : Intent) (now : Time) : ReleaseStore :=
  mkReleaseStore (shared st) (policies st)
    (<[Intent_ID i := with_phase i IntentSucceeded (ExternalTaskID i) (ErrorDetails i) now]> (intents st))
    (<[id := release_row id i now]> (releases st))
    (mkPointer id (next_generation (Generation (pointer st)))).

(** [newID] is what [domain.NewID] returns; a transaction that fails leaves no
    trace. *)
Definition CommitActivatedIntent (st : ReleaseStore) (now : Time) (newID : option ID) (intentID : ID)
    (expectedGeneration : Z) : result (Release * ActivePointer) ReleaseError * ReleaseStore :=
  if negb (ID_Valid intentID) || (expectedGeneration <? 0) then (Err ErrReleaseCommitConflict, st)
  else match intent_with_job st intentID with
  | None => (Err ErrReleaseCommitConflict, st)
  | Some (i, j) =>
      if negb (committable i j) then (Err ErrReleaseCommitConflict, st)
      else if negb (Generation (pointer st) =? expectedGeneration) ||
              negb (bool_decide (Pointer_ReleaseID (pointer st) = Intent_BaselineReleaseID i))
      then (Err ErrReleaseCommitConflict, st)
      else match newID with
      | None => (Err ErrNewID, st)
      | Some id =>
          if decide (release_constraints st (release_row id i now)) then
            (Ok (Row_Release (release_row id i now), mkPointer id (next_generation (Generation (pointer st)))),
             committed st id i now)
          else (Err ErrReleaseConstraint, st)
      end
  end.

(** ** release_read.go *)
Definition GetRelease (st : ReleaseStore) (releaseID : ID) : result Release ReleaseError :=
  if negb (ID_Valid releaseID) then Err ErrReleaseNotFound
  else match releases st !! releaseID with
  | None => Err ErrReleaseNotFound
  | Some row => if negb (Release_Valid (Row_Release row)) then Err ErrReleaseNotFound else Ok (Row_Release row)
  end.

Definition GetActivePointer (st : ReleaseStore) : result ActivePointer ReleaseError :=
  if negb (ActivePointer_Valid (pointer st)) then Err ErrActivePointer else Ok (pointer st).

(** ** release_jobs.go *)
Definition adapted {A : Type} (r : result A string) : result A ReleaseError :=
  match r with Ok a => Ok a | Err e => Err (ErrAdapter e) end.

Definition CreateOrGetReleaseJob (st : ReleaseStore) (newID : ID) (now : Time) (request : JobRequest) :
    result (ReleaseJob * bool) ReleaseError * ReleaseStore :=
  if negb (JobRequest_Valid request) then (Err ErrReleaseJobInvalid, st)
  else if negb (bool_decide (JobRequest_ProjectID request = projectID (shared st)))
  then (Err ErrReleaseJobProjectScope, st)
  else
    let '(r, s) := CreateOrGet (shared st) newID now
      (mkRequest (JobRequest_ProjectID request) SharedJobKind (JobRequest_RevisionID request)
         (JobRequest_InputHash request) (JobRequest_IdempotencyKey request) (JobRequest_RequestHash request)) in
    (match r with
     | Err ErrJobIdempotencyConflict => Err ErrIdempotencyConflict
     | Err e => Err (ErrShared e)
     | Ok (record, replay) => let? job := adapted (JobFromSharedRecord record) in Ok (job, replay)
     end, set_shared st s).

Definition GetReleaseJob (st : ReleaseStore) (jobID : ID) : result ReleaseJob ReleaseError :=
  if negb (ID_Valid jobID) then Err ErrReleaseJobNotFound
  else match GetJob (shared st) jobID with
  | Err ErrJobNotFound => Err ErrReleaseJobNotFound
  | Err e => Err (ErrShared e)
  | Ok record => adapted (JobFromSharedRecord record)
  end.

Definition RequestReleaseCancellation (st : ReleaseStore) (now : Time) (jobID : ID) :
    result (ReleaseJob * bool) ReleaseError * ReleaseStore :=
  let '(r, s) := RequestCancellation (shared st) now jobID in
  (match r with
   | Err ErrJobNotFound => Err ErrReleaseJobNotFound
   | Err e => Err (ErrShared e)
   | Ok (record, replay) => let? job := adapted (JobFromSharedRecord record) in Ok (job, replay)
   end, set_shared st s).

Definition HasActiveReleaseJob (st : ReleaseStore) : bool :=
  existsb (fun r => bool_decide (ProjectID (Record_Request r) = projectID (shared st)) &&
                    bool_decide (Kind (Record_Request r) = SharedJobKind) &&
                    (bool_decide (Record_Status r = Queued) || bool_decide (Record_Status r = Running)))
    (map_to_list (jobs (shared st))).*2.

Definition TransitionReleaseJob (st : ReleaseStore) (now : Time) (jobID : ID) (expected next : JobStatus)
    (res : option JobResult) : result (option ReleaseJob * bool) ReleaseError * ReleaseStore :=
  if negb (ID_Valid jobID) || negb (JobStatus_Valid expected) || negb (JobStatus_Valid next) ||
     negb (JobStatus_CanTransitionTo expected next) || negb (option_forallb JobResult_Valid res) ||
     (bool_decide (next = Succeeded) && bool_decide (res = None))
  then (Err ErrReleaseJobTransition, st)
  else match GetJob (shared st) jobID with
  | Err ErrJobNotFound => (Err ErrReleaseJobNotFound, st)
  | Err _ => (Err ErrReleaseJobTransition, st)
  | Ok current =>
      if negb (bool_decide (Kind (Record_Request current) = SharedJobKind)) then (Err ErrReleaseJobTransition, st)
      else
        let '(r, s) := Transition (shared st) now jobID expected next res (CancelGeneration current) in
        (match r with
         | Err e => Err (ErrShared e)
         | Ok (Some record, true) => let? job := adapted (JobFromSharedRecord record) in Ok (Some job, true)
         | Ok (_, swapped) => Ok (None, swapped)
         end, set_shared st s)
  end.

(** ** release_events.go: the event's fields are the shared event's *)
Definition AppendReleaseJobEvent (st : ReleaseStore) (event : Event) : result (Event * bool) ReleaseError * ReleaseStore :=
  if negb (ID_Valid (JobID event) && (0 <? Ordinal event) && bool_decide (TrimSpace (Phase event) <> ""%string) &&
           (0 <=? Progress event) && (Progress event <=? 100) && option_forallb JobResult_Valid (Event_Result event) &&
           negb (IsZero (Event_CreatedAt event)))
  then (Err ErrReleaseJobInvalid, st)
  else
    let '(r, s) := Append (shared st) event in
    (match r with
     | Err ErrJobEvent => Err ErrReleaseJobEventConflict
     | Err ErrJobNotFound => Err ErrReleaseJobNotFound
     | Err e => Err (ErrShared e)
     | Ok stored => Ok stored
     end, set_shared st s).
End operations.
