(* ===== verification/ReleaseHistory.v ===== *)
(** * Executions of the release store: the published history

    Every committed operation of [ReleaseStore], in any interleaving, and the
    invariant they keep: the releases form one chain of baselines that ends in
    the active pointer. *)
From S2P Require Import Prelude GoSort GoStrings GoCrypto Domain Job JobStore ReleaseTypes ReleaseStore.
Open Scope Z_scope.

(** [chain rels id l]: [l] lists the releases from [id] back to the first one. *)
Inductive chain (rels : gmap ID ReleaseRow) : ID -> list ID -> Prop :=
  | chain_first : chain rels "" []
  | chain_release id row l :
      rels !! id = Some row -> chain rels (Row_BaselineReleaseID row) l -> chain rels id (id :: l).

Section executions.
Context `{UuidLib}.

Inductive release_step (now : Time) (st : ReleaseStore) : ReleaseStore -> Prop :=
  | step_shared s : JobStore.step now (shared st) s -> release_step now st (set_shared st s)
  | step_create_intent intent :
      Intent_UpdatedAt intent <= now -> release_step now st (CreateIntent st intent).2
  | step_transition_intent id expected next external details :
      release_step now st (TransitionIntent st now id expected next external details).2
  | step_commit newID intentID generation :
      (forall id, newID = Some id -> ID_Valid id = true) ->
      release_step now st (CommitActivatedIntent st now newID intentID generation).2
  | step_policy id :
      release_step now st (mkReleaseStore (shared st) ({[id]} ∪ policies st) (intents st) (releases st) (pointer st)).

(** The database after the migrations. *)
Definition empty_releases (project : ID) : ReleaseStore :=
  mkReleaseStore (empty_store project) ∅ ∅ ∅ (mkPointer "" 0).

Inductive release_runs (t : Time) (st : ReleaseStore) : Time -> ReleaseStore -> Prop :=
  | release_runs_refl : release_runs t st t st
  | release_runs_step t' st' now st'' :
      release_runs t st t' st' -> t' <= now -> release_step now st' st'' -> release_runs t st now st''.

Definition release_reachable (t : Time) (st : ReleaseStore) : Prop :=
  exists project t0, 0 < t0 /\ release_runs t0 (empty_releases project) t st.

(** The operations on jobs are steps of the job table. *)
Lemma set_shared_same st : set_shared st (shared st) = st.
Proof. by destruct st. Qed.

Lemma TransitionReleaseJob_step now st id expected next res :
  (TransitionReleaseJob st now id expected next res).2 = st \/
  release_step now st (TransitionReleaseJob st now id expected next res).2.
Proof.
  unfold TransitionReleaseJob. case_guard; simpl; [auto|].
  destruct (GetJob _ _) as [current|[]]; simpl; auto.
  case_guard; simpl; auto.
  pose proof (JobStore.step_transition now (shared st) id expected next res (CancelGeneration current)) as Hs.
  destruct (Transition _ _ _ _ _ _ _) as [r s]. right. by constructor.
Qed.

Lemma RequestReleaseCancellation_step now st id :
  release_step now st (RequestReleaseCancellation st now id).2.
Proof.
  unfold RequestReleaseCancellation. pose proof (JobStore.step_cancel now (shared st) id) as Hs.
  destruct (RequestCancellation _ _ _) as [r s]. by constructor.
Qed.

Lemma CreateOrGetReleaseJob_step now st newID request :
  (CreateOrGetReleaseJob st newID now request).2 = st \/
  release_step now st (CreateOrGetReleaseJob st newID now request).2.
Proof.
  unfold CreateOrGetReleaseJob. case_guard; simpl; [auto|]. case_guard; simpl; [auto|].
  match goal with |- context [CreateOrGet ?s ?i ?n ?r] =>
    pose proof (JobStore.step_create n s i r) as Hs; destruct (CreateOrGet s i n r) as [x s'] end.
  right. by constructor.
Qed.

(** ** The invariant *)

(** The foreign keys of an intent, and what keeps them. *)
Definition refers (st : ReleaseStore) (i : Intent) : Prop :=
  is_Some (jobs (shared st) !! Intent_JobID i) /\ Intent_CandidateRevisionID i ∈ config_revisions (shared st) /\
  Intent_PolicyID i ∈ policies st /\ references (releases st) (Intent_BaselineReleaseID i).
Definition keeps_rows (st st' : ReleaseStore) : Prop :=
  (forall job, is_Some (jobs (shared st) !! job) -> is_Some (jobs (shared st') !! job)) /\
  config_revisions (shared st) ⊆ config_revisions (shared st') /\ policies st ⊆ policies st' /\
  releases st ⊆ releases st'.
Lemma keeps_rows_intents st m : keeps_rows st (set_intents st m).
Proof. by split_and!. Qed.
Lemma refers_mono st st' i : keeps_rows st st' -> refers st i -> refers st' i.
Proof.
  intros (Hj & Hc & Hp & Hr) (? & ? & ? & Hb). split_and!; [auto|set_solver..|].
  destruct Hb as [?|[row Hb]]; [by left|]. right. exists row. by eapply lookup_weaken.
Qed.
#[local] Instance keeps_rows_refl : Reflexive keeps_rows.
Proof. intros st. by split_and!. Qed.

Definition intent_ok (t : Time) (st : ReleaseStore) (id : ID) (i : Intent) : Prop :=
  Intent_ID i = id /\ scanReleaseIntent i = Ok i /\ Intent_UpdatedAt i <= t /\ refers st i.

(** A release repeats its intent. *)
Definition release_ok (st : ReleaseStore) (id : ID) (row : ReleaseRow) : Prop :=
  ID_Valid id = true /\ Release_CreatedAt (Row_Release row) <> 0 /\
  exists i, intents st !! Release_IntentID (Row_Release row) = Some i /\
    row = release_row id i (Release_CreatedAt (Row_Release row)).

(** [l] is the whole published history, newest first. *)
Definition history (st : ReleaseStore) (l : list ID) : Prop :=
  chain (releases st) (Pointer_ReleaseID (pointer st)) l /\ NoDup l /\
  (forall id, id ∈ l <-> is_Some (releases st !! id)) /\ Generation (pointer st) = Z.of_nat (length l).

Definition release_store_ok (t : Time) (st : ReleaseStore) : Prop :=
  store_ok t (shared st) /\
  map_Forall (intent_ok t st) (intents st) /\
  (forall i1 i2 id1 id2, intents st !! id1 = Some i1 -> intents st !! id2 = Some i2 ->
     Intent_JobID i1 = Intent_JobID i2 -> id1 = id2) /\
  map_Forall (release_ok st) (releases st) /\
  (forall r1 r2 id1 id2, releases st !! id1 = Some r1 -> releases st !! id2 = Some r2 ->
     Release_IntentID (Row_Release r1) = Release_IntentID (Row_Release r2) -> id1 = id2) /\
  exists l, history st l.

(** *** Chains *)
Lemma chain_insert rels id l new row :
  rels !! new = None -> chain rels id l -> chain (<[new := row]> rels) id l.
Proof.
  intros Hnew. induction 1 as [|id row' l Hid _ IH]; [constructor|].
  econstructor; [|exact IH]. rewrite lookup_insert_ne; congruence.
Qed.

Lemma chain_elem rels id l id' : chain rels id l -> id' ∈ l -> is_Some (rels !! id').
Proof. induction 1; [by intros ?%not_elem_of_nil|]. intros [->|?]%elem_of_cons; eauto. Qed.

Lemma chain_det rels id l l' :
  rels !! ""%string = None -> chain rels id l -> chain rels id l' -> l = l'.
Proof.
  intros Hempty Hl. revert l'. induction Hl as [|id row l Hid _ IH]; intros l' Hl'; inversion Hl'; subst; try congruence.
  f_equal. apply IH. congruence.
Qed.

(** *** The operations keep the invariant *)
Lemma scanReleaseIntent_Ok row i : scanReleaseIntent row = Ok i <->
  i = row /\ Intent_Valid row = true /\ sha256_hex (GateManifest row) = GateManifestHash row.
Proof.
  unfold scanReleaseIntent. case_guard as Hg.
  - split; [done|]. intros (-> & Hv & Hh). rewrite Hv in Hg. simpl in Hg. bool_to_prop. done.
  - bool_to_prop. naive_solver.
Qed.

Lemma intent_ok_mono t t' st st' id i :
  t <= t' -> keeps_rows st st' -> intent_ok t st id i -> intent_ok t' st' id i.
Proof. unfold intent_ok. intros Ht Hj (? & ? & ? & ?). split_and!; eauto using refers_mono. lia. Qed.

Lemma intent_of_job_None st job id i :
  intent_of_job st job = None -> intents st !! id = Some i -> Intent_JobID i <> job.
Proof.
  unfold intent_of_job. intros Hn Hi Hj. apply head_None in Hn.
  assert (i ∈ filter (fun i => Intent_JobID i = job) (map_to_list (intents st)).*2) as Hin; [|by rewrite Hn in Hin; inversion Hin].
  apply list_elem_of_filter. split; [done|]. apply list_elem_of_fmap. exists (id, i). split; [done|].
  by apply elem_of_map_to_list.
Qed.

Lemma intent_released_false st intentID id row :
  intent_released st intentID = false -> releases st !! id = Some row ->
  Release_IntentID (Row_Release row) <> intentID.
Proof.
  unfold intent_released. intros Hf Hr He. apply not_true_iff_false in Hf. apply Hf, existsb_exists.
  exists row. split; [|by apply bool_decide_eq_true].
  apply list_elem_of_In, list_elem_of_fmap. exists (id, row). split; [done|]. by apply elem_of_map_to_list.
Qed.

Lemma with_phase_ok t now st id i next external details :
  intent_ok t st id i -> t <= now -> 0 < now -> IntentPhase_Valid next = true ->
  intent_ok now st id (with_phase i next external details now).
Proof.
  unfold intent_ok. intros (Hid & Hs & Hu & Hj) Ht Hnow Hnext. split_and!; simpl; auto; [|lia].
  apply scanReleaseIntent_Ok in Hs as (_ & Hv & Hh). apply scanReleaseIntent_Ok. split_and!; [done| |done].
  unfold Intent_Valid in *. simpl.
  apply andb_prop in Hv as [[[[Hv _]%andb_prop Hc0]%andb_prop _]%andb_prop Hc]. apply negb_true_iff, Z.ltb_ge in Hc.
  rewrite Hv, Hnext, Hc0. simpl. unfold IsZero, Before. apply andb_true_intro; split; apply negb_true_iff.
  - apply Z.eqb_neq. lia.
  - apply Z.ltb_ge. lia.
Qed.

(** The parts of an intent that no transition changes. *)
Definition same_identity (i i' : Intent) : Prop :=
  Intent_JobID i' = Intent_JobID i /\ forall id now, release_row id i' now = release_row id i now.

Lemma with_phase_identity i next external details now : same_identity i (with_phase i next external details now).
Proof. by split. Qed.

Lemma release_ok_intents st m id row :
  (forall iid i, intents st !! iid = Some i -> exists i', m !! iid = Some i' /\ same_identity i i') ->
  release_ok st id row -> release_ok (set_intents st m) id row.
Proof.
  intros Hm (Hid & Hc & i & Hi & Hrow). destruct (Hm _ _ Hi) as (i' & Hi' & _ & Hsame).
  split_and!; [done|done|]. exists i'. split; [done|]. by rewrite Hsame.
Qed.

Lemma update_intent_ok t now st id i i' :
  release_store_ok t st -> t <= now -> intents st !! id = Some i -> intent_ok now st id i' ->
  same_identity i i' -> release_store_ok now (set_intents st (<[id := i']> (intents st))).
Proof.
  intros (Hst & Hint & Hjob & Hrel & Hone & Hhist) Ht Hi Hi' Hsame. split_and!; simpl; auto.
  - destruct Hst as (? & Hrows & Hkeys). split_and!; [lia| |done].
    intros jid r Hr. eapply row_ok_mono; [exact Ht|]. eauto.
  - apply map_Forall_insert_2; [exact Hi'|]. intros id1 i1 Hl1. eapply intent_ok_mono; [exact Ht| |exact (Hint _ _ Hl1)].
    apply keeps_rows_intents.
  - intros i1 i2 id1 id2 Hl1 Hl2 Heq. apply lookup_insert_Some in Hl1, Hl2. destruct Hsame as [Hs _].
    destruct Hl1 as [[<- <-]|[Hn1 Hl1]], Hl2 as [[<- <-]|[Hn2 Hl2]]; eauto with congruence;
      eapply Hjob; try eassumption; congruence.
  - intros rid row Hr. apply release_ok_intents; [|by apply Hrel]. intros iid i0 Hi0.
    destruct (decide (id = iid)) as [->|Hne].
    + exists i'. rewrite lookup_insert_eq. by simplify_eq.
    + exists i0. by rewrite lookup_insert_ne.
Qed.

Lemma TransitionIntent_ok t now st id expected next external details :
  release_store_ok t st -> t <= now ->
  release_store_ok now (TransitionIntent st now id expected next external details).2.
Proof.
  intros Hok Ht.
  assert (release_store_ok now st) as Hnow.
  { destruct Hok as ((? & Hrows & Hkeys) & Hint & Hjob & Hrel & Hone & Hhist). split_and!; auto.
    - split_and!; [lia| |done]. intros jid r Hr. eapply row_ok_mono; [exact Ht|]. eauto.
    - intros i0 i1 Hi0. eapply intent_ok_mono; [exact Ht|reflexivity|by apply Hint]. }
  unfold TransitionIntent. case_guard as Hg; [done|]. bool_to_prop.
  destruct (intents st !! id) as [row|] eqn:Hi; [|done].
  case_decide; [|done]. simpl.
  eapply update_intent_ok; [exact Hok|done|done| |apply with_phase_identity].
  destruct Hok as ((? & _) & Hint & _). eapply with_phase_ok; [by apply Hint|done|lia|done].
Qed.

Lemma release_store_ok_mono t now st : release_store_ok t st -> t <= now -> release_store_ok now st.
Proof.
  intros Hok Ht. pose proof (TransitionIntent_ok t now st "" (IntentUnknown "") IntentFailed "" "" Hok Ht) as Hnow.
  unfold TransitionIntent in Hnow. simpl in Hnow. by rewrite orb_true_r in Hnow.
Qed.

Lemma CreateIntent_ok t now st intent :
  release_store_ok t st -> t <= now -> Intent_UpdatedAt intent <= now ->
  release_store_ok now (CreateIntent st intent).2.
Proof.
  intros Hok Ht Hu. pose proof (release_store_ok_mono t now st Hok Ht) as Hnow.
  unfold CreateIntent. case_guard as Hg; [done|]. bool_to_prop.
  destruct (intent_of_job st (Intent_JobID intent)) as [row|] eqn:Hjob; [done|].
  case_decide as Hc; [|done]. destruct Hc as (Hfresh & _ & Hj & Hcand & Hbase & Hpol & _). simpl.
  destruct Hnow as (Hst & Hint & Huniq & Hrel & Hone & Hhist). split_and!; simpl; auto.
  - apply map_Forall_insert_2; [|intros id1 i1 Hl1; by apply Hint].
    split_and!; [done| |done|done..]. apply scanReleaseIntent_Ok. auto.
  - intros i1 i2 id1 id2 Hl1 Hl2 Heq. apply lookup_insert_Some in Hl1, Hl2.
    destruct Hl1 as [[<- <-]|[Hn1 Hl1]], Hl2 as [[<- <-]|[Hn2 Hl2]]; auto.
    + by destruct (intent_of_job_None _ _ _ _ Hjob Hl2).
    + by destruct (intent_of_job_None _ _ _ _ Hjob Hl1).
    + eauto.
  - intros rid row Hr. apply release_ok_intents; [|by apply Hrel]. intros iid i0 Hi0.
    exists i0. rewrite lookup_insert_ne by congruence. by split.
Qed.

(** The new release extends the history. *)
Lemma history_release st l id row :
  history st l -> releases st !! id = None -> 0 <= next_generation (Generation (pointer st)) ->
  Row_BaselineReleaseID row = Pointer_ReleaseID (pointer st) ->
  history (mkReleaseStore (shared st) (policies st) (intents st) (<[id := row]> (releases st))
             (mkPointer id (next_generation (Generation (pointer st))))) (id :: l).
Proof.
  intros (Hchain & Hnd & Hall & Hgen) Hfresh Hg Hb. unfold history; cbn -[next_generation].
  unfold next_generation in *. split_and!.
  - econstructor; [apply lookup_insert_eq|]. rewrite Hb. by apply chain_insert.
  - apply NoDup_cons. split; [|done]. rewrite Hall, Hfresh. by intros [? ?].
  - intros id'. rewrite elem_of_cons, Hall, lookup_insert_is_Some. split.
    + destruct (decide (id = id')); naive_solver.
    + intros [->|[_ ?]]; auto.
  - destruct (_ =? _); simpl in *; lia.
Qed.

Lemma CommitActivatedIntent_ok t now st newID intentID generation :
  release_store_ok t st -> t <= now -> (forall id, newID = Some id -> ID_Valid id = true) ->
  release_store_ok now (CommitActivatedIntent st now newID intentID generation).2.
Proof.
  intros Hok Ht Hnew. pose proof (release_store_ok_mono t now st Hok Ht) as Hnow.
  unfold CommitActivatedIntent. case_guard as Hg; [done|]. bool_to_prop.
  unfold intent_with_job. destruct (intents st !! intentID) as [i|] eqn:Hi; [simpl|done].
  destruct (row_of _ _) as [j|] eqn:Hj; [simpl|done].
  case_guard; [done|]. case_guard as Hp; [done|]. bool_to_prop. destruct newID as [id|]; [|done].
  case_decide as Hc; [|exact Hnow]. destruct Hc as (Hfresh & Hunreleased & _ & _ & _ & Hgen).
  cbn -[next_generation release_row] in *.
  assert (Intent_ID i = intentID) as Hii by (destruct Hok as (_ & Hint & _); by apply (Hint _ _ Hi)).
  assert (0 < now) as Hpos by (destruct Hnow as ((? & _) & _); done).
  set (i' := with_phase i IntentSucceeded (ExternalTaskID i) (ErrorDetails i) now).
  assert (release_store_ok now (set_intents st (<[intentID := i']> (intents st)))) as Hok'.
  { eapply update_intent_ok; [exact Hok|done|exact Hi| |apply with_phase_identity].
    destruct Hok as (_ & Hint & _). eapply with_phase_ok; [by apply Hint|done..]. }
  destruct Hok' as (Hst & Hint & Huniq & Hrel & Hone & l & Hhist). unfold committed. rewrite Hii.
  split_and!; simpl; auto.
  - intros iid i0 Hi0. eapply intent_ok_mono; [reflexivity| |by apply Hint].
    split_and!; simpl; auto. by apply insert_subseteq.
  - intros rid row [[<- <-]|[Hne Hr]]%lookup_insert_Some.
    + split_and!; [by apply Hnew|simpl; lia|]. exists i'. simpl. rewrite Hii, lookup_insert_eq. by split.
    + destruct (Hrel _ _ Hr) as (? & ? & Hi1). by split_and!.
  - assert (forall rid r, releases st !! rid = Some r -> Release_IntentID (Row_Release r) <> intentID) as Hno.
    { intros rid r Hr. eapply intent_released_false; [|exact Hr]. by rewrite <- Hii. }
    intros r1 r2 id1 id2 Hl1 Hl2 Heq. apply lookup_insert_Some in Hl1, Hl2.
    destruct Hl1 as [[<- <-]|[Hn1 Hl1]], Hl2 as [[<- <-]|[Hn2 Hl2]]; auto.
    + destruct (Hno _ _ Hl2). simpl in Heq. congruence.
    + destruct (Hno _ _ Hl1). simpl in Heq. congruence.
    + eapply Hone; [exact Hl1|exact Hl2|done].
  - exists (id :: l).
    apply (history_release (set_intents st (<[intentID := i']> (intents st))) l id (release_row id i now)); auto.
Qed.

Lemma release_step_ok t now st st' :
  release_store_ok t st -> t <= now -> release_step now st st' -> release_store_ok now st'.
Proof.
  intros Hok Ht Hs. pose proof (release_store_ok_mono t now st Hok Ht) as Hnow.
  destruct Hs; eauto using CreateIntent_ok, TransitionIntent_ok, CommitActivatedIntent_ok.
  - destruct Hok as (Hst & _). destruct Hnow as (_ & Hint & Hrest).
    split_and!; [by eapply store_ok_step| |apply Hrest..].
    intros id i Hi. eapply intent_ok_mono; [reflexivity| |by apply Hint].
    split_and!; simpl; [|by eapply step_revisions|done..].
    intros job [r Hr]. apply step_jobs_change in H0.
    destruct (jobs_change_row_le _ _ _ _ _ H0 Hr) as (r' & ? & _). by exists r'.
  - destruct Hnow as (Hst & Hint & Hrest). split_and!; [done| |apply Hrest..].
    intros id' i Hi. eapply intent_ok_mono; [reflexivity| |by apply Hint]. split_and!; simpl; auto. set_solver.
Qed.

Lemma release_runs_ok t st t' st' : release_store_ok t st -> release_runs t st t' st' -> release_store_ok t' st'.
Proof. induction 2; eauto using release_step_ok. Qed.

Lemma release_reachable_ok t st : release_reachable t st -> release_store_ok t st.
Proof.
  intros (project & t0 & Ht0 & Hr). eapply release_runs_ok; [|exact Hr].
  split_and!; simpl; [done|..|exists []]; try (intros *; by rewrite lookup_empty);
    [apply map_Forall_empty..|].
  split_and!; simpl; [constructor|constructor| |done].
  intros id. rewrite lookup_empty. split; [by intros ?%not_elem_of_nil|by intros [? ?]].
Qed.

(** *** Published releases stay *)
Definition extends (st st' : ReleaseStore) : Prop :=
  releases st ⊆ releases st' /\ forall l, history st l -> exists l', history st' (l' ++ l).

#[local] Instance extends_preorder : PreOrder extends.
Proof.
  split.
  - intros st. split; [done|]. intros l Hl. by exists [].
  - intros st1 st2 st3 [Hs1 Hh1] [Hs2 Hh2]. split; [by etrans|]. intros l [l1 Hl1]%Hh1.
    destruct (Hh2 _ Hl1) as [l2 Hl2]. exists (l2 ++ l1). by rewrite <- app_assoc.
Qed.

Lemma release_step_extends now st st' : release_step now st st' -> extends st st'.
Proof.
  assert (forall s p m, extends st (mkReleaseStore s p m (releases st) (pointer st))) as Hsame.
  { intros s p m. split; [done|]. intros l Hl. by exists []. }
  destruct 1 as [s _|intent _|id expected next external details|newID intentID generation _|id]; try apply Hsame.
  - unfold CreateIntent. case_guard; [reflexivity|]. destruct (intent_of_job _ _); [reflexivity|].
    case_goal; [apply Hsame|reflexivity].
  - unfold TransitionIntent. case_guard; [reflexivity|]. destruct (intents st !! id); [|reflexivity].
    case_goal; [apply Hsame|reflexivity].
  - unfold CommitActivatedIntent. case_guard; [reflexivity|].
    destruct (intent_with_job st intentID) as [[i j]|]; [|reflexivity].
    case_guard; [reflexivity|]. case_guard; [reflexivity|]. bool_to_prop. destruct newID as [id|]; [|reflexivity].
    case_goal as [Hc|]; [|reflexivity]. destruct Hc as (Hfresh & _ & _ & _ & _ & Hgen). split; simpl.
    + by apply insert_subseteq.
    + intros l Hl. exists [id]. by apply (history_release st l id (release_row id i now)).
Qed.

Lemma release_runs_extends t st t' st' : release_runs t st t' st' -> extends st st'.
Proof. induction 1; [reflexivity|]. etrans; [done|]. by eapply release_step_extends. Qed.

Lemma commit_Ok st now newID intentID generation release p :
  (CommitActivatedIntent st now newID intentID generation).1 = Ok (release, p) ->
  exists i j id, intent_with_job st intentID = Some (i, j) /\ newID = Some id /\ committable i j = true /\
    Generation (pointer st) = generation /\ Pointer_ReleaseID (pointer st) = Intent_BaselineReleaseID i /\
    release_constraints st (release_row id i now) /\
    release = Row_Release (release_row id i now) /\ p = mkPointer id (next_generation generation) /\
    (CommitActivatedIntent st now newID intentID generation).2 = committed st id i now.
Proof.
  unfold CommitActivatedIntent. case_guard; [done|].
  destruct (intent_with_job st intentID) as [[i j]|]; [|done].
  case_guard as Hc; [done|]. case_guard as Hp; [done|]. bool_to_prop. destruct newID as [id|]; [|done].
  case_goal; [|done]. simpl. intros [= <- <-]. exists i, j, id. subst generation. by split_and!.
Qed.

Lemma commit_Err st now newID intentID generation e :
  (CommitActivatedIntent st now newID intentID generation).1 = Err e ->
  (CommitActivatedIntent st now newID intentID generation).2 = st.
Proof.
  unfold CommitActivatedIntent. case_guard; [done|]. destruct (intent_with_job st intentID) as [[i j]|]; [|done].
  case_guard; [done|]. case_guard; [done|]. bool_to_prop. destruct newID; [|done]. by case_goal.
Qed.

(** An intent whose baseline is the active release has not been released. *)
Lemma chain_split rels id l rid row :
  chain rels id l -> rid ∈ l -> rels !! rid = Some row ->
  exists l1 l2, l = l1 ++ rid :: l2 /\ chain rels (Row_BaselineReleaseID row) l2.
Proof.
  induction 1 as [|id row' l Hid Hl IH]; [by intros ?%not_elem_of_nil|].
  intros Hin Hrow. destruct (decide (rid = id)) as [->|Hne].
  - exists [], l. split; [done|]. congruence.
  - apply elem_of_cons in Hin as [?|Hin]; [done|]. destruct (IH Hin Hrow) as (l1 & l2 & -> & Hc).
    by exists (id :: l1), l2.
Qed.

Lemma baseline_unreleased `{!UuidLaws} t st iid i :
  release_store_ok t st -> intents st !! iid = Some i -> Pointer_ReleaseID (pointer st) = Intent_BaselineReleaseID i ->
  intent_released st iid = false.
Proof.
  intros (_ & _ & _ & Hrel & _ & l & Hchain & _ & Hall & _) Hi Hp.
  apply not_true_is_false. intros (row & Hin & He)%existsb_exists. apply bool_decide_eq_true in He.
  apply list_elem_of_In, list_elem_of_fmap in Hin as ([rid row'] & -> & Hrow). apply elem_of_map_to_list in Hrow. simpl in *.
  destruct (Hrel _ _ Hrow) as (_ & _ & i' & Hi' & Heq). rewrite He, Hi in Hi'. injection Hi' as <-.
  assert (releases st !! ""%string = None) as Hempty.
  { apply eq_None_not_Some. intros [r Hr]. destruct (Hrel _ _ Hr) as [Hv _].
    unfold ID_Valid in Hv. by rewrite uuid_v7_empty in Hv. }
  destruct (chain_split _ _ _ rid row' Hchain) as (l1 & l2 & Hl & Hc); [apply Hall; eauto|done|].
  rewrite Heq in Hc. simpl in Hc. rewrite <- Hp in Hc.
  assert (l = l2) as E by by eapply chain_det. apply (f_equal length) in E. rewrite Hl in E.
  rewrite length_app in E. simpl in E. lia.
Qed.
End executions.

Section properties.
Context `{UuidLib}.

(** C6: whatever the interleaving of operations, the published releases form
    one chain without forks: starting at the active pointer, the recorded
    baselines visit every release exactly once, the pointer's generation is
    their number, and a later state only puts new releases in front. *)
Theorem published_history_is_linear t st t' st' :
  release_reachable t st -> release_runs t st t' st' ->
  exists l l', history st l /\ history st' (l' ++ l) /\
    forall id row, releases st !! id = Some row -> releases st' !! id = Some row.
Proof.
  intros Hr Hruns. apply release_reachable_ok in Hr as (_ & _ & _ & _ & _ & l & Hl).
  apply release_runs_extends in Hruns as [Hsub Hext]. destruct (Hext l Hl) as [l' Hl'].
  exists l, l'. split_and!; [done..|]. intros id row Hrow. by eapply lookup_weaken.
Qed.

(** an intent is released at most once: after a successful commit every
    later commit of the same intent is refused and changes nothing, even when
    its phase was moved back in between. *)
Theorem commit_at_most_once t st now newID intentID generation release p t' st' now' newID' generation' :
  release_reachable t st -> t <= now -> (forall id, newID = Some id -> ID_Valid id = true) ->
  (CommitActivatedIntent st now newID intentID generation).1 = Ok (release, p) ->
  release_runs now (CommitActivatedIntent st now newID intentID generation).2 t' st' ->
  exists e, CommitActivatedIntent st' now' newID' intentID generation' = (Err e, st').
Proof.
  intros Hr Ht Hnew Hok Hruns. apply release_reachable_ok in Hr.
  destruct (commit_Ok _ _ _ _ _ _ _ Hok) as (i & j & id & Hij & _ & _ & _ & _ & _ & _ & _ & Hst). rewrite Hst in Hruns.
  unfold intent_with_job in Hij. destruct (intents st !! intentID) as [i0|] eqn:Hi; [|done].
  assert (Intent_ID i = intentID) as Hid.
  { destruct Hr as (_ & Hint & _). simpl in Hij. destruct (row_of _ _); simplify_eq/=. by apply (Hint _ _ Hi). }
  assert (map_Forall (intent_ok t' st') (intents st')) as Hok''.
  { eapply release_runs_ok; [|exact Hruns]. rewrite <- Hst. by eapply CommitActivatedIntent_ok. }
  apply release_runs_extends in Hruns as [Hsub _].
  assert (releases st' !! id = Some (release_row id i now)) as Hrow.
  { eapply lookup_weaken; [|exact Hsub]. apply lookup_insert_eq. }
  destruct (CommitActivatedIntent st' now' newID' intentID generation') as [[[r' p']|e] st''] eqn:Hc.
  - assert ((CommitActivatedIntent st' now' newID' intentID generation').1 = Ok (r', p')) as Hok' by by rewrite Hc.
    destruct (commit_Ok _ _ _ _ _ _ _ Hok') as (i' & j' & id' & Hij' & _ & _ & _ & _ & (_ & Hfree & _) & _).
    destruct (intent_released_false _ _ _ _ Hfree Hrow). simpl.
    unfold intent_with_job in Hij'. destruct (intents st' !! intentID) as [i1|] eqn:Hi1; [|done].
    simpl in Hij'. destruct (row_of _ _); simplify_eq/=. by destruct (Hok'' _ _ Hi1).
  - exists e. f_equal. replace st'' with (CommitActivatedIntent st' now' newID' intentID generation').2 by by rewrite Hc.
    assert ((CommitActivatedIntent st' now' newID' intentID generation').1 = Err e) as He by by rewrite Hc.
    clear Hc. by apply (commit_Err _ _ _ _ _ _ He).
Qed.
End properties.
