(* ===== verification/ValidationTypes.v ===== *)
(** * internal/validation: issues, runs, result hashes and the gate

    types.go, catalog.go, report.go, gate.go.  A [map[string]string] is a
    [gmap]; [cloneMap] copies it, so it is the identity on values.  Error texts
    leave out the values Go interpolates. *)
From Stdlib Require Import Ascii.
From S2P Require Import Prelude GoSort GoStrings GoCrypto Domain.
Open Scope Z_scope.

(** ** types.go *)
Inductive Scope := ScopeBase | ScopeLocal | ScopeFull | ScopeUnknown (spelling : string).
#[global] Instance Scope_eq_dec : EqDecision Scope.
Proof. solve_decision. Defined.
Definition Scope_Valid (s : Scope) : bool := match s with ScopeUnknown _ => false | _ => true end.
Definition Scope_text (s : Scope) : string :=
  match s with ScopeBase => "BASE" | ScopeLocal => "LOCAL" | ScopeFull => "FULL" | ScopeUnknown t => t end%string.

Inductive SourceKind := SourceWorking | SourceRevision | SourceUnknown (spelling : string).
#[global] Instance SourceKind_eq_dec : EqDecision SourceKind.
Proof. solve_decision. Defined.
Definition SourceKind_text (k : SourceKind) : string :=
  match k with SourceWorking => "working" | SourceRevision => "revision" | SourceUnknown t => t end%string.

Record Source := mkSource { Source_Kind : SourceKind; Source_RevisionID : ID; Source_InputHash : string }.
Definition NewSource `{UuidLib} (kind : SourceKind) (revisionID : ID) (inputHash : string) : result Source string :=
  match kind with
  | SourceUnknown _ => Err "invalid source type"
  | _ =>
      if bool_decide (kind = SourceRevision) && negb (ID_Valid revisionID)
      then Err "revision source requires UUIDv7 revision id"
      else if bool_decide (kind = SourceWorking) && bool_decide (revisionID <> ""%string)
      then Err "working source cannot carry revision id"
      else if negb (string_len inputHash =? 64)%Z then Err "source requires SHA-256 input hash"
      else Ok (mkSource kind revisionID inputHash)
  end%string.

(** [VersionManifest] of this package. *)
Record ValidationVersions := mkVersions { Schema : string; DSL : string; Versions_Registry : string; NumericPolicy : string }.
#[global] Instance ValidationVersions_eq_dec : EqDecision ValidationVersions.
Proof. solve_decision. Defined.
Definition ValidationVersions_Valid (m : ValidationVersions) : bool :=
  bool_decide (Schema m <> ""%string) && bool_decide (DSL m <> ""%string) &&
  bool_decide (Versions_Registry m <> ""%string) && bool_decide (NumericPolicy m <> ""%string).
Definition ValidationVersions_Hash (m : ValidationVersions) : result string string :=
  if negb (ValidationVersions_Valid m) then Err "incomplete version manifest"%string
  else Ok (sha256_hex (Schema m +:+ newline +:+ DSL m +:+ newline +:+ Versions_Registry m +:+ newline +:+ NumericPolicy m)).

Inductive Severity := SeverityError | SeverityBlock | SeverityWarning | SeverityInfo | SeverityUnknown (spelling : string).
#[global] Instance Severity_eq_dec : EqDecision Severity.
Proof. solve_decision. Defined.
Definition Severity_Valid (s : Severity) : bool := match s with SeverityUnknown _ => false | _ => true end.
Definition Severity_String (s : Severity) : string :=
  match s with
  | SeverityError => "ERROR" | SeverityBlock => "BLOCK" | SeverityWarning => "WARNING" | SeverityInfo => "INFO"
  | SeverityUnknown t => t
  end%string.

Record FormulaSpan := mkFormulaSpan { Span_StartByte : Z; Span_EndByte : Z }.
#[global] Instance FormulaSpan_eq_dec : EqDecision FormulaSpan.
Proof. solve_decision. Defined.
Definition span_broken (s : FormulaSpan) : bool := (Span_StartByte s <? 0) || (Span_EndByte s <=? Span_StartByte s).
Definition NewFormulaSpan (start end_ : Z) : result FormulaSpan string :=
  if (start <? 0) || (end_ <=? start) then Err "invalid formula span"%string else Ok (mkFormulaSpan start end_).

Record Issue := mkIssue {
  Issue_Severity : Severity; Issue_Code : string; Issue_EntityID : ID; Issue_FieldPath : string;
  Issue_Span : option FormulaSpan; Issue_Ordinal : option Z;
  MessageKey : string; MessageParams : gmap string string; FixHintKey : string; Evidence : gmap string string;
  Issue_Fingerprint : string
}.
#[global] Instance Issue_eq_dec : EqDecision Issue.
Proof. solve_decision. Defined.
Definition Issue_Valid `{UuidLib} (i : Issue) : bool :=
  Severity_Valid (Issue_Severity i) && bool_decide (Issue_Code i <> ""%string) && ID_Valid (Issue_EntityID i) &&
  bool_decide (Issue_FieldPath i <> ""%string) && bool_decide (MessageKey i <> ""%string) &&
  option_forallb (Z.leb 0) (Issue_Ordinal i) && option_forallb (fun s => negb (span_broken s)) (Issue_Span i).

Record SeveritySummary := mkSummary { Summary_Error : Z; Summary_Block : Z; Summary_Warning : Z; Summary_Info : Z }.
Definition count_issue (out : SeveritySummary) (i : Issue) : SeveritySummary :=
  let '(mkSummary e b w n) := out in
  match Issue_Severity i with
  | SeverityError => mkSummary (e + 1) b w n
  | SeverityBlock => mkSummary e (b + 1) w n
  | SeverityWarning => mkSummary e b (w + 1) n
  | SeverityInfo => mkSummary e b w (n + 1)
  | SeverityUnknown _ => out
  end.
Definition Summarize (issues : list Issue) : SeveritySummary := foldl count_issue (mkSummary 0 0 0 0) issues.

(** ** catalog.go *)
Record Code := mkCode { Code_Name : string; Code_Severity : Severity; Code_Phase : Scope; Code_Version : string }.
#[global] Instance Code_eq_dec : EqDecision Code.
Proof. solve_decision. Defined.
Definition CodesV1 : list Code :=
  [mkCode "SCHEMA_INVALID" SeverityError ScopeBase "1"] ++
  ((fun name => mkCode name SeverityBlock ScopeLocal "1") <$>
     ["REFERENCE_NOT_FOUND"; "REFERENCE_TARGET_INACTIVE"; "REFERENCE_KIND_MISMATCH"; "FORMULA_SYNTAX_INVALID";
      "FORMULA_UNKNOWN_VARIABLE"; "FORMULA_UNKNOWN_FUNCTION"; "FORMULA_TYPE_MISMATCH"; "FORMULA_UNIT_MISMATCH";
      "FORMULA_DIVISION_BY_ZERO"; "NUMERIC_NON_FINITE"; "NUMERIC_OUT_OF_RANGE"]%string) ++
  ((fun name => mkCode name SeverityBlock ScopeFull "1") <$>
     ["STATIC_FORMULA_CYCLE"; "EVENT_LOOP_UNBOUNDED"; "STACK_PRIORITY_MISSING"; "STACK_UNBOUNDED"]%string).
Definition v1CodeDefinition : gmap string Code := list_to_map ((fun c => (Code_Name c, c)) <$> CodesV1).

Fixpoint check_codes (seen : list string) (codes : list Code) : result unit string :=
  match codes with
  | [] => Ok tt
  | code :: codes =>
      if bool_decide (v1CodeDefinition !! Code_Name code = Some code) then
        if bool_decide (Code_Name code ∈ seen) then Err "duplicate validation code"%string
        else check_codes (Code_Name code :: seen) codes
      else Err "code-to-severity or implementation drift"%string
  end.
Definition ValidateCodesV1 (codes : list Code) : result unit string :=
  if negb (Z.of_nat (length codes) =? Z.of_nat (size v1CodeDefinition))
  then Err "validation module count changed; create a new Registry version"%string
  else check_codes [] codes.

Definition code_part (c : Code) : string :=
  Join [Code_Name c; Severity_String (Code_Severity c); Scope_text (Code_Phase c); Code_Version c] ":".
Fixpoint code_parts (seen : list string) (codes : list Code) : result (list string) string :=
  match codes with
  | [] => Ok []
  | c :: codes =>
      if bool_decide (Code_Name c = ""%string) || negb (Severity_Valid (Code_Severity c)) ||
         negb (Scope_Valid (Code_Phase c)) || bool_decide (Code_Version c = ""%string)
      then Err "invalid validation code"%string
      else if bool_decide (Code_Name c ∈ seen) then Err "duplicate validation code"%string
      else let? parts := code_parts (Code_Name c :: seen) codes in Ok (code_part c :: parts)
  end.
Definition CodeManifestHash (codes : list Code) : result string string :=
  let? parts := code_parts [] codes in Ok (sha256_hex (Join (sort_strings parts) newline)).

(** ** report.go *)
Record CodeText := mkCodeText { Text_MessageKey : string; Text_FixHintKey : string; Text_Message : string; Text_FixHint : string }.
(** [strings.ToLower] on the ASCII names of the catalog. *)
Definition lower_ascii (a : ascii) : ascii := if in_range 65 (byte_of a) 90 then char_of (byte_of a + 32) else a.
Fixpoint ToLower (s : string) : string :=
  match s with EmptyString => EmptyString | String a s => String (lower_ascii a) (ToLower s) end.
Definition code_text (name : string) : CodeText :=
  mkCodeText ("validation." +:+ ToLower name) ("validation.fix." +:+ ToLower name)
    (ToLower (replace_char "_"%char " " name)) "Review the field and apply the validation guidance.".
Definition CodeTextsV1 : gmap string CodeText := list_to_map ((fun c => (Code_Name c, code_text (Code_Name c))) <$> CodesV1).

Definition canonicalMap (values : gmap string string) : string :=
  Join ((fun '(key, value) => key +:+ "=" +:+ value) <$> sort_by (less_on fst String.ltb) (map_to_list values)) nul.

Section report.
Context `{UuidLib}.

Definition identity_parts (registryVersion : string) (issue : Issue) : list string :=
  [registryVersion; Issue_Code issue; Issue_EntityID issue; Issue_FieldPath issue; canonicalMap (Evidence issue)] ++
  match Issue_Span issue with Some s => [Itoa (Span_StartByte s) +:+ ":" +:+ Itoa (Span_EndByte s)] | None => [] end ++
  match Issue_Ordinal issue with Some n => ["ordinal:" +:+ Itoa n] | None => [] end.
Definition Fingerprint (registryVersion : string) (issue : Issue) : result string string :=
  if bool_decide (registryVersion = ""%string) || negb (Severity_Valid (Issue_Severity issue)) ||
     bool_decide (Issue_Code issue = ""%string) || negb (ID_Valid (Issue_EntityID issue)) ||
     bool_decide (Issue_FieldPath issue = ""%string)
  then Err "incomplete issue identity"%string
  else if negb (option_forallb (fun s => negb (span_broken s)) (Issue_Span issue))
  then Err "invalid formula span"%string
  else Ok (sha256_hex (Join (identity_parts registryVersion issue) newline)).

Definition with_fingerprint (i : Issue) (f : string) : Issue :=
  mkIssue (Issue_Severity i) (Issue_Code i) (Issue_EntityID i) (Issue_FieldPath i) (Issue_Span i) (Issue_Ordinal i)
    (MessageKey i) (MessageParams i) (FixHintKey i) (Evidence i) f.
Definition NewIssue (severity : Severity) (code : string) (entityID : ID) (fieldPath : string)
    (span : option FormulaSpan) (ordinal : option Z) (params evidence : gmap string string) (registryVersion : string) :
    result Issue string :=
  match CodeTextsV1 !! code with
  | None => Err "unknown validation code"%string
  | Some text =>
      let issue := mkIssue severity code entityID fieldPath span ordinal (Text_MessageKey text) params
                     (Text_FixHintKey text) evidence "" in
      match v1CodeDefinition !! code with
      | Some expected =>
          if negb (bool_decide (Code_Severity expected = severity)) then Err "invalid severity"%string
          else let? fingerprint := Fingerprint registryVersion issue in Ok (with_fingerprint issue fingerprint)
      | None => Err "invalid severity"%string
      end
  end.

Definition Presentation (issue : Issue) : string * string :=
  match CodeTextsV1 !! Issue_Code issue with
  | None => (Issue_Code issue, ""%string)
  | Some text => (Text_Message text, Text_FixHint text)
  end.

(** [fmt.Sprintf("%020d", z)]: the sign counts as one of the 20 columns. *)
Fixpoint zeros (n : nat) : string := match n with O => EmptyString | S n => String "0"%char (zeros n) end.
Definition pad (width : nat) (digits : string) : string := zeros (width - String.length digits) +:+ digits.
Definition pad20 (z : Z) : string := if z <? 0 then ("-" +:+ pad 19 (Itoa (- z)))%string else pad 20 (Itoa z).
Definition issueSortKey (issue : Issue) : string :=
  let span := match Issue_Span issue with
              | None => "-"%string
              | Some s => (pad20 (Span_StartByte s) +:+ ":" +:+ pad20 (Span_EndByte s))%string
              end in
  Issue_EntityID issue +:+ nul +:+ Issue_FieldPath issue +:+ nul +:+ span +:+ nul +:+ Issue_Code issue +:+ nul +:+
  canonicalMap (Evidence issue).

(** [SortIssues] is a stable sort; [CloneIssues] copies and sorts. *)
Definition SortIssues (issues : list Issue) : list Issue := sort_by (less_on issueSortKey String.ltb) issues.
Definition CloneIssues (issues : list Issue) : list Issue := SortIssues issues.

(** ** Result hashes and completed runs: types.go *)
Definition summary_text (s : SeveritySummary) : string :=
  Join [Itoa (Summary_Error s); Itoa (Summary_Block s); Itoa (Summary_Warning s); Itoa (Summary_Info s)] "|".
Definition issue_text (i : Issue) : string :=
  ("|" +:+ Severity_String (Issue_Severity i) +:+ ":" +:+ Issue_Code i +:+ ":" +:+ Issue_EntityID i +:+ ":" +:+
   Issue_FieldPath i +:+ ":" +:+ Issue_Fingerprint i)%string.
Definition ResultHash (source : Source) (scope : Scope) (versions : ValidationVersions) (issues : list Issue) :
    result string string :=
  if negb (Scope_Valid scope) || negb (ValidationVersions_Valid versions) then Err "invalid result identity"%string
  else
    let cloned := SortIssues issues in
    let? manifestHash := ValidationVersions_Hash versions in
    let payload := Join [SourceKind_text (Source_Kind source); Source_RevisionID source; Source_InputHash source;
                         Scope_text scope; manifestHash; summary_text (Summarize cloned)] "|" in
    Ok (sha256_hex (foldl (fun payload i => payload +:+ issue_text i)%string payload cloned)).

(** [RunStatus] has the single value [RunCompleted]. *)
Inductive RunStatus := RunCompleted | RunStatusUnknown (spelling : string).
#[global] Instance RunStatus_eq_dec : EqDecision RunStatus.
Proof. solve_decision. Defined.
Record ValidationRun := mkRun {
  Run_ID : ID; Run_Source : Source; Run_Scope : Scope; Run_Versions : ValidationVersions; Run_Status : RunStatus;
  Summary : SeveritySummary; Run_ResultHash : string; Run_CreatedAt : Time
}.
Definition NewCompletedRun (id : ID) (source : Source) (scope : Scope) (versions : ValidationVersions)
    (issues : list Issue) (createdAt : Time) : result ValidationRun string :=
  if negb (ID_Valid id) || negb (Scope_Valid scope) || negb (ValidationVersions_Valid versions)
  then Err "invalid completed run identity"%string
  else if negb (forallb Issue_Valid issues) then Err "invalid validation issue"%string
  else
    let? h := ResultHash source scope versions issues in
    Ok (mkRun id source scope versions RunCompleted (Summarize issues) h createdAt).
End report.

(** ** gate.go *)
Inductive GateResult := GatePass | GateRequiresValidation | GateBlocked | GateOther (spelling : string).
#[global] Instance GateResult_eq_dec : EqDecision GateResult.
Proof. solve_decision. Defined.

(** [FullRunFinder.FindMatchingFullRun]: the error, or the run when found. *)
Definition FullRunFinder : Type := ID -> string -> ValidationVersions -> result (option ValidationRun) string.

Definition ValidationGate_Check (runs : FullRunFinder) (revisionID : ID) (configHash : string)
    (versions : ValidationVersions) : result GateResult string :=
  match runs revisionID configHash versions with
  | Err e => Err e
  | Ok None => Ok GateRequiresValidation
  | Ok (Some run) =>
      if negb (bool_decide (Run_Scope run = ScopeFull)) ||
         negb (bool_decide (Source_Kind (Run_Source run) = SourceRevision)) ||
         negb (bool_decide (Source_RevisionID (Run_Source run) = revisionID)) ||
         negb (bool_decide (Source_InputHash (Run_Source run) = configHash)) ||
         negb (bool_decide (Run_Versions run = versions))
      then Ok GateRequiresValidation
      else if (0 <? Summary_Error (Summary run)) || (0 <? Summary_Block (Summary run)) then Ok GateBlocked
      else Ok GatePass
  end.

(** ** Properties *)
Lemma Summarize_perm issues issues' : issues ≡ₚ issues' -> Summarize issues = Summarize issues'.
Proof.
  unfold Summarize. generalize (mkSummary 0 0 0 0). intros out Hp. revert out.
  induction Hp as [|i l l' _ IH|i j l|l1 l2 l3 _ IH1 _ IH2]; intros out; simpl; [done|by rewrite IH| |by rewrite IH1].
  f_equal. destruct out as [e b w n]. unfold count_issue. by destruct (Issue_Severity i), (Issue_Severity j).
Qed.

(** How many issues of each severity a list holds. *)
Definition severities (s : Severity) (issues : list Issue) : Z :=
  Z.of_nat (length (List.filter (fun i => bool_decide (Issue_Severity i = s)) issues)).
Lemma Summarize_counts issues :
  Summarize issues = mkSummary (severities SeverityError issues) (severities SeverityBlock issues)
    (severities SeverityWarning issues) (severities SeverityInfo issues).
Proof.
  enough (forall out, foldl count_issue out issues =
    mkSummary (Summary_Error out + severities SeverityError issues) (Summary_Block out + severities SeverityBlock issues)
      (Summary_Warning out + severities SeverityWarning issues) (Summary_Info out + severities SeverityInfo issues)) as H
    by (unfold Summarize; rewrite H; cbn -[Z.add]; by rewrite !Z.add_0_l).
  induction issues as [|i issues IH]; intros out; unfold severities in *; simpl.
  - destruct out. simpl. f_equal; lia.
  - rewrite IH. unfold count_issue. destruct out, (Issue_Severity i) eqn:E; simpl; rewrite ?E; simpl; f_equal; lia.
Qed.

Lemma severities_pos s issues : 0 < severities s issues <-> exists i, i ∈ issues /\ Issue_Severity i = s.
Proof.
  unfold severities. induction issues as [|i issues IH]; simpl.
  - split; [lia|]. by intros (i & ?%elem_of_nil & _).
  - case_bool_decide as E; simpl.
    + split; [|lia]. intros _. exists i. split; [by left|done].
    + rewrite IH. split; intros (j & Hj & Hs); exists j; (split; [|done]); [by right|].
      apply elem_of_cons in Hj as [->|]; done.
Qed.

(** Sorting separates issues as soon as their sort keys do. *)
Definition keys_separate (issues : list Issue) : Prop :=
  forall i j, i ∈ issues -> j ∈ issues -> issueSortKey i = issueSortKey j -> i = j.
Lemma SortIssues_perm issues issues' :
  keys_separate issues -> issues ≡ₚ issues' -> SortIssues issues = SortIssues issues'.
Proof.
  intros Hsep. apply sort_by_unique_on; [apply _|]. intros x y Hx Hy Hxy Hyx. apply Hsep; [exact Hx|exact Hy|].
  exact (st_total (less := String.ltb) _ _ Hxy Hyx).
Qed.

#[local] Opaque v1CodeDefinition.
Lemma check_codes_Ok codes : forall seen, check_codes seen codes = Ok tt <->
  NoDup (Code_Name <$> codes) /\ (forall c, c ∈ codes -> Code_Name c ∉ seen) /\
  Forall (fun c => v1CodeDefinition !! Code_Name c = Some c) codes.
Proof.
  induction codes as [|c codes IH]; intros seen; csimpl.
  - split; [intros _; split_and!; [constructor|by intros ? ?%elem_of_nil|done]|done].
  - rewrite Forall_cons, NoDup_cons.
    destruct (decide (v1CodeDefinition !! Code_Name c = Some c)) as [Hd|Hd];
      [rewrite bool_decide_true by done|rewrite bool_decide_false by done; by split; [|intros (_ & _ & ? & _)]].
    destruct (decide (Code_Name c ∈ seen)) as [Hs|Hs]; [rewrite bool_decide_true by done|rewrite bool_decide_false by done].
    { split; [done|]. intros (_ & Hall & _). by destruct (Hall c); [left|]. }
    rewrite IH. split.
    + intros (Hnd & Hall & Hdef). split_and!; [|done| |done|done].
      * intros (c' & Heq & Hc')%list_elem_of_fmap. apply (Hall c' Hc'). rewrite <- Heq. by left.
      * intros c' [->|Hc']%elem_of_cons; [done|]. intros Hin. apply (Hall c' Hc'). by right.
    + intros ((Hni & Hnd) & Hall & _ & Hdef). split_and!; [done| |done].
      intros c' Hc' [Heq|Hin]%elem_of_cons; [|by apply (Hall c'); [right|]].
      apply Hni, list_elem_of_fmap. by exists c'.
Qed.

#[local] Transparent v1CodeDefinition.

(** The catalog check accepts exactly the frozen catalog, in any order. *)
Theorem catalog_is_frozen codes : ValidateCodesV1 codes = Ok tt <-> codes ≡ₚ CodesV1.
Proof.
  assert (forall c, v1CodeDefinition !! Code_Name c = Some c <-> c ∈ CodesV1) as Hdef.
  { assert (NoDup (((fun c => (Code_Name c, c)) <$> CodesV1).*1)) as Hnd by compute_decide.
    intros c. unfold v1CodeDefinition. rewrite <- (elem_of_list_to_map _ _ _ Hnd), list_elem_of_fmap. split.
    - by intros (c' & [= _ ->] & Hc).
    - intros Hc. by exists c. }
  assert (size v1CodeDefinition = length CodesV1) as Hsize by by vm_compute.
  unfold ValidateCodesV1. rewrite Hsize. split.
  - case_guard as Hlen; [done|]. bool_to_prop. intros (Hnd & _ & Hall)%check_codes_Ok.
    apply submseteq_length_Permutation; [|lia]. apply NoDup_submseteq; [by eapply NoDup_fmap_1|].
    intros c Hc. apply Hdef. rewrite Forall_forall in Hall. by apply Hall.
  - intros Hp. rewrite (Permutation_length Hp), Z.eqb_refl. simpl. apply check_codes_Ok. split_and!.
    + rewrite Hp. compute_decide.
    + by intros ? _ ?%elem_of_nil.
    + rewrite Hp. apply Forall_forall. intros c. apply Hdef.
Qed.

Section results.
Context `{UuidLib}.

(** A completed run does not depend on the order in which the validators found
    the issues. *)
Theorem completed_run_order_independent id source scope versions issues issues' createdAt :
  issues ≡ₚ issues' -> keys_separate issues ->
  NewCompletedRun id source scope versions issues createdAt =
  NewCompletedRun id source scope versions issues' createdAt.
Proof.
  intros Hp Hsep. unfold NewCompletedRun, ResultHash.
  rewrite (SortIssues_perm _ _ Hsep Hp), (Summarize_perm _ _ Hp).
  assert (forallb Issue_Valid issues = forallb Issue_Valid issues') as ->; [|done].
  apply eq_true_iff_eq. by rewrite !forallb_Forall, Hp.
Qed.

(** An issue the package makes is valid when its ordinal is not negative. *)
Lemma NewIssue_Valid severity code entityID fieldPath span ordinal params evidence registryVersion i :
  NewIssue severity code entityID fieldPath span ordinal params evidence registryVersion = Ok i ->
  option_forallb (Z.leb 0) ordinal = true ->
  Issue_Valid i = true /\ Issue_Severity i = severity /\ Issue_Code i = code /\ Issue_EntityID i = entityID /\
  Issue_FieldPath i = fieldPath /\ Evidence i = evidence.
Proof.
  unfold NewIssue. destruct (CodeTextsV1 !! code) as [text|] eqn:Ht; [|done].
  destruct (v1CodeDefinition !! code) as [expected|] eqn:Hd; [|done]. case_guard as Hs; [done|].
  intros Hi Hord. apply result_bind_Ok in Hi as (f & Hf & [= <-]). unfold Fingerprint in Hf.
  destruct (_ || _) eqn:Hg in Hf; [done|]. destruct (negb _) eqn:Hsp in Hf; [done|]. simpl in *. bool_to_prop.
  assert (Text_MessageKey text <> ""%string) as Hk.
  { apply elem_of_list_to_map_2, list_elem_of_fmap in Ht as (c & [= -> ->] & _). done. }
  split_and!; [|done..]. unfold Issue_Valid. simpl. rewrite !andb_true_iff, !bool_decide_eq_true.
  split_and!; done.
Qed.
End results.
