(* ===== verification/ValidationGraph.v ===== *)
(** * internal/validation/graph.go and safety.go: formula cycles, event loops, stack rules

    Both searches run the closure modelled in [GraphSCC]: over the keys of the
    formula nodes, and over the ends of the trigger edges.  [None] would be its
    exhausted fuel or index panic; the theorems show it never happens. *)
From S2P Require Import Prelude GoSort GoStrings GoCrypto Domain GraphSCC.
Open Scope Z_scope.

(** ** graph.go *)
Record FormulaNode := mkFormulaNode { Node_EntityID : ID; Node_FieldPath : string; Node_OutputAttributeID : ID }.
Record FormulaEdge := mkFormulaEdge { From : FormulaNode; To : FormulaNode }.
Record CycleFinding := mkCycle { Cycle_Node : FormulaNode; Cycle_Nodes : list FormulaNode; Cycle_Edges : list FormulaEdge; CycleHash : string }.

Definition key (n : FormulaNode) : string := (Node_EntityID n +:+ "|" +:+ Node_FieldPath n +:+ "|" +:+ Node_OutputAttributeID n)%string.
Definition edge_key (e : FormulaEdge) : string := (key (From e) +:+ "->" +:+ key (To e))%string.

Definition cycleHash (nodes : list string) (edges : list FormulaEdge) : string :=
  sha256_hex (Join (nodes ++ (edge_key <$> edges)) newline).

(** The map [byKey]. *)
Definition add_node (m : gmap string FormulaNode) (n : FormulaNode) : gmap string FormulaNode := <[key n := n]> m.
Definition node_map (nodes : list FormulaNode) (edges : list FormulaEdge) : gmap string FormulaNode :=
  foldl (fun m e => add_node (add_node m (From e)) (To e)) (foldl add_node ∅ nodes) edges.

(** The map [adj], its lists sorted. *)
Definition edges_from (edges : list FormulaEdge) (k : string) : list string :=
  sort_strings ((fun e => key (To e)) <$> List.filter (fun e => bool_decide (key (From e) = k)) edges).

Definition zero_node : FormulaNode := mkFormulaNode "" "" "".
Definition edge_within (component : list string) (e : FormulaEdge) : bool :=
  bool_decide (key (From e) ∈ component) && bool_decide (key (To e) ∈ component).

(** What [visit] appends when it has popped a component. *)
Definition component_findings (byKey : gmap string FormulaNode) (edges : list FormulaEdge) (component : list string) :
    list CycleFinding :=
  if negb (cyclic (edges_from edges) component) then []
  else
    let componentNodes := (fun value => default zero_node (byKey !! value)) <$> component in
    let componentEdges := sort_by (less_on edge_key String.ltb) (List.filter (edge_within component) edges) in
    let hash := cycleHash component componentEdges in
    (fun node => mkCycle node componentNodes componentEdges hash) <$> componentNodes.

Definition StaticFormulaCycles (nodes : list FormulaNode) (edges : list FormulaEdge) : option (list CycleFinding) :=
  let byKey := node_map nodes edges in
  let keys := sort_strings (map_to_list byKey).*1 in
  components ← scc (edges_from edges) keys;
  Some (sort_by (less_on (fun f => key (Cycle_Node f)) String.ltb) (concat (component_findings byKey edges <$> components))).

(** ** safety.go *)
Record TriggerEdge := mkTrigger {
  Trigger_From : string; Trigger_To : string; HasPositiveCount : bool; HasPositiveDuration : bool; HasPositiveResource : bool
}.
#[global] Instance TriggerEdge_eq_dec : EqDecision TriggerEdge.
Proof. solve_decision. Defined.
Record EventLoopFinding := mkLoop { Loop_Nodes : list string; Loop_Edges : list TriggerEdge; EvidenceHash : string }.

Definition unbounded (e : TriggerEdge) : bool :=
  negb (bool_decide (Trigger_From e = ""%string) || bool_decide (Trigger_To e = ""%string) ||
        HasPositiveCount e || HasPositiveDuration e || HasPositiveResource e).
Definition targets_from (edges : list TriggerEdge) (node : string) : list string :=
  sort_strings (Trigger_To <$> List.filter (fun e => bool_decide (Trigger_From e = node)) edges).
(** The set [nodes] as its sorted elements. *)
Definition trigger_nodes (edges : list TriggerEdge) : list string :=
  sort_strings (elements (list_to_set (Trigger_From <$> edges) ∪ list_to_set (Trigger_To <$> edges) : gset string)).

Definition stringSCC (nodes : list string) (adj : string -> list string) : option (list (list string)) :=
  components ← scc adj nodes; Some (sort_by (less_on (fun c => Join c nul) String.ltb) components).

Definition trigger_within (members : list string) (e : TriggerEdge) : bool :=
  bool_decide (Trigger_From e ∈ members) && bool_decide (Trigger_To e ∈ members).
Definition loop_of (unbounded_edges : list TriggerEdge) (component : list string) : list EventLoopFinding :=
  if negb (cyclic (targets_from unbounded_edges) component) then []
  else
    let cycleEdges := sort_by (less_on (fun e => Trigger_From e +:+ nul +:+ Trigger_To e)%string String.ltb)
                        (List.filter (trigger_within component) unbounded_edges) in
    [mkLoop component cycleEdges
       (sha256_hex (Join (component ++ ((fun e => Trigger_From e +:+ "->" +:+ Trigger_To e)%string <$> cycleEdges)) newline))].
Definition UnboundedEventLoops (edges : list TriggerEdge) : option (list EventLoopFinding) :=
  let remaining := List.filter unbounded edges in
  components ← stringSCC (trigger_nodes remaining) (targets_from remaining);
  Some (concat (loop_of remaining <$> components)).

Record StackRuleInput := mkStackRule { Operation : string; Priority : option Z; MaxStacks : option Z; HasPositiveCap : bool }.
Definition not_positive (n : option Z) : bool := match n with Some n => n <=? 0 | None => false end.
Definition ValidateStackRule (rule : StackRuleInput) : list string :=
  if negb (bool_decide (Operation rule ∈ ["Add"; "Multiply"; "Override"; "Max"; "Min"])) then ["STACK_UNBOUNDED"]
  else
    (if bool_decide (Priority rule = None) then ["STACK_PRIORITY_MISSING"] else []) ++
    (if (bool_decide (Operation rule = "Add") || bool_decide (Operation rule = "Multiply")) &&
        (bool_decide (MaxStacks rule = None) || not_positive (MaxStacks rule)) && negb (HasPositiveCap rule)
     then ["STACK_UNBOUNDED"] else []) ++
    (if not_positive (MaxStacks rule) then ["STACK_UNBOUNDED"] else []).

(** ** Formula cycles *)
Section cycles.
Context (nodes : list FormulaNode) (edges : list FormulaEdge).

(** One formula reads the output of another. *)
Definition reads (k k' : string) : Prop := exists e, e ∈ edges /\ key (From e) = k /\ key (To e) = k'.

Lemma edges_from_reads k k' : GraphSCC.edge (edges_from edges) k k' <-> reads k k'.
Proof.
  unfold GraphSCC.edge, edges_from, reads. unfold sort_strings. rewrite elem_of_sort_by, list_elem_of_fmap.
  setoid_rewrite list_elem_of_In. setoid_rewrite filter_In. setoid_rewrite bool_decide_eq_true. naive_solver.
Qed.

Definition known (k : string) : Prop := exists n, key n = k /\ (n ∈ nodes \/ exists e, e ∈ edges /\ (n = From e \/ n = To e)).

Lemma add_nodes l : forall m,
  (forall k n, m !! k = Some n -> key n = k) ->
  (forall k n, foldl add_node m l !! k = Some n -> key n = k) /\
  (forall k, is_Some (foldl add_node m l !! k) <-> is_Some (m !! k) \/ exists n, n ∈ l /\ key n = k).
Proof.
  induction l as [|n l IH]; intros m Hm; simpl.
  - split; [done|]. intros k. split; [by left|]. intros [|(n & ?%elem_of_nil & _)]; done.
  - destruct (IH (add_node m n)) as [H1 H2].
    { intros k n'. unfold add_node. intros [[<- <-]|[_ ?]]%lookup_insert_Some; auto. }
    split; [done|]. intros k. rewrite H2. unfold add_node. rewrite lookup_insert_is_Some'. split.
    + intros [[<-|?]|(n' & Hn & Hk)]; [right; exists n; split; [by left|done]|by left|right; exists n'; split; [by right|done]].
    + intros [?|(n' & [->|Hn]%elem_of_cons & Hk)]; [left; by right|left; by left|right; by exists n'].
Qed.

Lemma node_map_flat : node_map nodes edges = foldl add_node ∅ (nodes ++ concat ((fun e => [From e; To e]) <$> edges)).
Proof.
  unfold node_map. rewrite foldl_app. generalize (foldl add_node ∅ nodes).
  induction edges as [|e es IH]; intros m; simpl; [done|]. apply IH.
Qed.

Lemma node_map_spec :
  (forall k n, node_map nodes edges !! k = Some n -> key n = k) /\
  (forall k, is_Some (node_map nodes edges !! k) <-> known k).
Proof.
  rewrite node_map_flat. destruct (add_nodes (nodes ++ concat ((fun e => [From e; To e]) <$> edges)) ∅) as [H1 H2];
    [by intros k n; rewrite lookup_empty|]. split; [done|]. intros k. rewrite H2, lookup_empty. unfold known.
  setoid_rewrite elem_of_app. setoid_rewrite elem_of_concat. split.
  - intros [[? ?]|(n & [Hn|(l & Hn & (e & -> & He)%list_elem_of_fmap)] & Hk)]; [done|by exists n; auto|].
    exists n. split; [done|]. right. exists e. split; [done|]. rewrite !elem_of_cons in Hn.
    destruct Hn as [->|[->|Hn]]; [by left|by right|by apply elem_of_nil in Hn].
  - intros (n & Hk & Hn). right. exists n. split; [|done]. destruct Hn as [Hn|(e & He & Hn)]; [by left|right].
    exists [From e; To e]. split; [|apply list_elem_of_fmap; by exists e].
    rewrite !elem_of_cons. destruct Hn as [->| ->]; auto.
Qed.

Lemma keys_known k : k ∈ sort_strings (map_to_list (node_map nodes edges)).*1 <-> known k.
Proof.
  unfold sort_strings. rewrite elem_of_sort_by, list_elem_of_fmap, <- (proj2 node_map_spec k). split.
  - intros ([k' n] & -> & Hin%elem_of_map_to_list). by exists n.
  - intros [n Hn]. exists (k, n). split; [done|]. by apply elem_of_map_to_list.
Qed.

(** The keys of the members' nodes are the members. *)
Lemma component_keys (c : list string) : (forall x, x ∈ c -> known x) ->
  key <$> ((fun value => default zero_node (node_map nodes edges !! value)) <$> c) = c.
Proof.
  intros Hc. rewrite <- list_fmap_compose. rewrite <- (list_fmap_id c) at 2. apply list_fmap_ext.
  intros i x Hx%list_elem_of_lookup_2. simpl. destruct node_map_spec as [Hkey Hdom].
  destruct (proj2 (Hdom x) (Hc x Hx)) as [n Hn]. rewrite Hn. simpl. by apply Hkey.
Qed.

Lemma reads_tc k k' : tc (GraphSCC.edge (edges_from edges)) k k' <-> tc reads k k'.
Proof. split; apply (tc_congruence id); intros x y; apply edges_from_reads. Qed.
Lemma reads_rtc k k' : GraphSCC.reach (edges_from edges) k k' <-> rtc reads k k'.
Proof. split; apply (rtc_congruence id); intros x y; apply edges_from_reads. Qed.

(** The components the search visits. *)
Lemma formula_components : exists cs,
  scc (edges_from edges) (sort_strings (map_to_list (node_map nodes edges)).*1) = Some cs /\
  (forall c, c ∈ cs -> is_scc (edges_from edges) c) /\ NoDup (concat cs) /\
  forall k, known k <-> exists c, c ∈ cs /\ k ∈ c.
Proof.
  destruct (scc_exact (edges_from edges) (sort_strings (map_to_list (node_map nodes edges)).*1)) as (cs & H1 & H2 & H3 & H4).
  - intros x y _ (e & He & _ & <-)%edges_from_reads. apply keys_known. exists (To e). split; [done|]. right. eauto.
  - exists cs. split_and!; [done..|]. intros k. by rewrite <- H4, keys_known.
Qed.

Lemma elem_of_component_findings c f : (forall x, x ∈ c -> known x) ->
  f ∈ component_findings (node_map nodes edges) edges c <->
  cyclic (edges_from edges) c = true /\ key (Cycle_Node f) ∈ c /\ Cycle_Node f = default zero_node (node_map nodes edges !! key (Cycle_Node f)) /\
  Cycle_Nodes f = ((fun value => default zero_node (node_map nodes edges !! value)) <$> c) /\
  Cycle_Edges f = sort_by (less_on edge_key String.ltb) (List.filter (edge_within c) edges) /\
  CycleHash f = cycleHash c (Cycle_Edges f).
Proof.
  intros Hc. unfold component_findings. destruct (cyclic _ c); simpl; [|split; [by intros ?%elem_of_nil|by intros []]].
  rewrite list_elem_of_fmap. split.
  - intros (n & -> & (x & -> & Hx)%list_elem_of_fmap). simpl.
    destruct node_map_spec as [Hkey Hdom]. destruct (proj2 (Hdom x) (Hc x Hx)) as [n Hn].
    rewrite Hn. simpl. rewrite (Hkey x n Hn), Hn. done.
  - intros (_ & Hin & Hnode & Hns & Hes & Hh). exists (Cycle_Node f). split.
    + destruct f as [n ns es h]. simpl in *. by subst.
    + apply list_elem_of_fmap. eauto.
Qed.

(** The keys of a component's findings are its members, when it is cyclic. *)
Lemma component_findings_keys c : (forall x, x ∈ c -> known x) ->
  (fun f => key (Cycle_Node f)) <$> component_findings (node_map nodes edges) edges c =
  if cyclic (edges_from edges) c then c else [].
Proof.
  intros Hc. unfold component_findings. destruct (cyclic _ c); simpl; [|done].
  rewrite <- list_fmap_compose. by apply component_keys.
Qed.
End cycles.

Lemma NoDup_concat_select (p : list string -> bool) cs :
  NoDup (concat cs) -> NoDup (concat ((fun c => if p c then c else []) <$> cs)).
Proof.
  induction cs as [|c cs IH]; intros Hnd; simpl; [done|]. simpl in Hnd. apply NoDup_app in Hnd as (H1 & H2 & H3).
  destruct (p c); simpl; [|by apply IH]. apply NoDup_app. split_and!; [done| |by apply IH].
  intros x Hx (l & Hl & (c' & -> & Hc')%list_elem_of_fmap)%elem_of_concat. apply (H2 x Hx). apply elem_of_concat.
  destruct (p c'); [eauto|by apply elem_of_nil in Hl].
Qed.

Lemma fmap_concat {A B : Type} (f : A -> B) (ls : list (list A)) : f <$> concat ls = concat ((fun l : list A => f <$> l) <$> ls).
Proof. induction ls as [|l ls IH]; csimpl; [done|]. by rewrite fmap_app, IH. Qed.

Lemma sorted_distinct {A : Type} (k : A -> string) (l : list A) :
  NoDup (k <$> l) -> StronglySorted (fun x y => String.ltb (k x) (k y) = true) (sort_by (less_on k String.ltb) l).
Proof.
  intros Hnd. pose proof (sort_by_sorted (less_on k String.ltb) l) as Hs.
  rewrite <- (sort_by_perm (less_on k String.ltb) l) in Hnd. revert Hs Hnd.
  induction (sort_by _ l) as [|x l' IH]; intros Hs Hnd; [constructor|].
  apply StronglySorted_cons in Hs as [Hf Hs]. csimpl in Hnd. apply NoDup_cons in Hnd as [Hx Hnd].
  constructor; [by apply IH|]. rewrite Forall_forall in Hf |- *. intros y Hy. specialize (Hf y Hy).
  destruct (String.ltb (k x) (k y)) eqn:E; [done|]. exfalso. apply Hx. apply list_elem_of_fmap. exists y.
  split; [|done]. exact (st_total (less := String.ltb) _ _ E Hf).
Qed.

(** What the detector of formula cycles returns. *)
Lemma cycles_detected nodes edges :
  exists fs, StaticFormulaCycles nodes edges = Some fs /\
    (forall k, k ∈ (fun f => key (Cycle_Node f)) <$> fs <-> tc (reads edges) k k) /\
    StronglySorted (fun f g => String.ltb (key (Cycle_Node f)) (key (Cycle_Node g)) = true) fs /\
    forall f, f ∈ fs ->
      (forall k, k ∈ key <$> Cycle_Nodes f <->
         rtc (reads edges) (key (Cycle_Node f)) k /\ rtc (reads edges) k (key (Cycle_Node f))) /\
      (forall e, e ∈ Cycle_Edges f <->
         e ∈ edges /\ key (From e) ∈ key <$> Cycle_Nodes f /\ key (To e) ∈ key <$> Cycle_Nodes f) /\
      CycleHash f = cycleHash (key <$> Cycle_Nodes f) (Cycle_Edges f) /\
      forall g, g ∈ fs -> key (Cycle_Node g) ∈ key <$> Cycle_Nodes f ->
        Cycle_Nodes g = Cycle_Nodes f /\ Cycle_Edges g = Cycle_Edges f /\ CycleHash g = CycleHash f.
Proof.
  destruct (formula_components nodes edges) as (cs & Hscc & Hclass & Hnd & Hcover).
  unfold StaticFormulaCycles. rewrite Hscc. simpl. eexists. split; [done|].
  assert (forall c, c ∈ cs -> forall x, x ∈ c -> known nodes edges x) as Hknown by (intros c Hc x Hx; apply Hcover; eauto).
  set (found := concat _).
  assert (forall f, f ∈ found <-> exists c, c ∈ cs /\ f ∈ component_findings (node_map nodes edges) edges c) as Hfound.
  { intros f. unfold found. rewrite elem_of_concat. split.
    - intros (l & Hl & (c & -> & Hc)%list_elem_of_fmap). eauto.
    - intros (c & Hc & Hf). eexists. split; [exact Hf|]. apply list_elem_of_fmap. eauto. }
  assert ((fun f => key (Cycle_Node f)) <$> found = concat ((fun c => if cyclic (edges_from edges) c then c else []) <$> cs)) as Hkeys.
  { unfold found. rewrite fmap_concat, <- list_fmap_compose. f_equal. apply list_fmap_ext.
    intros i c Hc%list_elem_of_lookup_2. simpl. apply component_findings_keys, Hknown, Hc. }
  split_and!.
  - intros k. rewrite sort_by_perm, Hkeys, elem_of_concat, <- reads_tc. split.
    + intros (l & Hl & (c & -> & Hc)%list_elem_of_fmap).
      destruct (cyclic (edges_from edges) c) eqn:E; [|by apply elem_of_nil in Hl].
      apply (cyclic_on_cycle _ c); [by apply Hclass|by eapply NoDup_concat_part|done|done].
    + intros Ht. assert (known nodes edges k) as (c & Hc & Hk)%Hcover.
      { apply reads_tc in Ht. assert (exists k', reads edges k k') as (k' & e & He & <- & _)
          by (inversion Ht; subst; eexists; done).
        exists (From e). split; [done|]. right. eauto. }
      exists c. split; [done|]. apply list_elem_of_fmap. exists c. split; [|done].
      rewrite (proj2 (cyclic_on_cycle _ c k (Hclass c Hc) (NoDup_concat_part _ _ Hnd Hc) Hk) Ht). done.
  - apply sorted_distinct. rewrite Hkeys. by apply NoDup_concat_select.
  - intros f Hf%elem_of_sort_by. apply Hfound in Hf as (c & Hc & Hf).
    apply elem_of_component_findings in Hf as (Hcyc & Hk & Hnode & Hns & Hes & Hh); [|by apply Hknown].
    assert (key <$> Cycle_Nodes f = c) as Hkc by (rewrite Hns; by apply component_keys, Hknown).
    rewrite Hkc. split_and!.
    + intros k. rewrite <- !reads_rtc. destruct (Hclass c Hc) as (_ & _ & Hcl). by apply Hcl.
    + intros e. rewrite Hes, elem_of_sort_by, list_elem_of_In, filter_In, <- list_elem_of_In. unfold edge_within.
      rewrite andb_true_iff, !bool_decide_eq_true. done.
    + done.
    + intros g Hg%elem_of_sort_by Hgc. apply Hfound in Hg as (c' & Hc' & Hg).
      apply elem_of_component_findings in Hg as (_ & Hk' & _ & Hns' & Hes' & Hh'); [|by apply Hknown].
      assert (c' = c) as ->; [|by rewrite Hh', Hh, Hes', Hes, Hns', Hns].
      by apply (is_scc_unique (edges_from edges) c' c (key (Cycle_Node g))); eauto using NoDup_concat_part.
Qed.

(** C32: [StaticFormulaCycles] returns, reports exactly the formulas that read
    themselves, directly or through others, each once and in the order of their
    keys, and gives every member of a strongly connected component the same
    evidence: the nodes of the component, the edges among them, their hash. *)
Theorem static_cycles_exact nodes edges :
  exists fs, StaticFormulaCycles nodes edges = Some fs /\
    (forall k, k ∈ (fun f => key (Cycle_Node f)) <$> fs <-> tc (reads edges) k k) /\
    StronglySorted (fun f g => String.ltb (key (Cycle_Node f)) (key (Cycle_Node g)) = true) fs /\
    forall f, f ∈ fs ->
      (forall k, k ∈ key <$> Cycle_Nodes f <->
         rtc (reads edges) (key (Cycle_Node f)) k /\ rtc (reads edges) k (key (Cycle_Node f))) /\
      (forall e, e ∈ Cycle_Edges f <->
         e ∈ edges /\ key (From e) ∈ key <$> Cycle_Nodes f /\ key (To e) ∈ key <$> Cycle_Nodes f) /\
      CycleHash f = cycleHash (key <$> Cycle_Nodes f) (Cycle_Edges f) /\
      forall g, g ∈ fs -> key (Cycle_Node g) ∈ key <$> Cycle_Nodes f ->
        Cycle_Nodes g = Cycle_Nodes f /\ Cycle_Edges g = Cycle_Edges f /\ CycleHash g = CycleHash f.
Proof. apply cycles_detected. Qed.

(** ** Event loops *)
Section loops.
Context (edges : list TriggerEdge).

(** One trigger starts another without a termination proof of its own. *)
Definition triggers (x y : string) : Prop :=
  exists e, e ∈ edges /\ unbounded e = true /\ Trigger_From e = x /\ Trigger_To e = y.
Let remaining := List.filter unbounded edges.

Lemma elem_of_remaining e : e ∈ remaining <-> e ∈ edges /\ unbounded e = true.
Proof. unfold remaining. by rewrite list_elem_of_In, filter_In, <- list_elem_of_In. Qed.

Lemma targets_trigger x y : GraphSCC.edge (targets_from remaining) x y <-> triggers x y.
Proof.
  unfold GraphSCC.edge, targets_from, sort_strings, triggers. rewrite elem_of_sort_by, list_elem_of_fmap. split.
  - intros (e & -> & He). rewrite list_elem_of_In, filter_In, <- list_elem_of_In, bool_decide_eq_true in He.
    destruct He as [[He Hu]%elem_of_remaining Hx]. by exists e.
  - intros (e & He & Hu & Hx & <-). exists e. split; [done|].
    rewrite list_elem_of_In, filter_In, <- list_elem_of_In, bool_decide_eq_true. split; [|done].
    by apply elem_of_remaining.
Qed.
Lemma triggers_reach x y : GraphSCC.reach (targets_from remaining) x y <-> rtc triggers x y.
Proof. split; apply (rtc_congruence id); intros ??; apply targets_trigger. Qed.
Lemma triggers_cycle x : on_cycle (targets_from remaining) x <-> tc triggers x x.
Proof. split; apply (tc_congruence id); intros ??; apply targets_trigger. Qed.

Lemma elem_of_trigger_nodes x : x ∈ trigger_nodes remaining <-> exists e, e ∈ remaining /\ (x = Trigger_From e \/ x = Trigger_To e).
Proof.
  unfold trigger_nodes, sort_strings. rewrite elem_of_sort_by, elem_of_elements, elem_of_union, !elem_of_list_to_set,
    !list_elem_of_fmap. naive_solver.
Qed.

Lemma trigger_components : exists cs,
  stringSCC (trigger_nodes remaining) (targets_from remaining) = Some cs /\
  (forall c, c ∈ cs -> is_scc (targets_from remaining) c /\ NoDup c) /\
  forall x, (exists e, e ∈ remaining /\ (x = Trigger_From e \/ x = Trigger_To e)) <-> exists c, c ∈ cs /\ x ∈ c.
Proof.
  destruct (scc_exact (targets_from remaining) (trigger_nodes remaining)) as (cs & H1 & H2 & H3 & H4).
  - intros x y _ (e & He & Hu & _ & <-)%targets_trigger. apply elem_of_trigger_nodes. exists e.
    split; [by apply elem_of_remaining|by right].
  - exists (sort_by (less_on (fun c => Join c nul) String.ltb) cs). unfold stringSCC. rewrite H1. split_and!; [done| |].
    + intros c Hc%elem_of_sort_by. split; [by apply H2|by eapply NoDup_concat_part].
    + intros x. rewrite <- elem_of_trigger_nodes, H4. by setoid_rewrite elem_of_sort_by.
Qed.
End loops.

(** What the detector of event loops returns. *)
Lemma loops_detected edges :
  exists fs, UnboundedEventLoops edges = Some fs /\
    (forall e, (exists f, f ∈ fs /\ e ∈ Loop_Edges f) <->
       e ∈ edges /\ unbounded e = true /\ rtc (triggers edges) (Trigger_To e) (Trigger_From e)) /\
    forall f, f ∈ fs -> forall x, x ∈ Loop_Nodes f ->
      tc (triggers edges) x x /\
      forall y, y ∈ Loop_Nodes f <-> rtc (triggers edges) x y /\ rtc (triggers edges) y x.
Proof.
  destruct (trigger_components edges) as (cs & Hscc & Hclass & Hcover).
  unfold UnboundedEventLoops. rewrite Hscc. simpl. eexists. split; [done|].
  set (remaining := List.filter unbounded edges) in *.
  assert (forall f, f ∈ concat (loop_of remaining <$> cs) <->
    exists c, c ∈ cs /\ cyclic (targets_from remaining) c = true /\ f ∈ loop_of remaining c) as Hfound.
  { intros f. rewrite elem_of_concat. split.
    - intros (l & Hl & (c & -> & Hc)%list_elem_of_fmap). exists c. split_and!; [done| |done].
      unfold loop_of in Hl. destruct (cyclic _ c); [done|by apply elem_of_nil in Hl].
    - intros (c & Hc & _ & Hf). eexists. split; [exact Hf|]. apply list_elem_of_fmap. eauto. }
  assert (forall c f, cyclic (targets_from remaining) c = true -> f ∈ loop_of remaining c ->
    Loop_Nodes f = c /\ forall e, e ∈ Loop_Edges f <-> e ∈ remaining /\ Trigger_From e ∈ c /\ Trigger_To e ∈ c) as Hloop.
  { intros c f Hc. unfold loop_of. rewrite Hc. simpl. intros ->%list_elem_of_singleton. simpl. split; [done|].
    intros e. rewrite elem_of_sort_by, list_elem_of_In, filter_In, <- list_elem_of_In. unfold trigger_within.
    by rewrite andb_true_iff, !bool_decide_eq_true. }
  split.
  - intros e. split.
    + intros (f & (c & Hc & Hcyc & Hf)%Hfound & He). destruct (Hloop c f Hcyc Hf) as [_ Hes].
      apply Hes in He as ([Hin Hu]%elem_of_remaining & Hfrom & Hto). split_and!; [done|done|].
      destruct (Hclass c Hc) as [(_ & _ & Hcl) _]. apply triggers_reach. by apply (Hcl _ Hto).
    + intros (Hin & Hu & Hback). assert (e ∈ remaining) as Hr by by apply elem_of_remaining.
      assert (triggers edges (Trigger_From e) (Trigger_To e)) as Hstep by by exists e.
      destruct (proj1 (Hcover (Trigger_From e))) as (c & Hc & Hfrom); [exists e; auto|].
      destruct (Hclass c Hc) as [Hscc' Hnd].
      assert (cyclic (targets_from remaining) c = true) as Hcyc.
      { apply (cyclic_on_cycle _ c (Trigger_From e)); [done..|]. apply triggers_cycle. by eapply tc_rtc_r; [apply tc_once|]. }
      assert (exists f, f ∈ loop_of remaining c) as [f Hf] by (unfold loop_of; rewrite Hcyc; eexists; by left).
      exists f. split; [apply Hfound; by exists c|]. destruct (Hloop c f Hcyc Hf) as [_ Hes]. apply Hes.
      split_and!; [done|done|]. destruct Hscc' as (_ & _ & Hcl). apply (Hcl _ Hfrom).
      split; [|by apply triggers_reach]. apply triggers_reach. by apply rtc_once.
  - intros f (c & Hc & Hcyc & Hf)%Hfound x Hx. destruct (Hloop c f Hcyc Hf) as [Hns _]. rewrite Hns in *.
    destruct (Hclass c Hc) as [Hscc' Hnd]. split.
    + apply triggers_cycle. by apply (cyclic_on_cycle _ c x).
    + intros y. rewrite <- !triggers_reach. destruct Hscc' as (_ & _ & Hcl). by apply Hcl.
Qed.

(** [UnboundedEventLoops] returns, and the edges of its findings are exactly
    the trigger edges without a termination proof from whose target their source
    can be triggered again; every finding's nodes are one class of mutually
    triggering nodes that lie on a cycle. *)
Theorem event_loops_exact edges :
  exists fs, UnboundedEventLoops edges = Some fs /\
    (forall e, (exists f, f ∈ fs /\ e ∈ Loop_Edges f) <->
       e ∈ edges /\ unbounded e = true /\ rtc (triggers edges) (Trigger_To e) (Trigger_From e)) /\
    forall f, f ∈ fs -> forall x, x ∈ Loop_Nodes f ->
      tc (triggers edges) x x /\
      forall y, y ∈ Loop_Nodes f <-> rtc (triggers edges) x y /\ rtc (triggers edges) y x.
Proof. apply loops_detected. Qed.

(** A rule without issues names an operation, has a priority, and its additive
    or multiplicative stacking is bounded by a positive count or a cap. *)
Lemma stack_rule_bounded rule : ValidateStackRule rule = [] <->
  Operation rule ∈ ["Add"; "Multiply"; "Override"; "Max"; "Min"]%string /\ is_Some (Priority rule) /\
  (forall n, MaxStacks rule = Some n -> 0 < n) /\
  (Operation rule = "Add"%string \/ Operation rule = "Multiply"%string ->
     is_Some (MaxStacks rule) \/ HasPositiveCap rule = true).
Proof.
  unfold ValidateStackRule, not_positive. destruct rule as [op pr ms cap]. simpl.
  destruct (decide (op ∈ ["Add"; "Multiply"; "Override"; "Max"; "Min"]%string)) as [Hop|Hop];
    [rewrite (bool_decide_true (op ∈ _)) by done|rewrite (bool_decide_false (op ∈ _)) by done; simpl; naive_solver].
  simpl. destruct pr as [p|]; [rewrite (bool_decide_false (_ = None)) by done|simpl; split; [done|intros (_ & [? ?] & _); done]].
  simpl. destruct ms as [n|]; simpl.
  - destruct (n <=? 0) eqn:E; bool_to_prop.
    + split; [intros H; exfalso; revert H; by case_guard|]. intros (_ & _ & Hn & _). specialize (Hn n eq_refl). lia.
    + rewrite ?andb_false_r. simpl. split; [|done]. intros _. split_and!; [done|eauto| |eauto]. intros m [= <-]. lia.
  - destruct (bool_decide (op = "Add"%string)) eqn:E1, (bool_decide (op = "Multiply"%string)) eqn:E2, cap;
      bool_to_prop; simpl; split;
      first [ done
            | intros (_ & _ & _ & Hor); exfalso; destruct Hor as [[? ?]|?]; by auto
            | intros _; (split_and!; [done|eauto|done|]); intros [?|?]; try done; by right ].
Qed.
