(* ===== verification/ValidationWalk.v ===== *)
(** * internal/validation/references.go, formula_index.go, symbols.go, rules.go: what is read off entities

    The walks decode every payload entry ([Unmarshal]); entries that do not
    decode are skipped.  Where Go iterates over a map the association list gives
    the order of this run. *)
From Stdlib Require Import Ascii.
From S2P Require Import Prelude GoSort GoStrings GoCrypto GoJson GoFloat Domain FormulaDecimal DomainEntity.
From S2P Require Import FormulaRegistry FormulaAst FormulaLexer FormulaParser FormulaSemantic.
From S2P Require Import ValidationTypes ValidationGraph.
From S2P Require VersionDiff.
Open Scope Z_scope.

(** ** references.go *)
Record ReferenceTuple := mkRefTuple {
  Tuple_SourceID : ID; Tuple_FieldPath : string; Tuple_Ordinal : Z; Tuple_ExpectedKind : EntityKind; Tuple_TargetID : ID
}.
Record FormulaTuple := mkFormulaTuple {
  Binding_SourceID : ID; Binding_FieldPath : string; Binding_Ordinal : Z; Binding_OutputAttributeID : ID;
  Expression : string; Binding_Span : Span; Scopes : list string
}.
Record ReferenceFinding := mkRefFinding { Finding_Code : string; Finding_Tuple : ReferenceTuple }.

(** The function has the text of [domain.referenceFieldKind]. *)
Definition knownReferenceKind : string -> option EntityKind := referenceFieldKind.
Definition escapePointer : string -> string := VersionDiff.escapePointer.

Fixpoint selectors (n : Node) : list Node :=
  match n with
  | mkNode kind _ _ _ _ _ _ args =>
      (if decide (kind = NodeSelector) then [n] else []) ++ concat (map selectors args)
  end.
Definition selectorScopes (n : Node) : list string :=
  sort_strings (elements (list_to_set (Scope_ <$> selectors n) : gset string)).

Section walk.
Context `{UnicodeTables, ApdLib}.

(** The state the walk threads: the running ordinal and both lists. *)
Record WalkState := mkWalk { ordinal : Z; walk_references : list ReferenceTuple; walk_formulas : list FormulaTuple }.

Definition add_tuple (source : ID) (path : string) (kind : EntityKind) (st : WalkState) (id : ID) : WalkState :=
  mkWalk (ordinal st + 1) (walk_references st ++ [mkRefTuple source path (ordinal st) kind id]) (walk_formulas st).
Definition add_formula (st : WalkState) (f : FormulaTuple) : WalkState :=
  mkWalk (ordinal st) (walk_references st) (walk_formulas st ++ [f]).

(** [for i, x := range l] over the state. *)
Definition fold_index {A B : Type} (f : nat -> A -> B -> B) : nat -> list A -> B -> B :=
  fix go i l st := match l with [] => st | a :: l => go (S i) l (f i a st) end.

Definition slot (path : string) (i : nat) : string := (path +:+ "/" +:+ Itoa (Z.of_nat i))%string.
Definition appendKnownReferences (source : ID) (path : string) (value : json) (kind : EntityKind) (st : WalkState) : WalkState :=
  match value with
  | JString id => add_tuple source path kind st id
  | JArray ids =>
      fold_index (fun i raw st => match raw with JString id => add_tuple source (slot path i) kind st id | _ => st end) 0 ids st
  | _ => st
  end.

Definition text_field (object : list (string * json)) (key : string) : string :=
  match assoc object key with Some (JString s) => s | _ => EmptyString end.
(** A formula binding among the items of a list of values or costs. *)
Definition bind_formula (source : ID) (path : string) (i : nat) (child : json) (st : WalkState) : option WalkState :=
  match child with
  | JObject object =>
      if has_suffix "/attribute_values" path || has_suffix "/costs" path then
        let expression := text_field object "expression" in
        if bool_decide (expression = EmptyString) then Some st
        else
          parsed ← Parse expression None;
          Some (add_formula st
            (mkFormulaTuple source (slot path i +:+ "/expression") (Z.of_nat i) (text_field object "output_attribute_id")
               expression (mkSpan 0 (string_len expression)) (selectorScopes (Root (ParseResult_AST parsed)))))
      else Some st
  | _ => Some st
  end.

(** [None] is the parser running out of fuel, which it never does. *)
Fixpoint walkKnownPayload (source : ID) (path : string) (value : json) (st : WalkState) : option WalkState :=
  match value with
  | JObject current =>
      foldl (fun acc (f : string * (WalkState -> option WalkState)) => st ← acc; f.2 st) (Some st)
        (sort_fields (map (fun '(key, child) =>
           let childPath := (path +:+ "/" +:+ escapePointer key)%string in
           (key, fun st =>
             walkKnownPayload source childPath child
               match knownReferenceKind key with
               | Some kind => appendKnownReferences source childPath child kind st
               | None => st
               end)) current))
  | JArray current =>
      fold_index (fun i child acc =>
        st ← acc; st ← bind_formula source path i child st; walkKnownPayload source (slot path i) child st) 0 current (Some st)
  | _ => Some st
  end.

Definition walk_entry (source : ID) (st : WalkState) (entry : string * string) : option WalkState :=
  let '(key, raw) := entry in
  match Unmarshal raw with
  | None => Some st
  | Some value =>
      let path := ("/payload/" +:+ escapePointer key)%string in
      walkKnownPayload source path value
        match knownReferenceKind key with
        | Some kind => appendKnownReferences source path value kind st
        | None => st
        end
  end.
Definition walk_entity (acc : option WalkState) (e : Entity) : option WalkState :=
  st ← acc;
  let st := fold_index (fun i id st => add_tuple (Entity_ID e) (slot "/tag_ids" i) KindTag st id) 0 (TagIDs e) st in
  foldl (fun acc entry => st ← acc; walk_entry (Entity_ID e) st entry) (Some st) (entries (Payload e)).

Definition tuple_less : ReferenceTuple -> ReferenceTuple -> bool :=
  then_by Tuple_SourceID String.ltb (then_by Tuple_FieldPath String.ltb (less_on Tuple_Ordinal Z.ltb)).
Definition binding_less : FormulaTuple -> FormulaTuple -> bool :=
  then_by Binding_SourceID String.ltb (less_on Binding_FieldPath String.ltb).

Definition WalkKnownSchema (entities : list Entity) : option (list ReferenceTuple * list FormulaTuple) :=
  st ← foldl walk_entity (Some (mkWalk 0 [] [])) (sort_by (less_on Entity_ID String.ltb) entities);
  Some (sort_by tuple_less (walk_references st), sort_by binding_less (walk_formulas st)).

(** The map [byID]: a later entity replaces an earlier one. *)
Definition entity_map (entities : list Entity) : gmap ID Entity := foldl (fun m e => <[Entity_ID e := e]> m) ∅ entities.
Definition reference_code (byID : gmap ID Entity) (r : ReferenceTuple) : string :=
  match byID !! Tuple_TargetID r with
  | None => "REFERENCE_NOT_FOUND"
  | Some target =>
      if negb (bool_decide (Entity_Status target = StatusActive)) then "REFERENCE_TARGET_INACTIVE"
      else if negb (bool_decide (Entity_Kind target = Tuple_ExpectedKind r)) then "REFERENCE_KIND_MISMATCH"
      else ""
  end%string.
Definition ValidateReferences (entities : list Entity) (references : list ReferenceTuple) : list ReferenceFinding :=
  let byID := entity_map entities in
  sort_by (fun a b => tuple_less (Finding_Tuple a) (Finding_Tuple b))
    (concat (map (fun r => let code := reference_code byID r in
                           if bool_decide (code = EmptyString) then [] else [mkRefFinding code r]) references)).

(** ** formula_index.go *)
Record FormulaRead := mkRead { Read_Scope : string; Read_Symbol : string; Read_Span : Span }.
Record FormulaIndexRecord := mkIndexRecord {
  Index_SourceID : ID; Index_FieldPath : string; Index_OutputAttributeID : ID; FormulaHash : string; ASTHash : string;
  Index_AST : string; ASTVersion : string; Index_DSLVersion : string; RegistryVersion : string; Reads : list FormulaRead
}.
Record FormulaDiagnostic := mkFormulaDiagnostic { Diag_SourceID : ID; Diag_FieldPath : string; Diag_Code : string; Diag_Span : Span }.

Definition formulaReads (n : Node) : list FormulaRead :=
  sort_by (less_on (fun r => Read_Scope r +:+ Read_Symbol r)%string String.ltb)
    ((fun s => mkRead (Scope_ s) (Symbol s) (Node_Span s)) <$> selectors n).

Inductive compile_failure := ParserFuel | InferPanic (p : go_panic).

(** One binding: its record when it compiles, and its diagnostics.  [Hash] and
    [CanonicalBytes] cannot fail, so their error branches are dead. *)
Definition compile_binding (registry : Registry) (symbols : SymbolResolver) (b : FormulaTuple) :
    result (list FormulaIndexRecord * list FormulaDiagnostic) compile_failure :=
  match Parse (Expression b) (Some registry) with
  | None => Err ParserFuel
  | Some parsed =>
      let root := Root (ParseResult_AST parsed) in
      let syntax := (fun e => mkFormulaDiagnostic (Binding_SourceID b) (Binding_FieldPath b) "FORMULA_SYNTAX_INVALID" (SyntaxError_Span e)) <$> Errors parsed in
      match Infer registry symbols root with
      | Err p => Err (InferPanic p)
      | Ok (_, inference) =>
          let issues := (fun d => mkFormulaDiagnostic (Binding_SourceID b) (Binding_FieldPath b) (FormulaSemantic.Code d) (Diagnostic_Span d)) <$> inference in
          if negb (bool_decide (Errors parsed = [])) || negb (bool_decide (inference = []))
          then Ok ([], (syntax ++ issues)%list)
          else Ok ([mkIndexRecord (Binding_SourceID b) (Binding_FieldPath b) (Binding_OutputAttributeID b)
                      (sha256_hex (Expression b)) (AST_Hash (ParseResult_AST parsed)) (CanonicalBytes (ParseResult_AST parsed))
                      ASTSchemaVersion DSLVersion (ManifestHash registry) (formulaReads root)], [])
      end
  end.
Definition CompileFormulaBindings (bindings : list FormulaTuple) (registry : Registry) (symbols : SymbolResolver) :
    result (list FormulaIndexRecord * list FormulaDiagnostic) compile_failure :=
  let? outcomes := map_result (compile_binding registry symbols) bindings in
  Ok (sort_by (less_on (fun r => Index_SourceID r +:+ Index_FieldPath r)%string String.ltb) (concat outcomes.*1),
      sort_by (less_on (fun d => Diag_SourceID d +:+ Diag_FieldPath d +:+ Diag_Code d)%string String.ltb) (concat outcomes.*2)).

(** ** symbols.go *)
Definition payload_text (e : Entity) (key : string) : option string :=
  raw ← assoc (entries (Payload e)) key; Unmarshal_string raw.
Definition AttributeFormulaType (attribute : Entity) (registry : Registry) : option Type_ :=
  if negb (bool_decide (Entity_Kind attribute = KindAttribute)) || negb (bool_decide (Entity_Status attribute = StatusActive))
  then None
  else
    valueType ← payload_text attribute "value_type";
    if bool_decide (valueType = BooleanType) then Some boolean_type
    else
      baseUnit ← payload_text attribute "base_unit";
      dimension ← payload_text attribute "dimension";
      u ← Registry_Unit registry baseUnit;
      if negb (bool_decide (Unit_ValueType u = valueType)) || negb (bool_decide (Dimension u = dimension)) then None
      else Some (mkType (Unit_ValueType u) u).
Definition add_attribute (registry : Registry) (symbols : SymbolTable) (attribute : Entity) : SymbolTable :=
  match AttributeFormulaType attribute registry with
  | None => symbols
  | Some t =>
      foldl (fun m scope => <[(scope +:+ ":" +:+ Entity_ID attribute)%string := t]>
                              (<[(scope +:+ ":" +:+ Entity_Key attribute)%string := t]> m))
        symbols ["self"; "source"; "target"]%string
  end.
(** The table is asked first, then the fallback; a nil fallback resolves nothing. *)
Definition AttributeSymbols (entities : list Entity) (registry : Registry) (fallback : option SymbolResolver) : SymbolResolver :=
  let symbols := foldl (add_attribute registry) ∅ entities in
  fun scope symbol =>
    match SymbolTable_Resolve symbols scope symbol with
    | Some t => Some t
    | None => match fallback with Some f => f scope symbol | None => None end
    end.
Definition OutputAttributeFormulaType (attributes : list Entity) (id : ID) (registry : Registry) : option Type_ :=
  attribute ← List.find (fun a => bool_decide (Entity_ID a = id)) attributes; AttributeFormulaType attribute registry.
End walk.

(** ** rules.go *)
Record TriggerRuleRecord := mkTriggerRule { Trigger_EntityID : ID; Trigger_FieldPath : string; Trigger_Edge : TriggerEdge }.
Record StackRuleRecord := mkStackRuleRecord { Stack_EntityID : ID; Stack_FieldPath : string; Stack_Rule : StackRuleInput }.

(** An absent key is the nil interface. *)
Definition any_field (object : list (string * json)) (key : string) : json := default JNull (assoc object key).
Definition positive (value : json) : bool :=
  match value with
  | JString s => match ParseInt s with Some n => 0 <? n | None => false end
  | JNumber lit => match ParseFloat lit with Some f => float_positive f | None => false end
  | _ => false
  end.
Definition asInt (value : json) : option Z :=
  match value with
  | JString s => ParseInt s
  | JNumber lit => f ← ParseFloat lit; let n := int_of_float f in if float_is_int f n then Some n else None
  | _ => None
  end.
Definition stackRule (value : list (string * json)) : StackRuleInput :=
  mkStackRule (text_field value "operation") (asInt (any_field value "priority")) (asInt (any_field value "max_stacks"))
    (positive (any_field value "cap")).
Definition effect_triggers (entityID : ID) (path : string) (current : list (string * json)) : list TriggerRuleRecord :=
  match assoc current "effect_ids" with
  | Some (JArray effects) =>
      let bounded := positive (any_field current "termination_budget") in
      concat (map (fun effect => match effect with
                                 | JString target => [mkTriggerRule entityID path (mkTrigger (entityID +:+ path) target bounded false false)]
                                 | _ => []
                                 end) effects)
  | _ => []
  end.

Fixpoint walkRules (entityID : ID) (path : string) (value : json) : list TriggerRuleRecord * list StackRuleRecord :=
  match value with
  | JObject current =>
      let children := map (fun '(key, child) => walkRules entityID (path +:+ "/" +:+ escapePointer key)%string child) current in
      ((effect_triggers entityID path current ++ concat children.*1)%list,
       ((if has_suffix "/stack_rule" path then [mkStackRuleRecord entityID path (stackRule current)] else []) ++ concat children.*2)%list)
  | JArray current =>
      (concat_index (fun i child => (walkRules entityID (slot path i) child).1) 0 current,
       concat_index (fun i child => (walkRules entityID (slot path i) child).2) 0 current)
  | _ => ([], [])
  end.
Definition entity_rules (e : Entity) : list TriggerRuleRecord * list StackRuleRecord :=
  let found := map (fun '(key, raw) => match Unmarshal raw with
                                       | Some value => walkRules (Entity_ID e) ("/payload/" +:+ escapePointer key)%string value
                                       | None => ([], [])
                                       end) (entries (Payload e)) in
  (concat found.*1, concat found.*2).
Definition ExtractRuleSafety (entities : list Entity) : list TriggerRuleRecord * list StackRuleRecord :=
  let found := entity_rules <$> entities in (concat found.*1, concat found.*2).
