(* ===== verification/ValidationAnalyze.v ===== *)
(** * internal/validation/analyze.go and orchestrator.go: the deterministic analysis

    [AnalyzeV1] composes the schema checks, the reference and formula checks, the
    formula cycles, the event loops and the stack rules.  Its nil arguments and
    the cancellation of its context are left out: both only return early with
    an error. *)
From Stdlib Require Import Ascii.
From S2P Require Import Prelude GoSort GoStrings GoJson GoFloat Domain FormulaDecimal DomainEntity GraphSCC.
From S2P Require Import FormulaRegistry FormulaAst FormulaLexer FormulaParser FormulaSemantic.
From S2P Require Import ValidationTypes ValidationGraph ValidationWalk.
Open Scope Z_scope.

Inductive AnalyzeError :=
  | AnalyzeInput | AnalyzeVersions | AnalyzeIssue (e : string)
  | AnalyzeFuel | AnalyzePanic (p : go_panic).

Definition SchemaVersionV1 : string := "schema-v1".
Definition V1VersionManifest (registry : Registry) : ValidationVersions :=
  mkVersions SchemaVersionV1 DSLVersion (ManifestHash registry) (Version NumericPolicyV1).

Definition fieldPathPointer (path : string) : string :=
  if bool_decide (path = EmptyString) then "/"%string
  else ("/" +:+ replace_char "]" "" (replace_char "[" "/" path))%string.

Definition of_issue (r : result Issue string) : result Issue AnalyzeError :=
  match r with Ok i => Ok i | Err e => Err (AnalyzeIssue e) end.
Definition of_compile {A : Type} (r : result A compile_failure) : result A AnalyzeError :=
  match r with Ok a => Ok a | Err ParserFuel => Err AnalyzeFuel | Err (InferPanic p) => Err (AnalyzePanic p) end.
Definition of_fuel {A : Type} (o : option A) : result A AnalyzeError :=
  match o with Some a => Ok a | None => Err AnalyzeFuel end.

Definition self_node (r : FormulaIndexRecord) : FormulaNode :=
  mkFormulaNode (Index_SourceID r) (Index_FieldPath r) (Index_OutputAttributeID r).
(** The maps [attributeIDs] and [producer]. *)
Definition attribute_ids (entities : list Entity) : gmap string ID :=
  foldl (fun m e => if bool_decide (Entity_Kind e = KindAttribute) && bool_decide (Entity_Status e = StatusActive)
                    then <[Entity_ID e := Entity_ID e]> (<[Entity_Key e := Entity_ID e]> m) else m) ∅ entities.
Definition producer_key (source output : ID) : string := (source +:+ "|" +:+ output)%string.
Definition producers (records : list FormulaIndexRecord) : gmap string FormulaNode :=
  foldl (fun m r => <[producer_key (Index_SourceID r) (Index_OutputAttributeID r) := self_node r]> m) ∅ records.
Definition self_edges (attributeIDs : gmap string ID) (producer : gmap string FormulaNode) (r : FormulaIndexRecord) : list FormulaEdge :=
  concat (map (fun read =>
    if bool_decide (Read_Scope read = "self"%string) then
      match producer !! producer_key (Index_SourceID r) (default EmptyString (attributeIDs !! Read_Symbol read)) with
      | Some to => [mkFormulaEdge (self_node r) to]
      | None => []
      end
    else []) (Reads r)).
Definition formula_graph (entities : list Entity) (records : list FormulaIndexRecord) : list FormulaNode * list FormulaEdge :=
  (self_node <$> records,
   concat (map (self_edges (attribute_ids entities) (producers records)) records)).

(** The records of one loop: those whose edge the finding lists. *)
Definition loop_records (records : list TriggerRuleRecord) (loop : EventLoopFinding) : list (EventLoopFinding * TriggerRuleRecord) :=
  (fun r => (loop, r)) <$> List.filter (fun r => bool_decide (Trigger_Edge r ∈ Loop_Edges loop)) records.

Section analyze.
Context `{UnicodeTables, ApdLib, UuidLib}.

Section issues.
Context (versions : ValidationVersions).
Definition issue_of (severity : Severity) (code : string) (entityID : ID) (path : string) (span : option FormulaSpan)
    (ordinal : option Z) (params evidence : gmap string string) : result Issue AnalyzeError :=
  of_issue (NewIssue severity code entityID path span ordinal params evidence (Versions_Registry versions)).

Definition schema_issue (finding : Entity * FieldIssue) : result Issue AnalyzeError :=
  let '(entity, field) := finding in
  issue_of SeverityError "SCHEMA_INVALID" (Entity_ID entity) (fieldPathPointer (Issue_Path field)) None None
    {["message" := Issue_Message field]} ∅.
Definition reference_issue (finding : ReferenceFinding) : result Issue AnalyzeError :=
  let tuple := Finding_Tuple finding in
  issue_of SeverityBlock (Finding_Code finding) (Tuple_SourceID tuple) (Tuple_FieldPath tuple) None
    (Some (Tuple_Ordinal tuple)) ∅ {["target" := Tuple_TargetID tuple]}.
Definition diagnostic_issue (d : FormulaDiagnostic) : result Issue AnalyzeError :=
  let span := if StartByte (Diag_Span d) <? EndByte (Diag_Span d)
              then Some (mkFormulaSpan (StartByte (Diag_Span d)) (EndByte (Diag_Span d))) else None in
  issue_of SeverityBlock (Diag_Code d) (Diag_SourceID d) (Diag_FieldPath d) span None ∅ ∅.
Definition cycle_issue (c : CycleFinding) : result Issue AnalyzeError :=
  issue_of SeverityBlock "STATIC_FORMULA_CYCLE" (Node_EntityID (Cycle_Node c)) (Node_FieldPath (Cycle_Node c)) None None ∅
    {["cycle_hash" := CycleHash c]}.
Definition loop_issue (finding : EventLoopFinding * TriggerRuleRecord) : result Issue AnalyzeError :=
  let '(loop, record) := finding in
  issue_of SeverityBlock "EVENT_LOOP_UNBOUNDED" (Trigger_EntityID record) (Trigger_FieldPath record) None None ∅
    {["cycle_hash" := EvidenceHash loop]}.
Definition stack_issue (finding : StackRuleRecord * string) : result Issue AnalyzeError :=
  let '(record, code) := finding in
  issue_of SeverityBlock code (Stack_EntityID record) (Stack_FieldPath record) None None ∅ ∅.
End issues.

Definition schema_findings (schemas : SchemaRegistry) (entities : list Entity) : list (Entity * FieldIssue) :=
  concat (map (fun e => (fun field => (e, field)) <$> Registry_Validate schemas e) entities).
Definition stack_findings (records : list StackRuleRecord) : list (StackRuleRecord * string) :=
  concat (map (fun r => (fun code => (r, code)) <$> ValidateStackRule (Stack_Rule r)) records).

(** The part of the analysis every scope but BASE runs. *)
Definition local_analysis (registry : Registry) (versions : ValidationVersions) (entities : list Entity) :
    result (list FormulaIndexRecord * list Issue) AnalyzeError :=
  let? (references, bindings) := of_fuel (WalkKnownSchema entities) in
  let? reference_issues := map_result (reference_issue versions) (ValidateReferences entities references) in
  let? (records, diagnostics) :=
    of_compile (CompileFormulaBindings bindings registry (AttributeSymbols entities registry None)) in
  let? formula_issues := map_result (diagnostic_issue versions) diagnostics in
  Ok (records, (reference_issues ++ formula_issues)%list).

(** The part only FULL runs. *)
Definition global_analysis (versions : ValidationVersions) (entities : list Entity) (records : list FormulaIndexRecord) :
    result (list Issue) AnalyzeError :=
  let '(nodes, edges) := formula_graph entities records in
  let? cycles := of_fuel (StaticFormulaCycles nodes edges) in
  let? cycle_issues := map_result (cycle_issue versions) cycles in
  let '(triggerRecords, stackRecords) := ExtractRuleSafety entities in
  let? loops := of_fuel (UnboundedEventLoops (Trigger_Edge <$> triggerRecords)) in
  let? loop_issues := map_result (loop_issue versions) (concat (map (loop_records triggerRecords) loops)) in
  let? stack_issues := map_result (stack_issue versions) (stack_findings stackRecords) in
  Ok (cycle_issues ++ loop_issues ++ stack_issues)%list.

Definition AnalyzeV1 (schemas : SchemaRegistry) (registry : Registry) (versions : ValidationVersions)
    (entities : list Entity) (scope : Scope) : result (list Issue) AnalyzeError :=
  if negb (Scope_Valid scope) then Err AnalyzeInput
  else if negb (bool_decide (versions = V1VersionManifest registry)) then Err AnalyzeVersions
  else
    let? schema_issues := map_result (schema_issue versions) (schema_findings schemas entities) in
    if bool_decide (scope = ScopeBase) then Ok (CloneIssues schema_issues)
    else
      let? (records, local_issues) := local_analysis registry versions entities in
      if negb (bool_decide (scope = ScopeFull)) then Ok (CloneIssues (schema_issues ++ local_issues))
      else
        let? global_issues := global_analysis versions entities records in
        Ok (CloneIssues (schema_issues ++ local_issues ++ global_issues)).
End analyze.

(** ** orchestrator.go *)
Record Validator := mkValidator {
  Validator_Name : string; Validator_Phase : Scope; Validator_Code : string; Order : Z;
  Run : option (result (list Issue) string)
}.
Fixpoint check_validators (names codes : list string) (l : list Validator) : result unit string :=
  match l with
  | [] => Ok tt
  | v :: l =>
      if bool_decide (Validator_Name v = EmptyString) || bool_decide (Run v = None) || negb (Scope_Valid (Validator_Phase v))
      then Err "invalid validator"%string
      else if bool_decide (Validator_Name v ∈ names) then Err "duplicate validator"%string
      else if bool_decide (Validator_Code v ∈ codes) then Err "duplicate validator code"%string
      else check_validators (Validator_Name v :: names) (Validator_Code v :: codes) l
  end.
Definition NewOrchestrator (validators : list Validator) : result (list Validator) string :=
  let? _ := check_validators [] [] validators in
  Ok (sort_by (then_by Order Z.ltb (less_on Validator_Name String.ltb)) validators).
Fixpoint run_phase (scope : Scope) (validators : list Validator) : result (list Issue) string :=
  match validators with
  | [] => Ok []
  | v :: validators =>
      if negb (bool_decide (Validator_Phase v = scope)) then run_phase scope validators
      else match Run v with
      | Some (Ok found) => let? issues := run_phase scope validators in Ok (found ++ issues)%list
      | Some (Err e) => Err e
      | None => run_phase scope validators
      end
  end.
Definition Orchestrator_Run (validators : list Validator) (scope : Scope) : result (list Issue) string :=
  if negb (Scope_Valid scope) then Err "invalid validation scope"%string
  else let? issues := run_phase scope validators in Ok (SortIssues issues).

(** ** A clean FULL analysis *)
Section clean.
#[local] Opaque formula_graph ExtractRuleSafety.
Context `{UnicodeTables, ApdLib, UuidLib}.

(** A reference resolves to an active entity of the expected kind. *)
Definition resolved (entities : list Entity) (r : ReferenceTuple) : Prop :=
  exists target, entity_map entities !! Tuple_TargetID r = Some target /\
    Entity_Status target = StatusActive /\ Entity_Kind target = Tuple_ExpectedKind r.
(** A formula parses and has a type. *)
Definition compiles (registry : Registry) (symbols : SymbolResolver) (b : FormulaTuple) : Prop :=
  exists parsed t, Parse (Expression b) (Some registry) = Some parsed /\ Errors parsed = [] /\
    Infer registry symbols (Root (ParseResult_AST parsed)) = Ok (t, []).

Lemma map_result_nil {A B E : Type} (f : A -> result B E) l : map_result f l = Ok [] <-> l = [].
Proof.
  rewrite map_result_Ok. split; [|intros ->; constructor]. intros Hl. by apply Forall2_nil_inv_r in Hl.
Qed.
Lemma sort_by_nil {A : Type} (less : A -> A -> bool) l : sort_by less l = [] <-> l = [].
Proof.
  split; [|by intros ->]. intros Hs. pose proof (sort_by_perm less l) as Hp. rewrite Hs in Hp.
  by apply Permutation_nil in Hp.
Qed.
Lemma concat_nil {A : Type} (ls : list (list A)) : concat ls = [] <-> forall l, l ∈ ls -> l = [].
Proof.
  induction ls as [|l ls IH]; simpl; [split; [by intros _ ? ?%elem_of_nil|done]|].
  rewrite app_nil, IH. split.
  - intros [-> Hall] l'. rewrite elem_of_cons. intros [->|Hl']; auto.
  - intros Hall. split; [apply Hall; by left|]. intros l' Hl'. apply Hall. by right.
Qed.
Lemma concat_map_nil {A B : Type} (f : A -> list B) l : concat (map f l) = [] <-> forall a, a ∈ l -> f a = [].
Proof.
  rewrite concat_nil. split.
  - intros Hall a Ha. apply Hall. apply list_elem_of_fmap. eauto.
  - intros Hall b (a & -> & Ha)%list_elem_of_fmap. auto.
Qed.

Lemma of_fuel_Ok {A : Type} (o : option A) a : of_fuel o = Ok a <-> o = Some a.
Proof. destruct o; simpl; [split; intros [= ->]; done|done]. Qed.
Lemma fmap_nil_iff {A B : Type} (f : A -> B) (l : list A) : f <$> l = [] <-> l = [].
Proof. split; [by apply fmap_nil_inv|by intros ->]. Qed.

Lemma no_reference_findings entities refs :
  ValidateReferences entities refs = [] <-> forall r, r ∈ refs -> resolved entities r.
Proof.
  unfold ValidateReferences. rewrite sort_by_nil, concat_map_nil. apply forall_proper. intros r.
  apply forall_proper. intros _. unfold reference_code, resolved.
  destruct (entity_map entities !! Tuple_TargetID r) as [target|].
  - destruct (decide (Entity_Status target = StatusActive)) as [Hs|Hs];
      [rewrite (bool_decide_true (Entity_Status target = _)) by done|rewrite (bool_decide_false (Entity_Status target = _)) by done; simpl; naive_solver].
    destruct (decide (Entity_Kind target = Tuple_ExpectedKind r)) as [Hk|Hk];
      [rewrite (bool_decide_true (Entity_Kind target = _)) by done|rewrite (bool_decide_false (Entity_Kind target = _)) by done; simpl; naive_solver].
    simpl. naive_solver.
  - simpl. naive_solver.
Qed.

Lemma no_diagnostics bindings registry symbols :
  (exists records, CompileFormulaBindings bindings registry symbols = Ok (records, [])) <->
  forall b, b ∈ bindings -> compiles registry symbols b.
Proof.
  assert (forall b out, compile_binding registry symbols b = Ok out -> out.2 = [] <-> compiles registry symbols b) as Hone.
  { intros b out. unfold compile_binding, compiles. destruct (Parse (Expression b) (Some registry)) as [parsed|]; [|done].
    destruct (Infer registry symbols _) as [[t inference]|] eqn:Hi'; [|done].
    destruct (decide (Errors parsed = [])) as [He|He]; [rewrite (bool_decide_true (Errors parsed = [])) by done|
      rewrite (bool_decide_false (Errors parsed = [])) by done].
    - destruct (decide (inference = [])) as [->|Hi]; [rewrite (bool_decide_true ([] = [])) by done|
        rewrite (bool_decide_false (inference = [])) by done]; simpl; intros [= <-]; simpl.
      + split; [|done]. intros _. by exists parsed, t.
      + rewrite He. simpl. rewrite fmap_nil_iff. split; [done|]. intros (p & t' & [= <-] & _ & Ht).
        rewrite Hi' in Ht. by injection Ht.
    - simpl. intros [= <-]. simpl. rewrite app_nil, fmap_nil_iff. split; [by intros [? _]|].
      intros (p & t' & [= <-] & ? & _). done. }
  unfold CompileFormulaBindings. split.
  - intros (records & (outs & Hout & [= _ Hd])%result_bind_Ok) b Hb. apply map_result_Ok in Hout.
    apply sort_by_nil in Hd. apply list_elem_of_lookup in Hb as [i Hi].
    destruct (Forall2_lookup_l _ _ _ _ _ Hout Hi) as (out & Ho & Hc). apply (Hone b out Hc).
    rewrite concat_nil in Hd. apply Hd. apply list_elem_of_fmap. exists out. split; [done|]. by eapply list_elem_of_lookup_2.
  - intros Hall. assert (exists outs, map_result (compile_binding registry symbols) bindings = Ok outs /\ concat outs.*2 = []) as (outs & -> & Hd).
    { induction bindings as [|b bs IH]; [by exists []|]. destruct IH as (outs & Ho & Hd); [intros b' Hb'; apply Hall; by right|].
      destruct (Hall b) as (p & t & Hp & He & Hi); [by left|].
      destruct (compile_binding registry symbols b) as [out|] eqn:Hc.
      - exists (out :: outs). rewrite map_result_cons, Hc. simpl. rewrite Ho. split; [done|]. csimpl.
        rewrite (proj2 (Hone b out Hc)); [done|]. by exists p, t.
      - unfold compile_binding in Hc. rewrite Hp, Hi, He in Hc. done. }
    simpl. rewrite Hd. simpl. eauto.
Qed.

Lemma cycles_nil nodes edges : StaticFormulaCycles nodes edges = Some [] <-> forall k, ~ tc (reads edges) k k.
Proof.
  destruct (cycles_detected nodes edges) as (fs & -> & Hk & _). split.
  - intros [= ->] k Ht. apply Hk in Ht. by apply elem_of_nil in Ht.
  - intros Hno. destruct fs as [|f fs]; [done|]. exfalso. apply (Hno (key (Cycle_Node f))), Hk. by left.
Qed.

Lemma loops_nil records :
  (exists loops, UnboundedEventLoops (Trigger_Edge <$> records) = Some loops /\ concat (map (loop_records records) loops) = []) <->
  forall x, ~ tc (triggers (Trigger_Edge <$> records)) x x.
Proof.
  destruct (loops_detected (Trigger_Edge <$> records)) as (fs & -> & He & _).
  assert (forall f r, r ∈ loop_records records f <-> r.1 = f /\ r.2 ∈ records /\ Trigger_Edge r.2 ∈ Loop_Edges f) as Hrec.
  { intros f [f' r]. unfold loop_records. rewrite list_elem_of_fmap. simpl. split.
    - intros (r' & [= -> ->] & Hr). rewrite list_elem_of_In, filter_In, <- list_elem_of_In, bool_decide_eq_true in Hr. tauto.
    - intros (-> & Hr & Hin). exists r. split; [done|]. by rewrite list_elem_of_In, filter_In, <- list_elem_of_In, bool_decide_eq_true. }
  split.
  - intros (loops & [= <-] & Hnil) x Ht. rewrite concat_map_nil in Hnil.
    assert (exists y, triggers (Trigger_Edge <$> records) x y /\ rtc (triggers (Trigger_Edge <$> records)) y x)
      as (y & (e & Hin & Hu & <- & <-) & Hback) by (inversion Ht; subst; eexists; split; [done|apply rtc_refl|done|by apply tc_rtc]).
    destruct (proj2 (He e)) as (f & Hf & Hef); [done|]. apply list_elem_of_fmap in Hin as (r & -> & Hr).
    assert ((f, r) ∈ loop_records records f) as Hl by by apply Hrec. rewrite (Hnil f Hf) in Hl. by apply elem_of_nil in Hl.
  - intros Hno. exists fs. split; [done|]. apply concat_map_nil. intros f Hf.
    destruct (loop_records records f) as [|r l] eqn:E; [done|]. exfalso.
    assert (r ∈ loop_records records f) as (_ & Hr & Hin)%Hrec by (rewrite E; by left).
    destruct (proj1 (He (Trigger_Edge r.2))) as (Hmem & Hu & Hback); [by exists f|].
    apply (Hno (Trigger_From (Trigger_Edge r.2))). eapply tc_rtc_r; [|exact Hback]. apply tc_once. by exists (Trigger_Edge r.2).
Qed.

(** The V1 validators report errors and blocks only. *)
Definition severe (i : Issue) : Prop := Issue_Severity i = SeverityError \/ Issue_Severity i = SeverityBlock.
Lemma issue_of_severity versions severity code entityID path span ordinal params evidence i :
  issue_of versions severity code entityID path span ordinal params evidence = Ok i -> Issue_Severity i = severity.
Proof.
  unfold issue_of, NewIssue. destruct (CodeTextsV1 !! code) as [text|]; [|done].
  destruct (v1CodeDefinition !! code) as [expected|]; [|done]. destruct (negb _); [done|].
  destruct (Fingerprint _ _) as [f|]; [|done]. by intros [= <-].
Qed.
Lemma all_severe {A : Type} (f : A -> result Issue AnalyzeError) l out :
  (forall a i, f a = Ok i -> severe i) -> map_result f l = Ok out -> Forall severe out.
Proof. intros Hf Hout%map_result_Ok. induction Hout; constructor; eauto. Qed.
Lemma local_analysis_severe registry versions entities records issues :
  local_analysis registry versions entities = Ok (records, issues) -> Forall severe issues.
Proof.
  unfold local_analysis. intros ([refs bindings] & _ & Hl)%result_bind_Ok. apply result_bind_Ok in Hl as (ri & Hri & Hl).
  apply result_bind_Ok in Hl as ([recs ds] & _ & Hl). apply result_bind_Ok in Hl as (fi & Hfi & [= _ <-]).
  apply Forall_app. split.
  - eapply all_severe; [|exact Hri]. intros a i. right. by eapply issue_of_severity.
  - eapply all_severe; [|exact Hfi]. intros a i. right. by eapply issue_of_severity.
Qed.
Lemma global_analysis_severe versions entities records issues :
  global_analysis versions entities records = Ok issues -> Forall severe issues.
Proof.
  unfold global_analysis. destruct (formula_graph entities records) as [nodes edges]. intros (cs & _ & Hg)%result_bind_Ok.
  apply result_bind_Ok in Hg as (ci & Hci & Hg). destruct (ExtractRuleSafety entities) as [trs srs].
  apply result_bind_Ok in Hg as (ls & _ & Hg). apply result_bind_Ok in Hg as (li & Hli & Hg).
  apply result_bind_Ok in Hg as (si & Hsi & [= <-]). rewrite !Forall_app. split_and!.
  - eapply all_severe; [|exact Hci]. intros a i. right. by eapply issue_of_severity.
  - eapply all_severe; [|exact Hli]. intros [a b] i. right. by eapply issue_of_severity.
  - eapply all_severe; [|exact Hsi]. intros [a b] i. right. by eapply issue_of_severity.
Qed.
Lemma AnalyzeV1_severe schemas registry versions entities scope issues :
  AnalyzeV1 schemas registry versions entities scope = Ok issues -> Forall severe issues.
Proof.
  unfold AnalyzeV1. destruct (negb _); [done|]. destruct (negb _); [done|]. intros (si & Hsi & Hr)%result_bind_Ok.
  assert (Forall severe si) as Hs by (eapply all_severe; [|exact Hsi]; intros [e f] i; left; by eapply issue_of_severity).
  unfold CloneIssues, SortIssues in Hr. destruct (bool_decide _).
  { injection Hr as <-. by rewrite sort_by_perm. }
  apply result_bind_Ok in Hr as ([records li] & Hl & Hr). pose proof (local_analysis_severe _ _ _ _ _ Hl).
  destruct (negb _). { injection Hr as <-. rewrite sort_by_perm. by apply Forall_app. }
  apply result_bind_Ok in Hr as (gi & Hg & [= <-]). pose proof (global_analysis_severe _ _ _ _ Hg).
  rewrite sort_by_perm, !Forall_app. done.
Qed.
(** So an analysis whose summary counts no error and no block is empty. *)
Lemma clean_summary issues : Forall severe issues ->
  issues = [] <-> ~ (0 < Summary_Error (Summarize issues)) /\ ~ (0 < Summary_Block (Summarize issues)).
Proof.
  intros Hall. rewrite Summarize_counts. cbn. rewrite !severities_pos. split; [intros ->; split; by intros (i & ?%elem_of_nil & _)|].
  intros [He Hb]. destruct issues as [|i l]; [done|]. apply Forall_cons_1 in Hall as [[Hi|Hi] _]; exfalso.
  - apply He. exists i. split; [by left|done].
  - apply Hb. exists i. split; [by left|done].
Qed.

(** C31: A FULL analysis finds nothing exactly when its version is current, every
    entity satisfies its schema, every reference resolves to an active entity of
    the expected kind, every formula parses and has a type, no formula reads
    itself through others, the event edges the validator extracts (from the place of
    a rule, owner and path, to the bare identity of an effect) have no cycle without
    a termination proof, and every stack rule is bounded. *)
Theorem clean_analysis_is_sound schemas registry versions entities :
  AnalyzeV1 schemas registry versions entities ScopeFull = Ok [] <->
  versions = V1VersionManifest registry /\
  (forall e, e ∈ entities -> Registry_Validate schemas e = []) /\
  exists references bindings records,
    WalkKnownSchema entities = Some (references, bindings) /\
    (forall r, r ∈ references -> resolved entities r) /\
    (forall b, b ∈ bindings -> compiles registry (AttributeSymbols entities registry None) b) /\
    CompileFormulaBindings bindings registry (AttributeSymbols entities registry None) = Ok (records, []) /\
    (forall k, ~ tc (reads (formula_graph entities records).2) k k) /\
    (forall x, ~ tc (triggers (Trigger_Edge <$> (ExtractRuleSafety entities).1)) x x) /\
    (forall s, s ∈ (ExtractRuleSafety entities).2 -> ValidateStackRule (Stack_Rule s) = []).
Proof.
  assert (forall e, (fun field => (e, field)) <$> Registry_Validate schemas e = [] <-> Registry_Validate schemas e = []) as Hfm
    by (intros e; apply fmap_nil_iff).
  unfold AnalyzeV1. simpl. pose proof (loops_nil (ExtractRuleSafety entities).1) as Hloops. split.
  - case_guard as Hv; [done|]. bool_to_prop. intros (si & Hsi & Hr)%result_bind_Ok.
    apply result_bind_Ok in Hr as ([records li] & Hl & Hr). apply result_bind_Ok in Hr as (gi & Hg & [= Hnil]).
    apply sort_by_nil in Hnil. apply app_nil in Hnil as [-> [-> ->]%app_nil].
    apply map_result_nil in Hsi. unfold schema_findings in Hsi. rewrite concat_map_nil in Hsi.
    split; [done|]. split; [intros e He; apply Hfm, Hsi, He|].
    unfold local_analysis in Hl. destruct (WalkKnownSchema entities) as [[refs bindings]|]; [|done]. simpl in Hl.
    apply result_bind_Ok in Hl as (ri & Hri & Hl). apply result_bind_Ok in Hl as ([recs ds] & Hc & Hl).
    apply result_bind_Ok in Hl as (fi & Hfi & [= <- Hnil]). apply app_nil in Hnil as [-> ->].
    apply map_result_nil in Hri, Hfi. subst ds.
    assert (CompileFormulaBindings bindings registry (AttributeSymbols entities registry None) = Ok (recs, [])) as Hc'.
    { destruct (CompileFormulaBindings _ _ _) as [o|[]]; simpl in Hc; congruence. }
    exists refs, bindings, recs. split_and!; [done|by apply no_reference_findings|apply no_diagnostics; eauto|done|..];
      unfold global_analysis in Hg; destruct (formula_graph entities recs) as [nodes edges]; simpl;
      apply result_bind_Ok in Hg as (cs & Hcs & Hg); apply result_bind_Ok in Hg as (ci & Hci & Hg);
      destruct (ExtractRuleSafety entities) as [trs srs]; simpl;
      apply result_bind_Ok in Hg as (ls & Hls & Hg); apply result_bind_Ok in Hg as (loi & Hloi & Hg);
      apply result_bind_Ok in Hg as (sti & Hsti & [= Hnil]); apply app_nil in Hnil as [-> [-> ->]%app_nil];
      apply map_result_nil in Hci, Hloi, Hsti; subst cs.
    + by apply (cycles_nil nodes), of_fuel_Ok.
    + apply (proj1 Hloops). exists ls. split; [by apply of_fuel_Ok|done].
    + intros s Hs. unfold stack_findings in Hsti. rewrite concat_map_nil in Hsti. apply Hsti in Hs. by apply fmap_nil_inv in Hs.
  - intros (-> & Hsch & refs & bindings & records & Hw & Hres & _ & Hc & Hcyc & (loops & Hls & Hlr)%Hloops & Hst).
    rewrite bool_decide_true by done. simpl. unfold schema_findings.
    rewrite (proj2 (concat_map_nil _ _)) by (intros e He; apply Hfm; auto). simpl.
    unfold local_analysis. rewrite Hw. simpl. rewrite (proj2 (no_reference_findings entities refs) Hres). simpl.
    rewrite Hc. simpl. unfold global_analysis.
    destruct (formula_graph entities records) as [nodes edges]. simpl in Hcyc.
    rewrite (proj2 (cycles_nil nodes edges) Hcyc). simpl.
    destruct (ExtractRuleSafety entities) as [trs srs]. simpl in *. rewrite Hls. simpl. rewrite Hlr. simpl.
    unfold stack_findings. rewrite (proj2 (concat_map_nil _ _)) by (intros s Hs; by rewrite (Hst s Hs)). done.
Qed.
End clean.

Module AnalyzeExamples.
Local Existing Instance canonical_uuid.
Local Existing Instance latin1_tables.
Local Existing Instance integer_apd.
#[local] Instance text_floats : FloatText := {| float_text := Ok |}.

Definition schemas : SchemaRegistry := mkSchemaRegistry ∅ [].
Definition registry : Registry := mkRegistry ∅ ∅ "formula-v1".
Definition versions : ValidationVersions := V1VersionManifest registry.
Definition skill_ids : string * string := ("skill_ids", "[" +:+ quote_mark +:+ "x" +:+ quote_mark +:+ "]")%string.
Definition item_ids : string * string := ("item_ids", "[" +:+ quote_mark +:+ "y" +:+ quote_mark +:+ "]")%string.
Definition character (payload : list (string * string)) : Entity :=
  mkEntity "01890a5d-ac96-774b-bcce-b302099a8051" KindCharacter "hero" "Hero" "" (Some []) "" StatusActive 1 (Some payload) (Some []) 1 1 1.
Definition analysed (payload : list (string * string)) : result (list Issue) AnalyzeError :=
  AnalyzeV1 schemas registry versions [character payload] ScopeLocal.
Definition source : Source := mkSource SourceWorking "" "working".

(** The issues of an analysis depend on the order in which Go iterates over
    the payload map: an analysis numbers the references in that order, the number
    is part of an issue's fingerprint, and so the same entity under two iteration
    orders gets issues with different fingerprints and a different result hash. *)
Theorem issue_identity_depends_on_map_order :
  exists payload payload' issues issues',
    payload ≡ₚ payload' /\ NoDup payload.*1 /\
    analysed payload = Ok issues /\ analysed payload' = Ok issues' /\
    ~ (Issue_Fingerprint <$> issues ≡ₚ Issue_Fingerprint <$> issues') /\
    ResultHash source ScopeLocal versions issues <> ResultHash source ScopeLocal versions issues'.
Proof.
  exists [skill_ids; item_ids], [item_ids; skill_ids].
  destruct (analysed [skill_ids; item_ids]) as [issues|] eqn:H; [|by vm_compute in H].
  destruct (analysed [item_ids; skill_ids]) as [issues'|] eqn:H'; [|by vm_compute in H'].
  exists issues, issues'. split_and!; [by apply perm_swap|compute_decide|done|done|..].
  - intros Hp. assert ((Issue_Fingerprint <$> issues) !! 3%nat = Some "28ef4a3393f815412c2fc70e914d6881ab9f4025f83d61904447f87abf6827a3"%string) as Hl
      by (vm_compute in H; injection H as <-; reflexivity).
    apply list_elem_of_lookup_2 in Hl. rewrite Hp in Hl. vm_compute in H'. injection H' as <-.
    revert Hl. apply (bool_decide_eq_false_1 _). vm_compute. reflexivity.
  - vm_compute in H, H'. injection H as <-. injection H' as <-. vm_compute. discriminate.
Qed.
End AnalyzeExamples.
