(* ===== verification/EntityStore.v ===== *)
(** * internal/storage/sqlite: the working configuration and its immutable revisions

    store.go (entities, revisions, metadata), local_validation.go, checkpoint.go,
    validation_source.go, validation_runner.go, validation_reports.go,
    derived_indexes.go and revision_metadata.go over the tables of
    migrations/0001, 0002 and 0003.

    A transaction is a function of the state that returns the new state or an
    error; on an error nothing is committed.  Rows are keyed by their primary key,
    an insertion that breaks a constraint is [ErrStorage] or the error the code
    makes of it, and what other writers commit between two steps of one operation
    is an argument ([others]).  A blob is the entity its text decodes to
    ([stored]; JsonRoundTrip.canonical_roundtrip shows that the text determines
    it).  The I/O errors of the driver, the fault injection of the tests and the
    post-commit observer are left out. *)
From Stdlib Require Import Ascii.
From S2P Require Import Prelude GoSort GoStrings GoCrypto GoJson GoFloat Domain JobStore FormulaDecimal DomainEntity.
From S2P Require Import FormulaRegistry FormulaAst FormulaLexer FormulaParser FormulaSemantic VersionGate.
From S2P Require Import ValidationTypes ValidationWalk ValidationAnalyze.
Open Scope Z_scope.

(** ** Tables *)
Record WorkingRow := mkWorking {
  Row_Kind : EntityKind; Row_Key : string; Row_SchemaVersion : Z; Row_Version : Z; Row_Blob : string;
  Row_Status : EntityStatus; Row_CreatedAt : Time; Row_UpdatedAt : Time
}.
(** [revision_entities] *)
Record ManifestRow := mkManifestRow { Member_Version : Z; Member_Status : EntityStatus; Member_Blob : string }.
#[global] Instance ManifestRow_eq_dec : EqDecision ManifestRow.
Proof. solve_decision. Defined.
Record RevisionRow := mkRevisionRow { Revision_Display : Z; Revision_ConfigHash : string; Revision_CreatedAt : Time }.
Record MetadataRow := mkMetadataRow {
  Meta_Name : string; Meta_Description : string; Meta_Parent : ID; Meta_SourceRevision : ID; Meta_SourceRelease : ID;
  Meta_Manifest : VersionManifest; Meta_ManifestHash : string; Meta_CreatedAt : Time
}.
Record Derived := mkDerived { Derived_Formulas : list FormulaIndexRecord; Derived_References : list ReferenceTuple }.
Record ValidationReport := mkReport { Report_Run : ValidationRun; Report_Issues : list Issue }.

Record EntityStore := mkEntityStore {
  blobs : gmap string Entity;
  working : gmap ID WorkingRow;
  entity_references : gmap ID (list Reference);
  entity_tags : gmap ID (list TagIndex);
  config_revisions : gmap ID RevisionRow;
  revision_entities : gmap ID (list (ID * ManifestRow));
  revision_metadata : gmap ID MetadataRow;
  derived : gmap ID Derived;
  validation_runs : gmap ID ValidationReport
}.
Definition empty_entities : EntityStore := mkEntityStore ∅ ∅ ∅ ∅ ∅ ∅ ∅ ∅ ∅.

Inductive StoreError :=
  | ErrNotFound | ErrRevisionConflict | ErrDuplicateKey | ErrInvalidCheckpoint | ErrLocalPreflightChanged
  | ErrReleaseNotFound | ErrDecisionStale | ErrDecisionValidation
  | ReferencedError (references : list Reference) | ValidationError (issues : list FieldIssue)
  | ErrAdmission (e : string) | ErrStorage (constraint : string) | ErrOther (e : string) | ErrAnalysis (e : AnalyzeError).

Definition of_error {A : Type} (r : result A string) : result A StoreError :=
  match r with Ok a => Ok a | Err e => Err (ErrOther e) end.
Definition of_analysis {A : Type} (r : result A AnalyzeError) : result A StoreError :=
  match r with Ok a => Ok a | Err e => Err (ErrAnalysis e) end.
Definition or_not_found {A : Type} (o : option A) : result A StoreError :=
  match o with Some a => Ok a | None => Err ErrNotFound end.
Definition guard (b : bool) (e : StoreError) : result unit StoreError := if b then Ok tt else Err e.

Definition EntityStatus_text (s : EntityStatus) : string :=
  match s with StatusActive => "active" | StatusArchived => "archived" | StatusOther s => s end.
Definition status_allowed (s : EntityStatus) : bool :=
  match s with StatusActive | StatusArchived => true | StatusOther _ => false end.

(** What the store is opened with, and the contributors registered with it. *)
Record Service := mkService {
  schemas : SchemaRegistry; formulas : FormulaRegistry.Registry;
  graphVersion : VersionEntry; simulationVersion : VersionEntry; riskVersion : VersionEntry;
  admission : result unit string
}.

Definition unavailable_entry (capability : string) : VersionEntry := mkVersionEntry capability "unavailable" "" Unregistered.
Definition defaultGraphVersionEntry : VersionEntry := unavailable_entry "graph-projector".
Definition defaultSimulationVersionEntry : VersionEntry := unavailable_entry "simulation-engine".
Definition defaultRiskVersionEntry : VersionEntry := unavailable_entry "risk".

(** [RegisterGraphVersionContributor] and its two siblings: the check they share. *)
Definition version_contributor `{UnicodeTables} (capability : string) (contributor : option VersionEntry) : result VersionEntry string :=
  match contributor with
  | Some entry =>
      if negb (bool_decide (Entry_CapabilityID entry = capability)) || negb (VersionEntry_Valid entry)
      then Err "invalid version contributor"%string else Ok entry
  | None => Err "invalid version contributor"%string
  end.
Definition RegisterGraphVersionContributor `{UnicodeTables} (s : Service) (c : option VersionEntry) : result Service string :=
  let? entry := version_contributor "graph-projector" c in
  Ok (mkService (schemas s) (formulas s) entry (simulationVersion s) (riskVersion s) (admission s)).
Definition RegisterSimulationVersionContributor `{UnicodeTables} (s : Service) (c : option VersionEntry) : result Service string :=
  let? entry := version_contributor "simulation-engine" c in
  Ok (mkService (schemas s) (formulas s) (graphVersion s) entry (riskVersion s) (admission s)).
Definition RegisterRiskVersionContributor `{UnicodeTables} (s : Service) (c : option VersionEntry) : result Service string :=
  let? entry := version_contributor "risk" c in
  Ok (mkService (schemas s) (formulas s) (graphVersion s) (simulationVersion s) entry (admission s)).

(** ** Blobs: internal/domain/canonical.go on an entity *)
(** A string through [json.Marshal] and [json.Unmarshal]. *)
Definition coerce (s : string) : string := foldr (fun '(r, _) t => encode_rune r +:+ t) EmptyString (runes s).

Section store.
Context `{UnicodeTables, ApdLib, UuidLib, FloatText, TimeText}.

Definition raw_json (m : raw_map) : result json string :=
  match m with
  | None => Ok JNull
  | Some l =>
      let? fields := map_result (fun '(k, raw) =>
        match Unmarshal raw with Some v => Ok (coerce k, v) | None => Err "invalid JSON"%string end) (sort_fields l) in
      Ok (JObject (foldl (fun acc '(k, v) => put acc k v) [] fields))
  end.
Definition text_member (key value : string) : list (string * json) := [(key, JString (coerce value))].
Definition omitempty_member (key value : string) : list (string * json) :=
  if bool_decide (value = EmptyString) then [] else text_member key value.
Definition entity_json (e : Entity) : result json string :=
  let? payload := raw_json (Payload e) in
  let? extensions := raw_json (Extensions e) in
  Ok (JObject (
    text_member "id" (Entity_ID e) ++ text_member "kind" (EntityKind_text (Entity_Kind e)) ++
    text_member "key" (Entity_Key e) ++ text_member "name" (Entity_Name e) ++
    omitempty_member "description" (Entity_Description e) ++
    [("tag_ids"%string, match Entity_TagIDs e with Some l => JArray (JString ∘ coerce <$> l) | None => JNull end)] ++
    omitempty_member "balance_group" (BalanceGroup e) ++ text_member "status" (EntityStatus_text (Entity_Status e)) ++
    [("schema_version"%string, JNumber (Itoa (SchemaVersion e))); ("payload"%string, payload);
     ("extensions"%string, extensions); ("entity_version"%string, JNumber (Itoa (EntityVersion e)))] ++
    text_member "created_at" (rfc3339nano (Entity_CreatedAt e)) ++ text_member "updated_at" (rfc3339nano (Entity_UpdatedAt e)))%list).

(** The entity the canonical text decodes to: raw values in canonical text. *)
Definition stored_raws (m : raw_map) : result raw_map string :=
  match m with
  | None => Ok None
  | Some l =>
      let? fields := map_result (fun '(k, raw) =>
        match Unmarshal raw with
        | Some v => let? t := CanonicalJSON v in Ok (coerce k, t)
        | None => Err "invalid JSON"%string
        end) (sort_fields l) in
      Ok (Some (foldl (fun acc '(k, t) => put_raw acc k t) [] fields))
  end.
Definition stored (e : Entity) : result Entity string :=
  let? payload := stored_raws (Payload e) in
  let? extensions := stored_raws (Extensions e) in
  Ok (mkEntity (coerce (Entity_ID e)) (Entity_Kind e) (coerce (Entity_Key e)) (coerce (Entity_Name e)) (coerce (Entity_Description e))
        ((fun l : list ID => coerce <$> l) <$> Entity_TagIDs e) (coerce (BalanceGroup e)) (Entity_Status e) (SchemaVersion e)
        payload extensions (EntityVersion e) (Entity_CreatedAt e) (Entity_UpdatedAt e)).
(** The hash and the blob. *)
Definition BlobHash (e : Entity) : result (string * Entity) string :=
  let? v := entity_json e in
  let? t := CanonicalJSON v in
  let? b := stored e in
  Ok (sha256_hex t, b).

(** ** Reading the working set *)
Definition working_rows (st : EntityStore) : list (ID * WorkingRow) :=
  sort_by (less_on fst String.ltb) (map_to_list (working st)).
Definition member_of (r : WorkingRow) : ManifestRow := mkManifestRow (Row_Version r) (Row_Status r) (Row_Blob r).
Definition working_manifest (st : EntityStore) : list (ID * ManifestRow) := (fun '(id, r) => (id, member_of r)) <$> working_rows st.
Definition manifest_line (entry : ID * ManifestRow) : string :=
  let '(id, m) := entry in
  (id +:+ ":" +:+ Itoa (Member_Version m) +:+ ":" +:+ EntityStatus_text (Member_Status m) +:+ ":" +:+ Member_Blob m +:+ newline)%string.
Definition manifest_hash (m : list (ID * ManifestRow)) : string := sha256_hex (Join (manifest_line <$> m) "").
Definition workingManifestHashTx (st : EntityStore) : string := manifest_hash (working_manifest st).

(** [JOIN entity_blobs b ON b.hash = ...] *)
Definition materialize (st : EntityStore) (m : list (ID * ManifestRow)) : list Entity :=
  omap (fun '(_, r) => blobs st !! Member_Blob r) m.
Definition materializeWorkingEntitiesTx (st : EntityStore) : list Entity := materialize st (working_manifest st).
Definition materializeRevisionEntitiesTx (st : EntityStore) (revisionID : ID) : list Entity :=
  materialize st (default [] (revision_entities st !! revisionID)).

Definition getTx (st : EntityStore) (kind : EntityKind) (id : ID) : result Entity StoreError :=
  match working st !! id with
  | Some row => if bool_decide (Row_Kind row = kind) then or_not_found (blobs st !! Row_Blob row) else Err ErrNotFound
  | None => Err ErrNotFound
  end.
Definition Get : EntityStore -> EntityKind -> ID -> result Entity StoreError := getTx.

(** The rows of the join, which the manifest text and the entities are read off. *)
Definition joined_manifest (st : EntityStore) (m : list (ID * ManifestRow)) : list (ID * ManifestRow) :=
  List.filter (fun '(_, r) => bool_decide (is_Some (blobs st !! Member_Blob r))) m.
Definition MaterializeValidationSource (st : EntityStore) (kind : SourceKind) (revisionID : ID) :
    result (Source * list Entity) StoreError :=
  match kind with
  | SourceWorking =>
      let m := joined_manifest st (working_manifest st) in
      let? source := of_error (NewSource SourceWorking "" (manifest_hash m)) in
      Ok (source, materialize st m)
  | SourceRevision =>
      if negb (ID_Valid revisionID) then Err (ErrOther "invalid revision id") else
      let? revision := or_not_found (config_revisions st !! revisionID) in
      let? source := of_error (NewSource SourceRevision revisionID (Revision_ConfigHash revision)) in
      Ok (source, materializeRevisionEntitiesTx st revisionID)
  | SourceUnknown _ => Err (ErrOther "invalid source kind")
  end.

(** ** local_validation.go *)
Record localDependency := mkDependency {
  Dependency_ID : ID; Dependency_Row : option (Z * EntityKind * EntityStatus)
}.
Record localPreflight := mkPreflight { workingHash : string; dependencies : list localDependency }.

(** The targets of the references, each once, in the order of the first. *)
Definition targets (references : list ReferenceTuple) : list ID :=
  foldl (fun seen r => if bool_decide (Tuple_TargetID r ∈ seen) then seen else (seen ++ [Tuple_TargetID r])%list) [] references.
Definition dependency_of (byID : gmap ID Entity) (id : ID) : localDependency :=
  mkDependency id ((fun e => (EntityVersion e, Entity_Kind e, Entity_Status e)) <$> byID !! id).
Definition preflightLocal (svc : Service) (st : EntityStore) (e : Entity) : result localPreflight StoreError :=
  let? (source, snapshot) := MaterializeValidationSource st SourceWorking "" in
  let? (references, bindings) := of_analysis (of_fuel (WalkKnownSchema [e])) in
  let? _ := of_analysis (of_compile (CompileFormulaBindings bindings (formulas svc) (AttributeSymbols snapshot (formulas svc) None))) in
  Ok (mkPreflight (Source_InputHash source) (dependency_of (entity_map snapshot) <$> targets references)).
Definition recheckLocalPreflightTx (st : EntityStore) (p : localPreflight) : bool :=
  bool_decide (workingManifestHashTx st = workingHash p) &&
  forallb (fun d => bool_decide (Dependency_Row d =
    (fun row => (Row_Version row, Row_Kind row, Row_Status row)) <$> working st !! Dependency_ID d)) (dependencies p).

Definition currentValidationVersionManifest (svc : Service) : ValidationVersions := V1VersionManifest (formulas svc).

(** ** validation_reports.go *)
Definition issue_row_ok (i : Issue) : bool :=
  (string_len (Issue_Fingerprint i) =? 64) && Severity_Valid (Issue_Severity i) &&
  option_forallb (fun s => (0 <=? Span_StartByte s) && (Span_StartByte s <? Span_EndByte s)) (Issue_Span i) &&
  option_forallb (fun n => 0 <=? n) (Issue_Ordinal i).
Definition run_row_ok (st : EntityStore) (run : ValidationRun) : bool :=
  bool_decide (validation_runs st !! Run_ID run = None) &&
  (string_len (Source_InputHash (Run_Source run)) =? 64) && (string_len (Run_ResultHash run) =? 64) && Scope_Valid (Run_Scope run) &&
  match Source_Kind (Run_Source run) with
  | SourceWorking => bool_decide (Source_RevisionID (Run_Source run) = EmptyString)
  | SourceRevision => bool_decide (is_Some (config_revisions st !! Source_RevisionID (Run_Source run)))
  | SourceUnknown _ => false
  end.
Definition set_runs (st : EntityStore) (m : gmap ID ValidationReport) : EntityStore :=
  mkEntityStore (blobs st) (working st) (entity_references st) (entity_tags st) (config_revisions st) (revision_entities st)
    (revision_metadata st) (derived st) m.
Definition insertCompletedValidationRunTx (st : EntityStore) (run : ValidationRun) (issues : list Issue) : result EntityStore StoreError :=
  let? _ := guard (run_row_ok st run) (ErrStorage "validation_runs") in
  let? _ := guard (forallb issue_row_ok issues) (ErrStorage "validation_issues") in
  Ok (set_runs st (<[Run_ID run := mkReport run (SortIssues issues)]> (validation_runs st))).
Definition InsertCompletedValidationRun (st : EntityStore) (run : ValidationRun) (issues : list Issue) : result EntityStore StoreError :=
  let? _ := guard (bool_decide (Run_Status run = RunCompleted)) (ErrOther "only completed runs may be inserted") in
  let? _ := guard (forallb Issue_Valid issues) (ErrOther "invalid validation issue") in
  let? _ := of_error (ValidationVersions_Hash (Run_Versions run)) in
  insertCompletedValidationRunTx st run issues.
Definition GetValidationReport (st : EntityStore) (id : ID) : result ValidationReport StoreError := or_not_found (validation_runs st !! id).

(** [ORDER BY created_at DESC, id DESC LIMIT 1] over texts. *)
Definition newest_run : list (ID * ValidationReport) -> option (ID * ValidationReport) :=
  fun l => last (sort_by (then_by (fun r => rfc3339nano (Run_CreatedAt (Report_Run r.2))) String.ltb (less_on fst String.ltb)) l).
Definition full_run_of (revisionID : ID) (configHash : string) (versions : ValidationVersions) (r : ID * ValidationReport) : bool :=
  let run := Report_Run r.2 in
  bool_decide (Source_Kind (Run_Source run) = SourceRevision) && bool_decide (Source_RevisionID (Run_Source run) = revisionID) &&
  bool_decide (Source_InputHash (Run_Source run) = configHash) && bool_decide (Run_Scope run = ScopeFull) &&
  bool_decide (ValidationVersions_Hash (Run_Versions run) = ValidationVersions_Hash versions) &&
  bool_decide (Run_Status run = RunCompleted).
Definition FindMatchingFullRun (st : EntityStore) : FullRunFinder := fun revisionID configHash versions =>
  let? _ := ValidationVersions_Hash versions in
  Ok ((fun r => Report_Run r.2) <$> newest_run (List.filter (full_run_of revisionID configHash versions) (map_to_list (validation_runs st)))).
End store.

Section writes.
Context `{UnicodeTables, ApdLib, UuidLib, FloatText, TimeText}.

(** ** Revisions and their metadata *)
Definition VersionEntry_json (v : VersionEntry) : json :=
  JObject [("capability_id"%string, JString (coerce (Entry_CapabilityID v))); ("contract_version"%string, JString (coerce (Entry_ContractVersion v)));
           ("implementation_version"%string, JString (coerce (Entry_ImplementationVersion v)));
           ("state"%string, JString match Entry_State v with
                              | Registered => "registered" | Unregistered => "unregistered" | RegistrationUnknown s => coerce s end)].
Definition VersionManifest_CanonicalJSON (m : VersionManifest) : result string string :=
  CanonicalJSON (JObject [("entries"%string, JArray (VersionEntry_json <$> sort_by (less_on Entry_CapabilityID String.ltb) (Entries m)))]).
Definition VersionManifest_Hash (m : VersionManifest) : result string string :=
  let? body := VersionManifest_CanonicalJSON m in Ok (sha256_hex body).
Definition versionManifestFromValidationWithCapabilities (versions : ValidationVersions) (graph simulation risk : VersionEntry) :
    result VersionManifest string :=
  if negb (ValidationVersions_Valid versions) then Err "incomplete validation version manifest"%string
  else
    let registered id implementation := mkVersionEntry id "validation-v1" implementation Registered in
    let manifest := mkManifest [registered "schema"%string (ValidationTypes.Schema versions); registered "dsl"%string (DSL versions);
                                registered "validator-registry"%string (Versions_Registry versions);
                                registered "numeric-policy"%string (NumericPolicy versions); graph; simulation; risk] in
    if negb (VersionManifest_Valid manifest) then Err "invalid revision version manifest"%string else Ok manifest.

(** What one transaction draws: the identities of [NewID] and the times of the clock. *)
Record Draws := mkDraws { new_revision : option ID; revision_time : Time; new_run : option ID; run_time : Time }.
Definition NewID (o : option ID) : result ID StoreError := match o with Some id => Ok id | None => Err (ErrOther "allocate UUIDv7") end.

Record LocalValidationSummary := mkLocalSummary { Local_RunID : ID; Local_Scope : string; Local_Summary : SeveritySummary }.
Record RevisionSummary := mkRevisionSummary {
  Revised_ID : ID; Revised_Display : Z; Revised_ConfigHash : string; Revised_CreatedAt : Time;
  Revised_Validation : option LocalValidationSummary
}.

Definition next_display (st : EntityStore) : Z :=
  1 + foldr Z.max 0 (Revision_Display <$> (map_to_list (config_revisions st)).*2).
Definition add_revision (st : EntityStore) (id : ID) (r : RevisionRow) (m : list (ID * ManifestRow)) : EntityStore :=
  mkEntityStore (blobs st) (working st) (entity_references st) (entity_tags st) (<[id := r]> (config_revisions st))
    (<[id := m]> (revision_entities st)) (revision_metadata st) (derived st) (validation_runs st).
Definition writeRevision (st : EntityStore) (d : Draws) : result (EntityStore * RevisionSummary) StoreError :=
  let all := working_manifest st in
  let? id := NewID (new_revision d) in
  let display := next_display st in
  let? _ := guard (bool_decide (config_revisions st !! id = None)) (ErrStorage "config_revisions") in
  let? _ := guard (bool_decide (revision_entities st !! id = None)) (ErrStorage "revision_entities") in
  Ok (add_revision st id (mkRevisionRow display (manifest_hash all) (revision_time d)) all,
      mkRevisionSummary id display (manifest_hash all) (revision_time d) None).

Record revisionMetadataFields := mkFields {
  Fields_Name : string; Fields_Description : string; parentRevisionID : ID; sourceRevisionID : ID; sourceReleaseID : ID
}.
Definition no_fields : revisionMetadataFields := mkFields "" "" "" "" "".
Definition known_revision (st : EntityStore) (id : ID) : bool :=
  bool_decide (id = EmptyString) || bool_decide (is_Some (config_revisions st !! id)).
Definition set_metadata (st : EntityStore) (m : gmap ID MetadataRow) : EntityStore :=
  mkEntityStore (blobs st) (working st) (entity_references st) (entity_tags st) (config_revisions st) (revision_entities st)
    m (derived st) (validation_runs st).
Definition writeRevisionMetadata (svc : Service) (st : EntityStore) (revision : RevisionSummary) (versions : ValidationVersions)
    (fields : revisionMetadataFields) : result EntityStore StoreError :=
  let? manifest := of_error (versionManifestFromValidationWithCapabilities versions (graphVersion svc) (simulationVersion svc) (riskVersion svc)) in
  let? hash := of_error (VersionManifest_Hash manifest) in
  let? _ := guard (bool_decide (revision_metadata st !! Revised_ID revision = None) &&
                   known_revision st (parentRevisionID fields) && known_revision st (sourceRevisionID fields))
              (ErrStorage "revision_metadata") in
  Ok (set_metadata st (<[Revised_ID revision := mkMetadataRow (Fields_Name fields) (Fields_Description fields) (parentRevisionID fields)
    (sourceRevisionID fields) (sourceReleaseID fields) manifest hash (Revised_CreatedAt revision)]> (revision_metadata st))).

(** ** derived_indexes.go: the primary keys and checks of the three tables *)
Definition derived_rows_ok (formulas : list FormulaIndexRecord) (references : list ReferenceTuple) : bool :=
  nodupb ((fun f => (Index_SourceID f, Index_FieldPath f)) <$> formulas) &&
  forallb (fun f => forallb (fun r => (0 <=? StartByte (Read_Span r)) && (StartByte (Read_Span r) <? EndByte (Read_Span r))) (Reads f)) formulas &&
  nodupb ((fun r => (Tuple_SourceID r, Tuple_FieldPath r, Tuple_Ordinal r)) <$> references) &&
  forallb (fun r => 0 <=? Tuple_Ordinal r) references.
Definition set_derived (st : EntityStore) (m : gmap ID Derived) : EntityStore :=
  mkEntityStore (blobs st) (working st) (entity_references st) (entity_tags st) (config_revisions st) (revision_entities st)
    (revision_metadata st) m (validation_runs st).
Definition replaceRevisionDerivedTx (st : EntityStore) (revisionID : ID) (formulas : list FormulaIndexRecord) (references : list ReferenceTuple) :
    result EntityStore StoreError :=
  let? _ := guard (derived_rows_ok formulas references) (ErrStorage "derived indexes") in
  Ok (set_derived st (<[revisionID := mkDerived formulas references]> (derived st))).
Definition persistRevisionDerived (svc : Service) (st : EntityStore) (revisionID : ID) : result EntityStore StoreError :=
  let entities := materializeRevisionEntitiesTx st revisionID in
  let? (references, bindings) := of_analysis (of_fuel (WalkKnownSchema entities)) in
  let? (formulas_, _) := of_analysis (of_compile (CompileFormulaBindings bindings (formulas svc) (AttributeSymbols entities (formulas svc) None))) in
  replaceRevisionDerivedTx st revisionID formulas_ references.

(** rebuild.go *)
Definition RebuildRevisionDerived (st : EntityStore) (revisionID : ID) (registry : FormulaRegistry.Registry) (symbols : option SymbolResolver) :
    result EntityStore StoreError :=
  let? (_, entities) := MaterializeValidationSource st SourceRevision revisionID in
  let? (references, bindings) := of_analysis (of_fuel (WalkKnownSchema entities)) in
  let? (formulas_, diagnostics) := of_analysis (of_compile (CompileFormulaBindings bindings registry (AttributeSymbols entities registry symbols))) in
  match diagnostics with
  | d :: _ => Err (ErrOther ("cannot rebuild invalid formula indexes: " +:+ Diag_Code d)%string)
  | [] => replaceRevisionDerivedTx st revisionID formulas_ references
  end.

(** ** The LOCAL run of a save *)
Definition local_reference_code (st : EntityStore) (r : ReferenceTuple) : option string :=
  match working st !! Tuple_TargetID r with
  | None => Some "REFERENCE_NOT_FOUND"%string
  | Some row =>
      if negb (bool_decide (Row_Status row = StatusActive)) then Some "REFERENCE_TARGET_INACTIVE"%string
      else if negb (bool_decide (Row_Kind row = Tuple_ExpectedKind r)) then Some "REFERENCE_KIND_MISMATCH"%string
      else None
  end.
Definition local_findings (st : EntityStore) (references : list ReferenceTuple) : list ReferenceFinding :=
  omap (fun r => (fun code => mkRefFinding code r) <$> local_reference_code st r) references.
Definition local_issues (svc : Service) (st : EntityStore) (versions : ValidationVersions) (entities symbolEntities : list Entity) :
    result (list Issue) AnalyzeError :=
  let? (references, bindings) := of_fuel (WalkKnownSchema entities) in
  let? reference_issues := map_result (reference_issue versions) (local_findings st references) in
  let? (_, diagnostics) := of_compile (CompileFormulaBindings bindings (formulas svc) (AttributeSymbols symbolEntities (formulas svc) None)) in
  let? formula_issues := map_result (diagnostic_issue versions) diagnostics in
  Ok (reference_issues ++ formula_issues)%list.
Definition persistLocalValidationForEntitiesAndSymbols (svc : Service) (st : EntityStore) (d : Draws) (entities symbolEntities : list Entity)
    (revision : RevisionSummary) (versions : ValidationVersions) : result (EntityStore * LocalValidationSummary) StoreError :=
  let? issues := of_analysis (local_issues svc st versions entities symbolEntities) in
  let? source := of_error (NewSource SourceRevision (Revised_ID revision) (Revised_ConfigHash revision)) in
  let? runID := NewID (new_run d) in
  let? run := of_error (NewCompletedRun runID source ScopeLocal versions issues (run_time d)) in
  let? _ := of_error (ValidationVersions_Hash (Run_Versions run)) in
  let? st := insertCompletedValidationRunTx st run issues in
  Ok (st, mkLocalSummary runID (Scope_text ScopeLocal) (Summary run)).
Definition persistLocalValidation (svc : Service) (st : EntityStore) (d : Draws) (e : Entity) (revision : RevisionSummary)
    (versions : ValidationVersions) : result (EntityStore * LocalValidationSummary) StoreError :=
  persistLocalValidationForEntitiesAndSymbols svc st d [e] (materializeWorkingEntitiesTx st) revision versions.
Definition with_validation (r : RevisionSummary) (v : LocalValidationSummary) : RevisionSummary :=
  mkRevisionSummary (Revised_ID r) (Revised_Display r) (Revised_ConfigHash r) (Revised_CreatedAt r) (Some v).
End writes.

Section operations.
Context `{UnicodeTables, ApdLib, UuidLib, FloatText, TimeText}.

(** ** saveTx *)
(** The partial unique index on active (kind, key). *)
Definition active_conflict (st : EntityStore) (kind : EntityKind) (key : string) (id : ID) : bool :=
  existsb (fun '(id', row) => bool_decide (Row_Kind row = kind) && bool_decide (Row_Key row = key) &&
    bool_decide (Row_Status row = StatusActive) && negb (bool_decide (id' = id))) (map_to_list (working st)).
Definition set_entity (st : EntityStore) (hash : string) (blob : Entity) (id : ID) (row : WorkingRow)
    (refs : list Reference) (tags : list TagIndex) : EntityStore :=
  mkEntityStore (match blobs st !! hash with Some _ => blobs st | None => <[hash := blob]> (blobs st) end)
    (<[id := row]> (working st)) (<[id := refs]> (entity_references st)) (<[id := tags]> (entity_tags st))
    (config_revisions st) (revision_entities st) (revision_metadata st) (derived st) (validation_runs st).

(** The row an INSERT or an UPDATE leaves. *)
Definition row_for (st : EntityStore) (e : Entity) (hash : string) (create : bool) : result WorkingRow StoreError :=
  let? _ := guard (status_allowed (Entity_Status e)) (ErrStorage "working_entities") in
  let conflict kind := bool_decide (Entity_Status e = StatusActive) && active_conflict st kind (Entity_Key e) (Entity_ID e) in
  if create then
    if bool_decide (is_Some (working st !! Entity_ID e)) || conflict (Entity_Kind e) then Err ErrDuplicateKey
    else Ok (mkWorking (Entity_Kind e) (Entity_Key e) (SchemaVersion e) (EntityVersion e) hash (Entity_Status e)
               (Entity_CreatedAt e) (Entity_UpdatedAt e))
  else
    let? old := or_not_found (working st !! Entity_ID e) in
    let? _ := guard (negb (conflict (Row_Kind old))) (ErrStorage "working_entities_active_kind_key") in
    Ok (mkWorking (Row_Kind old) (Entity_Key e) (SchemaVersion e) (EntityVersion e) hash (Entity_Status e)
          (Row_CreatedAt old) (Entity_UpdatedAt e)).

(** The blob, the working row and the indexes. *)
Definition write_entity (st : EntityStore) (e : Entity) (create : bool) : result EntityStore StoreError :=
  let? (hash, blob) := of_error (BlobHash e) in
  let? row := row_for st e hash create in
  let '(refs, tags) := ExtractIndexes e in
  let? _ := guard (nodupb ((fun r => (Ref_FieldPath r, Ref_Ordinal r)) <$> refs)) (ErrStorage "entity_references") in
  let? _ := guard (nodupb (Tag_TagID <$> tags)) (ErrStorage "entity_tags") in
  Ok (set_entity st hash blob (Entity_ID e) row refs tags).

(** The revision of the working set: rows, metadata and derived indexes. *)
Definition write_history (svc : Service) (st : EntityStore) (d : Draws) (fields : revisionMetadataFields) :
    result (EntityStore * RevisionSummary) StoreError :=
  let? (st, revision) := writeRevision st d in
  let? st := writeRevisionMetadata svc st revision (currentValidationVersionManifest svc) fields in
  let? st := persistRevisionDerived svc st (Revised_ID revision) in
  Ok (st, revision).
Definition saveTx (svc : Service) (st : EntityStore) (d : Draws) (e : Entity) (create : bool) :
    result (EntityStore * RevisionSummary) StoreError :=
  let? st := write_entity st e create in
  let? (st, revision) := write_history svc st d no_fields in
  let? (st, summary) := persistLocalValidation svc st d e revision (currentValidationVersionManifest svc) in
  Ok (st, with_validation revision summary).

Definition recheckActiveKeyTx (st : EntityStore) (e : Entity) : result unit StoreError :=
  if negb (bool_decide (Entity_Status e = StatusActive)) then Ok tt
  else guard (negb (active_conflict st (Entity_Kind e) (Entity_Key e) (Entity_ID e))) ErrDuplicateKey.

(** ** Retrying a save whose preflight went stale *)
Definition localPreflightRetryLimit : nat := 16.
(** [others i] is what other writers commit between the preflight of attempt [i]
    and its transaction. *)
Fixpoint retry {A : Type} (fuel i : nat) (others : nat -> EntityStore -> EntityStore)
    (preflight : EntityStore -> result localPreflight StoreError)
    (tx : nat -> localPreflight -> EntityStore -> result (EntityStore * A) StoreError) (st : EntityStore) :
    EntityStore * result A StoreError :=
  match fuel with
  | O => (st, Err ErrRevisionConflict)
  | S fuel =>
      match preflight st with
      | Err e => (st, Err e)
      | Ok p =>
          let st := others i st in
          match tx i p st with
          | Ok (st, a) => (st, Ok a)
          | Err ErrLocalPreflightChanged =>
              match fuel with
              | O => (st, Err ErrLocalPreflightChanged)
              | S _ => retry fuel (S i) others preflight tx st
              end
          | Err e => (st, Err e)
          end
      end
  end.

Definition with_entity (e : Entity) (r : EntityStore * result RevisionSummary StoreError) :
    EntityStore * result (Entity * RevisionSummary) StoreError :=
  (r.1, let? revision := r.2 in Ok (e, revision)).
Definition save_tx (svc : Service) (d : Draws) (e : Entity) (create : bool) (p : localPreflight) (st : EntityStore) :
    result (EntityStore * RevisionSummary) StoreError :=
  let? _ := guard (recheckLocalPreflightTx st p) ErrLocalPreflightChanged in
  let? _ := recheckActiveKeyTx st e in
  saveTx svc st d e create.
Definition save (svc : Service) (st : EntityStore) (draws : nat -> Draws) (others : nat -> EntityStore -> EntityStore)
    (e : Entity) (create : bool) : EntityStore * result (Entity * RevisionSummary) StoreError :=
  match admission svc with
  | Err error => (st, Err (ErrAdmission error))
  | Ok _ => with_entity e (retry localPreflightRetryLimit 0 others (fun st => preflightLocal svc st e)
                             (fun i p st => save_tx svc (draws i) e create p st) st)
  end.

Definition validateProspective (svc : Service) (e : Entity) : result Entity StoreError :=
  match NormalizeNumericEntity e with
  | Err message => Err (ValidationError [mkFieldIssue "payload" message])
  | Ok normalized =>
      match Registry_Validate (schemas svc) normalized with
      | [] => Ok normalized
      | issues => Err (ValidationError issues)
      end
  end.
Definition Create (svc : Service) (st : EntityStore) (draws : nat -> Draws) (others : nat -> EntityStore -> EntityStore)
    (newID : option ID) (now : Time) (kind : EntityKind) (draft : EntityDraft) :
    EntityStore * result (Entity * RevisionSummary) StoreError :=
  match (let? e := of_error (NewEntity newID kind draft now) in validateProspective svc e) with
  | Err error => (st, Err error)
  | Ok e => save svc st draws others e true
  end.

Definition patch_tx (svc : Service) (d : Draws) (kind : EntityKind) (id : ID) (version : Z) (next : Entity)
    (p : localPreflight) (st : EntityStore) : result (EntityStore * RevisionSummary) StoreError :=
  let? current := getTx st kind id in
  let? _ := guard (bool_decide (EntityVersion current = version)) ErrRevisionConflict in
  let? _ := guard (recheckLocalPreflightTx st p) ErrLocalPreflightChanged in
  let? _ := recheckActiveKeyTx st next in
  saveTx svc st d next false.
(** [others 0] runs between the read and the first preflight. *)
Definition Patch (svc : Service) (st : EntityStore) (draws : nat -> Draws) (others : nat -> EntityStore -> EntityStore)
    (now : Time) (kind : EntityKind) (id : ID) (version : Z) (p : list (string * string)) :
    EntityStore * result (Entity * RevisionSummary) StoreError :=
  match
    (let? current := Get st kind id in
     let? _ := guard (bool_decide (EntityVersion current = version)) ErrRevisionConflict in
     let? next := of_error (ApplyPatch current p now) in
     let? next := validateProspective svc next in
     match admission svc with Ok _ => Ok next | Err error => Err (ErrAdmission error) end)
  with
  | Err error => (st, Err error)
  | Ok next =>
      with_entity next (retry localPreflightRetryLimit 1 others (fun st => preflightLocal svc st next)
                          (fun i p st => patch_tx svc (draws i) kind id version next p st) (others O st))
  end.

(** ** Delete *)
Definition active_references (st : EntityStore) (id : ID) : list Reference :=
  concat (map (fun '(source, refs) =>
    match working st !! source with
    | Some row => if bool_decide (Row_Status row = StatusActive) then List.filter (fun r => bool_decide (Ref_TargetID r = id)) refs else []
    | None => []
    end) (map_to_list (entity_references st))).
Definition archived (now : Time) (e : Entity) : Entity :=
  mkEntity (Entity_ID e) (Entity_Kind e) (Entity_Key e) (Entity_Name e) (Entity_Description e) (Entity_TagIDs e) (BalanceGroup e)
    StatusArchived (SchemaVersion e) (Payload e) (Extensions e) (EntityVersion e + 1) (Entity_CreatedAt e) now.
Definition Delete (svc : Service) (st : EntityStore) (d : Draws) (now : Time) (kind : EntityKind) (id : ID) (version : Z) :
    result (EntityStore * (Entity * RevisionSummary)) StoreError :=
  let? _ := match admission svc with Ok _ => Ok tt | Err error => Err (ErrAdmission error) end in
  let? e := getTx st kind id in
  let? _ := guard (bool_decide (EntityVersion e = version)) ErrRevisionConflict in
  let? _ := match active_references st id with [] => Ok tt | refs => Err (ReferencedError refs) end in
  let? (st, revision) := saveTx svc st d (archived now e) false in
  Ok (st, (archived now e, revision)).

(** ** checkpoint.go *)
Definition latest_revision (st : EntityStore) : option ID :=
  fst <$> last (sort_by (then_by (Revision_Display ∘ snd) Z.ltb (less_on fst String.ltb)) (map_to_list (config_revisions st))).
Definition CreateCheckpoint (svc : Service) (st : EntityStore) (d : Draws) (currentWorkingRevision : ID) (name description : string) :
    result (EntityStore * RevisionSummary) StoreError :=
  let? _ := guard (ID_Valid currentWorkingRevision) ErrRevisionConflict in
  let name := TrimSpace name in
  let? _ := guard ((string_len name <=? 200) && (string_len description <=? 10000)) ErrInvalidCheckpoint in
  let? _ := match admission svc with Ok _ => Ok tt | Err error => Err (ErrAdmission error) end in
  let? _ := guard (bool_decide (latest_revision st = Some currentWorkingRevision)) ErrRevisionConflict in
  let? (st, revision) := write_history svc st d (mkFields name description currentWorkingRevision "" "") in
  let entities := materializeRevisionEntitiesTx st (Revised_ID revision) in
  let? (st, summary) :=
    persistLocalValidationForEntitiesAndSymbols svc st d entities entities revision (currentValidationVersionManifest svc) in
  Ok (st, with_validation revision summary).

(** ** validation_runner.go *)
Definition RunValidation (svc : Service) (st : EntityStore) (newID : option ID) (now : Time) (kind : SourceKind) (revisionID : ID)
    (scope : Scope) : result (EntityStore * ValidationReport) StoreError :=
  let? (source, entities) := MaterializeValidationSource st kind revisionID in
  let versions := currentValidationVersionManifest svc in
  let? issues := of_analysis (AnalyzeV1 (schemas svc) (formulas svc) versions entities scope) in
  let? id := NewID newID in
  let? run := of_error (NewCompletedRun id source scope versions issues now) in
  let? st := InsertCompletedValidationRun st run issues in
  Ok (st, mkReport run (CloneIssues issues)).
End operations.
