(* ===== verification/EntityRestore.v ===== *)
(** * internal/storage/sqlite: replacing and accepting working entities

    restore_release.go (a published release becomes the working set again, in a
    new revision) and the writes of ai_decisions.go (the entities of an accepted
    proposal).  The release's revision and the proposal's entities are arguments:
    the first is a row of [ReleaseStore], the second is built by ai/preview. *)
From S2P Require Import Prelude GoSort GoStrings GoCrypto GoJson GoFloat Domain JobStore FormulaDecimal DomainEntity.
From S2P Require Import FormulaRegistry FormulaAst FormulaLexer FormulaParser FormulaSemantic VersionGate.
From S2P Require Import ValidationTypes ValidationWalk ValidationAnalyze EntityStore.
Open Scope Z_scope.

Section restore.
Context `{UnicodeTables, ApdLib, UuidLib, FloatText, TimeText}.

(** ** replaceWorkingEntitiesTx *)
(** The three DELETE statements. *)
Definition cleared (st : EntityStore) : EntityStore :=
  mkEntityStore (blobs st) ∅ ∅ ∅ (config_revisions st) (revision_entities st) (revision_metadata st) (derived st) (validation_runs st).
(** The INSERTs of one entity, with the constraints of the three tables; the blob
    has to be stored already. *)
Definition restore_row (st : EntityStore) (e : Entity) : result EntityStore StoreError :=
  let? (hash, blob) := of_error (BlobHash e) in
  let? _ := guard (bool_decide (is_Some (blobs st !! hash))) (ErrStorage "entity_blobs") in
  let? row := row_for st e hash true in
  let '(refs, tags) := ExtractIndexes e in
  let? _ := guard (nodupb ((fun r => (Ref_FieldPath r, Ref_Ordinal r)) <$> refs)) (ErrStorage "entity_references") in
  let? _ := guard (nodupb (Tag_TagID <$> tags)) (ErrStorage "entity_tags") in
  Ok (set_entity st hash blob (Entity_ID e) row refs tags).
Definition replaceWorkingEntitiesTx (st : EntityStore) (entities : list Entity) : result EntityStore StoreError :=
  foldr_result restore_row (cleared st) entities.

(** ** RestoreRelease *)
(** [releases] answers [SELECT revision_id FROM releases WHERE id=?]. *)
Definition RestoreRelease (svc : Service) (st : EntityStore) (d : Draws) (releases : ID -> option ID)
    (currentWorkingRevision sourceReleaseID : ID) : result (EntityStore * RevisionSummary) StoreError :=
  let? _ := guard (ID_Valid currentWorkingRevision && ID_Valid sourceReleaseID) ErrRevisionConflict in
  let? _ := guard (bool_decide (latest_revision st = Some currentWorkingRevision)) ErrRevisionConflict in
  match releases sourceReleaseID with
  | None => Err ErrReleaseNotFound
  | Some sourceRevisionID =>
      let entities := materializeRevisionEntitiesTx st sourceRevisionID in
      let? st := replaceWorkingEntitiesTx st entities in
      let? (st, revision) := write_history svc st d (mkFields "" "" currentWorkingRevision sourceRevisionID sourceReleaseID) in
      let? (st, summary) :=
        persistLocalValidationForEntitiesAndSymbols svc st d entities entities revision (currentValidationVersionManifest svc) in
      Ok (st, with_validation revision summary)
  end.

(** ** Accepting a proposal *)
Record Target := mkTarget { Target_EntityID : ID; Target_Kind : string; ExpectedEntityVersion : Z }.
Definition fresh_target (st : EntityStore) (t : Target) : bool :=
  match working st !! Target_EntityID t with
  | None => false
  | Some row => (Row_Version row =? ExpectedEntityVersion t) && bool_decide (EntityKind_text (Row_Kind row) = Target_Kind t)
  end.
Definition requireFreshAIPatchTx (st : EntityStore) (base : ID) (configHash : string) (targets : list Target) : result unit StoreError :=
  let? latest := or_not_found (latest_revision st) in
  let? row := or_not_found (config_revisions st !! latest) in
  let? _ := guard (bool_decide (latest = base) && bool_decide (Revision_ConfigHash row = configHash)) ErrDecisionStale in
  guard (forallb (fresh_target st) targets) ErrDecisionStale.
Definition stamped (now : Time) (e : Entity) : Entity :=
  mkEntity (Entity_ID e) (Entity_Kind e) (Entity_Key e) (Entity_Name e) (Entity_Description e) (Entity_TagIDs e) (BalanceGroup e)
    (Entity_Status e) (SchemaVersion e) (Payload e) (Extensions e) (EntityVersion e) (Entity_CreatedAt e) now.
Definition acceptedAIEntities (svc : Service) (now : Time) (proposal : list Entity) (targets : gset ID) : result (list Entity) StoreError :=
  let? changed := map_result (fun e => match validateProspective svc (stamped now e) with Ok n => Ok n | Err _ => Err ErrDecisionValidation end)
                    (List.filter (fun e => bool_decide (Entity_ID e ∈ targets)) proposal) in
  let? _ := guard (bool_decide (length changed = size targets)) ErrDecisionValidation in
  Ok changed.
(** One iteration of the loop: the UPDATE names the kind and the version before. *)
Definition accept_row (st : EntityStore) (e : Entity) : result EntityStore StoreError :=
  let? _ := recheckActiveKeyTx st e in
  let? _ := guard match working st !! Entity_ID e with
                  | Some row => bool_decide (Row_Kind row = Entity_Kind e) && (Row_Version row =? EntityVersion e - 1)
                  | None => false
                  end ErrDecisionStale in
  write_entity st e false.
Definition writeAIAcceptedEntities (svc : Service) (st : EntityStore) (d : Draws) (entities : list Entity) :
    result (EntityStore * RevisionSummary) StoreError :=
  let? st := foldr_result accept_row st entities in
  let? (st, revision) := write_history svc st d no_fields in
  let? (st, summary) :=
    persistLocalValidationForEntitiesAndSymbols svc st d entities entities revision (currentValidationVersionManifest svc) in
  Ok (st, with_validation revision summary).
(** What [acceptDraftPatchLocked] does to these tables. *)
Definition accept_proposal (svc : Service) (st : EntityStore) (d : Draws) (now : Time) (base : ID) (configHash : string)
    (targets : list Target) (proposal : list Entity) : result (EntityStore * RevisionSummary) StoreError :=
  let? _ := requireFreshAIPatchTx st base configHash targets in
  let? changed := acceptedAIEntities svc now proposal (list_to_set (Target_EntityID <$> targets)) in
  writeAIAcceptedEntities svc st d changed.
End restore.
