(* ===== verification/StoreCursors.v ===== *)
(** * The cursors of internal/storage/sqlite: encode and decode

    encodeCursor and decodeCursor of store.go, encodeRevisionHistoryCursor and
    decodeRevisionHistoryCursor of revision_metadata.go: unpadded base64 of the
    JSON of a struct. *)
From Stdlib Require Import Ascii.
From stdpp Require Import pretty.
From S2P Require Import Prelude GoSort GoStrings Domain GoJson GoFloat JsonRoundTrip GoBase64.
Open Scope Z_scope.

(** ** JSON of the cursors *)
(** The members of an object in the order of the text, duplicates included. *)
Fixpoint members (fuel : nat) (s : string) : option (list (string * json)) :=
  match fuel with
  | O => None
  | S fuel =>
      q ← expect quote_char s;
      '(key, r) ← scan_string (S (String.length q)) q;
      r ← expect ":" r;
      '(v, rest) ← scan_value (decode_fuel r) maxNestingDepth r;
      match expect "," rest with Some r' => l ← members fuel r'; Some ((key, v) :: l) | None => Some [(key, v)] end
  end.
(** What [json.Unmarshal] assigns to the fields of a struct: nothing for null. *)
Definition struct_members (raw : string) : option (list (string * json)) :=
  match decode_document raw with
  | Some JNull => Some []
  | Some (JObject []) => Some []
  | Some (JObject _) => r ← expect "{" raw; members (String.length raw) r
  | _ => None
  end.
(** A member name is matched to a field up to simple case folding. *)
Definition names_k (key : string) : bool := bool_decide (key ∈ ["k"; "K"; encode_rune 8490]%string).
Definition names_i (key : string) : bool := bool_decide (key ∈ ["i"; "I"]%string).
Definition names_d (key : string) : bool := bool_decide (key ∈ ["d"; "D"]%string).

Definition quoted_name (name : string) : string := (quote_mark +:+ name +:+ quote_mark)%string.

Record cursor := mkCursor { Cursor_Key : string; Cursor_ID : ID }.
Definition cursor_json (c : cursor) : string :=
  ("{" +:+ quoted_name "k" +:+ ":" +:+ marshal_string (Cursor_Key c) +:+ "," +:+
   quoted_name "i" +:+ ":" +:+ marshal_string (Cursor_ID c) +:+ "}")%string.
Definition encodeCursor (c : cursor) : string := EncodeToString (cursor_json c).
Definition set_cursor (c : option cursor) (member : string * json) : option cursor :=
  c ← c;
  let '(key, v) := member in
  if names_k key then match v with JString s => Some (mkCursor s (Cursor_ID c)) | JNull => Some c | _ => None end
  else if names_i key then match v with JString s => Some (mkCursor (Cursor_Key c) s) | JNull => Some c | _ => None end
  else Some c.
Definition decodeCursor (v : string) : option cursor :=
  b ← DecodeString v; l ← struct_members b; foldl set_cursor (Some (mkCursor "" "")) l.

(** revision_metadata.go *)
Record revisionHistoryCursor := mkHistoryCursor { Cursor_Display : Z; Cursor_Revision : ID }.
Definition history_cursor_json (c : revisionHistoryCursor) : string :=
  ("{" +:+ quoted_name "d" +:+ ":" +:+ Itoa (Cursor_Display c) +:+ "," +:+
   quoted_name "i" +:+ ":" +:+ marshal_string (Cursor_Revision c) +:+ "}")%string.
Definition encodeRevisionHistoryCursor (c : revisionHistoryCursor) : string := EncodeToString (history_cursor_json c).
Definition set_history_cursor (c : option revisionHistoryCursor) (member : string * json) : option revisionHistoryCursor :=
  c ← c;
  let '(key, v) := member in
  if names_d key then
    match v with
    | JNumber lit => d ← ParseInt lit; Some (mkHistoryCursor d (Cursor_Revision c))
    | JNull => Some c
    | _ => None
    end
  else if names_i key then match v with JString s => Some (mkHistoryCursor (Cursor_Display c) s) | JNull => Some c | _ => None end
  else Some c.
Definition decodeRevisionHistoryCursor `{UuidLib} (raw : string) : option revisionHistoryCursor :=
  b ← DecodeString raw;
  l ← struct_members b;
  c ← foldl set_history_cursor (Some (mkHistoryCursor 0 "")) l;
  if (Cursor_Display c <? 1) || negb (ID_Valid (Cursor_Revision c)) then None else Some c.

(** ** Cursor round trip *)
Lemma members_cons f key v t tail : valid_text key ->
  scan_value (decode_fuel (t +:+ tail)) maxNestingDepth (t +:+ tail) = Some (v, tail) ->
  members (S f) (marshal_string key +:+ ":" +:+ t +:+ tail) =
    match expect "," tail with Some r => l ← members f r; Some ((key, v) :: l) | None => Some [(key, v)] end.
Proof.
  intros Hk Hv. cbn [members]. destruct (scan_key key (":" +:+ t +:+ tail) Hk) as (q & -> & Hq). cbn [mbind option_bind].
  rewrite Hq. cbn [mbind option_bind]. change (":" +:+ t +:+ tail)%string with (String ":" (t +:+ tail)).
  rewrite expect_char by done. cbn [mbind option_bind]. by rewrite Hv.
Qed.
(** Decimal integers are JSON numbers. *)
Lemma pretty_go_head (x : N) : forall s, (0 < x)%N ->
  exists a t, pretty_N_go x s = String a t /\ a <> "0"%char.
Proof.
  induction (N.lt_wf_0 x) as [x _ IH]. intros s Hx. rewrite pretty_N_go_step by done.
  destruct (decide (x < 10)%N) as [Hlt|Hge].
  - rewrite N.div_small, pretty_N_go_0, N.mod_small by done. eexists _, _. split; [done|].
    intros Heq. apply (pretty_N_char_inj x 0) in Heq; lia.
  - apply IH; [by apply N.div_lt|]. apply N.div_str_pos. lia.
Qed.
Lemma take_digits_all s : all_chars digit_char s = true -> take_digits s = (s, EmptyString).
Proof.
  induction s as [|a s IH]; [done|]. cbn [all_chars take_digits]. intros [Ha Hs]%andb_prop.
  change (is_digit a) with (digit_char a). rewrite Ha. by rewrite (IH Hs).
Qed.
Lemma Itoa_number z : 0 <= z -> is_number (Itoa z).
Proof.
  intros Hz. destruct z as [|p|p]; [reflexivity| |lia]. unfold is_number, Itoa. change (pretty (Z.pos p)) with (pretty_N_go (Npos p) "").
  destruct (pretty_go_spec (Npos p) "" eq_refl) as [Hd _]. destruct (pretty_go_head (Npos p) "" eq_refl) as (a & t & Heq & Ha).
  rewrite Heq in *. pose proof Hd as Hd'. cbn [all_chars] in Hd'. apply andb_prop in Hd' as [Hda _].
  rewrite scan_number_parts, sign_part_other by (intros ->; vm_compute in Hda; discriminate). rewrite int_part_other by done.
  rewrite take_digits_all by done. cbn [nonempty]. destruct (nonempty (String a t)) eqn:E; [|done]. cbn [mbind option_bind frac_part exp_part]. f_equal. f_equal. by rewrite !string_app_empty.
Qed.

(** A number text that is kept as it is. *)
#[local] Instance literal_floats : FloatText :=
  {| float_text lit := if bool_decide (scan_number lit = Some (lit, EmptyString)) then Ok lit else Err "not a number"%string |}.
#[local] Instance literal_floats_laws : FloatTextLaws.
Proof.
  split; intros lit t; cbn [float_text literal_floats]; case_bool_decide as Hl; try done; intros [= <-]; [done|].
  by rewrite bool_decide_true.
Qed.
(** An object of two scalars. *)
Definition flat (v : json) (t : string) : Prop := wellformed v /\ depth v = O /\ normal v = v /\ appendCanonical v = Ok t.
Lemma flat_string s : valid_text s -> flat (JString s) (marshal_string s).
Proof. done. Qed.
Lemma flat_number z : 0 <= z -> flat (JNumber (Itoa z)) (Itoa z).
Proof.
  intros Hz%Itoa_number. unfold is_number in Hz. unfold flat. cbn [wellformed depth normal appendCanonical float_text literal_floats].
  rewrite bool_decide_true by done. by split_and!.
Qed.
Lemma flat_pair_document k1 v1 t1 k2 v2 t2 : valid_text k1 -> flat v1 t1 -> valid_text k2 -> flat v2 t2 -> k1 <> k2 ->
  decode_document ("{" +:+ (marshal_string k1 +:+ ":" +:+ t1 +:+ "," +:+ (marshal_string k2 +:+ ":" +:+ t2 +:+ "}"))) =
    Some (JObject [(k1, v1); (k2, v2)]).
Proof.
  intros Hk1 (W1 & D1 & N1 & A1) Hk2 (W2 & D2 & N2 & A2) Hne. set (l := [(k1, v1); (k2, v2)]). set (ts := [(k1, t1); (k2, t2)]).
  assert (marshal_string k1 +:+ ":" +:+ t1 +:+ "," +:+ (marshal_string k2 +:+ ":" +:+ t2 +:+ "}") =
    Join (field_text <$> ts) "," +:+ String "}" EmptyString)%string as Heq.
  { unfold ts. cbn [fmap list_fmap Join field_text fst snd]. unfold field_text. cbn [fst snd]. by rewrite !string_app_assoc. }
  assert (texts_of l ts) as Hts by (constructor; [done|]; constructor; [done|]; constructor).
  unfold decode_document. rewrite Heq. set (text := (Join _ _ +:+ _)%string).
  unfold decode_fuel. cbn [scan_value]. change ("{" +:+ text)%string with (String "{" text). rewrite expect_char by done.
  destruct maxNestingDepth as [|d] eqn:Hd; [done|].
  assert (expect "}" text = None) as ->.
  { unfold text, ts, field_text, marshal_string. cbn [fmap list_fmap Join fst snd].
    match goal with |- expect _ ?s = _ => change s with (String quote_char (string_drop 1 s)) end. by apply expect_other. }
  cbn [mbind option_bind]. unfold text at 2. rewrite (scan_fields_joined l).
  - cbn. unfold normal_field. cbn [fst snd]. by rewrite N1, N2.
  - constructor; [by apply text_reads|]. constructor; [by apply text_reads|]. constructor.
  - done.
  - exact Hts.
  - constructor; [split; [done|cbn; lia]|]. constructor; [split; [done|cbn; lia]|]. constructor.
  - cbn. repeat constructor; set_solver.
  - unfold text. cbn [String.length]. rewrite string_length_app. lia.
Qed.
Lemma flat_member f key v t tail : valid_text key -> flat v t -> delim tail ->
  members (S f) (marshal_string key +:+ ":" +:+ t +:+ tail) =
    match expect "," tail with Some r => l ← members f r; Some ((key, v) :: l) | None => Some [(key, v)] end.
Proof.
  intros Hk (W & D & N & A) Ht. apply members_cons; [done|]. rewrite (text_reads v W); rewrite ?N; try done; unfold decode_fuel; rewrite ?string_length_app; lia.
Qed.
Lemma flat_pair_members k1 v1 t1 k2 v2 t2 : valid_text k1 -> flat v1 t1 -> valid_text k2 -> flat v2 t2 -> k1 <> k2 ->
  struct_members ("{" +:+ (marshal_string k1 +:+ ":" +:+ t1 +:+ "," +:+ (marshal_string k2 +:+ ":" +:+ t2 +:+ "}"))) =
    Some [(k1, v1); (k2, v2)].
Proof.
  intros Hk1 F1 Hk2 F2 Hne. unfold struct_members. rewrite (flat_pair_document k1 v1 t1 k2 v2 t2) by done. set (inner := (marshal_string k1 +:+ _)%string).
  change ("{" +:+ inner)%string with (String "{" inner). rewrite expect_char by done. cbn [mbind option_bind String.length].
  unfold inner at 2. rewrite (flat_member _ k1 v1) by (done || by left).
  set (second := (marshal_string k2 +:+ _)%string). change ("," +:+ second)%string with (String "," second).
  rewrite expect_char by done. unfold second.
  assert (exists n, String.length inner = S n) as [n ->] by (by eexists). rewrite (flat_member _ k2 v2) by (done || by right; right). done.
Qed.
Lemma valid_names : valid_text "k" /\ valid_text "i" /\ valid_text "d".
Proof. split_and!; [exists [107]|exists [105]|exists [100]]; (split; [constructor; [unfold scalar; lia|constructor]|done]). Qed.
Lemma cursor_roundtrip c : valid_text (Cursor_Key c) -> valid_text (Cursor_ID c) -> decodeCursor (encodeCursor c) = Some c.
Proof.
  intros Hk Hi. destruct valid_names as (Vk & Vi & _). unfold decodeCursor, encodeCursor. rewrite base64_roundtrip. cbn [option_bind mbind].
  change (cursor_json c) with ("{" +:+ (marshal_string "k" +:+ ":" +:+ marshal_string (Cursor_Key c) +:+ "," +:+
    (marshal_string "i" +:+ ":" +:+ marshal_string (Cursor_ID c) +:+ "}")))%string.
  rewrite (flat_pair_members "k" (JString (Cursor_Key c)) _ "i" (JString (Cursor_ID c))) by (done || by apply flat_string).
  by destruct c.
Qed.
Lemma history_cursor_roundtrip `{UuidLib} c : 1 <= Cursor_Display c -> int64_ok (Cursor_Display c) = true ->
  ID_Valid (Cursor_Revision c) = true -> valid_text (Cursor_Revision c) ->
  decodeRevisionHistoryCursor (encodeRevisionHistoryCursor c) = Some c.
Proof.
  intros Hd Hok Hid Hi. destruct valid_names as (_ & Vi & Vd). unfold decodeRevisionHistoryCursor, encodeRevisionHistoryCursor.
  rewrite base64_roundtrip. cbn [option_bind mbind].
  change (history_cursor_json c) with ("{" +:+ (marshal_string "d" +:+ ":" +:+ Itoa (Cursor_Display c) +:+ "," +:+
    (marshal_string "i" +:+ ":" +:+ marshal_string (Cursor_Revision c) +:+ "}")))%string.
  rewrite (flat_pair_members "d" (JNumber (Itoa (Cursor_Display c))) _ "i" (JString (Cursor_Revision c)))
    by (done || (apply flat_number; lia) || by apply flat_string).
  cbn [mbind option_bind]. assert (foldl set_history_cursor (Some (mkHistoryCursor 0 "")) [("d"%string, JNumber (Itoa (Cursor_Display c))); ("i"%string, JString (Cursor_Revision c))] = Some c) as ->.
  { cbn [foldl]. unfold set_history_cursor at 2. cbn [mbind option_bind]. change (names_d "d") with true. cbv iota.
    rewrite ParseInt_Itoa by done. by destruct c. }
  cbn [mbind option_bind]. rewrite Hid. by rewrite (proj2 (Z.ltb_ge _ _)) by lia.
Qed.
