(* ===== verification/EntityHistory.v ===== *)
(** * Executions of the entity store: what every reachable configuration satisfies

    The transactions of EntityStore as a step relation, the invariant of the
    tables, the immutability of revisions, and what the operations achieve under
    interference. *)
From Stdlib Require Import Ascii.
From S2P Require Import Prelude GoSort GoStrings GoCrypto GoJson GoFloat Domain JobStore FormulaDecimal DomainEntity.
From S2P Require Import FormulaRegistry FormulaAst FormulaLexer FormulaParser FormulaSemantic VersionGate.
From S2P Require Import ValidationTypes ValidationWalk ValidationAnalyze EntityStore EntityRestore JsonRoundTrip.
Open Scope Z_scope.

(** ** Valid UTF-8 passes through JSON unchanged *)
Lemma runes_fuel_joined rs fuel : Forall scalar rs -> (String.length (joined encode_rune rs) <= fuel)%nat ->
  runes_fuel fuel (joined encode_rune rs) = (fun r => (r, String.length (encode_rune r))) <$> rs.
Proof.
  intros Hrs. revert fuel. induction Hrs as [|r rs Hr Hrs IH]; intros fuel Hf; cbn [joined foldr] in *; [by destruct fuel|].
  rewrite string_length_app in Hf. pose proof (encode_rune_nonempty r) as Hne. destruct fuel as [|fuel]; [lia|].
  assert (exists a s, encode_rune r +:+ joined encode_rune rs = String a s) as (a & s & Hs).
  { destruct (encode_rune r); simpl in *; [lia|eauto]. }
  unfold joined in *. cbn [runes_fuel]. rewrite Hs, <- Hs. rewrite decode_encode by done.
  rewrite string_drop_app, IH by lia. done.
Qed.
Lemma coerce_valid s : valid_text s -> coerce s = s.
Proof.
  intros (rs & Hrs & ->). unfold coerce, runes. rewrite runes_fuel_joined by done. clear.
  induction rs as [|r rs IH]; csimpl; [done|]. by rewrite IH.
Qed.

Section rows.
Context `{UnicodeTables, ApdLib, UuidLib, FloatText, TimeText}.

(** A key is never empty. *)
Definition key_ok (key : string) : Prop := valid_text key /\ key <> EmptyString.
(** The row of an entity: its columns, its blob and its indexes. *)
Definition entity_row (st : EntityStore) (id : ID) (row : WorkingRow) : Prop :=
  valid_text id /\ exists e b,
    Entity_ID e = id /\ key_ok (Entity_Key e) /\ BlobHash e = Ok (Row_Blob row, b) /\ blobs st !! Row_Blob row = Some b /\
    row = mkWorking (Entity_Kind e) (Entity_Key e) (SchemaVersion e) (EntityVersion e) (Row_Blob row) (Entity_Status e)
            (Entity_CreatedAt e) (Entity_UpdatedAt e) /\
    entity_references st !! id = Some (ExtractIndexes e).1 /\ entity_tags st !! id = Some (ExtractIndexes e).2 /\
    NoDup (Tag_TagID <$> (ExtractIndexes e).2).
Definition unique_active (st : EntityStore) : Prop :=
  forall id id' row row', working st !! id = Some row -> working st !! id' = Some row' ->
    Row_Status row = StatusActive -> Row_Status row' = StatusActive -> Row_Kind row = Row_Kind row' -> Row_Key row = Row_Key row' -> id = id'.
Definition rows_ok (st : EntityStore) : Prop :=
  (forall id row, working st !! id = Some row -> entity_row st id row) /\ unique_active st /\
  (forall id, is_Some (entity_references st !! id) -> is_Some (working st !! id)).

Lemma of_error_Ok {A : Type} (r : result A string) a : of_error r = Ok a <-> r = Ok a.
Proof. destruct r; simpl; [split; intros [= ->]; done|done]. Qed.
Lemma of_analysis_Ok {A : Type} (r : result A AnalyzeError) a : of_analysis r = Ok a <-> r = Ok a.
Proof. destruct r; simpl; [split; intros [= ->]; done|done]. Qed.
Lemma guard_Ok b e u : guard b e = Ok u <-> b = true.
Proof. destruct u. unfold guard. by destruct b. Qed.
Lemma or_not_found_Ok {A : Type} (o : option A) a : or_not_found o = Ok a <-> o = Some a.
Proof. destruct o; simpl; [split; intros [= ->]; done|done]. Qed.

(** What the blob of an entity keeps. *)
Lemma BlobHash_stored e h b : BlobHash e = Ok (h, b) ->
  Entity_ID b = coerce (Entity_ID e) /\ Entity_Kind b = Entity_Kind e /\ EntityVersion b = EntityVersion e /\
  Entity_Status b = Entity_Status e /\ SchemaVersion b = SchemaVersion e /\ Entity_CreatedAt b = Entity_CreatedAt e /\
  Entity_Key b = coerce (Entity_Key e) /\ Entity_UpdatedAt b = Entity_UpdatedAt e.
Proof.
  unfold BlobHash. intros (v & _ & Hv)%result_bind_Ok. apply result_bind_Ok in Hv as (t & _ & Ht).
  apply result_bind_Ok in Ht as (b' & Hb & [= _ <-]). unfold stored in Hb.
  apply result_bind_Ok in Hb as (p & _ & Hp). apply result_bind_Ok in Hp as (x & _ & [= <-]). done.
Qed.

Lemma active_conflict_false st kind key id : active_conflict st kind key id = false <->
  forall id' row, working st !! id' = Some row -> Row_Kind row = kind -> Row_Key row = key -> Row_Status row = StatusActive -> id' = id.
Proof.
  unfold active_conflict. rewrite <- not_true_iff_false, existsb_Exists, Exists_exists. split.
  - intros Hno id' row Hrow Hk Hkey Hs. destruct (decide (id' = id)) as [|Hne]; [done|]. exfalso. apply Hno.
    exists (id', row). split; [by apply elem_of_map_to_list|]. rewrite !andb_true_iff, negb_true_iff.
    rewrite !bool_decide_true, bool_decide_false by done. done.
  - intros Hall ([id' row] & Hin & Hb). apply elem_of_map_to_list in Hin. rewrite !andb_true_iff, negb_true_iff in Hb.
    destruct Hb as [[[Hk Hkey] Hs] Hne]. bool_to_prop. by apply Hne, (Hall id' row).
Qed.

(** What [saveTx] is called with: an insertion under a fresh valid identity, or
    an update of a row with the same kind and creation time. *)
Definition saves (st : EntityStore) (e : Entity) (create : bool) : Prop :=
  valid_text (Entity_ID e) /\ key_ok (Entity_Key e) /\
  if create then True
  else exists row, working st !! Entity_ID e = Some row /\ Row_Kind row = Entity_Kind e /\ Row_CreatedAt row = Entity_CreatedAt e.
(** No SHA-256 collision between the new blob and a stored one. *)
Definition clean_write (st : EntityStore) (e : Entity) : Prop :=
  forall h b b', BlobHash e = Ok (h, b) -> blobs st !! h = Some b' -> b' = b.

(** The same for several entities written by one transaction. *)
Definition clean_writes (st : EntityStore) (es : list Entity) : Prop :=
  forall e e' h b b', e ∈ es -> BlobHash e = Ok (h, b) ->
    (blobs st !! h = Some b' -> b' = b) /\ (e' ∈ es -> BlobHash e' = Ok (h, b') -> b' = b).

Lemma write_entity_inv st e create st' : write_entity st e create = Ok st' ->
  exists h b row, BlobHash e = Ok (h, b) /\ row_for st e h create = Ok row /\ NoDup (Tag_TagID <$> (ExtractIndexes e).2) /\
    st' = set_entity st h b (Entity_ID e) row (ExtractIndexes e).1 (ExtractIndexes e).2.
Proof.
  unfold write_entity. intros ([h b] & Hb & Hr)%result_bind_Ok. apply of_error_Ok in Hb.
  apply result_bind_Ok in Hr as (row & Hrow & Hr). destruct (ExtractIndexes e) as [refs tags] eqn:Hx.
  apply result_bind_Ok in Hr as (_ & _ & Hr). apply result_bind_Ok in Hr as (u & Ht%guard_Ok%nodupb_NoDup & [= <-]).
  exists h, b, row. done.
Qed.
Lemma row_for_inv st e h create row : saves st e create -> row_for st e h create = Ok row ->
  row = mkWorking (Entity_Kind e) (Entity_Key e) (SchemaVersion e) (EntityVersion e) h (Entity_Status e) (Entity_CreatedAt e) (Entity_UpdatedAt e) /\
  status_allowed (Entity_Status e) = true /\
  (create = true -> working st !! Entity_ID e = None) /\
  (Entity_Status e = StatusActive -> active_conflict st (Entity_Kind e) (Entity_Key e) (Entity_ID e) = false).
Proof.
  intros (_ & _ & Hs) Hrow. unfold row_for in Hrow. apply result_bind_Ok in Hrow as (u & Hst%guard_Ok & Hrow). destruct create.
  - destruct (bool_decide (is_Some _)) eqn:Hex; [done|]. bool_to_prop.
    destruct (bool_decide (Entity_Status e = _) && _) eqn:Hc; [done|]. injection Hrow as <-. split_and!; [done|done| |].
    + intros _. by apply eq_None_not_Some.
    + intros Hact. by rewrite bool_decide_true in Hc.
  - destruct Hs as (old & Hold & Hk & Hc). rewrite Hold in Hrow. cbn in Hrow.
    apply result_bind_Ok in Hrow as (u' & Hcf%guard_Ok & [= <-]). rewrite Hk, Hc in *. split_and!; [done|done|done|].
    intros Hact. rewrite bool_decide_true in Hcf by done. by apply negb_true_iff in Hcf.
Qed.

Lemma write_entity_rows st e create st' : rows_ok st -> saves st e create -> clean_write st e ->
  write_entity st e create = Ok st' -> rows_ok st'.
Proof.
  intros (Hrows & Huniq & Hrefs) Hs Hclean Hw. apply write_entity_inv in Hw as (h & b & row & Hb & Hrow & Htags & ->).
  destruct (row_for_inv _ _ _ _ _ Hs Hrow) as (Heq & _ & _ & Hact). destruct Hs as (Hid & Hkey' & _).
  assert (forall k b', blobs st !! k = Some b' -> blobs (set_entity st h b (Entity_ID e) row (ExtractIndexes e).1 (ExtractIndexes e).2) !! k = Some b') as Hkeep.
  { intros k b' Hk. cbn. destruct (blobs st !! h) eqn:Eh; [done|]. rewrite lookup_insert_ne; [done|]. intros ->. congruence. }
  split_and!.
  - intros id row' Hl. cbn in Hl. destruct (decide (id = Entity_ID e)) as [->|Hne].
    + rewrite lookup_insert in Hl. rewrite decide_True in Hl by done. injection Hl as <-. split; [done|]. exists e, b. split_and!; [done|done|by subst row| |by subst row|..].
      * rewrite Heq. cbn. destruct (blobs st !! h) as [b'|] eqn:Eh; [rewrite Eh; f_equal; by eapply Hclean|by rewrite lookup_insert, decide_True].
      * cbn. by rewrite lookup_insert, decide_True.
      * cbn. by rewrite lookup_insert, decide_True.
      * done.
    + rewrite lookup_insert_ne in Hl by done. destruct (Hrows id row' Hl) as (Hv & e' & b' & ? & ? & ? & ? & ? & ? & ? & ?).
      split; [done|]. exists e', b'. split_and!; [done|done|done|by apply Hkeep|done|..]; cbn; try (by rewrite lookup_insert_ne by done). done.
  - intros id id' r r' Hl Hl' Hr Hr' Hk Hkey. cbn in Hl, Hl'.
    destruct (decide (id = Entity_ID e)) as [->|Hne], (decide (id' = Entity_ID e)) as [->|Hne']; [done|..].
    + rewrite lookup_insert, decide_True in Hl by done. rewrite lookup_insert_ne in Hl' by done. injection Hl as <-. subst row. cbn in *.
      symmetry. eapply active_conflict_false; [by apply Hact|exact Hl'|done..].
    + rewrite lookup_insert, decide_True in Hl' by done. rewrite lookup_insert_ne in Hl by done. injection Hl' as <-. subst row. cbn in *.
      eapply active_conflict_false; [by apply Hact|exact Hl|done..].
    + rewrite lookup_insert_ne in Hl, Hl' by done. by eapply Huniq.
  - intros id. cbn. destruct (decide (id = Entity_ID e)) as [->|Hne]; [rewrite !lookup_insert, !decide_True by done; eauto|].
    rewrite !lookup_insert_ne by done. apply Hrefs.
Qed.
End rows.

(** ** What never changes *)
(** Blobs, revisions, their members and metadata, and completed runs are only
    ever added. *)
Record extends (st st' : EntityStore) : Prop := {
  keeps_blobs : blobs st ⊆ blobs st';
  keeps_revisions : config_revisions st ⊆ config_revisions st';
  keeps_members : revision_entities st ⊆ revision_entities st';
  keeps_metadata : revision_metadata st ⊆ revision_metadata st';
  keeps_runs : validation_runs st ⊆ validation_runs st'
}.
#[global] Instance extends_preorder : PreOrder extends.
Proof.
  split; [by intros st; split|]. intros x y z [] []. split; by etrans.
Qed.

(** ** Revisions *)
(** The texts of a stored entity that enter its row. *)
Definition named_text (b : Entity) : Prop := valid_text (Entity_ID b) /\ key_ok (Entity_Key b).
Record revision_ok (st : EntityStore) (r : ID) (row : RevisionRow) : Prop := {
  has_members : is_Some (revision_entities st !! r);
  hash_of_members : forall m, revision_entities st !! r = Some m -> Revision_ConfigHash row = manifest_hash m;
  members_present : forall m id mr, revision_entities st !! r = Some m -> (id, mr) ∈ m ->
    exists b, blobs st !! Member_Blob mr = Some b /\ named_text b;
  has_metadata : is_Some (revision_metadata st !! r)
}.
(** Revisions are numbered without gaps. *)
Definition numbered (st : EntityStore) : Prop :=
  Revision_Display <$> (map_to_list (config_revisions st)).*2 ≡ₚ Z.of_nat <$> seq 1 (size (config_revisions st)).
Record history_ok (st : EntityStore) : Prop := {
  revisions_ok : forall r row, config_revisions st !! r = Some row -> revision_ok st r row;
  revisions_numbered : numbered st;
  members_known : forall r, is_Some (revision_entities st !! r) -> is_Some (config_revisions st !! r)
}.
(** The newest revision is the working set. *)
Definition current_ok (st : EntityStore) : Prop :=
  (config_revisions st = ∅ -> working st = ∅) /\
  forall r row, config_revisions st !! r = Some row -> Revision_Display row = Z.of_nat (size (config_revisions st)) ->
    revision_entities st !! r = Some (working_manifest st).

Lemma max_seq n : foldr Z.max 0 (Z.of_nat <$> seq 1 n) = Z.of_nat n.
Proof.
  assert (forall k, foldr Z.max 0 (Z.of_nat <$> seq (S k) n) = if decide (n = O) then 0 else Z.of_nat (k + n)) as Hgen.
  { induction n as [|n IH]; intros k; [done|]. cbn [seq]. csimpl. rewrite IH. repeat case_decide; lia. }
  rewrite Hgen. case_decide; lia.
Qed.
Lemma max_perm l l' : l ≡ₚ l' -> foldr Z.max 0 l = foldr Z.max 0 l'.
Proof. induction 1; csimpl; [done|by f_equal|lia|congruence]. Qed.
Lemma next_display_size st : numbered st -> next_display st = Z.of_nat (S (size (config_revisions st))).
Proof. intros Hn. unfold next_display. rewrite (max_perm _ _ Hn), max_seq. lia. Qed.

Section history.
Context `{UnicodeTables, ApdLib, UuidLib, FloatText, TimeText}.

Lemma working_manifest_set (st st' : EntityStore) : working st = working st' -> working_manifest st = working_manifest st'.
Proof. intros Hw. unfold working_manifest, working_rows. by rewrite Hw. Qed.

Lemma elem_of_manifest st id mr : (id, mr) ∈ working_manifest st <-> exists row, working st !! id = Some row /\ mr = member_of row.
Proof.
  unfold working_manifest, working_rows. rewrite list_elem_of_fmap. split.
  - intros ([id' row] & [= -> ->] & Hin). rewrite elem_of_sort_by in Hin. apply elem_of_map_to_list in Hin. eauto.
  - intros (row & Hrow & ->). exists (id, row). split; [done|]. rewrite elem_of_sort_by. by apply elem_of_map_to_list.
Qed.

Lemma write_history_inv svc st d fields st' rev : write_history svc st d fields = Ok (st', rev) ->
  exists id meta der, new_revision d = Some id /\ config_revisions st !! id = None /\ revision_entities st !! id = None /\
    revision_metadata st !! id = None /\ Meta_Parent meta = parentRevisionID fields /\
    rev = mkRevisionSummary id (next_display st) (workingManifestHashTx st) (revision_time d) None /\
    st' = mkEntityStore (blobs st) (working st) (entity_references st) (entity_tags st)
            (<[id := mkRevisionRow (next_display st) (workingManifestHashTx st) (revision_time d)]> (config_revisions st))
            (<[id := working_manifest st]> (revision_entities st)) (<[id := meta]> (revision_metadata st)) der (validation_runs st).
Proof.
  unfold write_history. intros ([st1 r] & Hr & Hw)%result_bind_Ok. unfold writeRevision in Hr.
  apply result_bind_Ok in Hr as (id & Hid & Hr). unfold NewID in Hid. destruct (new_revision d) as [id'|]; [|done]. injection Hid as ->.
  apply result_bind_Ok in Hr as (? & Hc%guard_Ok & Hr). apply result_bind_Ok in Hr as (? & He%guard_Ok & [= <- <-]). bool_to_prop.
  apply result_bind_Ok in Hw as (st2 & Hm & Hw). unfold writeRevisionMetadata in Hm.
  apply result_bind_Ok in Hm as (manifest & _ & Hm). apply result_bind_Ok in Hm as (hash & _ & Hm).
  apply result_bind_Ok in Hm as (? & Hg%guard_Ok & [= <-]). bool_to_prop.
  apply result_bind_Ok in Hw as (st3 & Hd & [= <- <-]). unfold persistRevisionDerived in Hd.
  apply result_bind_Ok in Hd as ([references bindings] & _ & Hd). apply result_bind_Ok in Hd as ([fs ds] & _ & Hd).
  unfold replaceRevisionDerivedTx in Hd. apply result_bind_Ok in Hd as (? & _ & [= <-]).
  eexists id, _, _. split_and!; try done. reflexivity.
Qed.

Lemma row_named st id row : (forall id row, working st !! id = Some row -> entity_row st id row) -> working st !! id = Some row ->
  exists b, blobs st !! Row_Blob row = Some b /\ named_text b.
Proof.
  intros Hrows Hw. destruct (Hrows id row Hw) as (Hv & e & b & Hid & [Hkey Hne] & Hb & Hl & _). exists b. split; [done|].
  destruct (BlobHash_stored _ _ _ Hb) as (Hi & _ & _ & _ & _ & _ & Hk & _). unfold named_text, key_ok.
  by rewrite Hi, Hk, Hid, !coerce_valid.
Qed.

Lemma write_history_ok svc st d fields st' rev : rows_ok st -> history_ok st ->
  write_history svc st d fields = Ok (st', rev) -> rows_ok st' /\ history_ok st' /\ current_ok st' /\ extends st st'.
Proof.
  intros Hrows Hhist (id & meta & der & Hid & Hc & He & Hm & _ & -> & ->)%write_history_inv.
  pose proof (revisions_numbered _ Hhist) as Hnum. pose proof (next_display_size st Hnum) as Hnext. unfold numbered in Hnum. split_and!.
  - exact Hrows.
  - split.
    + intros r row Hr. cbn in Hr. destruct (decide (r = id)) as [->|Hne].
      * rewrite lookup_insert, decide_True in Hr by done. injection Hr as <-. split; cbn; rewrite ?lookup_insert, ?decide_True by done; [eauto|by intros m [= <-]| |eauto].
        intros m i mr [= <-] (row & Hw & ->)%elem_of_manifest. destruct Hrows as (Hrows & _). by apply (row_named _ i).
      * rewrite lookup_insert_ne in Hr by done. destruct (revisions_ok _ Hhist r row Hr).
        split; cbn; rewrite ?lookup_insert_ne by done; done.
    + unfold numbered. cbn [config_revisions]. rewrite map_to_list_insert by done. rewrite map_size_insert_None by done.
      rewrite seq_S, fmap_app, Permutation_app_comm. csimpl. rewrite Hnum, Hnext. done.
    + intros r. cbn. destruct (decide (r = id)) as [->|Hne]; [rewrite !lookup_insert, !decide_True by done; eauto|].
      rewrite !lookup_insert_ne by done. apply (members_known _ Hhist).
  - split; [cbn; intros Hempty; by apply insert_non_empty in Hempty|]. intros r row Hr Hd. cbn in Hr, Hd |- *.
    rewrite map_size_insert_None in Hd by done. destruct (decide (r = id)) as [->|Hne]; [by rewrite lookup_insert, decide_True|].
    exfalso. rewrite lookup_insert_ne in Hr by done.
    assert (Revision_Display row ∈ Z.of_nat <$> seq 1 (size (config_revisions st))) as Hin.
    { rewrite <- Hnum. apply list_elem_of_fmap. exists row. split; [done|].
      apply list_elem_of_fmap. exists (r, row). split; [done|]. by apply elem_of_map_to_list. }
    apply list_elem_of_fmap in Hin as (k & Hk & Hin%elem_of_seq). lia.
  - split; cbn; [done|by apply insert_subseteq..|done].
Qed.

(** Writing an entity leaves the history alone. *)
Lemma write_entity_history st e create st' : write_entity st e create = Ok st' ->
  extends st st' /\ config_revisions st' = config_revisions st /\ revision_entities st' = revision_entities st /\
  revision_metadata st' = revision_metadata st /\ validation_runs st' = validation_runs st.
Proof.
  intros (h & b & row & _ & _ & _ & ->)%write_entity_inv. split_and!; try done. split; cbn; try done.
  destruct (blobs st !! h) eqn:E; [done|]. by apply insert_subseteq.
Qed.
Lemma history_mono st st' : extends st st' -> config_revisions st' = config_revisions st -> revision_entities st' = revision_entities st ->
  revision_metadata st' = revision_metadata st -> history_ok st -> history_ok st'.
Proof.
  intros Hext Hc He Hm Hok. split.
  - intros r row. rewrite Hc. intros Hr. destruct (revisions_ok _ Hok r row Hr) as [Hmem Hhash Hpres Hmeta].
    split; rewrite ?He, ?Hm; [done|done| |done]. intros m id mr Hr' Hin. destruct (Hpres m id mr Hr' Hin) as (b & Hb & Ht).
    exists b. split; [|done]. eapply lookup_weaken; [exact Hb|apply (keeps_blobs _ _ Hext)].
  - unfold numbered. rewrite Hc. apply (revisions_numbered _ Hok).
  - intros r. rewrite Hc, He. apply (members_known _ Hok).
Qed.
End history.

(** ** Transactions preserve the invariant *)
Section steps.
Context `{UnicodeTables, ApdLib, UuidLib, FloatText, TimeText}.
Context (svc : Service).
Notation versions := (currentValidationVersionManifest svc).

(** Every stored FULL run of a revision is the analysis of that revision's
    members by the present validators. *)
Definition full_run_ok (st : EntityStore) (run : ValidationRun) : Prop :=
  Run_Scope run = ScopeFull -> Source_Kind (Run_Source run) = SourceRevision ->
  exists row issues, config_revisions st !! Source_RevisionID (Run_Source run) = Some row /\
    Revision_ConfigHash row = Source_InputHash (Run_Source run) /\ Run_Versions run = versions /\
    AnalyzeV1 (schemas svc) (formulas svc) versions (materializeRevisionEntitiesTx st (Source_RevisionID (Run_Source run))) ScopeFull = Ok issues /\
    Summary run = Summarize issues.
Definition runs_ok (st : EntityStore) : Prop :=
  forall id rep, validation_runs st !! id = Some rep -> full_run_ok st (Report_Run rep).

Record store_ok (st : EntityStore) : Prop := {
  ok_rows : rows_ok st; ok_history : history_ok st; ok_current : current_ok st; ok_runs : runs_ok st
}.

Lemma materialize_stable st st' r : extends st st' -> history_ok st -> is_Some (config_revisions st !! r) ->
  materializeRevisionEntitiesTx st' r = materializeRevisionEntitiesTx st r.
Proof.
  intros Hext Hok [row Hr]. destruct (revisions_ok _ Hok r row Hr) as [[m Hm] _ Hpres _]. unfold materializeRevisionEntitiesTx.
  rewrite Hm, (lookup_weaken _ _ _ _ Hm (keeps_members _ _ Hext)). cbn. specialize (Hpres m).
  assert (forall id mr, (id, mr) ∈ m -> is_Some (blobs st !! Member_Blob mr)) as Hall.
  { intros id mr Hin. destruct (Hpres id mr Hm Hin) as (b & Hb & _). eauto. }
  clear Hpres Hm.
  unfold materialize. induction m as [|[id mr] m IH]; [done|]. csimpl.
  destruct (Hall id mr) as [b Hb]; [by left|]. rewrite Hb, (lookup_weaken _ _ _ _ Hb (keeps_blobs _ _ Hext)).
  f_equal. apply IH. intros i mr' Hi. apply (Hall i mr'). by right.
Qed.
Lemma runs_mono st st' : extends st st' -> history_ok st -> validation_runs st' = validation_runs st -> runs_ok st -> runs_ok st'.
Proof.
  intros Hext Hok Hruns Hr id rep. rewrite Hruns. intros Hl Hs Hk. destruct (Hr id rep Hl Hs Hk) as (row & issues & Hrow & Hh & Hv & Ha & Hsum).
  exists row, issues. split_and!; [eapply lookup_weaken; [exact Hrow|apply (keeps_revisions _ _ Hext)]|done|done| |done].
  rewrite (materialize_stable st st'); eauto.
Qed.

Lemma set_runs_extends st run issues : validation_runs st !! Run_ID run = None ->
  extends st (set_runs st (<[Run_ID run := mkReport run (SortIssues issues)]> (validation_runs st))).
Proof. intros Hn. split; cbn; try done. by apply insert_subseteq. Qed.
Lemma insert_run_inv st run issues st' : insertCompletedValidationRunTx st run issues = Ok st' ->
  validation_runs st !! Run_ID run = None /\ st' = set_runs st (<[Run_ID run := mkReport run (SortIssues issues)]> (validation_runs st)).
Proof.
  unfold insertCompletedValidationRunTx. intros (? & Hr%guard_Ok & Hi)%result_bind_Ok. apply result_bind_Ok in Hi as (? & _ & [= <-]).
  unfold run_row_ok in Hr. by bool_to_prop.
Qed.
Lemma insert_run_ok st run issues st' : store_ok st -> full_run_ok st run ->
  insertCompletedValidationRunTx st run issues = Ok st' -> store_ok st' /\ extends st st' /\ working st' = working st /\
    config_revisions st' = config_revisions st.
Proof.
  intros Hok Hrun [Hn ->]%insert_run_inv. pose proof (set_runs_extends st run issues Hn) as Hext. split_and!; [|done..].
  destruct Hok as [Hrows Hhist Hcur Hruns]. split; [done|by eapply history_mono|done|].
  intros id rep Hl. cbn in Hl. destruct (decide (id = Run_ID run)) as [->|Hne].
  - rewrite lookup_insert, decide_True in Hl by done. by injection Hl as <-.
  - rewrite lookup_insert_ne in Hl by done. by eapply Hruns.
Qed.
Lemma NewCompletedRun_inv id source scope vs issues at_ run : NewCompletedRun id source scope vs issues at_ = Ok run ->
  Run_ID run = id /\ Run_Source run = source /\ Run_Scope run = scope /\ Run_Versions run = vs /\ Summary run = Summarize issues /\
  Run_Status run = RunCompleted.
Proof.
  unfold NewCompletedRun. destruct (_ || _); [done|]. destruct (negb (forallb _ _)); [done|].
  intros (h & _ & [= <-])%result_bind_Ok. done.
Qed.

Lemma local_validation_ok st d entities symbols rev vs st' out : store_ok st ->
  persistLocalValidationForEntitiesAndSymbols svc st d entities symbols rev vs = Ok (st', out) ->
  store_ok st' /\ extends st st' /\ working st' = working st /\ config_revisions st' = config_revisions st.
Proof.
  intros Hok. unfold persistLocalValidationForEntitiesAndSymbols. intros (issues & _ & Hl)%result_bind_Ok.
  apply result_bind_Ok in Hl as (source & _ & Hl). apply result_bind_Ok in Hl as (runID & _ & Hl).
  apply result_bind_Ok in Hl as (run & Hrun%of_error_Ok%NewCompletedRun_inv & Hl).
  apply result_bind_Ok in Hl as (? & _ & Hl). apply result_bind_Ok in Hl as (st1 & Hi & [= <- <-]).
  eapply insert_run_ok; [done| |exact Hi]. destruct Hrun as (_ & _ & Hs & _). intros Hfull. congruence.
Qed.

Lemma saveTx_inv st d e create st' rev : saveTx svc st d e create = Ok (st', rev) ->
  exists st1 st2 r summary, write_entity st e create = Ok st1 /\ write_history svc st1 d no_fields = Ok (st2, r) /\
    persistLocalValidation svc st2 d e r versions = Ok (st', summary) /\ rev = with_validation r summary.
Proof.
  unfold saveTx. intros (st1 & Hw & Hs)%result_bind_Ok. apply result_bind_Ok in Hs as ([st2 r] & Hh & Hs).
  apply result_bind_Ok in Hs as ([st3 summary] & Hl & [= <- <-]). eauto 8.
Qed.
Lemma saveTx_ok st d e create st' rev : store_ok st -> saves st e create -> clean_write st e ->
  saveTx svc st d e create = Ok (st', rev) -> store_ok st' /\ extends st st'.
Proof.
  intros [Hrows Hhist Hcur Hruns] Hs Hc (st1 & st2 & r & summary & Hw & Hh & Hl & ->)%saveTx_inv.
  pose proof (write_entity_rows _ _ _ _ Hrows Hs Hc Hw) as Hrows1.
  destruct (write_entity_history _ _ _ _ Hw) as (Hext1 & Hc1 & He1 & Hm1 & Hv1).
  pose proof (history_mono _ _ Hext1 Hc1 He1 Hm1 Hhist) as Hhist1.
  pose proof (runs_mono _ _ Hext1 Hhist Hv1 Hruns) as Hruns1.
  destruct (write_history_ok _ _ _ _ _ _ Hrows1 Hhist1 Hh) as (Hrows2 & Hhist2 & Hcur2 & Hext2).
  assert (validation_runs st2 = validation_runs st1) as Hv2 by (apply write_history_inv in Hh as (? & ? & ? & _ & _ & _ & _ & _ & _ & ->); done).
  destruct (local_validation_ok st2 d _ _ _ _ _ _ (Build_store_ok st2 Hrows2 Hhist2 Hcur2 (runs_mono _ _ Hext2 Hhist1 Hv2 Hruns1)) Hl)
    as (Hok & Hext3 & _). split; [done|]. by etrans; [|etrans].
Qed.

(** The transactions that edit the working set or read it: they only advance
    versions.  A patch was computed from an entity read before; it and the
    entities of an accepted proposal carry the creation times of the rows they
    replace. *)
Inductive edit_step (st st' : EntityStore) : Prop :=
  | step_create d p newID now kind draft e0 e rev :
      valid_text newID -> NewEntity (Some newID) kind draft now = Ok e0 -> validateProspective svc e0 = Ok e -> clean_write st e ->
      save_tx svc d e true p st = Ok (st', rev) -> edit_step st st'
  | step_patch d p now kind id version fields read next0 next rev :
      valid_text id -> Entity_ID read = id -> Entity_Kind read = kind -> EntityVersion read = version ->
      (forall row, working st !! id = Some row -> Row_CreatedAt row = Entity_CreatedAt read) ->
      ApplyPatch read fields now = Ok next0 -> validateProspective svc next0 = Ok next -> clean_write st next ->
      patch_tx svc d kind id version next p st = Ok (st', rev) -> edit_step st st'
  | step_delete d now kind id version e out :
      valid_text id -> getTx st kind id = Ok e -> clean_write st (archived now e) ->
      Delete svc st d now kind id version = Ok (st', out) -> edit_step st st'
  | step_checkpoint d current name description rev :
      CreateCheckpoint svc st d current name description = Ok (st', rev) -> edit_step st st'
  | step_validation newID now kind revisionID scope rep :
      RunValidation svc st newID now kind revisionID scope = Ok (st', rep) -> edit_step st st'
  | step_rebuild revisionID registry symbols :
      RebuildRevisionDerived st revisionID registry symbols = Ok st' -> edit_step st st'
  | step_accept d now base configHash targets proposal changed rev :
      acceptedAIEntities svc now proposal (list_to_set (Target_EntityID <$> targets)) = Ok changed ->
      (forall e row, e ∈ changed -> working st !! Entity_ID e = Some row -> Row_CreatedAt row = Entity_CreatedAt e) ->
      clean_writes st changed ->
      accept_proposal svc st d now base configHash targets proposal = Ok (st', rev) -> edit_step st st'.
(** The transactions a store commits: these, and the return of the working set to
    a published revision. *)
Inductive entity_step (st st' : EntityStore) : Prop :=
  | step_edit : edit_step st st' -> entity_step st st'
  | step_restore d releases current sourceReleaseID rev :
      (forall r, releases sourceReleaseID = Some r -> Forall (clean_write st) (materializeRevisionEntitiesTx st r)) ->
      RestoreRelease svc st d releases current sourceReleaseID = Ok (st', rev) -> entity_step st st'.

(** The blob behind a row. *)
Lemma row_blob st id row : rows_ok st -> working st !! id = Some row ->
  exists b, blobs st !! Row_Blob row = Some b /\ Entity_ID b = id /\ Entity_Key b = Row_Key row /\ Entity_Kind b = Row_Kind row /\
    Entity_Status b = Row_Status row /\ valid_text id /\ key_ok (Row_Key row).
Proof.
  intros (Hrows & _) Hw. destruct (Hrows id row Hw) as (Hv & e & b & Hid & Hkey & Hb & Hl & Heq & _).
  destruct (BlobHash_stored _ _ _ Hb) as (B1 & B2 & _ & B4 & _ & _ & B7 & _). exists b. rewrite Heq in *. cbn in *.
  destruct Hkey. split_and!; try done; [by rewrite B1, Hid, coerce_valid|by rewrite B7, coerce_valid].
Qed.
Lemma getTx_row st kind id e : rows_ok st -> valid_text id -> getTx st kind id = Ok e ->
  exists row, working st !! id = Some row /\ entity_row st id row /\ blobs st !! Row_Blob row = Some e /\ Row_Kind row = kind /\
    Entity_ID e = id /\ Entity_Kind e = kind /\ EntityVersion e = Row_Version row /\ Entity_Status e = Row_Status row /\
    Entity_CreatedAt e = Row_CreatedAt row.
Proof.
  intros (Hrows & _) Hv. unfold getTx. destruct (working st !! id) as [row|] eqn:Hw; [|done].
  destruct (bool_decide (Row_Kind row = kind)) eqn:Hk; [|done]. bool_to_prop. intros He%or_not_found_Ok.
  pose proof (Hrows id row Hw) as Hrow. destruct Hrow as (_ & e0 & b & Hid & Hkey & Hb & Hl & Heq & _). rewrite Hl in He. injection He as ->.
  destruct (BlobHash_stored _ _ _ Hb) as (H1' & H2' & H3' & H4' & H5' & H6' & _). exists row. rewrite Heq in *. cbn in *.
  split_and!; try done; [by apply Hrows|..]; try congruence. rewrite H1', Hid. by apply coerce_valid.
Qed.
Lemma validateProspective_keeps e e' : validateProspective svc e = Ok e' ->
  Entity_ID e' = Entity_ID e /\ Entity_Kind e' = Entity_Kind e /\ Entity_CreatedAt e' = Entity_CreatedAt e /\
  EntityVersion e' = EntityVersion e /\ Entity_Status e' = Entity_Status e /\ Entity_TagIDs e' = Entity_TagIDs e /\ Entity_Key e' = Entity_Key e.
Proof.
  unfold validateProspective. destruct (NormalizeNumericEntity e) as [n|] eqn:Hn; [|done].
  unfold NormalizeNumericEntity in Hn. apply result_bind_Ok in Hn as (payload & _ & [= <-]).
  destruct (Registry_Validate _ _); [|done]. by intros [= <-].
Qed.

(** A validated entity has a lower snake case key. *)
Lemma validated_key e e' : validateProspective svc e = Ok e' -> key_ok (Entity_Key e').
Proof.
  unfold validateProspective. destruct (NormalizeNumericEntity e) as [n|]; [|done].
  destruct (Registry_Validate (schemas svc) n) eqn:Hv; [|done]. intros [= <-].
  unfold Registry_Validate in Hv. apply sort_by_nil in Hv. rewrite !app_nil in Hv. destruct Hv as (_ & Hk & _).
  destruct (keyPattern (Entity_Key n)) eqn:Hp; [|done]. unfold keyPattern in Hp.
  destruct (Entity_Key n) as [|a t]; [done|]. split; [|done]. apply ascii_text. apply andb_prop in Hp as [Ha Ht]. cbn [all_chars]. apply andb_true_iff.
  split; [unfold lower_letter, in_range in Ha; bool_to_prop; apply Z.ltb_lt; lia|].
  clear -Ht. induction t as [|b t IH]; [done|]. cbn [all_chars] in *. apply andb_prop in Ht as [Hb Ht]. rewrite (IH Ht), andb_true_r.
  apply Z.ltb_lt. apply orb_prop in Hb as [[Hb|Hb]%orb_prop|Hb].
  - unfold lower_letter, in_range in Hb. bool_to_prop. lia.
  - unfold is_digit, in_range in Hb. bool_to_prop. lia.
  - bool_to_prop. by subst.
Qed.
Lemma patch_saves st kind id version fields current read next0 next now : rows_ok st -> valid_text id ->
  getTx st kind id = Ok current -> Entity_ID read = id -> Entity_Kind read = kind -> EntityVersion read = version ->
  (forall row, working st !! id = Some row -> Row_CreatedAt row = Entity_CreatedAt read) ->
  ApplyPatch read fields now = Ok next0 -> validateProspective svc next0 = Ok next ->
  saves st next false /\ Entity_ID next = id /\ EntityVersion next = version + 1 /\ Entity_Kind next = kind.
Proof.
  intros Hrows Hid Hget Hri Hrk Hv Hrc Hp Hval. destruct (getTx_row _ _ _ _ Hrows Hid Hget) as (row & Hw & _ & _ & Hk & _). specialize (Hrc row Hw).
  destruct (patch_keeps_identity _ _ _ _ Hp) as (P1 & P2 & _ & _ & P5 & P6 & _). destruct (validateProspective_keeps _ _ Hval) as (G1 & G2 & G3 & G4 & _).
  assert (Entity_ID next = id) as Hid' by congruence. rewrite <- Hv. split_and!; [|congruence..].
  split; [by rewrite Hid'|]. split; [by eapply validated_key|]. exists row. rewrite Hid'. split_and!; [done|congruence|congruence].
Qed.

(** The row a save leaves, the others unchanged. *)
Lemma saveTx_row st d e create st' rev : saveTx svc st d e create = Ok (st', rev) ->
  exists h row, row_for st e h create = Ok row /\ working st' = <[Entity_ID e := row]> (working st) /\
    entity_references st' = <[Entity_ID e := (ExtractIndexes e).1]> (entity_references st).
Proof.
  intros (st1 & st2 & r & summary & Hw & Hh & Hl & ->)%saveTx_inv.
  apply write_entity_inv in Hw as (h & b & row & _ & Hrow & _ & ->). exists h, row. split; [done|].
  apply write_history_inv in Hh as (? & ? & ? & _ & _ & _ & _ & _ & _ & ->). cbn in Hl.
  unfold persistLocalValidation, persistLocalValidationForEntitiesAndSymbols in Hl.
  apply result_bind_Ok in Hl as (issues & _ & Hl). apply result_bind_Ok in Hl as (source & _ & Hl).
  apply result_bind_Ok in Hl as (runID & _ & Hl). apply result_bind_Ok in Hl as (run & _ & Hl).
  apply result_bind_Ok in Hl as (? & _ & Hl). apply result_bind_Ok in Hl as (st1 & [_ ->]%insert_run_inv & [= <- <-]). done.
Qed.
Lemma saveTx_working st d e create st' rev : saves st e create -> saveTx svc st d e create = Ok (st', rev) ->
  exists row, working st' = <[Entity_ID e := row]> (working st) /\ Row_Version row = EntityVersion e /\ Row_Kind row = Entity_Kind e /\
    (create = true -> working st !! Entity_ID e = None) /\ Row_Status row = Entity_Status e /\
    entity_references st' = <[Entity_ID e := (ExtractIndexes e).1]> (entity_references st).
Proof.
  intros Hs (h & row & Hrow & Hw & Hrefs)%saveTx_row. exists row. by destruct (row_for_inv _ _ _ _ _ Hs Hrow) as (-> & _ & Hnone & _).
Qed.
Lemma row_for_version st e h create row : row_for st e h create = Ok row -> Row_Version row = EntityVersion e.
Proof.
  unfold row_for. intros (? & _ & Hr)%result_bind_Ok. destruct create.
  - destruct (_ || _); [done|]. by injection Hr as <-.
  - apply result_bind_Ok in Hr as (old & _ & Hr). by apply result_bind_Ok in Hr as (? & _ & [= <-]).
Qed.

Lemma save_tx_inv d e create p st st' rev : save_tx svc d e create p st = Ok (st', rev) ->
  recheckLocalPreflightTx st p = true /\ saveTx svc st d e create = Ok (st', rev).
Proof.
  unfold save_tx. intros (? & Hp%guard_Ok & Hs)%result_bind_Ok. apply result_bind_Ok in Hs as (? & _ & Hs). done.
Qed.
Lemma patch_tx_inv d kind id version next p st st' rev : patch_tx svc d kind id version next p st = Ok (st', rev) ->
  exists current, getTx st kind id = Ok current /\ EntityVersion current = version /\
    recheckLocalPreflightTx st p = true /\ saveTx svc st d next false = Ok (st', rev).
Proof.
  unfold patch_tx. intros (current & Hc & Hs)%result_bind_Ok. apply result_bind_Ok in Hs as (? & Hv%guard_Ok & Hs).
  apply result_bind_Ok in Hs as (? & Hp%guard_Ok & Hs). apply result_bind_Ok in Hs as (? & _ & Hs). bool_to_prop. eauto.
Qed.
Lemma Delete_inv st d now kind id version st' out : Delete svc st d now kind id version = Ok (st', out) ->
  exists e rev, getTx st kind id = Ok e /\ EntityVersion e = version /\ active_references st id = [] /\
    saveTx svc st d (archived now e) false = Ok (st', rev) /\ out = (archived now e, rev).
Proof.
  unfold Delete. intros (? & _ & Hs)%result_bind_Ok. apply result_bind_Ok in Hs as (e & He & Hs).
  apply result_bind_Ok in Hs as (? & Hv%guard_Ok & Hs). apply result_bind_Ok in Hs as (? & Hr & Hs). bool_to_prop.
  apply result_bind_Ok in Hs as ([st1 rev] & Hs & [= <- <-]). exists e, rev. split_and!; try done. by destruct (active_references st id).
Qed.
Lemma delete_saves st kind id e now : rows_ok st -> valid_text id -> getTx st kind id = Ok e -> saves st (archived now e) false.
Proof.
  intros Hrows Hid Hget. destruct (getTx_row _ _ _ _ Hrows Hid Hget) as (row & Hw & _ & _ & Hk & Hi & Hek & _ & _ & Hec).
  destruct (row_blob st id row Hrows Hw) as (b & Hb & _ & Hkey & _ & _ & _ & Hvk).
  assert (b = e) as -> by (unfold getTx in Hget; rewrite Hw in Hget; rewrite Hb, bool_decide_true in Hget by done; by injection Hget).
  split; [cbn; by rewrite Hi|]. split; [cbn; by rewrite Hkey|]. exists row. cbn. rewrite Hi. split_and!; [done|congruence|congruence].
Qed.
Lemma create_saves st e0 e newID now kind draft : valid_text newID -> NewEntity (Some newID) kind draft now = Ok e0 ->
  validateProspective svc e0 = Ok e -> saves st e true /\ Entity_ID e = newID.
Proof. intros Hv [= <-] Hval. destruct (validateProspective_keeps _ _ Hval) as (Hid & _). cbn in Hid. split; [|done].
  split; [by rewrite Hid|]. split; [by eapply validated_key|done].
Qed.

Lemma checkpoint_ok st d current name description st' rev : store_ok st ->
  CreateCheckpoint svc st d current name description = Ok (st', rev) -> store_ok st' /\ extends st st' /\ working st' = working st.
Proof.
  intros [Hrows Hhist Hcur Hruns]. unfold CreateCheckpoint. intros (? & _ & Hs)%result_bind_Ok.
  apply result_bind_Ok in Hs as (? & _ & Hs). apply result_bind_Ok in Hs as (? & _ & Hs). apply result_bind_Ok in Hs as (? & _ & Hs).
  apply result_bind_Ok in Hs as ([st1 r] & Hh & Hs). apply result_bind_Ok in Hs as ([st2 summary] & Hl & [= <- <-]).
  destruct (write_history_ok _ _ _ _ _ _ Hrows Hhist Hh) as (Hrows1 & Hhist1 & Hcur1 & Hext1).
  assert (validation_runs st1 = validation_runs st /\ working st1 = working st) as [Hv1 Hw1]
    by (apply write_history_inv in Hh as (? & ? & ? & _ & _ & _ & _ & _ & _ & ->); done).
  destruct (local_validation_ok st1 _ _ _ _ _ _ _ (Build_store_ok st1 Hrows1 Hhist1 Hcur1 (runs_mono _ _ Hext1 Hhist Hv1 Hruns)) Hl)
    as (Hok & Hext2 & Hw2 & _). split_and!; [done|by etrans|congruence].
Qed.
Lemma MaterializeValidationSource_revision st r source entities : MaterializeValidationSource st SourceRevision r = Ok (source, entities) ->
  entities = materializeRevisionEntitiesTx st r /\ Source_Kind source = SourceRevision /\ Source_RevisionID source = r /\
  exists row, config_revisions st !! r = Some row /\ Revision_ConfigHash row = Source_InputHash source.
Proof.
  unfold MaterializeValidationSource. destruct (ID_Valid r) eqn:Hid; [|done]. simpl negb. cbv iota.
  intros (row & Hr%or_not_found_Ok & Hs)%result_bind_Ok. apply result_bind_Ok in Hs as (s & Hs%of_error_Ok & [= <- <-]).
  unfold NewSource in Hs. rewrite Hid in Hs. destruct (bool_decide (SourceRevision = SourceRevision) && negb true); [done|].
  destruct (_ && _); [done|]. destruct (negb _); [done|]. injection Hs as <-. eauto 6.
Qed.
Lemma MaterializeValidationSource_kind st k r source entities : MaterializeValidationSource st k r = Ok (source, entities) -> Source_Kind source = k.
Proof.
  destruct k; [|by intros (_ & ? & _)%MaterializeValidationSource_revision|done].
  unfold MaterializeValidationSource. intros (s & Hs%of_error_Ok & [= <- <-])%result_bind_Ok. unfold NewSource in Hs.
  repeat match type of Hs with (if ?b then _ else _) = _ => destruct b; [done|] end. by injection Hs as <-.
Qed.
Lemma RunValidation_ok st newID now kind r scope st' rep : store_ok st ->
  RunValidation svc st newID now kind r scope = Ok (st', rep) -> store_ok st' /\ extends st st' /\ working st' = working st.
Proof.
  intros Hok. unfold RunValidation. intros ([source entities] & Hm & Hs)%result_bind_Ok.
  apply result_bind_Ok in Hs as (issues & Ha%of_analysis_Ok & Hs). apply result_bind_Ok in Hs as (id & _ & Hs).
  apply result_bind_Ok in Hs as (run & Hrun%of_error_Ok%NewCompletedRun_inv & Hs).
  apply result_bind_Ok in Hs as (st1 & Hi & [= <- <-]). unfold InsertCompletedValidationRun in Hi.
  apply result_bind_Ok in Hi as (? & _ & Hi). apply result_bind_Ok in Hi as (? & _ & Hi). apply result_bind_Ok in Hi as (? & _ & Hi).
  destruct Hrun as (_ & Hsource & Hscope & Hversions & Hsum & _).
  enough (full_run_ok st run) as Hfr by (destruct (insert_run_ok st run issues st1 Hok Hfr Hi) as (? & ? & ? & _); done).
  intros Hfull Hkind. rewrite Hsource in Hkind. pose proof (MaterializeValidationSource_kind _ _ _ _ _ Hm) as Hk. rewrite Hkind in Hk. subst kind.
  apply MaterializeValidationSource_revision in Hm as (-> & _ & Hr & row & Hrow & Hh). rewrite Hsource, Hr.
  exists row, issues. split_and!; [done|done|done| |done]. assert (scope = ScopeFull) as Heq by congruence. by rewrite <- Heq.
Qed.
Lemma rebuild_ok st r registry symbols st' : store_ok st -> RebuildRevisionDerived st r registry symbols = Ok st' ->
  store_ok st' /\ extends st st' /\ working st' = working st.
Proof.
  intros [Hrows Hhist Hcur Hruns]. unfold RebuildRevisionDerived. intros ([source entities] & _ & Hs)%result_bind_Ok.
  apply result_bind_Ok in Hs as ([references bindings] & _ & Hs). apply result_bind_Ok in Hs as ([fs ds] & _ & Hs).
  destruct ds; [|done]. unfold replaceRevisionDerivedTx in Hs. apply result_bind_Ok in Hs as (? & _ & [= <-]).
  assert (extends st (set_derived st (<[r := mkDerived fs references]> (derived st)))) as Hext by by split.
  split_and!; [|done|done]. split; [done|by eapply history_mono|done|by eapply runs_mono].
Qed.

(** *** Transactions that write several entities *)
(** An invariant along a traversal, each element known to be one of the list. *)
Lemma foldr_result_along {A S E : Type} (f : S -> A -> result S E) (P : list A -> S -> Prop) s l s' :
  P [] s -> (forall done a s1 s2, a ∈ l -> Forall (fun x => x ∈ l) done -> P done s1 -> f s1 a = Ok s2 -> P (done ++ [a])%list s2) ->
  foldr_result f s l = Ok s' -> P l s'.
Proof.
  intros Hbase Hstep. assert (forall d k s0, Forall (fun x => x ∈ l) d -> Forall (fun x => x ∈ l) k -> P d s0 ->
    foldr_result f s0 k = Ok s' -> P (d ++ k)%list s') as Hgen.
  { intros d k. revert d. induction k as [|a k IH]; intros d s0 Hd Hk Hp; simpl; [intros [= <-]; by rewrite app_nil_r|].
    apply Forall_cons in Hk as [Ha Hk]. intros (s1 & Hf & Hr)%result_bind_Ok. replace (d ++ a :: k)%list with ((d ++ [a]) ++ k)%list by by rewrite <- app_assoc.
    eapply IH; [|done| |exact Hr]; [by apply Forall_app; split; [done|constructor]|by eapply Hstep]. }
  apply (Hgen [] l s); [done|by apply Forall_forall|done].
Qed.

(** A state between [st] and the end of the transaction that writes [es]: only
    the working set and the blobs of [es] differ. *)
Record amended (st : EntityStore) (es : list Entity) (s : EntityStore) : Prop := {
  amended_rows : rows_ok s;
  amended_extends : extends st s;
  amended_revisions : config_revisions s = config_revisions st;
  amended_members : revision_entities s = revision_entities st;
  amended_metadata : revision_metadata s = revision_metadata st;
  amended_runs : validation_runs s = validation_runs st;
  amended_blobs : forall h b, blobs s !! h = Some b -> blobs st !! h = Some b \/ exists e, e ∈ es /\ BlobHash e = Ok (h, b)
}.
Lemma amended_write st es s e create s' : amended st es s -> e ∈ es -> clean_writes st es -> saves s e create ->
  write_entity s e create = Ok s' -> amended st es s'.
Proof.
  intros [Hrows Hext Hc He Hm Hv Hb] Hin Hclean Hs Hw. assert (clean_write s e) as Hce.
  { intros h b b' Hh Hl. destruct (Hb h b' Hl) as [Hst|(e' & Hin' & He')]; [exact (proj1 (Hclean e e h b b' Hin Hh) Hst)|exact (proj2 (Hclean e e' h b b' Hin Hh) Hin' He')]. }
  destruct (write_entity_history _ _ _ _ Hw) as (Hext' & Hc' & He' & Hm' & Hv').
  split; [by eapply write_entity_rows|by etrans|congruence..|]. intros h b Hl.
  apply write_entity_inv in Hw as (h1 & b1 & row & Hb1 & _ & _ & ->). cbn in Hl. destruct (blobs s !! h1) eqn:E; [by apply Hb|].
  rewrite lookup_insert in Hl. case_decide as Hk; [|by apply Hb]. injection Hl as <-. subst h1. right. by exists e.
Qed.

(** The revision written after an amendment, and its LOCAL run. *)
Lemma amended_history_ok st es s d fields entities symbols s2 rev st' summary : store_ok st -> amended st es s ->
  write_history svc s d fields = Ok (s2, rev) ->
  persistLocalValidationForEntitiesAndSymbols svc s2 d entities symbols rev versions = Ok (st', summary) ->
  store_ok st' /\ extends st st' /\ working st' = working s.
Proof.
  intros [Hrows Hhist Hcur Hruns] [Hrows1 Hext Hc He Hm Hv Hb] Hh Hl.
  pose proof (history_mono _ _ Hext Hc He Hm Hhist) as Hhist1. pose proof (runs_mono _ _ Hext Hhist Hv Hruns) as Hruns1.
  destruct (write_history_ok _ _ _ _ _ _ Hrows1 Hhist1 Hh) as (Hrows2 & Hhist2 & Hcur2 & Hext2).
  assert (validation_runs s2 = validation_runs s /\ working s2 = working s) as [Hv2 Hw2]
    by (apply write_history_inv in Hh as (? & ? & ? & _ & _ & _ & _ & _ & _ & ->); done).
  destruct (local_validation_ok s2 d _ _ _ _ _ _ (Build_store_ok s2 Hrows2 Hhist2 Hcur2 (runs_mono _ _ Hext2 Hhist1 Hv2 Hruns1)) Hl)
    as (Hok & Hext3 & Hw3 & _). split_and!; [done|by etrans; [|etrans]|congruence].
Qed.

(** Every member of a revision has the texts of a row. *)
Lemma materialized_named st r e : history_ok st -> e ∈ materializeRevisionEntitiesTx st r -> named_text e.
Proof.
  intros Hhist He. unfold materializeRevisionEntitiesTx, materialize in He. apply list_elem_of_omap in He as ([id mr] & Hin & Hb).
  destruct (revision_entities st !! r) as [m|] eqn:Hm; [|by apply elem_of_nil in Hin]. cbn in Hin.
  destruct (members_known _ Hhist r) as [row Hr]; [eauto|].
  destruct (members_present _ _ _ (revisions_ok _ Hhist r row Hr) m id mr Hm Hin) as (b & Hb' & Ht). congruence.
Qed.
Lemma restore_row_written s e s' : restore_row s e = Ok s' -> write_entity s e true = Ok s' /\ blobs s' = blobs s.
Proof.
  unfold restore_row, write_entity. intros ([h b] & Hb & Hr)%result_bind_Ok. rewrite Hb. cbn [result_bind].
  apply result_bind_Ok in Hr as (? & Hx%guard_Ok & Hr). apply result_bind_Ok in Hr as (row & Hrow & Hr). rewrite Hrow. cbn [result_bind].
  destruct (ExtractIndexes e) as [refs tags]. split; [done|]. apply result_bind_Ok in Hr as (? & _ & Hr).
  apply result_bind_Ok in Hr as (? & _ & [= <-]). bool_to_prop. cbn. by destruct Hx as [b' ->].
Qed.
Lemma replaced st r st1 : store_ok st -> Forall (clean_write st) (materializeRevisionEntitiesTx st r) ->
  replaceWorkingEntitiesTx st (materializeRevisionEntitiesTx st r) = Ok st1 -> amended st [] st1.
Proof.
  intros [Hrows Hhist Hcur Hruns] Hclean Hf. rewrite Forall_forall in Hclean. unfold replaceWorkingEntitiesTx in Hf.
  eapply (foldr_result_along restore_row (fun _ s => amended st [] s /\ blobs s = blobs st)); [|..|exact Hf]; [split; [|done]|].
  - split; try done; [|by left]. split_and!; [by intros id row|by intros id id' row row'|by intros id []].
  - intros before e s s' Hin _ [Ha Hbs] Hr. apply restore_row_written in Hr as [Hw Hbs']. split; [|congruence].
    destruct Ha as [Hrows1 Hext Hc He Hm Hv Hb]. destruct (write_entity_history _ _ _ _ Hw) as (Hext' & Hc' & He' & Hm' & Hv').
    destruct (materialized_named st r e Hhist Hin) as [Hid Hkey].
    split; [|by etrans|congruence..|intros h b; rewrite Hbs', Hbs; by left].
    eapply (write_entity_rows s e true); [done|split; [exact Hid|by split]| |exact Hw]. intros h b b' Hh. rewrite Hbs. exact (Hclean e Hin h b b' Hh).
Qed.
Lemma restore_ok st d releases current source st' rev : store_ok st ->
  (forall r, releases source = Some r -> Forall (clean_write st) (materializeRevisionEntitiesTx st r)) ->
  RestoreRelease svc st d releases current source = Ok (st', rev) -> store_ok st' /\ extends st st'.
Proof.
  intros Hok Hclean. unfold RestoreRelease. intros (? & _ & Hs)%result_bind_Ok. apply result_bind_Ok in Hs as (? & _ & Hs).
  destruct (releases source) as [r|] eqn:Hr; [|done]. apply result_bind_Ok in Hs as (st1 & Hrep & Hs).
  apply result_bind_Ok in Hs as ([st2 rv] & Hh & Hs). apply result_bind_Ok in Hs as ([st3 summary] & Hl & [= <- _]).
  pose proof (replaced st r st1 Hok (Hclean r eq_refl) Hrep) as Ha.
  destruct (amended_history_ok _ _ _ _ _ _ _ _ _ _ _ Hok Ha Hh Hl) as (? & ? & _). done.
Qed.

(** A row stays or moves to a higher version; none disappears. *)
Definition evolves (st st' : EntityStore) : Prop :=
  forall id row, working st !! id = Some row ->
    exists row', working st' !! id = Some row' /\ Row_Kind row' = Row_Kind row /\ (row' = row \/ Row_Version row < Row_Version row').
#[global] Instance evolves_preorder : PreOrder evolves.
Proof.
  split; [by intros st id row; eauto|]. intros x y z Hxy Hyz id row Hrow.
  destruct (Hxy id row Hrow) as (row1 & Hrow1 & Hk1 & Hv1). destruct (Hyz id row1 Hrow1) as (row2 & Hrow2 & Hk2 & Hv2).
  exists row2. split_and!; [done|congruence|]. destruct Hv1 as [->|], Hv2 as [->|]; [by left|right; lia..].
Qed.
Lemma evolves_working st st' : working st' = working st -> evolves st st'.
Proof. intros Hw id row Hrow. rewrite Hw. eauto. Qed.
Lemma saveTx_evolves st d e create st' rev : rows_ok st -> saves st e create ->
  (create = false -> forall row, working st !! Entity_ID e = Some row -> Row_Version row < EntityVersion e) ->
  saveTx svc st d e create = Ok (st', rev) -> evolves st st'.
Proof.
  intros Hrows Hs Hlt Hsave. destruct (saveTx_working _ _ _ _ _ _ Hs Hsave) as (row' & Hw & Hv & Hk & Hnone & _).
  intros id row Hrow. rewrite Hw. destruct (decide (id = Entity_ID e)) as [->|Hne]; [|rewrite lookup_insert_ne by done; eauto].
  rewrite lookup_insert, decide_True by done. destruct create; [by rewrite (Hnone eq_refl) in Hrow|].
  exists row'. destruct Hs as (_ & _ & old & Hold & Hok & _). split_and!; [done|congruence|right; rewrite Hv; by apply Hlt].
Qed.

(** The entities of a proposal, each one version on. *)
Lemma acceptedAIEntities_named now proposal targets changed e : acceptedAIEntities svc now proposal targets = Ok changed ->
  e ∈ changed -> key_ok (Entity_Key e).
Proof.
  unfold acceptedAIEntities. intros (l & Hl & Hg)%result_bind_Ok. apply result_bind_Ok in Hg as (? & _ & [= <-]). intros Hin.
  apply map_result_Ok in Hl. apply list_elem_of_lookup in Hin as [k Hk].
  destruct (Forall2_lookup_r _ _ _ _ _ Hl Hk) as (e0 & _ & He).
  destruct (validateProspective svc (stamped now e0)) as [n|] eqn:Hv; [|done]. injection He as ->. by eapply validated_key.
Qed.
Lemma accept_row_inv s e s' : accept_row s e = Ok s' -> write_entity s e false = Ok s' /\
  exists row, working s !! Entity_ID e = Some row /\ Row_Kind row = Entity_Kind e /\ Row_Version row = EntityVersion e - 1.
Proof.
  unfold accept_row. intros (? & _ & Hw)%result_bind_Ok. apply result_bind_Ok in Hw as (? & Hg%guard_Ok & Hw). split; [done|].
  destruct (working s !! Entity_ID e) as [row|]; [|done]. bool_to_prop. by exists row.
Qed.
Definition created_as (st s : EntityStore) : Prop :=
  forall id row, working s !! id = Some row -> exists row0, working st !! id = Some row0 /\ Row_CreatedAt row = Row_CreatedAt row0.
Lemma accepted_rows st changed s : rows_ok st -> clean_writes st changed -> (forall e, e ∈ changed -> key_ok (Entity_Key e)) ->
  (forall e row, e ∈ changed -> working st !! Entity_ID e = Some row -> Row_CreatedAt row = Entity_CreatedAt e) ->
  foldr_result accept_row st changed = Ok s -> amended st changed s /\ evolves st s.
Proof.
  intros Hrows Hclean Hkeys Hcreated Hf. enough (amended st changed s /\ evolves st s /\ created_as st s) as (? & ? & _) by done.
  eapply (foldr_result_along accept_row (fun _ s => amended st changed s /\ evolves st s /\ created_as st s)); [|..|exact Hf].
  - split_and!; [by split; [..|by left]|reflexivity|]. intros id row Hrow. by exists row.
  - clear s Hf. intros before e s s' Hin _ (Ha & Hev & Hcr) (Hw & row & Hrow & Hkind & Hver)%accept_row_inv.
    destruct (Hcr _ _ Hrow) as (row0 & Hrow0 & Hc0). assert (saves s e false) as Hs.
    { destruct (proj1 (amended_rows _ _ _ Ha) _ _ Hrow) as [Hid _]. split; [exact Hid|]. split; [by apply Hkeys|].
      exists row. split_and!; [done|done|]. rewrite Hc0. by apply Hcreated. }
    pose proof (amended_write st changed s e false s' Ha Hin Hclean Hs Hw) as Ha'.
    apply write_entity_inv in Hw as (h & b & new & _ & Hnew & _ & ->). destruct (row_for_inv _ _ _ _ _ Hs Hnew) as (Heq & _).
    split_and!; [done| |].
    + etrans; [exact Hev|]. intros id r Hr. cbn. destruct (decide (id = Entity_ID e)) as [->|Hne]; [|rewrite lookup_insert_ne by done; eauto].
      rewrite lookup_insert, decide_True by done. exists new. assert (r = row) as -> by congruence. rewrite Heq. cbn.
      split_and!; [done|done|right; lia].
    + intros id r Hr. cbn in Hr. destruct (decide (id = Entity_ID e)) as [->|Hne]; [|rewrite lookup_insert_ne in Hr by done; by apply Hcr].
      rewrite lookup_insert, decide_True in Hr by done. injection Hr as <-. exists row0. split; [done|]. rewrite Heq. cbn. symmetry. by apply Hcreated.
Qed.
Lemma accept_ok st d now base configHash targets proposal changed st' rev : store_ok st ->
  acceptedAIEntities svc now proposal (list_to_set (Target_EntityID <$> targets)) = Ok changed ->
  (forall e row, e ∈ changed -> working st !! Entity_ID e = Some row -> Row_CreatedAt row = Entity_CreatedAt e) ->
  clean_writes st changed ->
  accept_proposal svc st d now base configHash targets proposal = Ok (st', rev) -> store_ok st' /\ extends st st' /\ evolves st st'.
Proof.
  intros Hok Hacc Hcreated Hclean. unfold accept_proposal. intros (? & _ & Hs)%result_bind_Ok. rewrite Hacc in Hs. cbn [result_bind] in Hs.
  unfold writeAIAcceptedEntities in Hs. apply result_bind_Ok in Hs as (st1 & Hrows1 & Hs).
  apply result_bind_Ok in Hs as ([st2 rv] & Hh & Hs). apply result_bind_Ok in Hs as ([st3 summary] & Hl & [= <- _]).
  destruct (accepted_rows st changed st1 (ok_rows _ Hok) Hclean) as [Ha Hev]; [by intros e; eapply acceptedAIEntities_named|done|done|].
  destruct (amended_history_ok _ _ _ _ _ _ _ _ _ _ _ Hok Ha Hh Hl) as (? & ? & Hw). split_and!; [done..|].
  etrans; [exact Hev|by apply evolves_working].
Qed.

Lemma edit_facts st st' : store_ok st -> edit_step st st' -> store_ok st' /\ extends st st' /\ evolves st st'.
Proof.
  intros Hok Hstep. pose proof (ok_rows _ Hok) as Hrows. destruct Hstep as
    [d p newID now kind draft e0 e rev Hid Hnew Hval Hc Hs|d p now kind id version fields read next0 next rev Hid Hri Hrk Hv Hrc Hp Hval Hc Hs|
     d now kind id version e out Hid Hget Hc Hs|d current name description rev Hs|newID now kind r scope rep Hs|r registry symbols Hs|
     d now base configHash targets proposal changed rev Hacc Hcreated Hclean Hs].
  - apply save_tx_inv in Hs as [_ Hs]. destruct (create_saves st _ _ _ _ _ _ Hid Hnew Hval) as [Hsv _].
    destruct (saveTx_ok _ _ _ _ _ _ Hok Hsv Hc Hs). split_and!; [done..|]. by eapply saveTx_evolves.
  - apply patch_tx_inv in Hs as (current & Hget & Hcv & _ & Hs).
    destruct (patch_saves _ _ _ _ _ _ _ _ _ _ Hrows Hid Hget Hri Hrk Hv Hrc Hp Hval) as (Hsv & Hi & Hver & _).
    destruct (saveTx_ok _ _ _ _ _ _ Hok Hsv Hc Hs). split_and!; [done..|]. eapply saveTx_evolves; [done|done| |done].
    intros _ row Hrow. rewrite Hi in Hrow. destruct (getTx_row _ _ _ _ Hrows Hid Hget) as (row' & Hw & _ & _ & _ & _ & _ & Hev & _).
    assert (row' = row) as <- by congruence. lia.
  - apply Delete_inv in Hs as (e' & rev & Hget' & _ & _ & Hs & ->). rewrite Hget in Hget'. injection Hget' as <-.
    pose proof (delete_saves _ _ _ _ now Hrows Hid Hget) as Hsv. destruct (saveTx_ok _ _ _ _ _ _ Hok Hsv Hc Hs). split_and!; [done..|].
    eapply saveTx_evolves; [done|done| |done]. intros _ row Hrow. cbn in *.
    destruct (getTx_row _ _ _ _ Hrows Hid Hget) as (row' & Hw & _ & _ & _ & Hi & _ & Hev & _). rewrite Hi in Hrow.
    assert (row' = row) as <- by congruence. lia.
  - destruct (checkpoint_ok _ _ _ _ _ _ _ Hok Hs) as (? & ? & ?). split_and!; [done..|by apply evolves_working].
  - destruct (RunValidation_ok _ _ _ _ _ _ _ _ Hok Hs) as (? & ? & ?). split_and!; [done..|by apply evolves_working].
  - destruct (rebuild_ok _ _ _ _ _ Hok Hs) as (? & ? & ?). split_and!; [done..|by apply evolves_working].
  - by eapply accept_ok.
Qed.
Lemma edits_facts st st' : store_ok st -> rtc edit_step st st' -> store_ok st' /\ extends st st' /\ evolves st st'.
Proof.
  intros Hok. induction 1 as [st|x y z Hxy Hyz IH]; [split_and!; [done|reflexivity..]|].
  destruct (edit_facts x y Hok Hxy) as (Hy & He & Hv). destruct (IH Hy) as (Hz & He' & Hv'). split_and!; [done|by etrans..].
Qed.
Lemma step_facts st st' : store_ok st -> entity_step st st' -> store_ok st' /\ extends st st'.
Proof.
  intros Hok [Hs|d releases current source rev Hclean Hs]; [by destruct (edit_facts st st' Hok Hs) as (? & ? & _)|by eapply restore_ok].
Qed.
Lemma steps_facts st st' : store_ok st -> rtc entity_step st st' -> store_ok st' /\ extends st st'.
Proof.
  intros Hok. induction 1 as [st|x y z Hxy Hyz IH]; [split; [done|reflexivity]|].
  destruct (step_facts x y Hok Hxy) as (Hy & He). destruct (IH Hy) as (Hz & He'). split; [done|by etrans].
Qed.
Lemma edits_are_steps st st' : rtc edit_step st st' -> rtc entity_step st st'.
Proof. induction 1 as [|x y z Hxy _ IH]; [reflexivity|]. eapply rtc_l; [by apply step_edit|done]. Qed.
Lemma empty_ok : store_ok empty_entities.
Proof.
  split.
  - split_and!; [by intros id row|by intros id id' row row'|by intros id []].
  - split; [by intros r row| |by intros r []]. unfold numbered. cbn. by rewrite map_to_list_empty, map_size_empty.
  - split; [done|by intros r row].
  - by intros id rep.
Qed.
End steps.
