(* ===== verification/EntityReads.v ===== *)
(** * internal/storage/sqlite: catalog pages, revision history, validation warnings

    The read operations of store.go, revision_metadata.go and
    validation_reports.go over the state of EntityStore.  A page carries its
    cursor as the text a client receives.  [LIKE] and [lower] of SQLite are
    parameters. *)
From Stdlib Require Import Ascii.
From S2P Require Import FormulaRegistry FormulaAst FormulaLexer FormulaParser VersionGate.
From S2P Require Import Prelude GoSort Keyset GoStrings GoCrypto GoJson GoFloat Domain JobStore FormulaDecimal DomainEntity.
From S2P Require Import ValidationTypes ValidationWalk ValidationAnalyze EntityStore JsonRoundTrip StoreCursors.
Open Scope Z_scope.

(** SQLite's [lower(x)] and [x LIKE y]. *)
Class SqliteText := { sql_lower : string -> string; sql_like : string -> string -> bool }.

Record Page := mkPage { Items : list Entity; NextCursor : string; Total : Z }.
Record HistoryPage := mkHistoryPage { History_Items : list Record_; History_NextCursor : string }.

Section reads.
Context `{UnicodeTables, ApdLib, UuidLib, FloatText, TimeText, SqliteText}.

(** [? = '' OR lower(w.entity_key) LIKE lower(?) OR lower(json_extract(b.json,'$.name')) LIKE lower(?)] *)
Definition matches (query key name : string) : bool :=
  let pattern := sql_lower ("%" +:+ query +:+ "%") in
  bool_decide (query = EmptyString) || sql_like (sql_lower key) pattern || sql_like (sql_lower name) pattern.

(** The active entities of a kind that match, by key and identity. *)
Definition catalog_row : Type := (string * ID) * Entity.
Definition catalog_entry (st : EntityStore) (kind : EntityKind) (query : string) (entry : ID * WorkingRow) : option catalog_row :=
  let '(id, row) := entry in
  b ← blobs st !! Row_Blob row;
  if bool_decide (Row_Kind row = kind) && bool_decide (Row_Status row = StatusActive) && matches query (Row_Key row) (Entity_Name b)
  then Some (Row_Key row, id, b) else None.
Definition key_then_id : string * ID -> string * ID -> bool := then_by fst String.ltb (less_on snd String.ltb).
Definition catalog (st : EntityStore) (kind : EntityKind) (query : string) : list catalog_row :=
  sort_by (less_on fst key_then_id) (omap (catalog_entry st kind query) (map_to_list (working st))).

(** [readEntityPage] *)
Definition readEntityPage (entities : list Entity) (limit : nat) : Page :=
  if decide (limit < length entities)%nat then
    match entities !! pred limit with
    | Some last => mkPage (take limit entities) (encodeCursor (mkCursor (Entity_Key last) (Entity_ID last))) 0
    | None => mkPage (take limit entities) "" 0
    end
  else mkPage entities "" 0.

(** [w.entity_key > ? OR (w.entity_key = ? AND w.id > ?)] *)
Definition after_cursor (c : cursor) (r : catalog_row) : bool :=
  String.ltb (Cursor_Key c) r.1.1 || (bool_decide (Cursor_Key c = r.1.1) && String.ltb (Cursor_ID c) r.1.2).
Definition List_ (st : EntityStore) (kind : EntityKind) (query after : string) (limit : Z) : result Page StoreError :=
  if negb (EntityKind_Valid kind) then Err (ErrOther "unsupported kind")
  else
    let limit := if limit =? 0 then 50 else limit in
    if (limit <? 1) || (200 <? limit) then Err (ErrOther "limit must be 1..200")
    else match (if bool_decide (after = EmptyString) then Some (mkCursor "" "") else decodeCursor after) with
    | None => Err (ErrOther "invalid cursor")
    | Some c =>
        Ok (readEntityPage (snd <$> take (S (Z.to_nat limit)) (List.filter (after_cursor c) (catalog st kind query))) (Z.to_nat limit))
    end.

Definition MaxInt : Z := 2 ^ 63 - 1.
Definition ListNumbered (st : EntityStore) (kind : EntityKind) (query : string) (page limit : Z) : result Page StoreError :=
  if negb (EntityKind_Valid kind) then Err (ErrOther "unsupported kind")
  else if (limit <? 1) || (200 <? limit) then Err (ErrOther "limit must be 1..200")
  else if (page <? 1) || (MaxInt / limit <? page - 1) then Err (ErrOther "invalid page")
  else
    let rows := catalog st kind query in
    let p := readEntityPage (snd <$> take (S (Z.to_nat limit)) (drop (Z.to_nat ((page - 1) * limit)) rows)) (Z.to_nat limit) in
    Ok (mkPage (Items p) (NextCursor p) (Z.of_nat (length rows))).

(** ** revision_metadata.go *)
Definition stored_state (s : RegistrationState) : RegistrationState :=
  match s with RegistrationUnknown t => RegistrationUnknown (coerce t) | _ => s end.
Definition stored_entry (v : VersionEntry) : VersionEntry :=
  mkVersionEntry (coerce (Entry_CapabilityID v)) (coerce (Entry_ContractVersion v)) (coerce (Entry_ImplementationVersion v)) (stored_state (Entry_State v)).
(** The manifest the stored text decodes to. *)
Definition stored_manifest (m : VersionManifest) : VersionManifest :=
  mkManifest (stored_entry <$> sort_by (less_on Entry_CapabilityID String.ltb) (Entries m)).
(** [scanRevisionRecord] on a joined row. *)
Definition scanRevisionRecord (id : ID) (r : RevisionRow) (m : MetadataRow) : result Record_ StoreError :=
  let manifest := stored_manifest (Meta_Manifest m) in
  let? raw := of_error (VersionManifest_CanonicalJSON (Meta_Manifest m)) in
  let? canonical := of_error (VersionManifest_CanonicalJSON manifest) in
  let? _ := guard (bool_decide (canonical = raw)) (ErrOther "revision metadata manifest is not canonical") in
  let? actual := of_error (VersionManifest_Hash manifest) in
  let? _ := guard (bool_decide (actual = Meta_ManifestHash m)) (ErrOther "revision metadata manifest hash mismatch") in
  let record := mkRecord (Revision_Display r)
    (mkMetadata id (Revision_ConfigHash r) (Meta_Name m) (Meta_Description m) (Meta_Parent m) (Meta_SourceRevision m) (Meta_SourceRelease m)
       manifest (Meta_ManifestHash m) (Meta_CreatedAt m)) in
  let? _ := guard (Record_Valid record) (ErrOther "invalid revision metadata record") in
  Ok record.
Definition GetRevisionRecord (st : EntityStore) (id : ID) : result Record_ StoreError :=
  if negb (ID_Valid id) then Err ErrNotFound else
  match config_revisions st !! id, revision_metadata st !! id with
  | Some r, Some m => scanRevisionRecord id r m
  | _, _ => Err ErrNotFound
  end.

(** The joined rows, newest first. *)
Definition history_row : Type := (Z * ID) * (RevisionRow * MetadataRow).
Definition history_entry (st : EntityStore) (entry : ID * RevisionRow) : option history_row :=
  let '(id, r) := entry in m ← revision_metadata st !! id; Some (Revision_Display r, id, (r, m)).
Definition newest_first : Z * ID -> Z * ID -> bool := greater (then_by fst Z.ltb (less_on snd String.ltb)).
Definition history (st : EntityStore) : list history_row :=
  sort_by (less_on fst newest_first) (omap (history_entry st) (map_to_list (config_revisions st))).
(** [r.display_revision < ? OR (r.display_revision = ? AND r.id < ?)] *)
Definition before_cursor (c : revisionHistoryCursor) (r : history_row) : bool :=
  (r.1.1 <? Cursor_Display c) || (bool_decide (r.1.1 = Cursor_Display c) && String.ltb r.1.2 (Cursor_Revision c)).
Definition scan_history (r : history_row) : result Record_ StoreError := scanRevisionRecord r.1.2 r.2.1 r.2.2.
Definition ListRevisionRecords (st : EntityStore) (after : string) (limit : Z) : result HistoryPage StoreError :=
  let limit := if limit =? 0 then 50 else limit in
  if (limit <? 1) || (200 <? limit) then Err (ErrOther "limit must be 1..200")
  else match (if bool_decide (after = EmptyString) then Some None else Some <$> decodeRevisionHistoryCursor after) with
  | None => Err (ErrOther "invalid revision cursor")
  | Some c =>
      let wanted r := match c with Some c => before_cursor c r | None => true end in
      let? items := map_result scan_history (take (S (Z.to_nat limit)) (List.filter wanted (history st))) in
      let n := Z.to_nat limit in
      Ok (if decide (n < length items)%nat then
            mkHistoryPage (take n items)
              match items !! pred n with
              | Some last => encodeRevisionHistoryCursor (mkHistoryCursor (DisplayRevision last) (RevisionID (Record_Metadata last)))
              | None => EmptyString
              end
          else mkHistoryPage items "")
  end.

(** ** validation_reports.go *)
(** [SELECT DISTINCT code ... WHERE severity = 'WARNING' ORDER BY code] *)
Definition warning_codes (issues : list Issue) : list string :=
  sort_by String.ltb (remove_dups (Issue_Code <$> List.filter (fun i => bool_decide (Issue_Severity i = SeverityWarning)) issues)).
Definition FullValidationWarningCodes (st : EntityStore) (revisionID : ID) (configHash : string) (versions : ValidationVersions) :
    result (list string) StoreError :=
  let? run := of_error (FindMatchingFullRun st revisionID configHash versions) in
  let? run := or_not_found run in
  let? report := GetValidationReport st (Run_ID run) in
  Ok (warning_codes (Report_Issues report)).
End reads.
