(* ===== verification/EntityFacts.v ===== *)
(** * What the entity store guarantees

    Over every execution of EntityHistory: the invariant of the tables, immutable
    revisions, patches that are atomic under interference, deletions that leave
    no dangling reference, and validation gates that pass only on clean
    revisions. *)
From Stdlib Require Import Ascii.
From S2P Require Import Prelude GoSort GoStrings GoCrypto GoJson GoFloat Domain JobStore FormulaDecimal DomainEntity.
From S2P Require Import GraphSCC FormulaRegistry FormulaAst FormulaLexer FormulaParser FormulaSemantic VersionGate.
From S2P Require Import ValidationTypes ValidationGraph ValidationWalk ValidationAnalyze EntityStore JsonRoundTrip EntityHistory.
Open Scope Z_scope.

Section facts.
Context `{UnicodeTables, ApdLib, UuidLib, FloatText, TimeText}.
Context (svc : Service).

Definition reachable_store (st : EntityStore) : Prop := rtc (entity_step svc) empty_entities st.
Lemma reachable_ok st : reachable_store st -> store_ok svc st.
Proof. intros Hr. by destruct (steps_facts svc _ _ (empty_ok svc) Hr). Qed.

(** C27: In every configuration the store can reach without a SHA-256 collision,
    each working row agrees with its blob and its indexes, at most one active
    entity has a kind and key, revisions are numbered 1, 2, ... without a gap,
    each revision's hash is the hash of its members and each member's blob is
    there, the newest revision is the working set, and every FULL run of a
    revision is the analysis of its members. *)
Theorem reachable_configuration st : reachable_store st ->
  rows_ok st /\ history_ok st /\ current_ok st /\ runs_ok svc st.
Proof. intros [Hrows Hhist Hcur Hruns]%reachable_ok. done. Qed.

(** A revision never changes: whatever the store does later, its row, its
    members, its metadata and the entities read from it stay the same. *)
Theorem revision_immutable st st' r row :
  reachable_store st -> rtc (entity_step svc) st st' -> config_revisions st !! r = Some row ->
  config_revisions st' !! r = Some row /\ revision_entities st' !! r = revision_entities st !! r /\
  revision_metadata st' !! r = revision_metadata st !! r /\
  materializeRevisionEntitiesTx st' r = materializeRevisionEntitiesTx st r.
Proof.
  intros Hr Hsteps Hrow. pose proof (reachable_ok _ Hr) as Hok. destruct (steps_facts svc _ _ Hok Hsteps) as (_ & Hext).
  pose proof (ok_history _ _ Hok) as Hhist. destruct (revisions_ok _ Hhist r row Hrow) as [[m Hm] _ _ [meta Hmeta]].
  split_and!.
  - eapply lookup_weaken; [exact Hrow|apply Hext].
  - rewrite Hm. eapply lookup_weaken; [exact Hm|apply Hext].
  - rewrite Hmeta. eapply lookup_weaken; [exact Hmeta|apply Hext].
  - eapply materialize_stable; eauto.
Qed.

(** ** Retrying *)
(** The writes of others that run during an operation. *)
Definition interference (others : nat -> EntityStore -> EntityStore) (s s' : EntityStore) : Prop := exists i, s' = others i s.
Lemma interference_steps (step : EntityStore -> EntityStore -> Prop) others s s' :
  (forall i s, rtc step s (others i s)) -> rtc (interference others) s s' -> rtc step s s'.
Proof. intros Hothers. induction 1 as [|x y z [i ->] _ IH]; [reflexivity|]. etrans; [apply (Hothers i)|exact IH]. Qed.
Lemma retry_Ok {A : Type} fuel i others preflight (tx : nat -> localPreflight -> EntityStore -> result (EntityStore * A) StoreError) st st' a :
  retry fuel i others preflight tx st = (st', Ok a) ->
  exists j p s, rtc (interference others) st s /\ tx j p s = Ok (st', a).
Proof.
  revert i st. induction fuel as [|fuel IH]; intros i st; [done|]. cbn [retry].
  assert (interference others st (others i st)) as Hstep by by exists i.
  destruct (preflight st) as [p|]; [|done]. destruct (tx i p (others i st)) as [[st1 b]|e] eqn:Htx.
  - intros [= -> ->]. exists i, p, (others i st). split; [by apply rtc_once|done].
  - destruct e; try done. destruct fuel as [|fuel]; [done|]. intros (j & p' & s & Hs & Ht)%IH. exists j, p', s.
    split; [by eapply rtc_l|done].
Qed.

(** Same kind and version, same entity, as long as no release is restored. *)
Lemma same_version_same_entity st st' kind id e e' : store_ok svc st -> rtc (edit_step svc) st st' -> valid_text id ->
  getTx st kind id = Ok e -> getTx st' kind id = Ok e' -> EntityVersion e' = EntityVersion e -> e' = e.
Proof.
  intros Hok Hsteps Hid Hg Hg' Hv. destruct (edits_facts svc _ _ Hok Hsteps) as (Hok' & Hext & Hev).
  destruct (getTx_row _ _ _ _ (ok_rows _ _ Hok) Hid Hg) as (row & Hw & _ & Hb & _ & _ & _ & Hver & _).
  destruct (getTx_row _ _ _ _ (ok_rows _ _ Hok') Hid Hg') as (row' & Hw' & _ & Hb' & _ & _ & _ & Hver' & _).
  destruct (Hev id row Hw) as (row1 & Hw1 & _ & Hcase). assert (row1 = row') as -> by congruence.
  destruct Hcase as [->|Hlt]; [|lia]. pose proof (lookup_weaken _ _ _ _ Hb (keeps_blobs _ _ Hext)). congruence.
Qed.

(** C25: A patch is atomic: whatever other writers commit while it runs, when it
    succeeds there is one moment at which the store holds the entity at the version
    the caller named, and at which the patch commits, moving that entity to the
    next version and touching no other.  As long as the others do not restore a
    release, the stored entity is then the very one the patch was computed from;
    a restore takes versions back, and [restore_hides_an_update] of EntityRuns
    shows that another entity can have the version by then. *)
Theorem patch_is_atomic st st' draws others now kind id version fields next rev :
  reachable_store st -> valid_text id -> (forall i s, rtc (entity_step svc) s (others i s)) ->
  Patch svc st draws others now kind id version fields = (st', Ok (next, rev)) ->
  exists s read current next0 row, rtc (entity_step svc) st s /\
    getTx st kind id = Ok read /\ EntityVersion read = version /\
    ApplyPatch read fields now = Ok next0 /\ validateProspective svc next0 = Ok next /\
    getTx s kind id = Ok current /\ EntityVersion current = version /\
    ((forall i s, rtc (edit_step svc) s (others i s)) -> current = read) /\
    working st' = <[id := row]> (working s) /\ Row_Version row = version + 1 /\
    (clean_write s next -> Entity_CreatedAt current = Entity_CreatedAt read -> entity_step svc s st').
Proof.
  intros Hr Hid Hothers Hpatch. pose proof (reachable_ok _ Hr) as Hok. unfold Patch in Hpatch.
  match type of Hpatch with match ?c with _ => _ end = _ => destruct c as [n|] eqn:Hc; [|done] end.
  apply result_bind_Ok in Hc as (read & Hget & Hc). apply result_bind_Ok in Hc as (? & Hv%guard_Ok & Hc).
  apply result_bind_Ok in Hc as (next0 & Hp%of_error_Ok & Hc). apply result_bind_Ok in Hc as (n' & Hval & Hc).
  assert (n' = n) as -> by (destruct (admission svc); simplify_eq; done). clear Hc. bool_to_prop.
  unfold with_entity in Hpatch. destruct (retry _ _ _ _ _ _) as [st1 [rev1|]] eqn:Hretry; cbn in Hpatch; [|done].
  injection Hpatch as -> -> ->. apply retry_Ok in Hretry as (j & p & s & Hs & Htx).
  assert (rtc (interference others) st s) as Hran by (eapply rtc_l; [by exists 0%nat|done]).
  pose proof (interference_steps _ _ _ _ Hothers Hran) as Hsteps.
  destruct (patch_tx_inv _ _ _ _ _ _ _ _ _ _ Htx) as (current & Hget' & Hv' & _ & Hsave).
  destruct (steps_facts svc _ _ Hok Hsteps) as (Hoks & _).
  destruct (getTx_row _ _ _ _ (ok_rows _ _ Hok) Hid Hget) as (_ & _ & _ & _ & _ & Hri & Hrk & _).
  destruct (getTx_row _ _ _ _ (ok_rows _ _ Hoks) Hid Hget') as (row0 & Hw0 & _ & _ & _ & _ & _ & _ & _ & Hcr0).
  destruct (patch_keeps_identity _ _ _ _ Hp) as (P1 & _ & _ & _ & _ & P6 & _). destruct (validateProspective_keeps _ _ _ Hval) as (G1 & _ & _ & G4 & _).
  destruct (saveTx_row svc _ _ _ _ _ _ Hsave) as (h & row & Hrow & Hw & _). apply row_for_version in Hrow.
  exists s, read, current, next0, row. split_and!; try done; [|congruence|congruence|].
  - intros Hedits. eapply (same_version_same_entity st s kind id); [done|by eapply interference_steps|done..|congruence].
  - intros Hclean Hcr. apply step_edit. eapply (step_patch _ _ _ (draws j)); eauto. intros r0 Hr0. assert (r0 = row0) as -> by congruence. congruence.
Qed.
(** ** The validation gate on the store *)
Notation versions := (currentValidationVersionManifest svc).
Lemma newest_run_None l : newest_run l = None <-> l = [].
Proof.
  unfold newest_run. split; [|by intros ->]. intros Hl. apply last_None in Hl. by apply sort_by_nil in Hl.
Qed.
Lemma newest_run_Some l r : newest_run l = Some r -> r ∈ l.
Proof. unfold newest_run. intros Hl. apply last_Some in Hl as [l' Hl]. assert (r ∈ l' ++ [r])%list as Hin by (apply elem_of_app; right; by left).
  rewrite <- Hl in Hin. by apply elem_of_sort_by in Hin.
Qed.
Lemma elem_of_full_runs st r hash vs id rep :
  (id, rep) ∈ List.filter (full_run_of r hash vs) (map_to_list (validation_runs st)) <->
  validation_runs st !! id = Some rep /\ full_run_of r hash vs (id, rep) = true.
Proof. by rewrite list_elem_of_In, filter_In, <- list_elem_of_In, elem_of_map_to_list. Qed.

Lemma full_run_of_true r hash vs id rep : full_run_of r hash vs (id, rep) = true ->
  Source_Kind (Run_Source (Report_Run rep)) = SourceRevision /\ Source_RevisionID (Run_Source (Report_Run rep)) = r /\
  Source_InputHash (Run_Source (Report_Run rep)) = hash /\ Run_Scope (Report_Run rep) = ScopeFull.
Proof. unfold full_run_of. cbn. intros Hb. by bool_to_prop. Qed.

(** What the gate says of a revision in a configuration that satisfies the invariant. *)
Definition gate (st : EntityStore) (r : ID) (hash : string) : result GateResult string :=
  ValidationGate_Check (FindMatchingFullRun st) r hash versions.
Definition no_full_run (st : EntityStore) (r : ID) (hash : string) : Prop :=
  forall id rep, validation_runs st !! id = Some rep -> full_run_of r hash versions (id, rep) = false.
Lemma gate_verdict st r hash verdict : store_ok svc st -> gate st r hash = Ok verdict ->
  (verdict = GateRequiresValidation /\ no_full_run st r hash) \/
  exists row issues, config_revisions st !! r = Some row /\ Revision_ConfigHash row = hash /\
    AnalyzeV1 (schemas svc) (formulas svc) versions (materializeRevisionEntitiesTx st r) ScopeFull = Ok issues /\
    verdict = (if bool_decide (issues = []) then GatePass else GateBlocked) /\ ~ no_full_run st r hash.
Proof.
  intros Hok. unfold gate, ValidationGate_Check, FindMatchingFullRun.
  destruct (ValidationVersions_Hash versions) as [h|]; [|done]. cbn [result_bind]. set (l := List.filter _ _).
  destruct (newest_run l) as [[id rep]|] eqn:Hn; cbn -[full_run_of AnalyzeV1].
  - apply newest_run_Some, elem_of_full_runs in Hn as [Hrep Hfull].
    destruct (full_run_of_true _ _ _ _ _ Hfull) as (Hkind & Hrev & Hhash & Hscope).
    destruct (ok_runs _ _ Hok id rep Hrep Hscope Hkind) as (row & issues & Hrow & Hh & Hv & Ha & Hsum).
    rewrite Hrev in *. rewrite !(bool_decide_true (_ = _)) by congruence. cbn [negb orb].
    intros Hverdict. right. exists row, issues. split_and!; [done|congruence|done| |].
    + pose proof (clean_summary issues (AnalyzeV1_severe _ _ _ _ _ _ Ha)) as Hclean. rewrite Hsum in Hverdict.
      destruct (decide (issues = [])) as [He|He].
      * rewrite bool_decide_true by done. apply Hclean in He as [He Hb].
        destruct (0 <? Summary_Error _) eqn:E1; [bool_to_prop; lia|]. destruct (0 <? Summary_Block _) eqn:E2; [bool_to_prop; lia|]. by injection Hverdict as <-.
      * rewrite bool_decide_false by done. destruct (0 <? Summary_Error _) eqn:E1; [by injection Hverdict as <-|].
        destruct (0 <? Summary_Block _) eqn:E2; [by injection Hverdict as <-|]. exfalso. apply He, Hclean. bool_to_prop. lia.
    + intros Hno. specialize (Hno id rep Hrep). congruence.
  - apply newest_run_None in Hn. intros [= <-]. left. split; [done|]. intros id rep Hrep.
    destruct (full_run_of r hash versions (id, rep)) eqn:E; [|done]. exfalso.
    assert ((id, rep) ∈ l) as Hin by by apply elem_of_full_runs. rewrite Hn in Hin. by apply elem_of_nil in Hin.
Qed.

Lemma gate_answers st st' r hash verdict : gate st r hash = Ok verdict -> exists v, gate st' r hash = Ok v.
Proof.
  unfold gate, ValidationGate_Check, FindMatchingFullRun. destruct (ValidationVersions_Hash versions); [|done]. intros _.
  destruct (newest_run (List.filter _ (map_to_list (validation_runs st')))) as [[??]|]; cbn -[Z.ltb]; [|eauto].
  repeat match goal with |- context [if ?b then _ else _] => destruct b end; eauto.
Qed.

(** C26: The validation gate is exact on the store: it asks for a validation exactly
    when no completed FULL run of this revision, hash and version is stored;
    otherwise the revision has that hash and the gate passes exactly when the
    analysis of its members finds nothing.  A pass or a block stays what it is
    through everything the store does later. *)
Theorem validation_gate_exact st r hash verdict :
  reachable_store st -> gate st r hash = Ok verdict ->
  (verdict = GateRequiresValidation <-> no_full_run st r hash) /\
  (verdict <> GateRequiresValidation ->
     (exists row issues, config_revisions st !! r = Some row /\ Revision_ConfigHash row = hash /\
        AnalyzeV1 (schemas svc) (formulas svc) versions (materializeRevisionEntitiesTx st r) ScopeFull = Ok issues /\
        (verdict = GatePass <-> issues = []) /\ (verdict = GateBlocked <-> issues <> [])) /\
     forall st', rtc (entity_step svc) st st' -> gate st' r hash = Ok verdict).
Proof.
  intros Hr Hg. pose proof (reachable_ok _ Hr) as Hok.
  destruct (gate_verdict _ _ _ _ Hok Hg) as [[-> Hno]|(row & issues & Hrow & Hh & Ha & Hv & Hsome)]; [by split|].
  assert (verdict <> GateRequiresValidation) as Hne by (rewrite Hv; by destruct (bool_decide _)).
  split; [by split|]. intros _. split.
  - exists row, issues. split_and!; try done; rewrite Hv; case_bool_decide; by split.
  - intros st' Hsteps. destruct (steps_facts svc _ _ Hok Hsteps) as (Hok' & Hext).
    assert (exists v, gate st' r hash = Ok v) as [v Hv'] by by eapply gate_answers.
    rewrite Hv'. destruct (gate_verdict _ _ _ _ Hok' Hv') as [[_ Hno]|(row' & issues' & Hrow' & _ & Ha' & -> & _)].
    + exfalso. apply Hsome. intros id rep Hrep. apply (Hno id rep). eapply lookup_weaken; [exact Hrep|apply (keeps_runs _ _ Hext)].
    + rewrite (materialize_stable st st') in Ha' by eauto using ok_history.
      assert (issues' = issues) as -> by congruence. by rewrite Hv.
Qed.

(** ** Deleting *)
Lemma elem_of_active_references st id r : r ∈ active_references st id <->
  exists source refs row, entity_references st !! source = Some refs /\ working st !! source = Some row /\
    Row_Status row = StatusActive /\ r ∈ refs /\ Ref_TargetID r = id.
Proof.
  unfold active_references. rewrite elem_of_concat. split.
  - intros (l & Hr & ([source refs] & -> & Hin%elem_of_map_to_list)%list_elem_of_fmap).
    destruct (working st !! source) as [row|] eqn:Hw; [|by apply elem_of_nil in Hr].
    case_bool_decide as Hs; [|by apply elem_of_nil in Hr]. rewrite list_elem_of_In, filter_In, <- list_elem_of_In, bool_decide_eq_true in Hr.
    destruct Hr. eauto 10.
  - intros (source & refs & row & Hrefs & Hw & Hs & Hr & Ht). eexists. split; [|apply list_elem_of_fmap; exists (source, refs); split; [done|by apply elem_of_map_to_list]].
    cbn. rewrite Hw, bool_decide_true by done. by rewrite list_elem_of_In, filter_In, <- list_elem_of_In, bool_decide_eq_true.
Qed.
(** Saving never reports references itself. *)
Definition no_references {A : Type} (r : result A StoreError) : Prop := forall refs, r <> Err (ReferencedError refs).
Lemma no_references_bind {A B : Type} (r : result A StoreError) (f : A -> result B StoreError) :
  no_references r -> (forall a, no_references (f a)) -> no_references (result_bind r f).
Proof. intros Hr Hf refs. destruct r as [a|e]; cbn; [apply Hf|]. intros [= ->]. by eapply Hr. Qed.
Lemma no_references_Ok {A : Type} (a : A) : no_references (Ok a).
Proof. done. Qed.
Lemma no_references_of_error {A : Type} (r : result A string) : no_references (of_error r).
Proof. by destruct r. Qed.
Lemma no_references_of_analysis {A : Type} (r : result A AnalyzeError) : no_references (of_analysis r).
Proof. by destruct r. Qed.
Lemma no_references_or_not_found {A : Type} (o : option A) : no_references (or_not_found o).
Proof. by destruct o. Qed.
Lemma no_references_guard b constraint : no_references (guard b (ErrStorage constraint)).
Proof. by destruct b. Qed.
Lemma no_references_NewID o : no_references (NewID o).
Proof. by destruct o. Qed.
Create HintDb no_references discriminated.
Hint Resolve no_references_bind no_references_Ok no_references_of_error no_references_of_analysis no_references_or_not_found
  no_references_guard no_references_NewID : no_references.
Ltac no_refs :=
  repeat match goal with
  | |- no_references (let x := _ in _) => cbv zeta
  | |- no_references (match ?p with pair _ _ => _ end) => destruct p
  | |- no_references (if ?b then _ else _) => destruct b
  | |- no_references (match ?o with Some _ => _ | None => _ end) => destruct o
  | |- no_references (result_bind _ _) => apply no_references_bind
  | |- no_references _ => solve [eauto with no_references | done]
  | |- forall _, _ => intros ?
  end.
Lemma saveTx_no_references st d e create : no_references (saveTx svc st d e create).
Proof.
  assert (forall st1, no_references (write_history svc st1 d no_fields)) as Hhist.
  { intros st1. unfold write_history, writeRevision, writeRevisionMetadata, persistRevisionDerived, replaceRevisionDerivedTx. no_refs. }
  assert (no_references (write_entity st e create)) as Hent.
  { unfold write_entity, row_for. no_refs. }
  unfold saveTx, persistLocalValidation, persistLocalValidationForEntitiesAndSymbols, insertCompletedValidationRunTx. no_refs.
Qed.

(** C28: A deletion at the entity's current version is refused with the list of the
    active references exactly when there are any.  Without any it answers what the
    save of the archived entity answers, and neither the checks of the table nor its
    unique index refuse the archived row; when that save commits, the entity is
    archived at the next version, every other entity is as it was, and no active
    entity's index names it. *)
Theorem delete_leaves_no_dangling_reference st d now kind id version e :
  reachable_store st -> valid_text id -> admission svc = Ok tt ->
  getTx st kind id = Ok e -> EntityVersion e = version ->
  (forall refs, Delete svc st d now kind id version = Err (ReferencedError refs) <-> refs = active_references st id /\ refs <> []) /\
  (active_references st id = [] -> Delete svc st d now kind id version =
     (let? (st', rev) := saveTx svc st d (archived now e) false in Ok (st', (archived now e, rev)))) /\
  (forall hash, exists row, row_for st (archived now e) hash false = Ok row /\ Row_Status row = StatusArchived) /\
  forall st' e' rev, Delete svc st d now kind id version = Ok (st', (e', rev)) -> clean_write st (archived now e) ->
    reachable_store st' /\ e' = archived now e /\
    (exists row, working st' = <[id := row]> (working st) /\ Row_Status row = StatusArchived /\ Row_Version row = version + 1) /\
    forall source row refs r, working st' !! source = Some row -> Row_Status row = StatusActive ->
      entity_references st' !! source = Some refs -> r ∈ refs -> Ref_TargetID r <> id.
Proof.
  intros Hr Hid Hadm Hget Hv. pose proof (reachable_ok _ Hr) as Hok. split_and!.
  - intros refs. unfold Delete. rewrite Hadm, Hget. cbn [result_bind]. rewrite Hv. unfold guard. rewrite bool_decide_true by done.
    cbn [result_bind]. destruct (active_references st id) as [|r0 l] eqn:Hact; cbn [result_bind].
    + split; [|by intros [-> ?]]. pose proof (saveTx_no_references st d (archived now e) false) as Hno.
      destruct (saveTx _ _ _ _ _) as [[st1 rev]|err]; cbn; [done|]. intros [= ->]. by destruct (Hno refs).
    + split; [by intros [= <-]|by intros [-> _]].
  - intros Hnone. unfold Delete. rewrite Hadm, Hget. cbn [result_bind]. rewrite Hv. unfold guard. by rewrite bool_decide_true, Hnone by done.
  - intros hash. destruct (getTx_row _ _ _ _ (ok_rows _ _ Hok) Hid Hget) as (row0 & Hw0 & _ & _ & _ & Hi & _).
    unfold row_for. cbn [archived Entity_Status Entity_ID status_allowed]. rewrite Hi, Hw0. by eexists.
  - intros st' e' rev Hdel Hclean.
    assert (reachable_store st') as Hr' by (eapply rtc_r; [exact Hr|]; by eapply step_edit, step_delete).
    apply Delete_inv in Hdel as (e1 & rev1 & Hget1 & _ & Hnone & Hsave & [= -> ->]). assert (e1 = e) as -> by congruence.
    destruct (getTx_row _ _ _ _ (ok_rows _ _ Hok) Hid Hget) as (row0 & Hw0 & _ & _ & _ & Hi & _ & _ & _).
    pose proof (delete_saves _ _ _ _ now (ok_rows _ _ Hok) Hid Hget) as Hsv.
    destruct (saveTx_working svc _ _ _ _ _ _ Hsv Hsave) as (row & Hw & Hver & _ & _ & Hst & Hrefs). change (Entity_ID (archived now e)) with (Entity_ID e) in *. rewrite Hi in *. cbn in Hver, Hst.
    split_and!; [done|done|exists row; split_and!; [done|done|lia]|].
    intros source row' refs r Hrow' Hs' Hrefs' Hin Ht. rewrite Hw in Hrow'. rewrite Hrefs in Hrefs'.
    destruct (decide (source = id)) as [->|Hne].
    + rewrite lookup_insert, decide_True in Hrow' by done. congruence.
    + rewrite lookup_insert_ne in Hrow' by done. rewrite lookup_insert_ne in Hrefs' by done.
      assert (r ∈ active_references st id) as Hr1 by (apply elem_of_active_references; eauto 10). rewrite Hnone in Hr1. by apply elem_of_nil in Hr1.
Qed.
End facts.
