(* ===== verification/EntityPaging.v ===== *)
(** * Reading the catalog page by page

    EntityReads.List_ refines the pages of Keyset; what a client sees that follows
    the cursors while other writers change the catalog. *)
From Stdlib Require Import Ascii.
From S2P Require Import FormulaRegistry FormulaAst FormulaLexer FormulaParser VersionGate.
From S2P Require Import Prelude GoSort Keyset GoStrings GoCrypto GoJson GoFloat Domain JobStore FormulaDecimal DomainEntity.
From S2P Require Import ValidationTypes ValidationWalk ValidationAnalyze EntityStore JsonRoundTrip EntityHistory StoreCursors EntityReads EntityFacts.
Open Scope Z_scope.

#[global] Instance key_then_id_total : StrictTotal key_then_id.
Proof.
  split; [apply _|]. intros [k i] [k' i'] H H'. unfold key_then_id in *.
  destruct (then_by_eq _ _ _ _ _ H H') as (Hk & Hi & Hi'). cbn in *. subst. f_equal. by apply (st_total (less := String.ltb)).
Qed.

Section paging.
Context `{UnicodeTables, ApdLib, UuidLib, FloatText, TimeText, SqliteText}.
Context (svc : Service) (kind : EntityKind) (query : string).

Lemma elem_of_catalog st k i b : ((k, i), b) ∈ catalog st kind query <->
  exists row, working st !! i = Some row /\ blobs st !! Row_Blob row = Some b /\ Row_Kind row = kind /\ Row_Status row = StatusActive /\
    Row_Key row = k /\ matches query k (Entity_Name b) = true.
Proof.
  unfold catalog. rewrite elem_of_sort_by, list_elem_of_omap. split.
  - intros ([id row] & Hin%elem_of_map_to_list & He). unfold catalog_entry in He.
    destruct (blobs st !! Row_Blob row) as [b'|] eqn:Hb; [|done]. cbn in He.
    destruct (_ && _ && _) eqn:Hc in He; [|done]. injection He as <- <- <-. bool_to_prop. exists row. naive_solver.
  - intros (row & Hw & Hb & Hk & Hs & <- & Hm). exists (i, row). split; [by apply elem_of_map_to_list|].
    unfold catalog_entry. rewrite Hb. cbn. by rewrite !bool_decide_true, Hm by done.
Qed.
Lemma omap_NoDup_key {A B K : Type} (f : A -> option B) (ka : A -> K) (kb : B -> K) l :
  (forall a b, f a = Some b -> ka a = kb b) -> NoDup (ka <$> l) -> NoDup (kb <$> omap f l).
Proof.
  intros Hf. induction l as [|a l IH]; csimpl; [constructor|]. intros [Ha Hl]%NoDup_cons.
  destruct (f a) as [b|] eqn:Hb; [|by apply IH]. csimpl. apply NoDup_cons. split; [|by apply IH].
  intros (b' & Hk & (a' & Ha' & Hb')%list_elem_of_omap)%list_elem_of_fmap. apply Ha. apply list_elem_of_fmap.
  exists a'. split; [|done]. rewrite (Hf a b Hb), (Hf a' b' Hb'). done.
Qed.
Lemma catalog_in_order st : in_order fst key_then_id (catalog st kind query).
Proof.
  unfold catalog. set (l := omap _ _). assert (NoDup l.*1) as Hnd.
  { assert (NoDup ((snd ∘ fst) <$> l)) as Hid.
    { apply (omap_NoDup_key _ fst); [|apply NoDup_fst_map_to_list]. intros [id row] r. unfold catalog_entry.
      destruct (blobs st !! Row_Blob row); [|done]. cbn. destruct (_ && _ && _); [|done]. by intros [= <-]. }
    rewrite list_fmap_compose in Hid. by apply NoDup_fmap_1 in Hid. }
  pose proof (sort_by_sorted (less_on fst key_then_id) l) as Hs.
  assert (NoDup (sort_by (less_on fst key_then_id) l).*1) as Hnd' by by rewrite sort_by_perm.
  unfold in_order. induction Hs as [|x l' Hs IH Hx]; [constructor|]. csimpl in Hnd'. apply NoDup_cons in Hnd' as [Hx' Hnd'].
  constructor; [by apply IH|]. rewrite Forall_forall in Hx |- *. intros y Hy. specialize (Hx y Hy). unfold key_before.
  destruct (key_then_id x.1 y.1) eqn:E; [done|]. exfalso. apply Hx'. apply list_elem_of_fmap. exists y. split; [|done].
  by apply (st_total (less := key_then_id)).
Qed.

(** The cursor a client holds and the key it stands for. *)
Definition stands_for (after : string) (c : option (string * ID)) : Prop :=
  match c with
  | None => after = EmptyString
  | Some (k, i) => after = encodeCursor (mkCursor k i) /\ valid_text k /\ valid_text i
  end.
Lemma encodeCursor_nonempty c : encodeCursor c <> EmptyString.
Proof.
  unfold encodeCursor, cursor_json. change ("{" +:+ ?x)%string with (String "{" x). destruct (quoted_name "k" +:+ _)%string as [|a [|b s]]; done.
Qed.
Definition cursor_text (next : option (string * ID)) : string :=
  match next with Some (k, i) => encodeCursor (mkCursor k i) | None => EmptyString end.

Lemma catalog_row_texts st r : rows_ok st -> r ∈ catalog st kind query ->
  key_ok r.1.1 /\ valid_text r.1.2 /\ Entity_Key r.2 = r.1.1 /\ Entity_ID r.2 = r.1.2.
Proof.
  intros Hrows. destruct r as [[k i] b]. intros (row & Hw & Hb & _ & _ & <- & _)%elem_of_catalog.
  destruct (row_blob st i row Hrows Hw) as (b' & Hb' & Hi & Hk & _ & _ & Hv & Hkey). assert (b' = b) as -> by congruence. done.
Qed.
Lemma after_cursor_less k i r : after_cursor (mkCursor k i) r = key_then_id (k, i) r.1.
Proof.
  unfold after_cursor, key_then_id, then_by, less_on. cbn. case_decide as Hk.
  - rewrite bool_decide_true by done. rewrite Hk. by rewrite (wo_irrefl (less := String.ltb)).
  - rewrite bool_decide_false by done. by rewrite orb_false_r.
Qed.
Lemma filter_follows st after c : rows_ok st -> stands_for after c ->
  exists k i, (if bool_decide (after = EmptyString) then Some (mkCursor "" "") else decodeCursor after) = Some (mkCursor k i) /\
    List.filter (after_cursor (mkCursor k i)) (catalog st kind query) = List.filter (follows fst key_then_id c) (catalog st kind query).
Proof.
  intros Hrows Hc. destruct c as [[k i]|]; cbn in Hc.
  - destruct Hc as (-> & Hk & Hi). exists k, i. rewrite bool_decide_false by apply encodeCursor_nonempty.
    split; [by apply (cursor_roundtrip (mkCursor k i))|]. apply filter_ext. intros r. apply after_cursor_less.
  - subst after. exists EmptyString, EmptyString. split; [done|]. apply filter_ext_in. intros r Hr%list_elem_of_In.
    destruct (catalog_row_texts _ _ Hrows Hr) as ((_ & Hne) & _). rewrite after_cursor_less. cbn.
    unfold key_then_id, then_by. cbn. rewrite decide_False by (intros Heq; by rewrite <- Heq in Hne). by destruct (r.1.1).
Qed.
Lemma readEntityPage_rows (rows : list catalog_row) n : (1 <= n)%nat -> Forall (fun r => Entity_Key r.2 = r.1.1 /\ Entity_ID r.2 = r.1.2) rows ->
  readEntityPage (snd <$> rows) n =
  (if decide (n < length rows)%nat then mkPage (snd <$> take n rows) (cursor_text (fst <$> rows !! pred n)) 0 else mkPage (snd <$> rows) "" 0).
Proof.
  intros Hn Hall. unfold readEntityPage. assert (length (snd <$> rows) = length rows) as Hlenm by apply length_fmap.
  destruct (decide (n < length rows)%nat) as [Hlen|Hlen]; [rewrite decide_True by lia|by rewrite decide_False by lia].
  destruct (lookup_lt_is_Some_2 rows (pred n)) as [[[k i] b] Hr]; [lia|]. rewrite list_lookup_fmap. setoid_rewrite Hr. cbn.
  rewrite Forall_forall in Hall. destruct (Hall _ (list_elem_of_lookup_2 _ _ _ Hr)) as [Hk Hi]. cbn in Hk, Hi.
  by rewrite Hk, Hi, fmap_take.
Qed.
Lemma List_refines st after c limit : rows_ok st -> EntityKind_Valid kind = true -> 1 <= limit <= 200 -> stands_for after c ->
  exists rows next, page_of fst key_then_id (catalog st kind query) c (Z.to_nat limit) = (rows, next) /\
    List_ st kind query after limit = Ok (mkPage (snd <$> rows) (cursor_text next) 0) /\ stands_for (cursor_text next) next.
Proof.
  intros Hrows Hkind Hl Hc. unfold page_of. destruct (filter_follows st after c Hrows Hc) as (k & i & Hdec & Hfilter).
  unfold List_. rewrite Hkind. cbn [negb]. rewrite (proj2 (Z.eqb_neq _ _)) by lia. rewrite (proj2 (Z.ltb_ge limit 1)), (proj2 (Z.ltb_ge 200 limit)) by lia.
  cbn [orb]. rewrite Hdec, Hfilter. set (found := take _ (List.filter _ _)).
  assert (Forall (fun r => r ∈ catalog st kind query) found) as Hin.
  { apply Forall_forall. intros r (j & Hr & _)%elem_of_take. apply list_elem_of_lookup_2, elem_of_found in Hr. by destruct Hr. }
  rewrite readEntityPage_rows; [|lia|].
  - destruct (decide (Z.to_nat limit < length found)%nat) as [Hlen|Hlen]; eexists _, _; (split; [reflexivity|]); [rewrite decide_True by done|rewrite decide_False by done; by split].
    split; [done|].
    destruct (lookup_lt_is_Some_2 found (pred (Z.to_nat limit))) as [[[k' i'] b] Hr]; [lia|]. rewrite Hr. cbn. split; [done|].
    rewrite Forall_forall in Hin. apply list_elem_of_lookup_2, Hin in Hr.
    destruct (catalog_row_texts _ _ Hrows Hr) as ((? & _) & ? & _). done.
  - eapply Forall_impl; [exact Hin|]. intros r Hr. destruct (catalog_row_texts _ _ Hrows Hr) as (_ & _ & ? & ?). done.
Qed.

(** A client that follows the cursors, reading page [i] from configuration [i];
    [true] when it reached the last page. *)
Fixpoint read_catalog (limit : Z) (stores : list EntityStore) (after : string) : result (list Entity * bool) StoreError :=
  match stores with
  | [] => Ok ([], false)
  | st :: rest =>
      let? p := List_ st kind query after limit in
      if bool_decide (NextCursor p = EmptyString) then Ok (Items p, true)
      else let? (more, finished) := read_catalog limit rest (NextCursor p) in Ok ((Items p ++ more)%list, finished)
  end.
Lemma read_catalog_pages limit stores after c : Forall rows_ok stores -> EntityKind_Valid kind = true -> 1 <= limit <= 200 ->
  stands_for after c ->
  read_catalog limit stores after =
    (let '(rows, finished) := read_pages fst key_then_id ((fun st => catalog st kind query) <$> stores) c (Z.to_nat limit) in
     Ok (snd <$> rows, finished)).
Proof.
  intros Hall Hkind Hl. revert after c. induction Hall as [|st rest Hst Hall IH]; intros after c Hc; [done|].
  destruct (List_refines st after c limit Hst Hkind Hl Hc) as (rows & next & Hp & Hlist & Hnext).
  cbn [read_catalog fmap list_fmap read_pages]. rewrite Hlist, Hp. cbn [result_bind NextCursor Items].
  destruct next as [[k i]|]; [|done]. cbn [cursor_text] in *. rewrite bool_decide_false by apply encodeCursor_nonempty.
  rewrite (IH _ _ Hnext). destruct (read_pages _ _ _ _ _) as [more fin]. cbn. by rewrite fmap_app.
Qed.

(** The entity is in the catalog of the configuration. *)
Definition listed (st : EntityStore) (e : Entity) : Prop :=
  getTx st kind (Entity_ID e) = Ok e /\ Entity_Status e = StatusActive /\ matches query (Entity_Key e) (Entity_Name e) = true.
Definition listing_key (e : Entity) : string * ID := (Entity_Key e, Entity_ID e).
Lemma listed_catalog st e : rows_ok st -> listed st e <-> (listing_key e, e) ∈ catalog st kind query.
Proof.
  intros Hrows. unfold listing_key. rewrite elem_of_catalog. unfold listed, getTx. split.
  - intros (Hget & Hs & Hm). destruct (working st !! Entity_ID e) as [row|] eqn:Hw; [|done].
    case_bool_decide as Hk; [|done]. apply or_not_found_Ok in Hget. exists row.
    destruct (row_blob st _ row Hrows Hw) as (b & Hb & _ & Hkey & _ & Hst & _). assert (b = e) as -> by congruence.
    split_and!; [done|done|done|congruence|done|done].
  - intros (row & Hw & Hb & Hk & Hs & Hkey & Hm). rewrite Hw, bool_decide_true, Hb by done.
    destruct (row_blob st _ row Hrows Hw) as (b & Hb' & _ & _ & _ & Hst & _). assert (b = e) as -> by congruence.
    split_and!; [done|congruence|done].
Qed.
Lemma catalog_row_listed st r : rows_ok st -> r ∈ catalog st kind query -> r = (listing_key r.2, r.2) /\ listed st r.2.
Proof.
  intros Hrows Hr. destruct (catalog_row_texts st r Hrows Hr) as (_ & _ & Hk & Hi).
  assert (r = (listing_key r.2, r.2)) as Heq by (destruct r as [[k i] b]; cbn in *; unfold listing_key; congruence).
  split; [done|]. rewrite Heq in Hr. by apply listed_catalog.
Qed.

Lemma sorted_items (rows : list catalog_row) : Forall (fun r => r.1 = listing_key r.2) rows -> in_order fst key_then_id rows ->
  StronglySorted (fun x y => key_then_id (listing_key x) (listing_key y) = true) (snd <$> rows).
Proof.
  intros Hall Hs. induction Hs as [|r l Hs IH Hr]; csimpl; [constructor|]. apply Forall_cons in Hall as [Hk Hall].
  constructor; [by apply IH|]. rewrite Forall_forall in Hr. rewrite Forall_forall in Hall. rewrite Forall_forall. intros e (r' & -> & Hr')%list_elem_of_fmap.
  rewrite <- Hk, <- (Hall r' Hr'). by apply Hr.
Qed.
Lemma catalog_size st : (length (catalog st kind query) <= size (working st))%nat.
Proof.
  unfold catalog. rewrite length_sort_by, <- length_map_to_list. induction (map_to_list (working st)) as [|a l IH]; csimpl; [lia|].
  destruct (catalog_entry st kind query a); cbn [length]; lia.
Qed.

(** C29: A client that follows the cursors of the catalog while other writers change
    it always gets its pages, sees entries in the order of key and identity and no
    pair of key and identity twice, sees only entities that were listed in some
    configuration it read, and, when it reaches the last page, has seen every entity
    that was listed under the same key in all of them.  (An entity whose key is
    changed between two pages can be seen under both keys, or not at all.)  A
    catalog at rest is read to its end. *)
Theorem catalog_traversal limit stores :
  Forall (reachable_store svc) stores -> EntityKind_Valid kind = true -> 1 <= limit <= 200 ->
  exists items finished, read_catalog limit stores "" = Ok (items, finished) /\
    StronglySorted (fun x y => key_then_id (listing_key x) (listing_key y) = true) items /\
    (forall e, e ∈ items -> exists st, st ∈ stores /\ listed st e) /\
    (finished = true -> forall key, (forall st, st ∈ stores -> exists e, listed st e /\ listing_key e = key) ->
       exists e, e ∈ items /\ listing_key e = key) /\
    (forall st, Forall (eq st) stores -> (size (working st) < length stores)%nat -> finished = true).
Proof.
  intros Hreach Hkind Hl.
  assert (Forall rows_ok stores) as Hrows by (eapply Forall_impl; [exact Hreach|]; intros st Hst; by apply (ok_rows svc), reachable_ok).
  rewrite (read_catalog_pages limit stores "" None) by done.
  destruct (read_pages _ _ _ _ _) as [rows finished] eqn:Hread. exists (snd <$> rows), finished. split; [done|].
  set (sources := (fun st => catalog st kind query) <$> stores) in *.
  assert (Forall (in_order fst key_then_id) sources) as Hord by (apply Forall_fmap, Forall_true; intros st; apply catalog_in_order).
  assert (1 <= Z.to_nat limit)%nat as Hn by lia.
  assert (forall r, r ∈ rows -> exists st, st ∈ stores /\ r = (listing_key r.2, r.2) /\ listed st r.2) as Hsound.
  { intros r Hr. destruct (read_pages_sound _ _ _ _ _ _ _ _ Hord Hn Hread Hr) as (l & (st & -> & Hst)%list_elem_of_fmap & Hin).
    exists st. split; [done|]. rewrite Forall_forall in Hrows. by apply catalog_row_listed; [apply Hrows|]. }
  split_and!.
  - destruct (read_pages_in_order _ _ _ _ _ _ _ Hord Hn Hread) as [Hs _]. apply sorted_items; [|done].
    apply Forall_forall. intros r Hr. destruct (Hsound r Hr) as (_ & _ & -> & _). done.
  - intros e (r & -> & Hr)%list_elem_of_fmap. destruct (Hsound r Hr) as (st & Hst & _ & Hlisted). eauto.
  - intros -> key Hkey. destruct (read_pages_complete _ _ _ _ _ _ key Hord Hn Hread) as (r & Hr & Hk); [|done|].
    + intros l (st & -> & Hst)%list_elem_of_fmap. destruct (Hkey st Hst) as (e & He & <-). rewrite Forall_forall in Hrows.
      exists (listing_key e, e). split; [by apply listed_catalog; [apply Hrows|]|done].
    + destruct (Hsound r Hr) as (st & _ & Heq & _). exists r.2. split; [apply list_elem_of_fmap; eauto|]. rewrite Heq in Hk. exact Hk.
  - intros st Hst Hsize. assert (stores = replicate (length stores) st) as Hrep.
    { clear -Hst. induction Hst as [|x l <- Hl IH]; [done|]. cbn [length replicate]. by f_equal. }
    assert (sources = replicate (S (pred (length stores))) (catalog st kind query)) as Hsrc.
    { unfold sources. rewrite Hrep, fmap_replicate, length_replicate. f_equal. lia. }
    rewrite Hsrc, (read_pages_at_rest fst key_then_id _ _ _ _ (catalog_in_order st) Hn) in Hread; [by injection Hread|].
    pose proof (catalog_size st). assert (forall p (l : list catalog_row), length (List.filter p l) <= length l)%nat as Hle
      by (intros p l; induction l as [|a l IH]; cbn; [lia|destruct (p a); cbn; lia]).
    etrans; [apply Hle|]. lia.
Qed.
End paging.
