(* ===== verification/EntityRuns.v ===== *)
(** * Executions of the entity store on concrete data

    A project with a tag and a skill that names it: the theorems of EntityFacts
    applied to the configurations these operations reach. *)
From Stdlib Require Import Ascii.
From S2P Require Import Prelude GoSort GoStrings GoCrypto GoJson GoFloat Domain JobStore FormulaDecimal DomainEntity.
From S2P Require Import GraphSCC FormulaRegistry FormulaAst FormulaLexer FormulaParser FormulaSemantic VersionGate.
From S2P Require Import ValidationTypes ValidationGraph ValidationWalk ValidationAnalyze EntityStore EntityRestore JsonRoundTrip EntityHistory StoreCursors EntityReads EntityFacts EntityPaging.
Open Scope Z_scope.

Module StoreExamples.
Local Existing Instance canonical_uuid.
Local Existing Instance latin1_tables.
Local Existing Instance integer_apd.
#[local] Instance text_floats : FloatText := {| float_text := Ok |}.
#[local] Instance text_times : TimeText := {| rfc3339nano := Itoa |}.

Definition quoted (s : string) : string := (quote_mark +:+ s +:+ quote_mark)%string.
Definition uuid (last : string) : ID := ("01890a5d-ac96-774b-bcce-b302099a80" +:+ last)%string.
Definition schema_table : SchemaRegistry :=
  mkSchemaRegistry (list_to_map ((fun k => (kindSchema k, mkSchema (kindSchema k) "{}")) <$> builtin_kinds))
    ((fun k => (k, kindSchema k)) <$> builtin_kinds).
Definition service : Service :=
  mkService schema_table (mkRegistry ∅ ∅ "formula-v1") defaultGraphVersionEntry defaultSimulationVersionEntry
    defaultRiskVersionEntry (Ok tt).
Definition draws (a b : string) (t : Time) : Draws := mkDraws (Some (uuid a)) t (Some (uuid b)) t.
Definition alone (_ : nat) (st : EntityStore) : EntityStore := st.

Definition fire_draft : EntityDraft :=
  mkDraft "fire" "Fire" "" [] "" (Some [("category"%string, quoted "element"); ("parent_tag_ids"%string, "[]"%string)]) (Some []).
Definition comet_draft : EntityDraft :=
  mkDraft "comet" "Comet" "" [uuid "01"] ""
    (Some [("costs"%string, "[]"%string); ("cooldown"%string, quoted "3"); ("target_selector"%string, quoted "self");
           ("effect_ids"%string, "[]"%string); ("rule_blocks"%string, "[]"%string)]) (Some []).
(** A tag, a skill with that tag, and a FULL validation of the last revision. *)
Definition run1 := Create service empty_entities (fun _ => draws "11" "21" 10) alone (Some (uuid "01")) 10 KindTag fire_draft.
Definition st1 : EntityStore := Eval vm_compute in run1.1.
Definition run2 := Create service st1 (fun _ => draws "12" "22" 20) alone (Some (uuid "02")) 20 KindSkill comet_draft.
Definition st2 : EntityStore := Eval vm_compute in run2.1.
Definition run3 := RunValidation service st2 (Some (uuid "31")) 30 SourceRevision (uuid "12") ScopeFull.
Definition st3 : EntityStore := Eval vm_compute in match run3 with Ok (st, _) => st | Err _ => st2 end.

(** ** These configurations are reachable *)
Definition hash_used (st : EntityStore) (e : Entity) : bool :=
  match BlobHash e with Ok (h, _) => match blobs st !! h with Some _ => true | None => false end | Err _ => false end.
Lemma no_collision st e : hash_used st e = false -> clean_write st e.
Proof. unfold hash_used. intros Hn h b b' Hb. rewrite Hb in Hn. by destruct (blobs st !! h). Qed.

Definition fire : Entity := Eval vm_compute in match run1.2 with Ok (e, _) => e | Err _ => archived 0 (mkEntity "" KindTag "" "" "" None "" StatusActive 0 None None 0 0 0) end.
Definition comet : Entity := Eval vm_compute in match run2.2 with Ok (e, _) => e | Err _ => fire end.
Ltac computed :=
  match goal with |- ?l = ?r =>
    tryif has_evar r then (let v := eval vm_compute in l in unify r v; vm_cast_no_check (@eq_refl _ v))
    else vm_cast_no_check (@eq_refl _ r)
  end.
Lemma reach1 : reachable_store service st1.
Proof.
  apply rtc_once. eapply step_edit, (step_create service _ _ (draws "11" "21" 10) (mkPreflight (workingManifestHashTx empty_entities) []) (uuid "01") 10 KindTag fire_draft fire fire).
  - apply ascii_text. computed.
  - computed.
  - computed.
  - apply no_collision; computed.
  - computed.
Qed.
Lemma steps12 : rtc (entity_step service) st1 st2.
Proof.
  apply rtc_once. eapply step_edit, (step_create service _ _ (draws "12" "22" 20) (mkPreflight (workingManifestHashTx st1) []) (uuid "02") 20 KindSkill comet_draft comet comet).
  - apply ascii_text. computed.
  - computed.
  - computed.
  - apply no_collision; computed.
  - computed.
Qed.
Lemma reach2 : reachable_store service st2.
Proof. unfold reachable_store. etrans; [exact reach1|exact steps12]. Qed.
Lemma reach3 : reachable_store service st3.
Proof.
  eapply rtc_r; [exact reach2|]. eapply step_edit, (step_validation service _ _ (Some (uuid "31")) 30 SourceRevision (uuid "12") ScopeFull). computed.
Qed.

Lemma reachable_configuration_witness : numbered st3 /\ unique_active st3 /\ size (config_revisions st3) = 2%nat.
Proof.
  destruct (reachable_configuration service st3 reach3) as ((_ & Hu & _) & Hh & _).
  split_and!; [apply (revisions_numbered _ Hh)|exact Hu|computed].
Defined.

(** The first revision is still there after the skill was created. *)
Lemma revision_immutable_witness :
  Revision_Display <$> config_revisions st2 !! uuid "11" = Some 1 /\
  materializeRevisionEntitiesTx st2 (uuid "11") = materializeRevisionEntitiesTx st1 (uuid "11").
Proof.
  destruct (config_revisions st1 !! uuid "11") as [row|] eqn:Hrow; [|vm_compute in Hrow; discriminate].
  destruct (revision_immutable service st1 st2 (uuid "11") row reach1 steps12 Hrow) as (-> & _ & _ & Hm).
  split; [|exact Hm]. vm_compute in Hrow. injection Hrow as <-. reflexivity.
Defined.

Lemma validation_gate_exact_witness :
  gate service st3 (uuid "12") "78210e5f5761eb4ea09a42d01a3133ff6d8ed9c14aa23cacad182e266b43c601" = Ok GatePass /\
  AnalyzeV1 schema_table (formulas service) (currentValidationVersionManifest service)
    (materializeRevisionEntitiesTx st3 (uuid "12")) ScopeFull = Ok [].
Proof.
  assert (gate service st3 (uuid "12") "78210e5f5761eb4ea09a42d01a3133ff6d8ed9c14aa23cacad182e266b43c601" = Ok GatePass) as Hg by computed.
  split; [exact Hg|]. destruct (validation_gate_exact service st3 _ _ _ reach3 Hg) as [_ Hv].
  destruct Hv as [(row & issues & _ & _ & Ha & Hp & _) _]; [discriminate|]. rewrite (proj1 Hp eq_refl) in Ha. exact Ha.
Defined.

(** A checkpoint is committed between the read and the preflight. *)
Definition meanwhile (i : nat) (st : EntityStore) : EntityStore :=
  match i with
  | O => match CreateCheckpoint service st (draws "13" "23" 35) (uuid "12") "before the meteor" "" with Ok (st', _) => st' | Err _ => st end
  | S _ => st
  end.
Definition run4 := Patch service st3 (fun _ => draws "14" "24" 40) meanwhile 40 KindSkill (uuid "02") 1 [("name"%string, quoted "Meteor")].
Definition st4 : EntityStore := Eval vm_compute in run4.1.
Lemma meanwhile_edits i st : rtc (edit_step service) st (meanwhile i st).
Proof.
  destruct i; [|apply rtc_refl]. cbn [meanwhile]. destruct (CreateCheckpoint _ _ _ _ _ _) as [[st' r]|] eqn:Hc; [|apply rtc_refl].
  apply rtc_once. by eapply step_checkpoint.
Qed.
Lemma meanwhile_steps i st : rtc (entity_step service) st (meanwhile i st).
Proof. apply edits_are_steps, meanwhile_edits. Qed.
Definition result4 : result (Entity * RevisionSummary) StoreError := Eval vm_compute in run4.2.
Definition meteor : Entity * RevisionSummary := Eval vm_compute in match result4 with Ok r => r | Err _ => (fire, mkRevisionSummary "" 0 "" 0 None) end.
Lemma patched : run4 = (st4, Ok (meteor.1, meteor.2)).
Proof. computed. Qed.
Lemma texts : valid_text (uuid "01") /\ valid_text (uuid "02").
Proof. split; apply ascii_text; computed. Qed.
Lemma patch_is_atomic_witness :
  exists s current row, getTx st3 KindSkill (uuid "02") = Ok current /\
    rtc (entity_step service) st3 s /\ getTx s KindSkill (uuid "02") = Ok current /\ EntityVersion current = 1 /\
    working st4 = <[uuid "02" := row]> (working s) /\ Row_Version row = 2 /\ size (config_revisions st4) = 4%nat.
Proof.
  destruct (patch_is_atomic service st3 st4 (fun _ => draws "14" "24" 40) meanwhile 40 KindSkill (uuid "02") 1
    [("name"%string, quoted "Meteor")] meteor.1 meteor.2 reach3 (proj2 texts) meanwhile_steps patched)
    as (s & read & current & next0 & row & Hs & Hread & _ & _ & _ & Hget & Hv & Hsame & Hw & Hrv & _).
  specialize (Hsame meanwhile_edits). subst read.
  exists s, current, row. split_and!; [exact Hread|exact Hs|exact Hget|exact Hv|exact Hw|exact Hrv|computed].
Defined.

(** Versions do not identify contents across a restore: while a patch of the
    meteor at version 2 waits, the first revision is restored and the comet of
    version 1 patched to version 2; the pending patch commits over that. *)
Definition published (_ : ID) : option ID := Some (uuid "12").
Definition restored_store (st : EntityStore) : EntityStore :=
  match RestoreRelease service st (draws "17" "27" 50) published (uuid "14") (uuid "61") with Ok (st', _) => st' | Err _ => st end.
Definition elsewhere (i : nat) (st : EntityStore) : EntityStore :=
  match i with
  | O => (Patch service (restored_store st) (fun _ => draws "18" "28" 55) alone 55 KindSkill (uuid "02") 1 [("name"%string, quoted "Nova")]).1
  | S _ => st
  end.
Definition run_pending := Patch service st4 (fun _ => draws "19" "29" 70) elsewhere 70 KindSkill (uuid "02") 2 [("description"%string, quoted "slow")].
Definition summary_of (r : result Entity StoreError) : option (string * string * Z) :=
  match r with Ok e => Some (Entity_Name e, Entity_Description e, EntityVersion e) | Err _ => None end.
Example restore_hides_an_update :
  summary_of (getTx st4 KindSkill (uuid "02")) = Some ("Meteor", "", 2)%string /\
  summary_of (getTx (restored_store st4) KindSkill (uuid "02")) = Some ("Comet", "", 1)%string /\
  summary_of (getTx (elsewhere 0 st4) KindSkill (uuid "02")) = Some ("Nova", "", 2)%string /\
  summary_of (getTx run_pending.1 KindSkill (uuid "02")) = Some ("Meteor", "slow", 3)%string.
Proof. split_and!; computed. Qed.

(** The tag cannot be deleted while the skill names it, the skill can. *)
Definition run5 := Delete service st3 (draws "15" "25" 50) 50 KindSkill (uuid "02") 1.
Definition st5 : EntityStore := Eval vm_compute in match run5 with Ok (st, _) => st | Err _ => st3 end.
Definition stored_fire : Entity := Eval vm_compute in match getTx st3 KindTag (uuid "01") with Ok e => e | Err _ => fire end.
Definition stored_comet : Entity := Eval vm_compute in match getTx st3 KindSkill (uuid "02") with Ok e => e | Err _ => comet end.
Definition rev5 : RevisionSummary := Eval vm_compute in match run5 with Ok (_, (_, r)) => r | Err _ => mkRevisionSummary "" 0 "" 0 None end.
Lemma deleted : run5 = Ok (st5, (archived 50 stored_comet, rev5)).
Proof. computed. Qed.
Lemma got_fire : getTx st3 KindTag (uuid "01") = Ok stored_fire.
Proof. computed. Qed.
Lemma got_comet : getTx st3 KindSkill (uuid "02") = Ok stored_comet.
Proof. computed. Qed.
Lemma named : active_references st3 (uuid "01") = [mkReference (uuid "02") "tag_ids[0]" KindTag (uuid "01") 0].
Proof. computed. Qed.
Lemma clean_delete : clean_write st3 (archived 50 stored_comet).
Proof. apply no_collision; computed. Qed.
Lemma delete_leaves_no_dangling_reference_witness :
  Delete service st3 (draws "15" "25" 50) 50 KindTag (uuid "01") 1 =
    Err (ReferencedError [mkReference (uuid "02") "tag_ids[0]" KindTag (uuid "01") 0]) /\
  reachable_store service st5 /\ exists row, working st5 = <[uuid "02" := row]> (working st3) /\ Row_Status row = StatusArchived.
Proof.
  split.
  - apply (delete_leaves_no_dangling_reference service st3 (draws "15" "25" 50) 50 KindTag (uuid "01") 1 stored_fire
      reach3 (proj1 texts) eq_refl got_fire eq_refl). rewrite named. split; [reflexivity|discriminate].
  - destruct (proj2 (proj2 (proj2 (delete_leaves_no_dangling_reference service st3 (draws "15" "25" 50) 50 KindSkill (uuid "02") 1 stored_comet
      reach3 (proj2 texts) eq_refl got_comet eq_refl))) st5 _ rev5 deleted clean_delete) as (Hr & _ & (row & Hw & Hs & _) & _).
    split; [exact Hr|]. exists row. split; [exact Hw|exact Hs].
Defined.

(** A second tag; the catalog of tags in pages of one. *)
#[local] Instance exact_like : SqliteText := {| sql_lower := fun s => s; sql_like := fun x y => bool_decide (("%" +:+ x +:+ "%")%string = y) |}.
Definition ice_draft : EntityDraft :=
  mkDraft "ice" "Ice" "" [] "" (Some [("category"%string, quoted "element"); ("parent_tag_ids"%string, "[]"%string)]) (Some []).
Definition run6 := Create service st1 (fun _ => draws "16" "26" 60) alone (Some (uuid "03")) 60 KindTag ice_draft.
Definition st6 : EntityStore := Eval vm_compute in run6.1.
Definition ice : Entity := Eval vm_compute in
  match (let? e := NewEntity (Some (uuid "03")) KindTag ice_draft 60 in
         match validateProspective service e with Ok e => Ok e | Err _ => Err ""%string end) with Ok e => e | Err _ => fire end.
Lemma reach6 : reachable_store service st6.
Proof.
  unfold reachable_store. etrans; [exact reach1|]. apply rtc_once.
  eapply step_edit, (step_create service _ _ (draws "16" "26" 60) (mkPreflight (workingManifestHashTx st1) []) (uuid "03") 60 KindTag ice_draft ice ice).
  - apply ascii_text. computed.
  - computed.
  - computed.
  - apply no_collision; computed.
  - computed.
Qed.
Lemma catalog_traversal_witness :
  exists items, read_catalog KindTag "" 1 [st6; st6] "" = Ok (items, true) /\ length items = 2%nat /\
    StronglySorted (fun x y => key_then_id (listing_key x) (listing_key y) = true) items.
Proof.
  destruct (catalog_traversal service KindTag "" 1 [st6; st6]) as (items & finished & Hread & Hs & _).
  - constructor; [exact reach6|]. constructor; [exact reach6|constructor].
  - reflexivity.
  - lia.
  - assert (read_catalog KindTag "" 1 [st6; st6] "" = Ok ([fire; ice], true)) as Hc by computed.
    rewrite Hc in Hread. injection Hread as <- <-. exists [fire; ice]. split_and!; [exact Hc|reflexivity|exact Hs].
Defined.
End StoreExamples.
