(* ===== verification/GraphProjector.v ===== *)
(** * internal/graph/projector: from an immutable revision to the nodes and edges of a snapshot

    registry.go, format.go, project.go, manifest.go, summary.go, base.go,
    fallback.go, contributor.go.  The canonicalizer github.com/gowebpki/jcs is not
    part of the repository ([JcsLib]).  The [map[string]any] of properties and
    provenance hold only texts, booleans, ints and slices of texts ([property]);
    such a map is an association list with distinct keys (its encoding sorts
    them), never nil. *)
From Stdlib Require Import Ascii.
From S2P Require Import Prelude GoSort GoStrings GoCrypto GoJson GoFloat Domain DomainEntity VersionGate.
Open Scope Z_scope.

(** ** registry.go *)
Definition ProjectionSchemaV1 : string := "1".
Definition ProjectorV1 : string := "v1".

Inductive RelationToken :=
  | CharacterHasSkill | CharacterUsesItem | SkillAppliesEffect | ItemAppliesEffect | FormulaReadsAttribute
  | EffectModifiesAttribute | EntityHasTag | ItemEnhancesTag | EffectTriggersEffect
  | RelationTokenOther (spelling : string).
#[global] Instance RelationToken_eq_dec : EqDecision RelationToken.
Proof. solve_decision. Defined.
Definition RelationToken_text (t : RelationToken) : string :=
  match t with
  | CharacterHasSkill => "character_has_skill" | CharacterUsesItem => "character_uses_item"
  | SkillAppliesEffect => "skill_applies_effect" | ItemAppliesEffect => "item_applies_effect"
  | FormulaReadsAttribute => "formula_reads_attribute" | EffectModifiesAttribute => "effect_modifies_attribute"
  | EntityHasTag => "entity_has_tag" | ItemEnhancesTag => "item_enhances_tag"
  | EffectTriggersEffect => "effect_triggers_effect" | RelationTokenOther s => s
  end.

Record RelationDescriptor := mkRelation {
  Token : RelationToken; SourceKinds : list EntityKind; Relation_TargetKind : EntityKind; PathPattern : string;
  Direction : string; OccurrenceOrder : string; ProvenanceBuilder : string
}.
#[global] Instance RelationDescriptor_eq_dec : EqDecision RelationDescriptor.
Proof. solve_decision. Defined.
Definition RelationDescriptor_Valid (d : RelationDescriptor) : bool :=
  negb (bool_decide (RelationToken_text (Token d) = EmptyString) || negb (EntityKind_Valid (Relation_TargetKind d)) ||
        negb (has_prefix "/" (PathPattern d)) || bool_decide (SourceKinds d = []) ||
        negb (bool_decide (Direction d = "source_to_target"%string)) ||
        negb (bool_decide (OccurrenceOrder d = "source_field_order"%string)) ||
        negb (bool_decide (ProvenanceBuilder d = "v1"%string))) &&
  forallb EntityKind_Valid (SourceKinds d).

Definition v1_relation (token : RelationToken) (kinds : list EntityKind) (target : EntityKind) (path : string) : RelationDescriptor :=
  mkRelation token kinds target path "source_to_target" "source_field_order" "v1".
Definition V1Relations : list RelationDescriptor := [
  v1_relation CharacterHasSkill [KindCharacter] KindSkill "/payload/skill_ids/*";
  v1_relation CharacterUsesItem [KindCharacter] KindItem "/payload/item_ids/*";
  v1_relation SkillAppliesEffect [KindSkill] KindEffect "/payload/effect_ids/*";
  v1_relation ItemAppliesEffect [KindItem] KindEffect "/payload/effect_ids/*";
  v1_relation FormulaReadsAttribute [KindCharacter; KindSkill] KindAttribute "/payload/*/*/expression";
  v1_relation EffectModifiesAttribute [KindEffect] KindAttribute "/payload/modifiers/*/attribute_id";
  v1_relation EntityHasTag [KindAttribute; KindTag; KindCharacter; KindSkill; KindItem; KindEffect] KindTag "/tag_ids/*";
  v1_relation ItemEnhancesTag [KindItem] KindTag "/payload/enhance_tag_ids/*";
  v1_relation EffectTriggersEffect [KindEffect] KindEffect "/payload/trigger_blocks/*/effect_ids/*"
].

Inductive property := PText (s : string) | PBool (b : bool) | PInt (z : Z) | PTexts (l : list string).
#[global] Instance property_eq_dec : EqDecision property.
Proof. solve_decision. Defined.
Definition fields : Type := list (string * property).
(** [m[key] = v] *)
Fixpoint set_property (m : fields) (key : string) (v : property) : fields :=
  match m with
  | [] => [(key, v)]
  | (k, w) :: m => if decide (k = key) then (key, v) :: m else (k, w) :: set_property m key v
  end.
(** [Formatter.Format]: label, text and properties. *)
Definition Formatter : Type := Entity -> result (string * string * fields) string.
Record Descriptor := mkDescriptor {
  SchemaVersion_ : string; Descriptor_Version : string; Relations : list RelationDescriptor; Descriptor_Formatter : option Formatter
}.
Definition validRelations (relations : list RelationDescriptor) : bool :=
  (Z.of_nat (length relations) =? 9) && forallb RelationDescriptor_Valid relations && nodupb (Token <$> relations).
Definition Descriptor_Valid (d : Descriptor) : bool :=
  negb (bool_decide (SchemaVersion_ d = EmptyString) || bool_decide (Descriptor_Version d = EmptyString) ||
        negb (validRelations (Relations d)) || negb (bool_decide (is_Some (Descriptor_Formatter d)))) &&
  (negb (bool_decide (SchemaVersion_ d = ProjectionSchemaV1)) || bool_decide (Relations d = V1Relations)).

(** [cloneDescriptor] copies the slices, so it is the identity on values. *)
Record ProjectorRegistry := mkProjectorRegistry { descriptors : gmap (string * string) Descriptor; defaultKey : string * string }.
Definition descriptor_key (d : Descriptor) : string * string := (SchemaVersion_ d, Descriptor_Version d).
Definition register (m : gmap (string * string) Descriptor) (d : Descriptor) : result (gmap (string * string) Descriptor) string :=
  if negb (Descriptor_Valid d) then Err "invalid projector descriptor"%string
  else match m !! descriptor_key d with
  | Some _ => Err ("duplicate projector identity " +:+ SchemaVersion_ d +:+ "/" +:+ Descriptor_Version d)%string
  | None => Ok (<[descriptor_key d := d]> m)
  end.
Definition NewRegistry (schema version : string) (ds : list Descriptor) : result ProjectorRegistry string :=
  let? m := foldr_result register ∅ ds in
  match m !! (schema, version) with
  | None => Err "default projector is not registered"%string
  | Some _ => Ok (mkProjectorRegistry m (schema, version))
  end.
Definition Resolve (r : option ProjectorRegistry) (schema version : string) : result Descriptor string :=
  match r with
  | None => Err "PROJECTOR_VERSION_UNAVAILABLE"%string
  | Some r => match descriptors r !! (schema, version) with
              | None => Err ("PROJECTOR_VERSION_UNAVAILABLE: " +:+ schema +:+ "/" +:+ version)%string
              | Some d => Ok d
              end
  end.
(** [Default] of a registry; without one it is the zero descriptor. *)
Definition Default (r : option ProjectorRegistry) : option Descriptor := r ← r; descriptors r !! defaultKey r.
Definition RelationTokens (relations : list RelationDescriptor) : list string :=
  sort_strings ((fun r => RelationToken_text (Token r)) <$> relations).

(** ** contributor.go *)
Definition CapabilityID : string := "graph-projector".
Definition ImplementationVersion (d : Descriptor) : string :=
  if negb (Descriptor_Valid d) then EmptyString else (SchemaVersion_ d +:+ "/" +:+ Descriptor_Version d)%string.
Definition RegistrationState_of (d : Descriptor) : RegistrationState :=
  if negb (Descriptor_Valid d) then Unregistered else Registered.

(** ** format.go *)
Record formatSpec := mkFormatSpec { TextFields : list string; CollectionFields : list string }.
Definition v1FormatSpecs : list (EntityKind * formatSpec) := [
  (KindAttribute, mkFormatSpec ["value_type"; "dimension"; "base_unit"; "default"; "min"; "max"; "display_scale"] []);
  (KindTag, mkFormatSpec ["category"] ["parent_tag_ids"]);
  (KindCharacter, mkFormatSpec [] ["skill_ids"; "item_ids"]);
  (KindSkill, mkFormatSpec ["cooldown"] ["effect_ids"]);
  (KindItem, mkFormatSpec ["slot"] ["effect_ids"; "enhance_tag_ids"]);
  (KindEffect, mkFormatSpec ["duration"] [])
]%string.
Definition v1FormatSpec (kind : EntityKind) : option formatSpec :=
  snd <$> List.find (fun e => bool_decide (fst e = kind)) v1FormatSpecs.

Definition payloadScalar (payload : raw_map) (name : string) : result (option (property * string)) string :=
  match assoc (entries payload) name with
  | None => Ok None
  | Some raw =>
      match Unmarshal_string raw with
      | Some value => Ok (Some (PText value, value))
      | None =>
          match decode_document raw with
          | Some (JBool b) => Ok (Some (PBool b, if b then "true" else "false"))%string
          | _ => Err ("invalid v1 " +:+ name +:+ " payload field")%string
          end
      end
  end.
Definition payloadStrings (payload : raw_map) (name : string) : result (option (list string)) string :=
  match assoc (entries payload) name with
  | None => Ok None
  | Some raw =>
      match unmarshal_strings raw [] with
      | Some values => Ok (Some (sort_strings (default [] values)))
      | None => Err "invalid v1 payload field"%string
      end
  end.

Definition EntityStatus_string (s : EntityStatus) : string :=
  match s with StatusActive => "active" | StatusArchived => "archived" | StatusOther s => s end.
(** The two loops over the fields of the spec: properties and text parts. *)
Definition format_scalar (payload : raw_map) (acc : fields * list string) (name : string) : result (fields * list string) string :=
  let '(properties, parts) := acc in
  let? found := payloadScalar payload name in
  Ok match found with
     | None => acc
     | Some (value, text) =>
         (set_property properties name value,
          if bool_decide (text = EmptyString) then parts else (parts ++ [(name +:+ ": " +:+ text)%string])%list)
     end.
Definition format_strings (payload : raw_map) (acc : fields * list string) (name : string) : result (fields * list string) string :=
  let '(properties, parts) := acc in
  let? found := payloadStrings payload name in
  Ok match found with
     | None => acc
     | Some values =>
         (set_property properties name (PTexts values),
          match values with [] => parts | _ => (parts ++ [(name +:+ ": " +:+ Join values ",")%string])%list end)
     end.
Section projector.
Context `{UuidLib}.

Definition V1Formatter : Formatter := fun entity =>
  if negb (ID_Valid (Entity_ID entity)) || negb (EntityKind_Valid (Entity_Kind entity)) || (SchemaVersion entity <? 1)
  then Err "invalid entity for Graph formatting"%string
  else
    let label := if bool_decide (Entity_Name entity = EmptyString) then Entity_Key entity else Entity_Name entity in
    match v1FormatSpec (Entity_Kind entity) with
    | None => Err "unregistered v1 formatter kind"%string
    | Some spec =>
        let given (text : string) {A} (l : list A) : list A := if bool_decide (text = EmptyString) then [] else l in
        let properties := foldl (fun m '(k, v) => set_property m k v) []
          ([("key"%string, PText (Entity_Key entity)); ("name"%string, PText (Entity_Name entity));
            ("schema_version"%string, PInt (SchemaVersion entity));
            ("status"%string, PText (EntityStatus_string (Entity_Status entity)))] ++
           given (Entity_Description entity) [("description"%string, PText (Entity_Description entity))] ++
           given (BalanceGroup entity) [("balance_group"%string, PText (BalanceGroup entity))] ++
           match TagIDs entity with [] => [] | tags => [("tag_ids"%string, PTexts (sort_strings tags))] end)%list in
        let parts := ([EntityKind_text (Entity_Kind entity); label] ++ given (Entity_Description entity) [Entity_Description entity] ++
                      given (BalanceGroup entity) [BalanceGroup entity])%list in
        let? acc := foldr_result (format_scalar (Payload entity)) (properties, parts) (TextFields spec) in
        let? (properties, parts) := foldr_result (format_strings (Payload entity)) acc (CollectionFields spec) in
        Ok (label, Join parts newline, properties)
    end.

(** ** project.go *)
Record Reference := mkReference {
  Reference_SourceID : ID; Reference_TargetID : ID; Reference_FieldPath : string; Reference_Ordinal : Z; Reference_TargetKind : EntityKind
}.
Record Revision := mkRevision {
  Revision_ProjectID : ID; Revision_RevisionID : ID; Revision_ConfigHash : string;
  Revision_Entities : list Entity; Revision_References : list Reference
}.
Record NodeProvenance := mkNodeProvenance {
  NodeP_ProjectID : string; NodeP_RevisionID : string; NodeP_ConfigHash : string; NodeP_EntityID : string; NodeP_EntityKind : string;
  NodeP_ProjectionSchema : string; NodeP_Projector : string; NodeP_EntitySchemaVersion : Z
}.
Record EdgeProvenance := mkEdgeProvenance {
  EdgeP_ProjectID : string; EdgeP_RevisionID : string; EdgeP_ConfigHash : string; EdgeP_SourceEntityID : string; EdgeP_FieldPath : string;
  EdgeP_ProjectionSchema : string; EdgeP_Projector : string; EdgeP_Ordinal : Z
}.
Record Node := mkNode {
  Node_ID : string; Node_Type : string; Node_Label : string; Node_Text : string; Node_Properties : fields; Node_Provenance : NodeProvenance
}.
Record Edge := mkEdge {
  Edge_ID : string; Edge_From : string; Edge_To : string; Edge_Type : string; Edge_RelationKind : string; Edge_Confidence : Z;
  Edge_Properties : fields; Edge_Provenance : EdgeProvenance
}.
Record Result := mkResult { Nodes : list Node; Edges : list Edge }.

Definition validHash (value : string) : bool := hash_shape value.

Definition materialize_entity (seen : list ID) (e : Entity) : result (list ID) string :=
  if negb (ID_Valid (Entity_ID e)) || negb (EntityKind_Valid (Entity_Kind e)) then Err "invalid entity"%string
  else if bool_decide (Entity_ID e ∈ seen) then Err ("duplicate entity " +:+ Entity_ID e)%string
  else Ok (Entity_ID e :: seen).
Definition Materialize (r : Revision) : result (list Entity) string :=
  if negb (ID_Valid (Revision_ProjectID r)) || negb (ID_Valid (Revision_RevisionID r)) || negb (validHash (Revision_ConfigHash r))
  then Err "invalid immutable revision"%string
  else
    let entities := sort_by (less_on Entity_ID String.ltb) (Revision_Entities r) in
    let? _ := foldr_result materialize_entity [] entities in
    Ok entities.

Definition NodeID (projectID : ID) (e : Entity) : string :=
  ("urn:eco:" +:+ projectID +:+ ":" +:+ EntityKind_text (Entity_Kind e) +:+ ":" +:+ Entity_ID e)%string.

(** encoding/base32 without padding: five bits a digit. *)
Definition base32_digit (n : Z) : ascii := char_of (if n <? 26 then 65 + n else 24 + n).
Fixpoint base32_digits (n : nat) (bits : Z) : string :=
  match n with O => EmptyString | S n => String (base32_digit (Z.land (Z.shiftr bits (5 * Z.of_nat n)) 31)) (base32_digits n bits) end.
Definition base32_sum (l : list Z) : string :=
  let digits := ((8 * length l + 4) / 5)%nat in
  base32_digits digits (Z.shiftl (foldl (fun acc b => 256 * acc + b) 0 l) (Z.of_nat (5 * digits - 8 * length l))).
Definition EdgeID (from : string) (token : RelationToken) (to path : string) (ordinal : Z) : string :=
  base32_sum (Sum256 (from +:+ "|" +:+ RelationToken_text token +:+ "|" +:+ to +:+ "|" +:+ path +:+ "|" +:+ Itoa ordinal)%string).

(** [strings.Split] on a one-byte separator. *)
Fixpoint Split (s : string) (sep : ascii) : list string :=
  match s with
  | EmptyString => [EmptyString]
  | String a s =>
      if decide (a = sep) then EmptyString :: Split s sep
      else match Split s sep with p :: ps => String a p :: ps | [] => [String a EmptyString] end
  end.
Definition match_segment (a b : string) : bool :=
  if bool_decide (b = "*"%string) then bool_decide (is_Some (ParseInt a)) else bool_decide (a = b).
Definition matchPointer (value pattern : string) : bool :=
  let a := Split value "/" in let b := Split pattern "/" in
  bool_decide (length a = length b) && forallb (fun '(x, y) => match_segment x y) (zip a b).
Definition matchesKind (kind : EntityKind) (values : list EntityKind) : bool := existsb (fun v => bool_decide (v = kind)) values.
(** The zero [Entity] of a missing source has the empty kind. *)
Definition relationFor (relations : list RelationDescriptor) (sourceKind : EntityKind) (r : Reference) : option RelationToken :=
  Token <$> List.find (fun d => bool_decide (Reference_TargetKind r = Relation_TargetKind d) &&
    matchesKind sourceKind (SourceKinds d) && matchPointer (Reference_FieldPath r) (PathPattern d)) relations.

Definition node_of (d : Descriptor) (r : Revision) (e : Entity) (formatted : string * string * fields) : Node :=
  let '(label, text, properties) := formatted in
  mkNode (NodeID (Revision_ProjectID r) e) (EntityKind_text (Entity_Kind e)) label text properties
    (mkNodeProvenance (Revision_ProjectID r) (Revision_RevisionID r) (Revision_ConfigHash r) (Entity_ID e)
       (EntityKind_text (Entity_Kind e)) (SchemaVersion_ d) (Descriptor_Version d) (SchemaVersion e)).
Definition edge_of (d : Descriptor) (r : Revision) (token : RelationToken) (source target : Entity) (ref : Reference) : Edge :=
  let from := NodeID (Revision_ProjectID r) source in
  let to := NodeID (Revision_ProjectID r) target in
  mkEdge (EdgeID from token to (Reference_FieldPath ref) (Reference_Ordinal ref)) from to (RelationToken_text token) "explicit" 1 []
    (mkEdgeProvenance (Revision_ProjectID r) (Revision_RevisionID r) (Revision_ConfigHash r) (Entity_ID source)
       (Reference_FieldPath ref) (SchemaVersion_ d) (Descriptor_Version d) (Reference_Ordinal ref)).
Definition is_archived (e : Entity) : bool := bool_decide (Entity_Status e = StatusArchived).
(** The loop over the entities; [format] is the descriptor's formatter. *)
Definition project_node (d : Descriptor) (format : Formatter) (r : Revision) (nodes : list Node) (e : Entity) : result (list Node) string :=
  if is_archived e then Ok nodes
  else let? formatted := format e in Ok (nodes ++ [node_of d r e formatted])%list.
(** The loop over the references.  [ids] has an entry for every entity that is
    not archived, so its test repeats the status tests. *)
Definition project_edge (d : Descriptor) (r : Revision) (byID : gmap ID Entity) (edges : list Edge) (ref : Reference) :
    result (list Edge) string :=
  let source := byID !! Reference_SourceID ref in
  match relationFor (Relations d) (match source with Some e => Entity_Kind e | None => KindOther "" end) ref with
  | None => Ok edges
  | Some token =>
      match source, byID !! Reference_TargetID ref with
      | Some s, Some t =>
          if negb (bool_decide (Entity_Kind t = Reference_TargetKind ref)) || is_archived s || is_archived t
          then Err "invalid edge endpoint"%string
          else
            let edge := edge_of d r token s t ref in
            if bool_decide (Edge_ID edge ∈ (Edge_ID <$> edges)) then Err ("duplicate edge " +:+ Edge_ID edge)%string
            else Ok (edges ++ [edge])%list
      | _, _ => Err "invalid edge endpoint"%string
      end
  end.
Definition by_id (entities : list Entity) : gmap ID Entity := foldl (fun m e => <[Entity_ID e := e]> m) ∅ entities.
Definition Project (d : Descriptor) (r : Revision) : result Result string :=
  match Descriptor_Formatter d with
  | Some format =>
      if negb (Descriptor_Valid d) then Err "invalid projector descriptor"%string
      else
        let? entities := Materialize r in
        let? nodes := foldr_result (project_node d format r) [] entities in
        let? edges := foldr_result (project_edge d r (by_id entities)) [] (Revision_References r) in
        Ok (mkResult (sort_by (less_on Node_ID String.ltb) nodes) (sort_by (less_on Edge_ID String.ltb) edges))
  | None => Err "invalid projector descriptor"%string
  end.
End projector.

(** ** manifest.go *)
Class JcsLib := { jcs_Transform : string -> result string string }.

(** [json.Marshal] of a property and of a map, whose keys are sorted. *)
Definition marshal_array (l : list string) : string := ("[" +:+ Join l "," +:+ "]")%string.
Definition marshal_property (v : property) : string :=
  match v with
  | PText s => marshal_string s
  | PBool b => if b then "true" else "false"
  | PInt z => Itoa z
  | PTexts l => marshal_array (marshal_string <$> l)
  end%string.
Definition marshal_member (m : string * string) : string := (marshal_string m.1 +:+ ":" +:+ m.2)%string.
(** A struct: its fields in their order. *)
Definition marshal_struct (l : list (string * string)) : string :=
  ("{" +:+ Join (marshal_member <$> l) "," +:+ "}")%string.
Definition marshal_map (m : fields) : string := marshal_struct ((fun '(k, v) => (k, marshal_property v)) <$> sort_fields m).
(** A slice that is nil when it is empty. *)
Definition marshal_slice (l : list string) : string :=
  match l with [] => "null"%string | _ => marshal_array l end.

Definition manifest_node (n : Node) : string :=
  let p := Node_Provenance n in
  marshal_struct [
    ("id", marshal_string (Node_ID n)); ("type", marshal_string (Node_Type n)); ("label", marshal_string (Node_Label n));
    ("text", marshal_string (Node_Text n)); ("properties", marshal_map (Node_Properties n));
    ("provenance", marshal_map [
       ("project_id", PText (NodeP_ProjectID p)); ("revision_id", PText (NodeP_RevisionID p)); ("config_hash", PText (NodeP_ConfigHash p));
       ("entity_id", PText (NodeP_EntityID p)); ("entity_kind", PText (NodeP_EntityKind p));
       ("entity_schema_version", PInt (NodeP_EntitySchemaVersion p));
       ("projection_schema_version", PText (NodeP_ProjectionSchema p)); ("projector_version", PText (NodeP_Projector p))])]%string.
Definition manifest_edge (e : Edge) : string :=
  let p := Edge_Provenance e in
  marshal_struct [
    ("id", marshal_string (Edge_ID e)); ("from", marshal_string (Edge_From e)); ("to", marshal_string (Edge_To e));
    ("type", marshal_string (Edge_Type e)); ("relation_kind", marshal_string (Edge_RelationKind e)); ("confidence", Itoa (Edge_Confidence e));
    ("properties", marshal_map (Edge_Properties e));
    ("provenance", marshal_map [
       ("project_id", PText (EdgeP_ProjectID p)); ("revision_id", PText (EdgeP_RevisionID p)); ("config_hash", PText (EdgeP_ConfigHash p));
       ("source_entity_id", PText (EdgeP_SourceEntityID p)); ("field_path", PText (EdgeP_FieldPath p));
       ("ordinal", PInt (EdgeP_Ordinal p));
       ("projection_schema_version", PText (EdgeP_ProjectionSchema p)); ("projector_version", PText (EdgeP_Projector p))])]%string.
Definition manifest_payload (r : Result) : string :=
  marshal_struct [
    ("schema_version", marshal_string "1.0");
    ("nodes", marshal_slice (manifest_node <$> sort_by (less_on Node_ID String.ltb) (Nodes r)));
    ("edges", marshal_slice (manifest_edge <$> sort_by (less_on Edge_ID String.ltb) (Edges r)))]%string.
Definition ManifestBytes `{JcsLib} (r : Result) : result (string * string) string :=
  let? canonical := jcs_Transform (manifest_payload r) in
  Ok (canonical, sha256_hex canonical).

(** ** summary.go *)
Record ProjectionSummary := mkSummary {
  Summary_ProjectID : string; Summary_RevisionID : string; Summary_ConfigHash : string; Summary_SchemaVersion : string;
  Summary_ProjectorVersion : string; ManifestHash : string; Summary_NodeCount : Z; Summary_EdgeCount : Z; CacheIdentity : string
}.
#[global] Instance ProjectionSummary_eq_dec : EqDecision ProjectionSummary.
Proof. solve_decision. Defined.
Definition NewSummary `{JcsLib} (projectID revisionID configHash : string) (d : Descriptor) (r : Result) (cacheIdentity : string) :
    result ProjectionSummary string :=
  if negb (Descriptor_Valid d) || negb (validHash configHash) || bool_decide (projectID = EmptyString) || bool_decide (revisionID = EmptyString)
  then Err "invalid projection identity"%string
  else
    let? (_, hash) := ManifestBytes r in
    Ok (mkSummary projectID revisionID configHash (SchemaVersion_ d) (Descriptor_Version d) hash (Z.of_nat (length (Nodes r))) (Z.of_nat (length (Edges r))) cacheIdentity).
Definition ProjectionSummary_Valid (s : ProjectionSummary) : bool :=
  negb (bool_decide (Summary_ProjectID s = EmptyString)) && negb (bool_decide (Summary_RevisionID s = EmptyString)) &&
  validHash (Summary_ConfigHash s) && negb (bool_decide (Summary_SchemaVersion s = EmptyString)) &&
  negb (bool_decide (Summary_ProjectorVersion s = EmptyString)) && validHash (ManifestHash s) &&
  (0 <=? Summary_NodeCount s) && (0 <=? Summary_EdgeCount s).

(** ** base.go, fallback.go *)
Record BaseObservation := mkBaseObservation {
  Base_Namespace : string; Base_Version : string; Base_ContentHash : string; Base_Status : string; Base_QueryReady : bool;
  Base_Components : gmap string string
}.
Definition EligibleBase (namespace version localHash : string) (o : BaseObservation) : bool :=
  negb (bool_decide (namespace = EmptyString) || bool_decide (version = EmptyString) || negb (validHash localHash) ||
        negb (bool_decide (Base_Namespace o = namespace)) || negb (bool_decide (Base_Version o = version)) ||
        negb (bool_decide (Base_ContentHash o = localHash)) || negb (bool_decide (Base_Status o = "ready"%string)) || negb (Base_QueryReady o)) &&
  bool_decide (Base_Components o !! "graph"%string = Some "ready"%string) && bool_decide (Base_Components o !! "fts"%string = Some "ready"%string).
Definition MayFallbackToFull (providerCode : string) : bool :=
  bool_decide (providerCode = "BASE_SNAPSHOT_NOT_FOUND"%string) || bool_decide (providerCode = "BASE_SNAPSHOT_NOT_READY"%string).
