(* ===== verification/GraphText.v ===== *)
(** * The JSON text of a struct determines the texts of its fields

    Strings, ints, booleans, arrays and structs as [json.Marshal] writes them are
    read back without ambiguity: two values followed by a delimiter whose texts
    agree are the same text.  [same] (plan.go) compares such texts. *)
From Stdlib Require Import Ascii.
From S2P Require Import Prelude GoSort GoStrings GoCrypto GoJson JsonRoundTrip GraphProjector.
Open Scope Z_scope.

(** ** Strings *)
Definition quote : ascii := char_of 34.
Definition backslash : ascii := char_of 92.
(** No unescaped quotation mark, no escape cut short. *)
Fixpoint clean (s : string) : bool :=
  match s with
  | EmptyString => true
  | String a r =>
      if decide (a = backslash) then match r with String _ r => clean r | EmptyString => false end
      else if decide (a = quote) then false else clean r
  end.

Lemma clean_ind (P : string -> Prop) :
  P EmptyString -> (forall b r, clean r = true -> P r -> P (String backslash (String b r))) ->
  (forall a r, a <> backslash -> a <> quote -> clean r = true -> P r -> P (String a r)) ->
  forall s, clean s = true -> P s.
Proof.
  intros H0 H1 H2. fix go 1. intros [|a s] Hs; [exact H0|]. simpl in Hs.
  destruct (decide (a = backslash)) as [->|Hb].
  - destruct s as [|b s]; [discriminate|]. apply H1; [exact Hs|apply go; exact Hs].
  - destruct (decide (a = quote)) as [->|Hq]; [discriminate|]. apply H2; try done. apply go; exact Hs.
Qed.

Lemma clean_other a r : a <> backslash -> a <> quote -> clean (String a r) = clean r.
Proof. intros Hb Hq. cbn [clean]. destruct (decide (a = backslash)); [done|]. by destruct (decide (a = quote)). Qed.

Lemma clean_app s t : clean s = true -> clean t = true -> clean (s +:+ t) = true.
Proof.
  intros Hs Ht. revert s Hs. apply clean_ind; [done| |].
  - intros b r _ IH. exact IH.
  - intros a r Hb Hq _ IH. rewrite app_cons, clean_other by done. exact IH.
Qed.

Lemma clean_split s : clean s = true -> forall t x y, clean t = true ->
  (s +:+ String quote x = t +:+ String quote y)%string -> s = t /\ x = y.
Proof.
  revert s. apply (clean_ind (fun s => forall t x y, clean t = true ->
    (s +:+ String quote x = t +:+ String quote y)%string -> s = t /\ x = y)).
  - intros [|c t] x y Ht; simpl; [by intros [= ->]|]. intros [= <- _]. discriminate.
  - intros b r _ IH t x y Ht. destruct t as [|c t]; [discriminate|]. rewrite !app_cons. intros [= <- Heq].
    destruct t as [|d t]; [discriminate|]. rewrite app_cons in Heq. injection Heq as <- Heq.
    destruct (IH t x y Ht Heq) as [-> ->]. done.
  - intros a r Hb Hq _ IH t x y Ht. destruct t as [|c t]; rewrite app_cons.
    { change (EmptyString +:+ String quote y)%string with (String quote y). intros [= -> _]. done. }
    rewrite app_cons. intros [= <- Heq]. rewrite clean_other in Ht by done.
    destruct (IH t x y Ht Heq) as [-> ->]. done.
Qed.

Lemma decode_bytes_high l r w : decode_bytes l = (r, w) -> 128 <= r ->
  (r = RuneError /\ w = 1%nat) \/ Forall (fun b => 128 <= b) (take w l).
Proof.
  unfold decode_bytes. intros Hd Hr. destruct l as [|b0 l1]; [injection Hd as <- <-; by right|].
  destruct (b0 <? 128) eqn:E0; [injection Hd as <- <-; bool_to_prop; lia|].
  destruct (in_range 194 b0 244) eqn:E1; simpl in Hd; [|injection Hd as <- <-; by left]. unfold in_range in E1.
  destruct l1 as [|b1 l2]; [injection Hd as <- <-; by left|].
  destruct (accept2 b0 b1) eqn:E2; simpl in Hd; [|injection Hd as <- <-; by left].
  assert (128 <= b1) as H1.
  { unfold accept2, in_range in E2. repeat (case_match; bool_to_prop; try lia). }
  bool_to_prop. destruct (b0 <? 224); [injection Hd as <- <-; right; repeat constructor; lia|].
  destruct l2 as [|b2 l3]; [injection Hd as <- <-; by left|].
  destruct (in_range 128 b2 191) eqn:E3; simpl in Hd; [|injection Hd as <- <-; by left]. unfold in_range in E3.
  destruct (b0 <? 240); [injection Hd as <- <-; right; bool_to_prop; repeat constructor; lia|].
  destruct l3 as [|b3 l4]; [injection Hd as <- <-; by left|].
  destruct (in_range 128 b3 191) eqn:E4; simpl in Hd; [|injection Hd as <- <-; by left]. unfold in_range in E4.
  injection Hd as <- <-; right; bool_to_prop; repeat constructor; lia.
Qed.

Lemma bytes_take n s : bytes (string_take n s) = take n (bytes s).
Proof. revert s. induction n as [|n IH]; intros [|a s]; simpl; [done..|]. by rewrite IH. Qed.

Lemma clean_high s : Forall (fun b => 128 <= b) (bytes s) -> clean s = true.
Proof.
  induction s as [|a s IH]; [done|]. simpl bytes. intros [Ha Hs]%Forall_cons.
  rewrite clean_other; [by apply IH|intros ->; vm_compute in Ha; by apply Ha..].
Qed.

Lemma decode_width_4 s r w : decode_rune s = (r, w) -> (w <= 4)%nat.
Proof. unfold decode_rune, decode_bytes. intros Hd. repeat (case_match; simplify_eq; try lia). Qed.

Lemma string_take_take m n s : (m <= n)%nat -> string_take m (string_take n s) = string_take m s.
Proof. revert n s. induction m as [|m IH]; intros [|n] [|a s] Hle; simpl; try lia; [done..|]. f_equal. apply IH. lia. Qed.

Lemma clean_hex r : r ∈ control_escapes -> clean (escape "u00" +:+ hex_of 2 r) = true.
Proof.
  assert (forallb (fun r => clean (escape "u00" +:+ hex_of 2 r)) control_escapes = true) as Hall by (vm_compute; reflexivity).
  rewrite forallb_forall in Hall. intros Hr. apply Hall. by apply list_elem_of_In.
Qed.

Lemma clean_rune s r w : s <> EmptyString -> decode_rune s = (r, w) -> clean (marshal_rune (string_take w s) r w) = true.
Proof.
  intros Hs Hd. unfold marshal_rune.
  destruct ((r =? RuneError) && bool_decide (w = 1%nat)) eqn:E; [done|].
  repeat (match goal with |- context [if ?b then escape _ else _] => destruct b eqn:? end; [done|]).
  case_guard as Hg.
  { apply clean_hex. destruct (decide (r < 128)) as [Hlt|]; [|bool_to_prop; lia].
    destruct (decode_rune_ascii _ _ _ Hd Hlt) as (a & s' & -> & -> & ->). unfold control_escapes. apply elem_of_app.
    bool_to_prop. assert (0 <= byte_of a) by (unfold byte_of; lia).
    destruct (decide (byte_of a < 32)).
    - left. apply list_elem_of_fmap. exists (Z.to_nat (byte_of a)). split; [lia|]. apply elem_of_seq. lia.
    - right. unfold orb in Hg. repeat case_match; bool_to_prop; try lia; set_solver. }
  repeat (match goal with |- context [if ?b then escape _ else _] => destruct b eqn:? end; [done|]).
  destruct (decide (r < 128)) as [Hlt|Hge].
  - destruct (decode_rune_ascii _ _ _ Hd Hlt) as (a & s' & -> & -> & ->). simpl string_take. rewrite clean_other; [done| |].
    + intros ->. bool_to_prop. done.
    + intros ->. bool_to_prop. done.
  - apply clean_high. pose proof (decode_width_4 _ _ _ Hd). unfold decode_rune in Hd.
    destruct (decode_bytes_high _ _ _ Hd ltac:(lia)) as [[-> ->]|Hall]; [done|].
    rewrite <- (string_take_take w 4 s), bytes_take by lia. exact Hall.
Qed.

Lemma clean_runes fuel s : clean (marshal_runes fuel s) = true.
Proof.
  revert s. induction fuel as [|fuel IH]; intros s; [done|]. destruct s as [|a s]; [done|].
  cbn [marshal_runes]. destruct (decode_rune (String a s)) as [r w] eqn:Hd.
  apply clean_app; [by apply clean_rune|apply IH].
Qed.

Lemma marshal_string_split s t x y :
  (marshal_string s +:+ x = marshal_string t +:+ y)%string -> marshal_string s = marshal_string t /\ x = y.
Proof.
  unfold marshal_string. change quote_mark with (String quote ""). rewrite !string_app_assoc.
  change (String quote "" +:+ ?z)%string with (String quote z). intros [= Heq].
  apply clean_split in Heq as [-> ->]; [done|apply clean_runes..].
Qed.

(** ** Values followed by a delimiter *)
Definition delimiter (a : ascii) : bool := mem_char a ",]}".
Definition ends (s : string) : Prop := exists a r, s = String a r /\ delimiter a = true.
Definition starts (p : ascii -> bool) (s : string) : Prop := exists a r, s = String a r /\ p a = true.

Lemma ends_cons a r : delimiter a = true -> ends (String a r).
Proof. intros Ha. by exists a, r. Qed.
#[export] Hint Resolve ends_cons : eco.

Lemma all_digits_split s : all_chars digit_char s = true -> forall t x y, all_chars digit_char t = true ->
  ends x -> ends y -> (s +:+ x = t +:+ y)%string -> s = t /\ x = y.
Proof.
  assert (forall a, digit_char a = true -> delimiter a = true -> False) as Hno.
  { intros [[] [] [] [] [] [] [] []]; vm_compute; congruence. }
  induction s as [|a s IH]; intros Hs [|b t] x y Ht Hx Hy Heq; rewrite ?app_cons in Heq.
  - done.
  - destruct Hx as (c & r & -> & Hc). injection Heq as -> _. simpl in Ht. bool_to_prop. by destruct (Hno b).
  - destruct Hy as (c & r & -> & Hc). injection Heq as -> _. simpl in Hs. bool_to_prop. by destruct (Hno c).
  - injection Heq as <- Heq. simpl in Hs, Ht. bool_to_prop. destruct (IH ltac:(done) t x y ltac:(done) Hx Hy Heq) as [-> ->]. done.
Qed.

Definition int_start (a : ascii) : bool := bool_decide (a = "-"%char) || digit_char a.
Lemma Itoa_start z : starts int_start (Itoa z).
Proof.
  destruct (Itoa_digits z) as (d & Hne & Hd & _ & ->). destruct d as [|a d]; [done|]. destruct (z <? 0).
  - exists "-"%char, (String a d). done.
  - exists a, d. simpl in Hd. bool_to_prop. unfold int_start. split; [done|]. by rewrite orb_true_iff; right.
Qed.
Lemma Itoa_split z1 z2 x y : ends x -> ends y -> (Itoa z1 +:+ x = Itoa z2 +:+ y)%string -> Itoa z1 = Itoa z2 /\ x = y.
Proof.
  destruct (Itoa_digits z1) as (d1 & Hn1 & H1 & _ & ->). destruct (Itoa_digits z2) as (d2 & Hn2 & H2 & _ & ->).
  intros Hx Hy. assert (forall d, all_chars digit_char d = true -> d <> EmptyString -> exists a r, d = String a r /\ a <> "-"%char) as Hm.
  { intros [|a d] Hd ?; [done|]. exists a, d. split; [done|]. intros ->. discriminate Hd. }
  destruct (z1 <? 0), (z2 <? 0); rewrite ?app_cons; intros Heq.
  - injection Heq as Heq. destruct (all_digits_split _ H1 _ _ _ H2 Hx Hy Heq) as [-> ->]. done.
  - destruct (Hm d2 H2 Hn2) as (a & r & -> & Ha). rewrite app_cons in Heq. injection Heq as <- _. done.
  - destruct (Hm d1 H1 Hn1) as (a & r & -> & Ha). rewrite app_cons in Heq. injection Heq as -> _. done.
  - exact (all_digits_split _ H1 _ _ _ H2 Hx Hy Heq).
Qed.

(** The texts of values: what [json.Marshal] writes for a field. *)
Inductive value_text : string -> Prop :=
  | text_string s : value_text (marshal_string s)
  | text_int z : value_text (Itoa z)
  | text_bool (b : bool) : value_text (if b then "true" else "false")
  | text_array l : Forall value_text l -> value_text (marshal_array l)
  | text_struct l : Forall (fun m => value_text m.2) l -> value_text (marshal_struct l).

Definition splits (a : string) : Prop := forall b x y, value_text b -> ends x -> ends y ->
  (a +:+ x = b +:+ y)%string -> a = b /\ x = y.

Lemma value_text_ind_nested (P : string -> Prop) :
  (forall s, P (marshal_string s)) -> (forall z, P (Itoa z)) -> (forall b : bool, P (if b then "true" else "false"))%string ->
  (forall l, Forall value_text l -> Forall P l -> P (marshal_array l)) ->
  (forall l, Forall (fun m => value_text m.2) l -> Forall (fun m => P m.2) l -> P (marshal_struct l)) ->
  forall t, value_text t -> P t.
Proof.
  intros H1 H2 H3 H4 H5. fix go 2. intros t [s|z|b|l Hl|l Hl]; [apply H1|apply H2|apply H3|apply H4; [exact Hl|]|apply H5; [exact Hl|]].
  - induction Hl as [|a l Ha Hl IH]; constructor; [apply go; exact Ha|exact IH].
  - induction Hl as [|a l Ha Hl IH]; constructor; [apply go; exact Ha|exact IH].
Qed.

Definition value_start (a : ascii) : bool := int_start a || mem_char a (String quote "tf[{").
Lemma value_text_start t : value_text t -> starts value_start t.
Proof.
  intros [s|z|[]|l Hl|l Hl]; try by eexists _, _.
  destruct (Itoa_start z) as (a & r & -> & Ha). exists a, r. unfold value_start. by rewrite Ha.
Qed.
Lemma start_not_end a : value_start a = true -> delimiter a = true -> False.
Proof.
  destruct a as [[] [] [] [] [] [] [] []]; vm_compute; congruence.
Qed.

Lemma Join_cons2 a b l sep : Join (a :: b :: l) sep = (a +:+ sep +:+ Join (b :: l) sep)%string.
Proof. reflexivity. Qed.

(** Joined elements and a closing bracket. *)
Lemma Join_split (P : string -> Prop) close l : delimiter close = true -> close <> ","%char ->
  (forall b, P b -> starts value_start b) ->
  Forall (fun a => P a /\ forall b x y, P b -> ends x -> ends y -> (a +:+ x = b +:+ y)%string -> a = b /\ x = y) l ->
  forall k x y, Forall P k -> (Join l "," +:+ String close x = Join k "," +:+ String close y)%string -> l = k /\ x = y.
Proof.
  intros Hc Hne Hstart. assert (forall a, P a -> forall r s, (String close r = a +:+ s)%string -> False) as Hno.
  { intros a Ha r s Heq. destruct (Hstart a Ha) as (c & t & -> & Ht). rewrite app_cons in Heq. injection Heq as <- _.
    by eapply start_not_end. }
  induction l as [|a l IH]; intros Hl k x y Hk Heq.
  - destruct k as [|b k]; [by injection Heq as ->|]. exfalso. apply Forall_cons in Hk as [Hb _].
    destruct k as [|c k]; [|rewrite Join_cons2, string_app_assoc in Heq]; exact (Hno b Hb _ _ Heq).
  - apply Forall_cons in Hl as [[Ha Hs] Hl]. destruct k as [|b k].
    { exfalso. destruct l as [|c l]; [|rewrite Join_cons2, string_app_assoc in Heq]; symmetry in Heq; exact (Hno a Ha _ _ Heq). }
    apply Forall_cons in Hk as [Hb Hk]. destruct l as [|c l], k as [|d k]; rewrite ?Join_cons2, ?string_app_assoc in Heq.
    + destruct (Hs b _ _ Hb (ends_cons _ _ Hc) (ends_cons _ _ Hc) Heq) as [-> [= ->]]. done.
    + destruct (Hs b _ _ Hb (ends_cons _ _ Hc) (ends_cons ","%char _ eq_refl) Heq) as [_ Heq']. simpl in Heq'. by injection Heq'.
    + destruct (Hs b _ _ Hb (ends_cons ","%char _ eq_refl) (ends_cons _ _ Hc) Heq) as [_ Heq']. simpl in Heq'. by injection Heq'.
    + destruct (Hs b _ _ Hb (ends_cons ","%char _ eq_refl) (ends_cons ","%char _ eq_refl) Heq) as [-> Heq']. injection Heq' as Heq'. destruct (IH Hl (d :: k) x y Hk Heq') as [-> ->]. done.
Qed.

Definition member_text (t : string) : Prop := exists k v, t = marshal_member (k, v) /\ value_text v.
Lemma member_start t : member_text t -> starts value_start t.
Proof. intros (k & v & -> & _). by eexists _, _. Qed.
Lemma member_split k v b x y : splits v -> member_text b -> ends x -> ends y ->
  (marshal_member (k, v) +:+ x = b +:+ y)%string -> marshal_member (k, v) = b /\ x = y.
Proof.
  intros Hv (j & w & -> & Hw) Hx Hy. unfold marshal_member. simpl. rewrite !string_app_assoc.
  intros [-> Heq]%marshal_string_split. rewrite !app_cons in Heq. injection Heq as Heq.
  destruct (Hv w x y Hw Hx Hy Heq) as [-> ->]. done.
Qed.

Lemma first_char a x b y c r d t : a = String c r -> b = String d t -> (a +:+ x = b +:+ y)%string -> c = d.
Proof. intros -> ->. simpl. by intros [= ->]. Qed.
(** An int against a text that starts otherwise. *)
Lemma int_clash z a x y c r : a = String c r -> int_start c = false -> (Itoa z +:+ x = a +:+ y)%string -> False.
Proof.
  intros Ha Hc Heq. destruct (Itoa_start z) as (i & t & Hi & Hs). pose proof (first_char _ _ _ _ _ _ _ _ Hi Ha Heq) as ->. congruence.
Qed.

Lemma value_text_splits a : value_text a -> splits a.
Proof.
  revert a. apply value_text_ind_nested; unfold splits.
  - intros s b x y [t|z|[]|l Hl|l Hl] Hx Hy Heq; try discriminate Heq; [by apply marshal_string_split|].
    symmetry in Heq. by eapply int_clash in Heq.
  - intros z b x y Hb Hx Hy Heq. destruct Hb as [t|z'|[]|l Hl|l Hl]; [|by apply Itoa_split|..]; by eapply int_clash in Heq.
  - intros c b x y [t|z|c'|l Hl|l Hl] Hx Hy Heq; try (destruct c; discriminate Heq).
    + symmetry in Heq. destruct c; by eapply int_clash in Heq.
    + destruct c, c'; simpl in Heq; by simplify_eq.
  - intros l Hl IH b x y [t|z|[]|k Hk|k Hk] Hx Hy Heq; try discriminate Heq.
    + symmetry in Heq. by eapply int_clash in Heq.
    + unfold marshal_array in *. rewrite !string_app_assoc in Heq. injection Heq as Heq. rewrite !app_cons in Heq.
      destruct (Join_split value_text "]"%char l eq_refl ltac:(done) value_text_start) with (3 := Heq) as [-> Hxy]; [|done|by split].
      apply Forall_forall. intros a Ha. rewrite !Forall_forall in *. split; [by apply Hl|]. intros b'. by apply IH.
  - intros l Hl IH b x y [t|z|[]|k Hk|k Hk] Hx Hy Heq; try discriminate Heq.
    + symmetry in Heq. by eapply int_clash in Heq.
    + unfold marshal_struct in *. rewrite !string_app_assoc in Heq. injection Heq as Heq. rewrite !app_cons in Heq.
      destruct (Join_split member_text "}"%char (marshal_member <$> l) eq_refl ltac:(done) member_start) with (3 := Heq) as [Hlk Hxy].
      * apply Forall_fmap, Forall_forall. intros [j v] Ha. rewrite !Forall_forall in *. simpl.
        split; [by exists j, v; split; [|apply (Hl _ Ha)]|]. intros b' x' y' Hb'. apply member_split; [|done]. exact (IH _ Ha).
      * apply Forall_fmap, Forall_forall. intros [j v] Ha. rewrite !Forall_forall in *. exists j, v. split; [done|]. exact (Hk _ Ha).
      * rewrite Hlk. by split.
Qed.

(** Equal texts of two structs with the same keys: equal field texts. *)
Lemma struct_members l k : Forall (fun m => value_text m.2) l -> Forall (fun m => value_text m.2) k ->
  marshal_struct l = marshal_struct k -> marshal_member <$> l = marshal_member <$> k.
Proof.
  intros Hl Hk Heq. assert (forall m, Forall (fun m => value_text m.2) m -> Forall member_text (marshal_member <$> m)) as Hm.
  { intros m Hm. apply Forall_fmap, Forall_forall. intros [j v] Ha. rewrite Forall_forall in Hm. exists j, v. split; [done|].
    exact (Hm _ Ha). }
  unfold marshal_struct in Heq. injection Heq as Heq.
  apply (Join_split member_text "}"%char _ eq_refl) with (x := EmptyString) (y := EmptyString) in Heq as [-> _]; try done.
  - apply member_start.
  - apply Forall_fmap, Forall_forall. intros [j v] Ha. rewrite Forall_forall in Hl. simpl.
    split; [exists j, v; split; [done|exact (Hl _ Ha)]|].
    intros b x y. apply member_split, value_text_splits. exact (Hl _ Ha).
  - by apply Hm.
Qed.
Lemma member_value k v w : marshal_member (k, v) = marshal_member (k, w) -> v = w.
Proof.
  unfold marshal_member. simpl. intros Heq. apply marshal_string_split in Heq as [_ Heq]. by injection Heq.
Qed.

Lemma property_text p : value_text (marshal_property p).
Proof.
  destruct p as [s|b|z|l]; simpl; try constructor. apply Forall_fmap, Forall_forall. intros s _. constructor.
Qed.
Lemma map_text m : value_text (marshal_map m).
Proof. constructor. apply Forall_fmap, Forall_forall. intros [k v] _. apply property_text. Qed.
#[export] Hint Resolve property_text map_text text_string text_int text_bool : eco.

(** ** Sorting commutes with maps that keep the order *)
Lemma fmap_sort_by {A B : Type} (f : A -> B) (less : A -> A -> bool) (less' : B -> B -> bool) l :
  (forall x y, less x y = less' (f x) (f y)) -> f <$> sort_by less l = sort_by less' (f <$> l).
Proof.
  intros Hf. induction l as [|a l IH]; [done|]. rewrite fmap_cons.
  change (f <$> insert_by less a (sort_by less l) = insert_by less' (f a) (sort_by less' (f <$> l))).
  rewrite <- IH. generalize (sort_by less l). clear l IH. intros l.
  induction l as [|b l IH]; [done|]. simpl. rewrite <- Hf. destruct (less b a); [|done]. by rewrite fmap_cons, IH.
Qed.
Lemma fmap_sort_on {A : Type} (key : A -> string) l : key <$> sort_by (less_on key String.ltb) l = sort_strings (key <$> l).
Proof. by apply fmap_sort_by. Qed.
Definition property_member (m : string * property) : string * string := (m.1, marshal_property m.2).
Lemma marshal_map_members m : marshal_map m = marshal_struct (sort_fields (property_member <$> m)).
Proof.
  unfold marshal_map. f_equal. etrans; [|by apply (fmap_sort_by property_member)].
  apply list_fmap_ext. by intros _ [k v] _.
Qed.
