(* ===== verification/GraphPlan.v ===== *)
(** * internal/graph/projector/plan.go: full and delta plans of a snapshot

    A Go map of nodes or edges is a [gmap]; iterating over it visits its entries
    in some order, here the order of [map_to_list].  Every list built that way is
    sorted before it is used, except the result of [ApplyDelta], whose order is
    left open. *)
From S2P Require Import Prelude GoSort GoStrings GoCrypto GoJson JsonRoundTrip Domain DomainEntity GraphProjector GraphText.
Open Scope Z_scope.

Record FullPlan := mkFullPlan {
  Full_Namespace : string; Full_Version : string; Full_ContentHash : string; Full_Nodes : list Node; Full_Edges : list Edge
}.
Record DeltaPlan := mkDeltaPlan {
  Delta_Namespace : string; Delta_Version : string; BaseVersion : string; Delta_ContentHash : string;
  NodeUpserts : list Node; NodeDeletes : list string; EdgeUpserts : list Edge; EdgeDeletes : list string
}.
Record Limits := mkLimits { MaxPayloadBytes : Z; MaxNodes : Z; MaxEdges : Z }.

(** ** validateResult *)
Definition validate_node (seen : gset string) (n : Node) : result (gset string) string :=
  if bool_decide (Node_ID n = EmptyString) then Err "node id is required"%string
  else if bool_decide (Node_ID n ∈ seen) then Err ("duplicate node " +:+ Node_ID n)%string
  else Ok ({[Node_ID n]} ∪ seen).
Definition validate_edge (nodes : gset string) (seen : gset string) (e : Edge) : result (gset string) string :=
  if bool_decide (Edge_ID e = EmptyString) || bool_decide (Edge_From e = EmptyString) || bool_decide (Edge_To e = EmptyString)
  then Err "edge identity is required"%string
  else if bool_decide (Edge_ID e ∈ seen) then Err ("duplicate edge " +:+ Edge_ID e)%string
  else if negb (bool_decide (Edge_From e ∈ nodes)) || negb (bool_decide (Edge_To e ∈ nodes)) then Err ("dangling edge " +:+ Edge_ID e)%string
  else Ok ({[Edge_ID e]} ∪ seen).
Definition validateResult (r : Result) : result unit string :=
  let? nodes := foldr_result validate_node ∅ (Nodes r) in
  let? _ := foldr_result (validate_edge nodes) ∅ (Edges r) in
  Ok tt.

(** ** validatePlan *)
Definition validate_upsert (what : string) (seen : gset string) (id : string) : result (gset string) string :=
  if bool_decide (id = EmptyString) then Err (what +:+ " upsert id is required")%string
  else if bool_decide (id ∈ seen) then Err ("duplicate " +:+ what +:+ " upsert " +:+ id)%string
  else Ok ({[id]} ∪ seen).
Definition validate_delete (what : string) (upserts seen : gset string) (id : string) : result (gset string) string :=
  if bool_decide (id = EmptyString) then Err (what +:+ " delete id is required")%string
  else if bool_decide (id ∈ seen) then Err ("duplicate " +:+ what +:+ " delete " +:+ id)%string
  else if bool_decide (id ∈ upserts) then Err ("conflicting " +:+ what +:+ " operations for " +:+ id)%string
  else Ok ({[id]} ∪ seen).
Definition validatePlan (p : DeltaPlan) : result unit string :=
  let? nodes := foldr_result (validate_upsert "node") ∅ (Node_ID <$> NodeUpserts p) in
  let? _ := foldr_result (validate_delete "node" nodes) ∅ (NodeDeletes p) in
  let? edges := foldr_result (validate_upsert "edge") ∅ (Edge_ID <$> EdgeUpserts p) in
  let? _ := foldr_result (validate_delete "edge" edges) ∅ (EdgeDeletes p) in
  Ok tt.

(** ** ApplyDelta *)
Definition index {A : Type} (key : A -> string) (m : gmap string A) (l : list A) : gmap string A := foldl (fun m a => <[key a := a]> m) m l.
Definition delete_all {A : Type} (m : gmap string A) (ids : list string) : gmap string A := foldl (fun m id => delete id m) m ids.
Definition dangling (nodes : gmap string Node) (e : Edge) : bool :=
  bool_decide (nodes !! Edge_From e = None) || bool_decide (nodes !! Edge_To e = None).
Definition ApplyDelta (base : Result) (p : DeltaPlan) : result Result string :=
  match validateResult base with
  | Err e => Err ("invalid base manifest: " +:+ e)%string
  | Ok _ =>
      let? _ := validatePlan p in
      let nodes := index Node_ID (delete_all (index Node_ID ∅ (Nodes base)) (NodeDeletes p)) (NodeUpserts p) in
      let edges := index Edge_ID (delete_all (index Edge_ID ∅ (Edges base)) (EdgeDeletes p)) (EdgeUpserts p) in
      match List.find (dangling nodes) (map_to_list edges).*2 with
      | Some e => Err ("dangling edge " +:+ Edge_ID e)%string
      | None => Ok (mkResult (map_to_list nodes).*2 (map_to_list edges).*2)
      end
  end.

(** ** PlanFull *)
Definition upsert_only (r : Result) : DeltaPlan := mkDeltaPlan "" "" "" "" (Nodes r) [] (Edges r) [].
Definition over (limit size : Z) : bool := (0 <? limit) && (limit <? size).
Section plans.
Context `{JcsLib}.

Definition PlanFullWithLimits (namespace version : string) (target : Result) (limits : Limits) : result FullPlan string :=
  let? _ := validateResult target in
  let? (bytes, hash) := ManifestBytes target in
  if bool_decide (namespace = EmptyString) || bool_decide (version = EmptyString) then Err "snapshot identity is required"%string
  else if over (MaxPayloadBytes limits) (string_len bytes) then Err "manifest payload limit exceeded"%string
  else if over (MaxNodes limits) (Z.of_nat (length (Nodes target))) then Err "node limit exceeded"%string
  else if over (MaxEdges limits) (Z.of_nat (length (Edges target))) then Err "edge limit exceeded"%string
  else
    let? _ := ApplyDelta (mkResult [] []) (upsert_only target) in
    Ok (mkFullPlan namespace version hash (Nodes target) (Edges target)).
Definition PlanFull (namespace version : string) (target : Result) : result FullPlan string :=
  PlanFullWithLimits namespace version target (mkLimits 0 0 0).

(** ** PlanDelta *)
(** [same] compares the JSON of the structs, under Go's field names. *)
Definition node_text (n : Node) : string :=
  let p := Node_Provenance n in
  marshal_struct [
    ("ID", marshal_string (Node_ID n)); ("Type", marshal_string (Node_Type n)); ("Label", marshal_string (Node_Label n));
    ("Text", marshal_string (Node_Text n)); ("Properties", marshal_map (Node_Properties n));
    ("Provenance", marshal_struct [
       ("ProjectID", marshal_string (NodeP_ProjectID p)); ("RevisionID", marshal_string (NodeP_RevisionID p));
       ("ConfigHash", marshal_string (NodeP_ConfigHash p)); ("EntityID", marshal_string (NodeP_EntityID p));
       ("EntityKind", marshal_string (NodeP_EntityKind p)); ("ProjectionSchema", marshal_string (NodeP_ProjectionSchema p));
       ("Projector", marshal_string (NodeP_Projector p)); ("EntitySchemaVersion", Itoa (NodeP_EntitySchemaVersion p))])]%string.
Definition edge_text (e : Edge) : string :=
  let p := Edge_Provenance e in
  marshal_struct [
    ("ID", marshal_string (Edge_ID e)); ("From", marshal_string (Edge_From e)); ("To", marshal_string (Edge_To e));
    ("Type", marshal_string (Edge_Type e)); ("RelationKind", marshal_string (Edge_RelationKind e)); ("Confidence", Itoa (Edge_Confidence e));
    ("Properties", marshal_map (Edge_Properties e));
    ("Provenance", marshal_struct [
       ("ProjectID", marshal_string (EdgeP_ProjectID p)); ("RevisionID", marshal_string (EdgeP_RevisionID p));
       ("ConfigHash", marshal_string (EdgeP_ConfigHash p)); ("SourceEntityID", marshal_string (EdgeP_SourceEntityID p));
       ("FieldPath", marshal_string (EdgeP_FieldPath p)); ("ProjectionSchema", marshal_string (EdgeP_ProjectionSchema p));
       ("Projector", marshal_string (EdgeP_Projector p)); ("Ordinal", Itoa (EdgeP_Ordinal p))])]%string.

(** New or changed values, and the identities that are gone. *)
Definition changed {A : Type} (text : A -> string) (old target : gmap string A) : list A :=
  omap (fun '(id, v) => match old !! id with
                        | Some o => if bool_decide (text o = text v) then None else Some v
                        | None => Some v
                        end) (map_to_list target).
Definition removed {A : Type} (old target : gmap string A) : list string :=
  List.filter (fun id => bool_decide (target !! id = None)) (map_to_list old).*1.
Definition delta (namespace version baseVersion hash : string) (base target : Result) : DeltaPlan :=
  let bn := index Node_ID ∅ (Nodes base) in let tn := index Node_ID ∅ (Nodes target) in
  let be := index Edge_ID ∅ (Edges base) in let te := index Edge_ID ∅ (Edges target) in
  mkDeltaPlan namespace version baseVersion hash
    (sort_by (less_on Node_ID String.ltb) (changed node_text bn tn)) (sort_strings (removed bn tn))
    (sort_by (less_on Edge_ID String.ltb) (changed edge_text be te)) (sort_strings (removed be te)).
Definition prefixed {A : Type} (prefix : string) (r : result A string) : result A string :=
  match r with Ok a => Ok a | Err e => Err (prefix +:+ e)%string end.
Definition PlanDelta (namespace version baseVersion : string) (base target : Result) : result DeltaPlan string :=
  if bool_decide (namespace = EmptyString) || bool_decide (version = EmptyString) || bool_decide (baseVersion = EmptyString)
  then Err "snapshot identity is required"%string
  else
    let? _ := prefixed "invalid base manifest: " (validateResult base) in
    let? _ := prefixed "invalid target manifest: " (validateResult target) in
    let? (_, hash) := ManifestBytes target in
    let plan := delta namespace version baseVersion hash base target in
    let? rebuilt := ApplyDelta base plan in
    match ManifestBytes rebuilt with
    | Ok (_, rebuiltHash) => if bool_decide (rebuiltHash = hash) then Ok plan else Err "delta rematerialization mismatch"%string
    | Err _ => Err "delta rematerialization mismatch"%string
    end.
End plans.

(** ** Facts: what the loops check *)
Lemma seen_loop {A : Type} (f : gset string -> A -> result (gset string) string) (key : A -> string) (good : A -> Prop) :
  (forall s a s', f s a = Ok s' <-> good a /\ key a ∉ s /\ s' = {[key a]} ∪ s) ->
  forall l s s', foldr_result f s l = Ok s' <->
    Forall good l /\ NoDup (key <$> l) /\ (forall id, id ∈ key <$> l -> id ∉ s) /\ s' = list_to_set (key <$> l) ∪ s.
Proof.
  intros Hf. induction l as [|a l IH]; intros s s'; simpl.
  - split; [intros [= <-]; repeat split; [constructor|constructor|set_solver|set_solver]|]. intros (_ & _ & _ & ->). f_equal. set_solver.
  - rewrite result_bind_Ok, Forall_cons, NoDup_cons. setoid_rewrite Hf. setoid_rewrite IH. split.
    + intros (s1 & (Hg & Hn & ->) & Hgs & Hnd & Hfresh & ->). repeat split; try done; [set_solver..].
    + intros ((Hg & Hgs) & (Hn & Hnd) & Hfresh & ->). eexists. repeat split; try done; [set_solver..].
Qed.

(** What [validateResult] accepts. *)
Record wellformed_result (r : Result) : Prop := {
  node_ids : NoDup (Node_ID <$> Nodes r);
  node_named : Forall (fun n => Node_ID n <> EmptyString) (Nodes r);
  edge_ids : NoDup (Edge_ID <$> Edges r);
  edge_named : Forall (fun e => Edge_ID e <> EmptyString) (Edges r);
  edge_ends : forall e, e ∈ Edges r -> Edge_From e ∈ Node_ID <$> Nodes r /\ Edge_To e ∈ Node_ID <$> Nodes r
}.

Lemma validate_node_iff s n s' : validate_node s n = Ok s' <-> Node_ID n <> EmptyString /\ Node_ID n ∉ s /\ s' = {[Node_ID n]} ∪ s.
Proof. unfold validate_node. repeat case_bool_decide; naive_solver. Qed.
Lemma validate_edge_iff nodes s e s' : validate_edge nodes s e = Ok s' <->
  (Edge_ID e <> EmptyString /\ Edge_From e <> EmptyString /\ Edge_To e <> EmptyString /\ Edge_From e ∈ nodes /\ Edge_To e ∈ nodes) /\
  Edge_ID e ∉ s /\ s' = {[Edge_ID e]} ∪ s.
Proof. unfold validate_edge. repeat case_bool_decide; simpl; naive_solver. Qed.

Lemma validateResult_iff r : validateResult r = Ok tt <-> wellformed_result r.
Proof.
  unfold validateResult. rewrite result_bind_Ok. setoid_rewrite result_bind_Ok.
  setoid_rewrite (seen_loop _ _ _ validate_node_iff). setoid_rewrite (seen_loop _ _ _ (validate_edge_iff _)). split.
  - intros (v & (Hn & Hnd & _ & ->) & w & (He & Hed & _ & _) & _). rewrite Forall_forall in He. split; try done.
    + apply Forall_forall. intros e Hin. apply He, Hin.
    + intros e Hin. specialize (He e Hin). set_solver.
  - intros [Hnd Hn Hed He Hends]. eexists. split; [split_and!; [done|done|set_solver|reflexivity]|].
    eexists. split; [split_and!; [|done|set_solver|reflexivity]|done].
    rewrite Forall_forall in Hn. rewrite Forall_forall in He. apply Forall_forall.
    intros e Hin. destruct (Hends e Hin) as [Hf Ht]. split_and!; [by apply He|..|set_solver|set_solver].
    + intros Heq. apply list_elem_of_fmap in Hf as (n & Hn' & Hf). apply (Hn n Hf). congruence.
    + intros Heq. apply list_elem_of_fmap in Ht as (n & Hn' & Ht). apply (Hn n Ht). congruence.
Qed.

Lemma index_lookup {A : Type} (key : A -> string) l m id a : NoDup (key <$> l) ->
  index key m l !! id = Some a <-> (a ∈ l /\ key a = id) \/ (id ∉ key <$> l /\ m !! id = Some a).
Proof.
  revert m. induction l as [|b l IH]; intros m; simpl; [set_solver|]. intros [Hb Hl]%NoDup_cons.
  change (index key m (b :: l)) with (index key (<[key b := b]> m) l). rewrite IH by done.
  rewrite lookup_insert_Some, elem_of_cons, not_elem_of_cons. split.
  - intros [[Ha <-]|[Hn [[<- <-]|[Hne Hm]]]]; [by left; auto|by left; auto|right; naive_solver].
  - intros [[[->|Ha] <-]|[[Hne Hn] Hm]]; [right; naive_solver|by left|right; naive_solver].
Qed.
Lemma index_empty {A : Type} (key : A -> string) l id a : NoDup (key <$> l) -> index key ∅ l !! id = Some a <-> a ∈ l /\ key a = id.
Proof. intros Hl. rewrite index_lookup by done. rewrite lookup_empty. naive_solver. Qed.
Lemma delete_all_lookup {A : Type} (m : gmap string A) ids id a : delete_all m ids !! id = Some a <-> id ∉ ids /\ m !! id = Some a.
Proof.
  revert m. induction ids as [|i ids IH]; intros m; simpl; [set_solver|].
  change (delete_all m (i :: ids)) with (delete_all (delete i m) ids). rewrite IH, lookup_delete_Some. set_solver.
Qed.

(** ** Equal texts: equal records in the manifest *)
Lemma cons_parts {A : Type} (a b : A) l k : a :: l = b :: k -> a = b /\ l = k.
Proof. by intros [= -> ->]. Qed.
(** The field texts of two structs with the same keys. *)
Ltac value_texts := repeat (apply Forall_cons_2; [cbn [snd]; eauto with eco|]); try apply Forall_nil_2.
Ltac struct_fields H :=
  rewrite ?fmap_cons, ?fmap_nil in H;
  repeat (apply cons_parts in H as [?Hm H]);
  repeat match goal with Hm : marshal_member (?k, _) = marshal_member (?k, _) |- _ => apply member_value in Hm end.

Ltac provenance_texts := rewrite !marshal_map_members; rewrite ?fmap_cons, ?fmap_nil; unfold property_member; cbn [fst snd marshal_property].

Lemma node_text_manifest n m : node_text n = node_text m -> manifest_node n = manifest_node m.
Proof.
  intros H. unfold node_text in H. apply struct_members in H; [|value_texts; apply text_struct; value_texts..].
  struct_fields H.
  match goal with Hp : marshal_struct _ = marshal_struct _ |- _ => apply struct_members in Hp as P; [|value_texts..]; clear Hp end.
  struct_fields P. unfold manifest_node. rewrite Hm3. provenance_texts. congruence.
Qed.
Lemma edge_text_manifest e f : edge_text e = edge_text f ->
  manifest_edge e = manifest_edge f /\ marshal_string (Edge_From e) = marshal_string (Edge_From f) /\
  marshal_string (Edge_To e) = marshal_string (Edge_To f).
Proof.
  intros H. unfold edge_text in H. apply struct_members in H; [|value_texts; apply text_struct; value_texts..].
  struct_fields H.
  match goal with Hp : marshal_struct _ = marshal_struct _ |- _ => apply struct_members in Hp as P; [|value_texts..]; clear Hp end.
  struct_fields P. split; [|done]. unfold manifest_edge. rewrite Hm5. provenance_texts. congruence.
Qed.

(** ** Applying a delta *)
Lemma changed_iff {A : Type} (text : A -> string) old target v :
  v ∈ changed text old target <-> exists id, target !! id = Some v /\ (forall o, old !! id = Some o -> text o <> text v).
Proof.
  unfold changed. rewrite list_elem_of_omap. split.
  - intros ([id w] & Hin & Heq). apply elem_of_map_to_list in Hin. exists id.
    destruct (old !! id) as [o|]; [case_bool_decide|]; simplify_eq; split; naive_solver.
  - intros (id & Hv & Ho). exists (id, v). split; [by apply elem_of_map_to_list|].
    destruct (old !! id) as [o|]; [|done]. rewrite bool_decide_false; [done|]. by apply Ho.
Qed.
Definition keyed {A : Type} (key : A -> string) (m : gmap string A) : Prop := forall id v, m !! id = Some v -> key v = id.
Lemma index_keyed {A : Type} (key : A -> string) l : NoDup (key <$> l) -> keyed key (index key ∅ l).
Proof. intros Hl id v Hv. by apply index_empty in Hv as [_ ?]. Qed.
Lemma keyed_list {A : Type} (key : A -> string) m : keyed key m -> key <$> (map_to_list m).*2 = (map_to_list m).*1.
Proof.
  intros Hm. rewrite <- list_fmap_compose. apply list_fmap_ext. intros i [id v] Hi.
  apply list_elem_of_lookup_2, elem_of_map_to_list in Hi. simpl. by apply Hm.
Qed.
Lemma changed_NoDup {A : Type} (key : A -> string) text old target : keyed key target -> NoDup (key <$> changed text old target).
Proof.
  intros Ht. unfold changed. pose proof (NoDup_fst_map_to_list target) as Hnd.
  assert (forall id v, (id, v) ∈ map_to_list target -> key v = id) as Hk by (intros id v Hin; apply Ht; by apply elem_of_map_to_list).
  revert Hnd Hk. generalize (map_to_list target). intros l. induction l as [|[id v] l IH]; [constructor|].
  rewrite fmap_cons, NoDup_cons. intros [Hid Hnd] Hk. simpl.
  assert (NoDup (key <$> omap (fun '(id, v) => match old !! id with
            Some o => if bool_decide (text o = text v) then None else Some v | None => Some v end) l)) as HIH.
  { apply IH; [done|]. intros i w Hin. apply Hk. by right. }
  assert (key v ∉ key <$> omap (fun '(id, v) => match old !! id with
            Some o => if bool_decide (text o = text v) then None else Some v | None => Some v end) l) as Hfresh.
  { rewrite (Hk id v) by left. intros (w & Heq & Hw)%list_elem_of_fmap. apply list_elem_of_omap in Hw as ([j u] & Hin & Hu).
    apply Hid. apply list_elem_of_fmap. exists (j, u). split; [|done]. simpl.
    assert (u = w) as -> by (destruct (old !! j); [case_bool_decide|]; by simplify_eq). rewrite Heq. apply Hk. by right. }
  destruct (old !! id); [case_bool_decide; [done|]|]; rewrite fmap_cons; by apply NoDup_cons.
Qed.
Lemma removed_iff {A : Type} (old target : gmap string A) id :
  id ∈ removed old target <-> is_Some (old !! id) /\ target !! id = None.
Proof.
  unfold removed. rewrite list_elem_of_In, filter_In, <- list_elem_of_In, bool_decide_eq_true, list_elem_of_fmap. split.
  - intros [([j v] & -> & Hin) Hn]. apply elem_of_map_to_list in Hin. eauto.
  - intros [[v Hv] Hn]. split; [|done]. exists (id, v). split; [done|]. by apply elem_of_map_to_list.
Qed.
Lemma removed_NoDup {A : Type} (old target : gmap string A) : NoDup (removed old target).
Proof. unfold removed. apply NoDup_ListNoDup, List.NoDup_filter, NoDup_ListNoDup, NoDup_fst_map_to_list. Qed.

(** The map a delta leaves agrees with the target, value by value. *)
Definition agrees {A : Type} (key text : A -> string) (m target : gmap string A) : Prop :=
  forall id, match target !! id with
             | Some v => exists w, m !! id = Some w /\ key w = id /\ text w = text v
             | None => m !! id = None
             end.
Lemma delta_agrees {A : Type} (key text : A -> string) (old target : gmap string A) : keyed key old -> keyed key target ->
  agrees key text
    (index key (delete_all old (sort_strings (removed old target))) (sort_by (less_on key String.ltb) (changed text old target))) target.
Proof.
  intros Ho Ht id. assert (NoDup (key <$> sort_by (less_on key String.ltb) (changed text old target))) as Hnd.
  { rewrite fmap_sort_on. apply NoDup_sort_by, changed_NoDup, Ht. }
  assert (forall v, (index key (delete_all old (sort_strings (removed old target))) (sort_by (less_on key String.ltb) (changed text old target))) !! id = Some v <->
    (v ∈ changed text old target /\ key v = id) \/
    ((forall u, u ∈ changed text old target -> key u <> id) /\ ~ (is_Some (old !! id) /\ target !! id = None) /\ old !! id = Some v)) as Hm.
  { intros v. rewrite index_lookup, delete_all_lookup by done. unfold sort_strings. rewrite !elem_of_sort_by, removed_iff, list_elem_of_fmap.
    setoid_rewrite elem_of_sort_by. naive_solver. }
  destruct (target !! id) as [v|] eqn:Hv.
  - assert ((exists o, old !! id = Some o /\ text o = text v) \/ (forall o, old !! id = Some o -> text o <> text v)) as [(o & Hold & Heq)|Hno].
    { destruct (old !! id) as [o|]; [|by right]. destruct (decide (text o = text v)); naive_solver. }
    + exists o. split_and!; [|by apply Ho|done]. apply Hm. right. split_and!; [|naive_solver|done].
      intros u (i & Hu & Hd)%changed_iff Hk. assert (i = id) as -> by (rewrite <- Hk; symmetry; by apply Ht). naive_solver.
    + exists v. split_and!; [|by apply Ht|done]. apply Hm. left. split; [|by apply Ht].
      apply changed_iff. exists id. naive_solver.
  - destruct (index _ _ _ !! id) as [w|] eqn:Hw; [|done]. exfalso.
    destruct (proj1 (Hm w) eq_refl) as [[Hc Hk]|(_ & Hn & Hold)].
    + apply changed_iff in Hc as (i & Hi & _). assert (i = id) as -> by (rewrite <- Hk; symmetry; by apply Ht). congruence.
    + apply Hn. split; [eauto|done].
Qed.

Lemma upserts_exact {A : Type} (key text : A -> string) b t v : NoDup (key <$> b) -> NoDup (key <$> t) ->
  v ∈ changed text (index key ∅ b) (index key ∅ t) <-> v ∈ t /\ forall o, o ∈ b -> key o = key v -> text o <> text v.
Proof.
  intros Hb Ht. rewrite changed_iff. setoid_rewrite index_empty; [|done..]. split.
  - intros (id & [Hv <-] & Ho). naive_solver.
  - intros [Hv Ho]. exists (key v). naive_solver.
Qed.
Lemma deletes_exact {A : Type} (key : A -> string) b t id : NoDup (key <$> b) -> NoDup (key <$> t) ->
  id ∈ removed (index key ∅ b) (index key ∅ t) <-> id ∈ key <$> b /\ id ∉ key <$> t.
Proof.
  intros Hb Ht. rewrite removed_iff, !list_elem_of_fmap. split.
  - intros [[a Ha] Hn]. apply index_empty in Ha as [Hin <-]; [|done]. split; [eauto|]. intros (w & Hk & Hw).
    assert (index key ∅ t !! key a = Some w) by (by apply index_empty). congruence.
  - intros [(a & -> & Ha) Hn]. split; [exists a; by apply index_empty|].
    destruct (index key ∅ t !! key a) as [w|] eqn:Hw; [|done]. apply index_empty in Hw as [Hw Hk]; [|done]. naive_solver.
Qed.

Lemma agrees_keyed {A : Type} (key text : A -> string) m target : agrees key text m target -> keyed key m.
Proof.
  intros Ha id w Hw. specialize (Ha id). destruct (target !! id); [|congruence].
  destruct Ha as (w' & Hw' & Hk & _). congruence.
Qed.

(** The values of such a map, sorted, have the manifest texts of the target. *)
Lemma agrees_manifest {A : Type} (key text manifest : A -> string) m l :
  (forall a b, text a = text b -> manifest a = manifest b) -> NoDup (key <$> l) -> agrees key text m (index key ∅ l) ->
  manifest <$> sort_by (less_on key String.ltb) (map_to_list m).*2 = manifest <$> sort_by (less_on key String.ltb) l.
Proof.
  intros Htext Hl Ha. pose proof (agrees_keyed _ _ _ _ Ha) as Hk.
  set (f := fun id => default EmptyString (manifest <$> index key ∅ l !! id)).
  assert (forall k, (forall a, a ∈ k -> manifest a = f (key a)) ->
    manifest <$> sort_by (less_on key String.ltb) k = f <$> sort_strings (key <$> k)) as Hf.
  { intros k Hin. rewrite <- fmap_sort_on, <- list_fmap_compose. apply list_fmap_ext. intros i a Hi.
    apply Hin. apply list_elem_of_lookup_2 in Hi. by apply elem_of_sort_by in Hi. }
  rewrite !Hf.
  - f_equal. apply (sort_by_unique String.ltb). rewrite keyed_list by done. apply NoDup_Permutation; [apply NoDup_fst_map_to_list|done|].
    intros id. specialize (Ha id). rewrite list_elem_of_fmap, list_elem_of_fmap. split.
    + intros ([j w] & -> & Hin). apply elem_of_map_to_list in Hin. simpl in *.
      destruct (index key ∅ l !! j) as [v|] eqn:Hv; [|congruence]. apply index_empty in Hv as [Hin' <-]; eauto.
    + intros (v & -> & Hin). assert (index key ∅ l !! key v = Some v) as Hv by (by apply index_empty). rewrite Hv in Ha.
      destruct Ha as (w & Hw & _). exists (key v, w). split; [done|]. by apply elem_of_map_to_list.
  - intros a Hin. unfold f. assert (index key ∅ l !! key a = Some a) as -> by (by apply index_empty). done.
  - intros a Hin. apply list_elem_of_fmap in Hin as ([id w] & -> & Hin). apply elem_of_map_to_list in Hin. simpl.
    unfold f. rewrite (Hk id w Hin). specialize (Ha id). destruct (index key ∅ l !! id) as [v|]; [|congruence].
    destruct Ha as (w' & Hw' & _ & Ht). rewrite Hin in Hw'. injection Hw' as <-. simpl. by apply Htext.
Qed.

(** ** The plan is accepted *)
Lemma validate_upsert_iff what s id s' : validate_upsert what s id = Ok s' <-> id <> EmptyString /\ id ∉ s /\ s' = {[id]} ∪ s.
Proof. unfold validate_upsert. repeat case_bool_decide; naive_solver. Qed.
Lemma validate_delete_iff what upserts s id s' :
  validate_delete what upserts s id = Ok s' <-> (id <> EmptyString /\ id ∉ upserts) /\ id ∉ s /\ s' = {[id]} ∪ s.
Proof. unfold validate_delete. repeat case_bool_decide; naive_solver. Qed.
Lemma accepts_operations what upserts deletes :
  NoDup upserts -> NoDup deletes -> Forall (fun id => id <> EmptyString) upserts -> Forall (fun id => id <> EmptyString) deletes ->
  (forall id, id ∈ deletes -> id ∉ upserts) ->
  exists s s', foldr_result (validate_upsert what) ∅ upserts = Ok s /\ foldr_result (validate_delete what s) ∅ deletes = Ok s'.
Proof.
  intros Hu Hd Hun Hdn Hdis. eexists _, _. split.
  - apply (seen_loop _ id _ (validate_upsert_iff what)). rewrite list_fmap_id. split_and!; [done|done|set_solver|reflexivity].
  - apply (seen_loop _ id _ (validate_delete_iff what _)). rewrite list_fmap_id. split_and!; [|done|set_solver|reflexivity].
    rewrite Forall_forall in Hdn. apply Forall_forall. intros i Hi. split; [by apply Hdn|].
    specialize (Hdis i Hi). set_solver.
Qed.

Lemma marshal_string_inj s t : valid_text s -> valid_text t -> marshal_string s = marshal_string t -> s = t.
Proof.
  intros Hs Ht Heq. pose proof (scan_value_string _ 0 s EmptyString Hs (Nat.le_refl _)) as H1.
  rewrite Heq, (scan_value_string _ 0 t EmptyString Ht (Nat.le_refl _)) in H1. by injection H1 as ->.
Qed.

(** The ends of the edges are written in UTF-8. *)
Definition named_ends (r : Result) : Prop := forall e, e ∈ Edges r -> valid_text (Edge_From e) /\ valid_text (Edge_To e).

Section delta.
Context `{JcsLib}.

Section plan.
Context (namespace version baseVersion hash : string) (base target : Result).
Context (Hbase : wellformed_result base) (Htarget : wellformed_result target).
Context (Hends : named_ends base) (Hends' : named_ends target).
Let plan := delta namespace version baseVersion hash base target.

Lemma deletes_named {A : Type} (key : A -> string) l (target_ : gmap string A) : NoDup (key <$> l) ->
  Forall (fun a => key a <> EmptyString) l -> Forall (fun id => id <> EmptyString) (sort_strings (removed (index key ∅ l) target_)).
Proof.
  intros Hl Hn. unfold sort_strings. apply Forall_sort_by, Forall_forall. intros id [[a Ha] _]%removed_iff.
  apply index_empty in Ha as [Hin <-]; [|done]. rewrite Forall_forall in Hn. by apply Hn.
Qed.
Lemma upserts_named {A : Type} (key : A -> string) text (old : gmap string A) l : NoDup (key <$> l) ->
  Forall (fun a => key a <> EmptyString) l ->
  Forall (fun id => id <> EmptyString) (key <$> sort_by (less_on key String.ltb) (changed text old (index key ∅ l))).
Proof.
  intros Hl Hn. rewrite fmap_sort_on. unfold sort_strings. apply Forall_sort_by, Forall_fmap, Forall_forall.
  intros a (id & Ha & _)%changed_iff. apply index_empty in Ha as [Hin _]; [|done]. rewrite Forall_forall in Hn. by apply Hn.
Qed.
Lemma operations_ok {A : Type} (what : string) (key : A -> string) text (b t : list A) :
  NoDup (key <$> b) -> NoDup (key <$> t) -> Forall (fun a => key a <> EmptyString) b -> Forall (fun a => key a <> EmptyString) t ->
  let old := index key ∅ b in let new := index key ∅ t in
  exists s s',
    foldr_result (validate_upsert what) ∅ (key <$> sort_by (less_on key String.ltb) (changed text old new)) = Ok s /\
    foldr_result (validate_delete what s) ∅ (sort_strings (removed old new)) = Ok s'.
Proof.
  intros Hb Ht Hbn Htn old new. apply accepts_operations.
  - rewrite fmap_sort_on. apply NoDup_sort_by, changed_NoDup, index_keyed, Ht.
  - apply NoDup_sort_by, removed_NoDup.
  - by apply upserts_named.
  - by apply deletes_named.
  - intros id Hd Hu. unfold sort_strings in Hd. apply elem_of_sort_by, removed_iff in Hd as [_ Hn].
    rewrite fmap_sort_on in Hu. unfold sort_strings in Hu. apply elem_of_sort_by, list_elem_of_fmap in Hu as (a & -> & Ha).
    apply changed_iff in Ha as (i & Hi & _). pose proof (index_keyed key t Ht i a Hi). subst i. congruence.
Qed.

Lemma plan_valid : validatePlan plan = Ok tt.
Proof using Hbase Htarget.
  destruct Hbase as [Bn Bnn Be Ben _], Htarget as [Tn Tnn Te Ten _].
  destruct (operations_ok "node" Node_ID node_text _ _ Bn Tn Bnn Tnn) as (s & s' & Hs & Hs').
  destruct (operations_ok "edge" Edge_ID edge_text _ _ Be Te Ben Ten) as (u & u' & Hu & Hu').
  unfold validatePlan, plan, delta. cbn [NodeUpserts NodeDeletes EdgeUpserts EdgeDeletes].
  rewrite Hs. cbn [result_bind]. rewrite Hs'. cbn [result_bind]. rewrite Hu. cbn [result_bind]. by rewrite Hu'.
Qed.

Lemma apply_delta_rebuilds : exists rebuilt, ApplyDelta base plan = Ok rebuilt /\ manifest_payload rebuilt = manifest_payload target.
Proof using Hbase Htarget Hends Hends'.
  pose proof plan_valid as Hp. destruct Hbase as [Bn Bnn Be Ben Bends] eqn:HB, Htarget as [Tn Tnn Te Ten Tends] eqn:HT.
  pose proof (delta_agrees Node_ID node_text _ _ (index_keyed _ _ Bn) (index_keyed _ _ Tn)) as An.
  pose proof (delta_agrees Edge_ID edge_text _ _ (index_keyed _ _ Be) (index_keyed _ _ Te)) as Ae.
  unfold ApplyDelta. rewrite (proj2 (validateResult_iff base) Hbase), Hp. cbn [result_bind].
  unfold plan, delta. cbn [NodeUpserts NodeDeletes EdgeUpserts EdgeDeletes].
  set (nodes := index Node_ID (delete_all _ _) _) in *. set (edges := index Edge_ID (delete_all _ _) _) in *.
  destruct (List.find (dangling nodes) (map_to_list edges).*2) as [e|] eqn:Hd.
  - exfalso. apply List.find_some in Hd as (Hin & Hd). apply list_elem_of_In, list_elem_of_fmap in Hin as ([i e'] & -> & Hin).
    apply elem_of_map_to_list in Hin. simpl in Hd. specialize (Ae i). destruct (index Edge_ID ∅ (Edges target) !! i) as [t|] eqn:Ht; [|congruence].
    destruct Ae as (w & Hw & _ & Htext). rewrite Hin in Hw. injection Hw as <-.
    apply index_empty in Ht as [Hint _]; [|done]. destruct (edge_text_manifest _ _ Htext) as (_ & Hf & Hto).
    assert (e' ∈ Edges target \/ e' ∈ Edges base) as Hsrc.
    { unfold edges in Hin. apply index_lookup in Hin as [[Hin _]|[_ Hin]].
      - left. apply elem_of_sort_by, changed_iff in Hin as (j & Hj & _). by apply index_empty in Hj as [? _].
      - right. apply delete_all_lookup in Hin as [_ Hin]. by apply index_empty in Hin as [? _].
      - rewrite fmap_sort_on. by apply NoDup_sort_by, changed_NoDup, index_keyed. }
    assert (valid_text (Edge_From e') /\ valid_text (Edge_To e')) as [Hv1 Hv2] by (destruct Hsrc; auto).
    destruct (Hends' t Hint) as [Hv3 Hv4].
    apply marshal_string_inj in Hf; [|done..]. apply marshal_string_inj in Hto; [|done..].
    assert (forall id, id ∈ Node_ID <$> Nodes target -> nodes !! id <> None) as Hpresent.
    { intros id Hid Hnone. apply list_elem_of_fmap in Hid as (n & -> & Hn). specialize (An (Node_ID n)).
      rewrite (proj2 (index_empty Node_ID _ _ n Tn)) in An by done. destruct An as (w & Hw & _). congruence. }
    unfold dangling in Hd. rewrite Hf, Hto in Hd. destruct (Tends t Hint) as [Hx Hy].
    apply orb_true_iff in Hd as [Hd|Hd]; apply bool_decide_eq_true in Hd; by eapply Hpresent in Hd.
  - eexists. split; [done|]. unfold manifest_payload. cbn [Nodes Edges].
    rewrite (agrees_manifest Node_ID node_text manifest_node nodes (Nodes target) node_text_manifest Tn An).
    rewrite (agrees_manifest Edge_ID edge_text manifest_edge edges (Edges target)); [done| |done|done].
    intros a b Hab. by apply edge_text_manifest.
Qed.
End plan.

(** C34: For any two well formed snapshots a delta plan is found whenever the
    target has a canonical manifest; applied to the base it leaves a snapshot
    with the target's manifest and hash, it sends only what is new or changed
    and removes only what is gone. *)
Theorem delta_rebuilds_target namespace version baseVersion base target bytes hash :
  namespace <> EmptyString -> version <> EmptyString -> baseVersion <> EmptyString ->
  validateResult base = Ok tt -> validateResult target = Ok tt -> named_ends base -> named_ends target ->
  ManifestBytes target = Ok (bytes, hash) ->
  exists plan rebuilt,
    PlanDelta namespace version baseVersion base target = Ok plan /\ Delta_ContentHash plan = hash /\
    ApplyDelta base plan = Ok rebuilt /\ ManifestBytes rebuilt = Ok (bytes, hash) /\
    (forall n, n ∈ NodeUpserts plan <-> n ∈ Nodes target /\ forall o, o ∈ Nodes base -> Node_ID o = Node_ID n -> node_text o <> node_text n) /\
    (forall e, e ∈ EdgeUpserts plan <-> e ∈ Edges target /\ forall o, o ∈ Edges base -> Edge_ID o = Edge_ID e -> edge_text o <> edge_text e) /\
    (forall id, id ∈ NodeDeletes plan <-> id ∈ Node_ID <$> Nodes base /\ id ∉ Node_ID <$> Nodes target) /\
    (forall id, id ∈ EdgeDeletes plan <-> id ∈ Edge_ID <$> Edges base /\ id ∉ Edge_ID <$> Edges target).
Proof.
  intros Hns Hv Hbv Hb Ht Eb Et Hm. pose proof (proj1 (validateResult_iff _) Hb) as Wb. pose proof (proj1 (validateResult_iff _) Ht) as Wt.
  destruct (apply_delta_rebuilds namespace version baseVersion hash base target Wb Wt Eb Et) as (rebuilt & Ha & Hp).
  assert (ManifestBytes rebuilt = Ok (bytes, hash)) as Hr by (unfold ManifestBytes in *; by rewrite Hp).
  exists (delta namespace version baseVersion hash base target), rebuilt. destruct Wb as [Bn _ Be _ _], Wt as [Tn _ Te _ _].
  split.
  { unfold PlanDelta. repeat (rewrite bool_decide_false by done). cbn [orb]. rewrite Hb, Ht. cbn [prefixed result_bind]. rewrite Hm.
    cbn [result_bind]. rewrite Ha. cbn [result_bind]. rewrite Hr. by rewrite bool_decide_true. }
  split; [done|]. split; [done|]. split; [done|]. unfold delta. cbn [NodeUpserts NodeDeletes EdgeUpserts EdgeDeletes].
  unfold sort_strings. split_and!; intros x; rewrite elem_of_sort_by; by auto using upserts_exact, deletes_exact.
Qed.
End delta.
