(* ===== verification/GraphProjection.v ===== *)
(** * What a projection contains

    [Project] succeeds exactly on the revisions described by [projectable], and
    then its snapshot has one node for every entity that is not archived and one
    edge for every reference that a relation covers, whatever the order in which
    the store lists entities and references. *)
From S2P Require Import Prelude GoSort GoStrings GoCrypto GoJson JsonRoundTrip Domain DomainEntity GraphProjector GraphText GraphPlan.
Open Scope Z_scope.

Section projection.
Context `{UuidLib}.
Context (d : Descriptor) (format : Formatter).

(** The node of an entity, the edge of a reference. *)
Definition entity_node (r : Revision) (e : Entity) : option Node :=
  if is_archived e then None else match format e with Ok f => Some (node_of d r e f) | Err _ => None end.
Definition source_kind (m : gmap ID Entity) (ref : Reference) : EntityKind :=
  match m !! Reference_SourceID ref with Some e => Entity_Kind e | None => KindOther "" end.
Definition relation_of (m : gmap ID Entity) (ref : Reference) : option RelationToken := relationFor (Relations d) (source_kind m ref) ref.
Definition reference_edge (r : Revision) (m : gmap ID Entity) (ref : Reference) : option Edge :=
  token ← relation_of m ref; s ← m !! Reference_SourceID ref; t ← m !! Reference_TargetID ref;
  if bool_decide (Entity_Kind t = Reference_TargetKind ref) && negb (is_archived s) && negb (is_archived t)
  then Some (edge_of d r token s t ref) else None.
Definition entities_of (r : Revision) : gmap ID Entity := by_id (Revision_Entities r).

Record projectable (r : Revision) : Prop := {
  valid_identity : ID_Valid (Revision_ProjectID r) = true /\ ID_Valid (Revision_RevisionID r) = true /\ validHash (Revision_ConfigHash r) = true;
  valid_entities : Forall (fun e => ID_Valid (Entity_ID e) = true /\ EntityKind_Valid (Entity_Kind e) = true) (Revision_Entities r);
  distinct_entities : NoDup (Entity_ID <$> Revision_Entities r);
  formatted : Forall (fun e => is_archived e = true \/ is_ok (format e) = true) (Revision_Entities r);
  ends_active : Forall (fun ref => relation_of (entities_of r) ref = None \/ is_Some (reference_edge r (entities_of r) ref)) (Revision_References r);
  distinct_edges : NoDup (Edge_ID <$> omap (reference_edge r (entities_of r)) (Revision_References r))
}.
Definition projection (r : Revision) : Result :=
  mkResult (sort_by (less_on Node_ID String.ltb) (omap (entity_node r) (Revision_Entities r)))
           (sort_by (less_on Edge_ID String.ltb) (omap (reference_edge r (entities_of r)) (Revision_References r))).

Lemma by_id_lookup l id e : NoDup (Entity_ID <$> l) -> by_id l !! id = Some e <-> e ∈ l /\ Entity_ID e = id.
Proof. exact (index_empty Entity_ID l id e). Qed.
Lemma by_id_perm l k : NoDup (Entity_ID <$> l) -> l ≡ₚ k -> by_id l = by_id k.
Proof.
  intros Hl Hp. apply map_eq. intros id. apply option_eq. intros e.
  assert (NoDup (Entity_ID <$> k)) by by rewrite <- Hp. rewrite !by_id_lookup by done. by setoid_rewrite Hp.
Qed.

Lemma materialize_loop l : forall seen s, foldr_result materialize_entity seen l = Ok s <->
  Forall (fun e => ID_Valid (Entity_ID e) = true /\ EntityKind_Valid (Entity_Kind e) = true) l /\ NoDup (Entity_ID <$> l) /\
  (forall e, e ∈ l -> Entity_ID e ∉ seen) /\ s = (reverse (Entity_ID <$> l) ++ seen)%list.
Proof.
  induction l as [|e l IH]; intros seen s; simpl.
  - split; [intros [= <-]; split_and!; [constructor|constructor|set_solver|done]|]. by intros (_ & _ & _ & ->).
  - rewrite Forall_cons, NoDup_cons, result_bind_Ok. setoid_rewrite IH. unfold materialize_entity. split.
    + intros (v & Hv & Hg & Hnd & Hfresh & ->). destruct (ID_Valid (Entity_ID e)), (EntityKind_Valid (Entity_Kind e)); try discriminate Hv.
      simpl in Hv. case_bool_decide; [discriminate|]. injection Hv as <-. split_and!; try done.
      * intros Hin. apply list_elem_of_fmap in Hin as (e' & Heq & Hin). apply (Hfresh e' Hin). rewrite <- Heq. by left.
      * intros e' [->|Hin]%elem_of_cons; [done|]. intros Hin'. apply (Hfresh e' Hin). by right.
      * by rewrite reverse_cons, <- app_assoc.
    + intros ([[Hid Hk] Hg] & [Hn Hnd] & Hfresh & ->). exists (Entity_ID e :: seen). rewrite Hid, Hk. simpl.
      rewrite bool_decide_false by (apply Hfresh; by left). split_and!; try done.
      * intros e' Hin. rewrite not_elem_of_cons. split; [|apply Hfresh; by right]. intros Heq. apply Hn. rewrite <- Heq. by apply list_elem_of_fmap_2.
      * by rewrite reverse_cons, <- app_assoc.
Qed.

Lemma nodes_loop r l : forall acc nodes, foldr_result (project_node d format r) acc l = Ok nodes <->
  Forall (fun e => is_archived e = true \/ is_ok (format e) = true) l /\ nodes = (acc ++ omap (entity_node r) l)%list.
Proof.
  induction l as [|e l IH]; intros acc nodes; simpl.
  - rewrite app_nil_r. split; [intros [= <-]; by split|by intros [_ ->]].
  - rewrite result_bind_Ok, Forall_cons. setoid_rewrite IH. unfold project_node, entity_node. destruct (is_archived e); [naive_solver|].
    destruct (format e) as [f|m]; simpl; [|naive_solver]. split.
    + intros (v & [= <-] & Hall & ->). rewrite <- app_assoc. auto.
    + intros ((_ & Hall) & ->). eexists. split; [done|]. by rewrite <- app_assoc.
Qed.

Lemma project_edge_iff r m acc ref edges : project_edge d r m acc ref = Ok edges <->
  (relation_of m ref = None /\ edges = acc) \/
  exists e, reference_edge r m ref = Some e /\ Edge_ID e ∉ Edge_ID <$> acc /\ edges = (acc ++ [e])%list.
Proof.
  unfold project_edge, reference_edge, relation_of, source_kind.
  destruct (relationFor _ _ ref) as [token|] eqn:Hrel; simpl; [|naive_solver].
  destruct (m !! Reference_SourceID ref) as [s|]; simpl; [|naive_solver].
  destruct (m !! Reference_TargetID ref) as [t|]; simpl; [|naive_solver].
  destruct (bool_decide (Entity_Kind t = _)), (is_archived s), (is_archived t); simpl; try naive_solver.
  case_bool_decide; naive_solver.
Qed.
Lemma edges_loop r m l : forall acc edges, NoDup (Edge_ID <$> acc) ->
  foldr_result (project_edge d r m) acc l = Ok edges <->
  Forall (fun ref => relation_of m ref = None \/ is_Some (reference_edge r m ref)) l /\
  NoDup (Edge_ID <$> edges) /\ edges = (acc ++ omap (reference_edge r m) l)%list.
Proof.
  induction l as [|ref l IH]; intros acc edges Hacc; simpl.
  - rewrite app_nil_r. split; [intros [= <-]; by split_and!|by intros (_ & _ & ->)].
  - rewrite result_bind_Ok, Forall_cons. setoid_rewrite project_edge_iff. split.
    + intros (s & [[Hn ->]|(e & He & Hnew & ->)] & Hl).
      * apply IH in Hl as (Hall & Hnd & ->); [|done]. assert (reference_edge r m ref = None) as -> by (unfold reference_edge; by rewrite Hn).
        split_and!; [by left|done..].
      * apply IH in Hl as (Hall & Hnd & ->).
        -- rewrite He, <- app_assoc in *. split_and!; [right; eauto|done..].
        -- rewrite fmap_app. apply NoDup_app. split_and!; [done|set_solver|apply NoDup_singleton].
    + intros ([Hr Hall] & Hnd & ->). destruct Hr as [Hn|[e He]].
      * exists acc. split; [by left|]. apply IH; [done|]. assert (reference_edge r m ref = None) as He by (unfold reference_edge; by rewrite Hn).
        rewrite He in Hnd |- *. done.
      * exists (acc ++ [e])%list. rewrite He in Hnd |- *. rewrite fmap_app, fmap_cons in Hnd. apply NoDup_app in Hnd as Hnd'.
        destruct Hnd' as (_ & Hdis & Hnd2). split.
        -- right. exists e. split_and!; [done| |done]. intros Hin. apply (Hdis _ Hin). by left.
        -- apply IH.
           ++ rewrite fmap_app. apply NoDup_app. split_and!; [done| |apply NoDup_singleton].
              intros x Hx Hin. apply (Hdis x Hx). apply list_elem_of_singleton in Hin as ->. by left.
           ++ rewrite <- app_assoc, fmap_app, fmap_cons. by split_and!.
Qed.

(** Node identities determine entities. *)
Lemma NodeID_inj p e1 e2 : EntityKind_Valid (Entity_Kind e1) = true -> EntityKind_Valid (Entity_Kind e2) = true ->
  NodeID p e1 = NodeID p e2 -> Entity_ID e1 = Entity_ID e2.
Proof.
  unfold NodeID. intros H1 H2 Heq. apply (inj (String.append _)) in Heq. apply (inj (String.append p)) in Heq.
  apply (inj (String.append _)) in Heq. destruct (Entity_Kind e1), (Entity_Kind e2); try done; simpl in Heq; by simplify_eq.
Qed.
Lemma entity_node_Some r e n : entity_node r e = Some n <-> is_archived e = false /\ exists f, format e = Ok f /\ n = node_of d r e f.
Proof. unfold entity_node. destruct (is_archived e), (format e); naive_solver. Qed.
Lemma Node_ID_node_of r e f : Node_ID (node_of d r e f) = NodeID (Revision_ProjectID r) e.
Proof. by destruct f as [[? ?] ?]. Qed.
Lemma distinct_nodes r l : Forall (fun e => ID_Valid (Entity_ID e) = true /\ EntityKind_Valid (Entity_Kind e) = true) l ->
  NoDup (Entity_ID <$> l) -> NoDup (Node_ID <$> omap (entity_node r) l).
Proof.
  induction l as [|e l IH]; [constructor|]. rewrite fmap_cons, NoDup_cons. intros [[_ He] Hv]%Forall_cons [Hn Hnd].
  simpl. destruct (entity_node r e) as [n|] eqn:Hen; [|by apply IH]. rewrite fmap_cons. apply NoDup_cons. split; [|by apply IH].
  apply entity_node_Some in Hen as (_ & f & _ & ->). rewrite Node_ID_node_of. intros (n & Hid & Hin)%list_elem_of_fmap.
  apply list_elem_of_omap in Hin as (e' & Hin & He'). apply entity_node_Some in He' as (_ & f' & _ & ->). rewrite Node_ID_node_of in Hid.
  rewrite Forall_forall in Hv. destruct (Hv e' Hin) as [_ Hk]. apply NodeID_inj in Hid; [|done..].
  apply Hn. rewrite Hid. by apply list_elem_of_fmap_2.
Qed.

Lemma omap_perm {A B : Type} (f : A -> option B) l k : l ≡ₚ k -> omap f l ≡ₚ omap f k.
Proof. intros Hp. induction Hp; simpl; [done| | |by etrans]; repeat case_match; rewrite ?IHHp; try done; apply Permutation_swap. Qed.
Lemma Forall_perm {A : Type} (P : A -> Prop) l k : l ≡ₚ k -> Forall P l <-> Forall P k.
Proof. intros Hp. by rewrite Hp. Qed.

Lemma Project_Ok r result_ : Descriptor_Formatter d = Some format -> Descriptor_Valid d = true ->
  Project d r = Ok result_ <-> projectable r /\ result_ = projection r.
Proof.
  intros Hf Hd. unfold Project. rewrite Hf, Hd. simpl. set (sorted := sort_by (less_on Entity_ID String.ltb) (Revision_Entities r)).
  assert (sorted ≡ₚ Revision_Entities r) as Hp by apply sort_by_perm.
  assert (NoDup (Entity_ID <$> Revision_Entities r) -> by_id sorted = entities_of r) as Hby.
  { intros Hnd. symmetry. by apply by_id_perm. }
  rewrite result_bind_Ok. setoid_rewrite result_bind_Ok. setoid_rewrite result_bind_Ok. setoid_rewrite nodes_loop.
  unfold Materialize. fold sorted.
  destruct (ID_Valid (Revision_ProjectID r)) eqn:Hv1, (ID_Valid (Revision_RevisionID r)) eqn:Hv2, (validHash (Revision_ConfigHash r)) eqn:Hv3;
    simpl; try (split; [by intros (? & ? & _)|intros [[(? & ? & ?) _ _ _ _ _] _]; congruence]).
  setoid_rewrite result_bind_Ok. setoid_rewrite materialize_loop.
  assert (forall P : Entity -> Prop, Forall P sorted <-> Forall P (Revision_Entities r)) as Hall by (intros P; by apply Forall_perm).
  split.
  - intros (l & (s & (Hg & Hnd & _) & [= <-]) & nodes & [Hfmt ->] & edges & He & [= <-]).
    rewrite Hall in Hg. rewrite Hp in Hnd. rewrite Hby in He by done. apply edges_loop in He as (Hends & Hed & ->); [|constructor].
    rewrite Hall in Hfmt. split; [by split|]. unfold projection. f_equal. apply sort_on_key_unique; [apply _| |by apply omap_perm].
    rewrite (omap_perm _ _ _ Hp). by apply distinct_nodes.
  - intros [[_ Hg Hnd Hfmt Hends Hed] ->]. exists sorted. split.
    { eexists. split; [|done]. split_and!; [by rewrite Hall|by rewrite Hp|set_solver|done]. }
    eexists. split; [split; [by rewrite Hall|done]|]. eexists. rewrite Hby by done. split.
    { apply edges_loop; [constructor|]. by split_and!. }
    unfold projection. do 2 f_equal. apply sort_on_key_unique; [apply _| |by apply omap_perm].
    rewrite (omap_perm _ _ _ Hp). by apply distinct_nodes.
Qed.
End projection.

Lemma EdgeID_nonempty from token to path ordinal : EdgeID from token to path ordinal <> EmptyString.
Proof.
  unfold EdgeID. generalize (from +:+ "|" +:+ RelationToken_text token +:+ "|" +:+ to +:+ "|" +:+ path +:+ "|" +:+ Itoa ordinal)%string.
  intros s. unfold base32_sum. assert (length (Sum256 s) = 32%nat) as ->; [|done].
  pose proof (length_sha256_hex s) as Hl. Transparent sha256_hex. unfold sha256_hex in Hl. rewrite length_hex_encode in Hl. lia.
Qed.
#[global] Opaque sha256_hex.

Section contents.
Context `{UuidLib}.

Lemma reference_edge_Some d r m ref x : reference_edge d r m ref = Some x <->
  exists token s t, relation_of d m ref = Some token /\ m !! Reference_SourceID ref = Some s /\ m !! Reference_TargetID ref = Some t /\
    Entity_Kind t = Reference_TargetKind ref /\ is_archived s = false /\ is_archived t = false /\ x = edge_of d r token s t ref.
Proof.
  unfold reference_edge. destruct (relation_of d m ref) as [token|]; simpl; [|naive_solver].
  destruct (m !! Reference_SourceID ref) as [s|]; simpl; [|naive_solver].
  destruct (m !! Reference_TargetID ref) as [t|]; simpl; [|naive_solver].
  destruct (bool_decide (Entity_Kind t = Reference_TargetKind ref)) eqn:Hk, (is_archived s) eqn:Hs, (is_archived t) eqn:Ht;
    simpl; bool_to_prop; split; try discriminate;
    first [intros [= <-]; by exists token, s, t
          |intros (? & ? & ? & [= <-] & [= <-] & [= <-] & ? & ? & ? & ->); congruence].
Qed.

(** Every entity that is not archived has its node. *)
Lemma projected_node d format r e : projectable d format r -> e ∈ Revision_Entities r -> is_archived e = false ->
  NodeID (Revision_ProjectID r) e ∈ Node_ID <$> Nodes (projection d format r).
Proof.
  intros [_ _ _ Hfmt _ _] He Hae. rewrite Forall_forall in Hfmt. destruct (Hfmt e He) as [|Hok]; [congruence|].
  destruct (format e) as [f|] eqn:Hf; [|done]. apply list_elem_of_fmap. exists (node_of d r e f). rewrite Node_ID_node_of. split; [done|].
  apply elem_of_sort_by, list_elem_of_omap. exists e. split; [done|]. apply entity_node_Some. eauto.
Qed.

Lemma projection_wellformed d format r : projectable d format r -> wellformed_result (projection d format r).
Proof.
  intros Hok. pose proof Hok as [_ Hv Hnd Hfmt _ Hed]. unfold projection. split; cbn [Nodes Edges].
  - rewrite fmap_sort_on. by apply NoDup_sort_by, distinct_nodes.
  - apply Forall_sort_by, Forall_forall. intros n Hn. apply list_elem_of_omap in Hn as (e & _ & Hn).
    apply entity_node_Some in Hn as (_ & f & _ & ->). rewrite Node_ID_node_of. discriminate.
  - rewrite fmap_sort_on. by apply NoDup_sort_by.
  - apply Forall_sort_by, Forall_forall. intros x Hx. apply list_elem_of_omap in Hx as (ref & _ & Hx).
    apply reference_edge_Some in Hx as (token & s & t & _ & _ & _ & _ & _ & _ & ->). apply EdgeID_nonempty.
  - intros x Hx. apply elem_of_sort_by, list_elem_of_omap in Hx as (ref & Hin & Hx).
    apply reference_edge_Some in Hx as (token & s & t & Hrel & Hs & Ht & Hk & Has & Hat & ->). simpl.
    apply by_id_lookup in Hs as [Hs _]; [|done]. apply by_id_lookup in Ht as [Ht _]; [|done].
    split; by apply projected_node.
Qed.

(** C33: A projection succeeds only on well formed input and then has exactly
    one node for every entity that is not archived and one edge for every
    reference a relation covers, no dangling end and no duplicate identity, in
    the order of the identities; the order in which entities and references are
    listed makes no difference. *)
Theorem projection_exact d format r snapshot :
  Descriptor_Formatter d = Some format -> Project d r = Ok snapshot ->
  (forall n, n ∈ Nodes snapshot <->
     exists e f, e ∈ Revision_Entities r /\ Entity_Status e <> StatusArchived /\ format e = Ok f /\ n = node_of d r e f) /\
  (forall x, x ∈ Edges snapshot <->
     exists ref token s t, ref ∈ Revision_References r /\ s ∈ Revision_Entities r /\ t ∈ Revision_Entities r /\
       Entity_ID s = Reference_SourceID ref /\ Entity_ID t = Reference_TargetID ref /\
       relationFor (Relations d) (Entity_Kind s) ref = Some token /\ x = edge_of d r token s t ref) /\
  validateResult snapshot = Ok tt /\
  (forall r', Revision_ProjectID r' = Revision_ProjectID r -> Revision_RevisionID r' = Revision_RevisionID r ->
     Revision_ConfigHash r' = Revision_ConfigHash r -> Revision_Entities r' ≡ₚ Revision_Entities r ->
     Revision_References r' ≡ₚ Revision_References r -> Project d r' = Ok snapshot).
Proof.
  intros Hf Hp. assert (Descriptor_Valid d = true) as Hd.
  { unfold Project in Hp. rewrite Hf in Hp. by destruct (Descriptor_Valid d). }
  pose proof Hp as [Hok ->]%(Project_Ok d format r); [|done..]. split_and!.
  - intros n. simpl. rewrite elem_of_sort_by, list_elem_of_omap. setoid_rewrite entity_node_Some. unfold is_archived.
    setoid_rewrite bool_decide_eq_false. split.
    + intros (e & He & Ha & f & Hfe & ->). by exists e, f.
    + intros (e & f & He & Ha & Hfe & ->). exists e. split_and!; [done..|]. by exists f.
  - intros x. simpl. rewrite elem_of_sort_by, list_elem_of_omap. setoid_rewrite reference_edge_Some.
    unfold relation_of, source_kind, entities_of. setoid_rewrite (by_id_lookup _ _ _ (distinct_entities _ _ _ Hok)). split.
    + intros (ref & Hin & token & s & t & Hrel & [Hs Hsid] & [Ht Htid] & _ & _ & _ & ->).
      rewrite (proj2 (by_id_lookup _ _ s (distinct_entities _ _ _ Hok))) in Hrel by done. by exists ref, token, s, t.
    + intros (ref & token & s & t & Hin & Hs & Ht & Hsid & Htid & Hrel & ->).
      pose proof (ends_active _ _ _ Hok) as Hends. rewrite Forall_forall in Hends.
      assert (relation_of d (entities_of r) ref = Some token) as Hrel'.
      { unfold relation_of, source_kind. by rewrite (proj2 (by_id_lookup _ _ s (distinct_entities _ _ _ Hok))) by done. }
      destruct (Hends ref Hin) as [|[x Hx]]; [congruence|]. exists ref. split; [done|].
      apply reference_edge_Some in Hx as (token' & s' & t' & Hrel'' & Hs' & Ht' & Hk & Has & Hat & ->).
      apply by_id_lookup in Hs' as [Hs' Hsid']; [|apply Hok]. apply by_id_lookup in Ht' as [Ht' Htid']; [|apply Hok].
      assert (s' = s) as -> by (apply (NoDup_fmap_key Entity_ID (Revision_Entities r)); [apply Hok|congruence..]).
      assert (t' = t) as -> by (apply (NoDup_fmap_key Entity_ID (Revision_Entities r)); [apply Hok|congruence..]).
      exists token, s, t. unfold relation_of, source_kind in Hrel'. by split_and!.
  - by apply validateResult_iff, projection_wellformed.
  - intros r' Hpid Hrid Hh He Hr. apply (Project_Ok d format r'); [done..|].
    assert (entities_of r' = entities_of r) as Hby by (apply by_id_perm; [rewrite He; apply Hok|done]).
    assert (reference_edge d r' = reference_edge d r) as Hre by (unfold reference_edge, edge_of; by rewrite Hpid, Hrid, Hh).
    assert (entity_node d format r' = entity_node d format r) as Hen by (unfold entity_node, node_of; by rewrite Hpid, Hrid, Hh).
    destruct Hok as [Hv Hve Hnd Hfmt Hends Hed]. split.
    + split; rewrite ?Hpid, ?Hrid, ?Hh, ?Hby, ?Hre, ?He, ?Hr; done.
    + unfold projection. rewrite Hby, Hre, Hen.
      f_equal; (apply sort_on_key_unique; [apply _|try done; by apply distinct_nodes|by apply omap_perm]).
Qed.
End contents.

(** ** A revision of two entities, and the next one *)
Module ProjectionExamples.
Local Existing Instance canonical_uuid.
#[local] Instance identity_jcs : JcsLib := {| jcs_Transform := Ok |}.

Definition uuid (last : string) : ID := ("01890a5d-ac96-774b-bcce-b302099a80" +:+ last)%string.
Definition v1 : Descriptor := mkDescriptor ProjectionSchemaV1 ProjectorV1 V1Relations (Some V1Formatter).
Definition some_hash : string := sha256_hex "configuration".
Definition tag (name : string) : Entity :=
  mkEntity (uuid "01") KindTag "fire" name "" (Some []) "" StatusActive 1 (Some []) (Some []) 1 1 1.
Definition comet (tags : list ID) : Entity :=
  mkEntity (uuid "02") KindSkill "comet" "Comet" "" (Some tags) "" StatusActive 1 (Some []) (Some []) 1 1 1.
Definition tagged : Reference := mkReference (uuid "02") (uuid "01") "/tag_ids/0" 0 KindTag.
Definition first : Revision := mkRevision (uuid "aa") (uuid "bb") some_hash [comet [uuid "01"]; tag "Fire"] [tagged].
Definition second : Revision := mkRevision (uuid "aa") (uuid "cc") some_hash [tag "Flame"; comet []] [].
Definition no_result : Result := mkResult [] [].
Definition first_result : Result := Eval vm_compute in match Project v1 first with Ok r => r | Err _ => no_result end.
Definition second_result : Result := Eval vm_compute in match Project v1 second with Ok r => r | Err _ => no_result end.

Lemma projection_exact_witness :
  (length (Nodes first_result), length (Edges first_result)) = (2, 1)%nat /\
  Project v1 (mkRevision (uuid "aa") (uuid "bb") some_hash [tag "Fire"; comet [uuid "01"]] [tagged]) = Ok first_result.
Proof.
  split; [reflexivity|].
  destruct (projection_exact v1 V1Formatter first first_result) as (_ & _ & _ & Hperm); [reflexivity|vm_compute; reflexivity|].
  apply Hperm; [reflexivity..| |reflexivity]. apply Permutation_swap.
Defined.

Lemma delta_rebuilds_target_witness :
  exists plan rebuilt, PlanDelta "eco" "cc" "bb" first_result second_result = Ok plan /\ ApplyDelta first_result plan = Ok rebuilt /\
    ManifestBytes rebuilt = ManifestBytes second_result.
Proof.
  destruct (delta_rebuilds_target "eco" "cc" "bb" first_result second_result (manifest_payload second_result) (sha256_hex (manifest_payload second_result)))
    as (plan & rebuilt & Hplan & _ & Happly & Hm & _).
  - discriminate.
  - discriminate.
  - discriminate.
  - vm_compute. reflexivity.
  - vm_compute. reflexivity.
  - intros e ->%list_elem_of_singleton. split; apply ascii_text; vm_compute; reflexivity.
  - intros e Hin. by apply elem_of_nil in Hin.
  - reflexivity.
  - exists plan, rebuilt. split_and!; [exact Hplan|exact Happly|rewrite Hm; reflexivity].
Defined.
End ProjectionExamples.
