(* ===== verification/GraphSync.v ===== *)
(** * internal/graph/sync: the values of Graph synchronisation

    phase.go, state.go, job.go, admission.go, shared_job.go, ports.go,
    verification.go, status.go, impact.go and internal/graph/client/compatibility.go:
    what a worker, the store and the provider exchange, and the pure decisions on
    it.  [JobStatus] and [GraphJobResult] mirror the shared job's [Status] and
    [Result]; only the transition table differs. *)
From S2P Require Import Prelude GoSort GoStrings GoCrypto GoJson Domain ValidationTypes Job.
From S2P Require GraphProjector.
Import GraphProjector(fields, marshal_struct, marshal_slice, property).
Open Scope Z_scope.

(** ** phase.go *)
Inductive WorkerPhase :=
  | PhaseQueued | PhaseValidationConfirmed | PhaseProjected | PhaseProviderCompatible | PhaseSubmitting
  | PhaseTaskAccepted | PhasePolling | PhaseVerifying | PhaseReady | PhaseImpactHandoffRecorded
  | PhaseUnknown (spelling : string).
#[global] Instance WorkerPhase_eq_dec : EqDecision WorkerPhase.
Proof. solve_decision. Defined.
Definition phase_order : list WorkerPhase :=
  [PhaseQueued; PhaseValidationConfirmed; PhaseProjected; PhaseProviderCompatible; PhaseSubmitting;
   PhaseTaskAccepted; PhasePolling; PhaseVerifying; PhaseReady; PhaseImpactHandoffRecorded].
Definition phase_text (p : WorkerPhase) : string :=
  match p with
  | PhaseQueued => "QUEUED" | PhaseValidationConfirmed => "VALIDATION_CONFIRMED" | PhaseProjected => "PROJECTED"
  | PhaseProviderCompatible => "PROVIDER_COMPATIBLE" | PhaseSubmitting => "SUBMITTING" | PhaseTaskAccepted => "TASK_ACCEPTED"
  | PhasePolling => "POLLING" | PhaseVerifying => "VERIFYING" | PhaseReady => "READY"
  | PhaseImpactHandoffRecorded => "IMPACT_HANDOFF_RECORDED" | PhaseUnknown s => s
  end.
(** [WorkerPhase(text)] *)
Definition phase_of (text : string) : WorkerPhase :=
  default (PhaseUnknown text) (List.find (fun p => bool_decide (phase_text p = text)) phase_order).
Definition Phase_Valid (p : WorkerPhase) : bool := match p with PhaseUnknown _ => false | _ => true end.
Fixpoint next_in (order : list WorkerPhase) (p next : WorkerPhase) : bool :=
  match order with
  | current :: rest => if bool_decide (p = current) then bool_decide (head rest = Some next) else next_in rest p next
  | [] => false
  end.
Definition Phase_CanAdvanceTo (p next : WorkerPhase) : bool :=
  bool_decide (p = next) || (bool_decide (p = PhasePolling) && bool_decide (next = PhaseSubmitting)) || next_in phase_order p next.

(** ** state.go *)
Inductive PipelineState :=
  | StateSaved | StateValidating | StateBlockedValidation | StateQueued | StateBuilding | StateReady | StateFailed
  | StateUnknown (spelling : string).
#[global] Instance PipelineState_eq_dec : EqDecision PipelineState.
Proof. solve_decision. Defined.
Definition Pipeline_Valid (s : PipelineState) : bool := match s with StateUnknown _ => false | _ => true end.
Definition Pipeline_CanTransitionTo (s next : PipelineState) : bool :=
  let to x := bool_decide (next = x) in
  bool_decide (s = next) ||
  match s with
  | StateSaved => to StateValidating
  | StateValidating => to StateBlockedValidation || to StateQueued || to StateFailed
  | StateQueued => to StateBuilding || to StateFailed
  | StateBuilding => to StateReady || to StateFailed
  | _ => false
  end.

Record SyncState := mkSync {
  Sync_RevisionID : string; Pipeline : PipelineState; LatestJobID : string; ExternalTaskID : string; ProviderRequestID : string;
  ProviderTaskID : string; Generation : Z; Sync_SafeError : string; Sync_Warnings : list string
}.
#[global] Instance SyncState_eq_dec : EqDecision SyncState.
Proof. solve_decision. Defined.
Definition safeDiagnostic (value : string) : bool := ValidString value && (string_len value <=? 1024).
Definition safeProviderIdentity (value : string) : bool :=
  bool_decide (value = EmptyString) || (ValidString value && bool_decide (value = TrimSpace value) && (string_len value <=? 256)).
Definition Sync_Valid (s : SyncState) : bool :=
  negb (bool_decide (Sync_RevisionID s = EmptyString) || negb (Pipeline_Valid (Pipeline s)) || (Generation s <? 0) ||
        negb (safeDiagnostic (Sync_SafeError s)) || negb (safeProviderIdentity (ExternalTaskID s)) ||
        negb (safeProviderIdentity (ProviderRequestID s)) || negb (safeProviderIdentity (ProviderTaskID s)) ||
        (32 <? Z.of_nat (length (Sync_Warnings s)))) &&
  forallb (fun w => ValidString w && negb (bool_decide (TrimSpace w = EmptyString)) && (string_len w <=? 256)) (Sync_Warnings s).

(** ** job.go *)
Definition JobStatus_CanTransitionTo (s next : Status) : bool :=
  let to x := bool_decide (next = x) in
  match s with
  | Queued => to Running || to Failed || to Canceled || to Interrupted
  | Running => to Succeeded || to Failed || to Canceled || to Interrupted
  | Interrupted => to Succeeded || to Failed
  | _ => false
  end.
Record GraphJobEvent := mkGraphEvent {
  GEvent_JobID : ID; GEvent_Ordinal : Z; GEvent_Phase : WorkerPhase; GEvent_Progress : Z;
  GEvent_Warning : string; GEvent_SafeError : string; GEvent_Result : option Job.Result
}.
#[global] Instance GraphJobEvent_eq_dec : EqDecision GraphJobEvent.
Proof. solve_decision. Defined.

(** ** admission.go: the job and its request *)
Record GraphJobRequest := mkGraphRequest {
  GRequest_ProjectID : ID; GRequest_RevisionID : ID; GRequest_RetryOfJobID : ID; GRequest_InputHash : string;
  GRequest_IdempotencyKey : string; GRequest_RequestHash : string; GRequest_Evidence : string
}.
#[global] Instance GraphJobRequest_eq_dec : EqDecision GraphJobRequest.
Proof. solve_decision. Defined.
Record GraphJob := mkGraphJob {
  GJob_ID : ID; RetryOfJobID : ID; GJob_ProjectID : ID; GJob_RevisionID : ID; GJob_InputHash : string; GJob_IdempotencyKey : string;
  GJob_RequestHash : string; GJob_Evidence : string; GJob_Status : Status; GJob_Result : option Job.Result;
  GJob_CancelGeneration : Z; GJob_CancelRequestedAt : option Time; GJob_CreatedAt : Time; GJob_UpdatedAt : Time
}.
#[global] Instance GraphJob_eq_dec : EqDecision GraphJob.
Proof. solve_decision. Defined.
Definition validIdempotencyKey (key : string) : bool :=
  negb (bool_decide (key = EmptyString)) && bool_decide (key = TrimSpace key) && (string_len key <=? 256).

Section validity.
Context `{UuidLib}.

Definition GraphJobEvent_Valid (e : GraphJobEvent) : bool :=
  ID_Valid (GEvent_JobID e) && (0 <? GEvent_Ordinal e) && Phase_Valid (GEvent_Phase e) && (0 <=? GEvent_Progress e) &&
  (GEvent_Progress e <=? 100) && (string_len (GEvent_Warning e) <=? 256) && (string_len (GEvent_SafeError e) <=? 1024) &&
  option_forallb Result_Valid (GEvent_Result e).
Definition optional_id (id : ID) : bool := bool_decide (id = EmptyString) || ID_Valid id.
Definition GraphJobRequest_Valid (r : GraphJobRequest) : bool :=
  ID_Valid (GRequest_ProjectID r) && ID_Valid (GRequest_RevisionID r) && optional_id (GRequest_RetryOfJobID r) &&
  hash_shape (GRequest_InputHash r) && validIdempotencyKey (GRequest_IdempotencyKey r) && hash_shape (GRequest_RequestHash r) &&
  (string_len (GRequest_Evidence r) <=? 4096).
Definition GraphJob_Valid (j : GraphJob) : bool :=
  ID_Valid (GJob_ID j) && optional_id (RetryOfJobID j) && ID_Valid (GJob_ProjectID j) && ID_Valid (GJob_RevisionID j) &&
  hash_shape (GJob_InputHash j) && validIdempotencyKey (GJob_IdempotencyKey j) && hash_shape (GJob_RequestHash j) &&
  (string_len (GJob_Evidence j) <=? 4096) && Status_Valid (GJob_Status j) && (0 <=? GJob_CancelGeneration j) &&
  (negb (GJob_CancelGeneration j =? 0) || bool_decide (GJob_CancelRequestedAt j = None)) &&
  ((GJob_CancelGeneration j =? 0) || match GJob_CancelRequestedAt j with Some t => negb (IsZero t) | None => false end) &&
  option_forallb Result_Valid (GJob_Result j) &&
  (negb (bool_decide (GJob_Status j = Succeeded)) || bool_decide (is_Some (GJob_Result j))).

(** ** shared_job.go *)
Definition SharedJobKind : string := "graph_sync".
Definition GraphJob_SharedRecord (j : GraphJob) : result JobRecord string :=
  let record := mkRecord (GJob_ID j)
    (mkRequest (GJob_ProjectID j) SharedJobKind (GJob_RevisionID j) (GJob_InputHash j) (GJob_IdempotencyKey j) (GJob_RequestHash j))
    (GJob_Status j) (GJob_Result j) (GJob_CancelGeneration j) (GJob_CancelRequestedAt j) (GJob_CreatedAt j) (GJob_UpdatedAt j) in
  if negb (Record_Valid record) then Err "invalid graph job for shared adapter"%string else Ok record.
(** The Graph job of the columns of one row. *)
Definition graph_job (r : JobRecord) (retryOf : ID) (evidence : string) : GraphJob :=
  mkGraphJob (Record_ID r) retryOf (ProjectID (Record_Request r)) (RevisionID (Record_Request r)) (InputHash (Record_Request r))
    (IdempotencyKey (Record_Request r)) (RequestHash (Record_Request r)) evidence (Record_Status r) (Record_Result r)
    (CancelGeneration r) (CancelRequestedAt r) (CreatedAt r) (UpdatedAt r).
Definition GraphJobFromSharedRecord (record : JobRecord) (retryOfJobID : ID) (evidence : string) : result GraphJob string :=
  if negb (Record_Valid record) || negb (bool_decide (Kind (Record_Request record) = SharedJobKind)) ||
     negb (ID_Valid (RevisionID (Record_Request record)))
  then Err "invalid shared graph job"%string
  else let job := graph_job record retryOfJobID evidence in
       if negb (GraphJob_Valid job) then Err "invalid adapted graph job"%string else Ok job.

(** ** admission.go and pipeline.go: the requests *)
Definition ErrValidationNotPassed : string := "graph admission requires exact full validation pass".
Definition RetryGraphJobRequest (previous : GraphJob) (idempotencyKey : string) : result GraphJobRequest string :=
  if negb (GraphJob_Valid previous) || negb (validIdempotencyKey idempotencyKey) then Err ErrValidationNotPassed
  else
    let evidence := marshal_struct [("intent", marshal_string "retry"); ("retry_of_job_id", marshal_string (GJob_ID previous));
                                    ("source_request_hash", marshal_string (GJob_RequestHash previous))]%string in
    let digest := sha256_hex (GJob_ProjectID previous +:+ "|" +:+ GJob_RevisionID previous +:+ "|retry|" +:+ GJob_InputHash previous +:+
                              "|" +:+ idempotencyKey +:+ "|" +:+ evidence)%string in
    Ok (mkGraphRequest (GJob_ProjectID previous) (GJob_RevisionID previous) (GJob_ID previous) (GJob_InputHash previous)
          idempotencyKey digest evidence).
Definition versions_json (v : ValidationVersions) : string :=
  marshal_struct [("schema", marshal_string (ValidationTypes.Schema v)); ("dsl", marshal_string (DSL v));
                  ("registry", marshal_string (Versions_Registry v)); ("numeric_policy", marshal_string (NumericPolicy v))]%string.
Definition AutomaticGraphJobRequest (projectID revisionID : ID) (inputHash : string) (versions : ValidationVersions)
    (warnings : list string) : GraphJobRequest :=
  let key := ("graph:auto:" +:+ revisionID +:+ ":sync:" +:+ inputHash)%string in
  let evidence := marshal_struct [("intent", marshal_string "automatic"); ("validation_scope", marshal_string (Scope_text ScopeFull));
                                  ("validation_versions", versions_json versions);
                                  ("validation_warning_codes", marshal_slice (marshal_string <$> warnings))]%string in
  let digest := sha256_hex (projectID +:+ "|" +:+ revisionID +:+ "|sync|" +:+ inputHash +:+ "|" +:+ evidence)%string in
  mkGraphRequest projectID revisionID "" inputHash key digest evidence.

Record ValidationPipelineRequest := mkPipelineRequest {
  Pipe_ProjectID : ID; Pipe_RevisionID : ID; Pipe_ConfigHash : string; Pipe_Versions : ValidationVersions
}.
Definition PipelineRequest_Valid (r : ValidationPipelineRequest) : bool :=
  ID_Valid (Pipe_ProjectID r) && ID_Valid (Pipe_RevisionID r) && hash_shape (Pipe_ConfigHash r) && ValidationVersions_Valid (Pipe_Versions r).
Definition RestoreGraphJobRequest (request : ValidationPipelineRequest) (warnings : list string) (restoreJobID : ID)
    (restoreRequestHash revisionManifestHash : string) : GraphJobRequest :=
  let key := ("graph:restore:" +:+ restoreJobID +:+ ":" +:+ Pipe_RevisionID request +:+ ":" +:+ Pipe_ConfigHash request +:+ ":" +:+
              revisionManifestHash)%string in
  let evidence := marshal_struct [("intent", marshal_string "restore-full-rebuild"); ("restore_job_id", marshal_string restoreJobID);
                                  ("restore_request_hash", marshal_string restoreRequestHash);
                                  ("revision_manifest_hash", marshal_string revisionManifestHash);
                                  ("validation_scope", marshal_string (Scope_text ScopeFull));
                                  ("validation_versions", versions_json (Pipe_Versions request));
                                  ("validation_warning_codes", marshal_slice (marshal_string <$> warnings))]%string in
  let digest := sha256_hex (Pipe_ProjectID request +:+ "|" +:+ Pipe_RevisionID request +:+ "|" +:+ Pipe_ConfigHash request +:+ "|" +:+
                            key +:+ "|" +:+ evidence)%string in
  mkGraphRequest (Pipe_ProjectID request) (Pipe_RevisionID request) "" (Pipe_ConfigHash request) key digest evidence.

(** ** impact.go *)
Record ImpactHandoff := mkHandoff { Handoff_RevisionID : ID; GraphHash : string; Stage : string }.
#[global] Instance ImpactHandoff_eq_dec : EqDecision ImpactHandoff.
Proof. solve_decision. Defined.
Definition ImpactHandoff_Valid (h : ImpactHandoff) : bool :=
  ID_Valid (Handoff_RevisionID h) && hash_shape (GraphHash h) && bool_decide (Stage h = "impact"%string).
End validity.

(** ** ports.go *)
Definition SnapshotSchemaVersion : string := "1.0".
Record SyncNode := mkSyncNode {
  SNode_ID : string; SNode_Type : string; SNode_Label : string; SNode_Text : string; SNode_Properties : fields; SNode_Provenance : fields
}.
(** [Confidence] is a float64 that only ever holds a converted [int]. *)
Record SyncEdge := mkSyncEdge {
  SEdge_ID : string; SEdge_From : string; SEdge_To : string; SEdge_Type : string; SEdge_RelationKind : string; SEdge_Confidence : Z;
  SEdge_Properties : fields; SEdge_Provenance : fields
}.
(** The delta fields stay empty: every submission is a full snapshot. *)
Record PutSnapshotRequest := mkPut {
  Put_SchemaVersion : string; Put_Mode : string; Put_ContentHash : string; Put_Nodes : list SyncNode; Put_Edges : list SyncEdge
}.
(** [Details] is a map that the code compares with nil only. *)
Record ProviderError := mkProviderError {
  Error_Code : string; Error_Message : string; Error_RequestID : string; Error_Retryable : bool; Error_HasDetails : bool
}.
#[global] Instance ProviderError_eq_dec : EqDecision ProviderError.
Proof. solve_decision. Defined.
Definition ProviderError_Valid (e : ProviderError) : bool :=
  negb (bool_decide (TrimSpace (Error_Code e) = EmptyString)) && negb (bool_decide (TrimSpace (Error_Message e) = EmptyString)) &&
  negb (bool_decide (TrimSpace (Error_RequestID e) = EmptyString)) && Error_HasDetails e.
(** An [error] of the provider port: one that wraps a [ProviderError], or another. *)
Inductive ProviderFailure := Provider (e : ProviderError) | Transport (message : string).
#[global] Instance ProviderFailure_eq_dec : EqDecision ProviderFailure.
Proof. solve_decision. Defined.
Definition isProviderErrorCode (e : ProviderFailure) (code : string) : bool :=
  match e with Provider p => bool_decide (Error_Code p = code) | Transport _ => false end.

Record Component := mkComponent { Component_Name : string; Component_State : string; Component_Generation : string; Component_Error : option ProviderError }.
Record Snapshot := mkSnapshot {
  Snap_Namespace : string; Snap_Version : string; Snap_BaseVersion : string; Snap_SchemaVersion : string; Snap_ContentHash : string;
  Snap_TaskID : string; Snap_Status : string; Snap_NodeCount : Z; Snap_EdgeCount : Z; Snap_QueryReady : bool;
  Snap_Components : list Component; Snap_Warnings : list string
}.
(** The fields of a task that synchronisation reads. *)
Record Task := mkTask {
  Task_ID : string; Task_Operation : string; Task_Namespace : string; Task_SnapshotVersion : string; Task_State : string;
  Task_Error : option ProviderError
}.
Definition HasContractState (t : Task) : bool :=
  bool_decide (Task_State t = "queued"%string) || bool_decide (Task_State t = "running"%string) ||
  bool_decide (Task_State t = "succeeded"%string) || bool_decide (Task_State t = "failed"%string).
Record HealthState := mkHealthState { Health_Name : string; Health_State : string }.
Record Limit := mkLimit { Limit_Name : string; Limit_Value : Z }.
Record Health := mkHealth {
  Health_Status : string; APIVersions : list string; SupportedSchemaVersions : list string;
  Health_Capabilities : list HealthState; Health_Dependencies : list HealthState; Health_Limits : list Limit
}.
(** The provider answers a call from its own state. *)
Class GraphProvider (P : Type) := {
  Provider_Health : string -> P -> result Health ProviderFailure * P;
  InspectSnapshot : string -> string -> string -> P -> result Snapshot ProviderFailure * P;
  PutSnapshot : string -> string -> PutSnapshotRequest -> string -> P -> result Snapshot ProviderFailure * P;
  GetTask : string -> string -> P -> result Task ProviderFailure * P
}.

(** ** verification.go *)
Record SnapshotExpectation := mkExpectation {
  Expect_Namespace : string; Expect_Version : string; Expect_ContentHash : string; Expect_NodeCount : Z; Expect_EdgeCount : Z
}.
Record SnapshotVerification := mkVerification { Verified_Ready : bool; Verified_Warnings : list string; Verified_Reasons : list string }.
#[global] Instance SnapshotVerification_eq_dec : EqDecision SnapshotVerification.
Proof. solve_decision. Defined.
Definition componentState (components : list Component) (name : string) : string :=
  match List.find (fun c => bool_decide (Component_Name c = name)) components with Some c => Component_State c | None => "" end.
Definition reason (b : bool) (code : string) : list string := if b then [code] else [].
Definition VerifySnapshot (expected : SnapshotExpectation) (snapshot : Snapshot) : SnapshotVerification :=
  if bool_decide (Expect_Namespace expected = EmptyString) || bool_decide (Expect_Version expected = EmptyString) ||
     negb (hash_shape (Expect_ContentHash expected)) || (Expect_NodeCount expected <? 0) || (Expect_EdgeCount expected <? 0)
  then mkVerification false [] ["INVALID_EXPECTED_SNAPSHOT"%string]
  else
    let component name := componentState (Snap_Components snapshot) name in
    let reasons :=
      (reason (negb (bool_decide (Snap_Namespace snapshot = Expect_Namespace expected)) ||
               negb (bool_decide (Snap_Version snapshot = Expect_Version expected))) "SNAPSHOT_IDENTITY_MISMATCH" ++
       reason (negb (bool_decide (Snap_ContentHash snapshot = Expect_ContentHash expected))) "CONTENT_HASH_MISMATCH" ++
       reason (negb (Snap_NodeCount snapshot =? Expect_NodeCount expected) || negb (Snap_EdgeCount snapshot =? Expect_EdgeCount expected))
         "SNAPSHOT_COUNT_MISMATCH" ++
       reason (negb (bool_decide (Snap_Status snapshot = "ready"%string))) "SNAPSHOT_NOT_READY" ++
       reason (negb (Snap_QueryReady snapshot)) "QUERY_NOT_READY" ++
       reason (negb (bool_decide (component "graph"%string = "ready"%string))) "COMPONENT_GRAPH_NOT_READY" ++
       reason (negb (bool_decide (component "fts"%string = "ready"%string))) "COMPONENT_FTS_NOT_READY")%list in
    mkVerification (bool_decide (reasons = []))
      (reason (negb (bool_decide (component "vector"%string = EmptyString)) && negb (bool_decide (component "vector"%string = "ready"%string)))
         "DEGRADED_VECTOR") reasons.

(** ** reconciliation.go *)
Record ReconciliationDecision := mkDecision { AcceptExisting : bool; Resubmit : bool; Decision_Verification : SnapshotVerification }.
Definition no_verification : SnapshotVerification := mkVerification false [] [].
(** The decision comes with an error where the second component is false. *)
Definition ReconcileMissingTask (expected : SnapshotExpectation) (snapshot : option Snapshot) : ReconciliationDecision * bool :=
  match snapshot with
  | None => (mkDecision false true no_verification, true)
  | Some s =>
      let verification := VerifySnapshot expected s in
      if Verified_Ready verification then (mkDecision true false verification, true) else (mkDecision false false verification, false)
  end.

(** ** status.go: [ComputeFreshness] *)
Record Freshness := mkFreshness { Fresh : bool; Fresh_Reasons : list string }.
Definition ComputeFreshness `{UuidLib} (revisionID : ID) (inputHash : string) (state : SyncState) (job : option GraphJob) : Freshness :=
  if negb (ID_Valid revisionID) || negb (hash_shape inputHash) then mkFreshness false ["INVALID_EXPECTED_IDENTITY"%string]
  else
    let reasons :=
      (reason (negb (bool_decide (Sync_RevisionID state = revisionID))) "REVISION_MISMATCH" ++
       reason (negb (bool_decide (Pipeline state = StateReady))) "GRAPH_NOT_READY" ++
       reason (bool_decide (LatestJobID state = EmptyString)) "MISSING_GRAPH_JOB" ++
       match job with
       | None => ["JOB_UNAVAILABLE"%string]
       | Some job =>
           reason (negb (bool_decide (LatestJobID state = GJob_ID job))) "LATEST_JOB_MISMATCH" ++
           reason (negb (bool_decide (GJob_RevisionID job = revisionID)) || negb (bool_decide (GJob_InputHash job = inputHash)))
             "JOB_IDENTITY_MISMATCH" ++
           reason (negb (bool_decide (GJob_Status job = Succeeded))) "JOB_NOT_SUCCEEDED"
       end)%list in
    mkFreshness (bool_decide (reasons = [])) reasons.

(** ** client/compatibility.go *)
Record Compatibility := mkCompatibility {
  Compatible : bool; Compat_Warnings : list string; Compat_Reasons : list string; Compat_Limits : gmap string Z
}.
Definition contains_string (values : list string) (want : string) : bool := existsb (fun v => bool_decide (v = want)) values.
Definition stateFor (values : list HealthState) (name : string) : string :=
  match List.find (fun v => bool_decide (Health_Name v = name)) values with Some v => Health_State v | None => "" end.
Definition among (value : string) (options : list string) : bool := existsb (fun o => bool_decide (value = o)) options.
Definition EvaluateCompatibility (health : Health) : Compatibility :=
  let capability name := reason (negb (bool_decide (stateFor (Health_Capabilities health) name = "available"%string)))
    ("CAPABILITY_" +:+ name)%string in
  let dependency name := reason (among (stateFor (Health_Dependencies health) name) ["unavailable"; "disabled"; ""]%string)
    ("DEPENDENCY_" +:+ name)%string in
  let degraded name :=
    let state := stateFor (Health_Dependencies health) name in
    reason (among state ["degraded"; "unavailable"]%string || (bool_decide (name = "vector"%string) && bool_decide (state = "disabled"%string)))
      ("DEGRADED_" +:+ name)%string in
  let reasons :=
    (reason (bool_decide (Health_Status health = "unavailable"%string)) "HEALTH_UNAVAILABLE" ++
     reason (negb (contains_string (APIVersions health) "v1")) "API_V1_UNSUPPORTED" ++
     reason (negb (contains_string (SupportedSchemaVersions health) SnapshotSchemaVersion)) "SNAPSHOT_SCHEMA_UNSUPPORTED" ++
     mjoin (capability <$> ["snapshot_lifecycle"; "task_polling"]%string) ++
     mjoin (dependency <$> ["sqlite"; "graph_migrations"; "core_graph_query"; "bm25"]%string))%list in
  mkCompatibility (bool_decide (reasons = [])) (sort_strings (mjoin (degraded <$> ["vector"; "rerank"]%string))) (sort_strings reasons)
    (foldl (fun m l => if 0 <=? Limit_Value l then <[Limit_Name l := Limit_Value l]> m else m) ∅ (Health_Limits health)).

(** ** Facts *)
Lemma reason_nil b code : reason b code = [] <-> b = false.
Proof. by destruct b. Qed.

(** A verification is ready exactly on the expected, query-ready snapshot. *)
Record exact_snapshot (expected : SnapshotExpectation) (s : Snapshot) : Prop := {
  exact_identity : Snap_Namespace s = Expect_Namespace expected /\ Snap_Version s = Expect_Version expected;
  exact_hash : Snap_ContentHash s = Expect_ContentHash expected;
  exact_counts : Snap_NodeCount s = Expect_NodeCount expected /\ Snap_EdgeCount s = Expect_EdgeCount expected;
  exact_status : Snap_Status s = "ready"%string /\ Snap_QueryReady s = true;
  exact_components : componentState (Snap_Components s) "graph" = "ready"%string /\ componentState (Snap_Components s) "fts" = "ready"%string
}.
Definition valid_expectation (e : SnapshotExpectation) : Prop :=
  Expect_Namespace e <> EmptyString /\ Expect_Version e <> EmptyString /\ hash_shape (Expect_ContentHash e) = true /\
  0 <= Expect_NodeCount e /\ 0 <= Expect_EdgeCount e.
Lemma VerifySnapshot_ready expected s :
  Verified_Ready (VerifySnapshot expected s) = true <-> valid_expectation expected /\ exact_snapshot expected s.
Proof.
  unfold VerifySnapshot, valid_expectation. case_guard as Hg.
  - split; [done|]. intros [(Hn & Hv & Hh & Hnc & Hec) _]. rewrite Hh, !bool_decide_false in Hg by done. simpl in Hg.
    apply orb_true_iff in Hg as [Hg|Hg]; apply Z.ltb_lt in Hg; lia.
  - bool_to_prop. cbn [Verified_Ready]. rewrite bool_decide_eq_true, !app_nil, !reason_nil.
    rewrite !orb_false_iff, !negb_false_iff, !bool_decide_eq_true, !Z.eqb_eq. split.
    + intros ((Hn & Hv) & Hh & (Hnc & Hec) & Hs & Hq & Hc1 & Hc2). split; [by split_and!|]. by split.
    + intros [_ [[Hn Hv] Hh [Hnc Hec] [Hs Hq] [Hc1 Hc2]]]. by split_and!.
Qed.

Lemma phase_of_text p : Phase_Valid p = true -> phase_of (phase_text p) = p.
Proof. by destruct p. Qed.
Lemma phase_of_valid s : Phase_Valid (phase_of s) = true -> phase_text (phase_of s) = s.
Proof.
  unfold phase_of. destruct (List.find _ _) as [p|] eqn:Hf; [|done]. intros _. simpl. apply List.find_some in Hf as [_ Hf]. by bool_to_prop.
Qed.
