(* ===== verification/GraphStore.v ===== *)
(** * internal/storage/sqlite: the tables of Graph synchronisation

    graph_jobs.go, graph_sync_state.go, graph_projection.go,
    graph_projection_store.go and graph_impact_handoff.go over migrations 0003,
    0005, 0006, 0007, 0009 and 0021.  The state joins the job table of JobStore
    (whose Graph columns are [extension]), the configuration of EntityStore and
    the three Graph tables.

    A transaction is one function of the state; on an error nothing is committed.
    Its clock reading is an argument.  A row that cannot be read back is an error
    as in the code; the errors of the driver are left out.  [COALESCE] and
    [nullString] make NULL and the empty text the same value here. *)
From S2P Require Import Prelude GoSort GoStrings GoCrypto GoJson GoFloat Domain JobStore FormulaDecimal DomainEntity.
From S2P Require EntityStore EntityReads VersionGate GraphProjector.
From S2P Require Import ValidationTypes Job GraphSync.
Import GraphProjector(ProjectionSummary, ProjectionSummary_Valid, Summary_ProjectID, Summary_RevisionID, Summary_ConfigHash,
  Summary_SchemaVersion, Summary_ProjectorVersion, ManifestHash, Summary_NodeCount, Summary_EdgeCount).
Open Scope Z_scope.

(** ** Tables *)
Record SummaryRow := mkSummaryRow { Stored_Summary : ProjectionSummary; Summary_Evidence : string; Summary_CreatedAt : Time }.
Record HandoffRow := mkHandoffRow {
  Handoff_Status : string; Handoff_Base : ID; Handoff_Job : ID; Handoff_Report : ID; Handoff_Reason : string;
  Handoff_CreatedAt : Time; Handoff_UpdatedAt : option Time
}.
(** The keys: revision of [graph_sync_states]; revision, schema, projector of
    [projection_summaries]; revision, stage, hash of [graph_impact_handoffs]. *)
Record GraphDb := mkGraphDb {
  shared : Store;
  extension : gmap ID (ID * string);
  configuration : EntityStore.EntityStore;
  sync_states : gmap ID (SyncState * Time);
  summaries : gmap (ID * string * string) SummaryRow;
  handoffs : gmap (ID * string * string) HandoffRow
}.
Definition with_shared (db : GraphDb) (s : Store) : GraphDb :=
  mkGraphDb s (extension db) (configuration db) (sync_states db) (summaries db) (handoffs db).
Definition with_states (db : GraphDb) (m : gmap ID (SyncState * Time)) : GraphDb :=
  mkGraphDb (shared db) (extension db) (configuration db) m (summaries db) (handoffs db).
Definition with_summaries (db : GraphDb) (m : gmap (ID * string * string) SummaryRow) : GraphDb :=
  mkGraphDb (shared db) (extension db) (configuration db) (sync_states db) m (handoffs db).
Definition with_handoffs (db : GraphDb) (m : gmap (ID * string * string) HandoffRow) : GraphDb :=
  mkGraphDb (shared db) (extension db) (configuration db) (sync_states db) (summaries db) m.
Definition with_configuration (db : GraphDb) (c : EntityStore.EntityStore) : GraphDb :=
  mkGraphDb (shared db) (extension db) c (sync_states db) (summaries db) (handoffs db).

Inductive GraphError :=
  | ErrGraphSyncStateInvalid | ErrGraphJobConflict | ErrGraphJobNotFound | ErrGraphJobRetry | ErrGraphJobTransition | ErrGraphJobEvent
  | ErrProjectionSummaryInvalid | ErrProjectionSummaryConflict | ErrGraphImpactHandoffInvalid | ErrGraphProjectionRevisionInvalid
  | ErrAdmissionNotPassed | ErrCancellationInvalid | ErrFailureInvalid | ErrImpactHandoffInvalid | ErrPipelineInvalid | ErrPollingInvalid
  | ErrReadyCommitInvalid | ErrReconciliationInvalid | ErrRecoveryInvalid | ErrPipelineMapping | ErrSubmissionInvalid | ErrWorkerCheckpoint
  | ErrGraphSyncRuntimeUnavailable | ErrRestoreDerivedInvalid
  | ErrSharedJob (e : JobError) | ErrStoredGraphJob (* invalid stored graph job *) | ErrGraphConstraint (table : string)
  | ErrProvider (f : ProviderFailure) | ErrConfiguration (e : EntityStore.StoreError) | ErrGraphText (e : string).

Definition graph_guard (b : bool) (e : GraphError) : result unit GraphError := if b then Ok tt else Err e.

Section store.
Context `{UuidLib}.

Definition revision_exists (db : GraphDb) (id : ID) : bool := bool_decide (id ∈ config_revisions (shared db)).
(** [latest_job_id TEXT REFERENCES jobs(id)] *)
Definition job_reference (db : GraphDb) (id : string) : bool := bool_decide (id = EmptyString) || bool_decide (is_Some (jobs (shared db) !! id)).

(** ** graph_jobs.go *)
(** One row of [jobs] of this project and of kind graph_sync. *)
Definition graph_row (db : GraphDb) (id : ID) : option GraphJob :=
  r ← row_of (shared db) id;
  if decide (Kind (Record_Request r) = SharedJobKind)
  then let '(retryOf, evidence) := default (EmptyString, EmptyString) (extension db !! id) in Some (graph_job r retryOf evidence)
  else None.
Definition scanGraphJob (row : GraphJob) : result GraphJob GraphError := if GraphJob_Valid row then Ok row else Err ErrStoredGraphJob.
Definition GetGraphJob (db : GraphDb) (id : ID) : result GraphJob GraphError :=
  if negb (ID_Valid id) then Err ErrGraphJobNotFound
  else match graph_row db id with None => Err ErrGraphJobNotFound | Some row => scanGraphJob row end.
Definition findGraphJob (db : GraphDb) (id : ID) : result (option GraphJob) GraphError :=
  match graph_row db id with None => Ok None | Some row => let? job := scanGraphJob row in Ok (Some job) end.
(** The idempotency key is unique in the project, whatever the kind. *)
Definition key_holder (db : GraphDb) (key : string) : option JobRecord :=
  head (filter (has_key (projectID (shared db)) key) (map_to_list (jobs (shared db))).*2).
Definition findGraphJobByKey (db : GraphDb) (key : string) : result (option GraphJob) GraphError :=
  match key_holder db key with None => Ok None | Some r => findGraphJob db (Record_ID r) end.

Definition queued_graph_job (id : ID) (now : Time) (r : GraphJobRequest) : GraphJob :=
  mkGraphJob id (GRequest_RetryOfJobID r) (GRequest_ProjectID r) (GRequest_RevisionID r) (GRequest_InputHash r) (GRequest_IdempotencyKey r)
    (GRequest_RequestHash r) (GRequest_Evidence r) Queued None 0 None now now.
Definition shared_request (r : GraphJobRequest) : Request :=
  mkRequest (GRequest_ProjectID r) SharedJobKind (GRequest_RevisionID r) (GRequest_InputHash r) (GRequest_IdempotencyKey r) (GRequest_RequestHash r).
Definition insert_graph_job (db : GraphDb) (id : ID) (now : Time) (r : GraphJobRequest) : option GraphDb :=
  match key_holder db (GRequest_IdempotencyKey r) with
  | Some _ => None
  | None =>
      if negb (job_reference db (GRequest_RetryOfJobID r)) then None
      else
        s ← insert_job (shared db) (queued_record id (shared_request r) now);
        Some (mkGraphDb s (<[id := (GRequest_RetryOfJobID r, GRequest_Evidence r)]> (extension db)) (configuration db) (sync_states db)
                (summaries db) (handoffs db))
  end.
Definition CreateOrGetGraphJob (db : GraphDb) (now : Time) (newID : option ID) (request : GraphJobRequest) :
    result (GraphJob * bool) GraphError * GraphDb :=
  if negb (GraphJobRequest_Valid request) || negb (bool_decide (GRequest_ProjectID request = projectID (shared db)))
  then (Err ErrGraphSyncStateInvalid, db)
  else match findGraphJobByKey db (GRequest_IdempotencyKey request) with
  | Err e => (Err e, db)
  | Ok (Some existing) =>
      if negb (bool_decide (GJob_RequestHash existing = GRequest_RequestHash request)) ||
         negb (bool_decide (GJob_Evidence existing = GRequest_Evidence request))
      then (Err ErrGraphJobConflict, db) else (Ok (existing, true), db)
  | Ok None =>
      let retry :=
        if bool_decide (GRequest_RetryOfJobID request = EmptyString) then Ok tt
        else let? previous := findGraphJob db (GRequest_RetryOfJobID request) in
             match previous with
             | None => Err ErrGraphJobRetry
             | Some p => graph_guard (bool_decide (GJob_RevisionID p = GRequest_RevisionID request) &&
                                      bool_decide (GJob_InputHash p = GRequest_InputHash request)) ErrGraphJobRetry
             end in
      match retry, newID with
      | Err e, _ => (Err e, db)
      | Ok _, None => (Err (ErrGraphText "allocate UUIDv7"), db)
      | Ok _, Some id =>
          let job := queued_graph_job id now request in
          if negb (GraphJob_Valid job) then (Err ErrGraphSyncStateInvalid, db)
          else match insert_graph_job db id now request with
               | None => (Err (ErrGraphConstraint "jobs"), db)
               | Some db' => (Ok (job, false), db')
               end
      end
  end.

Definition graphEventFromShared (e : Event) : GraphJobEvent :=
  mkGraphEvent (JobID e) (Ordinal e) (phase_of (Phase e)) (Progress e) (Warning e) (SafeError e) (Event_Result e).
Definition shared_error {A : Type} (r : result A JobError) : result A GraphError :=
  match r with Ok a => Ok a | Err e => Err (ErrSharedJob e) end.
Definition ListGraphJobEvents (db : GraphDb) (id : ID) (after : Z) : result (list GraphJobEvent) GraphError :=
  if negb (ID_Valid id) || (after <? 0) then Err ErrGraphJobNotFound
  else let? stored := shared_error (ListEvents (shared db) id after) in Ok (graphEventFromShared <$> stored).
Definition sameGraphJobResult (left right : option Job.Result) : bool := bool_decide (left = right).

(** ** graph_sync_state.go *)
Definition scan_state (s : SyncState) : result SyncState GraphError := if Sync_Valid s then Ok s else Err ErrGraphSyncStateInvalid.
Definition GetGraphSyncState (db : GraphDb) (revisionID : ID) : result (option SyncState) GraphError :=
  if negb (ID_Valid revisionID) then Err ErrGraphSyncStateInvalid
  else match sync_states db !! revisionID with
       | None => Ok None
       | Some (s, _) => let? s := scan_state s in Ok (Some s)
       end.
(** [graph_sync_states_provider_task_unique] *)
Definition task_free (db : GraphDb) (revisionID : ID) (task : string) : bool :=
  bool_decide (task = EmptyString) ||
  forallb (fun entry : ID * (SyncState * Time) => bool_decide (entry.1 = revisionID) || negb (bool_decide (ProviderTaskID entry.2.1 = task)))
    (map_to_list (sync_states db)).
Definition CreateGraphSyncState (db : GraphDb) (now : Time) (state : SyncState) : result unit GraphError * GraphDb :=
  let id := Sync_RevisionID state in
  if negb (ID_Valid id) || negb (Sync_Valid state) || negb (Generation state =? 0) then (Err ErrGraphSyncStateInvalid, db)
  else if bool_decide (is_Some (sync_states db !! id)) || negb (revision_exists db id) || negb (job_reference db (LatestJobID state)) ||
          negb (task_free db id (ProviderTaskID state))
  then (Err (ErrGraphConstraint "graph_sync_states"), db)
  else (Ok tt, with_states db (<[id := (state, now)]> (sync_states db))).

(** The state and whether it was written; [None] where Go returns the zero state. *)
Definition swap_result : Type := option SyncState * bool.
Definition CompareAndSwapGraphSyncState (db : GraphDb) (now : Time) (expected next : SyncState) : result swap_result GraphError * GraphDb :=
  if negb (Sync_Valid expected) || negb (Sync_Valid next) || negb (bool_decide (Sync_RevisionID expected = Sync_RevisionID next)) ||
     negb (Pipeline_CanTransitionTo (Pipeline expected) (Pipeline next)) || negb (Generation next =? Generation expected + 1)
  then (Err ErrGraphSyncStateInvalid, db)
  else
    let id := Sync_RevisionID next in
    match sync_states db !! id with
    | Some (row, _) =>
        if negb (Generation row =? Generation expected) then (Ok (None, false), db)
        else if negb (job_reference db (LatestJobID next)) || negb (task_free db id (ProviderTaskID next))
        then (Err (ErrGraphConstraint "graph_sync_states"), db)
        else (Ok (Some next, true), with_states db (<[id := (next, now)]> (sync_states db)))
    | None => (Ok (None, false), db)
    end.

(** *** graph_projection_store.go, in a transaction *)
Definition insertProjectionSummaryTx (db : GraphDb) (now : Time) (s : ProjectionSummary) (evidence : string) : result (bool * GraphDb) GraphError :=
  let key := (Summary_RevisionID s, Summary_SchemaVersion s, Summary_ProjectorVersion s) in
  match summaries db !! key with
  | None =>
      if revision_exists db (Summary_RevisionID s)
      then Ok (true, with_summaries db (<[key := mkSummaryRow s evidence now]> (summaries db)))
      else Err (ErrGraphConstraint "projection_summaries")
  | Some row =>
      let existing := Stored_Summary row in
      if bool_decide (Summary_ConfigHash existing = Summary_ConfigHash s) && bool_decide (ManifestHash existing = ManifestHash s) &&
         (Summary_NodeCount existing =? Summary_NodeCount s) && (Summary_EdgeCount existing =? Summary_EdgeCount s)
      then Ok (false, db) else Err ErrProjectionSummaryConflict
  end.
Definition InsertProjectionSummary (db : GraphDb) (now : Time) (s : ProjectionSummary) (evidence : string) : result bool GraphError * GraphDb :=
  if negb (ProjectionSummary_Valid s) || negb (bool_decide (Summary_ProjectID s = projectID (shared db))) || bool_decide (evidence = EmptyString)
  then (Err ErrProjectionSummaryInvalid, db)
  else match insertProjectionSummaryTx db now s evidence with Ok (b, db') => (Ok b, db') | Err e => (Err e, db) end.
Definition GetProjectionSummary (db : GraphDb) (revisionID : ID) (schema version : string) : result (option ProjectionSummary) GraphError :=
  match summaries db !! (revisionID, schema, version) with
  | None => Ok None
  | Some row => if negb (ProjectionSummary_Valid (Stored_Summary row)) then Err ErrProjectionSummaryInvalid else Ok (Some (Stored_Summary row))
  end.
Definition GraphProjectionSummary (db : GraphDb) (revisionID : ID) : result (option ProjectionSummary) GraphError :=
  if negb (ID_Valid revisionID) then Err ErrProjectionSummaryInvalid
  else match List.filter (fun entry : (ID * string * string) * SummaryRow => bool_decide (entry.1.1.1 = revisionID)) (map_to_list (summaries db)) with
       | [] => Ok None
       | [(_, row)] => if negb (ProjectionSummary_Valid (Stored_Summary row)) then Err ErrProjectionSummaryInvalid else Ok (Some (Stored_Summary row))
       | _ => Err ErrProjectionSummaryInvalid
       end.

(** *** graph_impact_handoff.go *)
Definition queued_handoff (now : Time) : HandoffRow := mkHandoffRow "queued" "" "" "" "" now None.
(** [ON CONFLICT DO NOTHING] *)
Definition insert_handoff (db : GraphDb) (now : Time) (revisionID : ID) (stage hash : string) : bool * GraphDb :=
  match handoffs db !! (revisionID, stage, hash) with
  | Some _ => (false, db)
  | None => (true, with_handoffs db (<[(revisionID, stage, hash) := queued_handoff now]> (handoffs db)))
  end.
Definition CreateGraphImpactHandoff (db : GraphDb) (now : Time) (revisionID : ID) (hash stage : string) : result bool GraphError * GraphDb :=
  if negb (ID_Valid revisionID) || negb (hash_shape hash) || bool_decide (TrimSpace stage = EmptyString)
  then (Err ErrGraphImpactHandoffInvalid, db)
  else if negb (revision_exists db revisionID) && bool_decide (handoffs db !! (revisionID, stage, hash) = None)
  then (Err (ErrGraphConstraint "graph_impact_handoffs"), db)
  else let '(inserted, db') := insert_handoff db now revisionID stage hash in (Ok inserted, db').
Definition GraphImpactHandoffStatus (db : GraphDb) (revisionID : ID) (hash : string) : result (option string) GraphError :=
  if negb (ID_Valid revisionID) || negb (hash_shape hash) then Err ErrGraphImpactHandoffInvalid
  else match handoffs db !! (revisionID, "impact"%string, hash) with
       | None => Ok None
       | Some row => Ok (if among (Handoff_Status row) ["queued"; "consumed"; "failed"]%string then Some (Handoff_Status row) else None)
       end.
(** [ORDER BY created_at,revision_id LIMIT ?] *)
Definition pending_handoffs `{TimeText} (db : GraphDb) : list ((ID * string * string) * HandoffRow) :=
  sort_by (then_by (fun e => rfc3339nano (Handoff_CreatedAt e.2)) String.ltb (less_on (fun e => e.1.1.1) String.ltb))
    (List.filter (fun e => among (Handoff_Status e.2) ["queued"; "waiting"]%string) (map_to_list (handoffs db))).
Definition scan_handoff (e : (ID * string * string) * HandoffRow) : result ImpactHandoff GraphError :=
  let h := mkHandoff e.1.1.1 e.1.2 e.1.1.2 in if negb (ImpactHandoff_Valid h) then Err ErrGraphImpactHandoffInvalid else Ok h.
Definition ListQueuedImpactHandoffs `{TimeText} (db : GraphDb) (limit : Z) : result (list ImpactHandoff) GraphError :=
  if (limit <? 1) || (1000 <? limit) then Err ErrGraphImpactHandoffInvalid
  else map_result scan_handoff (take (Z.to_nat limit) (pending_handoffs db)).
Definition SetImpactHandoffState (db : GraphDb) (now : Time) (targetID : ID) (hash status : string) (baseID jobID reportID : ID)
    (safeReason : string) : result unit GraphError * GraphDb :=
  if negb (ID_Valid targetID) || negb (hash_shape hash) || negb (among status ["waiting"; "claimed"; "consumed"; "failed"]%string) ||
     negb (optional_id baseID) || negb (optional_id jobID) || negb (optional_id reportID) || (512 <? string_len safeReason)
  then (Err ErrGraphImpactHandoffInvalid, db)
  else if negb (bool_decide (baseID = EmptyString) || revision_exists db baseID) || negb (job_reference db jobID)
  then (Err (ErrGraphConstraint "graph_impact_handoffs"), db)
  else match handoffs db !! (targetID, "impact"%string, hash) with
       | None => (Err ErrGraphImpactHandoffInvalid, db)
       | Some row =>
           (Ok tt, with_handoffs db (<[(targetID, "impact"%string, hash) :=
              mkHandoffRow status baseID jobID reportID safeReason (Handoff_CreatedAt row) (Some now)]> (handoffs db)))
       end.

(** *** graph_sync_state.go: the two commits *)
(** [UPDATE jobs SET status=... WHERE id=? AND kind='graph_sync' AND status IN (...)]:
    the new job rows, when one row changed. *)
Definition update_job (db : GraphDb) (id : ID) (allowed : list Status) (f : JobRecord -> JobRecord) : option GraphDb :=
  r ← row_of (shared db) id;
  if decide (Kind (Record_Request r) = SharedJobKind /\ Record_Status r ∈ allowed)
  then Some (with_shared db (set_jobs (shared db) (<[id := f r]> (jobs (shared db))))) else None.
Definition graph_result (revisionID : ID) : Job.Result :=
  mkResult "graph_sync" revisionID ("/api/v1/revisions/" +:+ revisionID +:+ "/graph-status")%string.
Definition ready_state (expected : SyncState) : SyncState :=
  mkSync (Sync_RevisionID expected) StateReady (LatestJobID expected) (ExternalTaskID expected) (ProviderRequestID expected)
    (ProviderTaskID expected) (Generation expected + 1) (Sync_SafeError expected) (Sync_Warnings expected).
(** The row keeps the columns the statement does not name. *)
Definition ready_row (row expected : SyncState) : SyncState :=
  mkSync (Sync_RevisionID row) StateReady (LatestJobID row) (ExternalTaskID row) (ProviderRequestID row) (ProviderTaskID row)
    (Generation expected + 1) (Sync_SafeError row) (Sync_Warnings expected).
Definition state_at (db : GraphDb) (expected : SyncState) : option SyncState :=
  row ← sync_states db !! Sync_RevisionID expected; if decide (Generation row.1 = Generation expected) then Some row.1 else None.
Definition finish_ready (db : GraphDb) (now : Time) (row expected : SyncState) (graphHash : string)
    (summary : option ProjectionSummary) (evidence : string) : result GraphDb GraphError :=
  let revisionID := Sync_RevisionID expected in
  let db := with_states db (<[revisionID := (ready_row row expected, now)]> (sync_states db)) in
  let? db := match summary with
             | None => Ok db
             | Some s => let? (_, db) := insertProjectionSummaryTx db now s evidence in Ok db
             end in
  let? db := if bool_decide (LatestJobID expected = EmptyString) then Ok db
             else if negb (ID_Valid (LatestJobID expected)) then Err ErrGraphSyncStateInvalid
             else match update_job db (LatestJobID expected) [Running; Interrupted]
                          (fun r => with_status r Succeeded (Some (graph_result revisionID)) now) with
                  | None => Err ErrGraphJobTransition
                  | Some db => Ok db
                  end in
  Ok (insert_handoff db now revisionID "impact" graphHash).2.
Definition commitGraphReady (db : GraphDb) (now : Time) (expected : SyncState) (graphHash : string) (summary : option ProjectionSummary)
    (evidence : string) : result swap_result GraphError * GraphDb :=
  if negb (Sync_Valid expected) || negb (bool_decide (Pipeline expected = StateBuilding)) || negb (hash_shape graphHash)
  then (Err ErrGraphSyncStateInvalid, db)
  else match state_at db expected with
       | None => (Ok (None, false), db)
       | Some row =>
           match finish_ready db now row expected graphHash summary evidence with
           | Err e => (Err e, db)
           | Ok db' => (Ok (Some (ready_state expected), true), db')
           end
       end.
Definition MarkGraphReady (db : GraphDb) (now : Time) (expected : SyncState) (graphHash : string) : result swap_result GraphError * GraphDb :=
  commitGraphReady db now expected graphHash None "".
Definition CommitGraphReady (db : GraphDb) (now : Time) (expected : SyncState) (summary : ProjectionSummary) (evidence : string) :
    result swap_result GraphError * GraphDb :=
  if negb (ProjectionSummary_Valid summary) || negb (bool_decide (Summary_ProjectID summary = projectID (shared db))) ||
     negb (bool_decide (Summary_RevisionID summary = Sync_RevisionID expected)) || bool_decide (evidence = EmptyString)
  then (Err ErrGraphSyncStateInvalid, db)
  else commitGraphReady db now expected (ManifestHash summary) (Some summary) evidence.

Definition failed_state (expected : SyncState) (safeCode : string) : SyncState :=
  mkSync (Sync_RevisionID expected) StateFailed (LatestJobID expected) (ExternalTaskID expected) (ProviderRequestID expected)
    (ProviderTaskID expected) (Generation expected + 1) safeCode (Sync_Warnings expected).
Definition failed_row (row expected : SyncState) (safeCode : string) : SyncState :=
  mkSync (Sync_RevisionID row) StateFailed (LatestJobID row) (ExternalTaskID row) (ProviderRequestID row) (ProviderTaskID row)
    (Generation expected + 1) safeCode (Sync_Warnings row).
Definition CommitGraphFailure (db : GraphDb) (now : Time) (expected : SyncState) (safeCode : string) : result swap_result GraphError * GraphDb :=
  if negb (Sync_Valid expected) || negb (bool_decide (Pipeline expected = StateQueued) || bool_decide (Pipeline expected = StateBuilding)) ||
     bool_decide (safeCode = EmptyString)
  then (Err ErrGraphSyncStateInvalid, db)
  else
    let next := failed_state expected safeCode in
    if negb (Sync_Valid next) then (Err ErrGraphSyncStateInvalid, db)
    else match state_at db expected with
         | None => (Err ErrGraphSyncStateInvalid, db)
         | Some row =>
             if bool_decide (LatestJobID next = EmptyString) || negb (ID_Valid (LatestJobID next)) then (Err ErrGraphSyncStateInvalid, db)
             else
               let db' := with_states db (<[Sync_RevisionID next := (failed_row row expected safeCode, now)]> (sync_states db)) in
               match update_job db' (LatestJobID next) [Queued; Running; Interrupted] (fun r => with_status r Failed (Record_Result r) now) with
               | None => (Err ErrGraphJobTransition, db)
               | Some db'' => (Ok (Some next, false), db'')
               end
         end.

(** [ORDER BY updated_at,revision_id LIMIT ?] *)
Definition recoverable_states `{TimeText} (db : GraphDb) : list SyncState :=
  fst <$> sort_by (then_by (fun e : SyncState * Time => rfc3339nano e.2) String.ltb (less_on (fun e => Sync_RevisionID e.1) String.ltb))
            (List.filter (fun e => bool_decide (Pipeline e.1 = StateQueued) || bool_decide (Pipeline e.1 = StateBuilding))
               (map_to_list (sync_states db)).*2).
Definition ListRecoverableGraphSyncStates `{TimeText} (db : GraphDb) (limit : Z) : result (list SyncState) GraphError :=
  if (limit <? 1) || (1000 <? limit) then Err ErrGraphSyncStateInvalid
  else map_result scan_state (take (Z.to_nat limit) (recoverable_states db)).

(** ** restore_derived.go: every state starts again after a restore *)
Definition invalidated (now : Time) (row : SyncState * Time) : SyncState * Time :=
  let s := row.1 in
  (mkSync (Sync_RevisionID s) StateSaved "" "" "" "" (Generation s + 1) "" ["RESTORE_PENDING_VERIFICATION"%string], now).
Definition invalidate_states (db : GraphDb) (now : Time) : GraphDb := with_states db (invalidated now <$> sync_states db).
End store.

(** ** Reads of the configuration *)
Section configuration.
Context `{UnicodeTables, ApdLib, UuidLib, FloatText, TimeText}.

Definition of_configuration {A : Type} (r : result A EntityStore.StoreError) : result A GraphError :=
  match r with Ok a => Ok a | Err e => Err (ErrConfiguration e) end.
Definition read_member (blobs : gmap string Entity) (acc : list Entity) (m : ID * EntityStore.ManifestRow) : result (list Entity) GraphError :=
  match blobs !! EntityStore.Member_Blob m.2 with
  | None => Ok acc
  | Some e =>
      if negb (bool_decide (Entity_ID e = m.1)) || negb (EntityVersion e =? EntityStore.Member_Version m.2) ||
         negb (bool_decide (Entity_Status e = EntityStore.Member_Status m.2)) || negb (EntityKind_Valid (Entity_Kind e)) || (SchemaVersion e <? 1)
      then Err ErrGraphProjectionRevisionInvalid else Ok (acc ++ [e])%list
  end.
Definition read_reference (acc : list GraphProjector.Reference) (t : ValidationWalk.ReferenceTuple) : result (list GraphProjector.Reference) GraphError :=
  let r := GraphProjector.mkReference (ValidationWalk.Tuple_SourceID t) (ValidationWalk.Tuple_TargetID t) (ValidationWalk.Tuple_FieldPath t)
             (ValidationWalk.Tuple_Ordinal t) (ValidationWalk.Tuple_ExpectedKind t) in
  if negb (ID_Valid (GraphProjector.Reference_SourceID r)) || negb (ID_Valid (GraphProjector.Reference_TargetID r)) ||
     negb (EntityKind_Valid (GraphProjector.Reference_TargetKind r)) || bool_decide (GraphProjector.Reference_FieldPath r = EmptyString) ||
     (GraphProjector.Reference_Ordinal r <? 0)
  then Err ErrGraphProjectionRevisionInvalid else Ok (acc ++ [r])%list.
(** [ORDER BY source_entity_id,field_path,ordinal] *)
Definition reference_order : ValidationWalk.ReferenceTuple -> ValidationWalk.ReferenceTuple -> bool :=
  then_by ValidationWalk.Tuple_SourceID String.ltb (then_by ValidationWalk.Tuple_FieldPath String.ltb (less_on ValidationWalk.Tuple_Ordinal Z.ltb)).
Definition ReadProjectionRevision (db : GraphDb) (revisionID : ID) : result GraphProjector.Revision GraphError :=
  let c := configuration db in
  if negb (ID_Valid revisionID) || negb (ID_Valid (projectID (shared db))) then Err ErrGraphProjectionRevisionInvalid
  else match EntityStore.config_revisions c !! revisionID with
  | None => Err ErrGraphProjectionRevisionInvalid
  | Some row =>
      let members := sort_by (less_on fst String.ltb) (default [] (EntityStore.revision_entities c !! revisionID)) in
      let references := match EntityStore.derived c !! revisionID with Some d => EntityStore.Derived_References d | None => [] end in
      let? entities := foldr_result (read_member (EntityStore.blobs c)) [] members in
      let? refs := foldr_result read_reference [] (sort_by reference_order references) in
      Ok (GraphProjector.mkRevision (projectID (shared db)) revisionID (EntityStore.Revision_ConfigHash row) entities refs)
  end.

(** bootstrap/graph_sync_runtime.go, app/graph_sync_service.go and
    project/adapters.go: one function three times. *)
Definition registered_version (m : VersionGate.VersionManifest) (capability : string) : string :=
  foldl (fun v e => if bool_decide (VersionGate.Entry_State e = VersionGate.Registered) && bool_decide (VersionGate.Entry_CapabilityID e = capability)
                    then VersionGate.Entry_ImplementationVersion e else v) EmptyString (VersionGate.Entries m).
Definition graphValidationVersions (m : VersionGate.VersionManifest) : option ValidationVersions :=
  let versions := mkVersions (registered_version m "schema") (registered_version m "dsl") (registered_version m "validator-registry")
                    (registered_version m "numeric-policy") in
  if ValidationVersions_Valid versions then Some versions else None.
Definition restoreValidationVersions (m : VersionGate.VersionManifest) : option ValidationVersions :=
  if bool_decide (registered_version m "graph-projector" = EmptyString) then None else graphValidationVersions m.
Definition validation_gate (db : GraphDb) : ID -> string -> ValidationVersions -> result GateResult string :=
  ValidationGate_Check (EntityStore.FindMatchingFullRun (configuration db)).
Definition RunFullValidation (svc : EntityStore.Service) (db : GraphDb) (newID : option ID) (now : Time) (revisionID : ID) :
    result unit GraphError * GraphDb :=
  match EntityStore.RunValidation svc (configuration db) newID now SourceRevision revisionID ScopeFull with
  | Ok (c, _) => (Ok tt, with_configuration db c)
  | Err e => (Err (ErrConfiguration e), db)
  end.
End configuration.
