(* ===== verification/GraphServices.v ===== *)
(** * internal/graph/sync: the services of Graph synchronisation

    worker.go, submission.go, polling.go, ready.go, failure.go, cancellation.go,
    reconciliation.go, status.go, admission.go, pipeline.go, recovery.go,
    recovery_dispatcher.go, shutdown.go, impact.go, and the operations of
    graph_jobs.go that are several transactions.

    A service is a function of the world: the database, the provider, a counter
    of the database accesses and, for the statements only, the log of the calls
    the provider received.  Between two accesses other goroutines may commit
    ([others]); the clock and the fresh identities are read once per access.
    A [nil] port, which every service refuses, is not a value here. *)
From S2P Require Import Prelude GoSort GoStrings GoCrypto GoJson GoFloat Domain JobStore FormulaDecimal DomainEntity.
From S2P Require EntityStore EntityReads VersionGate GraphProjector.
From S2P Require Import ValidationTypes Job GraphSync GraphStore.
Import GraphProjector(ProjectionSummary, ProjectionSummary_Valid, Summary_RevisionID).
Open Scope Z_scope.

Inductive ProviderCall :=
  | CallHealth | CallInspect (namespace version : string) | CallPut (namespace version : string) (request : PutSnapshotRequest)
  | CallTask (id : string).
Record World (P : Type) := mkWorld { db : GraphDb; provider : P; ticks : nat; calls : list ProviderCall }.
Arguments mkWorld {P} db provider ticks calls.
Arguments db {P} w.
Arguments provider {P} w.
Arguments ticks {P} w.
Arguments calls {P} w.

Class Environment := { clock : nat -> Time; fresh : nat -> option ID; others : nat -> GraphDb -> GraphDb }.

(** ** Effects, and their early returns *)
Definition Saga (P A : Type) : Type := World P -> A * World P.
Definition saga_ret {P A : Type} (a : A) : Saga P A := fun w => (a, w).
Definition saga_bind {P A B : Type} (m : Saga P A) (f : A -> Saga P B) : Saga P B := fun w => let '(a, w') := m w in f a w'.
(** [if err != nil { return ..., err }] *)
Definition saga_try {P A B E : Type} (m : Saga P (result A E)) (f : A -> Saga P (result B E)) : Saga P (result B E) :=
  saga_bind m (fun r => match r with Ok a => f a | Err e => saga_ret (Err e) end).
Declare Scope saga_scope.
Delimit Scope saga_scope with saga.
Notation "'let*' x := m 'in' k" :=
  (saga_bind m (fun x => k)) (at level 10, x pattern, m at level 100, k at level 200) : saga_scope.
Notation "'let*?' x := m 'in' k" :=
  (saga_try m (fun x => k)) (at level 10, x pattern, m at level 100, k at level 200) : saga_scope.
Open Scope saga_scope.

Section effects.
Context {P : Type} `{GraphProvider P, Environment}.

(** One database access, after whatever the others have committed. *)
Definition access {A : Type} (f : GraphDb -> Time -> option ID -> A * GraphDb) : Saga P A :=
  fun w => let '(a, d) := f (others (ticks w) (db w)) (clock (ticks w)) (fresh (ticks w)) in
           (a, mkWorld d (provider w) (S (ticks w)) (calls w)).
Definition read {A : Type} (f : GraphDb -> A) : Saga P A := access (fun d _ _ => (f d, d)).
Definition call {A : Type} (c : ProviderCall) (f : P -> result A ProviderFailure * P) : Saga P (result A GraphError) :=
  fun w => let '(r, p) := f (provider w) in
           (match r with Ok a => Ok a | Err e => Err (ErrProvider e) end, mkWorld (db w) p (ticks w) (calls w ++ [c])%list).
(** A loop over a list that stops at the first error. *)
Fixpoint saga_each {A E : Type} (f : A -> Saga P (result unit E)) (l : list A) : Saga P (result unit E) :=
  match l with [] => saga_ret (Ok tt) | a :: l => let*? _ := f a in saga_each f l end.
End effects.

Section services.
Context {P : Type} `{GraphProvider P, Environment, UuidLib}.

(** ** storage/sqlite/graph_jobs.go *)
Definition get_job (id : ID) : Saga P (result GraphJob GraphError) := read (fun d => GetGraphJob d id).
Definition TransitionGraphJob (id : ID) (expected next : Status) (res : option Job.Result) : Saga P (result (option GraphJob * bool) GraphError) :=
  if negb (ID_Valid id) || negb (Status_Valid expected) || negb (Status_Valid next) || negb (option_forallb Result_Valid res) ||
     (bool_decide (next = Succeeded) && bool_decide (res = None))
  then saga_ret (Err ErrGraphJobTransition)
  else if bool_decide (expected = next) && Terminal next then
    let*? job := get_job id in
    saga_ret (Ok (if negb (bool_decide (GJob_Status job = next)) || negb (sameGraphJobResult (GJob_Result job) res)
                  then (None, false) else (Some job, true)))
  else if negb (JobStatus_CanTransitionTo expected next) then saga_ret (Err ErrGraphJobTransition)
  else
    let* found := read (fun d => GetJob (shared d) id) in
    match found with
    | Err _ => saga_ret (Err ErrGraphJobNotFound)
    | Ok record =>
        if negb (bool_decide (Kind (Record_Request record) = SharedJobKind)) then saga_ret (Err ErrGraphJobNotFound)
        else
          let*? (_, updated) := access (fun d now _ =>
            let '(r, s) := Transition (shared d) now id expected next res (CancelGeneration record) in (shared_error r, with_shared d s)) in
          if negb updated then saga_ret (Ok (None, false))
          else let*? job := get_job id in saga_ret (Ok (Some job, true))
    end.
(** The job is the zero one where the second component is [None]. *)
Definition RequestGraphCancellation (id : ID) : Saga P (result (option GraphJob * bool) GraphError) :=
  let* r := access (fun d now _ => let '(r, s) := RequestCancellation (shared d) now id in (r, with_shared d s)) in
  match r with
  | Err ErrJobNotFound => saga_ret (Err ErrGraphJobNotFound)
  | Err e => saga_ret (Err (ErrSharedJob e))
  | Ok (record, replay) =>
      if negb (bool_decide (Kind (Record_Request record) = SharedJobKind)) then saga_ret (Ok (None, false))
      else let*? job := get_job (Record_ID record) in saga_ret (Ok (Some job, replay))
  end.
Definition list_events (id : ID) (after : Z) : Saga P (result (list GraphJobEvent) GraphError) := read (fun d => ListGraphJobEvents d id after).
Definition shared_event (e : GraphJobEvent) (createdAt : Time) : Event :=
  mkEvent (GEvent_JobID e) (GEvent_Ordinal e) (phase_text (GEvent_Phase e)) (GEvent_Progress e) (GEvent_Warning e) (GEvent_SafeError e)
    (GEvent_Result e) createdAt.
(** The check against the last event of the job's history. *)
Definition follows_history (history : list GraphJobEvent) (e : GraphJobEvent) : bool :=
  match last history with
  | None => true
  | Some previous =>
      negb ((GEvent_Ordinal previous <? GEvent_Ordinal e) &&
            ((GEvent_Progress e <? GEvent_Progress previous) || negb (Phase_CanAdvanceTo (GEvent_Phase previous) (GEvent_Phase e))))
  end.
Definition AppendGraphJobEvent (e : GraphJobEvent) : Saga P (result (GraphJobEvent * bool) GraphError) :=
  if negb (GraphJobEvent_Valid e) then saga_ret (Err ErrGraphJobEvent)
  else
    let*? history := list_events (GEvent_JobID e) 0 in
    if negb (follows_history history e) then saga_ret (Err ErrGraphJobEvent)
    else
      let*? previous := read (fun d => shared_error (ListEvents (shared d) (GEvent_JobID e) (GEvent_Ordinal e - 1))) in
      let* now := access (fun d now _ => (now, d)) in
      let replayed := match previous with p :: _ => Ordinal p =? GEvent_Ordinal e | [] => false end in
      let createdAt := match previous with p :: _ => if Ordinal p =? GEvent_Ordinal e then Event_CreatedAt p else now | [] => now end in
      if negb replayed && match last previous with Some p => GEvent_Progress e <? Progress p | None => false end
      then saga_ret (Err ErrGraphJobEvent)
      else
        let* r := access (fun d _ _ => let '(r, s) := Append (shared d) (shared_event e createdAt) in (r, with_shared d s)) in
        saga_ret match r with
                 | Ok (stored, replay) => Ok (graphEventFromShared stored, replay)
                 | Err ErrJobEvent => Err ErrGraphJobEvent
                 | Err ErrJobNotFound => Err ErrGraphJobNotFound
                 | Err e => Err (ErrSharedJob e)
                 end.

(** ** worker.go *)
Definition sameCheckpoint (left right : GraphJobEvent) : bool := bool_decide (left = right).
Definition Checkpoint (jobID : ID) (phase : WorkerPhase) (progress : Z) (warning safeError : string) (res : option Job.Result) :
    Saga P (result (GraphJobEvent * bool) GraphError) :=
  if negb (ID_Valid jobID) || negb (Phase_Valid phase) then saga_ret (Err ErrWorkerCheckpoint)
  else
    let*? job := get_job jobID in
    if negb (bool_decide (GJob_Status job = Running)) &&
       negb (bool_decide (GJob_Status job = Succeeded) && (bool_decide (phase = PhaseReady) || bool_decide (phase = PhaseImpactHandoffRecorded)))
    then saga_ret (Err ErrWorkerCheckpoint)
    else
      let*? events := list_events jobID 0 in
      match last events with
      | None =>
          if negb (bool_decide (phase = PhaseQueued)) then saga_ret (Err ErrWorkerCheckpoint)
          else AppendGraphJobEvent (mkGraphEvent jobID 1 phase progress warning safeError res)
      | Some previous =>
          if bool_decide (GEvent_Phase previous = phase) then
            let e := mkGraphEvent jobID (GEvent_Ordinal previous) phase progress warning safeError res in
            saga_ret (if sameCheckpoint previous e then Ok (previous, true) else Err ErrWorkerCheckpoint)
          else if negb (Phase_CanAdvanceTo (GEvent_Phase previous) phase) || (progress <? GEvent_Progress previous)
          then saga_ret (Err ErrWorkerCheckpoint)
          else AppendGraphJobEvent (mkGraphEvent jobID (GEvent_Ordinal previous + 1) phase progress warning safeError res)
      end.
Definition checkpoint (jobID : ID) (phase : WorkerPhase) (progress : Z) : Saga P (result (GraphJobEvent * bool) GraphError) :=
  Checkpoint jobID phase progress "" "" None.
Definition Start (jobID : ID) : Saga P (result (GraphJobEvent * bool) GraphError) :=
  if negb (ID_Valid jobID) then saga_ret (Err ErrWorkerCheckpoint)
  else
    let*? job := get_job jobID in
    let*? job := if negb (bool_decide (GJob_Status job = Queued)) then saga_ret (Ok job)
                 else let*? (updated, swapped) := TransitionGraphJob jobID Queued Running None in
                      match updated with
                      | Some job => if swapped : bool then saga_ret (Ok job) else get_job jobID
                      | None => get_job jobID
                      end in
    if negb (bool_decide (GJob_Status job = Running)) then saga_ret (Err ErrWorkerCheckpoint)
    else checkpoint jobID PhaseQueued 0.
Definition RunEffect (jobID : ID) (before : WorkerPhase) (beforeProgress : Z) (after : WorkerPhase) (afterProgress : Z)
    (effect : Saga P (result unit GraphError)) : Saga P (result unit GraphError) :=
  let*? _ := checkpoint jobID before beforeProgress in
  let*? _ := effect in
  let*? _ := checkpoint jobID after afterProgress in
  saga_ret (Ok tt).

(** ** The state store, and [state, found, err := ...; if err != nil || !found] *)
Definition get_state (revisionID : ID) : Saga P (result (option SyncState) GraphError) := read (fun d => GetGraphSyncState d revisionID).
Definition found_state (r : result (option SyncState) GraphError) : option SyncState := match r with Ok (Some s) => Some s | _ => None end.
Definition swap (expected next : SyncState) : Saga P (result swap_result GraphError) :=
  access (fun d now _ => CompareAndSwapGraphSyncState d now expected next).
Definition with_pipeline (s : SyncState) (p : PipelineState) (safeError : string) : SyncState :=
  mkSync (Sync_RevisionID s) p (LatestJobID s) (ExternalTaskID s) (ProviderRequestID s) (ProviderTaskID s) (Generation s + 1) safeError (Sync_Warnings s).
Definition with_task (s : SyncState) (request task : string) : SyncState :=
  mkSync (Sync_RevisionID s) (Pipeline s) (LatestJobID s) task request task (Generation s + 1) (Sync_SafeError s) (Sync_Warnings s).
Definition with_warnings (s : SyncState) (warnings : list string) : SyncState :=
  mkSync (Sync_RevisionID s) (Pipeline s) (LatestJobID s) (ExternalTaskID s) (ProviderRequestID s) (ProviderTaskID s) (Generation s)
    (Sync_SafeError s) warnings.
Definition with_job (s : SyncState) (jobID : ID) : SyncState :=
  mkSync (Sync_RevisionID s) StateQueued jobID (ExternalTaskID s) (ProviderRequestID s) (ProviderTaskID s) (Generation s + 1) (Sync_SafeError s)
    (Sync_Warnings s).

(** ** submission.go *)
Record SubmissionRequest := mkSubmission {
  Submit_JobID : ID; Submit_RevisionID : ID; Submit_Namespace : string; Submit_Version : string; Submit_Snapshot : PutSnapshotRequest;
  Submit_RequestID : string; Resubmission : bool
}.
Definition put_snapshot (namespace version : string) (snapshot : PutSnapshotRequest) (requestID : string) : Saga P (result Snapshot GraphError) :=
  call (CallPut namespace version snapshot) (PutSnapshot namespace version snapshot requestID).
Definition Submit (r : SubmissionRequest) : Saga P (result swap_result GraphError) :=
  let blank s := bool_decide (TrimSpace s = EmptyString) in
  if negb (ID_Valid (Submit_JobID r)) || negb (ID_Valid (Submit_RevisionID r)) || blank (Submit_Namespace r) || blank (Submit_Version r) ||
     blank (Submit_RequestID r) || negb (bool_decide (Put_SchemaVersion (Submit_Snapshot r) = SnapshotSchemaVersion)) ||
     negb (hash_shape (Put_ContentHash (Submit_Snapshot r)))
  then saga_ret (Err ErrSubmissionInvalid)
  else
    let acceptedProgress := if Resubmission r then 80 else 60 in
    let* found := get_state (Submit_RevisionID r) in
    match found_state found with
    | None => saga_ret (Err ErrSubmissionInvalid)
    | Some state =>
        if negb (bool_decide (Pipeline state = StateBuilding)) || negb (bool_decide (LatestJobID state = Submit_JobID r))
        then saga_ret (Err ErrSubmissionInvalid)
        else if negb (bool_decide (ProviderTaskID state = EmptyString)) || negb (bool_decide (ExternalTaskID state = EmptyString)) then
          if bool_decide (ProviderTaskID state = EmptyString) || bool_decide (ExternalTaskID state = EmptyString) ||
             negb (bool_decide (ProviderRequestID state = Submit_RequestID r))
          then saga_ret (Err ErrSubmissionInvalid)
          else let*? _ := checkpoint (Submit_JobID r) PhaseTaskAccepted acceptedProgress in saga_ret (Ok (Some state, true))
        else
          let*? _ := checkpoint (Submit_JobID r) PhaseSubmitting (if Resubmission r then 75 else 50) in
          let*? snapshot := put_snapshot (Submit_Namespace r) (Submit_Version r) (Submit_Snapshot r) (Submit_RequestID r) in
          if negb (bool_decide (Snap_Namespace snapshot = Submit_Namespace r)) || negb (bool_decide (Snap_Version snapshot = Submit_Version r)) ||
             negb (bool_decide (Snap_ContentHash snapshot = Put_ContentHash (Submit_Snapshot r))) || blank (Snap_TaskID snapshot)
          then saga_ret (Err ErrSubmissionInvalid)
          else
            let*? (updated, swapped) := swap state (with_task state (Submit_RequestID r) (Snap_TaskID snapshot)) in
            if negb swapped then saga_ret (Ok (None, false))
            else let*? _ := checkpoint (Submit_JobID r) PhaseTaskAccepted acceptedProgress in saga_ret (Ok (updated, false))
    end.

(** ** polling.go *)
Record PollingRequest := mkPolling {
  Poll_JobID : ID; Poll_RevisionID : ID; Poll_Namespace : string; Poll_Version : string; Poll_Expectation : SnapshotExpectation;
  Poll_RequestID : string
}.
Definition inspect (namespace version requestID : string) : Saga P (result Snapshot GraphError) :=
  call (CallInspect namespace version) (InspectSnapshot namespace version requestID).
Definition Poll (r : PollingRequest) : Saga P (result (Task * option SnapshotVerification) GraphError) :=
  if negb (ID_Valid (Poll_JobID r)) || negb (ID_Valid (Poll_RevisionID r)) || bool_decide (Poll_Namespace r = EmptyString) ||
     bool_decide (Poll_Version r = EmptyString) || bool_decide (Poll_RequestID r = EmptyString)
  then saga_ret (Err ErrPollingInvalid)
  else
    let* found := get_state (Poll_RevisionID r) in
    match found_state found with
    | None => saga_ret (Err ErrPollingInvalid)
    | Some state =>
        if negb (bool_decide (Pipeline state = StateBuilding)) || negb (bool_decide (LatestJobID state = Poll_JobID r)) ||
           bool_decide (ProviderTaskID state = EmptyString)
        then saga_ret (Err ErrPollingInvalid)
        else
          let*? _ := checkpoint (Poll_JobID r) PhasePolling 70 in
          let*? task := call (CallTask (ProviderTaskID state)) (GetTask (ProviderTaskID state) (Poll_RequestID r)) in
          if negb (bool_decide (Task_ID task = ProviderTaskID state)) || negb (bool_decide (Task_Namespace task = Poll_Namespace r)) ||
             negb (bool_decide (Task_SnapshotVersion task = Poll_Version r))
          then saga_ret (Err ErrPollingInvalid)
          else if among (Task_State task) ["queued"; "running"; "failed"]%string then saga_ret (Ok (task, None))
          else if negb (bool_decide (Task_State task = "succeeded"%string)) then saga_ret (Err ErrPollingInvalid)
          else
            let*? _ := checkpoint (Poll_JobID r) PhaseVerifying 85 in
            let*? snapshot := inspect (Poll_Namespace r) (Poll_Version r) (Poll_RequestID r) in
            saga_ret (Ok (task, Some (VerifySnapshot (Poll_Expectation r) snapshot)))
    end.

(** ** ready.go *)
Definition ReadyService_Commit (jobID revisionID : ID) (summary : ProjectionSummary) (evidence : string) (verification : SnapshotVerification) :
    Saga P (result swap_result GraphError) :=
  if negb (ID_Valid jobID) || negb (ID_Valid revisionID) || negb (ProjectionSummary_Valid summary) ||
     negb (bool_decide (Summary_RevisionID summary = revisionID)) || bool_decide (evidence = EmptyString) || negb (Verified_Ready verification)
  then saga_ret (Err ErrReadyCommitInvalid)
  else
    let* found := get_state revisionID in
    match found_state found with
    | None => saga_ret (Err ErrReadyCommitInvalid)
    | Some state =>
        if negb (bool_decide (Pipeline state = StateBuilding)) || negb (bool_decide (LatestJobID state = jobID))
        then saga_ret (Err ErrReadyCommitInvalid)
        else
          let state := with_warnings state (Verified_Warnings verification) in
          let*? ready := access (fun d now _ => CommitGraphReady d now state summary evidence) in
          let*? _ := checkpoint jobID PhaseReady 95 in
          let*? _ := checkpoint jobID PhaseImpactHandoffRecorded 100 in
          saga_ret (Ok ready)
    end.

(** ** failure.go *)
Definition Fail (jobID revisionID : ID) (safeCode : string) : Saga P (result swap_result GraphError) :=
  if negb (ID_Valid jobID) || negb (ID_Valid revisionID) || bool_decide (safeCode = EmptyString) || negb (safeDiagnostic safeCode)
  then saga_ret (Err ErrFailureInvalid)
  else
    let* found := get_state revisionID in
    match found_state found with
    | None => saga_ret (Err ErrFailureInvalid)
    | Some state =>
        if negb (bool_decide (LatestJobID state = jobID)) then saga_ret (Err ErrFailureInvalid)
        else if bool_decide (Pipeline state = StateFailed) then
          saga_ret (if bool_decide (Sync_SafeError state = safeCode) then Ok (Some state, true) else Err ErrFailureInvalid)
        else if negb (bool_decide (Pipeline state = StateQueued)) && negb (bool_decide (Pipeline state = StateBuilding))
        then saga_ret (Err ErrFailureInvalid)
        else access (fun d now _ => CommitGraphFailure d now state safeCode)
    end.
Definition FailProviderTask (jobID revisionID : ID) (task : Task) : Saga P (result swap_result GraphError) :=
  match Task_Error task with
  | None => saga_ret (Err ErrFailureInvalid)
  | Some e =>
      if negb (bool_decide (Task_State task = "failed"%string)) || bool_decide (Error_Code e = EmptyString)
      then saga_ret (Err ErrFailureInvalid)
      else
        let* found := get_state revisionID in
        match found_state found with
        | None => saga_ret (Err ErrFailureInvalid)
        | Some state =>
            if bool_decide (ProviderTaskID state = EmptyString) || negb (bool_decide (Task_ID task = ProviderTaskID state))
            then saga_ret (Err ErrFailureInvalid)
            else Fail jobID revisionID (Error_Code e)
        end
  end.

(** ** cancellation.go *)
Definition Cancel (jobID : ID) : Saga P (result (GraphJob * bool) GraphError) :=
  if negb (ID_Valid jobID) then saga_ret (Err ErrCancellationInvalid)
  else
    let*? job := get_job jobID in
    let* found := get_state (GJob_RevisionID job) in
    match found_state found with
    | None => saga_ret (Err ErrCancellationInvalid)
    | Some state =>
        if negb (bool_decide (LatestJobID state = GJob_ID job)) then saga_ret (Err ErrCancellationInvalid)
        else
          let accepted := negb (bool_decide (ExternalTaskID state = EmptyString)) || negb (bool_decide (ProviderTaskID state = EmptyString)) in
          let next := if accepted then Interrupted else Canceled in
          if bool_decide (GJob_Status job = next) then saga_ret (Ok (job, true))
          else if negb (bool_decide (GJob_Status job = Queued)) && negb (bool_decide (GJob_Status job = Running))
          then saga_ret (Err ErrCancellationInvalid)
          else
            let*? (requested, _) := RequestGraphCancellation jobID in
            match requested with
            | None => saga_ret (Err ErrGraphJobTransition)
            | Some job =>
                let*? (updated, swapped) := TransitionGraphJob (GJob_ID job) (GJob_Status job) next None in
                match updated, swapped with
                | Some updated, true => saga_ret (Ok (updated, false))
                | _, _ =>
                    let* current := get_job (GJob_ID job) in
                    saga_ret match current with
                             | Ok current => if bool_decide (GJob_Status current = next) then Ok (current, true) else Err ErrCancellationInvalid
                             | Err _ => Err ErrCancellationInvalid
                             end
                end
            end
    end.

(** ** reconciliation.go *)
Record ReconciliationRequest := mkReconciliation {
  Rec_JobID : ID; Rec_RevisionID : ID; Rec_Namespace : string; Rec_Version : string; Rec_Expectation : SnapshotExpectation;
  Rec_Snapshot : PutSnapshotRequest; Rec_RequestID : string
}.
Definition no_decision : ReconciliationDecision := mkDecision false false no_verification.
(** The decision beside the error. *)
Definition ReconcileTaskNotFound (r : ReconciliationRequest) (taskErr : GraphError) : Saga P (ReconciliationDecision * option GraphError) :=
  let refuse := saga_ret (no_decision, Some ErrReconciliationInvalid) in
  if negb (ID_Valid (Rec_JobID r)) || negb (ID_Valid (Rec_RevisionID r)) || bool_decide (Rec_Namespace r = EmptyString) ||
     bool_decide (Rec_Version r = EmptyString) || bool_decide (Rec_RequestID r = EmptyString) ||
     negb (bool_decide (Expect_Namespace (Rec_Expectation r) = Rec_Namespace r)) ||
     negb (bool_decide (Expect_Version (Rec_Expectation r) = Rec_Version r)) ||
     negb (bool_decide (Expect_ContentHash (Rec_Expectation r) = Put_ContentHash (Rec_Snapshot r))) ||
     negb (bool_decide (Put_SchemaVersion (Rec_Snapshot r) = SnapshotSchemaVersion)) ||
     negb match taskErr with ErrProvider f => isProviderErrorCode f "TASK_NOT_FOUND" | _ => false end
  then refuse
  else
    let* found := get_state (Rec_RevisionID r) in
    match found_state found with
    | None => refuse
    | Some state =>
        if negb (bool_decide (Pipeline state = StateBuilding)) || negb (bool_decide (LatestJobID state = Rec_JobID r)) ||
           bool_decide (ProviderTaskID state = EmptyString)
        then refuse
        else
          let* inspected := inspect (Rec_Namespace r) (Rec_Version r) (Rec_RequestID r) in
          let target := match inspected with
                        | Ok s => Ok (Some s)
                        | Err (ErrProvider f) => if isProviderErrorCode f "SNAPSHOT_NOT_FOUND" then Ok None else Err (ErrProvider f)
                        | Err e => Err e
                        end in
          match target with
          | Err e => saga_ret (no_decision, Some e)
          | Ok target =>
              let '(decision, good) := ReconcileMissingTask (Rec_Expectation r) target in
              if negb good then saga_ret (decision, Some ErrReconciliationInvalid)
              else if AcceptExisting decision then
                let* checked := checkpoint (Rec_JobID r) PhaseVerifying 85 in
                saga_ret match checked with Ok _ => (decision, None) | Err e => (no_decision, Some e) end
              else
                let next := mkSync (Sync_RevisionID state) (Pipeline state) (LatestJobID state) "" (ProviderRequestID state) ""
                              (Generation state + 1) (Sync_SafeError state) (Sync_Warnings state) in
                let* swapped := swap state next in
                match swapped with
                | Err e => saga_ret (no_decision, Some e)
                | Ok (_, false) => saga_ret (no_decision, None)
                | Ok (_, true) =>
                    let* submitted := Submit (mkSubmission (Rec_JobID r) (Rec_RevisionID r) (Rec_Namespace r) (Rec_Version r)
                                        (Rec_Snapshot r) (Rec_RequestID r) true) in
                    saga_ret match submitted with Ok _ => (decision, None) | Err e => (no_decision, Some e) end
                end
          end
    end.

(** ** status.go: [PipelineMapper] *)
Definition confirm_state (revisionID : ID) (p : PipelineState) (safeError : string) : Saga P (result (SyncState * bool) GraphError) :=
  let* latest := get_state revisionID in
  saga_ret match found_state latest with
           | Some latest => if bool_decide (Pipeline latest = p) && bool_decide (Sync_SafeError latest = safeError)
                            then Ok (latest, true) else Err ErrPipelineMapping
           | None => Err ErrPipelineMapping
           end.
(** The CAS and the read after a lost one. *)
Definition move_state (revisionID : ID) (state : SyncState) (p : PipelineState) (safeError : string) : Saga P (result (SyncState * bool) GraphError) :=
  let*? (updated, swapped) := swap state (with_pipeline state p safeError) in
  match updated, swapped with
  | Some updated, true => saga_ret (Ok (updated, false))
  | _, _ => confirm_state revisionID p safeError
  end.
Definition MarkFailed (revisionID : ID) (safeError : string) : Saga P (result (SyncState * bool) GraphError) :=
  if negb (ID_Valid revisionID) || bool_decide (safeError = EmptyString) then saga_ret (Err ErrPipelineMapping)
  else
    let* found := get_state revisionID in
    match found_state found with
    | None => saga_ret (Err ErrPipelineMapping)
    | Some state =>
        if bool_decide (Pipeline state = StateFailed)
        then saga_ret (if bool_decide (Sync_SafeError state = safeError) then Ok (state, true) else Err ErrPipelineMapping)
        else if negb (bool_decide (Pipeline state = StateQueued)) && negb (bool_decide (Pipeline state = StateBuilding))
        then saga_ret (Err ErrPipelineMapping)
        else move_state revisionID state StateFailed safeError
    end.
Definition transition (revisionID : ID) (from to : PipelineState) (safeError : string) : Saga P (result (SyncState * bool) GraphError) :=
  if negb (ID_Valid revisionID) then saga_ret (Err ErrPipelineMapping)
  else
    let* found := get_state revisionID in
    match found_state found with
    | None => saga_ret (Err ErrPipelineMapping)
    | Some state =>
        if bool_decide (Pipeline state = to) then saga_ret (Ok (state, true))
        else if negb (bool_decide (Pipeline state = from)) then saga_ret (Err ErrPipelineMapping)
        else move_state revisionID state to safeError
    end.
Definition MarkBuilding (revisionID : ID) : Saga P (result (SyncState * bool) GraphError) := transition revisionID StateQueued StateBuilding "".

(** ** recovery.go *)
Record RecoveryWork := mkWork { Work_Job : GraphJob; Work_State : SyncState; LastCheckpoint : option GraphJobEvent }.
Record RecoveryDispatcher := mkDispatcher {
  ResumeGraphJob : RecoveryWork -> Saga P (result unit GraphError);
  ReconcileInterruptedGraphJob : RecoveryWork -> Saga P (result unit GraphError)
}.
Inductive RecoveryAction := RecoveryResumed | RecoveryReconciled | RecoveryNotEligible.
Definition in_flight (s : SyncState) : bool := bool_decide (Pipeline s = StateQueued) || bool_decide (Pipeline s = StateBuilding).
Definition recoverOne (d : RecoveryDispatcher) (state : SyncState) : Saga P (result (ID * RecoveryAction) GraphError) :=
  if negb (Sync_Valid state) || negb (ID_Valid (Sync_RevisionID state)) || negb (ID_Valid (LatestJobID state)) || negb (in_flight state)
  then saga_ret (Err ErrRecoveryInvalid)
  else
    let*? job := get_job (LatestJobID state) in
    if negb (GraphJob_Valid job) || negb (bool_decide (GJob_RevisionID job = Sync_RevisionID state))
    then saga_ret (Err ErrRecoveryInvalid)
    else
      let*? events := list_events (GJob_ID job) 0 in
      let work := mkWork job state (last events) in
      match GJob_Status job with
      | Queued | Running =>
          let*? _ := ResumeGraphJob d work in saga_ret (Ok (GJob_ID job, RecoveryResumed))
      | Interrupted =>
          if bool_decide (ProviderTaskID state = EmptyString) || bool_decide (ExternalTaskID state = EmptyString) ||
             negb (bool_decide (ProviderTaskID state = ExternalTaskID state))
          then saga_ret (Ok (GJob_ID job, RecoveryNotEligible))
          else let*? _ := ReconcileInterruptedGraphJob d work in saga_ret (Ok (GJob_ID job, RecoveryReconciled))
      | _ => saga_ret (Ok (GJob_ID job, RecoveryNotEligible))
      end.
(** The results so far beside the error. *)
Fixpoint recover_all (d : RecoveryDispatcher) (states : list SyncState) (results : list (ID * RecoveryAction)) :
    Saga P (list (ID * RecoveryAction) * option GraphError) :=
  match states with
  | [] => saga_ret (results, None)
  | state :: states =>
      let* r := recoverOne d state in
      match r with Err e => saga_ret (results, Some e) | Ok action => recover_all d states (results ++ [action])%list end
  end.
Definition effective_limit (limit : Z) : Z := if limit =? 0 then 100 else limit.
Definition Recover `{TimeText} (d : RecoveryDispatcher) (limit : Z) : Saga P (list (ID * RecoveryAction) * option GraphError) :=
  let limit := effective_limit limit in
  if (limit <? 1) || (1000 <? limit) then saga_ret ([], Some ErrRecoveryInvalid)
  else
    let* states := read (fun d => ListRecoverableGraphSyncStates d limit) in
    match states with Err e => saga_ret ([], Some e) | Ok states => recover_all d states [] end.

(** ** recovery_dispatcher.go *)
Record RecoveryResumer := mkResumer {
  ResolveGraphRecovery : RecoveryWork -> Saga P (result (PollingRequest * ReconciliationRequest) GraphError);
  ResumeUnsubmittedGraphJob : RecoveryWork -> Saga P (result unit GraphError);
  ObserveRecoveredTask : RecoveryWork -> Task * option SnapshotVerification -> Saga P (result unit GraphError)
}.
Definition pollOriginal (r : RecoveryResumer) (work : RecoveryWork) : Saga P (result unit GraphError) :=
  let*? (polling, reconciliation) := ResolveGraphRecovery r work in
  let* polled := Poll polling in
  match polled with
  | Err (ErrProvider f) =>
      if isProviderErrorCode f "TASK_NOT_FOUND" then
        let* (_, e) := ReconcileTaskNotFound reconciliation (ErrProvider f) in
        saga_ret match e with None => Ok tt | Some e => Err e end
      else saga_ret (Err (ErrProvider f))
  | Err e => saga_ret (Err e)
  | Ok (task, verification) =>
      if negb (bool_decide (Task_ID task = ProviderTaskID (Work_State work))) || negb (HasContractState task)
      then saga_ret (Err ErrRecoveryInvalid) else ObserveRecoveredTask r work (task, verification)
  end.
Definition same_task (s : SyncState) : bool :=
  negb (bool_decide (ProviderTaskID s = EmptyString)) && bool_decide (ProviderTaskID s = ExternalTaskID s).
Definition durable_resume (r : RecoveryResumer) (work : RecoveryWork) : Saga P (result unit GraphError) :=
  let s := Work_State work in
  if bool_decide (ProviderTaskID s = EmptyString) && bool_decide (ExternalTaskID s = EmptyString) then ResumeUnsubmittedGraphJob r work
  else if negb (same_task s) then saga_ret (Err ErrRecoveryInvalid) else pollOriginal r work.
Definition durable_reconcile (r : RecoveryResumer) (work : RecoveryWork) : Saga P (result unit GraphError) :=
  if negb (same_task (Work_State work)) then saga_ret (Err ErrRecoveryInvalid) else pollOriginal r work.
Definition DurableRecoveryDispatcher (r : RecoveryResumer) : RecoveryDispatcher := mkDispatcher (durable_resume r) (durable_reconcile r).

(** ** shutdown.go *)
Definition interrupt_running (state : SyncState) : Saga P (result unit GraphError) :=
  let*? job := get_job (LatestJobID state) in
  if negb (bool_decide (GJob_Status job = Running)) then saga_ret (Ok tt)
  else
    let*? (requested, _) := RequestGraphCancellation (GJob_ID job) in
    match requested with
    | None => saga_ret (Err ErrGraphJobTransition)
    | Some job =>
        let*? (_, changed) := TransitionGraphJob (GJob_ID job) Running Interrupted None in
        saga_ret (if changed : bool then Ok tt else Err ErrCancellationInvalid)
    end.
Definition PrepareShutdown `{TimeText} (limit : Z) : Saga P (result unit GraphError) :=
  let limit := effective_limit limit in
  if (limit <? 1) || (1000 <? limit) then saga_ret (Err ErrCancellationInvalid)
  else let*? states := read (fun d => ListRecoverableGraphSyncStates d limit) in saga_each interrupt_running states.

(** ** impact.go *)
Definition ImpactScheduler : Type := ImpactHandoff -> Saga P (result unit GraphError).
Definition Dispatch (scheduler : option ImpactScheduler) (handoff : ImpactHandoff) : Saga P (result bool GraphError) :=
  if negb (ImpactHandoff_Valid handoff) then saga_ret (Err ErrImpactHandoffInvalid)
  else match scheduler with
       | None => saga_ret (Ok false)
       | Some enqueue => let*? _ := enqueue handoff in saga_ret (Ok true)
       end.
Fixpoint dispatch_all (scheduler : option ImpactScheduler) (handoffs : list ImpactHandoff) (results : list (ImpactHandoff * bool)) :
    Saga P (list (ImpactHandoff * bool) * option GraphError) :=
  match handoffs with
  | [] => saga_ret (results, None)
  | handoff :: handoffs =>
      let* r := Dispatch scheduler handoff in
      match r with Err e => saga_ret (results, Some e) | Ok d => dispatch_all scheduler handoffs (results ++ [(handoff, d)])%list end
  end.
Definition ImpactRecovery_Recover `{TimeText} (scheduler : option ImpactScheduler) (limit : Z) :
    Saga P (list (ImpactHandoff * bool) * option GraphError) :=
  let limit := effective_limit limit in
  if (limit <? 1) || (1000 <? limit) then saga_ret ([], Some ErrImpactHandoffInvalid)
  else
    let* handoffs := read (fun d => ListQueuedImpactHandoffs d limit) in
    match handoffs with Err e => saga_ret ([], Some e) | Ok handoffs => dispatch_all scheduler handoffs [] end.
End services.

(** ** admission.go and pipeline.go, over the validation gate of the store *)
Section pipeline.
Context {P : Type} `{GraphProvider P, Environment, UnicodeTables, ApdLib, UuidLib, FloatText, TimeText}.
Context (svc : EntityStore.Service).

Definition gate_check (revisionID : ID) (configHash : string) (versions : ValidationVersions) : Saga P (result GateResult string) :=
  read (fun d => validation_gate d revisionID configHash versions).
Definition RequireFullValidation (revisionID : ID) (configHash : string) (versions : ValidationVersions) : Saga P (result unit GraphError) :=
  if negb (ID_Valid revisionID) || bool_decide (configHash = EmptyString) || negb (ValidationVersions_Valid versions)
  then saga_ret (Err ErrAdmissionNotPassed)
  else
    let* r := gate_check revisionID configHash versions in
    saga_ret match r with Ok GatePass => Ok tt | _ => Err ErrAdmissionNotPassed end.
Definition create_job (request : GraphJobRequest) : Saga P (result (GraphJob * bool) GraphError) :=
  access (fun d now newID => CreateOrGetGraphJob d now newID request).
Definition Admit (request : GraphJobRequest) (versions : ValidationVersions) : Saga P (result (GraphJob * bool) GraphError) :=
  if negb (GraphJobRequest_Valid request) then saga_ret (Err ErrAdmissionNotPassed)
  else let*? _ := RequireFullValidation (GRequest_RevisionID request) (GRequest_InputHash request) versions in create_job request.
Definition AdmitRetry (previous : GraphJob) (idempotencyKey : string) (versions : ValidationVersions) : Saga P (result (GraphJob * bool) GraphError) :=
  match RetryGraphJobRequest previous idempotencyKey with
  | Err _ => saga_ret (Err ErrAdmissionNotPassed)
  | Ok request => Admit request versions
  end.

Definition run_full_validation (revisionID : ID) : Saga P (result unit GraphError) :=
  access (fun d now newID => RunFullValidation svc d newID now revisionID).
(** [finish] and the swap of [queue]: the zero state where the swap was lost. *)
Definition finish (state : SyncState) (p : PipelineState) (safeError : string) : Saga P (result (option SyncState) GraphError) :=
  let*? (updated, swapped) := swap state (with_pipeline state p safeError) in saga_ret (Ok (if swapped : bool then updated else None)).
Definition queue (makeRequest : ValidationPipelineRequest -> list string -> GraphJobRequest) (state : SyncState)
    (request : ValidationPipelineRequest) : Saga P (result (option SyncState) GraphError) :=
  let* warnings := read (fun d => EntityReads.FullValidationWarningCodes (configuration d) (Pipe_RevisionID request) (Pipe_ConfigHash request)
                                    (Pipe_Versions request)) in
  match warnings with
  | Err _ => finish state StateBlockedValidation "VALIDATION_EVIDENCE_UNAVAILABLE"
  | Ok warnings =>
      let*? (job, _) := create_job (makeRequest request warnings) in
      let*? (updated, swapped) := swap state (with_job state (GJob_ID job)) in
      saga_ret (Ok (if swapped : bool then updated else None))
  end.
Definition automatic_request (request : ValidationPipelineRequest) (warnings : list string) : GraphJobRequest :=
  AutomaticGraphJobRequest (Pipe_ProjectID request) (Pipe_RevisionID request) (Pipe_ConfigHash request) (Pipe_Versions request) warnings.
(** From the state being validated on. *)
Definition validate_and_queue (makeRequest : ValidationPipelineRequest -> list string -> GraphJobRequest) (state : SyncState)
    (request : ValidationPipelineRequest) : Saga P (result (option SyncState) GraphError) :=
  let check := gate_check (Pipe_RevisionID request) (Pipe_ConfigHash request) (Pipe_Versions request) in
  if negb (bool_decide (Pipeline state = StateValidating)) then saga_ret (Ok (Some state))
  else
    let* first := check in
    match first with
    | Ok GatePass => queue makeRequest state request
    | Ok GateRequiresValidation =>
        let* ran := run_full_validation (Pipe_RevisionID request) in
        match ran with
        | Err _ => finish state StateBlockedValidation "VALIDATION_NOT_PASSED"
        | Ok _ =>
            let* second := check in
            match second with
            | Ok GatePass => queue makeRequest state request
            | _ => finish state StateBlockedValidation "VALIDATION_NOT_PASSED"
            end
        end
    | _ => finish state StateBlockedValidation "VALIDATION_NOT_PASSED"
    end.
(** The pipeline as the store wires it: gate, runner, evidence and jobs present. *)
Definition ValidationPipeline_Start (makeRequest : ValidationPipelineRequest -> list string -> GraphJobRequest)
    (request : ValidationPipelineRequest) : Saga P (result (option SyncState) GraphError) :=
  if negb (PipelineRequest_Valid request) then saga_ret (Err ErrPipelineInvalid)
  else
    let revisionID := Pipe_RevisionID request in
    let*? found := get_state revisionID in
    let*? state := match found with
                   | Some state => saga_ret (Ok state)
                   | None =>
                       let state := mkSync revisionID StateSaved "" "" "" "" 0 "" [] in
                       let*? _ := access (fun d now _ => CreateGraphSyncState d now state) in saga_ret (Ok state)
                   end in
    let*? moved := if bool_decide (Pipeline state = StateSaved)
                   then let*? (updated, swapped) := swap state (with_pipeline state StateValidating (Sync_SafeError state)) in
                        saga_ret (Ok (if swapped : bool then updated else None))
                   else saga_ret (Ok (Some state)) in
    match moved with
    | None => saga_ret (Ok None)
    | Some state =>
        validate_and_queue makeRequest state request
    end.
End pipeline.
