(* ===== verification/GraphRuntime.v ===== *)
(** * The Graph worker of a running process, and the application's operations on it

    bootstrap/graph_sync_runtime.go and app/graph_sync_service.go.  [run] is one
    goroutine of the runtime; [polls] is how many more times it may wait for the
    provider before the process closes.  The outcome names the return the code
    takes: Go's [run] returns nothing. *)
From S2P Require Import Prelude GoSort GoStrings GoCrypto GoJson GoFloat Domain JobStore FormulaDecimal DomainEntity.
From S2P Require EntityStore EntityReads VersionGate.
From S2P Require Import GraphProjector GraphPlan ValidationTypes Job GraphSync GraphStore GraphServices.
Open Scope Z_scope.

Inductive Outcome :=
  | RunSkipped                      (* a return before the job is started *)
  | RunFailed (code : string)       (* [runtime.fail] *)
  | RunTaskFailed                   (* [FailProviderTask] *)
  | RunStopped                      (* the process closes while the task runs *)
  | RunCommitted (ready : swap_result).

Definition graphSnapshotNode (n : Node) : SyncNode :=
  let p := Node_Provenance n in
  mkSyncNode (Node_ID n) (Node_Type n) (Node_Label n) (Node_Text n) (Node_Properties n)
    [("project_id", PText (NodeP_ProjectID p)); ("revision_id", PText (NodeP_RevisionID p)); ("config_hash", PText (NodeP_ConfigHash p));
     ("entity_id", PText (NodeP_EntityID p)); ("entity_kind", PText (NodeP_EntityKind p));
     ("entity_schema_version", PInt (NodeP_EntitySchemaVersion p));
     ("projection_schema_version", PText (NodeP_ProjectionSchema p)); ("projector_version", PText (NodeP_Projector p))]%string.
Definition graphSnapshotNodes (values : list Node) : list SyncNode := graphSnapshotNode <$> values.
Definition graphSnapshotEdge (e : Edge) : SyncEdge :=
  let p := Edge_Provenance e in
  mkSyncEdge (Edge_ID e) (Edge_From e) (Edge_To e) (Edge_Type e) (Edge_RelationKind e) (Edge_Confidence e) (Edge_Properties e)
    [("project_id", PText (EdgeP_ProjectID p)); ("revision_id", PText (EdgeP_RevisionID p)); ("config_hash", PText (EdgeP_ConfigHash p));
     ("source_entity_id", PText (EdgeP_SourceEntityID p)); ("field_path", PText (EdgeP_FieldPath p)); ("ordinal", PInt (EdgeP_Ordinal p));
     ("projection_schema_version", PText (EdgeP_ProjectionSchema p)); ("projector_version", PText (EdgeP_Projector p))]%string.
Definition graphSnapshotEdges (values : list Edge) : list SyncEdge := graphSnapshotEdge <$> values.
Definition graphFailureCode (e : GraphError) (fallback : string) : string :=
  match e with ErrProvider (Provider p) => if ProviderError_Valid p then Error_Code p else fallback | _ => fallback end.
(** What the worker submits, expects, and records as evidence. *)
Definition put_request (plan : FullPlan) : PutSnapshotRequest :=
  mkPut SnapshotSchemaVersion "full" (Full_ContentHash plan) (graphSnapshotNodes (Full_Nodes plan)) (graphSnapshotEdges (Full_Edges plan)).
Definition run_expectation (job : GraphJob) (plan : FullPlan) : SnapshotExpectation :=
  mkExpectation (GJob_ProjectID job) (GJob_RevisionID job) (Full_ContentHash plan) (Z.of_nat (length (Full_Nodes plan)))
    (Z.of_nat (length (Full_Edges plan))).
Definition sync_evidence (job : GraphJob) (summary : ProjectionSummary) (taskID : string) : string :=
  marshal_map [("project_id", PText (GJob_ProjectID job)); ("revision_id", PText (GJob_RevisionID job)); ("config_hash", PText (GJob_InputHash job));
               ("graph_manifest_hash", PText (ManifestHash summary)); ("provider_task_id", PText taskID)]%string.

(** The read model of app/graph_sync_service.go. *)
Record GraphStatus := mkStatus {
  Status_RevisionID : ID; Status_ConfigHash : string; Status_Pipeline : PipelineState; HasSyncState : bool; Status_Freshness : Freshness;
  Status_Validation : GateResult; Status_Summary : option ProjectionSummary; Status_Job : option GraphJob; Status_Warnings : list string;
  Status_SafeError : string; Status_ExternalTaskID : string; ImpactState : string; JobPhase : string; JobProgress : option Z;
  Status_Provider : option Snapshot; Status_ProviderError : option ProviderError; ProviderObservedAt : option Time
}.

Section runtime.
Context {P : Type} `{GraphProvider P, Environment, UnicodeTables, ApdLib, UuidLib, FloatText, TimeText, JcsLib}.
Context (svc : EntityStore.Service) (descriptor : Descriptor).

Definition fail_run (job : GraphJob) (code : string) : Saga P Outcome :=
  let* _ := Fail (GJob_ID job) (GJob_RevisionID job) code in saga_ret (RunFailed code).
(** [if err != nil { runtime.fail(...); return }] *)
Definition or_fail {A : Type} (job : GraphJob) (code : string) (m : Saga P (result A GraphError)) (k : A -> Saga P Outcome) : Saga P Outcome :=
  let* r := m in match r with Ok a => k a | Err _ => fail_run job code end.

Definition graphSyncRevision (job : GraphJob) : Saga P (result Revision GraphError) :=
  let unavailable := saga_ret (Err ErrGraphSyncRuntimeUnavailable) in
  let revisionID := GJob_RevisionID job in
  let* record := read (fun d => EntityReads.GetRevisionRecord (configuration d) revisionID) in
  match record with
  | Err _ => unavailable
  | Ok record =>
      if negb (bool_decide (VersionGate.ConfigHash (VersionGate.Record_Metadata record) = GJob_InputHash job)) then unavailable
      else match graphValidationVersions (VersionGate.Manifest (VersionGate.Record_Metadata record)) with
      | None => unavailable
      | Some versions =>
          let check := gate_check revisionID (GJob_InputHash job) versions in
          let* first := check in
          match first with
          | Err e => saga_ret (Err (ErrGraphText e))
          | Ok GatePass => read (fun d => ReadProjectionRevision d revisionID)
          | Ok GateRequiresValidation =>
              let*? _ := run_full_validation svc revisionID in
              let* second := check in
              match second with
              | Ok GatePass => read (fun d => ReadProjectionRevision d revisionID)
              | _ => unavailable
              end
          | Ok _ => unavailable
          end
      end
  end.

Definition health_check (jobID : ID) : Saga P (result Health GraphError) := call CallHealth (Provider_Health ("graph-health-" +:+ jobID)%string).
Definition compatible (r : result Health GraphError) : bool :=
  match r with Ok h => Compatible (EvaluateCompatibility h) | Err _ => false end.

(** The state the runtime starts a job with, when there is none. *)
Definition first_state (job : GraphJob) : SyncState := mkSync (GJob_RevisionID job) StateQueued (GJob_ID job) "" "" "" 0 "" [].
Definition ensure_state (job : GraphJob) : Saga P (result unit GraphError) :=
  let*? found := get_state (GJob_RevisionID job) in
  match found with
  | Some _ => saga_ret (Ok tt)
  | None => access (fun d now _ => CreateGraphSyncState d now (first_state job))
  end.

Definition poll_request (job : GraphJob) (plan : FullPlan) : PollingRequest :=
  mkPolling (GJob_ID job) (GJob_RevisionID job) (GJob_ProjectID job) (GJob_RevisionID job) (run_expectation job plan)
    ("graph-sync-" +:+ GJob_ID job)%string.
Fixpoint poll_loop (polls : nat) (job : GraphJob) (plan : FullPlan) (summary : ProjectionSummary) : Saga P Outcome :=
  let* polled := Poll (poll_request job plan) in
  match polled with
  | Err e => fail_run job (graphFailureCode e "GRAPH_POLL_FAILED")
  | Ok (task, verification) =>
      if bool_decide (Task_State task = "queued"%string) || bool_decide (Task_State task = "running"%string) then
        match polls with O => saga_ret RunStopped | S polls => poll_loop polls job plan summary end
      else if bool_decide (Task_State task = "failed"%string) then
        let* _ := FailProviderTask (GJob_ID job) (GJob_RevisionID job) task in saga_ret RunTaskFailed
      else if bool_decide (Task_State task = "succeeded"%string) then
        match verification with
        | Some v =>
            if negb (Verified_Ready v) then fail_run job "GRAPH_VERIFICATION_FAILED"
            else
              let* committed := ReadyService_Commit (GJob_ID job) (GJob_RevisionID job) summary (sync_evidence job summary (Task_ID task)) v in
              match committed with
              | Ok ready => saga_ret (RunCommitted ready)
              | Err _ => fail_run job "GRAPH_READY_COMMIT_FAILED"
              end
        | None => fail_run job "GRAPH_VERIFICATION_FAILED"
        end
      else fail_run job "GRAPH_TASK_STATE_INVALID"
  end.

(** From the started job on. *)
Definition submission (job : GraphJob) (plan : FullPlan) : SubmissionRequest :=
  mkSubmission (GJob_ID job) (GJob_RevisionID job) (GJob_ProjectID job) (GJob_RevisionID job) (put_request plan)
    ("graph-sync-" +:+ GJob_ID job)%string false.
Definition run_revision (polls : nat) (job : GraphJob) (revision : Revision) : Saga P Outcome :=
  let jobID := GJob_ID job in
  or_fail job "GRAPH_CHECKPOINT_FAILED" (checkpoint jobID PhaseValidationConfirmed 10) (fun _ =>
  or_fail job "GRAPH_STATE_TRANSITION_FAILED" (MarkBuilding (GJob_RevisionID job)) (fun _ =>
  match Project descriptor revision with
  | Err _ => fail_run job "GRAPH_PROJECTION_FAILED"
  | Ok projected =>
      match PlanFull (GJob_ProjectID job) (GJob_RevisionID job) projected with
      | Err _ => fail_run job "GRAPH_PROJECTION_FAILED"
      | Ok plan =>
          match NewSummary (GJob_ProjectID job) (GJob_RevisionID job) (GJob_InputHash job) descriptor projected "" with
          | Err _ => fail_run job "GRAPH_PROJECTION_FAILED"
          | Ok summary =>
              if negb (bool_decide (ManifestHash summary = Full_ContentHash plan)) then fail_run job "GRAPH_PROJECTION_FAILED"
              else
                or_fail job "GRAPH_CHECKPOINT_FAILED" (checkpoint jobID PhaseProjected 20) (fun _ =>
                let* health := health_check jobID in
                if negb (compatible health) then fail_run job "GRAPH_PROVIDER_INCOMPATIBLE"
                else
                  or_fail job "GRAPH_CHECKPOINT_FAILED" (checkpoint jobID PhaseProviderCompatible 30) (fun _ =>
                  let* submitted := Submit (submission job plan) in
                  match submitted with
                  | Err e => fail_run job (graphFailureCode e "GRAPH_SUBMISSION_FAILED")
                  | Ok _ => poll_loop polls job plan summary
                  end))
          end
      end
  end)).
Definition run_started (polls : nat) (job : GraphJob) : Saga P Outcome :=
  or_fail job "GRAPH_VALIDATION_UNAVAILABLE" (graphSyncRevision job) (run_revision polls job).
Definition run (polls : nat) (jobID : ID) : Saga P Outcome :=
  let* (found, project) := read (fun d => (GetGraphJob d jobID, projectID (shared d))) in
  match found with
  | Err _ => saga_ret RunSkipped
  | Ok job =>
      if negb (bool_decide (GJob_ProjectID job = project)) then saga_ret RunSkipped
      else
        let* health := health_check jobID in
        if negb (compatible health) then saga_ret RunSkipped
        else
          let* state := ensure_state job in
          match state with
          | Err _ => saga_ret RunSkipped
          | Ok _ =>
              let* started := Start jobID in
              match started with Err _ => saga_ret RunSkipped | Ok _ => run_started polls job end
          end
  end.
(** The jobs one scan dispatches. *)
Definition scan_jobs (d : GraphDb) : list ID :=
  match ListRecoverableGraphSyncStates d 100 with
  | Err _ => []
  | Ok states => List.filter ID_Valid (LatestJobID <$> states)
  end.

(** ** app/graph_sync_service.go *)
Inductive AppError := ErrGraphOperationUnavailable | ErrGraphRevisionUnavailable | ErrGraphRetryInvalid | ErrApp (e : GraphError).
Definition app_error {A : Type} (r : result A GraphError) : result A AppError := match r with Ok a => Ok a | Err e => Err (ErrApp e) end.
Definition app_revision (revisionID : ID) : Saga P (result (VersionGate.Record_ * ValidationVersions * ID) AppError) :=
  if negb (ID_Valid revisionID) then saga_ret (Err ErrGraphRevisionUnavailable)
  else
    let* (found, project) := read (fun d => (EntityReads.GetRevisionRecord (configuration d) revisionID, projectID (shared d))) in
    saga_ret match found with
             | Err _ => Err ErrGraphRevisionUnavailable
             | Ok record =>
                 if negb (bool_decide (VersionGate.RevisionID (VersionGate.Record_Metadata record) = revisionID)) ||
                    negb (VersionGate.Record_Valid record)
                 then Err ErrGraphRevisionUnavailable
                 else match graphValidationVersions (VersionGate.Manifest (VersionGate.Record_Metadata record)) with
                      | None => Err ErrGraphOperationUnavailable
                      | Some versions => Ok (record, versions, project)
                      end
             end.
(** [s.Submit] enqueues the new job with the runtime. *)
Definition EnsureGraphSync (submit : GraphJob -> Saga P (result unit GraphError)) (revisionID : ID) : Saga P (result (GraphJob * bool) AppError) :=
  let*? (record, versions, project) := app_revision revisionID in
  let request := AutomaticGraphJobRequest project revisionID (VersionGate.ConfigHash (VersionGate.Record_Metadata record)) versions [] in
  let* admitted := Admit request versions in
  match admitted with
  | Err e => saga_ret (Err (ErrApp e))
  | Ok (job, true) => saga_ret (Ok (job, true))
  | Ok (job, false) =>
      let* submitted := submit job in
      saga_ret match submitted with Ok _ => Ok (job, false) | Err e => Err (ErrApp e) end
  end.
Definition RetryGraphSync (submit : GraphJob -> Saga P (result unit GraphError)) (revisionID retryOfJobID : ID) (key : string) :
    Saga P (result (GraphJob * bool) AppError) :=
  let*? (_, versions, _) := app_revision revisionID in
  if negb (ID_Valid retryOfJobID) || bool_decide (key = EmptyString) then saga_ret (Err ErrGraphOperationUnavailable)
  else
    let* previous := get_job retryOfJobID in
    match previous with
    | Err _ => saga_ret (Err ErrGraphRetryInvalid)
    | Ok previous =>
        if negb (bool_decide (GJob_RevisionID previous = revisionID)) || negb (Terminal (GJob_Status previous))
        then saga_ret (Err ErrGraphRetryInvalid)
        else
          let* admitted := AdmitRetry previous key versions in
          match admitted with
          | Err e => saga_ret (Err (ErrApp e))
          | Ok (job, true) => saga_ret (Ok (job, true))
          | Ok (job, false) =>
              let* submitted := submit job in
              saga_ret match submitted with Ok _ => Ok (job, false) | Err e => Err (ErrApp e) end
          end
    end.
Definition GetGraphJob_app (jobID : ID) : Saga P (result GraphJob AppError) := let* r := get_job jobID in saga_ret (app_error r).
Definition ListGraphJobEvents_app (jobID : ID) (after : Z) : Saga P (result (list GraphJobEvent) AppError) :=
  let* r := list_events jobID after in saga_ret (app_error r).
Definition CancelGraphJob (jobID : ID) : Saga P (result (GraphJob * bool) AppError) := let* r := Cancel jobID in saga_ret (app_error r).

(** *** [GraphStatus], as the store and the provider wire it *)
Definition status_error (revisionID : ID) (message : string) : ProviderError :=
  mkProviderError "GRAPH_STATUS_UNAVAILABLE" message ("graph-status-" +:+ revisionID)%string false true.
Definition observed_provider (revisionID : ID) (project : ID) (r : result Snapshot GraphError) : option Snapshot * option ProviderError :=
  match r with
  | Err (ErrProvider (Provider e)) => (None, Some e)
  | Err _ => (None, Some (status_error revisionID "Graph provider inspection is unavailable"))
  | Ok s =>
      if negb (bool_decide (Snap_Namespace s = project)) || negb (bool_decide (Snap_Version s = revisionID))
      then (None, Some (status_error revisionID "Graph provider returned a different Snapshot identity")) else (Some s, None)
  end.
(** The job of the state and the last event of its log. *)
Definition status_job (jobID : ID) : Saga P (result (option GraphJob * option GraphJobEvent) AppError) :=
  if bool_decide (jobID = EmptyString) then saga_ret (Ok (None, None))
  else
    let* job := get_job jobID in
    let* events := list_events jobID 0 in
    saga_ret match events with
             | Err _ => Err ErrGraphOperationUnavailable
             | Ok events => Ok (match job with Ok job => Some job | Err _ => None end, last events)
             end.
Definition status_impact (revisionID : ID) (summary : option ProjectionSummary) : Saga P (result string AppError) :=
  match summary with
  | None => saga_ret (Ok EmptyString)
  | Some summary =>
      let* impact := read (fun d => GraphImpactHandoffStatus d revisionID (ManifestHash summary)) in
      saga_ret match impact with
               | Err _ => Err ErrGraphOperationUnavailable
               | Ok impact => Ok (default "unavailable"%string impact)
               end
  end.
Definition empty_status (revisionID : ID) (configHash : string) (validation : GateResult) : GraphStatus :=
  mkStatus revisionID configHash StateSaved false (mkFreshness false ["MISSING_GRAPH_STATE"%string]) validation None None [] "" "" "" "" None None None None.
Definition graph_status (revisionID : ID) : Saga P (result GraphStatus AppError) :=
  let*? (record, versions, project) := app_revision revisionID in
  let configHash := VersionGate.ConfigHash (VersionGate.Record_Metadata record) in
  let* checked := gate_check revisionID configHash versions in
  let validation := match checked with Ok g => g | Err _ => GateRequiresValidation end in
  let* found := get_state revisionID in
  match found with
  | Err _ => saga_ret (Err ErrGraphOperationUnavailable)
  | Ok None => saga_ret (Ok (empty_status revisionID configHash validation))
  | Ok (Some state) =>
      let*? (job, phase) := status_job (LatestJobID state) in
      let* summary := read (fun d => GraphProjectionSummary d revisionID) in
      match summary with
      | Err _ => saga_ret (Err ErrGraphOperationUnavailable)
      | Ok summary =>
          let*? impact := status_impact revisionID summary in
          let* observedAt := access (fun d now _ => (now, d)) in
          let* inspected := inspect project revisionID ("graph-status-" +:+ revisionID)%string in
          let '(snapshot, providerError) := observed_provider revisionID project inspected in
          saga_ret (Ok (mkStatus revisionID configHash (Pipeline state) true (ComputeFreshness revisionID configHash state job) validation summary job
            (Sync_Warnings state) (Sync_SafeError state) (ExternalTaskID state) impact
            (match phase with Some e => phase_text (GEvent_Phase e) | None => EmptyString end) (GEvent_Progress <$> phase)
            snapshot providerError (Some observedAt)))
      end
  end.

(** ** project/adapters.go: the pipeline of a new revision *)
Definition startGraphValidationPipeline (revisionID : ID) (configHash : string) : Saga P (option (result (option SyncState) GraphError)) :=
  let* (found, project) := read (fun d => (EntityReads.GetRevisionRecord (configuration d) revisionID, projectID (shared d))) in
  match found with
  | Err _ => saga_ret None
  | Ok record =>
      match graphValidationVersions (VersionGate.Manifest (VersionGate.Record_Metadata record)) with
      | None => saga_ret None
      | Some versions =>
          let* r := ValidationPipeline_Start svc automatic_request (mkPipelineRequest project revisionID configHash versions) in saga_ret (Some r)
      end
  end.

(** ** storage/sqlite/restore_graph_rebuild.go *)
(** [ORDER BY revision_id] *)
Definition synced_revisions (d : GraphDb) : list ID := sort_by String.ltb (map_to_list (sync_states d)).*1.
Definition rebuild_revision (restoreJobID : ID) (restoreRequestHash : string) (revisionID : ID) : Saga P (result unit GraphError) :=
  let* (found, project) := read (fun d => (EntityReads.GetRevisionRecord (configuration d) revisionID, projectID (shared d))) in
  match found with
  | Err e => saga_ret (Err (ErrConfiguration e))
  | Ok record =>
      let metadata := VersionGate.Record_Metadata record in
      match restoreValidationVersions (VersionGate.Manifest metadata) with
      | None => saga_ret (Ok tt)
      | Some versions =>
          let*? _ := ValidationPipeline_Start svc
            (fun value warnings => RestoreGraphJobRequest value warnings restoreJobID restoreRequestHash (VersionGate.ManifestHash metadata))
            (mkPipelineRequest project revisionID (VersionGate.ConfigHash metadata) versions) in
          saga_ret (Ok tt)
      end
  end.
(** [invalidations]: the rows of restore_graph_invalidations for this restore;
    that table is not part of the state here. *)
Definition EnqueueFullRebuild (invalidations : Z) (project restoreJobID : ID) (restoreRequestHash : string) : Saga P (result unit GraphError) :=
  let* (stored, revisions) := read (fun d => (projectID (shared d), synced_revisions d)) in
  if negb (bool_decide (project = stored)) || negb (ID_Valid restoreJobID) || negb (hash_shape restoreRequestHash) || negb (invalidations =? 1) ||
     negb (forallb ID_Valid revisions)
  then saga_ret (Err ErrRestoreDerivedInvalid)
  else saga_each (rebuild_revision restoreJobID restoreRequestHash) revisions.
End runtime.
