(* ===== verification/GraphHistory.v ===== *)
(** * Histories of the Graph tables

    [live_step] is one committed transaction of a running process: an operation
    of the job table, of the configuration, or one of the writes the services of
    GraphServices make.  A swap or a commit takes the state its caller expects;
    that state was read before ([genuine]), perhaps long before.  Other services
    commit jobs of their own kinds ([foreign]).  [graph_step] adds what a restore
    writes into the database it installs, itself an earlier reachable one, while no
    service runs: it closes the unfinished jobs and takes every state back. *)
From S2P Require Import Prelude GoSort GoStrings GoCrypto GoJson GoFloat Domain JobStore FormulaDecimal DomainEntity.
From S2P Require EntityStore EntityHistory EntityReads VersionGate GraphProjector.
From S2P Require Import ValidationTypes Job GraphSync GraphStore GraphServices JobRestore.
Import GraphProjector(ProjectionSummary, Summary_RevisionID, Summary_SchemaVersion, Summary_ProjectorVersion, ManifestHash).
Open Scope Z_scope.

(** A state the caller has read: still the row, or overtaken. *)
Definition genuine (d : GraphDb) (e : SyncState) : Prop :=
  exists row t, sync_states d !! Sync_RevisionID e = Some (row, t) /\ (Generation e < Generation row \/ row = e).
(** The swaps of the services. *)
Inductive service_move : SyncState -> SyncState -> Prop :=
  | move_validating e : Pipeline e = StateSaved -> service_move e (with_pipeline e StateValidating (Sync_SafeError e))
  | move_blocked e code : Pipeline e = StateValidating -> service_move e (with_pipeline e StateBlockedValidation code)
  | move_queued e id : Pipeline e = StateValidating -> id <> EmptyString -> service_move e (with_job e id)
  | move_building e : Pipeline e = StateQueued -> service_move e (with_pipeline e StateBuilding "")
  | move_accepted e request task : Pipeline e = StateBuilding -> ProviderTaskID e = EmptyString -> ExternalTaskID e = EmptyString ->
      TrimSpace task <> EmptyString -> service_move e (with_task e request task)
  | move_forget e : Pipeline e = StateBuilding -> ProviderTaskID e <> EmptyString ->
      service_move e (mkSync (Sync_RevisionID e) (Pipeline e) (LatestJobID e) "" (ProviderRequestID e) "" (Generation e + 1)
                        (Sync_SafeError e) (Sync_Warnings e)).
(** The states the services create. *)
Definition fresh_state (s : SyncState) : Prop :=
  ProviderTaskID s = EmptyString /\ ExternalTaskID s = EmptyString /\
  (Pipeline s = StateSaved \/ (Pipeline s = StateQueued /\ LatestJobID s <> EmptyString)).

(** A job of another kind. *)
Definition other_kind (d : GraphDb) (id : ID) : Prop :=
  exists r, jobs (shared d) !! id = Some r /\ Kind (Record_Request r) <> SharedJobKind.
#[global] Instance other_kind_dec d id : Decision (other_kind d id).
Proof.
  unfold other_kind. destruct (jobs (shared d) !! id) as [r|]; [|right; naive_solver].
  destruct (decide (Kind (Record_Request r) = SharedJobKind)); [right|left]; naive_solver.
Defined.
(** A job row and the same row later. *)
Record same_job (r r' : JobRecord) : Prop := {
  job_request : Record_Request r' = Record_Request r;
  job_rank : (status_rank (Record_Status r) <= status_rank (Record_Status r'))%nat;
  job_terminal : Terminal (Record_Status r) = true -> r' = r
}.
#[global] Instance same_job_preorder : PreOrder same_job.
Proof.
  split; [by intros r; split|]. intros a b c [Q1 R1 T1] [Q2 R2 T2]. split; [congruence|lia|]. intros Ht. specialize (T1 Ht) as ->. auto.
Qed.
(** What the services of other kinds of jobs commit to the shared table; the one
    that seals an impact report also updates a handoff. *)
Record foreign `{UuidLib} (st st' : Store) : Prop := {
  foreign_project : projectID st' = projectID st;
  foreign_jobs : forall id r, jobs st !! id = Some r -> exists r', jobs st' !! id = Some r' /\ same_job r r' /\
    (Kind (Record_Request r) = SharedJobKind -> r' = r);
  foreign_created : forall id r', jobs st !! id = None -> jobs st' !! id = Some r' -> Kind (Record_Request r') <> SharedJobKind;
  foreign_events : job_events st ⊆ job_events st';
  foreign_log : forall id o, job_events st' !! (id, o) <> job_events st !! (id, o) ->
    exists r, jobs st' !! id = Some r /\ Kind (Record_Request r) <> SharedJobKind;
  foreign_events_ok : events_ok st -> events_ok st'
}.
(** The event a checkpoint appends after the log so far. *)
Definition continues (d : GraphDb) (e : Event) : Prop :=
  (Ordinal e = 1 /\ Phase e = phase_text PhaseQueued) \/
  exists p, job_events (shared d) !! (JobID e, Ordinal e - 1) = Some p /\ Ordinal p = Ordinal e - 1 /\
    Phase_CanAdvanceTo (phase_of (Phase p)) (phase_of (Phase e)) = true /\ Phase_Valid (phase_of (Phase e)) = true /\ Progress p <= Progress e.

Section steps.
Context `{UnicodeTables, ApdLib, UuidLib, FloatText, TimeText}.
Context (svc : EntityStore.Service).

Definition add_revisions (s : Store) (ids : gset ID) : Store :=
  mkStore (projectID s) (ids ∪ config_revisions s) (jobs s) (job_events s) (publication_started s).
Inductive live_step (d d' : GraphDb) : Prop :=
  | live_shared now s' :
      step now (shared d) s' ->
      (forall id o, job_events s' !! (id, o) <> job_events (shared d) !! (id, o) -> other_kind d id) ->
      d' = with_shared d s' -> live_step d d'
  | live_foreign s' h : foreign (shared d) s' -> dom h = dom (handoffs d) -> d' = with_handoffs (with_shared d s') h -> live_step d d'
  | live_append e : continues d e -> d' = with_shared d (Append (shared d) e).2 -> live_step d d'
  | live_create_job now newID request : d' = (CreateOrGetGraphJob d now newID request).2 -> live_step d d'
  | live_create_state now s : fresh_state s -> d' = (CreateGraphSyncState d now s).2 -> live_step d d'
  | live_swap now e n : genuine d e -> service_move e n -> d' = (CompareAndSwapGraphSyncState d now e n).2 -> live_step d d'
  | live_ready now e warnings summary evidence :
      genuine d e -> LatestJobID e <> EmptyString ->
      d' = (CommitGraphReady d now (with_warnings e warnings) summary evidence).2 -> live_step d d'
  | live_failure now e code : genuine d e -> d' = (CommitGraphFailure d now e code).2 -> live_step d d'
  | live_summary now s evidence : d' = (InsertProjectionSummary d now s evidence).2 -> live_step d d'
  | live_handoff now revisionID hash stage : d' = (CreateGraphImpactHandoff d now revisionID hash stage).2 -> live_step d d'
  | live_handoff_state now target hash status base job report text :
      d' = (SetImpactHandoffState d now target hash status base job report text).2 -> live_step d d'
  | live_configuration c ids :
      EntityHistory.entity_step svc (configuration d) c ->
      d' = with_shared (with_configuration d c) (add_revisions (shared d) ids) -> live_step d d'.
Definition graph_step (d d' : GraphDb) : Prop :=
  live_step d d' \/ (exists now, d' = invalidate_states d now) \/
  exists now coordinator, now <> 0 /\ d' = with_shared d (ReconcileRestoredJobs (shared d) now coordinator).2.
Definition empty_graph (project : ID) : GraphDb := mkGraphDb (empty_store project) ∅ EntityStore.empty_entities ∅ ∅ ∅.
Definition reachable_graph (d : GraphDb) : Prop := exists project, rtc graph_step (empty_graph project) d.


End steps.

(** ** What a step changes *)
(** What a ready, or failed, state relies on. *)
(** What a commit leaves beside a Ready state, for a manifest hash. *)
Definition commit_evidence (d : GraphDb) (revisionID jobID : ID) (hash : string) : Prop :=
  (exists r, jobs (shared d) !! jobID = Some r /\ Record_Status r = Succeeded /\ Record_Result r = Some (graph_result revisionID)) /\
  (exists schema version row, summaries d !! (revisionID, schema, version) = Some row /\ ManifestHash (Stored_Summary row) = hash) /\
  is_Some (handoffs d !! (revisionID, "impact"%string, hash)).
Definition ready_evidence (d : GraphDb) (revisionID jobID : ID) : Prop := exists hash, commit_evidence d revisionID jobID hash.
Definition failed_evidence (d : GraphDb) (jobID : ID) : Prop :=
  exists r, jobs (shared d) !! jobID = Some r /\ Record_Status r = Failed.

(** Rows that stay, in any later database. *)
Record kept (d d' : GraphDb) : Prop := {
  kept_project : projectID (shared d') = projectID (shared d);
  kept_jobs : forall id r, jobs (shared d) !! id = Some r -> exists r', jobs (shared d') !! id = Some r' /\ same_job r r';
  kept_events : job_events (shared d) ⊆ job_events (shared d');
  kept_summaries : forall k row, summaries d !! k = Some row -> summaries d' !! k = Some row;
  kept_handoffs : forall k, is_Some (handoffs d !! k) -> is_Some (handoffs d' !! k)
}.
(** The last event of a job that a restore closed. *)
Definition superseded (e : Event) : Prop := Phase e = superseded_phase.
Definition job_over (d : GraphDb) (id : ID) (over : bool) : Prop := exists r, jobs (shared d) !! id = Some r /\ Terminal (Record_Status r) = over.
Definition closes (d d' : GraphDb) (e : Event) : Prop :=
  superseded e /\ job_over d (JobID e) false /\ job_over d' (JobID e) true /\
  (Ordinal e = 1 \/ exists p, job_events (shared d) !! (JobID e, Ordinal e - 1) = Some p /\ Progress p <= Progress e).
Definition new_events `{UuidLib} (d d' : GraphDb) : Prop := (events_ok (shared d) -> events_ok (shared d')) /\
  forall id o e, job_events (shared d') !! (id, o) = Some e -> job_events (shared d) !! (id, o) = Some e \/ other_kind d' id \/
    ((continues d e \/ closes d d' e) /\ JobID e = id /\ Ordinal e = o).

(** Rows of the state table: kept, or replaced by a later generation. *)
Inductive state_change (d d' : GraphDb) : Prop :=
  | state_same : sync_states d' = sync_states d -> state_change d d'
  | state_created s now : fresh_state s -> Sync_Valid s = true -> Generation s = 0 ->
      sync_states d !! Sync_RevisionID s = None ->
      sync_states d' = <[Sync_RevisionID s := (s, now)]> (sync_states d) -> state_change d d'
  | state_moved e n t now : sync_states d !! Sync_RevisionID e = Some (e, t) -> service_move e n -> Sync_Valid n = true ->
      Pipeline_CanTransitionTo (Pipeline e) (Pipeline n) = true -> task_free d (Sync_RevisionID e) (ProviderTaskID n) = true ->
      sync_states d' = <[Sync_RevisionID e := (n, now)]> (sync_states d) -> state_change d d'
  | state_readied e t now warnings : sync_states d !! Sync_RevisionID e = Some (e, t) -> Pipeline e = StateBuilding ->
      ready_evidence d' (Sync_RevisionID e) (LatestJobID e) -> Sync_Valid (ready_state (with_warnings e warnings)) = true ->
      sync_states d' = <[Sync_RevisionID e := (ready_state (with_warnings e warnings), now)]> (sync_states d) -> state_change d d'
  | state_failed e t now code : sync_states d !! Sync_RevisionID e = Some (e, t) -> in_flight e = true ->
      failed_evidence d' (LatestJobID e) -> Sync_Valid (failed_state e code) = true ->
      sync_states d' = <[Sync_RevisionID e := (failed_state e code, now)]> (sync_states d) -> state_change d d'.

#[global] Instance kept_preorder : PreOrder kept.
Proof.
  split.
  - intros d. split; try done. intros id r Hr. by exists r.
  - intros a b c [P1 J1 E1 S1 Hh1] [P2 J2 E2 S2 Hh2]. split; [congruence| |by etrans|auto|auto].
    intros id r Hr. destruct (J1 id r Hr) as (r1 & Hr1 & Hs1). destruct (J2 id r1 Hr1) as (r2 & Hr2 & Hs2).
    exists r2. split; [done|by etrans].
Qed.
Lemma commit_evidence_kept d d' revisionID jobID hash : kept d d' -> commit_evidence d revisionID jobID hash -> commit_evidence d' revisionID jobID hash.
Proof.
  intros K ((r & Hr & Hs & Hres) & (schema & version & row & Hrow & Hm) & Hh). split_and!.
  - destruct (kept_jobs _ _ K _ _ Hr) as (r' & Hr' & [_ _ Ht]). rewrite Hs in Ht. specialize (Ht eq_refl) as ->. eauto.
  - exists schema, version, row. split; [by apply (kept_summaries _ _ K)|done].
  - by apply (kept_handoffs _ _ K).
Qed.
Lemma ready_evidence_kept d d' revisionID jobID : kept d d' -> ready_evidence d revisionID jobID -> ready_evidence d' revisionID jobID.
Proof. intros K [hash Hc]. exists hash. by eapply commit_evidence_kept. Qed.
Lemma failed_evidence_kept d d' jobID : kept d d' -> failed_evidence d jobID -> failed_evidence d' jobID.
Proof.
  intros K (r & Hr & Hs). destruct (kept_jobs _ _ K _ _ Hr) as (r' & Hr' & [_ _ Ht]). rewrite Hs in Ht. specialize (Ht eq_refl) as ->. by exists r.
Qed.
Lemma other_kind_kept d d' id : kept d d' -> other_kind d id -> other_kind d' id.
Proof. intros K (r & Hr & Hk). destruct (kept_jobs _ _ K _ _ Hr) as (r' & Hr' & [Hq _ _]). exists r'. by rewrite Hq. Qed.
Lemma kept_same d d' : shared d' = shared d -> summaries d' = summaries d -> handoffs d' = handoffs d -> kept d d'.
Proof. intros Hs Hm Hh. split; rewrite ?Hs, ?Hm, ?Hh; try done. intros id r Hr. by exists r. Qed.
Lemma new_events_same `{UuidLib} d d' : job_events (shared d') = job_events (shared d) -> new_events d d'.
Proof. intros He. split; [by unfold events_ok; rewrite He|]. intros id o e. rewrite He. by left. Qed.

(** *** The job table *)
Lemma Append_store `{UuidLib} s e : (Append s e).2 = s \/
  (event_row s (JobID e) (Ordinal e) = None /\ is_Some (row_of s (JobID e)) /\
   (Append s e).2 = set_events s (<[(JobID e, Ordinal e) := e]> (job_events s))).
Proof.
  unfold Append. case_guard; [by left|]. destruct (event_row s _ _) as [x|]; cbn [scan_option].
  - destruct (scanSharedEvent x) as [y|]; cbn [result_bind]; [|by left]. case_guard; by left.
  - destruct (scan_option (latest_row s _)); [|by left]. destruct (match value with Some _ => _ | None => _ end); [by left|].
    destruct (row_of s _) as [r|] eqn:Hr; [|by left]. right. eauto.
Qed.
Lemma Append_events_grow `{UuidLib} s e : job_events s ⊆ job_events (Append s e).2.
Proof.
  destruct (Append_store s e) as [->|(Hn & [r Hr] & ->)]; [done|]. apply insert_subseteq. unfold event_row in Hn. by rewrite Hr in Hn.
Qed.
Lemma jobs_change_terminal `{UuidLib} now s s' id r : jobs_change now s s' -> jobs s !! id = Some r ->
  exists r', jobs s' !! id = Some r' /\ same_job r r'.
Proof.
  intros (_ & [Hj|(i & r' & Hc & Hj & _)]) Hr; rewrite Hj; [by exists r|]. rewrite lookup_insert. case_decide as Hi; [|by exists r]. subst i.
  exists r'. rewrite Hr in Hc. split; [done|]. pose proof (row_change_request _ _ _ _ _ Hc) as Hq.
  inversion Hc as [|r0 next res Hs|r0 _ Hn]; subst; (split; [done|simpl|intros Ht; exfalso]).
  - by apply Nat.lt_le_incl, status_step_rank.
  - by apply (Terminal_no_step _ _ Ht Hs).
  - done.
  - congruence.
Qed.
Lemma step_events_grow `{UuidLib} now s s' : step now s s' -> job_events s ⊆ job_events s'.
Proof.
  destruct 1; try done; [| | |apply Append_events_grow].
  - unfold CreateOrGet. repeat (case_match; try done). unfold insert_job in *. by case_decide; simplify_eq.
  - unfold Transition. by repeat (case_match; try done).
  - unfold RequestCancellation. by repeat (case_match; try done).
Qed.

(** *** Each transaction *)
Section transactions.
Context `{UuidLib}.

Definition changes (d d' : GraphDb) : Prop := kept d d' /\ new_events d d' /\ state_change d d'.
Lemma changes_refl d : changes d d.
Proof. split_and!; [done|by apply new_events_same|by apply state_same]. Qed.
Lemma changes_shared d now s' : step now (shared d) s' ->
  (forall id o, job_events s' !! (id, o) <> job_events (shared d) !! (id, o) -> other_kind d id) -> changes d (with_shared d s').
Proof.
  intros Hs Ho. pose proof (step_jobs_change _ _ _ Hs) as Hc. split_and!; [|split; [intros Hok; exact (events_ok_step _ _ _ Hok Hs)|intros id o e He]|by apply state_same].
  - split; try done; simpl; [apply Hc| |by eapply step_events_grow]. intros id r Hr. by eapply jobs_change_terminal.
  - simpl in He. destruct (decide (job_events s' !! (id, o) = job_events (shared d) !! (id, o))) as [Heq|Hne]; [left; congruence|]. right. left.
    eapply (other_kind_kept d); [|by eapply Ho]. split; try done; simpl; [apply Hc| |by eapply step_events_grow]. intros i r Hr. by eapply jobs_change_terminal.
Qed.
Lemma changes_foreign d s' h : foreign (shared d) s' -> dom h = dom (handoffs d) -> changes d (with_handoffs (with_shared d s') h).
Proof.
  intros [Hp Hj Hnew Hev Hlog Hok] Hdom. split_and!; [|split; [exact Hok|]|by apply state_same].
  - split; try done; simpl; [|intros k Hk; apply elem_of_dom; rewrite Hdom; by apply elem_of_dom].
    intros id r Hr. destruct (Hj id r Hr) as (r' & ? & ? & _). by exists r'.
  - intros id o e He. simpl in He. destruct (decide (job_events s' !! (id, o) = job_events (shared d) !! (id, o))) as [Heq|Hne]; [left; congruence|].
    right. left. by eapply Hlog.
Qed.
(** The job of a restore, put back into the database it installed, is such a commit. *)
Lemma restored_job_is_foreign `{TimeText} st table now original lastOrdinal journalGeneration :
  foreign st (ReconcileRestoreJob st table now original lastOrdinal journalGeneration).2.1.
Proof.
  assert (foreign st st) as Hsame by (split; try done; [intros id r Hr; by exists r|intros id r' Hn Hr; congruence]).
  unfold ReconcileRestoreJob. case_guard as Hg; [done|]. destruct (put_back st original now) as [st'|e] eqn:Hput; [|done].
  assert (foreign st st') as Hnew; [|by repeat case_match]. unfold put_back in Hput.
  destruct (row_of st (Record_ID original)) as [row|].
  { destruct (scanSharedJob row) as [x|]; [|done]. revert Hput. case_guard; [done|]. by intros [= <-]. }
  case_bool_decide; [|done]. unfold insert_job in Hput. case_decide as Hfree; [|done]. injection Hput as <-.
  assert (Kind (Record_Request original) = "restore"%string) as Hkind.
  { bool_to_prop. destruct_and? Hg. done. }
  split; try done; cbn.
  - intros id r Hr. rewrite lookup_insert. destruct (decide (Record_ID original = id)) as [<-|]; [|by exists r]. destruct Hfree as [Hfree _]. cbn in Hfree. congruence.
  - intros id r Hn. rewrite lookup_insert. destruct (decide _); [|congruence]. intros [= <-]. cbn. by rewrite Hkind.
Qed.
Lemma changes_append d e : continues d e -> changes d (with_shared d (Append (shared d) e).2).
Proof.
  intros Hcont. pose proof (Append_events_grow (shared d) e) as Hg. destruct (Append_jobs (shared d) e) as [Hj Hp]. split_and!.
  - split; try done; simpl; rewrite ?Hj. intros id r Hr. by exists r.
  - split; [intros Hok; by apply (events_ok_step 0 (shared d)), step_append|].
    intros id o x Hx. simpl in Hx. destruct (Append_store (shared d) e) as [E|(_ & _ & E)]; rewrite E in Hx; [by left|].
    simpl in Hx. rewrite lookup_insert in Hx. case_decide as Hk; [|by left]. simplify_eq. right. right. by split; [left|].
  - by apply state_same.
Qed.
Lemma changes_create_job d now newID request : changes d (CreateOrGetGraphJob d now newID request).2.
Proof.
  unfold CreateOrGetGraphJob. case_guard; [apply changes_refl|]. destruct (findGraphJobByKey _ _) as [[x|]|]; [|..|apply changes_refl].
  { case_guard; apply changes_refl. }
  match goal with |- context [match ?b with Ok _ => _ | Err _ => _ end] => destruct b end; [|apply changes_refl].
  destruct newID as [id|]; [|apply changes_refl]. case_guard; [apply changes_refl|].
  unfold insert_graph_job. destruct (key_holder _ _); [apply changes_refl|]. case_guard; [apply changes_refl|].
  unfold insert_job. case_goal as [Hi|Hi]; cbn [mbind option_bind snd]; [|apply changes_refl]. destruct Hi as [Hn _]. simpl in Hn. split_and!.
  - split; try done; simpl. intros i r Hr. exists r. by rewrite lookup_insert_ne by congruence.
  - by apply new_events_same.
  - by apply state_same.
Qed.
Lemma changes_create_state d now s : fresh_state s -> changes d (CreateGraphSyncState d now s).2.
Proof.
  intros Hf. unfold CreateGraphSyncState. case_guard as Hg; [apply changes_refl|]. case_guard as Hx; [apply changes_refl|]. bool_to_prop. split_and!.
  - by apply kept_same.
  - by apply new_events_same.
  - apply (state_created d _ s now); [done..|by apply eq_None_not_Some|done].
Qed.
Lemma genuine_current d e row t : genuine d e -> sync_states d !! Sync_RevisionID e = Some (row, t) -> Generation row = Generation e -> row = e.
Proof. intros (row' & t' & Hl & [Hlt|Heq]) Hr Hg; [|congruence]. rewrite Hl in Hr. simplify_eq. lia. Qed.
Lemma changes_swap d now e n : genuine d e -> service_move e n -> changes d (CompareAndSwapGraphSyncState d now e n).2.
Proof.
  intros Hgen Hm. unfold CompareAndSwapGraphSyncState. case_guard as Hg; [apply changes_refl|]. bool_to_prop.
  destruct (sync_states d !! _) as [[row t]|] eqn:Hr; [|apply changes_refl]. case_guard as Hgn; [apply changes_refl|].
  case_guard as Hx; [apply changes_refl|]. bool_to_prop.
  assert (Sync_RevisionID n = Sync_RevisionID e) as Hrev by done. rewrite Hrev in Hr |- *.
  assert (row = e) as -> by (by eapply genuine_current). split_and!.
  - by apply kept_same.
  - by apply new_events_same.
  - eapply (state_moved _ _ e n t now); try done. simpl. by rewrite <- Hrev.
Qed.
Lemma state_at_current d e row : genuine d e -> state_at d e = Some row -> row = e /\ exists t, sync_states d !! Sync_RevisionID e = Some (e, t).
Proof.
  unfold state_at. intros Hgen. destruct (sync_states d !! _) as [[r t]|] eqn:Hr; simpl; [|done]. case_decide as Hg; [|done]. intros [= <-].
  assert (r = e) as -> by by eapply genuine_current. eauto.
Qed.

Lemma kept_summary d now s evidence b d' : insertProjectionSummaryTx d now s evidence = Ok (b, d') ->
  kept d d' /\ shared d' = shared d /\ sync_states d' = sync_states d /\
  exists row, summaries d' !! (Summary_RevisionID s, Summary_SchemaVersion s, Summary_ProjectorVersion s) = Some row /\
    ManifestHash (Stored_Summary row) = ManifestHash s.
Proof.
  unfold insertProjectionSummaryTx. destruct (summaries d !! _) as [row|] eqn:Hr.
  - case_guard as Hg; [|done]. intros [= <- <-]. bool_to_prop. split_and!; [done..|]. eauto.
  - destruct (revision_exists _ _); [|done]. intros [= <- <-]. split_and!; try done.
    + split; try done; simpl; [intros id j Hj; by exists j|]. intros k row Hk. by rewrite lookup_insert_ne by congruence.
    + simpl. rewrite lookup_insert_eq. eauto.
Qed.
Lemma kept_update_job d id allowed f d' : update_job d id allowed f = Some d' ->
  (forall r, Record_Request (f r) = Record_Request r /\ status_rank (Record_Status (f r)) = 3%nat) -> Forall (fun s => Terminal s = false) allowed ->
  kept d d' /\ job_events (shared d') = job_events (shared d) /\ sync_states d' = sync_states d /\ summaries d' = summaries d /\ handoffs d' = handoffs d /\
  exists r, jobs (shared d') !! id = Some (f r).
Proof.
  unfold update_job. intros Hu Hf Hall. destruct (row_of _ _) as [r|] eqn:Hr; simpl in Hu; [|done]. case_decide as Hk; [|done]. simplify_eq.
  apply row_of_Some in Hr as [Hr _]. destruct Hk as [_ Hin]. rewrite Forall_forall in Hall. specialize (Hall _ Hin). simpl. split_and!; try done.
  - split; try done; simpl. intros i x Hx. rewrite lookup_insert. case_decide as Hi; [|by exists x]. subst i. rewrite Hr in Hx. simplify_eq.
    exists (f x). destruct (Hf x) as [Hq Hrk]. split; [done|]. split; [done| |congruence]. rewrite Hrk. destruct (Record_Status x); simpl; lia.
  - exists r. apply lookup_insert_eq.
Qed.
Lemma kept_handoff d now revisionID stage hash : kept d (insert_handoff d now revisionID stage hash).2 /\
  is_Some (handoffs (insert_handoff d now revisionID stage hash).2 !! (revisionID, stage, hash)) /\
  shared (insert_handoff d now revisionID stage hash).2 = shared d /\ sync_states (insert_handoff d now revisionID stage hash).2 = sync_states d /\
  summaries (insert_handoff d now revisionID stage hash).2 = summaries d.
Proof.
  unfold insert_handoff. destruct (handoffs d !! _) as [row|] eqn:Hr; simpl; [by rewrite Hr; eauto|]. split_and!; try done.
  - split; try done; simpl; [intros id j Hj; by exists j|]. intros k Hk. rewrite lookup_insert. by case_decide.
  - rewrite lookup_insert_eq. eauto.
Qed.

Lemma with_warnings_key e w : Sync_RevisionID (with_warnings e w) = Sync_RevisionID e /\ Generation (with_warnings e w) = Generation e.
Proof. done. Qed.
(** Leaving [StateBuilding] keeps a valid state valid. *)
Lemma ready_valid e : Sync_Valid e = true -> Sync_Valid (ready_state e) = true.
Proof.
  unfold Sync_Valid, ready_state. cbn [Sync_RevisionID Pipeline ExternalTaskID ProviderRequestID ProviderTaskID Generation Sync_SafeError Sync_Warnings].
  intros Hv. apply andb_prop in Hv as [Hv ->]. rewrite andb_true_r. apply negb_true_iff in Hv. rewrite !orb_false_iff in Hv.
  destruct Hv as [[[[[[[Hr Hp] Hg] Hs] Ht] Hq] Hu] Hw]. rewrite Hr, Hs, Ht, Hq, Hu, Hw. apply Z.ltb_ge in Hg.
  rewrite (proj2 (Z.ltb_ge _ _)) by lia. done.
Qed.
(** The one commit of a Ready state, all or nothing. *)
Record ready_commit (d d' : GraphDb) (now : Time) (e : SyncState) (warnings : list string) (hash : string) : Prop := {
  commit_row : exists t, sync_states d !! Sync_RevisionID e = Some (e, t);
  commit_pipeline : Pipeline e = StateBuilding;
  commit_valid : Sync_Valid (with_warnings e warnings) = true;
  commit_kept : kept d d';
  commit_events : job_events (shared d') = job_events (shared d);
  commit_done : commit_evidence d' (Sync_RevisionID e) (LatestJobID e) hash;
  commit_states : sync_states d' = <[Sync_RevisionID e := (ready_state (with_warnings e warnings), now)]> (sync_states d)
}.
Lemma CommitGraphReady_cases d now e warnings summary evidence : genuine d e -> LatestJobID e <> EmptyString ->
  let '(r, d') := CommitGraphReady d now (with_warnings e warnings) summary evidence in
  (d' = d /\ forall s, r <> Ok (Some s, true)) \/
  (r = Ok (Some (ready_state (with_warnings e warnings)), true) /\ ready_commit d d' now e warnings (ManifestHash summary)).
Proof.
  intros Hgen Hjob. unfold CommitGraphReady. case_guard as Hg; [by left|]. bool_to_prop. unfold commitGraphReady.
  case_guard as Hv; [by left|]. bool_to_prop.
  change (state_at d (with_warnings e warnings)) with (state_at d e).
  destruct (state_at d e) as [row|] eqn:Hrow; [|by left].
  destruct (state_at_current _ _ _ Hgen Hrow) as [-> [t Ht]]. unfold finish_ready.
  change (Sync_RevisionID (with_warnings e warnings)) with (Sync_RevisionID e) in *.
  change (LatestJobID (with_warnings e warnings)) with (LatestJobID e).
  set (d1 := with_states d _). destruct (insertProjectionSummaryTx d1 now summary evidence) as [[b d2]|] eqn:Hs; cbn [result_bind]; [|by left].
  apply kept_summary in Hs as (K2 & Hsh2 & Hst2 & srow & Hsrow & Hmh). rewrite bool_decide_false by done.
  destruct (negb (ID_Valid (LatestJobID e))) eqn:Hid; [by left|].
  destruct (update_job d2 _ _ _) as [d3|] eqn:Hu; cbn [result_bind]; [|by left].
  apply kept_update_job in Hu as (K3 & He3 & Hst3 & Hsum3 & Hh3 & r & Hr); [|done|by repeat constructor].
  destruct (kept_handoff d3 now (Sync_RevisionID e) "impact" (ManifestHash summary)) as (K4 & Hh4 & Hsh4 & Hst4 & Hsum4).
  set (d4 := (insert_handoff d3 _ _ _ _).2) in *. right. split; [done|]. split; [by eauto|done|done|..].
  - transitivity d1; [by apply kept_same|transitivity d2; [done|by transitivity d3]].
  - by rewrite Hsh4, He3, Hsh2.
  - split_and!; [|exists (Summary_SchemaVersion summary), (Summary_ProjectorVersion summary), srow|done].
    + rewrite Hsh4. eexists. split_and!; [exact Hr|done|done].
    + assert (Summary_RevisionID summary = Sync_RevisionID e) as <- by done. by rewrite Hsum4, Hsum3.
  - rewrite Hst4, Hst3, Hst2. unfold d1. reflexivity.
Qed.
Lemma changes_ready d now e warnings summary evidence : genuine d e -> LatestJobID e <> EmptyString ->
  changes d (CommitGraphReady d now (with_warnings e warnings) summary evidence).2.
Proof.
  intros Hgen Hjob. pose proof (CommitGraphReady_cases d now e warnings summary evidence Hgen Hjob) as Hc.
  destruct (CommitGraphReady _ _ _ _ _) as [r d']. destruct Hc as [[-> _]|[-> [[t Ht] Hb Hv K Hev Hdone Hst]]]; [apply changes_refl|].
  split_and!; [done|by apply new_events_same|]. eapply (state_readied d d' e t now warnings); try done; [by eexists|by apply ready_valid].
Qed.
Lemma changes_failure d now e code : genuine d e -> changes d (CommitGraphFailure d now e code).2.
Proof.
  intros Hgen. unfold CommitGraphFailure. case_guard as Hg; [apply changes_refl|]. bool_to_prop. case_guard as Hv; [apply changes_refl|].
  destruct (state_at d e) as [row|] eqn:Hrow; [|apply changes_refl]. destruct (state_at_current _ _ _ Hgen Hrow) as [-> [t Ht]].
  case_guard as Hj; [apply changes_refl|]. bool_to_prop. destruct (update_job _ _ _ _) as [d2|] eqn:Hu; [|apply changes_refl].
  apply kept_update_job in Hu as (K & He & Hst & Hsum & Hh & r & Hr); [|done|by repeat constructor]. cbn [snd].
  split_and!; [|by apply new_events_same|].
  - etransitivity; [|exact K]. by apply kept_same.
  - eapply (state_failed d d2 e t now code); try done. by eexists.
Qed.
Lemma changes_handoff d now revisionID hash stage : changes d (CreateGraphImpactHandoff d now revisionID hash stage).2.
Proof.
  unfold CreateGraphImpactHandoff. case_guard; [apply changes_refl|]. case_guard; [apply changes_refl|].
  destruct (kept_handoff d now revisionID stage hash) as (K & _ & Hsh & Hst & _). destruct (insert_handoff _ _ _ _ _) as [b d']. cbn [snd] in *.
  split_and!; [done|by apply new_events_same; rewrite Hsh|by apply state_same].
Qed.
Lemma changes_handoff_state d now target hash status base job report text :
  changes d (SetImpactHandoffState d now target hash status base job report text).2.
Proof.
  unfold SetImpactHandoffState. case_guard; [apply changes_refl|]. case_guard; [apply changes_refl|].
  destruct (handoffs d !! _) as [row|] eqn:Hr; [|apply changes_refl]. cbn [snd]. split_and!; [|by apply new_events_same|by apply state_same].
  split; try done; simpl; [intros id j Hj; by exists j|]. intros k Hk. rewrite lookup_insert. case_goal; eauto.
Qed.
Lemma changes_insert_summary d now s evidence : changes d (InsertProjectionSummary d now s evidence).2.
Proof.
  unfold InsertProjectionSummary. case_guard; [apply changes_refl|]. destruct (insertProjectionSummaryTx _ _ _ _) as [[b d']|] eqn:Hs; [|apply changes_refl].
  apply kept_summary in Hs as (K & Hsh & Hst & _). cbn [snd]. split_and!; [done|by apply new_events_same; rewrite Hsh|by apply state_same].
Qed.
End transactions.

Section histories.
Context `{UnicodeTables, ApdLib, UuidLib, FloatText, TimeText}.
Context (svc : EntityStore.Service).

Lemma live_step_changes d d' : live_step svc d d' -> changes d d'.
Proof.
  destruct 1; subst; eauto using changes_shared, changes_foreign, changes_append, changes_create_job, changes_create_state, changes_swap, changes_ready,
    changes_failure, changes_handoff, changes_handoff_state, changes_insert_summary.
  split_and!; [|by apply new_events_same|by apply state_same]. split; try done; simpl. intros id r Hr. by exists r.
Qed.
Lemma live_steps_kept d d' : rtc (live_step svc) d d' -> kept d d'.
Proof. induction 1 as [|d d1 d' Hs _ IH]; [done|]. etransitivity; [|exact IH]. by apply live_step_changes. Qed.

(** ** The invariant *)
Definition no_task (s : SyncState) : Prop := ProviderTaskID s = EmptyString.
Record state_ok (d : GraphDb) (revisionID : ID) (s : SyncState) : Prop := {
  state_key : Sync_RevisionID s = revisionID;
  state_valid : Sync_Valid s = true;
  state_task : ExternalTaskID s = ProviderTaskID s;
  state_early : Pipeline s = StateSaved \/ Pipeline s = StateValidating \/ Pipeline s = StateBlockedValidation \/ Pipeline s = StateQueued -> no_task s;
  state_ready : Pipeline s = StateReady -> ready_evidence d revisionID (LatestJobID s);
  state_failed_ : Pipeline s = StateFailed -> failed_evidence d (LatestJobID s)
}.
Definition tasks_distinct (d : GraphDb) : Prop :=
  forall id1 id2 s1 t1 s2 t2, sync_states d !! id1 = Some (s1, t1) -> sync_states d !! id2 = Some (s2, t2) ->
    ProviderTaskID s1 = ProviderTaskID s2 -> ProviderTaskID s1 <> EmptyString -> id1 = id2.
(** The event log of a Graph job: from QUEUED, one permitted phase after another, unless a restore closed it. *)
Definition log_ok (d : GraphDb) : Prop :=
  forall id o e, job_events (shared d) !! (id, o) = Some e -> ~ other_kind d id ->
    JobID e = id /\ Ordinal e = o /\
    ((o = 1 /\ (phase_of (Phase e) = PhaseQueued \/ superseded e)) \/
     exists p, job_events (shared d) !! (id, o - 1) = Some p /\ ~ superseded p /\ Progress p <= Progress e /\
       (Phase_CanAdvanceTo (phase_of (Phase p)) (phase_of (Phase e)) = true \/ superseded e)) /\
    (superseded e -> job_over d id true).
Record graph_ok (d : GraphDb) : Prop := {
  ok_states : forall id s t, sync_states d !! id = Some (s, t) -> state_ok d id s;
  ok_tasks : tasks_distinct d;
  ok_log : log_ok d;
  ok_events : events_ok (shared d)
}.

Lemma state_ok_kept d d' id s : kept d d' -> state_ok d id s -> state_ok d' id s.
Proof.
  intros K [Hk Hv Ht He Hr Hf]. split; try done; [|by intros Hp; eapply failed_evidence_kept, Hf].
  intros Hp. eapply ready_evidence_kept; [done|by apply Hr].
Qed.
(** The row of one revision after a step. *)
Lemma state_after d d' id s t : (forall id s t, sync_states d !! id = Some (s, t) -> state_ok d id s) ->
  kept d d' -> state_change d d' -> sync_states d' !! id = Some (s, t) -> state_ok d' id s.
Proof.
  intros Hall K Hc Hs.
  assert (forall i x u, sync_states d !! i = Some (x, u) -> state_ok d' i x) as Hold by (intros; eapply state_ok_kept; eauto).
  assert (forall m k v, sync_states d' = <[k := v]> (sync_states d) -> state_ok d' k v.1 -> m = 0%nat -> state_ok d' id s) as Hnew.
  { intros _ k v Heq Hv _. rewrite Heq, lookup_insert in Hs. case_decide; [simplify_eq; exact Hv|eauto]. }
  destruct Hc as [Heq|s0 now Hfresh Hv Hg Hn Heq|e n t0 now He Hm Hv Hp Hfree Heq|e t0 now w He Hb Hev Hv Heq|e t0 now code He Hb Hev Hv Heq].
  - rewrite Heq in Hs. eauto.
  - apply (Hnew 0%nat _ _ Heq); [|done]. destruct Hfresh as (Ht & Hx & Hpipe). split; try done; simpl in *; [congruence|intros Hp; exfalso; naive_solver congruence..].
  - apply (Hnew 0%nat _ _ Heq); [|done]. simpl. destruct (Hold _ _ _ He) as [_ _ Ht Hearly _ _].
    destruct Hm; split; try done; simpl in *; try (intros [|[|[|]]]; congruence || apply Hearly; tauto); intros; exfalso; congruence.
  - apply (Hnew 0%nat _ _ Heq); [|done]. destruct (Hold _ _ _ He) as [_ _ Ht _ _ _]. split; try done; simpl; naive_solver congruence.
  - apply (Hnew 0%nat _ _ Heq); [|done]. destruct (Hold _ _ _ He) as [_ _ Ht _ _ _]. split; try done; simpl; naive_solver congruence.
Qed.
Lemma task_free_spec d id task id' s t : task_free d id task = true -> task <> EmptyString ->
  sync_states d !! id' = Some (s, t) -> ProviderTaskID s = task -> id' = id.
Proof.
  unfold task_free. intros Hf Hne Hs Ht. rewrite bool_decide_false in Hf by done. simpl in Hf. apply forallb_Forall in Hf.
  rewrite Forall_forall in Hf. specialize (Hf (id', (s, t))). simpl in Hf.
  assert ((id', (s, t)) ∈ map_to_list (sync_states d)) as Hin by by apply elem_of_map_to_list.
  specialize (Hf Hin). rewrite (bool_decide_true (ProviderTaskID s = task)) in Hf by done. rewrite orb_false_r in Hf. by apply bool_decide_eq_true in Hf.
Qed.
Lemma tasks_insert d d' id n t0 now : tasks_distinct d -> sync_states d' = <[id := (n, now)]> (sync_states d) ->
  (ProviderTaskID n = EmptyString \/ task_free d id (ProviderTaskID n) = true \/
   exists e, sync_states d !! id = Some (e, t0) /\ ProviderTaskID n = ProviderTaskID e) -> tasks_distinct d'.
Proof.
  intros Hd Heq Hn id1 id2 s1 t1 s2 t2. rewrite Heq, !lookup_insert.
  assert (forall i x u, sync_states d !! i = Some (x, u) -> ProviderTaskID x = ProviderTaskID n -> ProviderTaskID n <> EmptyString -> i = id) as Hfree.
  { intros i x u Hx Ht Hne. destruct Hn as [|[Hf|(e & He & Hte)]]; [done|by eapply task_free_spec|]. eapply Hd; [done|done|congruence|congruence]. }
  case_decide as Hi1; case_decide as Hi2; intros Hs1 Hs2 Hp Hne; subst; simplify_eq; try done.
  - symmetry. eapply Hfree; [exact Hs2|by rewrite Hp|congruence].
  - eapply Hfree; [exact Hs1|done|congruence].
  - exact (Hd _ _ _ _ _ _ Hs1 Hs2 Hp Hne).
Qed.
Lemma tasks_after d d' : tasks_distinct d -> state_change d d' -> tasks_distinct d'.
Proof.
  intros Hd Hc.
  destruct Hc as [Heq|s0 now Hfresh Hv Hg Hn Heq|e n t0 now He Hm Hv Hp Hfree Heq|e t0 now w He Hb Hev Hv Heq|e t0 now code He Hb Hev Hv Heq].
  - intros id1 id2 s1 t1 s2 t2. rewrite Heq. apply Hd.
  - eapply (tasks_insert _ _ _ _ 0); [done|exact Heq|]. left. apply Hfresh.
  - eapply (tasks_insert _ _ _ _ t0); [done|exact Heq|]. by right; left.
  - eapply (tasks_insert _ _ _ _ t0); [done|exact Heq|]. right; right. by exists e.
  - eapply (tasks_insert _ _ _ _ t0); [done|exact Heq|]. right; right. by exists e.
Qed.
Lemma superseded_is_last p e : Phase_CanAdvanceTo (phase_of (Phase p)) (phase_of (Phase e)) = true -> Phase_Valid (phase_of (Phase e)) = true ->
  ~ superseded p.
Proof. unfold superseded. intros Hadv Hv Hp. rewrite Hp in Hadv. revert Hadv Hv. by destruct (phase_of (Phase e)). Qed.
Lemma superseded_invalid e : superseded e -> Phase_Valid (phase_of (Phase e)) = false.
Proof. unfold superseded. intros Hs. by rewrite Hs. Qed.
Lemma job_over_kept d d' id : kept d d' -> job_over d id true -> job_over d' id true.
Proof. intros K (r & Hr & Ht). destruct (kept_jobs _ _ K _ _ Hr) as (r' & Hr' & [_ _ Heq]). rewrite (Heq Ht) in Hr'. by exists r. Qed.
Lemma log_after d d' : log_ok d -> kept d d' -> new_events d d' -> log_ok d'.
Proof.
  intros Hl K Hn id o e He Ho. assert (~ other_kind d id) as Ho' by (intros ?; by eapply Ho, other_kind_kept).
  pose proof (kept_events _ _ K) as Hsub. rewrite map_subseteq_spec in Hsub. destruct Hn as [_ Hn].
  destruct (Hn id o e He) as [Hold|[Hk|(Hc & <- & <-)]]; [|done|].
  - destruct (Hl id o e Hold Ho') as (Hj & Hord & Hcase & Hover). split_and!; [done..| |by intros Hs; eapply job_over_kept, Hover].
    destruct Hcase as [|(p & Hp & Hadv)]; [by left|right]. exists p. split; [by apply Hsub|done].
  - split_and!; [done..| |].
    + destruct Hc as [[[Hord Hph]|(p & Hp & _ & Hadv & Hv & Hprog)]|(Hs & (r & Hr & Hopen) & _ & [Hord|(p & Hp & Hprog)])].
      * left. split; [done|]. left. by rewrite Hph.
      * right. exists p. split_and!; [by apply Hsub|by eapply superseded_is_last|done|by left].
      * left. split; [done|by right].
      * right. exists p. split_and!; [by apply Hsub| |done|by right]. intros Hp'.
        destruct (Hl _ _ _ Hp Ho') as (_ & _ & _ & Hover). destruct (Hover Hp') as (r' & Hr' & Ht). congruence.
    + intros Hs. destruct Hc as [[[_ Hph]|(p & _ & _ & _ & Hv & _)]|(_ & _ & Hover & _)]; [..|done].
      * unfold superseded in Hs. rewrite Hph in Hs. by vm_compute in Hs.
      * apply superseded_invalid in Hs. congruence.
Qed.
Lemma graph_ok_changes d d' : graph_ok d -> changes d d' -> graph_ok d'.
Proof.
  intros [Hs Ht Hl Hev] (K & Hn & Hc). split; [|by eapply tasks_after|by eapply log_after|by apply Hn]. intros id s t. by eapply state_after.
Qed.
(** A restore closes one job: the row fails, and its last event follows the log. *)
Lemma changes_supersede d now id seen s' : events_ok (shared d) -> ID_Valid id = true -> now <> 0 -> Terminal (Record_Status seen) = false ->
  supersede now (shared d) (id, seen) = Ok s' -> changes d (with_shared d s').
Proof.
  intros Hok Hid Hnow Hseen Hs. pose proof (supersede_events_ok now _ _ _ _ Hok Hid Hnow Hs) as Hok'.
  destruct (supersede_inv now _ _ _ _ Hs) as (row & Hrow & Hp & Hst & Hn & ->).
  destruct (superseding_event_fields (shared d) now id) as [Hj Hph].
  destruct (superseding_event_last (shared d) now id Hok) as [_ Hprev]; [exists row; by apply row_of_Some|].
  set (e := superseding_event _ _ _) in *. split_and!; [|split; [done|]|by apply state_same].
  - split; try done; simpl; [|by apply insert_subseteq]. intros i r Hr. rewrite lookup_insert. case_decide as Hi; [|by exists r].
    subst i. assert (r = row) as -> by congruence. eexists. split; [done|]. rewrite <- Hst in Hseen. split; [done| |congruence].
    cbn. destruct (Record_Status row); simpl; lia.
  - intros i o x. simpl. rewrite lookup_insert. case_decide as Hk; [|by left]. intros [= <-]. injection Hk as <- <-. right. right.
    split_and!; [|done..]. right. split_and!; [done| | |].
    + exists row. rewrite Hj, Hst. done.
    + eexists. rewrite Hj. simpl. by rewrite lookup_insert_eq.
    + rewrite Hj. destruct Hprev as [[? _]|(p & Hl & Hpr & _)]; [by left|right]. exists p. split; [done|]. by rewrite Hpr.
Qed.
Lemma graph_ok_superseded d now coordinator : graph_ok d -> now <> 0 ->
  graph_ok (with_shared d (ReconcileRestoredJobs (shared d) now coordinator).2).
Proof.
  intros Hok Hnow. assert (with_shared d (shared d) = d) as Hsame by by destruct d.
  unfold ReconcileRestoredJobs. case_guard; [cbn [snd]; by rewrite Hsame|]. case_guard as Hids; [cbn [snd]; by rewrite Hsame|].
  destruct (foldr_result _ _ _) as [s'|] eqn:Hf; [|cbn [snd]; by rewrite Hsame]. apply negb_false_iff, forallb_Forall in Hids. rewrite Forall_forall in Hids.
  cbn [snd]. eapply (EntityHistory.foldr_result_along _ (fun _ s => graph_ok (with_shared d s)));
    [..|exact Hf]; [by rewrite Hsame|].
  clear s' Hf. intros before [id seen] s s' Hin _ Hgo Hs. pose proof (Hids _ Hin) as Hid. simpl in Hid.
  apply elem_of_candidates in Hin as [_ (_ & _ & Hst)]. simpl in Hst.
  change (with_shared d s') with (with_shared (with_shared d s) s'). eapply graph_ok_changes; [exact Hgo|].
  eapply (changes_supersede (with_shared d s) now id seen); [apply Hgo|done|done| |exact Hs]. by destruct Hst as [->|[->| ->]].
Qed.
Lemma graph_ok_restore d now : graph_ok d -> graph_ok (invalidate_states d now).
Proof.
  intros [Hs Ht Hl Hev]. split; [|..|done|done].
  - intros id s t Hx. simpl in Hx. rewrite lookup_fmap in Hx. destruct (sync_states d !! id) as [[s0 t0]|] eqn:Hs0; simpl in Hx; [|done].
    unfold invalidated in Hx. simpl in Hx. simplify_eq. destruct (Hs _ _ _ Hs0) as [Hk Hv _ _ _ _]. split; try done; simpl.
    unfold Sync_Valid in *. cbn [Sync_RevisionID Pipeline ExternalTaskID ProviderRequestID ProviderTaskID Generation Sync_SafeError Sync_Warnings].
    apply andb_prop in Hv as [Hv _]. apply negb_true_iff in Hv. rewrite !orb_false_iff in Hv. destruct Hv as [[[[[[[Hr _] Hg] _] _] _] _] _].
    rewrite Hr. apply Z.ltb_ge in Hg. rewrite (proj2 (Z.ltb_ge _ _)) by lia. reflexivity.
  - intros id1 id2 s1 t1 s2 t2 Hs1 _ _ Hne. exfalso. simpl in Hs1. rewrite lookup_fmap in Hs1.
    destruct (sync_states d !! id1) as [[s0 t0]|]; simpl in Hs1; [|done]. unfold invalidated in Hs1. by simplify_eq.
Qed.
Lemma reachable_graph_ok d : reachable_graph svc d -> graph_ok d.
Proof.
  intros [project Hr]. remember (empty_graph project) as d0 eqn:E. assert (graph_ok d0) as Hstart.
  { subst d0. split; [intros id s t|intros id1 id2 s1 t1 s2 t2|intros id o e|split; [intros id o e|intros id o1 o2 e1 e2]]; simpl; by rewrite lookup_empty. }
  clear E. induction Hr as [|d0 d1 d2 Hs _ IH]; [done|]. apply IH. destruct Hs as [Hs|[[now ->]|(now & coordinator & Hnow & ->)]]; [|by apply graph_ok_restore|by apply graph_ok_superseded].
  by eapply graph_ok_changes, live_step_changes.
Qed.

Lemma reachable_live d d' : reachable_graph svc d -> rtc (live_step svc) d d' -> reachable_graph svc d'.
Proof.
  intros [project Hr] Hl. exists project. etransitivity; [exact Hr|]. clear -Hl. induction Hl as [|? ? ? Hs _ IH]; [done|].
  eapply rtc_l; [|exact IH]. by left.
Qed.

(** ** What later transactions keep *)
Definition settled (s : SyncState) : bool :=
  bool_decide (Pipeline s = StateReady) || bool_decide (Pipeline s = StateFailed) || bool_decide (Pipeline s = StateBlockedValidation).
(** A row after a step: the same, or one generation and one permitted edge on. *)
Definition advances (s s' : SyncState) : Prop :=
  s' = s \/ (Generation s' = Generation s + 1 /\ Pipeline_CanTransitionTo (Pipeline s) (Pipeline s') = true /\ settled s = false).
Lemma service_move_advances e n : service_move e n -> Generation n = Generation e + 1 /\ settled e = false.
Proof. unfold settled. destruct 1 as [? Hp|? ? Hp|? ? Hp|? Hp|? ? ? Hp|? Hp]; simpl; by rewrite Hp. Qed.
Lemma state_change_advances d d' id s t : state_change d d' -> sync_states d !! id = Some (s, t) ->
  exists s' t', sync_states d' !! id = Some (s', t') /\ advances s s'.
Proof.
  intros Hc Hs.
  assert (forall k v u, sync_states d' = <[k := (v, u)]> (sync_states d) ->
    (forall x y, sync_states d !! k = Some (x, y) -> advances x v) -> exists s' t', sync_states d' !! id = Some (s', t') /\ advances s s') as Hnew.
  { intros k v u Heq Ha. rewrite Heq, lookup_insert. case_decide as Hk; [subst k; eauto|]. exists s, t. split; [done|by left]. }
  destruct Hc as [Heq|s0 now Hfresh Hv Hg Hn Heq|e n t0 now He Hm Hv Hp Hfree Heq|e t0 now w He Hb Hev Hv Heq|e t0 now code He Hb Hev Hv Heq].
  - rewrite Heq. exists s, t. split; [done|by left].
  - eapply Hnew; [exact Heq|]. intros x y Hx. congruence.
  - eapply Hnew; [exact Heq|]. intros x y Hx. rewrite He in Hx. simplify_eq. apply service_move_advances in Hm as [Hgen Hset]. by right.
  - eapply Hnew; [exact Heq|]. intros x y Hx. rewrite He in Hx. simplify_eq. right. unfold settled. simpl. by rewrite Hb.
  - eapply Hnew; [exact Heq|]. intros x y Hx. rewrite He in Hx. simplify_eq. right. unfold settled, in_flight in *. simpl.
    apply orb_prop in Hb as [Hb|Hb]; apply bool_decide_eq_true in Hb; by rewrite Hb.
Qed.
Lemma live_steps_advance d d' id s t : rtc (live_step svc) d d' -> sync_states d !! id = Some (s, t) ->
  exists s' t', sync_states d' !! id = Some (s', t') /\ (s' = s \/ (Generation s < Generation s' /\ settled s = false)).
Proof.
  intros Hr. revert s t. induction Hr as [d|d d1 d' Hs _ IH]; intros s t Hl; [by exists s, t; auto|].
  destruct (live_step_changes _ _ Hs) as (_ & _ & Hc). destruct (state_change_advances _ _ _ _ _ Hc Hl) as (s1 & t1 & Hl1 & Ha).
  destruct (IH _ _ Hl1) as (s' & t' & Hl' & Hfin). exists s', t'. split; [done|].
  destruct Ha as [->|(Hg & _ & Hset)]; [done|]. right. split; [|done]. destruct Hfin as [->|[? _]]; lia.
Qed.
Lemma live_step_ok d d' : graph_ok d -> live_step svc d d' -> graph_ok d'.
Proof. intros Hok Hs. by eapply graph_ok_changes, live_step_changes. Qed.
Lemma live_steps_ok d d' : graph_ok d -> rtc (live_step svc) d d' -> graph_ok d'.
Proof. intros Hok Hr. induction Hr as [|? ? ? Hs _ IH]; [done|]. apply IH. by eapply live_step_ok. Qed.
Lemma live_steps_settled d d' id s t : rtc (live_step svc) d d' -> settled s = true -> sync_states d !! id = Some (s, t) ->
  exists t', sync_states d' !! id = Some (s, t').
Proof. intros Hr Hset Hl. destruct (live_steps_advance _ _ _ _ _ Hr Hl) as (s' & t' & Hl' & [->|[_ Hn]]); [eauto|congruence]. Qed.
Lemma live_steps_genuine d d' e : rtc (live_step svc) d d' -> genuine d e -> genuine d' e.
Proof.
  intros Hr (row & t & Hl & Hcase). destruct (live_steps_advance _ _ _ _ _ Hr Hl) as (s' & t' & Hl' & Ha). exists s', t'. split; [done|].
  destruct Hcase as [Hlt| ->]; [left; destruct Ha as [->|[? _]]; lia|]. destruct Ha as [->|[? _]]; [by right|by left].
Qed.

(** C10: In every reachable database a settled synchronisation is backed by its job: a Ready revision has its job
    succeeded with the link to that revision, a stored projection summary and the impact handoff for the same manifest
    hash; a Failed revision has its job failed.  And no two revisions ever hold the same provider task. *)
Theorem settled_state_is_backed d id s t :
  reachable_graph svc d -> sync_states d !! id = Some (s, t) ->
  (Pipeline s = StateReady -> ready_evidence d id (LatestJobID s)) /\
  (Pipeline s = StateFailed -> failed_evidence d (LatestJobID s)) /\
  forall id' s' t', sync_states d !! id' = Some (s', t') -> ProviderTaskID s' = ProviderTaskID s -> ProviderTaskID s <> EmptyString -> id' = id.
Proof.
  intros Hr Hs. apply reachable_graph_ok in Hr as [Hok Htasks _ _]. destruct (Hok _ _ _ Hs) as [_ _ _ _ Hready Hfailed].
  split_and!; [done|done|]. intros id' s' t' Hs' Hp Hne. by eapply (Htasks id' id); [..|rewrite Hp].
Qed.

(** From one event of a log to the next. *)
Definition log_edge (p q : Event) : Prop :=
  Progress p <= Progress q /\ (Phase_CanAdvanceTo (phase_of (Phase p)) (phase_of (Phase q)) = true \/ superseded q).
Definition log_start (e : Event) : Prop := phase_of (Phase e) = PhaseQueued \/ superseded e.
(** The log from its first event to any event in it. *)
Lemma log_is_a_path d id o e :
  reachable_graph svc d -> job_events (shared d) !! (id, o) = Some e -> ~ other_kind d id ->
  (exists first, job_events (shared d) !! (id, 1) = Some first /\ log_start first) /\
  (forall k, 1 <= k < o -> exists p q, job_events (shared d) !! (id, k) = Some p /\ job_events (shared d) !! (id, k + 1) = Some q /\
    ~ superseded p /\ log_edge p q) /\
  (superseded e -> job_over d id true /\ job_events (shared d) !! (id, o + 1) = None).
Proof.
  intros Hr He Hk. apply reachable_graph_ok in Hr as [_ _ Hlog [Hev _]].
  assert (forall n o e, Z.to_nat o = n -> job_events (shared d) !! (id, o) = Some e ->
    (exists first, job_events (shared d) !! (id, 1) = Some first /\ log_start first) /\
    forall k, 1 <= k < o -> exists p q, job_events (shared d) !! (id, k) = Some p /\ job_events (shared d) !! (id, k + 1) = Some q /\
      ~ superseded p /\ log_edge p q) as Hall.
  { clear o e He. intros n. induction n as [|n IH]; intros o e Hn He; destruct (Hev _ _ _ He) as (_ & Ho & Hv).
    - exfalso. unfold Event_Valid in Hv. rewrite Ho in Hv. assert (o <= 0) as Hle by lia. apply Z.ltb_ge in Hle. rewrite Hle, andb_false_r in Hv. done.
    - destruct (Hlog _ _ _ He Hk) as (_ & _ & [[-> Hph]|(p & Hp & Hlast & Hprog & Hadv)] & _); [split; [by exists e|lia]|].
      destruct (IH (o - 1) p ltac:(lia) Hp) as [Hfirst Hpath]. split; [done|]. intros k Hlt. destruct (decide (k = o - 1)) as [->|]; [|apply Hpath; lia].
      exists p, e. replace (o - 1 + 1) with o by lia. done. }
  destruct (Hall _ o e eq_refl He) as [Hfirst Hpath]. split_and!; [done|done|]. intros Hs. destruct (Hlog _ _ _ He Hk) as (_ & _ & _ & Hover).
  split; [by apply Hover|]. destruct (job_events (shared d) !! (id, o + 1)) as [q|] eqn:Hq; [|done]. exfalso.
  destruct (Hlog _ _ _ Hq Hk) as (_ & _ & [[Ho _]|(p & Hp & Hn & _)] & _).
  - destruct (Hev _ _ _ He) as (_ & Ho' & Hv). unfold Event_Valid in Hv. rewrite !andb_true_iff in Hv. rewrite Ho' in Hv.
    destruct Hv as [[[[[[[[[[[_ Hv] _] _] _] _] _] _] _] _] _] _]. lia.
  - replace (o + 1 - 1) with o in Hp by lia. congruence.
Qed.

(** C12: Between two restores a revision's synchronisation only moves forward: its row is never lost, each change raises
    the generation and follows the permitted edges of the pipeline, and a Ready, Failed or Blocked row never changes. *)
Theorem pipeline_only_advances d d' id s t :
  rtc (live_step svc) d d' -> sync_states d !! id = Some (s, t) ->
  exists s' t', sync_states d' !! id = Some (s', t') /\
    (s' = s \/ (Generation s < Generation s' /\ settled s = false)) /\
    rtc (fun p q => Pipeline_CanTransitionTo p q = true) (Pipeline s) (Pipeline s').
Proof.
  intros Hr Hl. enough (exists s' t', sync_states d' !! id = Some (s', t') /\ rtc (fun p q => Pipeline_CanTransitionTo p q = true) (Pipeline s) (Pipeline s')) as Hpath.
  { destruct Hpath as (s' & t' & Hl' & Hp). destruct (live_steps_advance _ _ _ _ _ Hr Hl) as (s2 & t2 & Hl2 & Hc). rewrite Hl2 in Hl'. simplify_eq. eauto. }
  revert s t Hl. induction Hr as [d|d d1 d' Hs _ IH]; intros s t Hl; [by exists s, t|].
  destruct (live_step_changes _ _ Hs) as (_ & _ & Hc). destruct (state_change_advances _ _ _ _ _ Hc Hl) as (s1 & t1 & Hl1 & Ha).
  destruct (IH _ _ Hl1) as (s' & t' & Hl' & Hp). exists s', t'. split; [done|]. destruct Ha as [->|(_ & He & _)]; [done|]. by eapply rtc_l.
Qed.
End histories.
