(* ===== verification/GraphPuts.v ===== *)
(** * The snapshots the Graph services put

    [quiet]: a service calls the provider without a PUT.  [at_most_one]: it puts
    one snapshot, a given one, or none. *)
From S2P Require Import Prelude GoSort GoStrings GoCrypto GoJson GoFloat Domain JobStore FormulaDecimal DomainEntity.
From S2P Require EntityStore EntityReads VersionGate GraphProjector.
From S2P Require Import ValidationTypes Job GraphSync GraphStore GraphServices.
Open Scope Z_scope.

Definition is_put (c : ProviderCall) : bool := match c with CallPut _ _ _ => true | _ => false end.
Definition puts (l : list ProviderCall) : list ProviderCall := List.filter is_put l.
Lemma puts_app l k : puts (l ++ k) = (puts l ++ puts k)%list.
Proof. apply List.filter_app. Qed.

Section quiet.
Context {P : Type} `{GraphProvider P, Environment}.

Definition quiet {A : Type} (m : Saga P A) : Prop := forall w, puts (calls (m w).2) = puts (calls w).
Definition at_most_one {A : Type} (c : ProviderCall) (m : Saga P A) : Prop :=
  forall w, puts (calls (m w).2) = puts (calls w) \/ puts (calls (m w).2) = (puts (calls w) ++ [c])%list.
Lemma quiet_ret {A : Type} (a : A) : quiet (saga_ret a).
Proof. done. Qed.
Lemma quiet_access {A : Type} (f : GraphDb -> Time -> option ID -> A * GraphDb) : quiet (access f).
Proof. intros w. unfold access. by destruct (f _ _ _). Qed.
Lemma quiet_read {A : Type} (f : GraphDb -> A) : quiet (read f).
Proof. apply quiet_access. Qed.
Lemma quiet_call {A : Type} c (f : P -> result A ProviderFailure * P) : is_put c = false -> quiet (call c f).
Proof. intros Hc w. unfold call. destruct (f _) as [r p]. simpl. rewrite puts_app. unfold puts. simpl. by rewrite Hc, app_nil_r. Qed.
Lemma quiet_bind {A B : Type} (m : Saga P A) (f : A -> Saga P B) : quiet m -> (forall a, quiet (f a)) -> quiet (saga_bind m f).
Proof. intros Hm Hf w. unfold saga_bind. specialize (Hm w). destruct (m w) as [a w']. simpl in *. by rewrite Hf. Qed.
Lemma quiet_try {A B E : Type} (m : Saga P (result A E)) (f : A -> Saga P (result B E)) : quiet m -> (forall a, quiet (f a)) -> quiet (saga_try m f).
Proof. intros Hm Hf. apply quiet_bind; [done|]. by intros []. Qed.
Lemma one_quiet {A : Type} c (m : Saga P A) : quiet m -> at_most_one c m.
Proof. intros Hm w. left. apply Hm. Qed.
Lemma one_after {A B : Type} c (m : Saga P A) (f : A -> Saga P B) : quiet m -> (forall a, at_most_one c (f a)) -> at_most_one c (saga_bind m f).
Proof. intros Hm Hf w. unfold saga_bind. specialize (Hm w). destruct (m w) as [a w']. simpl in *. rewrite <- Hm. apply Hf. Qed.
Lemma one_before {A B : Type} c (m : Saga P A) (f : A -> Saga P B) : at_most_one c m -> (forall a, quiet (f a)) -> at_most_one c (saga_bind m f).
Proof. intros Hm Hf w. unfold saga_bind. specialize (Hm w). destruct (m w) as [a w']. simpl in *. by rewrite Hf. Qed.
Lemma one_try_after {A B E : Type} c (m : Saga P (result A E)) (f : A -> Saga P (result B E)) :
  quiet m -> (forall a, at_most_one c (f a)) -> at_most_one c (saga_try m f).
Proof. intros Hm Hf. apply one_after; [done|]. intros [a|e]; [apply Hf|by apply one_quiet]. Qed.
Lemma one_try_before {A B E : Type} c (m : Saga P (result A E)) (f : A -> Saga P (result B E)) :
  at_most_one c m -> (forall a, quiet (f a)) -> at_most_one c (saga_try m f).
Proof. intros Hm Hf. apply one_before; [done|]. by intros []. Qed.
Lemma one_put namespace version snapshot requestID :
  at_most_one (CallPut namespace version snapshot) (put_snapshot namespace version snapshot requestID).
Proof. intros w. right. unfold put_snapshot, call. destruct (PutSnapshot _ _ _ _ _) as [r p]. simpl. by rewrite puts_app. Qed.
End quiet.
#[export] Hint Resolve quiet_ret quiet_access quiet_read one_put : quiet.
#[export] Hint Extern 1 (quiet (call _ _)) => (apply quiet_call; reflexivity) : quiet.
(** Binds, tries, cases: down to the effects. *)
Ltac quiet := repeat first
  [ progress intros
  | solve [eauto with quiet]
  | apply quiet_bind | apply quiet_try
  | match goal with |- quiet (match ?x with _ => _ end) => destruct x end ].

Section services.
Context {P : Type} `{GraphProvider P, Environment, UuidLib}.
Notation silent m := (quiet (P := P) m).

Lemma quiet_get_job id : silent (get_job id).
Proof. apply quiet_read. Qed.
Lemma quiet_get_state id : silent (get_state id).
Proof. apply quiet_read. Qed.
Lemma quiet_events id after : silent (list_events id after).
Proof. apply quiet_read. Qed.
Lemma quiet_swap e n : silent (swap e n).
Proof. apply quiet_access. Qed.
Hint Resolve quiet_get_job quiet_get_state quiet_events quiet_swap : quiet.
Lemma quiet_append e : silent (AppendGraphJobEvent e).
Proof. unfold AppendGraphJobEvent. quiet. Qed.
Hint Resolve quiet_append : quiet.
Lemma quiet_checkpoint jobID phase progress : silent (checkpoint jobID phase progress).
Proof. unfold checkpoint, Checkpoint. quiet. Qed.
Hint Resolve quiet_checkpoint : quiet.
Lemma quiet_transition id expected next res : silent (TransitionGraphJob id expected next res).
Proof. unfold TransitionGraphJob. quiet. Qed.
Hint Resolve quiet_transition : quiet.
Lemma quiet_start jobID : silent (Start jobID).
Proof. unfold Start. quiet. Qed.
Lemma quiet_building revisionID : silent (MarkBuilding revisionID).
Proof. unfold MarkBuilding, transition, move_state, confirm_state. quiet. Qed.
Lemma quiet_fail jobID revisionID code : silent (Fail jobID revisionID code).
Proof. unfold Fail. quiet. Qed.
Hint Resolve quiet_fail : quiet.
Lemma quiet_fail_task jobID revisionID task : silent (FailProviderTask jobID revisionID task).
Proof. unfold FailProviderTask. quiet. Qed.
Lemma quiet_poll r : silent (Poll r).
Proof. unfold Poll, inspect. quiet. Qed.
Lemma quiet_ready jobID revisionID summary evidence v : silent (ReadyService_Commit jobID revisionID summary evidence v).
Proof. unfold ReadyService_Commit. quiet. Qed.
Lemma one_submit r : at_most_one (P := P) (CallPut (Submit_Namespace r) (Submit_Version r) (Submit_Snapshot r)) (Submit r).
Proof.
  unfold Submit. case_guard; [by apply one_quiet; quiet|]. apply one_after; [quiet|]. intros res. destruct (found_state res) as [state|]; [|by apply one_quiet; quiet].
  case_guard; [by apply one_quiet; quiet|]. case_guard; [apply one_quiet; quiet|]. apply one_try_after; [quiet|]. intros _.
  apply one_try_before; [apply one_put|]. quiet.
Qed.
End services.
#[export] Hint Resolve quiet_get_job quiet_get_state quiet_events quiet_swap quiet_checkpoint quiet_transition quiet_start quiet_building quiet_fail
  quiet_fail_task quiet_poll quiet_ready : quiet.
