(* ===== verification/GraphServiceFacts.v ===== *)
(** * The Graph services are sequences of the transactions of GraphHistory

    [lively]: whatever a service does, with the other goroutines' transactions in
    between, is a sequence of [live_step]s of the database and of calls of the
    provider.  [runs] adds a postcondition, which may use the world it starts in. *)
From S2P Require Import Prelude GoSort GoStrings GoCrypto GoJson GoFloat Domain JobStore FormulaDecimal DomainEntity.
From S2P Require EntityStore EntityHistory EntityReads VersionGate GraphProjector.
From S2P Require Import ValidationTypes Job GraphSync GraphStore GraphServices GraphHistory GraphPuts.
Import GraphProjector(ProjectionSummary, ManifestHash).
Open Scope Z_scope.

Section calculus.
Context {P : Type} `{GraphProvider P, Environment, UnicodeTables, ApdLib, UuidLib, FloatText, TimeText}.
Context (svc : EntityStore.Service).
Context (others_live : forall n d, rtc (live_step svc) d (others n d)).

Notation live := (rtc (live_step svc)).
(** The provider moves by its calls only. *)
Inductive provider_step (p : P) : P -> Prop :=
  | provider_health id : provider_step p (Provider_Health id p).2
  | provider_inspect namespace version id : provider_step p (InspectSnapshot namespace version id p).2
  | provider_put namespace version request id : provider_step p (PutSnapshot namespace version request id p).2
  | provider_task task id : provider_step p (GetTask task id p).2.
Definition later (w w' : World P) : Prop := live (db w) (db w') /\ rtc provider_step (provider w) (provider w').
#[export] Instance later_preorder : PreOrder later.
Proof. split; [by split|]. intros a b c [H1a H1b] [H2a H2b]. split; by etrans. Qed.
Lemma later_db w w' : later w w' -> live (db w) (db w').
Proof. by intros []. Qed.
Definition runs {A : Type} (m : Saga P A) (w : World P) (Q : A -> World P -> Prop) : Prop :=
  graph_ok (db w) -> later w (m w).2 /\ Q (m w).1 (m w).2.
Definition lively {A : Type} (m : Saga P A) : Prop := forall w, runs m w (fun _ _ => True).

Lemma runs_ret {A : Type} (a : A) w (Q : A -> World P -> Prop) : Q a w -> runs (saga_ret a) w Q.
Proof. by intros HQ _. Qed.
Lemma later_ok w w' : graph_ok (db w) -> later w w' -> graph_ok (db w').
Proof. intros Hok [Hl _]. by eapply live_steps_ok. Qed.
Lemma runs_after {A : Type} (m : Saga P A) w (Q Q' : A -> World P -> Prop) :
  runs m w Q -> (forall a w', later w w' -> graph_ok (db w') -> Q a w' -> Q' a w') -> runs m w Q'.
Proof. intros Hm HQ Hok. destruct (Hm Hok) as [Hl Hq]. split; [done|]. apply HQ; [done|by eapply later_ok|done]. Qed.
Lemma runs_bind {A B : Type} (m : Saga P A) (f : A -> Saga P B) w Q :
  runs m w (fun a w' => later w w' -> graph_ok (db w') -> runs (f a) w' Q) -> runs (saga_bind m f) w Q.
Proof.
  intros Hm Hok. destruct (Hm Hok) as [Hl Hf]. unfold saga_bind. destruct (m w) as [a w1]. simpl in *.
  assert (graph_ok (db w1)) as Hok1 by by eapply later_ok. destruct (Hf Hl Hok1 Hok1) as [Hl2 HQ]. split; [by etrans|done].
Qed.
Lemma runs_try {A B E : Type} (m : Saga P (result A E)) (f : A -> Saga P (result B E)) w Q :
  runs m w (fun r w' => later w w' -> graph_ok (db w') ->
    match r with Ok a => runs (f a) w' Q | Err e => Q (Err e) w' end) -> runs (saga_try m f) w Q.
Proof.
  intros Hm. apply runs_bind. eapply runs_after; [exact Hm|]. intros [a|e] w' Hl Hok HQ _ _; [by apply HQ|]. apply runs_ret. by apply HQ.
Qed.
Lemma runs_access {A : Type} (f : GraphDb -> Time -> option ID -> A * GraphDb) w (Q : A -> World P -> Prop) :
  (forall d now id w', live (db w) d -> graph_ok d -> provider w' = provider w -> calls w' = calls w -> db w' = (f d now id).2 ->
     live d (f d now id).2 /\ Q (f d now id).1 w') -> runs (access f) w Q.
Proof.
  intros Hf Hok. unfold access. pose proof (others_live (ticks w) (db w)) as Hl.
  set (d := others (ticks w) (db w)) in *. set (now := clock (ticks w)). set (id := fresh (ticks w)).
  specialize (Hf d now id (mkWorld (f d now id).2 (provider w) (S (ticks w)) (calls w)) Hl ltac:(by eapply live_steps_ok) eq_refl eq_refl eq_refl).
  destruct (f d now id) as [a d']. simpl in *. destruct Hf as [Hl2 HQ]. split; [split; [by etrans|done]|done].
Qed.
Lemma runs_read {A : Type} (f : GraphDb -> A) w (Q : A -> World P -> Prop) :
  (forall w', later w w' -> graph_ok (db w') -> Q (f (db w')) w') -> runs (read f) w Q.
Proof.
  intros Hf. apply runs_access. intros d now id w' Hl Hok Hp Hc Hd. simpl in *. split; [done|]. rewrite <- Hd in *.
  apply Hf; [|done]. split; [done|]. by rewrite Hp.
Qed.
Lemma runs_call {A : Type} c (f : P -> result A ProviderFailure * P) w (Q : result A GraphError -> World P -> Prop) :
  provider_step (provider w) (f (provider w)).2 ->
  (forall w', later w w' -> provider w' = (f (provider w)).2 -> calls w' = (calls w ++ [c])%list ->
     Q match (f (provider w)).1 with Ok a => Ok a | Err e => Err (ErrProvider e) end w') -> runs (call c f) w Q.
Proof.
  intros Hs Hf Hok. unfold call. destruct (f (provider w)) as [r p] eqn:Hr. simpl in *.
  assert (later w (mkWorld (db w) p (ticks w) (calls w ++ [c])%list)) as Hl by (split; [done|by apply rtc_once]). split; [done|]. by apply Hf.
Qed.

Lemma lively_runs {A : Type} (m : Saga P A) w (Q : A -> World P -> Prop) :
  lively m -> (forall a w', later w w' -> graph_ok (db w') -> Q a w') -> runs m w Q.
Proof. intros Hm HQ. eapply runs_after; [apply Hm|]. eauto. Qed.
Lemma runs_lively {A : Type} (m : Saga P A) w Q : runs m w Q -> runs m w (fun _ _ => True).
Proof. intros Hm. by eapply runs_after. Qed.
Lemma runs_quiet {A : Type} (m : Saga P A) w Q : quiet m -> runs m w Q -> runs m w (fun a w' => Q a w' /\ puts (calls w') = puts (calls w)).
Proof. intros Hq Hm Hok. destruct (Hm Hok). split; [done|]. by rewrite Hq. Qed.
Lemma runs_one {A : Type} c (m : Saga P A) w Q : at_most_one c m -> runs m w Q ->
  runs m w (fun a w' => Q a w' /\ (puts (calls w') = puts (calls w) \/ puts (calls w') = (puts (calls w) ++ [c])%list)).
Proof. intros Hq Hm Hok. destruct (Hm Hok). split; [done|]. split; [done|apply Hq]. Qed.
Lemma lively_ret {A : Type} (a : A) : lively (saga_ret a).
Proof. intros w. by apply runs_ret. Qed.
Lemma lively_bind {A B : Type} (m : Saga P A) (f : A -> Saga P B) : lively m -> (forall a, lively (f a)) -> lively (saga_bind m f).
Proof. intros Hm Hf w. apply runs_bind. apply lively_runs; [done|]. intros a w' _ _ _ _. apply Hf. Qed.
Lemma lively_try {A B E : Type} (m : Saga P (result A E)) (f : A -> Saga P (result B E)) :
  lively m -> (forall a, lively (f a)) -> lively (saga_try m f).
Proof. intros Hm Hf. apply lively_bind; [done|]. intros [a|e]; [apply Hf|apply lively_ret]. Qed.
Lemma lively_read {A : Type} (f : GraphDb -> A) : lively (read f).
Proof. intros w. by apply runs_read. Qed.
Lemma lively_call {A : Type} c (f : P -> result A ProviderFailure * P) : (forall p, provider_step p (f p).2) -> lively (call c f).
Proof. intros Hs w. by apply runs_call. Qed.
(** One transaction, in any database the caller may meet. *)
Lemma lively_access {A : Type} (f : GraphDb -> Time -> option ID -> A * GraphDb) :
  (forall d now id, graph_ok d -> live d (f d now id).2) -> lively (access f).
Proof. intros Hf w. apply runs_access. intros d now id w' _ Hok _ _ _. split; [by apply Hf|done]. Qed.
Lemma lively_if {A : Type} (b : bool) (m m' : Saga P A) : lively m -> lively m' -> lively (if b then m else m').
Proof. by destruct b. Qed.
End calculus.

#[export] Hint Resolve lively_ret lively_read lively_call : lively.
#[export] Hint Constructors provider_step : lively.
(** Binds, tries, cases: down to the accesses. *)
Ltac lively := repeat first
  [ progress intros
  | solve [eauto with lively]
  | apply lively_bind | apply lively_try
  | match goal with |- lively _ (match ?x with _ => _ end) => destruct x end ].

Section services.
Context {P : Type} `{GraphProvider P, Environment, UnicodeTables, ApdLib, UuidLib, FloatText, TimeText}.
Context (svc : EntityStore.Service).
Context (others_live : forall n d, rtc (live_step svc) d (others n d)).
Notation live := (rtc (live_step svc)).
Notation live_saga m := (lively (P := P) svc m).

Lemma valid_id_nonempty `{!UuidLaws} id : ID_Valid id = true -> id <> EmptyString.
Proof. intros Hid ->. unfold ID_Valid in Hid. by rewrite uuid_v7_empty in Hid. Qed.

(** ** Transactions on the shared job table *)
Lemma live_shared_same now d s' : step now (shared d) s' -> job_events s' = job_events (shared d) -> live d (with_shared d s').
Proof. intros Hs He. apply rtc_once. eapply live_shared; [exact Hs| |done]. intros id o. by rewrite He. Qed.
Lemma Transition_events s now id expected next res observed :
  job_events (Transition s now id expected next res observed).2 = job_events s.
Proof. unfold Transition. by repeat (case_match; try done). Qed.
Lemma RequestCancellation_events s now id : job_events (RequestCancellation s now id).2 = job_events s.
Proof. unfold RequestCancellation. by repeat (case_match; try done). Qed.
Lemma lively_transition id expected next res : live_saga (TransitionGraphJob id expected next res).
Proof.
  unfold TransitionGraphJob, get_job. lively. apply lively_access; [done|]. intros d now newID _.
  pose proof (step_transition now (shared d) id expected next res (CancelGeneration value)) as Hs.
  pose proof (Transition_events (shared d) now id expected next res (CancelGeneration value)) as He.
  destruct (Transition _ _ _ _ _ _ _) as [r s]. simpl in *. by eapply live_shared_same.
Qed.
Lemma lively_cancellation id : live_saga (RequestGraphCancellation id).
Proof.
  unfold RequestGraphCancellation, get_job. lively. apply lively_access; [done|]. intros d now newID _.
  pose proof (step_cancel now (shared d) id) as Hs. pose proof (RequestCancellation_events (shared d) now id) as He.
  destruct (RequestCancellation _ _ _) as [r s]. simpl in *. by eapply live_shared_same.
Qed.

(** ** Checkpoints *)
(** The last event of a log that was read. *)
Definition last_read (d : GraphDb) (id : ID) (e : GraphJobEvent) : Prop :=
  exists p, job_events (shared d) !! (id, Ordinal p) = Some p /\ graphEventFromShared p = e.
Lemma runs_list_events id w (Q : result (list GraphJobEvent) GraphError -> World P -> Prop) :
  (forall r w', later svc w w' -> graph_ok (db w') ->
     (forall l, r = Ok l -> forall e, e ∈ l -> last_read (db w') id e) -> Q r w') -> runs svc (list_events id 0) w Q.
Proof.
  intros HQ. unfold list_events. apply runs_read; [done|]. intros w' Hl Hok. apply HQ; [done..|].
  intros l. unfold ListGraphJobEvents. case_guard; [done|]. unfold shared_error, ListEvents.
  case_guard; [done|]. intros Hr e He. destruct (map_result _ _) as [stored|] eqn:Hm; simpl in Hr; [|done]. simplify_eq.
  apply list_elem_of_fmap in He as (p & -> & Hp). apply map_result_Ok in Hm.
  apply list_elem_of_lookup in Hp as [i Hp]. destruct (Forall2_lookup_r _ _ _ _ _ Hm Hp) as (x & Hx & Hscan).
  unfold scanSharedEvent in Hscan. destruct (Event_Valid x); [|done]. simplify_eq. apply list_elem_of_lookup_2 in Hx.
  unfold events_after in Hx. destruct (row_of _ _); [|by apply elem_of_nil in Hx].
  apply elem_of_sort_by, list_elem_of_filter in Hx as [[Hj _] Hx]. apply list_elem_of_fmap in Hx as ([[i1 o] y] & -> & Hin).
  apply elem_of_map_to_list in Hin. simpl in *. destruct (ok_events _ Hok) as [Hkey _]. destruct (Hkey _ _ _ Hin) as (Hji & Ho & _).
  exists y. by rewrite <- Hj, Hji, Ho.
Qed.
(** An event that follows what was read, or starts the log. *)
Definition event_follows (d : GraphDb) (e : GraphJobEvent) : Prop :=
  Phase_Valid (GEvent_Phase e) = true /\
  ((GEvent_Ordinal e = 1 /\ GEvent_Phase e = PhaseQueued) \/
   exists previous, last_read d (GEvent_JobID e) previous /\ GEvent_Ordinal e = GEvent_Ordinal previous + 1 /\
     Phase_CanAdvanceTo (GEvent_Phase previous) (GEvent_Phase e) = true /\ GEvent_Progress previous <= GEvent_Progress e).
Lemma event_continues d d' e createdAt : live d d' -> event_follows d e -> continues d' (shared_event e createdAt).
Proof.
  intros Hl (Hv & Hcase). pose proof (kept_events _ _ (live_steps_kept _ _ _ Hl)) as Hsub. rewrite map_subseteq_spec in Hsub.
  unfold continues. simpl. destruct Hcase as [(Ho & Hph)|(previous & (p & Hp & <-) & Ho & Ha & Hpr)].
  - left. by rewrite Hph.
  - right. simpl in *. exists p. rewrite Ho, phase_of_text by done. replace (Ordinal p + 1 - 1) with (Ordinal p) by lia. split_and!; try done. by apply Hsub.
Qed.
Lemma live_append_event d d' e createdAt : live d d' -> event_follows d e ->
  live d' (with_shared d' (Append (shared d') (shared_event e createdAt)).2).
Proof. intros Hl He. apply rtc_once. eapply live_append; [|done]. by eapply event_continues. Qed.
Lemma runs_append e (w : World P) : event_follows (db w) e -> runs svc (AppendGraphJobEvent e) w (fun _ _ => True).
Proof.
  intros He. unfold AppendGraphJobEvent. case_guard; [by apply runs_ret|]. apply runs_try. apply lively_runs; [apply lively_read; done|].
  intros [history|er] w1 Hl1 _ _ _; [|done]. case_guard; [by apply runs_ret|]. apply runs_try. apply lively_runs; [apply lively_read; done|].
  intros [previous|er] w2 Hl2 _ _ _; [|done]. apply runs_bind. apply lively_runs; [by apply lively_access|].
  intros now w3 Hl3 _ _ _. case_guard; [by apply runs_ret|]. apply runs_bind. apply runs_access; [done|].
  intros d now' id w4 Hl4 Hok _ _ _.
  match goal with |- context [Append (shared d) (shared_event e ?c)] => pose proof (live_append_event (db w) d e c) as Happ end.
  destruct (Append _ _) as [r s]. simpl in *. split; [|intros _ _; by apply runs_ret].
  apply Happ; [|done]. etransitivity; [|exact Hl4]. apply later_db. by do 2 (etransitivity; [eassumption|]).
Qed.
Lemma lively_checkpoint jobID phase progress warning safeError res : live_saga (Checkpoint jobID phase progress warning safeError res).
Proof.
  intros w. unfold Checkpoint. case_guard as Hg; [by apply runs_ret|]. bool_to_prop. apply runs_try. apply lively_runs; [by apply lively_read|].
  intros [job|e] w1 Hl1 _ _ _; [|done]. case_guard; [by apply runs_ret|]. apply runs_try. apply runs_list_events.
  intros [events|e] w2 Hl2 _ Hread _ _; [|done]. destruct (last events) as [previous|] eqn:Hlast.
  - case_guard; [by apply runs_ret|]. case_guard as Hadv; [by apply runs_ret|]. bool_to_prop. apply runs_append. split; [done|]. right.
    exists previous. split_and!; simpl; [|done|done|lia]. eapply Hread; [done|]. by apply last_Some_elem_of.
  - case_guard as Hq; [by apply runs_ret|]. bool_to_prop. subst phase. apply runs_append. split; [done|]. by left.
Qed.
Lemma lively_small_checkpoint jobID phase progress : live_saga (checkpoint jobID phase progress).
Proof. apply lively_checkpoint. Qed.
Hint Resolve lively_transition lively_cancellation lively_checkpoint lively_small_checkpoint : lively.
Lemma lively_get_job id : live_saga (get_job id).
Proof. by apply lively_read. Qed.
Lemma lively_get_state id : live_saga (get_state id).
Proof. by apply lively_read. Qed.
Hint Resolve lively_get_job lively_get_state : lively.
Lemma lively_start jobID : live_saga (Start jobID).
Proof. unfold Start. lively. Qed.
Lemma lively_effect jobID before p after q effect : live_saga effect -> live_saga (RunEffect jobID before p after q effect).
Proof. intros He. unfold RunEffect. lively. Qed.

(** ** The pipeline state *)
Lemma runs_get_state id (w : World P) Q :
  (forall r w', later svc w w' -> graph_ok (db w') ->
     (forall s, found_state r = Some s -> Sync_RevisionID s = id /\ genuine (db w') s) -> Q r w') -> runs svc (get_state id) w Q.
Proof.
  intros HQ. apply runs_read; [done|]. intros w' Hl Hok. apply HQ; [done..|]. intros s. unfold GetGraphSyncState.
  case_guard; [done|]. destruct (sync_states (db w') !! id) as [[s0 t]|] eqn:Hs; [|done]. unfold scan_state. destruct (Sync_Valid s0); [|done].
  intros [= <-]. pose proof (state_key _ _ _ (ok_states _ Hok _ _ _ Hs)) as Hk. split; [done|]. exists s0, t. rewrite Hk. by auto.
Qed.
Lemma runs_swap e n (w : World P) : genuine (db w) e -> service_move e n -> runs svc (swap e n) w (fun r w' =>
  forall s b, r = Ok (Some s, b) -> s = n /\ genuine (db w') n).
Proof.
  intros He Hm. apply runs_access; [done|]. intros d now id w' Hl _ _ _ Hdb.
  assert (genuine d e) as Hg by by eapply live_steps_genuine. split; [by apply rtc_once; eapply live_swap|].
  intros s b. rewrite Hdb. unfold CompareAndSwapGraphSyncState. case_guard; [done|]. destruct (sync_states d !! _) as [[row t]|]; [|done].
  case_guard; [done|]. case_guard; [done|]. intros [= <- <-]. split; [done|]. exists n, now. simpl. rewrite lookup_insert_eq. auto.
Qed.
Lemma lively_confirm revisionID p code : live_saga (confirm_state revisionID p code).
Proof. unfold confirm_state. lively. Qed.
Lemma runs_move revisionID state p code (w : World P) : genuine (db w) state -> service_move state (with_pipeline state p code) ->
  runs svc (move_state revisionID state p code) w (fun _ _ => True).
Proof.
  intros Hs Hm. pose proof (runs_swap state (with_pipeline state p code) w Hs Hm) as Hsw. unfold move_state. apply runs_try. apply runs_lively in Hsw. eapply runs_after; [exact Hsw|]. intros [[[updated|] [|]]|e] w1 _ _ _ _ _;
    first [done|by apply runs_ret|apply lively_confirm].
Qed.
Lemma lively_building revisionID : live_saga (MarkBuilding revisionID).
Proof.
  intros w. unfold MarkBuilding, transition. case_guard; [by apply runs_ret|]. apply runs_bind. apply runs_get_state.
  intros r w1 _ _ Hs _ _. destruct (found_state r) as [state|]; [|by apply runs_ret]. destruct (Hs _ eq_refl) as [_ Hg].
  case_guard; [by apply runs_ret|]. case_guard as Hq; [by apply runs_ret|]. bool_to_prop. apply runs_move; [done|]. by constructor.
Qed.
Lemma runs_access_state {A : Type} (f : GraphDb -> Time -> option ID -> A * GraphDb) (w : World P) e : genuine (db w) e ->
  (forall d now id, genuine d e -> live_step svc d (f d now id).2) -> runs svc (access f) w (fun _ _ => True).
Proof.
  intros He Hf. apply runs_access; [done|]. intros d now id w' Hl _ _ _ _. split; [|done]. apply rtc_once, Hf. by eapply live_steps_genuine.
Qed.
Lemma lively_fail jobID revisionID code : live_saga (Fail jobID revisionID code).
Proof.
  intros w. unfold Fail. case_guard; [by apply runs_ret|]. apply runs_bind. apply runs_get_state.
  intros r w1 _ _ Hs _ _. destruct (found_state r) as [state|]; [|by apply runs_ret]. destruct (Hs _ eq_refl) as [_ Hg].
  repeat (case_guard; [by apply runs_ret|]). eapply runs_access_state; [done|]. intros d now id Hd. by eapply live_failure.
Qed.
Hint Resolve lively_start lively_building lively_fail : lively.
Lemma lively_fail_task jobID revisionID task : live_saga (FailProviderTask jobID revisionID task).
Proof. unfold FailProviderTask. lively. Qed.
Lemma lively_cancel jobID : live_saga (Cancel jobID).
Proof. unfold Cancel. lively. Qed.
Lemma lively_poll r : live_saga (Poll r).
Proof. unfold Poll, inspect. lively. Qed.
Hint Resolve lively_fail_task lively_poll : lively.

(** ** Submission and reconciliation *)
Lemma blank_task s : bool_decide (TrimSpace s = EmptyString) = false -> TrimSpace s <> EmptyString.
Proof. apply bool_decide_eq_false. Qed.
Lemma lively_submit r : live_saga (Submit r).
Proof.
  intros w. unfold Submit. case_guard; [by apply runs_ret|]. apply runs_bind. apply runs_get_state.
  intros res w1 _ _ Hs _ _. destruct (found_state res) as [state|]; [|by apply runs_ret]. destruct (Hs _ eq_refl) as [_ Hg].
  case_guard as Hb; [by apply runs_ret|]. case_guard as Ht; [case_guard; [by apply runs_ret|]; apply lively_try; [apply lively_small_checkpoint|]; lively|].
  bool_to_prop. apply runs_try. apply lively_runs; [apply lively_small_checkpoint|]. intros [ck|e] w2 Hl2 _ _ _; [|done].
  apply runs_try. apply lively_runs; [apply lively_call; intros; constructor|]. intros [snapshot|e] w3 Hl3 _ _ _; [|done].
  case_guard as Hc; [by apply runs_ret|]. bool_to_prop. apply runs_try. eapply runs_after.
  - apply runs_swap; [|by apply move_accepted]. eapply live_steps_genuine; [|exact Hg]. apply later_db. by etrans.
  - intros [[updated [|]]|e] w4 _ _ _ _ _; [|by apply runs_ret|done]. simpl. apply lively_try; [apply lively_small_checkpoint|]. lively.
Qed.
Hint Resolve lively_submit : lively.
Lemma lively_reconcile r e : live_saga (ReconcileTaskNotFound r e).
Proof.
  intros w. unfold ReconcileTaskNotFound. case_guard; [by apply runs_ret|]. apply runs_bind. apply runs_get_state.
  intros res w1 _ _ Hs _ _. destruct (found_state res) as [state|]; [|by apply runs_ret]. destruct (Hs _ eq_refl) as [_ Hg].
  case_guard as Hb; [by apply runs_ret|]. bool_to_prop. apply runs_bind. apply lively_runs; [apply lively_call; intros; constructor|]. intros inspected w2 Hl2 _ _ _.
  match goal with |- context [match ?t with Ok target => _ | Err e0 => _ end] => destruct t as [target|er] end; [|by apply runs_ret].
  destruct (ReconcileMissingTask _ _) as [decision good]. case_guard; [by apply runs_ret|]. destruct (AcceptExisting decision).
  { apply lively_bind; [apply lively_small_checkpoint|]. lively. }
  apply runs_bind. eapply runs_after.
  - apply runs_swap; [by eapply live_steps_genuine; [apply later_db|]|]. by apply move_forget.
  - intros [[updated [|]]|er] w4 _ _ _ _ _; [|by apply runs_ret..]. apply lively_bind; [apply lively_submit|]. lively.
Qed.
Hint Resolve lively_reconcile : lively.

(** ** The commit *)
Definition revision_committed (d : GraphDb) (jobID revisionID : ID) (hash : string) (s : SyncState) : Prop :=
  (exists t, sync_states d !! revisionID = Some (s, t)) /\ Pipeline s = StateReady /\ LatestJobID s = jobID /\
  commit_evidence d revisionID jobID hash.
Lemma committed_kept d d' jobID revisionID hash s : live d d' -> revision_committed d jobID revisionID hash s -> revision_committed d' jobID revisionID hash s.
Proof.
  intros Hl ([t Ht] & Hp & Hj & Hc). split_and!; [|done|done|by eapply commit_evidence_kept, Hc; apply (live_steps_kept svc)].
  apply (live_steps_settled svc d d' revisionID s t Hl); [|exact Ht]. unfold settled. by rewrite Hp.
Qed.
Lemma runs_ready `{!UuidLaws} jobID revisionID summary evidence v (w : World P) :
  runs svc (ReadyService_Commit jobID revisionID summary evidence v) w (fun r w' => forall s, r = Ok (Some s, true) ->
    revision_committed (db w') jobID revisionID (ManifestHash summary) s).
Proof.
  unfold ReadyService_Commit. case_guard as Hv; [by apply runs_ret|]. bool_to_prop. apply runs_bind. apply runs_get_state.
  intros res w1 _ _ Hs _ _. destruct (found_state res) as [state|]; [|by apply runs_ret]. destruct (Hs _ eq_refl) as [Hrev Hg].
  case_guard as Hb; [by apply runs_ret|]. bool_to_prop. assert (LatestJobID state <> EmptyString) as Hne by (subst jobID; by apply valid_id_nonempty).
  apply runs_try. apply runs_access; [done|]. intros d now id w2 Hl _ _ _ Hdb.
  assert (genuine d state) as Hd by by eapply live_steps_genuine.
  pose proof (CommitGraphReady_cases d now state (Verified_Warnings v) summary evidence Hd Hne) as Hcases.
  pose proof (live_ready svc d _ now state (Verified_Warnings v) summary evidence Hd Hne eq_refl) as Hstep.
  destruct (CommitGraphReady _ _ _ _ _) as [r d']. simpl in *. split; [by apply rtc_once|]. intros _ _.
  destruct r as [ready|e]; [|done]. apply runs_try. apply lively_runs; [apply lively_small_checkpoint|]. intros [ck|e] w3 Hl3 _ _ _; [|done].
  apply runs_try. apply lively_runs; [apply lively_small_checkpoint|]. intros [ck2|e] w4 Hl4 _ _ _; [|done]. apply runs_ret.
  intros s [= ->]. destruct Hcases as [[_ Hn]|[[= ->] Hc]]; [by destruct (Hn s)|].
  apply (committed_kept d'); [rewrite <- Hdb; apply later_db; by etrans|]. destruct Hc as [_ _ _ _ _ Hdone Hst]. rewrite <- Hrev. split_and!; [|done|by simpl|congruence].
  exists now. rewrite Hst. apply lookup_insert_eq.
Qed.
(** ** The provider's answer to a poll *)
(** An inspection answered between two worlds. *)
Definition inspected (w w' : World P) (namespace version requestID : string) (snapshot : Snapshot) : Prop :=
  exists p, rtc provider_step (provider w) p /\ (InspectSnapshot namespace version requestID p).1 = Ok snapshot /\
    rtc provider_step (InspectSnapshot namespace version requestID p).2 (provider w').
Lemma inspected_later w0 w w' namespace version requestID snapshot : later svc w0 w -> inspected w w' namespace version requestID snapshot ->
  inspected w0 w' namespace version requestID snapshot.
Proof. intros [_ Hp] (p & Hb & Hi & Ha). exists p. split_and!; [by etrans|done|done]. Qed.
Lemma inspected_before w w' w1 namespace version requestID snapshot : later svc w' w1 -> inspected w w' namespace version requestID snapshot ->
  inspected w w1 namespace version requestID snapshot.
Proof. intros [_ Hp] (p & Hb & Hi & Ha). exists p. split_and!; [done|done|by etrans]. Qed.
Lemma runs_poll r (w : World P) : runs svc (Poll r) w (fun res w' => forall task v, res = Ok (task, Some v) ->
  exists snapshot, inspected w w' (Poll_Namespace r) (Poll_Version r) (Poll_RequestID r) snapshot /\ v = VerifySnapshot (Poll_Expectation r) snapshot).
Proof.
  unfold Poll. case_guard; [by apply runs_ret|]. apply runs_bind. apply lively_runs; [by apply lively_read|]. intros res w1 Hl1 _ _ _.
  destruct (found_state res) as [state|]; [|by apply runs_ret]. case_guard; [by apply runs_ret|]. apply runs_try.
  apply lively_runs; [apply lively_small_checkpoint|]. intros [ck|e] w2 Hl2 _ _ _; [|done]. apply runs_try.
  apply lively_runs; [apply lively_call; intros; constructor|]. intros [task|e] w3 Hl3 _ _ _; [|done]. case_guard; [by apply runs_ret|].
  case_guard; [by apply runs_ret|]. case_guard; [by apply runs_ret|]. apply runs_try.
  apply lively_runs; [apply lively_small_checkpoint|]. intros [ck2|e] w4 Hl4 _ _ _; [|done]. apply runs_try. unfold inspect. apply runs_call; [constructor|].
  intros w5 Hl5 Hp5 _. destruct (InspectSnapshot _ _ _ (provider w4)) as [[snapshot|f] p] eqn:Hi; simpl in *; intros _ _; [|done]. apply runs_ret.
  intros ? ? [= <- <-]. exists snapshot. split; [|done]. exists (provider w4). rewrite Hi, Hp5. split_and!; [|done|done].
  assert (later svc w w4) as [_ Hp] by (by do 3 (etransitivity; [eassumption|])). exact Hp.
Qed.

(** ** Resubmission *)
(** The provider answered, after a world, that the snapshot is unknown. *)
Definition answered_missing (w : World P) (namespace version requestID : string) : Prop :=
  exists p f, rtc provider_step (provider w) p /\ (InspectSnapshot namespace version requestID p).1 = Err f /\
    isProviderErrorCode f "SNAPSHOT_NOT_FOUND" = true.
Lemma runs_reconcile r e (w : World P) : runs svc (ReconcileTaskNotFound r e) w (fun _ w' =>
  puts (calls w') = puts (calls w) \/
  (puts (calls w') = (puts (calls w) ++ [CallPut (Rec_Namespace r) (Rec_Version r) (Rec_Snapshot r)])%list /\
   answered_missing w (Rec_Namespace r) (Rec_Version r) (Rec_RequestID r))).
Proof.
  unfold ReconcileTaskNotFound. case_guard; [by apply runs_ret; left|]. apply runs_bind.
  eapply runs_after; [apply runs_quiet; [apply quiet_get_state|apply (runs_get_state _ _ (fun r w' => forall s, found_state r = Some s -> genuine (db w') s))]|].
  { intros res w1 _ _ Hs s Hf. by apply Hs. }
  intros res w1 Hl1 _ [Hs Hp1] _ _. destruct (found_state res) as [state|]; [|by apply runs_ret; left]. specialize (Hs _ eq_refl).
  case_guard as Hb; [by apply runs_ret; left|]. bool_to_prop. apply runs_bind. unfold inspect. apply runs_call; [constructor|].
  intros w2 Hl2 _ Hc2. assert (puts (calls w2) = puts (calls w)) as Hp2 by (rewrite Hc2, puts_app; unfold puts at 2; simpl; by rewrite app_nil_r).
  destruct (InspectSnapshot _ _ _ (provider w1)) as [answer p2] eqn:Hi. cbn [fst]. intros _ _.
  set (target := match _ with Ok s => Ok (Some s) | Err _ => _ end).
  destruct target as [target'|er] eqn:Ht; [|by apply runs_ret; left]. destruct (ReconcileMissingTask _ _) as [decision good] eqn:Hd.
  case_guard as Hg; [by apply runs_ret; left|]. apply negb_false_iff in Hg. subst good. destruct (AcceptExisting decision) eqn:Ha.
  { apply runs_bind. eapply runs_after; [apply runs_quiet; [apply quiet_checkpoint|apply lively_small_checkpoint]|].
    intros [ck|er] w3 _ _ [_ Hp3] _ _; apply runs_ret; left; congruence. }
  assert (answered_missing w (Rec_Namespace r) (Rec_Version r) (Rec_RequestID r)) as Hmiss.
  { unfold target in Ht. destruct answer as [snapshot|f].
    - simplify_eq. unfold ReconcileMissingTask in Hd. destruct (Verified_Ready _); by simplify_eq.
    - destruct (isProviderErrorCode f "SNAPSHOT_NOT_FOUND") eqn:Hf; [|done]. exists (provider w1), f. rewrite Hi. by split_and!; [apply Hl1|..]. }
  clear target Ht. apply runs_bind. eapply runs_after; [apply runs_quiet; [apply quiet_swap|apply runs_swap; [by eapply live_steps_genuine; [apply later_db|]|by apply move_forget]]|].
  intros [[updated [|]]|er] w3 _ _ [_ Hp3] _ _; [|apply runs_ret; left; congruence..]. apply runs_bind.
  eapply runs_after; [eapply runs_one; [apply one_submit|by apply lively_submit]|]. intros sub w4 _ _ [_ Hput] _ _.
  destruct sub; apply runs_ret; (destruct Hput as [Hput|Hput]; [left; congruence|right; split; [by rewrite Hput, Hp3, Hp2|done]]).
Qed.

(** ** Admission and the validation pipeline *)
Lemma lively_validation revisionID : live_saga (run_full_validation svc revisionID).
Proof.
  apply lively_access; [done|]. intros d now newID _. unfold RunFullValidation.
  destruct (EntityStore.RunValidation _ _ _ _ _ _ _) as [[c rep]|e] eqn:Hr; [|done]. simpl. apply rtc_once.
  eapply (live_configuration _ _ _ c ∅); [by eapply EntityHistory.step_edit, EntityHistory.step_validation|].
  unfold add_revisions, with_configuration, with_shared. simpl. rewrite (left_id_L ∅ (∪)). by destruct d as [[]].
Qed.
Lemma lively_create_job request : live_saga (create_job request).
Proof. apply lively_access; [done|]. intros d now id _. apply rtc_once. by eapply live_create_job. Qed.
Lemma GraphJob_Valid_id job : GraphJob_Valid job = true -> ID_Valid (GJob_ID job) = true.
Proof. unfold GraphJob_Valid. by destruct (ID_Valid (GJob_ID job)). Qed.
Lemma scanGraphJob_Ok row job : scanGraphJob row = Ok job -> ID_Valid (GJob_ID job) = true.
Proof. unfold scanGraphJob. destruct (GraphJob_Valid row) eqn:Hv; [|done]. intros [= <-]. by apply GraphJob_Valid_id. Qed.
Lemma findGraphJob_valid d id job : findGraphJob d id = Ok (Some job) -> ID_Valid (GJob_ID job) = true.
Proof.
  unfold findGraphJob. destruct (graph_row d id) as [row|]; [|done]. destruct (scanGraphJob row) eqn:Hs; simpl; [|done].
  intros [= ->]. by eapply scanGraphJob_Ok.
Qed.
Lemma create_job_valid d now id request job b : (CreateOrGetGraphJob d now id request).1 = Ok (job, b) -> ID_Valid (GJob_ID job) = true.
Proof.
  unfold CreateOrGetGraphJob. case_guard; [done|]. destruct (findGraphJobByKey d _) as [[x|]|e] eqn:Hf; [| |done].
  - case_guard; [done|]. intros [= <- <-]. unfold findGraphJobByKey in Hf. destruct (key_holder _ _); [|done]. by eapply findGraphJob_valid.
  - match goal with |- context [match ?b with Ok _ => _ | Err _ => _ end] => destruct b end; [|done]. destruct id as [id|]; [|done].
    case_guard as Hv; [done|]. apply negb_false_iff in Hv. destruct (insert_graph_job _ _ _ _); [|done]. intros [= <- <-]. by apply GraphJob_Valid_id in Hv.
Qed.
Lemma lively_require revisionID configHash versions : live_saga (RequireFullValidation revisionID configHash versions).
Proof. unfold RequireFullValidation, gate_check. lively. Qed.
Hint Resolve lively_validation lively_create_job lively_require : lively.
Lemma lively_admit request versions : live_saga (Admit request versions).
Proof. unfold Admit. lively. Qed.
Hint Resolve lively_admit : lively.
Lemma lively_admit_retry previous key versions : live_saga (AdmitRetry previous key versions).
Proof. unfold AdmitRetry. lively. Qed.
Lemma lively_finish state p code (w : World P) : genuine (db w) state -> service_move state (with_pipeline state p code) ->
  runs svc (finish state p code) w (fun _ _ => True).
Proof.
  intros Hs Hm. unfold finish. apply runs_try. eapply runs_after; [by apply runs_swap|]. intros [[u b]|e] w1 _ _ _ _ _; [|done]. by apply runs_ret.
Qed.
Lemma lively_queue `{!UuidLaws} makeRequest state request (w : World P) : genuine (db w) state -> Pipeline state = StateValidating ->
  runs svc (queue makeRequest state request) w (fun _ _ => True).
Proof.
  intros Hs Hp. unfold queue. apply runs_bind. apply lively_runs; [by apply lively_read|]. intros [warnings|e] w1 Hl1 _ _ _.
  2: { apply lively_finish; [by eapply live_steps_genuine; [apply later_db|]|by constructor]. }
  apply runs_try. unfold create_job. apply runs_access; [done|]. intros d now id w2 Hl2 _ _ _ Hdb.
  pose proof (create_job_valid d now id (makeRequest request warnings)) as Hv.
  assert (live d (CreateOrGetGraphJob d now id (makeRequest request warnings)).2) as Hstep by (apply rtc_once; by eapply live_create_job).
  destruct (CreateOrGetGraphJob _ _ _ _) as [r d']. cbn [fst snd] in *. split; [done|]. intros _ _. destruct r as [[job b]|e]; [|done].
  apply runs_try. eapply runs_after.
  - apply runs_swap; [|apply move_queued; [done|apply valid_id_nonempty; by eapply Hv]]. rewrite Hdb.
    eapply live_steps_genuine; [exact Hstep|]. eapply live_steps_genuine; [exact Hl2|]. by eapply live_steps_genuine; [apply later_db|].
  - intros [[u c]|e] w3 _ _ _ _ _; [|done]. by apply runs_ret.
Qed.
Lemma lively_validate_and_queue `{!UuidLaws} makeRequest state request (w : World P) : genuine (db w) state ->
  runs svc (validate_and_queue svc makeRequest state request) w (fun _ _ => True).
Proof.
  intros Hs. unfold validate_and_queue. cbv zeta. case_guard as Hp; [by apply runs_ret|]. bool_to_prop.
  assert (forall w1, later svc w w1 -> runs svc (queue makeRequest state request) w1 (fun _ _ => True) /\
    forall code, runs svc (finish state StateBlockedValidation code) w1 (fun _ _ => True)) as Hend.
  { intros w1 Hl. assert (genuine (db w1) state) by (by eapply live_steps_genuine; [apply later_db|]). split; [by apply lively_queue|].
    intros code. apply lively_finish; [done|by constructor]. }
  apply runs_bind. unfold gate_check. apply lively_runs; [by apply lively_read|]. intros first w1 Hl1 _ _ _.
  destruct first as [[]|e]; try by apply Hend.
  apply runs_bind. apply lively_runs; [by apply lively_validation|]. intros ran w2 Hl2 _ _ _. assert (later svc w w2) by by etrans.
  destruct ran; [|by apply Hend]. apply runs_bind. apply lively_runs; [by apply lively_read|]. intros second w3 Hl3 _ _ _.
  assert (later svc w w3) by by etrans. destruct second as [[]|e]; by apply Hend.
Qed.
Lemma lively_pipeline `{!UuidLaws} makeRequest request : live_saga (ValidationPipeline_Start svc makeRequest request).
Proof.
  intros w. unfold ValidationPipeline_Start. case_guard as Hv; [by apply runs_ret|]. apply runs_try. apply runs_get_state.
  intros found w1 _ _ Hs _ _. destruct found as [found|e]; [|done]. apply runs_try.
  apply (runs_after svc _ _ (fun r w' => forall state, r = Ok state -> genuine (db w') state)).
  - destruct found as [state|]; [apply runs_ret; intros ? [= <-]; by apply Hs|].
    apply runs_try. apply runs_access; [done|]. intros d now id w2 Hl _ _ _ Hdb. split.
    { apply rtc_once. eapply live_create_state; [|done]. split_and!; [done..|by left]. }
    intros _ _. unfold CreateGraphSyncState in *. repeat (case_guard; [done|]). apply runs_ret. intros ? [= <-]. rewrite Hdb.
    eexists _, now. simpl. rewrite lookup_insert_eq. auto.
  - intros [state|e] w2 _ _ Hg _ _; [|done]. specialize (Hg _ eq_refl). apply runs_try.
    apply (runs_after svc _ _ (fun r w' => forall state, r = Ok (Some state) -> genuine (db w') state)).
    + case_guard as Hp; [|apply runs_ret; by intros ? [= <-]]. bool_to_prop. apply runs_try. eapply runs_after; [apply runs_swap; [done|by constructor]|].
      intros [[u b]|e] w3 _ _ Hu _ _; [|done]. apply runs_ret. intros s. destruct b; [|done]. intros [= ->]. by destruct (Hu _ _ eq_refl) as [-> Hgen].
    + intros [[moved|]|e] w3 _ _ Hm _ _; [|by apply runs_ret|done]. by apply lively_validate_and_queue, Hm.
Qed.

(** ** Recovery, shutdown and the impact queue, over lively ports *)
Definition dispatcher_lively (d : RecoveryDispatcher) : Prop :=
  forall work, live_saga (ResumeGraphJob d work) /\ live_saga (ReconcileInterruptedGraphJob d work).
Definition resumer_lively (r : RecoveryResumer) : Prop :=
  forall work, live_saga (ResolveGraphRecovery r work) /\ live_saga (ResumeUnsubmittedGraphJob r work) /\
    forall observed, live_saga (ObserveRecoveredTask r work observed).
Lemma lively_poll_original r work : resumer_lively r -> live_saga (pollOriginal r work).
Proof.
  intros Hr. destruct (Hr work) as (Hresolve & Hresume & Hobserve). unfold pollOriginal.
  assert (forall q e, live_saga (ReconcileTaskNotFound q e)) by (intros; by apply lively_reconcile). lively.
Qed.
Lemma durable_lively r : resumer_lively r -> dispatcher_lively (DurableRecoveryDispatcher r).
Proof.
  intros Hr work. destruct (Hr work) as (Hresolve & Hresume & Hobserve). pose proof (lively_poll_original r work Hr). split; simpl; unfold durable_resume, durable_reconcile; lively.
Qed.
Lemma lively_recover_all d states results : dispatcher_lively d -> live_saga (recover_all d states results).
Proof.
  intros Hd. revert results. induction states as [|state states IH]; intros results; simpl; [apply lively_ret|]. apply lively_bind; [|lively].
  unfold recoverOne, list_events. assert (forall work, live_saga (ResumeGraphJob d work)) by (intros; apply Hd).
  assert (forall work, live_saga (ReconcileInterruptedGraphJob d work)) by (intros; apply Hd). lively.
Qed.
Lemma lively_recover d limit : dispatcher_lively d -> live_saga (Recover d limit).
Proof. intros Hd. unfold Recover. pose proof (fun l k => lively_recover_all d l k Hd). lively. Qed.
Lemma lively_each {A E : Type} (f : A -> Saga P (result unit E)) l : (forall a, live_saga (f a)) -> live_saga (saga_each f l).
Proof. intros Hf. induction l; simpl; lively. Qed.
Lemma lively_shutdown limit : live_saga (PrepareShutdown limit).
Proof.
  unfold PrepareShutdown. assert (forall s, live_saga (interrupt_running s)) by (intros; unfold interrupt_running; lively).
  pose proof (fun l => lively_each interrupt_running l ltac:(done)). lively.
Qed.
Lemma lively_impact scheduler limit : (forall enqueue h, scheduler = Some enqueue -> live_saga (enqueue h)) -> live_saga (ImpactRecovery_Recover scheduler limit).
Proof.
  intros Hs. assert (forall l k, live_saga (dispatch_all scheduler l k)); [|unfold ImpactRecovery_Recover; lively].
  induction l as [|h l IH]; intros k; simpl; [apply lively_ret|]. apply lively_bind; [|lively]. unfold Dispatch.
  destruct scheduler as [enqueue|]; [specialize (Hs enqueue h eq_refl)|]; lively.
Qed.

(** ** What a job that is not running can no longer do *)
Lemma live_job_kept d d' id job : live d d' -> GetGraphJob d id = Ok job -> forall job', GetGraphJob d' id = Ok job' ->
  GJob_RevisionID job' = GJob_RevisionID job /\ (status_rank (GJob_Status job) <= status_rank (GJob_Status job'))%nat.
Proof.
  intros Hl Hj job' Hj'. apply live_steps_kept in Hl. pose proof (kept_jobs _ _ Hl) as Hk. pose proof (kept_project _ _ Hl) as Hp.
  assert (forall x y j, GetGraphJob x y = Ok j -> exists r retryOf evidence, jobs (shared x) !! y = Some r /\ j = graph_job r retryOf evidence) as Hread.
  { intros x y j. unfold GetGraphJob. case_guard; [done|]. unfold graph_row. destruct (row_of (shared x) y) as [r|] eqn:Hr; simpl; [|done].
    case_decide; [|done]. destruct (default _ _) as [retryOf evidence]. unfold scanGraphJob. destruct (GraphJob_Valid _); [|done]. intros [= <-].
    apply row_of_Some in Hr as [Hr _]. by exists r, retryOf, evidence. }
  destruct (Hread _ _ _ Hj) as (r & q & ev & Hr & ->). destruct (Hread _ _ _ Hj') as (r' & q' & ev' & Hr' & ->).
  destruct (Hk _ _ Hr) as (r2 & Hr2 & [Hq Hrank _]). rewrite Hr2 in Hr'. simplify_eq. simpl. by rewrite Hq.
Qed.
Lemma checkpoint_stopped id phase progress d job (w : World P) : live d (db w) -> GetGraphJob d id = Ok job -> (2 <= status_rank (GJob_Status job))%nat ->
  phase <> PhaseReady -> phase <> PhaseImpactHandoffRecorded ->
  runs svc (checkpoint id phase progress) w (fun r _ => exists e, r = Err e /\ forall f, e <> ErrProvider f).
Proof.
  intros Hl Hj Hrank Hp1 Hp2. unfold checkpoint, Checkpoint. case_guard; [apply runs_ret; eexists; split; [done|by intros]|]. apply runs_try.
  unfold get_job. apply runs_read; [done|]. intros w1 Hl1 _ _ _.
  destruct (GetGraphJob (db w1) id) as [job'|e] eqn:Hj'.
  - destruct (live_job_kept d (db w1) id job ltac:(etransitivity; [exact Hl|by apply later_db]) Hj _ Hj') as [_ Hle].
    case_guard as Hg; [apply runs_ret; eexists; split; [done|by intros]|]. exfalso. apply andb_false_iff in Hg as [Hg|Hg].
    + apply negb_false_iff, bool_decide_eq_true in Hg. rewrite Hg in Hle. simpl in Hle. lia.
    + apply negb_false_iff in Hg. apply andb_true_iff in Hg as [_ Hg]. apply orb_true_iff in Hg as [Hg|Hg]; by apply bool_decide_eq_true in Hg.
  - exists e. split; [done|]. intros f ->. unfold GetGraphJob, scanGraphJob in Hj'. by repeat case_match.
Qed.
Lemma poll_stopped r d job (w : World P) : live d (db w) -> GetGraphJob d (Poll_JobID r) = Ok job -> (2 <= status_rank (GJob_Status job))%nat ->
  runs svc (Poll r) w (fun res _ => exists e, res = Err e /\ forall f, e <> ErrProvider f).
Proof.
  intros Hl Hj Hrank. unfold Poll. assert (forall e : GraphError, (forall f, e <> ErrProvider f) -> forall w,
    runs svc (saga_ret (Err e)) w (fun (res : result (Task * option SnapshotVerification) GraphError) _ => exists e, res = Err e /\ forall f, e <> ErrProvider f)) as Herr.
  { intros e He w1. apply runs_ret. eauto. }
  case_guard; [by apply Herr|]. apply runs_bind. apply lively_runs; [by apply lively_read|]. intros res w1 Hl1 _ _ _.
  destruct (found_state res) as [state|]; [|by apply Herr]. case_guard; [by apply Herr|]. apply runs_try.
  eapply runs_after; [eapply checkpoint_stopped; [|exact Hj|done..]; etransitivity; [exact Hl|by apply later_db]|].
  intros r1 w2 _ _ (e & -> & He) _ _. eauto.
Qed.
(** A settled row that is not queued cannot be marked building. *)
Lemma building_refused revisionID d s t (w : World P) : live d (db w) -> sync_states d !! revisionID = Some (s, t) -> Pipeline s = StateFailed ->
  runs svc (MarkBuilding revisionID) w (fun r _ => exists e, r = Err e).
Proof.
  intros Hl Hs Hp. unfold MarkBuilding, transition. case_guard; [apply runs_ret; eauto|]. apply runs_bind. unfold get_state. apply runs_read; [done|].
  intros w1 Hl1 Hok _ _.
  assert (live d (db w1)) as Hd by (etransitivity; [exact Hl|by apply later_db]).
  destruct (live_steps_settled svc d (db w1) revisionID s t Hd ltac:(unfold settled; by rewrite Hp) Hs) as [t' Ht'].
  unfold GetGraphSyncState. case_guard; [apply runs_ret; eauto|]. rewrite Ht'. unfold scan_state.
  destruct (Sync_Valid s); simpl; [|apply runs_ret; eauto]. rewrite Hp. simpl. apply runs_ret. eauto.
Qed.

(** C14: When the provider has lost a task, reconciliation submits the snapshot again only after the provider has answered
    that it does not hold the snapshot either, and then once; in every other case it puts nothing. *)
Theorem reconciliation_resubmits_only_missing r e (w : World P) :
  graph_ok (db w) ->
  let w' := (ReconcileTaskNotFound r e w).2 in
  puts (calls w') = puts (calls w) \/
  (puts (calls w') = (puts (calls w) ++ [CallPut (Rec_Namespace r) (Rec_Version r) (Rec_Snapshot r)])%list /\
   answered_missing w (Rec_Namespace r) (Rec_Version r) (Rec_RequestID r)).
Proof. intros Hok. by destruct (runs_reconcile r e w Hok). Qed.
End services.
