(* ===== verification/GraphRuntimeFacts.v ===== *)
(** * What a run of the Graph worker commits, and how often it submits

    [run_commit_is_certified]: a commit a run reports is in the database, and the
    provider had shown the exact snapshot of the validated revision before it.
    [run_submits_once]: a run puts one snapshot at most, and which. *)
From S2P Require Import Prelude GoSort GoStrings GoCrypto GoJson GoFloat Domain JobStore FormulaDecimal DomainEntity.
From S2P Require EntityStore EntityHistory EntityReads VersionGate.
From S2P Require Import GraphProjector GraphPlan ValidationTypes Job GraphSync GraphStore GraphServices GraphHistory GraphPuts GraphServiceFacts GraphRuntime.
Open Scope Z_scope.

Section runtime.
Context {P : Type} `{GraphProvider P, Environment, UnicodeTables, ApdLib, UuidLib, FloatText, TimeText, JcsLib, !UuidLaws}.
Context (svc : EntityStore.Service) (descriptor : Descriptor).
Context (others_live : forall n d, rtc (live_step svc) d (others n d)).
Notation live := (rtc (live_step svc)).
Notation live_saga m := (lively (P := P) svc m).
Hint Resolve lively_transition lively_cancellation lively_checkpoint lively_small_checkpoint lively_get_job lively_get_state lively_start
  lively_building lively_fail lively_fail_task lively_poll lively_submit : lively.

Lemma lively_fail_run job code : live_saga (fail_run job code).
Proof. unfold fail_run. lively. Qed.
Lemma runs_fail_run job code (w : World P) (Q : Outcome -> World P -> Prop) :
  (forall w', Q (RunFailed code) w') -> runs svc (fail_run job code) w Q.
Proof. intros HQ. unfold fail_run. apply runs_bind. apply lively_runs; [by apply lively_fail|]. intros r w' _ _ _ _. by apply runs_ret. Qed.
Lemma runs_or_fail {A : Type} job code (m : Saga P (result A GraphError)) (k : A -> Saga P Outcome) (w : World P) (Q : Outcome -> World P -> Prop) :
  (forall w', Q (RunFailed code) w') ->
  runs svc m w (fun r w' => forall a, r = Ok a -> later svc w w' -> graph_ok (db w') -> runs svc (k a) w' Q) -> runs svc (or_fail job code m k) w Q.
Proof.
  intros HQ Hm. unfold or_fail. apply runs_bind. eapply runs_after; [exact Hm|]. intros [a|e] w' _ _ Hk Hl Hok; [by apply Hk|by apply runs_fail_run].
Qed.

(** ** The revision a run projects *)
(** Its full validation passed, with the versions of its own manifest; then it was read. *)
Definition validated_revision (d d' : GraphDb) (job : GraphJob) (revision : Revision) : Prop :=
  exists d0 d1 d2 record versions,
    live d d0 /\ EntityReads.GetRevisionRecord (configuration d0) (GJob_RevisionID job) = Ok record /\
    VersionGate.ConfigHash (VersionGate.Record_Metadata record) = GJob_InputHash job /\
    graphValidationVersions (VersionGate.Manifest (VersionGate.Record_Metadata record)) = Some versions /\
    live d0 d1 /\ validation_gate d1 (GJob_RevisionID job) (GJob_InputHash job) versions = Ok GatePass /\
    live d1 d2 /\ ReadProjectionRevision d2 (GJob_RevisionID job) = Ok revision /\ live d2 d'.
Lemma runs_revision job (w : World P) : runs svc (graphSyncRevision svc job) w (fun r w' => forall revision, r = Ok revision ->
  validated_revision (db w) (db w') job revision).
Proof.
  unfold graphSyncRevision. apply runs_bind. apply runs_read; [done|]. intros w0 Hl0 _ _ _.
  destruct (EntityReads.GetRevisionRecord _ _) as [record|e] eqn:Hr; [|by apply runs_ret]. case_guard as Hh; [by apply runs_ret|]. bool_to_prop.
  destruct (graphValidationVersions _) as [versions|] eqn:Hv; [|by apply runs_ret].
  assert (forall w1, later svc w0 w1 -> validation_gate (db w1) (GJob_RevisionID job) (GJob_InputHash job) versions = Ok GatePass ->
    runs svc (read (fun d => ReadProjectionRevision d (GJob_RevisionID job))) w1
      (fun r w' => forall revision, r = Ok revision -> validated_revision (db w) (db w') job revision)) as Hread.
  { intros w1 Hl1 Hg. apply runs_read; [done|]. intros w2 Hl2 _ revision Hrev.
    exists (db w0), (db w1), (db w2), record, versions. split_and!; try done; by apply later_db. }
  apply runs_bind. apply runs_read; [done|]. intros w1 Hl1 _ _ _.
  destruct (validation_gate _ _ _ _) as [[]|e] eqn:Hg; try (by apply runs_ret); [by apply Hread|].
  apply runs_try. apply lively_runs; [by apply lively_validation|]. intros [u|e] w2 Hl2 _ _ _; [|done].
  apply runs_bind. apply runs_read; [done|]. intros w3 Hl3 _ _ _.
  destruct (validation_gate (db w3) _ _ _) as [[]|e] eqn:Hg3; try (by apply runs_ret). apply Hread; [|done].
  by do 2 (etransitivity; [eassumption|]).
Qed.

(** ** The commit *)
(** The provider showed, between two worlds, exactly the snapshot of a plan. *)
Definition shown (w w' : World P) (job : GraphJob) (plan : FullPlan) : Prop :=
  exists snapshot, inspected w w' (GJob_ProjectID job) (GJob_RevisionID job) ("graph-sync-" +:+ GJob_ID job)%string snapshot /\
    exact_snapshot (run_expectation job plan) snapshot.
Lemma shown_later w0 w w' job plan : later svc w0 w -> shown w w' job plan -> shown w0 w' job plan.
Proof. intros Hl (snapshot & Hi & He). exists snapshot. split; [by eapply inspected_later|done]. Qed.
Definition committed_run (w : World P) (job : GraphJob) (plan : FullPlan) (hash : string) (o : Outcome) (w' : World P) : Prop :=
  forall s, o = RunCommitted (Some s, true) -> revision_committed (db w') (GJob_ID job) (GJob_RevisionID job) hash s /\ shown w w' job plan.
Lemma committed_run_later w0 w job plan hash o w' : later svc w0 w -> committed_run w job plan hash o w' -> committed_run w0 job plan hash o w'.
Proof. intros Hl Hc s Ho. destruct (Hc s Ho). split; [done|by eapply shown_later]. Qed.
Lemma runs_poll_loop polls job plan summary (w : World P) :
  runs svc (poll_loop polls job plan summary) w (committed_run w job plan (ManifestHash summary)).
Proof.
  revert w. induction polls as [|polls IH]; intros w; simpl; (apply runs_bind; eapply runs_after; [by apply runs_poll|]);
    intros [[task verification]|e] w1 _ _ Hp Hl1 _; try (by apply runs_fail_run); case_guard.
  1: by apply runs_ret.
  2: { eapply runs_after; [apply IH|]. intros o w2 _ _. by apply committed_run_later. }
  all: case_guard; [apply runs_bind; apply lively_runs; [by apply lively_fail_task|]; intros; by apply runs_ret|].
  all: case_guard; [|by apply runs_fail_run].
  all: destruct verification as [v|]; [|by apply runs_fail_run]; case_guard as Hv; [by apply runs_fail_run|]; bool_to_prop.
  all: destruct (Hp _ _ eq_refl) as (snapshot & Hi & ->).
  all: apply runs_bind; (eapply runs_after; [by apply runs_ready|]); intros [ready|e] w2 Hl2 _ Hc _ _; [|by apply runs_fail_run].
  all: apply runs_ret; intros s [= ->]; split; [by apply Hc|]; exists snapshot.
  all: match goal with Hr : Verified_Ready _ = true |- _ => apply VerifySnapshot_ready in Hr as [_ Hr] end.
  all: split; [by eapply inspected_before|done].
Qed.
(** The plan of a validated revision. *)
Definition planned (d d' : GraphDb) (job : GraphJob) (plan : FullPlan) : Prop :=
  exists revision projected, validated_revision d d' job revision /\ Project descriptor revision = Ok projected /\
    PlanFull (GJob_ProjectID job) (GJob_RevisionID job) projected = Ok plan.
Lemma planned_later d0 d d1 d' job plan : live d0 d -> live d1 d' -> planned d d1 job plan -> planned d0 d' job plan.
Proof.
  intros Hl Hl' (revision & projected & (a & b & c & record & versions & Ha & Hr & Hh & Hv & Hb & Hg & Hc & Hrev & Hd) & Hp).
  exists revision, projected. split; [|done]. exists a, b, c, record, versions. split_and!; try done; by etrans.
Qed.
Definition certified_run (w : World P) (job : GraphJob) (d d' : GraphDb) (w' : World P) (s : SyncState) : Prop :=
  exists plan, planned d d' job plan /\ shown w w' job plan /\ revision_committed (db w') (GJob_ID job) (GJob_RevisionID job) (Full_ContentHash plan) s.
Lemma runs_run_revision polls job revision d (w : World P) : validated_revision d (db w) job revision ->
  runs svc (run_revision descriptor polls job revision) w (fun o w' => forall s, o = RunCommitted (Some s, true) ->
    certified_run w job d (db w') w' s).
Proof.
  intros Hrev. unfold run_revision. apply runs_or_fail; [done|]. apply lively_runs; [by apply lively_small_checkpoint|]. intros r w2 Hl2 _ ck -> _ _.
  apply runs_or_fail; [done|]. apply lively_runs; [by apply lively_building|]. intros r w3 Hl3 _ bd -> _ _.
  destruct (Project descriptor revision) as [projected|e] eqn:Hp; [|by apply runs_fail_run].
  destruct (PlanFull _ _ projected) as [plan|e] eqn:Hf; [|by apply runs_fail_run].
  destruct (NewSummary _ _ _ _ _ _) as [summary|e]; [|by apply runs_fail_run]. case_guard as Hm; [by apply runs_fail_run|]. bool_to_prop.
  apply runs_or_fail; [done|]. apply lively_runs; [by apply lively_small_checkpoint|]. intros r w4 Hl4 _ ck2 -> _ _.
  apply runs_bind. unfold health_check. apply lively_runs; [apply lively_call; intros; constructor|]. intros health w5 Hl5 _ _ _. case_guard; [by apply runs_fail_run|].
  apply runs_or_fail; [done|]. apply lively_runs; [by apply lively_small_checkpoint|]. intros r w6 Hl6 _ ck3 -> _ _.
  apply runs_bind. apply lively_runs; [by apply lively_submit|]. intros [sw|e] w7 Hl7 _ _ _; [|by apply runs_fail_run].
  eapply runs_after; [apply runs_poll_loop|]. intros o w8 Hl8 _ Hc s Ho. destruct (Hc s Ho) as [Hcom Hsh]. exists plan.
  assert (later svc w w7) as Hlater by (by do 5 (etransitivity; [eassumption|])). split_and!; [|by eapply shown_later|congruence].
  apply (planned_later d d (db w)); [done|apply later_db; by etrans|]. by exists revision, projected.
Qed.

(** ** The snapshots put *)
Definition put_call (job : GraphJob) (plan : FullPlan) : ProviderCall := CallPut (GJob_ProjectID job) (GJob_RevisionID job) (put_request plan).
Lemma quiet_fail_run job code : quiet (P := P) (fail_run job code).
Proof. unfold fail_run. quiet. Qed.
Hint Resolve quiet_fail_run : quiet.
Lemma quiet_poll_loop polls job plan summary : quiet (P := P) (poll_loop polls job plan summary).
Proof. induction polls; simpl; quiet. Qed.
Hint Resolve quiet_poll_loop : quiet.
Lemma quiet_revision job : quiet (P := P) (graphSyncRevision svc job).
Proof. unfold graphSyncRevision, gate_check, run_full_validation. quiet. Qed.
Lemma one_or_fail {A : Type} c job code (m : Saga P (result A GraphError)) (k : A -> Saga P Outcome) :
  quiet m -> (forall a, at_most_one c (k a)) -> at_most_one c (or_fail job code m k).
Proof. intros Hm Hk. unfold or_fail. apply one_after; [done|]. intros []; [apply Hk|by apply one_quiet; quiet]. Qed.
Lemma one_run_revision polls job revision projected plan :
  Project descriptor revision = Ok projected -> PlanFull (GJob_ProjectID job) (GJob_RevisionID job) projected = Ok plan ->
  at_most_one (P := P) (put_call job plan) (run_revision descriptor polls job revision).
Proof.
  intros Hp Hf. unfold run_revision. rewrite Hp, Hf. apply one_or_fail; [quiet|]. intros _. apply one_or_fail; [quiet|]. intros _.
  destruct (NewSummary _ _ _ _ _ _); [|by apply one_quiet; quiet]. case_guard; [by apply one_quiet; quiet|].
  apply one_or_fail; [quiet|]. intros _. apply one_after; [unfold health_check; quiet|]. intros health. case_guard; [by apply one_quiet; quiet|].
  apply one_or_fail; [quiet|]. intros _. apply one_before; [|quiet]. apply (one_submit (submission job plan)).
Qed.
Lemma quiet_run_revision polls job revision :
  (forall projected plan, Project descriptor revision = Ok projected -> PlanFull (GJob_ProjectID job) (GJob_RevisionID job) projected <> Ok plan) ->
  quiet (P := P) (run_revision descriptor polls job revision).
Proof.
  intros Hn. unfold run_revision, or_fail. destruct (Project descriptor revision) as [projected|e] eqn:Hp; [|quiet].
  destruct (PlanFull _ _ projected) as [plan|e] eqn:Hf; [by destruct (Hn _ plan eq_refl)|]. quiet.
Qed.

(** ** The whole run *)
Definition put_of (w w' : World P) (job : GraphJob) : Prop :=
  puts (calls w') = puts (calls w) \/
  exists plan, planned (db w) (db w') job plan /\ puts (calls w') = (puts (calls w) ++ [put_call job plan])%list.
Lemma put_of_later w0 w w' w1 job : later svc w0 w -> puts (calls w) = puts (calls w0) -> later svc w' w1 -> puts (calls w1) = puts (calls w') ->
  put_of w w' job -> put_of w0 w1 job.
Proof.
  intros [Hl _] Hp [Hl' _] Hp' [Hq|(plan & Hplan & Hq)]; [left; congruence|right]. exists plan.
  split; [by eapply planned_later|congruence].
Qed.
Lemma runs_started polls job (w : World P) : runs svc (run_started svc descriptor polls job) w (fun o w' =>
  put_of w w' job /\ forall s, o = RunCommitted (Some s, true) -> certified_run w job (db w) (db w') w' s).
Proof.
  unfold run_started, or_fail. apply runs_bind. eapply runs_after; [apply runs_quiet; [apply quiet_revision|apply runs_revision]|].
  intros [revision|e] w1 _ _ [Hrev Hp] Hl1 Hok1.
  2: { eapply runs_after; [apply runs_quiet; [apply quiet_fail_run|by apply (runs_fail_run job _ w1 (fun o _ => o = RunFailed "GRAPH_VALIDATION_UNAVAILABLE"%string))]|].
       intros o w2 _ _ [-> Hp2]. split; [left; congruence|done]. }
  specialize (Hrev _ eq_refl). pose proof (runs_run_revision polls job revision (db w) w1 Hrev) as Hrun.
  destruct (Project descriptor revision) as [projected|e] eqn:Hproj;
    [destruct (PlanFull (GJob_ProjectID job) (GJob_RevisionID job) projected) as [plan|e] eqn:Hplan|].
  1: eapply runs_after; [eapply runs_one; [by eapply one_run_revision|exact Hrun]|].
  2,3: eapply runs_after; [eapply runs_quiet; [apply quiet_run_revision; congruence|exact Hrun]|].
  all: intros o w2 Hl2 _ [Hc Hput]; split;
    [|intros s Hs; destruct (Hc s Hs) as (plan' & Hpl & Hsh & Hcom); exists plan'; split_and!; [done|by eapply shown_later|done]].
  2,3: left; congruence.
  destruct Hput as [Hput|Hput]; [left; congruence|right]. exists plan. split; [|congruence].
  apply (planned_later (db w) (db w) (db w1)); [done|by apply later_db|]. by exists revision, projected.
Qed.
Lemma lively_ensure job : ID_Valid (GJob_ID job) = true -> live_saga (ensure_state job).
Proof.
  intros Hid. unfold ensure_state. apply lively_try; [by apply lively_get_state|]. intros [s|]; [apply lively_ret|].
  apply lively_access; [done|]. intros d now id _. apply rtc_once. eapply live_create_state; [|done]. split_and!; [done..|right]. split; [done|].
  by apply valid_id_nonempty.
Qed.
Lemma quiet_ensure job : quiet (P := P) (ensure_state job).
Proof. unfold ensure_state. quiet. Qed.
Lemma job_read_valid d id job : GetGraphJob d id = Ok job -> ID_Valid (GJob_ID job) = true.
Proof.
  unfold GetGraphJob. case_guard; [done|]. destruct (graph_row d id) as [row|]; [|done]. unfold scanGraphJob, GraphJob_Valid.
  destruct (ID_Valid (GJob_ID row)) eqn:Hid; [|done]. case_guard; by intros [= <-].
Qed.
Definition run_job (w : World P) (jobID : ID) (job : GraphJob) : Prop := exists d, live (db w) d /\ GetGraphJob d jobID = Ok job.
Lemma runs_run polls jobID (w : World P) : runs svc (run svc descriptor polls jobID) w (fun o w' =>
  (puts (calls w') = puts (calls w) \/ exists job, run_job w jobID job /\ put_of w w' job) /\
  (forall s, o = RunCommitted (Some s, true) -> exists job, run_job w jobID job /\ certified_run w job (db w) (db w') w' s)).
Proof.
  unfold run. apply runs_bind. eapply runs_after; [apply runs_quiet; [apply quiet_read|]|].
  { apply (runs_read svc others_live _ _ (fun r w' => forall job, r.1 = Ok job -> run_job w jobID job /\ ID_Valid (GJob_ID job) = true)).
    intros w1 Hl1 _ job Hjob. simpl in Hjob. split; [exists (db w1); split; [exact (later_db _ _ _ Hl1)|exact Hjob]|]. by eapply job_read_valid. }
  intros [[job|e] project] w1 _ _ [Hjob Hp1] Hl1 Hok1; [|by apply runs_ret; split; [left|done]]. destruct (Hjob _ eq_refl) as [Hread Hid].
  case_guard; [by apply runs_ret; split; [left|done]|]. apply runs_bind. unfold health_check.
  eapply runs_after; [apply runs_quiet; [by apply quiet_call|apply lively_call; intros; constructor]|]. intros health w2 Hl2 _ [_ Hp2] _ _.
  case_guard; [apply runs_ret; split; [left; congruence|done]|]. apply runs_bind.
  eapply runs_after; [apply runs_quiet; [apply quiet_ensure|by apply lively_ensure]|]. intros [u|e] w3 Hl3 _ [_ Hp3] _ _;
    [|apply runs_ret; split; [left; congruence|done]].
  apply runs_bind. eapply runs_after; [apply runs_quiet; [apply quiet_start|by apply lively_start]|]. intros [st|e] w4 Hl4 _ [_ Hp4] _ _;
    [|apply runs_ret; split; [left; congruence|done]].
  assert (later svc w w4) as Hl by (by do 3 (etransitivity; [eassumption|])).
  eapply runs_after; [apply runs_started|]. intros o w5 _ _ [Hput Hcert]. split.
  - right. exists job. split; [done|]. eapply put_of_later; [exact Hl|congruence|reflexivity|reflexivity|done].
  - intros s Hs. exists job. split; [done|]. destruct (Hcert s Hs) as (plan & Hpl & Hsh & Hcom). exists plan.
    split_and!; [|by eapply shown_later|done]. eapply planned_later; [by apply later_db|reflexivity|done].
Qed.

(** C8: A commit a run of the Graph worker reports is real and was earned.  Whatever the other goroutines commit in
    between, the revision's row is then Ready for that job, the job has succeeded, the summary and the impact handoff
    carry the plan's hash; the plan is the projection of the job's revision, read after a full validation of that very
    configuration had passed; and before the commit the provider had shown a snapshot equal to the plan in identity,
    hash and counts. *)
Theorem run_commit_is_certified polls jobID (w : World P) s :
  graph_ok (db w) -> (run svc descriptor polls jobID w).1 = RunCommitted (Some s, true) ->
  let w' := (run svc descriptor polls jobID w).2 in
  exists job plan, run_job w jobID job /\ planned (db w) (db w') job plan /\ shown w w' job plan /\
    revision_committed (db w') (GJob_ID job) (GJob_RevisionID job) (Full_ContentHash plan) s.
Proof.
  intros Hok Ho. destruct (runs_run polls jobID w Hok) as (_ & _ & Hc). destruct (Hc s Ho) as (job & Hjob & plan & Hp & Hs & Hcom).
  by exists job, plan.
Qed.

(** C9: One run submits at most one snapshot to the provider, however long it polls and whatever it is answered, and
    that snapshot is the full plan of the validated revision of its job. *)
Theorem run_submits_at_most_once polls jobID (w : World P) :
  graph_ok (db w) ->
  let w' := (run svc descriptor polls jobID w).2 in
  exists l, puts (calls w') = (puts (calls w) ++ l)%list /\
    (l = [] \/ exists job plan, l = [put_call job plan] /\ run_job w jobID job /\ planned (db w) (db w') job plan).
Proof.
  intros Hok. destruct (runs_run polls jobID w Hok) as (_ & Hput & _). cbv zeta.
  destruct Hput as [Hq|(job & Hjob & [Hq|(plan & Hplan & Hq)])]; [exists []; rewrite app_nil_r; by auto..|]. exists [put_call job plan].
  split; [done|]. right. by exists job, plan.
Qed.

(** ** A job of a failed revision *)
Lemma runs_failed_revision polls job s t d (w : World P) : live d (db w) -> sync_states d !! GJob_RevisionID job = Some (s, t) -> Pipeline s = StateFailed ->
  runs svc (run_started svc descriptor polls job) w (fun o w' => (exists code, o = RunFailed code) /\ puts (calls w') = puts (calls w)).
Proof.
  intros Hl Hs Hp.
  assert (forall code w1, runs svc (fail_run job code) w1 (fun o w' => (exists code, o = RunFailed code) /\ puts (calls w') = puts (calls w1))) as Hfail.
  { intros code w1. apply runs_quiet; [apply quiet_fail_run|]. apply runs_fail_run. eauto. }
  unfold run_started, or_fail. apply runs_bind. eapply runs_after; [apply runs_quiet; [apply quiet_revision|apply runs_revision]|].
  intros [revision|e] w1 Hl1 _ [_ Hp1] _ _.
  2: { eapply runs_after; [apply Hfail|]. intros o w2 _ _ [Ho Hp2]. split; [done|congruence]. }
  unfold run_revision, or_fail. apply runs_bind. eapply runs_after; [apply runs_quiet; [apply quiet_checkpoint|by apply lively_small_checkpoint]|].
  intros [ck|e] w2 Hl2 _ [_ Hp2] _ _.
  2: { eapply runs_after; [apply Hfail|]. intros o w3 _ _ [Ho Hp3]. split; [done|congruence]. }
  apply runs_bind. eapply runs_after; [apply runs_quiet; [apply quiet_building|eapply (building_refused svc others_live _ d s t); [|done..]]|].
  { etransitivity; [exact Hl|]. apply later_db. by etrans. }
  intros r w3 _ _ [[e ->] Hp3] _ _. eapply runs_after; [apply Hfail|]. intros o w4 _ _ [Ho Hp4]. split; [done|congruence].
Qed.

(** C15: A run for a revision whose synchronisation has failed (the one a retry creates) submits nothing and commits
    nothing: it is skipped or fails, and the revision's row stays the failed one. *)
Theorem failed_revision_is_not_rebuilt polls jobID job s t (w : World P) :
  graph_ok (db w) -> GetGraphJob (db w) jobID = Ok job -> sync_states (db w) !! GJob_RevisionID job = Some (s, t) -> Pipeline s = StateFailed ->
  let r := run svc descriptor polls jobID w in
  (r.1 = RunSkipped \/ exists code, r.1 = RunFailed code) /\ puts (calls r.2) = puts (calls w) /\
  exists t', sync_states (db r.2) !! GJob_RevisionID job = Some (s, t').
Proof.
  intros Hok Hjob Hs Hp. cbv zeta.
  assert (runs svc (run svc descriptor polls jobID) w (fun o w' => (o = RunSkipped \/ exists code, o = RunFailed code) /\ puts (calls w') = puts (calls w))) as Hrun.
  { unfold run. apply runs_bind. eapply runs_after; [apply runs_quiet; [apply quiet_read|]|].
    { apply (runs_read svc others_live _ _ (fun r w' => forall job', r.1 = Ok job' -> GJob_RevisionID job' = GJob_RevisionID job /\ ID_Valid (GJob_ID job') = true)).
      intros w1 Hl1 _ job' Hjob'. simpl in Hjob'. split; [by eapply live_job_kept; [apply later_db|..]|by eapply job_read_valid]. }
    intros [[job'|e] project] w1 _ _ [Hr Hp1] Hl1 Hok1; [|by apply runs_ret; split; [left|done]]. destruct (Hr _ eq_refl) as [Hrev Hid].
    case_guard; [by apply runs_ret; split; [left|done]|]. apply runs_bind. unfold health_check.
    eapply runs_after; [apply runs_quiet; [by apply quiet_call|apply lively_call; intros; constructor]|]. intros health w2 Hl2 _ [_ Hp2] _ _.
    case_guard; [apply runs_ret; split; [by left|congruence]|]. apply runs_bind.
    eapply runs_after; [apply runs_quiet; [apply quiet_ensure|by apply lively_ensure]|]. intros [u|e] w3 Hl3 _ [_ Hp3] _ _;
      [|apply runs_ret; split; [by left|congruence]].
    apply runs_bind. eapply runs_after; [apply runs_quiet; [apply quiet_start|by apply lively_start]|]. intros [st|e] w4 Hl4 _ [_ Hp4] _ _;
      [|apply runs_ret; split; [by left|congruence]].
    eapply runs_after; [apply (runs_failed_revision polls job' s t (db w)); [apply later_db; by do 3 (etransitivity; [eassumption|])|by rewrite Hrev|done]|].
    intros o w5 _ _ [Ho Hp5]. split; [by right|congruence]. }
  destruct (Hrun Hok) as ([Hl _] & Ho & Hq). split_and!; [done|done|]. eapply live_steps_settled; [exact Hl| |done]. unfold settled. by rewrite Hp.
Qed.

(** The recovery of an interrupted job never reaches the provider: the poll it starts with refuses a job that is not
    running, so the dispatcher fails whatever the provider holds. *)
Lemma interrupted_recovery_fails resumer work job (w : World P) :
  graph_ok (db w) -> GetGraphJob (db w) (GJob_ID (Work_Job work)) = Ok job -> GJob_Status job = Interrupted ->
  resumer_lively svc resumer ->
  (forall w polling reconciliation, (ResolveGraphRecovery resumer work w).1 = Ok (polling, reconciliation) -> Poll_JobID polling = GJob_ID (Work_Job work)) ->
  exists e, (ReconcileInterruptedGraphJob (DurableRecoveryDispatcher resumer) work w).1 = Err e.
Proof.
  intros Hok Hjob Hst Hr Hres. simpl. unfold durable_reconcile.
  assert (runs svc (pollOriginal resumer work) w (fun r _ => exists e, r = Err e)) as Hrun; [|case_guard; [by eexists|apply (Hrun Hok)]].
  destruct (Hr work) as (Hresolve & _ & _). unfold pollOriginal. apply runs_try.
  intros Hok'. destruct (Hresolve w Hok') as [Hl _]. split; [done|]. specialize (Hres w).
  destruct (ResolveGraphRecovery resumer work w) as [[[polling reconciliation]|e] w1]; simpl in *; intros _ Hok1; [|by eexists].
  apply runs_bind. eapply runs_after; [eapply (poll_stopped svc others_live polling (db w) job); [by apply later_db|by rewrite (Hres _ _ eq_refl)|by rewrite Hst]|].
  intros res w2 _ _ (e & -> & He) _ _. destruct e; try (by apply runs_ret; eexists). by destruct (He f).
Qed.

(** ** Every entry point *)
Lemma lively_run polls jobID : live_saga (run svc descriptor polls jobID).
Proof. intros w. eapply runs_lively. by apply runs_run. Qed.
Lemma lively_app_revision revisionID : live_saga (app_revision revisionID).
Proof. unfold app_revision. lively. Qed.
Lemma lively_app (submit : GraphJob -> Saga P (result unit GraphError)) : (forall job, live_saga (submit job)) ->
  (forall revisionID, live_saga (EnsureGraphSync submit revisionID)) /\ (forall revisionID jobID key, live_saga (RetryGraphSync submit revisionID jobID key)).
Proof.
  intros Hs. pose proof (lively_admit (P := P) svc others_live) as Ha. pose proof (lively_admit_retry (P := P) svc others_live) as Hr.
  pose proof lively_app_revision as Hrev. split; intros; [unfold EnsureGraphSync|unfold RetryGraphSync]; lively.
Qed.
Lemma lively_status revisionID : live_saga (graph_status revisionID).
Proof.
  unfold graph_status, gate_check, status_job, status_impact, list_events, inspect. pose proof lively_app_revision as Hrev. lively.
  all: by apply lively_access.
Qed.
Lemma lively_new_revision revisionID configHash : live_saga (startGraphValidationPipeline svc revisionID configHash).
Proof.
  unfold startGraphValidationPipeline. assert (forall r, live_saga (ValidationPipeline_Start svc automatic_request r)) by (intros; by apply lively_pipeline). lively.
Qed.
Lemma lively_rebuild invalidations project restoreJobID requestHash : live_saga (EnqueueFullRebuild svc invalidations project restoreJobID requestHash).
Proof.
  unfold EnqueueFullRebuild. assert (forall mk r, live_saga (ValidationPipeline_Start svc mk r)) by (intros; by apply lively_pipeline).
  assert (forall l, live_saga (saga_each (rebuild_revision svc restoreJobID requestHash) l)).
  { intros l. apply lively_each. intros revisionID. unfold rebuild_revision. lively. }
  lively.
Qed.
(** What the process starts: a worker, a validation, a request of the application, recovery, shutdown. *)
Inductive operation : forall {A : Type}, Saga P A -> Prop :=
  | operation_run polls jobID : operation (run svc descriptor polls jobID)
  | operation_pipeline makeRequest request : operation (ValidationPipeline_Start svc makeRequest request)
  | operation_new_revision revisionID configHash : operation (startGraphValidationPipeline svc revisionID configHash)
  | operation_rebuild invalidations project restoreJobID requestHash :
      operation (EnqueueFullRebuild svc invalidations project restoreJobID requestHash)
  | operation_status revisionID : operation (graph_status revisionID)
  | operation_cancel jobID : operation (Cancel jobID)
  | operation_ensure submit revisionID : (forall job, live_saga (submit job)) -> operation (EnsureGraphSync submit revisionID)
  | operation_retry submit revisionID jobID key : (forall job, live_saga (submit job)) -> operation (RetryGraphSync submit revisionID jobID key)
  | operation_reconcile r e : operation (ReconcileTaskNotFound r e)
  | operation_recover resumer limit : resumer_lively svc resumer -> operation (Recover (DurableRecoveryDispatcher resumer) limit)
  | operation_shutdown limit : operation (PrepareShutdown limit)
  | operation_impact scheduler limit : (forall enqueue h, scheduler = Some enqueue -> live_saga (enqueue h)) ->
      operation (ImpactRecovery_Recover scheduler limit).

Lemma operation_lively {A : Type} (m : Saga P A) : operation m -> live_saga m.
Proof.
  destruct 1; [by apply lively_run|by apply lively_pipeline|by apply lively_new_revision|by apply lively_rebuild|by apply lively_status|
    by apply lively_cancel|by apply lively_app|by apply lively_app|by apply lively_reconcile| | |by apply lively_impact].
  - apply lively_recover; [done|]. by apply durable_lively.
  - by apply lively_shutdown.
Qed.

(** C13: Every operation of Graph synchronisation (a worker run, the validation pipeline of a new revision or of a restore, the status read, ensure, retry, cancel,
    reconciliation, recovery, shutdown, the impact queue) refines the step relation: whatever the other goroutines commit
    between its accesses, what it does to the database is a sequence of [live_step]s, so its result is reachable again. *)
Theorem operations_refine_steps {A : Type} (m : Saga P A) (w : World P) :
  operation m -> reachable_graph svc (db w) ->
  rtc (live_step svc) (db w) (db (m w).2) /\ reachable_graph svc (db (m w).2).
Proof.
  intros Hop Hr. assert (graph_ok (db w)) as Hok by by eapply reachable_graph_ok.
  destruct (operation_lively m Hop w Hok) as [[Hl _] _]. split; [exact Hl|by eapply reachable_live].
Qed.

(** C11: Whatever operation of Graph synchronisation runs, after any history with restores, the event log of a Graph job
    it leaves is a path of the worker's phases: it starts at ordinal 1 with QUEUED, has no gap up to any event in it, and
    from each event to the next the progress does not fall and the phase may advance.  The one exception is the event of
    a restore: it can follow any of them, or start an empty log, its job is over, and nothing follows it. *)
Theorem worker_log_is_a_path {A : Type} (m : Saga P A) (w : World P) id o e :
  operation m -> reachable_graph svc (db w) ->
  let log := job_events (shared (db (m w).2)) in
  log !! (id, o) = Some e -> ~ other_kind (db (m w).2) id ->
  (exists first, log !! (id, 1) = Some first /\ (phase_of (Phase first) = PhaseQueued \/ superseded first)) /\
  (forall k, 1 <= k < o -> exists p q, log !! (id, k) = Some p /\ log !! (id, k + 1) = Some q /\
    ~ superseded p /\ Progress p <= Progress q /\
    (Phase_CanAdvanceTo (phase_of (Phase p)) (phase_of (Phase q)) = true \/ superseded q)) /\
  (superseded e -> job_over (db (m w).2) id true /\ log !! (id, o + 1) = None).
Proof.
  intros Hop Hr log He Hk. assert (graph_ok (db w)) as Hok by by eapply reachable_graph_ok.
  destruct (operation_lively m Hop w Hok) as [[Hl _] _]. eapply (log_is_a_path svc); [by eapply reachable_live|exact He|exact Hk].
Qed.
End runtime.
