(* ===== verification/GraphExamples.v ===== *)
(** * A synchronisation that runs, evaluated

    A simulated provider, the validated configuration of EntityRuns, the pipeline
    that queues the job, and the run that commits; the witnesses of the theorems
    on Graph synchronisation. *)
From S2P Require Import Prelude GoSort GoStrings GoCrypto GoJson GoFloat Domain JobStore FormulaDecimal DomainEntity.
From S2P Require EntityStore EntityHistory EntityReads EntityRuns VersionGate.
From S2P Require Import GraphProjector GraphText GraphPlan GraphProjection ValidationTypes Job.
From S2P Require Import GraphSync GraphStore GraphServices GraphHistory GraphPuts GraphServiceFacts GraphRuntime GraphRuntimeFacts.
Open Scope Z_scope.

Module GraphExamples.
Local Existing Instance canonical_uuid.
Local Existing Instance latin1_tables.
Local Existing Instance integer_apd.
Local Existing Instance EntityRuns.StoreExamples.text_floats.
Local Existing Instance EntityRuns.StoreExamples.text_times.
Local Existing Instance ProjectionExamples.identity_jcs.
Definition uuid := EntityRuns.StoreExamples.uuid.
Definition service := EntityRuns.StoreExamples.service.

(** ** A provider that keeps one snapshot and builds it while it is polled once *)
Record Sim := mkSim { held : option (string * string * PutSnapshotRequest); polls_left : nat }.
Definition sim_health : Health :=
  mkHealth "ok" ["v1"%string] ["1.0"%string] [mkHealthState "snapshot_lifecycle" "available"; mkHealthState "task_polling" "available"]
    ((fun n => mkHealthState n "available") <$> ["sqlite"; "graph_migrations"; "core_graph_query"; "bm25"]%string) [].
Definition sim_task : string := "task-1".
Definition sim_snapshot (ns v : string) (r : PutSnapshotRequest) : Snapshot :=
  mkSnapshot ns v "" SnapshotSchemaVersion (Put_ContentHash r) sim_task "ready" (Z.of_nat (length (Put_Nodes r))) (Z.of_nat (length (Put_Edges r))) true
    [mkComponent "graph" "ready" "" None; mkComponent "fts" "ready" "" None] [].
Definition missing (code : string) : ProviderFailure := Provider (mkProviderError code "missing" "r" false true).
#[local] Instance sim_provider : GraphProvider Sim := {|
  Provider_Health := fun _ p => (Ok sim_health, p);
  InspectSnapshot := fun ns v _ p =>
    match held p with
    | Some (ns', v', r) => if bool_decide (ns = ns') && bool_decide (v = v') then (Ok (sim_snapshot ns v r), p) else (Err (missing "SNAPSHOT_NOT_FOUND"), p)
    | None => (Err (missing "SNAPSHOT_NOT_FOUND"), p)
    end;
  PutSnapshot := fun ns v r _ p => (Ok (sim_snapshot ns v r), mkSim (Some (ns, v, r)) 1);
  GetTask := fun id _ p =>
    match held p, polls_left p with
    | Some (ns, v, _), S n => (Ok (mkTask id "put" ns v "running" None), mkSim (held p) n)
    | Some (ns, v, _), O => (Ok (mkTask id "put" ns v "succeeded" None), p)
    | None, _ => (Err (missing "TASK_NOT_FOUND"), p)
    end
|}.
Definition digit (n : nat) : string := String (Ascii.ascii_of_nat (48 + n)) "".
#[local] Instance alone : Environment := {|
  clock := fun n => 100 + Z.of_nat n;
  fresh := fun n => Some (uuid (digit ((n / 10) mod 10) +:+ digit (n mod 10)));
  others := fun _ d => d
|}.

(** ** The database: the revision of the validated configuration *)
Definition project : ID := uuid "aa".
Definition revision : ID := uuid "12".
Definition with_revision : Store := mkStore project {[revision]} ∅ ∅ ∅.
Definition db0 : GraphDb := mkGraphDb with_revision ∅ EntityRuns.StoreExamples.st3 ∅ ∅ ∅.
Definition w0 : World Sim := mkWorld db0 (mkSim None 0) 0 [].
Definition config_hash : string := "78210e5f5761eb4ea09a42d01a3133ff6d8ed9c14aa23cacad182e266b43c601".
Definition versions : ValidationVersions := mkVersions "schema-v1" "dsl-v1" "formula-v1" "numeric-v1".
Definition request : ValidationPipelineRequest := mkPipelineRequest project revision config_hash versions.

(** The pipeline queues a job, the run synchronises it. *)
Definition piped := ValidationPipeline_Start service automatic_request request w0.
Definition w1 : World Sim := Eval vm_compute in piped.2.
Definition job_id : ID := Eval vm_compute in match (sync_states (db w1) !! revision) with Some (s, _) => LatestJobID s | None => "" end.
Definition ran : Outcome * World Sim := run service ProjectionExamples.v1 3 job_id w1.
Definition w2 : World Sim := Eval vm_compute in ran.2.
Definition state_of (w : World Sim) : SyncState :=
  match sync_states (db w) !! revision with Some (s, _) => s | None => mkSync "" StateSaved "" "" "" "" 0 "" [] end.
Definition ready : SyncState := Eval vm_compute in state_of w2.
Ltac computed :=
  match goal with |- ?l = ?r =>
    tryif has_evar r then (let v := eval vm_compute in l in unify r v; vm_cast_no_check (@eq_refl _ v))
    else vm_cast_no_check (@eq_refl _ r)
  end.
Lemma piped_w1 : piped.2 = w1.
Proof. computed. Qed.
Lemma ran_w2 : (run service ProjectionExamples.v1 3 job_id w1).2 = w2.
Proof. computed. Qed.

(** ** Reachability *)
Lemma quiet_others n d : rtc (live_step service) d (others n d).
Proof. apply rtc_refl. Qed.
#[local] Instance laws : UuidLaws.
Proof. by split. Qed.
Lemma configuration_steps c c' d : rtc (EntityHistory.entity_step service) c c' -> configuration d = c ->
  rtc (live_step service) d (with_configuration d c').
Proof.
  intros Hr. revert d. induction Hr as [c|c c1 c' Hs _ IH]; intros d Hd; [subst c; by destruct d|].
  apply (rtc_l _ _ (with_configuration d c1)); [|by apply (IH (with_configuration d c1))].
  apply (live_configuration service _ _ c1 ∅); [by rewrite Hd|]. unfold add_revisions, with_configuration, with_shared. simpl.
  rewrite (left_id_L ∅ (∪)). by destruct d as [[]].
Qed.
Lemma reached_start : reachable_graph service (db w0).
Proof.
  exists project. assert (rtc (live_step service) (empty_graph project) (db w0)) as Hl.
  { etransitivity; [apply (configuration_steps EntityStore.empty_entities EntityRuns.StoreExamples.st3); [exact EntityRuns.StoreExamples.reach3|done]|].
    apply rtc_once. eapply (live_shared service _ _ 0); [apply (JobStore.step_revision 0 _ revision)|by intros|done]. }
  clear -Hl. induction Hl as [|? ? ? Hs _ IH]; [done|]. eapply rtc_l; [by left|exact IH].
Qed.
Lemma live01 : rtc (live_step service) (db w0) (db w1).
Proof.
  rewrite <- piped_w1. destruct (lively_pipeline service quiet_others automatic_request request w0) as [[Hl _] _]; [|exact Hl].
  exact (reachable_graph_ok service _ reached_start).
Qed.
Lemma reached_piped : reachable_graph service (db w1).
Proof. exact (reachable_live service _ _ reached_start live01). Qed.
Lemma ok1 : graph_ok (db w1).
Proof. exact (reachable_graph_ok service _ reached_piped). Qed.
Lemma live12 : rtc (live_step service) (db w1) (db w2).
Proof.
  rewrite <- ran_w2. destruct (lively_run service ProjectionExamples.v1 quiet_others 3 job_id w1) as [[Hl _] _]; [exact ok1|exact Hl].
Qed.
Lemma reached_ran : reachable_graph service (db w2).
Proof. exact (reachable_live service _ _ reached_piped live12). Qed.

Lemma settled_state_is_backed_witness : exists t, sync_states (db w2) !! revision = Some (ready, t) /\ ready_evidence (db w2) revision job_id.
Proof.
  destruct (sync_states (db w2) !! revision) as [[s t]|] eqn:Hs; [|vm_compute in Hs; discriminate].
  assert (s = ready) as -> by (vm_compute in Hs; by injection Hs as <- _). exists t. split; [done|].
  destruct (settled_state_is_backed service (db w2) revision ready t reached_ran Hs) as [Hr _]. exact (Hr eq_refl).
Defined.
Lemma worker_log_is_a_path_witness :
  exists p q, job_events (shared (db w2)) !! (job_id, 4) = Some p /\ job_events (shared (db w2)) !! (job_id, 5) = Some q /\
    Phase p = "PROVIDER_COMPATIBLE"%string /\ Phase_CanAdvanceTo (phase_of (Phase p)) (phase_of (Phase q)) = true.
Proof.
  destruct (job_events (shared (db w2)) !! (job_id, 10)) as [e|] eqn:He; [|vm_compute in He; discriminate He].
  pose proof (worker_log_is_a_path service ProjectionExamples.v1 quiet_others (run service ProjectionExamples.v1 3 job_id) w1 job_id 10 e
    (operation_run _ _ 3 job_id) reached_piped) as Hlog.
  rewrite ran_w2 in Hlog. cbv zeta in Hlog. destruct (Hlog He) as (_ & Hpath & _).
  - intros (r & Hr & Hk). vm_compute in Hr. injection Hr as <-. by apply Hk.
  - destruct (Hpath 4) as (p & q & Hp & Hq & _ & _ & [Hadv|Hs]); [lia| |].
    + exists p, q. split_and!; [done|done| |done]. vm_compute in Hp. by injection Hp as <-.
    + exfalso. vm_compute in Hq. injection Hq as <-. by vm_compute in Hs.
Defined.
Lemma pipeline_only_advances_witness :
  exists t, sync_states (db w2) !! revision = Some (ready, t) /\ Pipeline (state_of w1) = StateQueued /\
    rtc (fun p q => Pipeline_CanTransitionTo p q = true) (Pipeline (state_of w1)) (Pipeline ready).
Proof.
  destruct (sync_states (db w1) !! revision) as [[s t]|] eqn:Hs; [|vm_compute in Hs; discriminate].
  destruct (pipeline_only_advances service (db w1) (db w2) revision s t live12 Hs) as (s' & t' & Hs' & _ & Hp).
  assert (s' = ready) as -> by (vm_compute in Hs'; by injection Hs' as <- _). exists t'. split; [done|].
  assert (state_of w1 = s) as -> by (unfold state_of; by rewrite Hs). split; [|done]. vm_compute in Hs. by injection Hs as <- _.
Defined.
Lemma ran_commits : (run service ProjectionExamples.v1 3 job_id w1).1 = RunCommitted (Some ready, true).
Proof. computed. Qed.
Lemma run_commit_is_certified_witness :
  exists job plan, run_job service w1 job_id job /\ shown w1 w2 job plan /\ planned service ProjectionExamples.v1 (db w1) (db w2) job plan /\
    revision_committed (db w2) (GJob_ID job) (GJob_RevisionID job) (Full_ContentHash plan) ready.
Proof.
  destruct (run_commit_is_certified service ProjectionExamples.v1 quiet_others 3 job_id w1 ready ok1 ran_commits) as (job & plan & Hj & Hp & Hs & Hc).
  cbv zeta in *. rewrite ran_w2 in *. exists job, plan. split_and!; done.
Defined.
Lemma run_submits_at_most_once_witness :
  exists job plan, puts (calls w2) = [put_call job plan] /\ planned service ProjectionExamples.v1 (db w1) (db w2) job plan.
Proof.
  destruct (run_submits_at_most_once service ProjectionExamples.v1 quiet_others 3 job_id w1 ok1) as (l & Hl & Hcase).
  cbv zeta in *. rewrite ran_w2 in *.
  assert (puts (calls w1) = []) as E by (vm_compute; reflexivity). rewrite E in Hl.
  destruct Hcase as [->|(job & plan & -> & _ & Hp)]; [vm_compute in Hl; discriminate|]. exists job, plan. split; [exact Hl|exact Hp].
Defined.
Lemma operations_refine_steps_witness :
  reachable_graph service (db (ValidationPipeline_Start service automatic_request request w0).2) /\
  reachable_graph service (db (run service ProjectionExamples.v1 3 job_id w1).2).
Proof.
  split.
  - exact (proj2 (operations_refine_steps service ProjectionExamples.v1 quiet_others _ w0 (operation_pipeline _ _ automatic_request request) reached_start)).
  - exact (proj2 (operations_refine_steps service ProjectionExamples.v1 quiet_others _ w1 (operation_run _ _ 3 job_id) reached_piped)).
Defined.

(** ** A retry after a failure *)
Definition failing := Fail job_id revision "GRAPH_POLL_FAILED" w1.
Definition w3 : World Sim := Eval vm_compute in failing.2.
Definition no_submit (_ : GraphJob) : Saga Sim (result unit GraphError) := saga_ret (Ok tt).
Definition retrying := RetryGraphSync no_submit revision job_id "retry-key-0000000001" w3.
Definition w4 : World Sim := Eval vm_compute in retrying.2.
Definition retry_id : ID := Eval vm_compute in match retrying.1 with Ok (job, _) => GJob_ID job | Err _ => EmptyString end.
Definition no_job : GraphJob := mkGraphJob "" "" "" "" "" "" "" "" Queued None 0 None 0 0.
Definition retry_job : GraphJob := Eval vm_compute in match GetGraphJob (db w4) retry_id with Ok job => job | Err _ => no_job end.
Lemma lively_keeps {A : Type} (m : Saga Sim A) w w' : lively service m -> (m w).2 = w' -> graph_ok (db w) -> graph_ok (db w').
Proof. intros Hm <- Hok. destruct (Hm w Hok) as [Hl _]. by eapply later_ok. Qed.
Lemma ok4 : graph_ok (db w4).
Proof.
  apply (lively_keeps (RetryGraphSync no_submit revision job_id "retry-key-0000000001") w3).
  - apply (lively_app service quiet_others no_submit). intros job. apply lively_ret.
  - computed.
  - apply (lively_keeps (Fail job_id revision "GRAPH_POLL_FAILED") w1); [apply lively_fail; exact quiet_others|computed|exact ok1].
Qed.
(** The retry is admitted, and its run does nothing. *)
Lemma failed_revision_is_not_rebuilt_witness :
  RetryOfJobID retry_job = job_id /\ puts (calls (run service ProjectionExamples.v1 3 retry_id w4).2) = puts (calls w4) /\
  exists t, sync_states (db (run service ProjectionExamples.v1 3 retry_id w4).2) !! revision = Some (state_of w4, t).
Proof.
  split; [reflexivity|]. destruct (sync_states (db w4) !! revision) as [[s t]|] eqn:Hs; [|vm_compute in Hs; discriminate].
  assert (state_of w4 = s) as -> by (unfold state_of; by rewrite Hs).
  assert (GetGraphJob (db w4) retry_id = Ok retry_job) as Hj by computed.
  assert (Pipeline s = StateFailed) as Hf by (vm_compute in Hs; by injection Hs as <- _).
  exact (proj2 (failed_revision_is_not_rebuilt service ProjectionExamples.v1 quiet_others 3 retry_id retry_job s t w4 ok4 Hj Hs Hf)).
Defined.

(** ** A process that closes while the provider works *)
Definition w5 : World Sim := Eval vm_compute in (run service ProjectionExamples.v1 0 job_id w1).2.
Definition w6 : World Sim := Eval vm_compute in (PrepareShutdown 0 w5).2.
Definition stopped_job : GraphJob := Eval vm_compute in match GetGraphJob (db w6) job_id with Ok job => job | Err _ => no_job end.
Definition expected : SnapshotExpectation := mkExpectation project revision config_hash 2 1.
Definition sent : PutSnapshotRequest := mkPut SnapshotSchemaVersion "full" config_hash [] [].
Definition polling : PollingRequest := mkPolling job_id revision project revision expected "resume".
Definition reconciliation : ReconciliationRequest := mkReconciliation job_id revision project revision expected sent "resume".
Definition resumer : RecoveryResumer (P := Sim) := {|
  ResolveGraphRecovery := fun _ => saga_ret (Ok (polling, reconciliation));
  ResumeUnsubmittedGraphJob := fun _ => saga_ret (Ok tt);
  ObserveRecoveredTask := fun _ _ => saga_ret (Ok tt)
|}.
Lemma resumer_ok : resumer_lively service resumer.
Proof. intros work. split_and!; [apply lively_ret|apply lively_ret|intros; apply lively_ret]. Qed.
Lemma ok5 : graph_ok (db w5).
Proof. apply (lively_keeps (run service ProjectionExamples.v1 0 job_id) w1); [exact (lively_run service ProjectionExamples.v1 quiet_others 0 job_id)|computed|exact ok1]. Qed.
Lemma ok6 : graph_ok (db w6).
Proof. apply (lively_keeps (PrepareShutdown 0) w5); [apply lively_shutdown; exact quiet_others|computed|exact ok5]. Qed.
Definition stopped_work : RecoveryWork := mkWork stopped_job (state_of w6) None.
Lemma interrupted_recovery_fails_witness :
  same_task (state_of w6) = true /\
  exists e, (ReconcileInterruptedGraphJob (DurableRecoveryDispatcher resumer) stopped_work w6).1 = Err e.
Proof.
  split; [vm_compute; reflexivity|].
  assert (GetGraphJob (db w6) (GJob_ID (Work_Job stopped_work)) = Ok stopped_job) as Hj by computed.
  apply (interrupted_recovery_fails service quiet_others resumer stopped_work stopped_job w6 ok6 Hj); [reflexivity|exact resumer_ok|].
  intros w p r Hr. injection Hr as <- <-. reflexivity.
Defined.
(** The provider forgets everything: the snapshot is put again. *)
Definition w7 : World Sim := mkWorld (db w5) (mkSim None 0) (ticks w5) (calls w5).
Definition lost : GraphError := ErrProvider (missing "TASK_NOT_FOUND").
Lemma reconciliation_resubmits_only_missing_witness :
  length (puts (calls (ReconcileTaskNotFound reconciliation lost w7).2)) = 2%nat /\ answered_missing w7 project revision "resume".
Proof.
  assert (length (puts (calls (ReconcileTaskNotFound reconciliation lost w7).2)) = 2%nat) as Hn by computed. split; [exact Hn|].
  destruct (reconciliation_resubmits_only_missing service quiet_others reconciliation lost w7 ok5) as [Hp|[_ Hm]]; [|exact Hm].
  cbv zeta in Hp. rewrite Hp in Hn. vm_compute in Hn. discriminate Hn.
Defined.
(** The snapshot is put again, but the new task cannot be polled. *)
Definition resent : PutSnapshotRequest := match puts (calls w5) with [CallPut _ _ r] => r | _ => sent end.
Definition resent_expectation : SnapshotExpectation := mkExpectation project revision (Put_ContentHash resent) 2 1.
Definition resubmission : ReconciliationRequest := mkReconciliation job_id revision project revision resent_expectation resent "resume".
Example resubmitted_task_is_never_polled :
  (ReconcileTaskNotFound resubmission lost w7).1 = (mkDecision false true no_verification, None) /\
  (Poll (mkPolling job_id revision project revision resent_expectation "resume") (ReconcileTaskNotFound resubmission lost w7).2).1 =
    Err ErrWorkerCheckpoint.
Proof. split; computed. Qed.
End GraphExamples.
