(* ===== verification/ReleasePreflight.v ===== *)
(** * Release preflight: internal/versioning/release/{canonical,confirmation,command_validation,preflight}.go,
    the FULL validation gate of internal/validation/gate.go and its adapter in
    internal/versioning/gate/ports.go

    Preflight only reads.  Its ports are arguments: the immutable sources, the
    run finder of the validation gate and the source of Gate results; the store's
    own reads of releases and of the pointer are in [ReleaseStore]. *)
From S2P Require Import Prelude GoSort GoStrings GoCrypto GoJson Domain ReleaseTypes ValidationTypes.
From S2P Require VersionGate.
Import VersionGate(Assessment, Assessment_State, CandidateContext, mkCandidate, ResultState, Pass, Warning, Block,
  Unavailable, Stale, ReleasePolicy).
Open Scope Z_scope.

(** ** gate/ports.go: [ValidationGateAdapter.Check] *)
Definition ValidationSource : Type := ID -> string -> ValidationVersions -> result GateResult string.
Definition ValidationGateAdapter_Check (source : ValidationSource) (revisionID : ID) (configHash : string)
    (versions : ValidationVersions) : ResultState * option string :=
  match source revisionID configHash versions with
  | Err e => (Unavailable, Some e)
  | Ok GatePass => (Pass, None)
  | Ok GateBlocked => (Block, None)
  | Ok GateRequiresValidation => (Stale, None)
  | Ok (GateOther _) => (Unavailable, None)
  end.

(** ** canonical.go *)
Definition confirmation_json (c : Confirmation) : json :=
  JObject [("kind"%string, JString (Confirmation_Kind c)); ("confirmed"%string, JBool (Confirmed c))].
Definition override_json (o : OverrideAudit) : json :=
  JObject [("gate_result_id"%string, JString (GateResultID o)); ("reason"%string, JString (Reason o));
           ("confirmed"%string, JBool (Override_Confirmed o))].

(** The anonymous struct of [CanonicalJSON], fields tagged [omitempty] left out
    when empty; an empty confirmation list is the nil slice [append] returns. *)
Definition command_json (c : Command) : json :=
  let confirmations := sort_by (less_on Confirmation_Kind String.ltb) (Command_Confirmations c) in
  JObject ([("candidate_revision_id"%string, JString (Command_CandidateRevisionID c));
            ("config_hash"%string, JString (ConfigHash c));
            ("version_manifest_hash"%string, JString (ManifestHash c));
            ("policy_id"%string, JString (Command_PolicyID c));
            ("expected_baseline_release_id"%string,
             if bool_decide (Command_BaselineReleaseID c <> ""%string) then JString (Command_BaselineReleaseID c) else JNull)] ++
           (if bool_decide (Command_Notes c = ""%string) then [] else [("notes"%string, JString (Command_Notes c))]) ++
           [("confirmations"%string,
             if bool_decide (confirmations = []) then JNull else JArray (confirmation_json <$> confirmations))] ++
           match Command_Override c with None => [] | Some o => [("override"%string, override_json o)] end).

Inductive PreflightError :=
  | ErrBaselineConfirmation | ErrWarningConfirmation | ErrOverrideInvalid
  | ErrCommandInvalid | ErrCommandSources | ErrCandidateUnknown | ErrCandidateMismatch
  | ErrPolicyUnknown | ErrPolicyInvalid | ErrBaselineUnknown | ErrBaselineConflict
  | ErrReleaseCapabilityDisabled (reasons : list VersionGate.DisabledReason) | ErrPreflightFailed
  | ErrPreflightUnavailable | ErrValidationManifest | ErrReleaseBaseConflict.

(** The [CommandSources] interface. *)
Record CommandSources := mkSources {
  GetRevisionRecord : ID -> result VersionGate.Record_ string;
  GetPolicy : ID -> result ReleasePolicy string;
  Sources_GetRelease : ID -> result Release string;
  Sources_GetActivePointer : result ActivePointer string
}.

Record ValidatedCommand := mkValidated {
  Validated_Command : Command; Validated_Candidate : CandidateContext; Validated_Revision : VersionGate.Record_;
  Validated_Policy : ReleasePolicy; Validated_Pointer : ActivePointer; Validated_RequestHash : string
}.

(** ** confirmation.go *)
Definition hasConfirmation (confirmations : list Confirmation) (kind : string) : bool :=
  existsb (fun c => bool_decide (Confirmation_Kind c = kind) && Confirmed c) confirmations.

Inductive RecheckStage :=
  | RecheckWorkerStart | RecheckBeforeBackup | RecheckBeforeGraph | RecheckBeforeCommit
  | RecheckUnknown (spelling : string).
Definition RecheckStage_Valid (s : RecheckStage) : bool := match s with RecheckUnknown _ => false | _ => true end.

Section preflight.
Context `{UnicodeTables, UuidLib, FloatText}.

Definition Command_CanonicalJSON (c : Command) : result string string := CanonicalJSON (command_json c).
Definition Command_Hash (c : Command) : result string string :=
  let? body := Command_CanonicalJSON c in Ok (sha256_hex body).

(** A result that declares its risk block overridable, under the override's id. *)
Definition overrides_risk (override : OverrideAudit) (r : VersionGate.Result) : bool :=
  bool_decide (VersionGate.Result_ID r = GateResultID override) &&
  bool_decide (VersionGate.State r = Block) &&
  bool_decide (VersionGate.Descriptor_CapabilityID (VersionGate.Result_Descriptor r) = "risk"%string) &&
  VersionGate.OverridableNumericBlock (VersionGate.Result_Descriptor r).

Definition ValidateConfirmations (candidate : CandidateContext) (activeReleaseID : ID) (assessment : Assessment)
    (results : list VersionGate.Result) (confirmations : list Confirmation) (override : option OverrideAudit) :
    result unit PreflightError :=
  let baseline := VersionGate.BaselineReleaseID candidate in
  if if bool_decide (activeReleaseID = ""%string) then
       negb (bool_decide (baseline = ""%string)) || negb (hasConfirmation confirmations ConfirmationEstablishBaseline)
     else
       negb (bool_decide (baseline = activeReleaseID)) ||
       existsb (fun r =>
         bool_decide (VersionGate.Descriptor_CapabilityID (VersionGate.Result_Descriptor r) = "risk"%string) &&
         negb (bool_decide (VersionGate.BaselineReleaseID (VersionGate.Candidate (VersionGate.Context_ r)) = activeReleaseID)))
         results
  then Err ErrBaselineConfirmation
  else if bool_decide (Assessment_State assessment = Warning) &&
          negb (hasConfirmation confirmations ConfirmationAcknowledgeWarning)
  then Err ErrWarningConfirmation
  else if negb (bool_decide (Assessment_State assessment = Block)) then Ok tt
  else match override with
  | None => Err ErrOverrideInvalid
  | Some o =>
      if negb (ID_Valid (GateResultID o)) || negb (Override_Confirmed o) || bool_decide (TrimSpace (Reason o) = ""%string)
      then Err ErrOverrideInvalid
      else if existsb (overrides_risk o) results then Ok tt else Err ErrOverrideInvalid
  end.

(** ** command_validation.go *)
Definition candidate_of (c : Command) : CandidateContext :=
  mkCandidate (Command_CandidateRevisionID c) (ConfigHash c) (ManifestHash c) (Command_PolicyID c)
    (Command_BaselineReleaseID c).

Definition or_else {A E E' : Type} (r : result A E) (e : E') : result A E' :=
  match r with Ok a => Ok a | Err _ => Err e end.
Definition require {E : Type} (b : bool) (e : E) : result unit E := if b then Ok tt else Err e.

Definition ValidateCommand (sources : option CommandSources) (command : Command) : result ValidatedCommand PreflightError :=
  let? _ := require (Command_Valid command) ErrCommandInvalid in
  match sources with
  | None => Err ErrCommandSources
  | Some s =>
      let? revision := or_else (GetRevisionRecord s (Command_CandidateRevisionID command)) ErrCandidateUnknown in
      let metadata := VersionGate.Record_Metadata revision in
      let? _ := require (VersionGate.Record_Valid revision &&
          bool_decide (VersionGate.RevisionID metadata = Command_CandidateRevisionID command) &&
          bool_decide (VersionGate.ConfigHash metadata = ConfigHash command) &&
          bool_decide (VersionGate.ManifestHash metadata = ManifestHash command)) ErrCandidateMismatch in
      let? policy := or_else (GetPolicy s (Command_PolicyID command)) ErrPolicyUnknown in
      let? _ := require (VersionGate.ReleasePolicy_Valid policy &&
          bool_decide (VersionGate.Policy_ID policy = Command_PolicyID command)) ErrPolicyInvalid in
      let? pointer := or_else (Sources_GetActivePointer s) ErrCommandSources in
      let? _ := require (ActivePointer_Valid pointer) ErrCommandSources in
      let? _ :=
        if bool_decide (Command_BaselineReleaseID command = ""%string) then Ok tt
        else
          let? baseline := or_else (Sources_GetRelease s (Command_BaselineReleaseID command)) ErrBaselineUnknown in
          require (bool_decide (Release_ID baseline = Command_BaselineReleaseID command)) ErrBaselineUnknown in
      let? _ := require (bool_decide (Command_BaselineReleaseID command = Pointer_ReleaseID pointer)) ErrBaselineConflict in
      let candidate := candidate_of command in
      let? _ := ValidateConfirmations candidate (Pointer_ReleaseID pointer) (VersionGate.mkAssessment Pass []) []
                  (Command_Confirmations command) None in
      let? requestHash := or_else (Command_Hash command) ErrCommandInvalid in
      Ok (mkValidated command candidate revision policy pointer requestHash)
  end.

(** ** preflight.go *)
Definition manifest_capabilities : list string := ["schema"; "dsl"; "validator-registry"; "numeric-policy"]%string.

(** The map [values] of [ValidationManifest], filled entry by entry. *)
Definition manifest_value (values : gmap string string) (entry : VersionGate.VersionEntry) :
    result (gmap string string) PreflightError :=
  if bool_decide (VersionGate.Entry_CapabilityID entry ∈ manifest_capabilities) then
    if negb (bool_decide (VersionGate.Entry_State entry = VersionGate.Registered)) ||
       negb (bool_decide (VersionGate.Entry_ContractVersion entry = "validation-v1"%string)) ||
       bool_decide (VersionGate.Entry_ImplementationVersion entry = ""%string)
    then Err ErrValidationManifest
    else Ok (<[VersionGate.Entry_CapabilityID entry := VersionGate.Entry_ImplementationVersion entry]> values)
  else Ok values.

Definition ValidationManifest (manifest : VersionGate.VersionManifest) : result ValidationVersions PreflightError :=
  let? _ := require (VersionGate.VersionManifest_Valid manifest) ErrValidationManifest in
  let? values := foldr_result manifest_value ∅ (VersionGate.Entries manifest) in
  let at_ k := default ""%string (values !! k) in
  let versions := mkVersions (at_ "schema") (at_ "dsl") (at_ "validator-registry") (at_ "numeric-policy") in
  let? _ := require (ValidationVersions_Valid versions) ErrValidationManifest in
  Ok versions.

Record PreflightService := mkService {
  Sources : option CommandSources; Validation : option ValidationSource;
  Service_Registry : option VersionGate.Registry;
  Results : option (CandidateContext -> ReleasePolicy -> result (list VersionGate.Result) string)
}.
Record Preflight := mkPreflight {
  Validated : ValidatedCommand; Preflight_Validation : ResultState; Preflight_Assessment : Assessment;
  Preflight_Results : list VersionGate.Result
}.

(** The error [Preflight] makes of a refused confirmation: a blocking Gate
    without a requested override is an ordinary failure. *)
Definition confirmation_error (assessment : Assessment) (command : Command) (e : PreflightError) : PreflightError :=
  match e, Command_Override command with
  | ErrOverrideInvalid, None => if bool_decide (Assessment_State assessment = Block) then ErrPreflightFailed else e
  | _, _ => e
  end.

Definition PreflightService_Preflight (s : PreflightService) (command : Command) : result Preflight PreflightError :=
  let? validated :=
    match ValidateCommand (Sources s) command with
    | Err ErrBaselineConflict => Err ErrReleaseBaseConflict
    | r => r
    end in
  let capability := VersionGate.CalculateReleaseCapability (Service_Registry s) (Validated_Policy validated) in
  let? _ := require (VersionGate.Enabled capability) (ErrReleaseCapabilityDisabled (VersionGate.Reasons capability)) in
  let? versions := ValidationManifest (VersionGate.Manifest (VersionGate.Record_Metadata (Validated_Revision validated))) in
  match Validation s with
  | None => Err ErrPreflightUnavailable
  | Some source =>
      let candidate := Validated_Candidate validated in
      let '(state, error) := ValidationGateAdapter_Check source (VersionGate.Candidate_RevisionID candidate)
                               (VersionGate.Candidate_ConfigHash candidate) versions in
      let? _ := require (bool_decide (error = None) && negb (bool_decide (state = Unavailable))) ErrPreflightUnavailable in
      let? _ := require (bool_decide (state = Pass)) ErrPreflightFailed in
      match Results s with
      | None => Err ErrPreflightUnavailable
      | Some read =>
          let? results := or_else (read candidate (Validated_Policy validated)) ErrPreflightUnavailable in
          let assessment := VersionGate.AssessPolicy candidate (Validated_Policy validated) results in
          match ValidateConfirmations candidate (Pointer_ReleaseID (Validated_Pointer validated)) assessment results
                  (Command_Confirmations command) (Command_Override command) with
          | Err e => Err (confirmation_error assessment command e)
          | Ok _ => Ok (mkPreflight validated state assessment results)
          end
      end
  end.

Definition Recheck (s : PreflightService) (stage : RecheckStage) (command : Command) : result Preflight PreflightError :=
  if negb (RecheckStage_Valid stage) then Err ErrPreflightFailed else PreflightService_Preflight s command.
End preflight.

(** ** What a passed preflight has established *)
Lemma require_Ok {E : Type} (b : bool) (e : E) u : require b e = Ok u <-> b = true.
Proof. unfold require. destruct b, u; naive_solver. Qed.

Lemma or_else_Ok {A E E' : Type} (r : result A E) (e : E') a : or_else r e = Ok a <-> r = Ok a.
Proof. destruct r; simpl; naive_solver. Qed.

(** Opens a computation in the result monad that succeeded. *)
Ltac open_result H :=
  repeat match type of H with
  | result_bind _ _ = Ok _ => let x := fresh "x" in let Hx := fresh "Hx" in apply result_bind_Ok in H as (x & Hx & H); cbv beta zeta in H
  end.

Section properties.
Context `{UnicodeTables, UuidLib, FloatText}.

(** The confirmations a passed check has seen. *)
Definition confirmed (active : ID) (a : Assessment) (results : list VersionGate.Result)
    (confirmations : list Confirmation) (override : option OverrideAudit) : Prop :=
  (active = ""%string -> hasConfirmation confirmations ConfirmationEstablishBaseline = true) /\
  (Assessment_State a = Warning -> hasConfirmation confirmations ConfirmationAcknowledgeWarning = true) /\
  (Assessment_State a = Block ->
   exists o r, override = Some o /\ r ∈ results /\ overrides_risk o r = true /\
     TrimSpace (Reason o) <> ""%string).

Lemma ValidateConfirmations_Ok candidate active a results confirmations override u :
  ValidateConfirmations candidate active a results confirmations override = Ok u ->
  VersionGate.BaselineReleaseID candidate = active /\ confirmed active a results confirmations override.
Proof.
  unfold ValidateConfirmations. case_guard as Hb; [done|]. case_guard as Hw; [done|]. intros Hrest.
  assert (VersionGate.BaselineReleaseID candidate = active /\
          (active = ""%string -> hasConfirmation confirmations ConfirmationEstablishBaseline = true)) as [Hbase Hest].
  { destruct (decide (active = ""%string)) as [->|Hne].
    - rewrite bool_decide_true in Hb by done. bool_to_prop. auto.
    - rewrite (bool_decide_false (active = ""%string)) in Hb by done. bool_to_prop. by split. }
  split; [done|]. split_and!; [done| |].
  - intros Ha. rewrite Ha, bool_decide_true in Hw by done. simpl in Hw. by apply negb_false_iff in Hw.
  - intros Ha. rewrite Ha in Hrest. simpl in Hrest. destruct override as [o|]; [|done].
    destruct (negb _ || _ || _) eqn:Ho in Hrest; [done|]. bool_to_prop.
    destruct (existsb (overrides_risk o) results) eqn:He; [|done].
    apply existsb_exists in He as (r & Hin & Hr). exists o, r. split_and!; auto. by apply list_elem_of_In.
Qed.

Lemma ValidateCommand_Ok sources command v :
  ValidateCommand sources command = Ok v ->
  exists s, sources = Some s /\ Command_Valid command = true /\ Validated_Command v = command /\
    Validated_Candidate v = candidate_of command /\
    GetRevisionRecord s (Command_CandidateRevisionID command) = Ok (Validated_Revision v) /\
    VersionGate.ConfigHash (VersionGate.Record_Metadata (Validated_Revision v)) = ConfigHash command /\
    GetPolicy s (Command_PolicyID command) = Ok (Validated_Policy v) /\
    Sources_GetActivePointer s = Ok (Validated_Pointer v) /\
    Pointer_ReleaseID (Validated_Pointer v) = Command_BaselineReleaseID command /\
    Command_Hash command = Ok (Validated_RequestHash v).
Proof.
  unfold ValidateCommand. intros Hv. apply result_bind_Ok in Hv as (? & Hc%require_Ok & Hv).
  destruct sources as [s|]; [|done]. open_result Hv. injection Hv as <-. simpl.
  repeat match goal with
  | H : require _ _ = Ok _ |- _ => apply require_Ok in H
  | H : or_else _ _ = Ok _ |- _ => apply or_else_Ok in H
  end. bool_to_prop. exists s. split_and!; auto.
Qed.

Lemma ValidationGateAdapter_Pass source revisionID configHash versions :
  ValidationGateAdapter_Check source revisionID configHash versions = (Pass, None) <->
  source revisionID configHash versions = Ok GatePass.
Proof. unfold ValidationGateAdapter_Check. destruct (source _ _ _) as [[]|]; naive_solver. Qed.

Lemma ValidationGate_Pass runs revisionID configHash versions :
  ValidationGate_Check runs revisionID configHash versions = Ok GatePass ->
  exists run, runs revisionID configHash versions = Ok (Some run) /\
    Run_Source run = mkSource SourceRevision revisionID configHash /\ Run_Scope run = ScopeFull /\
    Run_Versions run = versions /\
    Summary_Error (Summary run) <= 0 /\ Summary_Block (Summary run) <= 0.
Proof.
  unfold ValidationGate_Check. destruct (runs _ _ _) as [[run|]|]; [|done..].
  case_guard as Hg; [done|]. case_guard as Hs; [done|]. intros _. bool_to_prop. exists run.
  destruct run as [? [k r h] sc ve ? su ? ?]. simpl in *. subst. by split_and!.
Qed.

(** Everything a passed preflight has looked at. *)
Lemma Preflight_Ok s command p :
  PreflightService_Preflight s command = Ok p ->
  ValidateCommand (Sources s) command = Ok (Validated p) /\
  VersionGate.Enabled (VersionGate.CalculateReleaseCapability (Service_Registry s) (Validated_Policy (Validated p))) = true /\
  (exists source versions, Validation s = Some source /\
     ValidationManifest (VersionGate.Manifest (VersionGate.Record_Metadata (Validated_Revision (Validated p)))) = Ok versions /\
     source (Command_CandidateRevisionID command) (ConfigHash command) versions = Ok GatePass) /\
  (exists read, Results s = Some read /\
     read (candidate_of command) (Validated_Policy (Validated p)) = Ok (Preflight_Results p)) /\
  Preflight_Assessment p =
    VersionGate.AssessPolicy (candidate_of command) (Validated_Policy (Validated p)) (Preflight_Results p) /\
  confirmed (Command_BaselineReleaseID command) (Preflight_Assessment p) (Preflight_Results p)
    (Command_Confirmations command) (Command_Override command).
Proof.
  unfold PreflightService_Preflight. intros Hp. apply result_bind_Ok in Hp as (v & Hv & Hp).
  assert (ValidateCommand (Sources s) command = Ok v) as Hvalid by (destruct (ValidateCommand _ _) as [|[]]; done).
  destruct (ValidateCommand_Ok _ _ _ Hvalid) as (src & _ & _ & Hcmd & Hcand & _ & _ & _ & _ & Hptr & _).
  rewrite Hcand in Hp. open_result Hp.
  destruct (Validation s) as [source|]; [|done]. simpl in Hp.
  destruct (ValidationGateAdapter_Check _ _ _ _) as [state error] eqn:Hgate. open_result Hp.
  destruct (Results s) as [read|]; [|done]. apply result_bind_Ok in Hp as (results & Hread%or_else_Ok & Hp).
  destruct (ValidateConfirmations _ _ _ _ _ _) as [u|] eqn:Hconf; [|done]. injection Hp as <-. simpl.
  apply ValidateConfirmations_Ok in Hconf as [_ Hconf]. rewrite Hptr in Hconf.
  repeat match goal with H : require _ _ = Ok _ |- _ => apply require_Ok in H end. bool_to_prop. subst.
  split_and!; eauto. exists source, x0. split_and!; [done..|].
  by apply ValidationGateAdapter_Pass.
Qed.

(** C24: a release request passes preflight only on evidence: the request is
    valid, its baseline is the active release, its hash is the revision's, the
    release capability is enabled, the exact FULL validation of the revision and
    hash passed without an ERROR or BLOCK issue, the first release confirms the
    baseline, a warning is acknowledged, and a blocked assessment passes only
    with a reasoned override of an overridable blocking risk result. *)
Theorem preflight_passes_only_with_evidence s runs command p :
  Validation s = Some (ValidationGate_Check runs) ->
  PreflightService_Preflight s command = Ok p ->
  Command_Valid command = true /\
  Pointer_ReleaseID (Validated_Pointer (Validated p)) = Command_BaselineReleaseID command /\
  VersionGate.ConfigHash (VersionGate.Record_Metadata (Validated_Revision (Validated p))) = ConfigHash command /\
  VersionGate.Enabled (VersionGate.CalculateReleaseCapability (Service_Registry s) (Validated_Policy (Validated p))) = true /\
  (exists versions run,
     runs (Command_CandidateRevisionID command) (ConfigHash command) versions = Ok (Some run) /\
     Run_Source run = mkSource SourceRevision (Command_CandidateRevisionID command) (ConfigHash command) /\
     Run_Scope run = ScopeFull /\ Run_Versions run = versions /\
     Summary_Error (Summary run) <= 0 /\ Summary_Block (Summary run) <= 0) /\
  (Command_BaselineReleaseID command = ""%string ->
     hasConfirmation (Command_Confirmations command) ConfirmationEstablishBaseline = true) /\
  (Assessment_State (Preflight_Assessment p) = Warning ->
     hasConfirmation (Command_Confirmations command) ConfirmationAcknowledgeWarning = true) /\
  (Assessment_State (Preflight_Assessment p) = Block ->
     exists o r, Command_Override command = Some o /\ r ∈ Preflight_Results p /\ overrides_risk o r = true /\
       TrimSpace (Reason o) <> ""%string).
Proof.
  intros Hval Hp.
  apply Preflight_Ok in Hp as (Hv & Hcap & (source & versions & Hs & _ & Hpass) & _ & _ & Hb & Hw & Hblock).
  destruct (ValidateCommand_Ok _ _ _ Hv) as (src & _ & Hvalid & _ & _ & _ & Hhash & _ & _ & Hptr & _).
  rewrite Hval in Hs. injection Hs as <-. apply ValidationGate_Pass in Hpass as (run & Hrun & Hsrc & Hscope & Hver & Herr & Hbl).
  split_and!; eauto.
  exists versions, run. by split_and!.
Qed.

Lemma Command_Valid_kinds c : Command_Valid c = true -> NoDup (Confirmation_Kind <$> Command_Confirmations c).
Proof.
  unfold Command_Valid. case_guard; [done|]. case_guard; [done|]. intros [[_ Hnd]%andb_prop _]%andb_prop.
  by apply nodupb_NoDup.
Qed.

(** the request hash a release job is deduplicated by depends neither on
    the order of the confirmations nor on the idempotency key. *)
Theorem command_hash_order_independent c confirmations key :
  Command_Valid c = true -> Command_Confirmations c ≡ₚ confirmations ->
  Command_Hash (mkCommand (Command_CandidateRevisionID c) (ConfigHash c) (ManifestHash c) (Command_PolicyID c)
    (Command_BaselineReleaseID c) (BaselineSpecified c) (Command_Notes c) confirmations (Command_Override c) key) =
  Command_Hash c.
Proof.
  intros Hv%Command_Valid_kinds Hp. unfold Command_Hash, Command_CanonicalJSON, command_json. simpl.
  by rewrite (sort_on_key_unique _ _ _ _ Hv Hp).
Qed.
End properties.

Module PreflightExamples.
Local Existing Instance canonical_uuid.
Local Existing Instance latin1_tables.
#[local] Instance text_floats : FloatText := {| float_text := Ok |}.
Import VersionGate.GateExamples(uuid, zeros, policy, results, gates).

Definition manifest : VersionGate.VersionManifest :=
  VersionGate.mkManifest ((fun id => VersionGate.mkVersionEntry id "validation-v1" "1" VersionGate.Registered) <$> manifest_capabilities).
Definition revision : VersionGate.Record_ :=
  VersionGate.mkRecord 1 (VersionGate.mkMetadata (uuid "1") zeros "" "" "" "" "" manifest zeros 5).
Definition sources : CommandSources :=
  mkSources (fun _ => Ok revision) (fun _ => Ok policy) (fun _ => Err "none"%string) (Ok (mkPointer "" 0)).
Definition runs : FullRunFinder := fun id hash versions =>
  Ok (Some (mkRun id (mkSource SourceRevision id hash) ScopeFull versions RunCompleted (mkSummary 0 0 1 0) hash 1)).
Definition service : PreflightService :=
  mkService (Some sources) (Some (ValidationGate_Check runs)) (Some gates) (Some (fun _ _ => Ok results)).
Definition command : Command :=
  mkCommand (uuid "1") zeros zeros (uuid "2") "" true "first"
    [mkConfirmation ConfirmationEstablishBaseline true; mkConfirmation ConfirmationAcknowledgeWarning true] None "key".
Definition passed : Preflight := Eval vm_compute in
  match PreflightService_Preflight service command with
  | Ok p => p
  | Err _ => mkPreflight (mkValidated command (candidate_of command) revision policy (mkPointer "" 0) "") Pass
               (VersionGate.mkAssessment Pass []) []
  end.

Lemma preflight_passes_only_with_evidence_witness :
  Assessment_State (Preflight_Assessment passed) = Pass /\
  Pointer_ReleaseID (Validated_Pointer (Validated passed)) = Command_BaselineReleaseID command /\
  hasConfirmation (Command_Confirmations command) ConfirmationEstablishBaseline = true.
Proof.
  assert (PreflightService_Preflight service command = Ok passed) as Hp by (vm_compute; reflexivity).
  pose proof (preflight_passes_only_with_evidence service runs command passed eq_refl Hp) as (_ & Hptr & _ & _ & _ & Hbase & _).
  split; [vm_compute; reflexivity|]. split; [exact Hptr|]. apply Hbase. reflexivity.
Defined.

Lemma command_hash_order_independent_witness :
  Command_Hash (mkCommand (uuid "1") zeros zeros (uuid "2") "" true "first" (rev (Command_Confirmations command)) None "other") =
  Command_Hash command.
Proof.
  apply (command_hash_order_independent command); [vm_compute; reflexivity|]. apply Permutation_rev.
Defined.

(** A blocked assessment without an override is an ordinary failure, a wrong
    baseline a conflict. *)
Example missing_results_fail :
  PreflightService_Preflight (mkService (Some sources) (Some (ValidationGate_Check runs)) (Some gates) (Some (fun _ _ => Ok []))) command =
  Err ErrPreflightFailed.
Proof. vm_compute. reflexivity. Qed.
End PreflightExamples.
