(* ===== verification/ReleaseSaga.v ===== *)
(** * The release saga: internal/versioning/release/{graph,backup,worker}.go and the live
    callback of internal/bootstrap/release_runtime.go

    A saga runs against the release store and a Graph service.  The Graph and the
    backup gate are the interfaces of ports.go; a step that needs the clock or a
    fresh identifier takes the next reading.  The worker is shown inside its write
    lane, where the operations of one project follow each other. *)
From S2P Require Import Prelude GoSort GoStrings GoCrypto GoJson Domain Job JobStore ReleaseTypes ReleaseStore ReleasePreflight.
Open Scope Z_scope.

(** [GraphRecoveryGate] (which embeds [GraphActivationGate]). *)
Class GraphGate (G : Type) := {
  Activate : GraphActivationRequest -> G -> result GraphActivationEvidence string * G;
  ActiveSnapshot : GraphReadRequest -> G -> result GraphSnapshot string * G;
  Graph_Restore : GraphRestoreRequest -> G -> result unit string * G
}.

(** Successive clock readings and results of [domain.NewID]. *)
Class Runtime := { clock : nat -> Time; newID : nat -> option ID }.

Record World (G : Type) := mkWorld { store : ReleaseStore; graph : G; ticks : nat }.
Arguments mkWorld {G} store graph ticks.
Arguments store {G} w.
Arguments graph {G} w.
Arguments ticks {G} w.

(** ** The state monad of a saga, and its early returns *)
Definition Saga (G A : Type) : Type := World G -> A * World G.
Definition saga_ret {G A : Type} (a : A) : Saga G A := fun w => (a, w).
Definition saga_bind {G A B : Type} (m : Saga G A) (f : A -> Saga G B) : Saga G B :=
  fun w => let '(a, w') := m w in f a w'.
(** [if err != nil { return ... }] *)
Definition saga_try {G A B E : Type} (m : Saga G (result A E)) (f : A -> Saga G (result B E)) : Saga G (result B E) :=
  saga_bind m (fun r => match r with Ok a => f a | Err e => saga_ret (Err e) end).

Declare Scope saga_scope.
Delimit Scope saga_scope with saga.
Notation "'let*' x := m 'in' k" :=
  (saga_bind m (fun x => k)) (at level 10, x pattern, m at level 100, k at level 200) : saga_scope.
Notation "'let*?' x := m 'in' k" :=
  (saga_try m (fun x => k)) (at level 10, x pattern, m at level 100, k at level 200) : saga_scope.
Open Scope saga_scope.

Section operations.
Context {G : Type} `{GraphGate G, Runtime, UuidLib}.

Definition with_store (w : World G) (st : ReleaseStore) : World G := mkWorld st (graph w) (S (ticks w)).

(** A read of the store, and a write at the next clock reading. *)
Definition read {A : Type} (f : ReleaseStore -> A) : Saga G A := fun w => (f (store w), w).
Definition write {A : Type} (f : ReleaseStore -> Time -> option ID -> A * ReleaseStore) : Saga G A :=
  fun w => let '(a, st) := f (store w) (clock (ticks w)) (newID (ticks w)) in (a, with_store w st).
Definition call {A : Type} (f : G -> A * G) : Saga G A :=
  fun w => let '(a, g) := f (graph w) in (a, mkWorld (store w) g (ticks w)).

Definition transition_intent (id : ID) (expected next : IntentPhase) (external details : string) :
    Saga G (result (option Intent * bool) ReleaseError) :=
  write (fun st now _ => TransitionIntent st now id expected next external details).
Definition transition_job (id : ID) (expected next : JobStatus) (res : option JobResult) :
    Saga G (result (option ReleaseJob * bool) ReleaseError) :=
  write (fun st now _ => TransitionReleaseJob st now id expected next res).
Definition commit_intent (intentID : ID) (generation : Z) : Saga G (result (Release * ActivePointer) ReleaseError) :=
  write (fun st now id => CommitActivatedIntent st now id intentID generation).

(** ** graph.go *)
Definition intent_matches_job (job : ReleaseJob) (intent : Intent) : bool :=
  bool_decide (Job_ID job = Intent_JobID intent) &&
  bool_decide (Job_RevisionID job = Intent_CandidateRevisionID intent) &&
  bool_decide (Job_RequestHash job = Intent_RequestHash intent).

Definition activation_request (job : ReleaseJob) (intent : Intent) : GraphActivationRequest :=
  mkActivation (Job_ProjectID job) (Job_RevisionID job) (Job_InputHash job) (Intent_ID intent).

Definition ErrGraphActivationInvalid : string := "graph activation could not be verified".

Definition ActivateGraph (job : ReleaseJob) (intent : Intent) : Saga G (result GraphActivationEvidence string) :=
  if negb (Job_Valid job) || negb (Intent_Valid intent) || negb (intent_matches_job job intent)
  then saga_ret (Err ErrGraphActivationInvalid)
  else
    let request := activation_request job intent in
    let* r := call (Activate request) in
    saga_ret match r with
             | Ok evidence => if Evidence_Matches evidence request then Ok evidence else Err ErrGraphActivationInvalid
             | Err e => Err ErrGraphActivationInvalid
             end.

(** ** backup.go *)
Definition ErrMandatoryBackupFailed : string := "mandatory release backup failed".
Definition BackupGate : Type := ID -> string -> Saga G (result BackupEvidence string).

Definition PerformMandatoryBackup (gate : BackupGate) (job : ReleaseJob) : Saga G (result BackupEvidence string) :=
  if negb (Job_Valid job) then saga_ret (Err ErrMandatoryBackupFailed)
  else
    let* r := gate (Job_ID job) (Job_RequestHash job) in
    saga_ret match r with
             | Ok evidence => if BackupEvidence_Valid evidence then Ok evidence else Err ErrMandatoryBackupFailed
             | Err _ => Err ErrMandatoryBackupFailed
             end.

(** ** worker.go *)
Inductive WorkerError :=
  | ErrInvalidWorker | ErrJobOwned | ErrJobTerminal | ErrCancelBoundary | ErrCloseBlocked
  | ErrStore (e : ReleaseError) | ErrRun (e : string).

(** [Worker.Run] returns the completed job beside the error. *)
Definition Worker_Run (jobID : ID) (run : ReleaseJob -> Saga G (result JobResult string)) :
    Saga G (option ReleaseJob * option WorkerError) :=
  if negb (ID_Valid jobID) then saga_ret (None, Some ErrInvalidWorker)
  else
    let* first := read (fun st => GetReleaseJob st jobID) in
    match first with
    | Err e => saga_ret (None, Some (ErrStore e))
    | Ok job =>
        if negb (ID_Valid (Job_ProjectID job)) then saga_ret (None, Some ErrInvalidWorker)
        else
        let* again := read (fun st => GetReleaseJob st jobID) in
        match again with
        | Err e => saga_ret (None, Some (ErrStore e))
        | Ok current =>
            if negb (bool_decide (Job_Status current = Queued)) then
              saga_ret (None, Some (if JobStatus_Valid (Job_Status current) &&
                                       negb (JobStatus_CanTransitionTo (Job_Status current) Running)
                                    then ErrJobTerminal else ErrJobOwned))
            else
            let* claim := transition_job jobID Queued Running None in
            match claim with
            | Err e => saga_ret (None, Some (ErrStore e))
            | Ok (Some claimed, true) =>
                let* outcome := run claimed in
                match outcome with
                | Err e =>
                    let* r := transition_job jobID Running Failed None in
                    saga_ret match r with
                             | Err e' => (None, Some (ErrStore e'))
                             | Ok (completed, _) => (completed, Some (ErrRun e))
                             end
                | Ok res =>
                    let* r := transition_job jobID Running Succeeded (Some res) in
                    saga_ret match r with
                             | Err e => (None, Some (ErrStore e))
                             | Ok (completed, true) => (completed, None)
                             | Ok (completed, false) => (completed, Some ErrJobOwned)
                             end
                end
            | Ok _ => saga_ret (None, Some ErrJobOwned)
            end
        end
    end.

Inductive CancellationBoundary := BeforeMandatoryBackup | BeforeExternalAccept | ExternalAccepted | BoundaryUnknown (s : string).

(** The store implements [CancellationIntentRepository]. *)
Definition Worker_Cancel (jobID : ID) (boundary : CancellationBoundary) :
    Saga G (result (option ReleaseJob * bool) WorkerError) :=
  if negb (ID_Valid jobID) then saga_ret (Err ErrCancelBoundary)
  else
    let* r := read (fun st => GetReleaseJob st jobID) in
    match r with
    | Err e => saga_ret (Err (ErrStore e))
    | Ok job =>
        if negb (bool_decide (Job_Status job = Queued)) && negb (bool_decide (Job_Status job = Running))
        then saga_ret (Ok (Some job, false))
        else
          let next := match boundary with
                      | BeforeMandatoryBackup | BeforeExternalAccept => Some Canceled
                      | ExternalAccepted => Some Interrupted
                      | BoundaryUnknown _ => None
                      end in
          match next with
          | None => saga_ret (Err ErrCancelBoundary)
          | Some next =>
              let* requested := write (fun st now _ => RequestReleaseCancellation st now jobID) in
              match requested with
              | Err e => saga_ret (Err (ErrStore e))
              | Ok (job, _) =>
                  let* t := transition_job jobID (Job_Status job) next None in
                  saga_ret match t with Ok x => Ok x | Err e => Err (ErrStore e) end
              end
          end
    end.

(** [Worker.Recover]: an abandoned running job becomes interrupted. *)
Definition Worker_Recover (jobID : ID) : Saga G (result (option ReleaseJob * bool) WorkerError) :=
  if negb (ID_Valid jobID) then saga_ret (Err ErrJobTerminal)
  else
    let* r := read (fun st => GetReleaseJob st jobID) in
    match r with
    | Err e => saga_ret (Err (ErrStore e))
    | Ok job =>
        if negb (bool_decide (Job_Status job = Running)) then saga_ret (Ok (Some job, false))
        else
          let* t := transition_job jobID Running Interrupted None in
          saga_ret match t with Ok x => Ok x | Err e => Err (ErrStore e) end
    end.

(** [CloseGuard.Preflight] *)
Definition CloseGuard_Preflight : Saga G (result unit WorkerError) :=
  let* active := read HasActiveReleaseJob in
  saga_ret (if active then Err ErrCloseBlocked else Ok tt).
End operations.
