(* ===== verification/ReleaseRecovery.v ===== *)
(** * internal/versioning/release/recovery.go: reconciliation of unfinished releases

    [IntentRecovery] runs when a project is opened.  It reads the intent, its job,
    the active pointer and the Graph's snapshot, and either completes the release
    through the same commit as the live worker or records a failure. *)
From S2P Require Import Prelude GoSort GoStrings GoCrypto Domain Job JobStore ReleaseTypes ReleaseStore ReleaseSaga.
Open Scope Z_scope.

Inductive RecoveryOutcome := RecoveryCompleted | RecoveryContinued | RecoveryFailed | RecoveryRequiresSupport.
#[global] Instance RecoveryOutcome_eq_dec : EqDecision RecoveryOutcome.
Proof. solve_decision. Defined.

(** [Err] is the error's text. *)
Record RecoveryResult := mkRecovery { Recovery_IntentID : ID; Outcome : RecoveryOutcome; Recovery_Err : option string }.

Definition ErrRecoveryRequired : string := "release intent requires recovery".
(** [fmt.Errorf("%w: ...", ErrRecoveryRequired)] *)
Definition recovery_error (text : string) : string := (ErrRecoveryRequired +:+ ": " +:+ text)%string.

Definition phase_text (p : IntentPhase) : string :=
  match p with
  | IntentQueued => "QUEUED" | IntentRechecked => "RECHECKED" | IntentBackupSucceeded => "BACKUP_SUCCEEDED"
  | IntentRecorded => "INTENT_RECORDED" | IntentGraphActivating => "GRAPH_ACTIVATING"
  | IntentGraphActivated => "GRAPH_ACTIVATED" | IntentPointerCommitting => "POINTER_COMMITTING"
  | IntentSucceeded => "SUCCEEDED" | IntentFailed => "FAILED" | IntentUnknown s => s
  end%string.

Definition release_result (releaseID : ID) : JobResult :=
  Job.mkResult "release" releaseID ("/api/v1/releases/" +:+ releaseID)%string.

(** The zero [Job] that accompanies an error. *)
Definition zero_job : ReleaseJob := mkJob "" "" "" "" "" (StatusUnknown "") "" None 0 None 0 0.

Section recovery.
Context {G : Type} `{GraphGate G, Runtime, UuidLib}.

Definition support (intent : Intent) (text : string) : RecoveryResult :=
  mkRecovery (Intent_ID intent) RecoveryRequiresSupport (Some (recovery_error text)).

(** [completeJob] *)
Definition completeJob (job : ReleaseJob) (release : Release) : Saga G (option string) :=
  if bool_decide (Job_Status job = Succeeded) &&
     bool_decide (Job.Result_ID <$> Job_Result job = Some (Release_ID release))
  then saga_ret None
  else
    let* r := transition_job (Job_ID job) (Job_Status job) Succeeded (Some (release_result (Release_ID release))) in
    saga_ret match r with
             | Ok (_, true) => None
             | _ => Some (recovery_error "release Job could not be completed")
             end.

Definition restore_request (intent : Intent) (job : ReleaseJob) : GraphRestoreRequest :=
  mkRestore (Job_ProjectID job) (PreviousGraphIdentity intent) (PreviousReleaseID intent) (Intent_ID intent).

(** [restoreRequest.Valid() && r.Graph.Restore(...) == nil] *)
Definition restore_graph (request : GraphRestoreRequest) : Saga G bool :=
  if negb (GraphRestoreRequest_Valid request) then saga_ret false
  else let* r := call (Graph_Restore request) in saga_ret (is_ok r).

(** [fail] *)
Definition fail (intent : Intent) (job : ReleaseJob) (restore : bool) (text : string) : Saga G RecoveryResult :=
  let reason := recovery_error text in
  let* restored := (if restore then restore_graph (restore_request intent job) else saga_ret true) in
  let details := (if restored then reason else reason +:+ "; previous Graph snapshot restoration required")%string in
  let outcome := if restored then RecoveryFailed else RecoveryRequiresSupport in
  let* t := transition_intent (Intent_ID intent) (Intent_Phase intent) IntentFailed (ExternalTaskID intent) details in
  match t with
  | Ok (_, true) =>
      if bool_decide (Job_Status job = Queued) || bool_decide (Job_Status job = Running) ||
         bool_decide (Job_Status job = Interrupted)
      then
        let* j := transition_job (Job_ID job) (Job_Status job) Failed None in
        saga_ret match j with
                 | Ok (_, true) => mkRecovery (Intent_ID intent) outcome (Some reason)
                 | _ => support intent "failed Job could not be persisted"
                 end
      else saga_ret (mkRecovery (Intent_ID intent) outcome (Some reason))
  | _ => saga_ret (mkRecovery (Intent_ID intent) RecoveryRequiresSupport (Some (recovery_error details)))
  end.
Definition fail_with {A : Type} (intent : Intent) (job : ReleaseJob) (restore : bool) (text : string) :
    Saga G (result A RecoveryResult) :=
  let* r := fail intent job restore text in saga_ret (Err r).

(** One durable phase transition, or the given diagnosis. *)
Definition advance (intent : Intent) (from to : IntentPhase) (text : string) : Saga G (result Intent RecoveryResult) :=
  let* t := transition_intent (Intent_ID intent) from to (ExternalTaskID intent) "" in
  saga_ret match t with Ok (Some advanced, true) => Ok advanced | _ => Err (support intent text) end.

(** The active release is this intent's: only the phase and the job may lag. *)
Definition settle (intent : Intent) (job : ReleaseJob) (active : Release) : Saga G RecoveryResult :=
  let* finalized :=
    (if bool_decide (Intent_Phase intent = IntentSucceeded) then saga_ret true
     else
       let* t := transition_intent (Intent_ID intent) (Intent_Phase intent) IntentSucceeded (ExternalTaskID intent) "" in
       saga_ret match t with Ok (_, true) => true | _ => false end) in
  if negb finalized then saga_ret (support intent "existing release intent could not be finalized")
  else
    let* e := completeJob job active in
    saga_ret (mkRecovery (Intent_ID intent) match e with None => RecoveryCompleted | Some _ => RecoveryRequiresSupport end e).

Definition settle_active (intent : Intent) (job : ReleaseJob) (pointer : ActivePointer) :
    Saga G (result unit RecoveryResult) :=
  if negb (ID_Valid (Pointer_ReleaseID pointer)) then saga_ret (Ok tt)
  else
    let* active_r := read (fun st => GetRelease st (Pointer_ReleaseID pointer)) in
    match active_r with
    | Err _ => fail_with intent job false "active release cannot be read"
    | Ok active =>
        if bool_decide (Release_IntentID active = Intent_ID intent)
        then let* r := settle intent job active in saga_ret (Err r)
        else saga_ret (Ok tt)
    end.

(** The [switch] on the phase. *)
Definition claim (intent : Intent) (job : ReleaseJob) (matches : bool) : Saga G (result Intent RecoveryResult) :=
  match Intent_Phase intent with
  | IntentRecorded => advance intent IntentRecorded IntentGraphActivating "could not claim Graph activation"
  | IntentGraphActivating => saga_ret (Ok intent)
  | IntentGraphActivated | IntentPointerCommitting =>
      if negb matches then fail_with intent job false "Graph is not the candidate snapshot" else saga_ret (Ok intent)
  | p => fail_with intent job matches ("phase " +:+ phase_text p +:+ " cannot be replayed")%string
  end.

Definition activate (intent : Intent) (job : ReleaseJob) (graphRead : GraphReadRequest) (matches : bool) :
    Saga G (result Intent RecoveryResult) :=
  if negb (bool_decide (Intent_Phase intent = IntentGraphActivating)) then saga_ret (Ok intent)
  else
    let*? _ :=
      (if matches then saga_ret (Ok tt)
       else
         let* activation := ActivateGraph job intent in
         match activation with
         | Ok _ => saga_ret (Ok tt)
         | Err _ =>
             let* observed := call (ActiveSnapshot graphRead) in
             match observed with
             | Ok s => if MatchesRead s graphRead then saga_ret (Ok tt)
                       else fail_with intent job false "Graph activation could not be verified"
             | Err _ => fail_with intent job false "Graph activation could not be verified"
             end
         end) in
    advance intent IntentGraphActivating IntentGraphActivated "Graph activation phase could not be persisted".

Definition claim_commit (intent : Intent) : Saga G (result Intent RecoveryResult) :=
  if negb (bool_decide (Intent_Phase intent = IntentGraphActivated)) then saga_ret (Ok intent)
  else advance intent IntentGraphActivated IntentPointerCommitting "pointer commit could not be claimed".

Definition publish (intent : Intent) (job : ReleaseJob) (pointer : ActivePointer) : Saga G RecoveryResult :=
  let* committed_r := commit_intent (Intent_ID intent) (Generation pointer) in
  match committed_r with
  | Err _ => fail intent job true "release/pointer commit conflict"
  | Ok (release, _) =>
      let* e := completeJob job release in
      saga_ret (mkRecovery (Intent_ID intent) match e with None => RecoveryContinued | Some _ => RecoveryRequiresSupport end e)
  end.

Definition merge {A : Type} (r : result A A) : A := match r with Ok a => a | Err a => a end.

(** The Graph half of [reconcile], after the pointer was read. *)
Definition replay (intent : Intent) (job : ReleaseJob) (pointer : ActivePointer) : Saga G (result RecoveryResult RecoveryResult) :=
  let graphRead := mkRead (Job_ProjectID job) (Intent_CandidateRevisionID intent) (Job_InputHash job) in
  let* snapshot_r := call (ActiveSnapshot graphRead) in
  match snapshot_r with
  | Err _ => fail_with intent job false "Graph active snapshot cannot be verified"
  | Ok snapshot =>
      let matches := MatchesRead snapshot graphRead in
      if negb (bool_decide (Pointer_ReleaseID pointer = Intent_BaselineReleaseID intent))
      then fail_with intent job matches "active baseline changed"
      else
        let*? intent := claim intent job matches in
        let*? intent := activate intent job graphRead matches in
        let*? intent := claim_commit intent in
        let* r := publish intent job pointer in saga_ret (Ok r)
  end.

(** [reconcile] *)
Definition reconcile (intent : Intent) : Saga G RecoveryResult :=
  let* job_r := read (fun st => GetReleaseJob st (Intent_JobID intent)) in
  let job := match job_r with Ok j => j | Err _ => zero_job end in
  if negb (is_ok job_r) || negb (Job_Valid job) || negb (intent_matches_job job intent)
  then fail intent job false "intent/job identity cannot be verified"
  else
    let* pointer_r := read GetActivePointer in
    match pointer_r with
    | Err _ => fail intent job false "active pointer cannot be read"
    | Ok pointer =>
        let* r := (let*? _ := settle_active intent job pointer in replay intent job pointer) in
        saga_ret (merge r)
    end.

Fixpoint reconcile_all (intents : list Intent) : Saga G (list RecoveryResult) :=
  match intents with
  | [] => saga_ret []
  | intent :: rest =>
      let* r := reconcile intent in
      let* rs := reconcile_all rest in saga_ret (r :: rs)
  end.

(** [Recover] *)
Definition Recover `{TimeText} : Saga G (result (list RecoveryResult) ReleaseError) :=
  let* intents := read ListNonterminalReleaseIntents in
  match intents with
  | Err e => saga_ret (Err e)
  | Ok l => let* rs := reconcile_all l in saga_ret (Ok rs)
  end.
End recovery.
