(* ===== verification/ReleaseRecoveryFacts.v ===== *)
(** * What recovery does to a release: safety of its verdicts and liveness

    Weakest preconditions of the saga monad over the invariant of the release
    store, then the branches of [reconcile]. *)
From S2P Require Import Prelude GoSort GoStrings GoCrypto Domain Job.
From S2P Require Import JobStore ReleaseTypes ReleaseStore ReleaseHistory ReleaseSaga ReleaseRecovery.
Open Scope Z_scope.

(** ** Weakest preconditions *)
Definition wp {G A : Type} (m : Saga G A) (w : World G) (Q : A -> World G -> Prop) : Prop := Q (m w).1 (m w).2.

Lemma wp_ret {G A : Type} (a : A) (w : World G) Q : Q a w -> wp (saga_ret a) w Q.
Proof. done. Qed.
Lemma wp_bind {G A B : Type} (m : Saga G A) (f : A -> Saga G B) w Q :
  wp m w (fun a w' => wp (f a) w' Q) -> wp (saga_bind m f) w Q.
Proof. unfold wp, saga_bind. by destruct (m w). Qed.
Lemma wp_try {G A B E : Type} (m : Saga G (result A E)) (f : A -> Saga G (result B E)) w Q :
  wp m w (fun r w' => match r with Ok a => wp (f a) w' Q | Err e => Q (Err e) w' end) -> wp (saga_try m f) w Q.
Proof. intros Hm. apply wp_bind. unfold wp in *. by destruct (m w) as [[a|e] w']. Qed.
Lemma wp_mono {G A : Type} (m : Saga G A) w (Q Q' : A -> World G -> Prop) :
  wp m w Q -> (forall a w', Q a w' -> Q' a w') -> wp m w Q'.
Proof. unfold wp. auto. Qed.

(** A runtime whose clock does not go back and whose identifiers are valid. *)
Class RuntimeLaws `{Runtime, UuidLib} : Prop := {
  clock_monotone n : clock n <= clock (S n);
  newID_valid n id : newID n = Some id -> ID_Valid id = true
}.

(** The release view of a shared record. *)
Definition job_view (r : JobRecord) : ReleaseJob :=
  let request := Record_Request r in
  mkJob (Record_ID r) (ProjectID request) (RevisionID request) (Job.InputHash request) (IdempotencyKey request)
    (Record_Status r) (RequestHash request) (Record_Result r) (CancelGeneration r) (CancelRequestedAt r)
    (CreatedAt r) (UpdatedAt r).

Definition release_record `{UuidLib} (r : JobRecord) : Prop :=
  Kind (Record_Request r) = SharedJobKind /\ ID_Valid (RevisionID (Record_Request r)) = true.

Lemma JobFromSharedRecord_view `{UuidLib} r :
  Job.Record_Valid r = true -> release_record r -> JobFromSharedRecord r = Ok (job_view r).
Proof.
  intros Hv [Hk Hid]. assert (r = shared_of (job_view r)) as Hr.
  { destruct r as [? [] ? ? ? ? ? ?]. cbn in *. by subst. }
  rewrite Hr at 1. apply JobFromSharedRecord_shared. rewrite Job_Valid_shared, <- Hr, Hv. done.
Qed.

Lemma JobFromSharedRecord_release `{UuidLib} r j :
  JobFromSharedRecord r = Ok j -> release_record r /\ j = job_view r /\ Job.Record_Valid r = true /\ Job_Valid j = true.
Proof.
  intros Hj. pose proof (JobFromSharedRecord_inv _ _ Hj) as (-> & Hv & Hid).
  rewrite Job_Valid_shared, Hv, Hid. destruct j. by split_and!.
Qed.

Section facts.
Context {G : Type} `{GraphGate G, RuntimeLaws, !UuidLaws}.

(** The invariant of a world: the store is well formed at a past instant. *)
Definition world_ok (w : World G) : Prop :=
  exists t, release_store_ok t (store w) /\ t <= clock (ticks w).

Lemma world_ok_now w : world_ok w -> release_store_ok (clock (ticks w)) (store w).
Proof. intros (t & Hok & Ht). by eapply release_store_ok_mono. Qed.

Lemma world_ok_step w st :
  release_step (clock (ticks w)) (store w) st -> world_ok w -> world_ok (with_store w st).
Proof.
  intros Hs Hok. exists (clock (ticks w)). simpl. split; [|apply clock_monotone].
  eapply release_step_ok; [by apply world_ok_now|done|done].
Qed.

Lemma world_ok_same w : world_ok w -> world_ok (with_store w (store w)).
Proof. intros (t & Hok & Ht). exists t. split; [done|]. simpl. pose proof (clock_monotone (ticks w)). lia. Qed.

Lemma world_ok_graph w g : world_ok w -> world_ok (mkWorld (store w) g (ticks w)).
Proof. done. Qed.

Definition set_phase (w : World G) (i : Intent) (next : IntentPhase) (external details : string) : World G :=
  with_store w (set_intents (store w)
    (<[Intent_ID i := with_phase i next external details (clock (ticks w))]> (intents (store w)))).

Lemma intent_row w iid i : world_ok w -> intents (store w) !! iid = Some i ->
  Intent_ID i = iid /\ Intent_Valid i = true /\ ID_Valid iid = true /\ IntentPhase_Valid (Intent_Phase i) = true.
Proof.
  intros (t & (_ & Hint & _) & _) Hi. destruct (Hint _ _ Hi) as (Hid & Hs & _).
  apply scanReleaseIntent_Ok in Hs as (_ & Hv & _). pose proof Hv as Hv'. unfold Intent_Valid in Hv'. bool_to_prop.
  subst. by split_and!.
Qed.

(** A durable transition of the current row succeeds. *)
Lemma wp_transition_intent w i next external details Q :
  world_ok w -> intents (store w) !! Intent_ID i = Some i -> IntentPhase_Valid next = true ->
  (let i' := with_phase i next external details (clock (ticks w)) in
   let w' := set_phase w i next external details in
   world_ok w' -> intents (store w') !! Intent_ID i = Some i' -> Q (Ok (Some i', true)) w') ->
  wp (transition_intent (Intent_ID i) (Intent_Phase i) next external details) w Q.
Proof.
  intros Hok Hi Hnext HQ. destruct (intent_row _ _ _ Hok Hi) as (_ & _ & Hid & Hph).
  unfold wp, transition_intent, write.
  pose proof (step_transition_intent (clock (ticks w)) (store w) (Intent_ID i) (Intent_Phase i) next external details) as Hs.
  destruct (TransitionIntent _ _ _ _ _ _ _) as [r st] eqn:Ht. simpl in *.
  unfold TransitionIntent in Ht. rewrite Hid, Hph, Hnext in Ht. simpl in Ht. rewrite Hi, decide_True in Ht by done.
  injection Ht as <- <-. apply (world_ok_step w) in Hs; [|done].
  unfold GetIntent. rewrite Hid. simpl. rewrite lookup_insert_eq.
  assert (intents (store (set_phase w i next external details)) !! Intent_ID i =
          Some (with_phase i next external details (clock (ticks w)))) as Hi' by apply lookup_insert_eq.
  destruct Hs as (t & Hst & Htick). destruct Hst as (Hst & Hint & Hrest).
  destruct (Hint _ _ Hi') as (_ & Hscan & _). rewrite Hscan. apply HQ; [|done].
  exists t. by split.
Qed.

(** *** Jobs *)
Definition set_job (w : World G) (id : ID) (r : JobRecord) : World G :=
  with_store w (set_shared (store w) (set_jobs (shared (store w)) (<[id := r]> (jobs (shared (store w)))))).

Lemma job_row w id r : world_ok w -> jobs (shared (store w)) !! id = Some r ->
  Record_ID r = id /\ ID_Valid id = true /\ Job.Record_Valid r = true /\ GetJob (shared (store w)) id = Ok r.
Proof.
  intros (t & (Hst & _) & _) Hr. pose proof (store_ok_readable _ _ _ _ Hst Hr) as Hg.
  pose proof Hg as (Hid & _ & _ & Hv)%GetJob_Ok. split_and!; auto. destruct Hst as (_ & Hrows & _).
  by destruct (Hrows _ _ Hr).
Qed.

Lemma GetReleaseJob_row w id r : world_ok w -> jobs (shared (store w)) !! id = Some r -> release_record r ->
  GetReleaseJob (store w) id = Ok (job_view r).
Proof.
  intros Hok Hr Hrel. destruct (job_row _ _ _ Hok Hr) as (_ & Hid & Hv & Hg).
  unfold GetReleaseJob. rewrite Hid, Hg. simpl. by rewrite JobFromSharedRecord_view.
Qed.

Lemma GetReleaseJob_inv st id j : GetReleaseJob st id = Ok j ->
  exists r, jobs (shared st) !! id = Some r /\ release_record r /\ j = job_view r /\ Job_Valid j = true.
Proof.
  unfold GetReleaseJob. case_guard; [done|]. destruct (GetJob _ _) as [r|[]] eqn:Hg; try done.
  apply GetJob_Ok in Hg as (_ & Hr & _ & _). destruct (JobFromSharedRecord r) eqn:Hj; [|done]. intros [= <-].
  apply JobFromSharedRecord_release in Hj as (? & -> & _ & ?). by exists r.
Qed.

(** The compare-and-swap of a job from its current row. *)
Lemma Transition_current st now id r next res :
  ID_Valid id = true -> row_of st id = Some r -> Job.Record_Valid r = true -> status_step (Record_Status r) next ->
  option_forallb Job.Result_Valid res = true -> (next = Succeeded -> res <> None) ->
  Transition st now id (Record_Status r) next res (CancelGeneration r) =
    if bool_decide (next = Succeeded) && negb (CancelGeneration r =? 0) then (Err ErrJobTransition, st)
    else let st' := set_jobs st (<[id := with_status r next res now]> (jobs st)) in
         (match GetJob st' id with Ok record => Ok (Some record, true) | Err e => Err e end, st').
Proof.
  intros Hid Hrow Hv Hstep Hres Hsr. pose proof (status_step_valid _ _ Hstep) as [Hs1 Hs2].
  unfold Transition. rewrite Hid, Hs1, Hs2, Hres. apply Record_Valid_iff in Hv.
  replace (CancelGeneration r <? 0) with false by (symmetry; apply Z.ltb_ge; lia).
  replace (bool_decide (next = Succeeded) && bool_decide (res = None)) with false.
  2:{ destruct (decide (next = Succeeded)) as [E|E]; [|by rewrite bool_decide_false].
      rewrite (bool_decide_false (res = None)) by auto. by rewrite andb_false_r. }
  simpl. rewrite decide_False by (intros E; apply status_step_rank in Hstep; rewrite E in Hstep; lia).
  rewrite Hstep. simpl. destruct (bool_decide (next = Succeeded) && _); [done|].
  rewrite Hrow, decide_True by done. by destruct (GetJob _ id).
Qed.

Lemma release_status_step s next : JobStatus_CanTransitionTo s next = true -> status_step s next.
Proof.
  unfold status_step, JobStatus_CanTransitionTo. destruct s; try done. simpl.
  intros [Hc|Hc]%orb_prop; rewrite Hc; by rewrite ?orb_true_r.
Qed.

(** A transition from the current status is made, or refused without a trace. *)
Lemma wp_transition_job w id r next res Q :
  world_ok w -> jobs (shared (store w)) !! id = Some r -> release_record r ->
  ((next = Succeeded -> res <> None /\ CancelGeneration r = 0) ->
   let r' := with_status r next res (clock (ticks w)) in
   world_ok (set_job w id r') -> Q (Ok (Some (job_view r'), true)) (set_job w id r')) ->
  ((JobStatus_CanTransitionTo (Record_Status r) next = true -> option_forallb JobResult_Valid res = true ->
    next = Succeeded /\ (res = None \/ CancelGeneration r <> 0)) ->
   forall e, Q (Err e) (with_store w (store w))) ->
  wp (transition_job id (Record_Status r) next res) w Q.
Proof.
  intros Hok Hr Hrel Hyes Hno. destruct (job_row _ _ _ Hok Hr) as (Hrid & Hid & Hv & Hg).
  unfold wp, transition_job, write, TransitionReleaseJob.
  destruct (JobStatus_CanTransitionTo (Record_Status r) next) eqn:Hcan;
    [|rewrite orb_true_r, !orb_true_l; simpl; by apply Hno].
  destruct (option_forallb JobResult_Valid res) eqn:Hres; [|rewrite !orb_true_r; simpl; by apply Hno].
  pose proof (release_status_step _ _ Hcan) as Hstep.
  pose proof (status_step_valid _ _ Hstep) as [Hs1 Hs2]. unfold JobStatus_Valid. rewrite Hid, Hs1, Hs2. simpl.
  destruct (bool_decide (next = Succeeded) && bool_decide (res = None)) eqn:Hsr; simpl.
  { apply Hno. bool_to_prop. intros _ _. auto. }
  rewrite Hg, (bool_decide_true (Kind _ = _)) by apply Hrel. simpl.
  assert (row_of (shared (store w)) id = Some r) as Hrow.
  { apply row_of_Some. by apply GetJob_Ok in Hg as (_ & _ & Hp & _). }
  assert (next = Succeeded -> res <> None) as Hsr'.
  { intros -> ->. by rewrite !bool_decide_true in Hsr. }
  pose proof (JobStore.step_transition (clock (ticks w)) (shared (store w)) id (Record_Status r) next res (CancelGeneration r)) as Hs.
  apply step_shared, (world_ok_step w) in Hs; [|done].
  rewrite (Transition_current _ _ _ _ _ _ Hid Hrow Hv Hstep Hres Hsr') in *.
  destruct (bool_decide (next = Succeeded) && negb (CancelGeneration r =? 0)) eqn:Hgen; simpl in *.
  { rewrite set_shared_same in *. apply Hno. bool_to_prop. auto. }
  fold (set_job w id (with_status r next res (clock (ticks w)))) in *.
  assert (jobs (shared (store (set_job w id (with_status r next res (clock (ticks w)))))) !! id =
          Some (with_status r next res (clock (ticks w)))) as Hr' by apply lookup_insert_eq.
  destruct (job_row _ _ _ Hs Hr') as (_ & _ & Hv' & Hg'). simpl in Hg'. rewrite Hg'. simpl.
  rewrite JobFromSharedRecord_view by done. apply Hyes; [|done].
  intros Hn. split; [by apply Hsr'|]. rewrite (bool_decide_true (next = _)) in Hgen by done. simpl in Hgen.
  by bool_to_prop.
Qed.

(** *** Publication *)
Definition published (st : ReleaseStore) (iid jobID : ID) : Prop :=
  let rid := Pointer_ReleaseID (pointer st) in
  exists row i r, releases st !! rid = Some row /\ Release_IntentID (Row_Release row) = iid /\
    intents st !! iid = Some i /\ Intent_Phase i = IntentSucceeded /\
    jobs (shared st) !! jobID = Some r /\ Record_Status r = Succeeded /\ Job.Result_ID <$> Record_Result r = Some rid.

Lemma release_result_valid id : ID_Valid id = true -> JobResult_Valid (release_result id) = true.
Proof.
  intros Hid. unfold JobResult_Valid, release_result. simpl. rewrite Hid.
  by rewrite bool_decide_true by (by apply TrimSpace_nonblank).
Qed.

(** *** The branches of [reconcile] *)
Lemma wp_call {A : Type} (f : G -> A * G) w Q :
  (forall a g, f (graph w) = (a, g) -> Q a (mkWorld (store w) g (ticks w))) -> wp (call f) w Q.
Proof. unfold wp, call. intros HQ. destruct (f (graph w)) as [a g] eqn:Hf. simpl. by apply HQ. Qed.

(** What recovery holds as the intent's job: its row, or the zero job. *)
Definition job_known (st : ReleaseStore) (jobID : ID) (job : ReleaseJob) : Prop :=
  (exists r, jobs (shared st) !! jobID = Some r /\ release_record r /\ job = job_view r) \/
  (job = zero_job /\ forall j, GetReleaseJob st jobID <> Ok j).

(** The result of a failed attempt: the published state is as before, and a
    verdict of failure is durable. *)
Definition failure (intent : Intent) (st : ReleaseStore) (r : RecoveryResult) (w' : World G) : Prop :=
  world_ok w' /\ Recovery_IntentID r = Intent_ID intent /\ Recovery_Err r <> None /\
  releases (store w') = releases st /\ pointer (store w') = pointer st /\
  (Outcome r = RecoveryRequiresSupport \/
   Outcome r = RecoveryFailed /\
   (exists i, intents (store w') !! Intent_ID intent = Some i /\ Intent_Phase i = IntentFailed) /\
   forall j, GetReleaseJob (store w') (Intent_JobID intent) = Ok j -> Terminal (Job_Status j) = true).

Lemma wp_restore restore intent job w Q :
  (forall b g, Q b (mkWorld (store w) g (ticks w))) ->
  wp (if restore : bool then restore_graph (restore_request intent job) else saga_ret true) w Q.
Proof.
  intros HQ. assert (forall b, Q b w) as Hret by (intros b; specialize (HQ b (graph w)); by destruct w).
  destruct restore; [|by apply wp_ret]. unfold restore_graph. case_guard; [by apply wp_ret|].
  apply wp_bind, wp_call. intros a g _. by apply wp_ret.
Qed.

Lemma wp_fail intent job restore text w :
  world_ok w -> intents (store w) !! Intent_ID intent = Some intent -> job_known (store w) (Intent_JobID intent) job ->
  wp (fail intent job restore text) w (failure intent (store w)).
Proof.
  intros Hok Hi Hjob. unfold fail. apply wp_bind, wp_restore. intros restored g.
  set (w1 := mkWorld (store w) g (ticks w)). assert (world_ok w1) as Hok1 by apply Hok.
  apply wp_bind, wp_transition_intent; [done|done|done|]. intros i' w2 Hok2 Hi2.
  assert (releases (store w2) = releases (store w)) as Hrel by done.
  assert (pointer (store w2) = pointer (store w)) as Hptr by done.
  assert (shared (store w2) = shared (store w)) as Hsh by done. clearbody w2.
  destruct Hjob as [(r & Hr & Hrr & ->)|[-> Hnone]].
  - change (Job_Status (job_view r)) with (Record_Status r). rewrite <- Hsh in Hr.
    destruct (job_row _ _ _ Hok2 Hr) as (Hrid & _). change (Job_ID (job_view r)) with (Record_ID r). rewrite Hrid.
    destruct (_ || _ || _) eqn:Hst.
    + apply wp_bind, wp_transition_job; [done|done|done| |].
      * intros _ r' Hok3. apply wp_ret. split_and!; simpl; auto; try done.
        assert (jobs (shared (store (set_job w2 (Intent_JobID intent) r'))) !! Intent_JobID intent = Some r') as Hr3
          by apply lookup_insert_eq.
        destruct restored; [right|by left]. split_and!; [done|by exists i'|].
        intros j Hj. pose proof (GetReleaseJob_row _ _ _ Hok3 Hr3 Hrr) as Hg.
        assert (Ok (job_view r') = Ok j) as [= <-] by (rewrite <- Hj; symmetry; exact Hg). done.
      * intros Hno e. apply wp_ret. split_and!; simpl; auto; try done. by apply world_ok_same.
    + apply wp_ret. split_and!; simpl; auto; try done. destruct restored; [right|by left].
      split_and!; [done|by exists i'|]. intros j. rewrite (GetReleaseJob_row _ _ _ Hok2 Hr) by done. intros [= <-].
      simpl. destruct (job_row _ _ _ Hok2 Hr) as (_ & _ & Hv & _). apply Record_Valid_iff in Hv as (_ & _ & Hsv & _).
      by destruct (Record_Status r).
  - apply wp_ret. split_and!; simpl; auto; try done. destruct restored; [right|by left].
    split_and!; [done|by exists i'|]. intros j Hj. destruct (Hnone j). unfold GetReleaseJob in *. by rewrite <- Hsh.
Qed.

(** An intent on its way: its current row, the rest of the store as in [st]. *)
Definition on_the_way (intent : Intent) (st : ReleaseStore) (i : Intent) (w : World G) : Prop :=
  world_ok w /\ intents (store w) !! Intent_ID intent = Some i /\
  Intent_ID i = Intent_ID intent /\ same_identity intent i /\ Intent_RequestHash i = Intent_RequestHash intent /\
  shared (store w) = shared st /\ policies (store w) = policies st /\
  releases (store w) = releases st /\ pointer (store w) = pointer st.

Lemma on_the_way_start intent w :
  world_ok w -> intents (store w) !! Intent_ID intent = Some intent -> on_the_way intent (store w) intent w.
Proof. intros Hok Hi. unfold on_the_way. by split_and!. Qed.

Lemma on_the_way_graph intent st i w g :
  on_the_way intent st i w -> on_the_way intent st i (mkWorld (store w) g (ticks w)).
Proof. done. Qed.

Lemma wp_advance intent st i w to text Q :
  on_the_way intent st i w -> IntentPhase_Valid to = true ->
  (forall i' w', on_the_way intent st i' w' -> Intent_Phase i' = to -> graph w' = graph w -> Q (Ok i') w') ->
  wp (advance i (Intent_Phase i) to text) w Q.
Proof.
  intros (Hok & Hi & Hid & Hsame & Hh & Hsh & Hpol & Hrel & Hptr) Hto HQ. unfold advance.
  rewrite <- Hid in Hi.
  apply wp_bind, wp_transition_intent; [done..|]. intros i' w' Hok' Hi'. apply wp_ret, HQ; [|done|done].
  destruct Hsame as [Hj Hrow]. unfold on_the_way, same_identity. rewrite <- Hid. by split_and!.
Qed.

(** A failure seen from where the attempt began. *)
Lemma wp_fail_on_the_way intent st i w job restore text :
  on_the_way intent st i w -> job_known st (Intent_JobID intent) job ->
  wp (fail i job restore text) w (failure intent st).
Proof.
  intros (Hok & Hi & Hid & [Hj _] & _ & Hsh & _ & Hrel & Hptr) Hjob.
  eapply wp_mono; [apply wp_fail; [done|by rewrite Hid|]|].
  - rewrite Hj. unfold job_known, GetReleaseJob in *. by rewrite Hsh.
  - intros r w' (? & ? & ? & Hr & Hp & Hout). unfold failure. rewrite Hid, Hj, Hrel, Hptr in *. by split_and!.
Qed.

Lemma wp_fail_with {A : Type} intent st i w job restore text (Q : result A RecoveryResult -> World G -> Prop) :
  on_the_way intent st i w -> job_known st (Intent_JobID intent) job ->
  (forall r w', failure intent st r w' -> Q (Err r) w') ->
  wp (fail_with i job restore text) w Q.
Proof.
  intros Hway Hjob HQ. apply wp_bind. eapply wp_mono; [by eapply wp_fail_on_the_way|]. intros r w' Hf. by apply wp_ret, HQ.
Qed.

Definition replayable (p : IntentPhase) (matches : bool) : bool :=
  match p with
  | IntentRecorded | IntentGraphActivating => true
  | IntentGraphActivated | IntentPointerCommitting => matches
  | _ => false
  end.

Lemma wp_claim intent st i w job matches Q :
  on_the_way intent st i w -> job_known st (Intent_JobID intent) job ->
  (forall i' w', on_the_way intent st i' w' -> graph w' = graph w -> replayable (Intent_Phase i) matches = true ->
     Intent_Phase i' = IntentGraphActivating \/
     (matches = true /\ (Intent_Phase i' = IntentGraphActivated \/ Intent_Phase i' = IntentPointerCommitting)) ->
     Q (Ok i') w') ->
  (replayable (Intent_Phase i) matches = false -> forall r w', failure intent st r w' -> Q (Err r) w') ->
  wp (claim i job matches) w Q.
Proof.
  intros Hway Hjob HQ Hfail. unfold claim. destruct (Intent_Phase i) eqn:Hp; simpl in Hfail;
    try (eapply wp_fail_with; by eauto).
  - rewrite <- Hp. eapply wp_advance; [done|done|]. intros i' w' Hw' Hi' Hg. apply HQ; auto.
  - apply wp_ret, HQ; auto.
  - destruct matches; simpl; [|eapply wp_fail_with; by eauto]. apply wp_ret, HQ; auto.
  - destruct matches; simpl; [|eapply wp_fail_with; by eauto]. apply wp_ret, HQ; auto.
Qed.

(** The Graph accepts the activation, or has accepted it when asked again. *)
Definition graph_accepts (request : GraphActivationRequest) (graphRead : GraphReadRequest) (g : G) : Prop :=
  (exists evidence, (Activate request g).1 = Ok evidence /\ Evidence_Matches evidence request = true) \/
  (exists snapshot, (ActiveSnapshot graphRead (Activate request g).2).1 = Ok snapshot /\ MatchesRead snapshot graphRead = true).

Lemma wp_activate intent st i w job graphRead matches Q :
  on_the_way intent st i w -> job_known st (Intent_JobID intent) job -> Job_Valid job = true ->
  intent_matches_job job i = true ->
  (forall i' w', on_the_way intent st i' w' ->
     Intent_Phase i' = IntentGraphActivated \/ i' = i /\ Intent_Phase i <> IntentGraphActivating -> Q (Ok i') w') ->
  (matches = false -> ~ graph_accepts (activation_request job i) graphRead (graph w) ->
   forall r w', failure intent st r w' -> Q (Err r) w') ->
  wp (activate i job graphRead matches) w Q.
Proof.
  intros Hway Hjob Hvalid Hmatch HQ Hfail. unfold activate. case_guard as Hph; bool_to_prop.
  { apply wp_ret, HQ; auto. }
  assert (forall text g, wp (advance i IntentGraphActivating IntentGraphActivated text) (mkWorld (store w) g (ticks w)) Q)
    as Hadvance.
  { intros text g. rewrite <- Hph. eapply wp_advance; [by apply on_the_way_graph|done|]. intros i' w' Hw' Hi' _. auto. }
  apply wp_try. destruct matches.
  { apply wp_ret. specialize (Hadvance "Graph activation phase could not be persisted"%string (graph w)). by destruct w. }
  unfold ActivateGraph. rewrite Hvalid, Hmatch.
  assert (Intent_Valid i = true) as ->.
  { destruct Hway as (Hok & Hi & _). by destruct (intent_row _ _ _ Hok Hi) as (_ & ? & _). }
  simpl. apply wp_bind, wp_bind, wp_call. intros r g Hact.
  assert (r = (Activate (activation_request job i) (graph w)).1) as Hr by by rewrite Hact.
  assert (g = (Activate (activation_request job i) (graph w)).2) as Hg by by rewrite Hact.
  apply wp_ret. destruct (match r with Ok evidence => _ | Err e => _ end) as [evidence|e] eqn:Hev.
  { apply wp_ret, Hadvance. }
  assert (~ exists ev, r = Ok ev /\ Evidence_Matches ev (activation_request job i) = true) as Hno.
  { intros (ev & -> & Hm). by rewrite Hm in Hev. }
  apply wp_bind, wp_call. simpl. intros o g' Hobs.
  assert (o = (ActiveSnapshot graphRead g).1) as Ho by by rewrite Hobs.
  destruct o as [snapshot|].
  - destruct (MatchesRead snapshot graphRead) eqn:Hsm.
    + apply wp_ret, Hadvance.
    + eapply wp_fail_with; [by apply on_the_way_graph|done|]. intros v w' Hf. apply Hfail; [done| |done].
      intros [Hy|(s & Hs & Hm)]; [apply Hno; by rewrite Hr|]. rewrite <- Hg, <- Ho in Hs. congruence.
  - eapply wp_fail_with; [by apply on_the_way_graph|done|]. intros v w' Hf. apply Hfail; [done| |done].
    intros [Hy|(s & Hs & Hm)]; [apply Hno; by rewrite Hr|]. rewrite <- Hg, <- Ho in Hs. congruence.
Qed.

Lemma wp_claim_commit intent st i w Q :
  on_the_way intent st i w -> Intent_Phase i = IntentGraphActivated \/ Intent_Phase i = IntentPointerCommitting ->
  (forall i' w', on_the_way intent st i' w' -> Intent_Phase i' = IntentPointerCommitting -> Q (Ok i') w') ->
  wp (claim_commit i) w Q.
Proof.
  intros Hway Hph HQ. unfold claim_commit. case_guard as Hg; bool_to_prop.
  - apply wp_ret, HQ; [done|]. by destruct Hph.
  - rewrite <- Hg at 1. eapply wp_advance; [done|done|]. auto.
Qed.

(** *** Completing the job *)
Definition completable (r : JobRecord) : Prop :=
  (Record_Status r = Running \/ Record_Status r = Interrupted) /\ CancelGeneration r = 0.

(** Only the job table may differ. *)
Definition same_releases (w w' : World G) : Prop :=
  intents (store w') = intents (store w) /\ releases (store w') = releases (store w) /\ pointer (store w') = pointer (store w).

Lemma wp_completeJob jobID r release w (Q : option string -> World G -> Prop) :
  world_ok w -> jobs (shared (store w)) !! jobID = Some r -> release_record r -> ID_Valid (Release_ID release) = true ->
  (forall r' w', world_ok w' -> same_releases w w' -> jobs (shared (store w')) !! jobID = Some r' ->
     Record_Status r' = Succeeded -> Job.Result_ID <$> Record_Result r' = Some (Release_ID release) -> Q None w') ->
  (~ completable r -> forall e w', world_ok w' -> same_releases w w' -> Q (Some e) w') ->
  wp (completeJob (job_view r) release) w Q.
Proof.
  intros Hok Hr Hrel Hid HQ Hno. destruct (job_row _ _ _ Hok Hr) as (Hrid & _ & Hv & _).
  unfold completeJob. change (Job_Status (job_view r)) with (Record_Status r).
  change (Job_Result (job_view r)) with (Record_Result r). change (Job_ID (job_view r)) with (Record_ID r). rewrite Hrid.
  case_guard as Hdone; bool_to_prop.
  { apply wp_ret. by eapply HQ. }
  apply wp_bind, wp_transition_job; [done|done|done| |].
  - intros _ r' Hok'. apply wp_ret. apply (HQ r'); [done|done|by apply lookup_insert_eq|done|done].
  - intros Hblocked e. apply wp_ret, Hno; [|by apply world_ok_same|done].
    intros [Hst Hgen]. destruct Hblocked as [_ [?|?]]; [by destruct Hst as [->| ->]| |done|done].
    simpl. rewrite release_result_valid by done. done.
Qed.

(** *** Publishing *)
Definition can_commit (st : ReleaseStore) (r : JobRecord) : Prop :=
  (Record_Status r = Running \/ Record_Status r = Interrupted) /\ 0 <= next_generation (Generation (pointer st)) /\
  forall n, exists id, newID n = Some id /\ releases st !! id = None.

Lemma commit_enabled intent st i w r :
  on_the_way intent st i w -> Intent_Phase i = IntentPointerCommitting ->
  jobs (shared st) !! Intent_JobID intent = Some r ->
  Pointer_ReleaseID (pointer st) = Intent_BaselineReleaseID intent -> can_commit st r ->
  exists id, newID (ticks w) = Some id /\
    CommitActivatedIntent (store w) (clock (ticks w)) (Some id) (Intent_ID i) (Generation (pointer st)) =
      (Ok (Row_Release (release_row id i (clock (ticks w))), mkPointer id (next_generation (Generation (pointer st)))),
       committed (store w) id i (clock (ticks w))).
Proof.
  intros (Hok & Hi & Hid & [Hj Hsame] & _ & Hsh & Hpol & Hrel & Hptr) Hph Hr Hbase (Hst & Hgen & Hfresh).
  destruct (Hfresh (ticks w)) as (id & Hnew & Hnone). exists id. split; [done|].
  rewrite <- Hsh in Hr. destruct (job_row _ _ _ Hok Hr) as (_ & _ & _ & Hg).
  apply GetJob_Ok in Hg as (_ & _ & Hproj & _).
  destruct (intent_row _ _ _ Hok Hi) as (_ & _ & Hiid & _). rewrite <- Hid in Hi, Hiid.
  pose proof (Hsame "" 0)%string as Hrow. apply (f_equal Row_BaselineReleaseID) in Hrow. simpl in Hrow.
  pose proof (world_ok_now _ Hok) as Hok'. pose proof Hok' as (_ & Hint & _ & _ & _ & l & _ & _ & _ & Hlen).
  destruct (Hint _ _ Hi) as (_ & _ & _ & _ & Hcand & Hpolicy & Hb).
  unfold CommitActivatedIntent. rewrite Hiid, Hptr in *. simpl.
  replace (Generation (pointer st) <? 0) with false by (symmetry; apply Z.ltb_ge; lia).
  unfold intent_with_job. rewrite Hi. simpl. rewrite Hj, (proj2 (row_of_Some _ _ r)) by done. simpl.
  replace (committable i r) with true.
  2:{ unfold committable. rewrite Hph. simpl. destruct Hst as [-> | ->]; done. }
  rewrite Z.eqb_refl, bool_decide_true by congruence. simpl. rewrite decide_True; [done|].
  split_and!; simpl; try done; [by rewrite Hrel| |by rewrite Hptr].
  eapply baseline_unreleased; [exact Hok'|exact Hi|]. rewrite Hptr. congruence.
Qed.

Lemma wp_publish intent st i w r (Q : RecoveryResult -> World G -> Prop) :
  on_the_way intent st i w -> Intent_Phase i = IntentPointerCommitting ->
  jobs (shared st) !! Intent_JobID intent = Some r -> release_record r ->
  Pointer_ReleaseID (pointer st) = Intent_BaselineReleaseID intent ->
  (forall w', world_ok w' -> published (store w') (Intent_ID intent) (Intent_JobID intent) ->
     Q (mkRecovery (Intent_ID intent) RecoveryContinued None) w') ->
  (~ completable r -> forall e w', world_ok w' -> Q (mkRecovery (Intent_ID intent) RecoveryRequiresSupport (Some e)) w') ->
  (~ can_commit st r -> forall v w', failure intent st v w' -> Q v w') ->
  wp (publish i (job_view r) (pointer st)) w Q.
Proof.
  intros Hway Hph Hr Hrr Hbase HQ Hsupport Hfail.
  pose proof Hway as (Hok & Hi & Hid & [Hj Hsame] & _ & Hsh & _).
  unfold publish. apply wp_bind. unfold wp at 1, commit_intent, write.
  pose proof (step_commit (clock (ticks w)) (store w) (newID (ticks w)) (Intent_ID i) (Generation (pointer st))
    (newID_valid (ticks w))) as Hstep. apply (world_ok_step w) in Hstep; [|done].
  destruct (CommitActivatedIntent _ _ _ _ _) as [[[release p]|e] st'] eqn:Hc; simpl in *.
  - pose proof (f_equal fst Hc) as Hok1. simpl in Hok1.
    destruct (commit_Ok _ _ _ _ _ _ _ Hok1) as (i0 & j & id & Hij & Hnew & _ & _ & _ & _ & Hrelease & _ & Hst').
    rewrite Hc in Hst'. simpl in Hst'. subst st'.
    assert (i0 = i) as ->.
    { unfold intent_with_job in Hij. rewrite Hid, Hi in Hij. simpl in Hij. destruct (row_of _ _); simplify_eq/=. done. }
    assert (ID_Valid (Release_ID release) = true) as Hvalid by (rewrite Hrelease; by apply (newID_valid (ticks w))).
    apply wp_bind, (wp_completeJob (Intent_JobID intent)); [done|by rewrite <- Hsh in Hr|done|done| |].
    + intros r' w' Hok' (Hint' & Hrel' & Hptr') Hr' Hs Hres. apply wp_ret. rewrite Hid. apply HQ; [done|].
      unfold published. rewrite Hptr', Hrel', Hint'. simpl. rewrite Hid.
      exists (release_row id i (clock (ticks w))), (with_phase i IntentSucceeded (ExternalTaskID i) (ErrorDetails i) (clock (ticks w))), r'.
      rewrite !lookup_insert_eq. split_and!; try done. by rewrite Hres, Hrelease.
    + intros Hnc e w' Hok' _. apply wp_ret. rewrite Hid. by apply Hsupport.
  - pose proof (f_equal fst Hc) as He. simpl in He. apply commit_Err in He. rewrite Hc in He. simpl in He. subst st'.
    eapply wp_mono; [eapply (wp_fail_on_the_way intent st)|].
    + destruct Hway as (_ & Hrest). by split.
    + left. by exists r.
    + apply Hfail. intros Hcan. destruct (commit_enabled _ _ _ _ _ Hway Hph Hr Hbase Hcan) as (id & Hnew & Hcommit).
      rewrite Hnew, Hcommit in Hc. done.
Qed.

(** *** The verdict *)
Definition verdict (intent : Intent) (st : ReleaseStore) (v : RecoveryResult) (w' : World G) : Prop :=
  world_ok w' /\ Recovery_IntentID v = Intent_ID intent /\
  match Outcome v with
  | RecoveryCompleted | RecoveryContinued =>
      Recovery_Err v = None /\ published (store w') (Intent_ID intent) (Intent_JobID intent)
  | RecoveryFailed =>
      Recovery_Err v <> None /\ releases (store w') = releases st /\ pointer (store w') = pointer st /\
      (exists i, intents (store w') !! Intent_ID intent = Some i /\ Intent_Phase i = IntentFailed) /\
      forall j, GetReleaseJob (store w') (Intent_JobID intent) = Ok j -> Terminal (Job_Status j) = true
  | RecoveryRequiresSupport => Recovery_Err v <> None
  end.

Lemma failure_verdict intent st v w' : failure intent st v w' -> verdict intent st v w'.
Proof. intros (? & ? & ? & ? & ? & [Ho|(Ho & ? & ?)]); unfold verdict; rewrite Ho; by split_and!. Qed.

Lemma GetRelease_row t st id r : release_store_ok t st -> GetRelease st id = Ok r ->
  Release_ID r = id /\ ID_Valid id = true /\ exists row, releases st !! id = Some row /\ r = Row_Release row.
Proof.
  intros (_ & _ & _ & Hrel & _). unfold GetRelease. case_guard as Hid; [done|].
  destruct (releases st !! id) as [row|] eqn:Hrow; [|done]. case_guard; [done|]. intros [= <-]. bool_to_prop.
  destruct (Hrel _ _ Hrow) as (? & _ & i & _ & Heq). rewrite Heq. split_and!; [done..|]. exists row. by rewrite <- Heq.
Qed.

Lemma wp_settle intent w r active (Q : RecoveryResult -> World G -> Prop) :
  world_ok w -> intents (store w) !! Intent_ID intent = Some intent ->
  jobs (shared (store w)) !! Intent_JobID intent = Some r -> release_record r ->
  GetRelease (store w) (Pointer_ReleaseID (pointer (store w))) = Ok active -> Release_IntentID active = Intent_ID intent ->
  (forall w', world_ok w' -> published (store w') (Intent_ID intent) (Intent_JobID intent) ->
     Q (mkRecovery (Intent_ID intent) RecoveryCompleted None) w') ->
  (~ completable r -> forall e w', world_ok w' -> Q (mkRecovery (Intent_ID intent) RecoveryRequiresSupport (Some e)) w') ->
  wp (settle intent (job_view r) active) w Q.
Proof.
  intros Hok Hi Hr Hrr Hact Hiid HQ Hsupport.
  destruct (GetRelease_row _ _ _ _ (world_ok_now _ Hok) Hact) as (Hrid & Hvalid & row & Hrow & ->).
  assert (forall w1 i1, world_ok w1 -> intents (store w1) !! Intent_ID intent = Some i1 ->
    Intent_Phase i1 = IntentSucceeded -> shared (store w1) = shared (store w) ->
    releases (store w1) = releases (store w) -> pointer (store w1) = pointer (store w) ->
    wp (let* e := completeJob (job_view r) (Row_Release row) in
        saga_ret (mkRecovery (Intent_ID intent)
          match e with None => RecoveryCompleted | Some _ => RecoveryRequiresSupport end e)) w1 Q) as Hrest.
  { intros w1 i1 Hok1 Hi1 Hph Hsh Hrel Hptr. rewrite <- Hsh in Hr.
    apply wp_bind, (wp_completeJob (Intent_JobID intent)); [done|done|done|by rewrite Hrid| |].
    - intros r' w' Hok' (Hint' & Hrel' & Hptr') Hr' Hs Hres. apply wp_ret, HQ; [done|].
      exists row, i1, r'. rewrite Hptr', Hrel', Hint', Hptr, Hrel, Hres, Hrid. by split_and!.
    - intros Hno e w' Hok' _. apply wp_ret. by apply Hsupport. }
  unfold settle. apply wp_bind. case_guard as Hph; bool_to_prop.
  - apply wp_ret. by eapply Hrest.
  - apply wp_bind, wp_transition_intent; [done..|]. intros i' w' Hok' Hi'. apply wp_ret. by eapply Hrest.
Qed.

(** The job a reconciliation works with, and its early exit. *)
Definition identified (st : ReleaseStore) (intent : Intent) (r : JobRecord) : Prop :=
  jobs (shared st) !! Intent_JobID intent = Some r /\ release_record r /\ intent_matches_job (job_view r) intent = true /\
  Job_Valid (job_view r) = true.

Lemma wp_reconcile_identity intent w (Q : RecoveryResult -> World G -> Prop) :
  world_ok w -> intents (store w) !! Intent_ID intent = Some intent ->
  (forall r, identified (store w) intent r ->
     wp (let* x := (let*? _ := settle_active intent (job_view r) (pointer (store w)) in
                    replay intent (job_view r) (pointer (store w))) in saga_ret (merge x)) w Q) ->
  ((forall r, ~ identified (store w) intent r) -> forall v w', failure intent (store w) v w' -> Q v w') ->
  wp (reconcile intent) w Q.
Proof.
  intros Hok Hi HQ Hno. unfold reconcile. apply wp_bind. unfold wp at 1, read. cbn [fst snd].
  assert (GetActivePointer (store w) = Ok (pointer (store w))) as Hptr.
  { destruct (world_ok_now _ Hok) as (_ & _ & _ & Hrel & _ & l & Hchain & _ & Hall & Hlen).
    unfold GetActivePointer, ActivePointer_Valid. replace (0 <=? Generation (pointer (store w))) with true
      by (symmetry; apply Z.leb_le; lia).
    remember (Pointer_ReleaseID (pointer (store w))) as p eqn:Hp. destruct Hchain as [|id row l' Hrow Hl].
    - done.
    - destruct (Hrel _ _ Hrow) as [Hv _]. by rewrite Hv, orb_true_r. }
  destruct (GetReleaseJob (store w) (Intent_JobID intent)) as [j|e] eqn:Hj.
  - destruct (GetReleaseJob_inv _ _ _ Hj) as (r & Hr & Hrr & -> & Hv). simpl. rewrite Hv. simpl.
    destruct (intent_matches_job (job_view r) intent) eqn:Hm; simpl.
    + apply wp_bind. unfold wp at 1, read. cbn [fst snd]. rewrite Hptr. by apply HQ.
    + eapply wp_mono; [apply wp_fail; [done|done|left; by exists r]|]. apply Hno.
      intros r' (Hr' & _ & Hm' & _). rewrite Hr in Hr'. injection Hr' as <-. congruence.
  - simpl. eapply wp_mono; [apply wp_fail; [done|done|]|].
    + right. split; [done|]. intros j. by rewrite Hj.
    + apply Hno. intros r (Hr & Hrr & _). rewrite (GetReleaseJob_row _ _ _ Hok Hr Hrr) in Hj. done.
Qed.

Definition graph_read (r : JobRecord) (intent : Intent) : GraphReadRequest :=
  mkRead (Job_ProjectID (job_view r)) (Intent_CandidateRevisionID intent) (Job_InputHash (job_view r)).

(** The Graph shows its active snapshot, and holds the candidate or takes it. *)
Definition graph_cooperates (intent : Intent) (r : JobRecord) (g : G) : Prop :=
  exists snapshot g', ActiveSnapshot (graph_read r intent) g = (Ok snapshot, g') /\
    replayable (Intent_Phase intent) (MatchesRead snapshot (graph_read r intent)) = true /\
    (MatchesRead snapshot (graph_read r intent) = true \/
     graph_accepts (activation_request (job_view r) intent) (graph_read r intent) g').

Definition ready (intent : Intent) (w : World G) (r : JobRecord) : Prop :=
  Pointer_ReleaseID (pointer (store w)) = Intent_BaselineReleaseID intent /\ can_commit (store w) r /\
  graph_cooperates intent r (graph w).

Lemma on_the_way_matches intent st i w r :
  on_the_way intent st i w -> intent_matches_job (job_view r) i = intent_matches_job (job_view r) intent /\
    activation_request (job_view r) i = activation_request (job_view r) intent /\
    Intent_CandidateRevisionID i = Intent_CandidateRevisionID intent.
Proof.
  intros (_ & _ & Hid & [Hj Hsame] & Hh & _).
  pose proof (Hsame "" 0)%string as Hrow. apply (f_equal (fun row => Release_RevisionID (Row_Release row))) in Hrow. simpl in Hrow.
  unfold intent_matches_job, activation_request. rewrite Hid, Hj, Hh, Hrow. done.
Qed.

Lemma wp_replay intent w r (Q : RecoveryResult -> World G -> Prop) :
  world_ok w -> intents (store w) !! Intent_ID intent = Some intent -> identified (store w) intent r ->
  (forall w', world_ok w' -> published (store w') (Intent_ID intent) (Intent_JobID intent) ->
     Q (mkRecovery (Intent_ID intent) RecoveryContinued None) w') ->
  (~ completable r -> forall e w', world_ok w' -> Q (mkRecovery (Intent_ID intent) RecoveryRequiresSupport (Some e)) w') ->
  (~ ready intent w r -> forall v w', failure intent (store w) v w' -> Q v w') ->
  wp (replay intent (job_view r) (pointer (store w))) w (fun x w' => Q (merge x) w').
Proof.
  intros Hok Hi (Hr & Hrr & Hm & Hv) HQ Hsupport Hfail. pose proof (on_the_way_start _ _ Hok Hi) as Hway.
  assert (job_known (store w) (Intent_JobID intent) (job_view r)) as Hjob by (left; by exists r).
  unfold replay. fold (graph_read r intent). apply wp_bind, wp_call. intros s g Hs.
  destruct s as [snapshot|e].
  2:{ eapply wp_fail_with; [by apply on_the_way_graph|done|]. apply Hfail.
      intros (_ & _ & s & g' & Hs' & _). congruence. }
  case_guard as Hb; bool_to_prop.
  { eapply wp_fail_with; [by apply on_the_way_graph|done|]. apply Hfail. by intros (? & _). }
  apply wp_try, (wp_claim intent (store w)); [by apply on_the_way_graph|done| |].
  2:{ intros Hrep. apply Hfail. intros (_ & _ & s & g' & Hs' & Hrep' & _). simplify_eq. congruence. }
  intros i1 w1 Hway1 Hg1 Hrep Hph1. simpl in Hg1. destruct (on_the_way_matches _ _ _ _ r Hway1) as (Hm1 & Hreq1 & _).
  apply wp_try, (wp_activate intent (store w)); [done|done|done|by rewrite Hm1| |].
  2:{ intros Hnm Hna. apply Hfail. intros (_ & _ & s & g' & Hs' & _ & Hor).
      rewrite Hs in Hs'. injection Hs' as <- <-. rewrite Hreq1, Hg1 in Hna. destruct Hor as [?|?]; [congruence|done]. }
  intros i2 w2 Hway2 Hph2.
  apply wp_try, (wp_claim_commit intent (store w)); [done|naive_solver|].
  intros i3 w3 Hway3 Hph3. apply wp_bind.
  eapply wp_publish; [done|done|done|done|done| | |]; intros; apply wp_ret; [by apply HQ|by apply Hsupport|].
  apply Hfail; [|done]. by intros (_ & ? & _).
Qed.

Lemma active_release_readable w :
  world_ok w -> Pointer_ReleaseID (pointer (store w)) = ""%string \/
    exists active, GetRelease (store w) (Pointer_ReleaseID (pointer (store w))) = Ok active.
Proof.
  intros Hok. destruct (world_ok_now _ Hok) as (_ & Hint & _ & Hrel & _ & l & Hchain & _).
  remember (Pointer_ReleaseID (pointer (store w))) as p eqn:Hp. destruct Hchain as [|id row l' Hrow _]; [by left|right].
  destruct (Hrel _ _ Hrow) as (Hv & Hc & i & Hi & Heq). exists (Row_Release row).
  unfold GetRelease. rewrite Hv, Hrow. simpl. replace (Release_Valid (Row_Release row)) with true; [done|].
  destruct (Hint _ _ Hi) as (Hid & Hscan & _). apply scanReleaseIntent_Ok in Hscan as (_ & Hvalid & _).
  unfold Intent_Valid in Hvalid. bool_to_prop. rewrite Heq. unfold Release_Valid, IsZero. simpl.
  repeat match goal with H : ID_Valid _ = true |- _ => rewrite H; clear H end.
  apply Z.eqb_neq in Hc. by rewrite Hc.
Qed.

Lemma wp_reconcile intent w (Q : RecoveryResult -> World G -> Prop) :
  world_ok w -> intents (store w) !! Intent_ID intent = Some intent ->
  (forall outcome w', outcome = RecoveryCompleted \/ outcome = RecoveryContinued -> world_ok w' ->
     published (store w') (Intent_ID intent) (Intent_JobID intent) -> Q (mkRecovery (Intent_ID intent) outcome None) w') ->
  ((forall r, identified (store w) intent r -> ~ completable r) ->
   forall e w', world_ok w' -> Q (mkRecovery (Intent_ID intent) RecoveryRequiresSupport (Some e)) w') ->
  ((forall r, identified (store w) intent r -> ~ ready intent w r) ->
   forall v w', failure intent (store w) v w' -> Q v w') ->
  wp (reconcile intent) w Q.
Proof.
  intros Hok Hi HQ Hsupport Hfail. apply wp_reconcile_identity; [done|done| |].
  2:{ intros Hno. apply Hfail. intros r Hr. by destruct (Hno r). }
  intros r Hid. pose proof Hid as (Hr & Hrr & _).
  assert (forall r', identified (store w) intent r' -> r' = r) as Huniq by (intros r' (Hr' & _); congruence).
  assert (wp (replay intent (job_view r) (pointer (store w))) w (fun x w' => Q (merge x) w')) as Hreplay.
  { apply wp_replay; [done|done|done|auto| |].
    - intros Hno. apply Hsupport. intros r' Hr'%Huniq. by subst.
    - intros Hno. apply Hfail. intros r' Hr'%Huniq. by subst. }
  apply wp_bind. eapply wp_mono; [|intros x w' Hx; apply wp_ret; exact Hx].
  apply wp_try. unfold settle_active. case_guard as Hp; [by apply wp_ret|].
  apply wp_bind. unfold wp at 1, read. cbn [fst snd].
  destruct (GetRelease (store w) (Pointer_ReleaseID (pointer (store w)))) as [active|e] eqn:Hact.
  - case_bool_decide as Hiid; [|by apply wp_ret]. apply wp_bind.
    apply (wp_settle intent w r active); [done|done|done|done|done|done| |].
    + intros w' Hok' Hpub. apply wp_ret. apply HQ; auto.
    + intros Hno e w' Hok'. apply wp_ret. apply Hsupport; [|done]. intros r' Hr'%Huniq. by subst.
  - exfalso. destruct (active_release_readable w Hok) as [Hempty|(active & Hact')]; [|congruence].
    rewrite Hempty in Hp. unfold ID_Valid in Hp. by rewrite uuid_v7_empty in Hp.
Qed.
End facts.

Section properties.
Context {G : Type} `{GraphGate G, RuntimeLaws, !UuidLaws}.

(** C5: the verdict of a reconciliation is the truth about the store: after
    "completed" or "continued" the active pointer is at a release of this very
    intent, the intent is SUCCEEDED and its job succeeded with that release as
    its result; after "failed" releases and pointer are untouched, the intent is
    FAILED and its job is over; everything else is reported with an error. *)
Theorem recovery_verdict_truthful intent (w : World G) :
  world_ok w -> intents (store w) !! Intent_ID intent = Some intent ->
  verdict intent (store w) (reconcile intent w).1 (reconcile intent w).2.
Proof.
  intros Hok Hi. apply (wp_reconcile intent w (verdict intent (store w))); [done|done| | |].
  - intros outcome w' [-> | ->] Hok' Hpub; by split_and!.
  - intros _ e w' Hok'. by split_and!.
  - intros _ v w' Hf. by apply failure_verdict.
Qed.

(** C4: an interrupted release is published by one reconciliation, which ends in
    "completed" or "continued", when the saga can still go forward: the job is
    running or interrupted and not canceled, the active release is the intent's
    baseline, the release's new identifiers are not in use, the pointer's counter is
    not exhausted, the Graph shows its active snapshot, and either the intent is RECORDED or GRAPH_ACTIVATING and the Graph holds or accepts the candidate
    (also when only a second look shows that it did), or it is GRAPH_ACTIVATED or
    POINTER_COMMITTING and the Graph already holds the candidate. *)
Theorem recovery_publishes intent (w : World G) r :
  world_ok w -> intents (store w) !! Intent_ID intent = Some intent ->
  identified (store w) intent r -> completable r -> ready intent w r ->
  exists outcome w', reconcile intent w = (mkRecovery (Intent_ID intent) outcome None, w') /\
    (outcome = RecoveryCompleted \/ outcome = RecoveryContinued) /\
    published (store w') (Intent_ID intent) (Intent_JobID intent).
Proof.
  intros Hok Hi Hid Hc Hready.
  assert (wp (reconcile intent) w (fun v w' => exists outcome, v = mkRecovery (Intent_ID intent) outcome None /\
    (outcome = RecoveryCompleted \/ outcome = RecoveryContinued) /\
    published (store w') (Intent_ID intent) (Intent_JobID intent))) as (outcome & Hv & Hout & Hpub).
  { apply wp_reconcile; [done|done| | |].
    - intros outcome w' Hout _ Hpub. by exists outcome.
    - intros Hno. by destruct (Hno r Hid).
    - intros Hno. by destruct (Hno r Hid). }
  exists outcome, (reconcile intent w).2. split_and!; [|done..]. rewrite <- Hv. by destruct (reconcile intent w).
Qed.
End properties.
