(* ===== verification/ReleaseExamples.v ===== *)
(** * Concrete releases: the witnesses of the saga's theorems, and what a failed or canceled
    release leaves behind

    A project with one revision and one policy, a release job and its intent, and
    a Graph that holds one snapshot and accepts every activation. *)
From S2P Require Import Prelude GoSort GoStrings GoCrypto Domain Job JobStore.
From S2P Require Import ReleaseTypes ReleaseStore ReleaseHistory ReleaseSaga ReleaseRecovery ReleaseRecoveryFacts.
Open Scope Z_scope.

(** A store reached by [now], extended by an operation that may refuse. *)
Definition reached `{UuidLib} (now : Time) (st : ReleaseStore) : Prop := exists t, t <= now /\ release_reachable t st.
Lemma reached_step `{UuidLib} now now' st st' :
  reached now st -> now <= now' -> st' = st \/ release_step now' st st' -> reached now' st'.
Proof.
  intros (t & Ht & project & t0 & Ht0 & Hr) Hnow [-> |Hs].
  - exists t. split; [lia|]. by exists project, t0.
  - exists now'. split; [done|]. exists project, t0. split; [done|]. eapply release_runs_step; [done|lia|done].
Qed.

Module ReleaseExamples.
Local Existing Instance canonical_uuid.
Definition uuid (n : string) : ID := ("00000000-0000-7000-8000-0000000000" +:+ n)%string.
Definition project : ID := uuid "01".
Definition candidate : ID := uuid "02".
Definition policyID : ID := uuid "03".
Definition jobID : ID := uuid "04".
Definition intentID : ID := uuid "05".
Definition backupID : ID := uuid "06".
Definition zeros : string := "0000000000000000000000000000000000000000000000000000000000000000".

#[local] Instance example_runtime : Runtime :=
  {| clock := fun n => 100 + Z.of_nat n; newID := fun n => Some (if (n <? 50)%nat then uuid "10" else uuid "11") |}.
#[local] Instance example_runtime_laws : RuntimeLaws.
Proof. split; [intros n; simpl; lia|]. intros n id [= <-]. by destruct (n <? 50)%nat. Qed.

(** The active snapshot, if any. *)
#[local] Instance example_graph : GraphGate (option GraphSnapshot) := {|
  Activate request g :=
    (Ok (ReleaseTypes.mkEvidence true (Activation_ProjectID request) (Activation_RevisionID request) (Activation_ConfigHash request)
           (Activation_IntentID request) "task"),
     Some (mkSnapshot (Activation_ProjectID request) (Activation_RevisionID request) (Activation_ConfigHash request)));
  ActiveSnapshot _ g := (Ok (default (mkSnapshot "" "" "") g), g);
  Graph_Restore _ g := (Ok tt, None) |}.

Definition request (revision : ID) (key : string) : JobRequest := mkJobRequest project revision zeros key zeros.
Definition manifest : string := "[]".
Definition intent_of (id job baseline : ID) (key : string) (at_ : Time) : Intent :=
  mkIntent id job candidate baseline policyID manifest (sha256_hex manifest)
    [mkConfirmation ConfirmationEstablishBaseline true] (mkBackup true true zeros) "" baseline zeros key "" None ""
    IntentRecorded "" at_ at_.

Definition s_revision : ReleaseStore :=
  set_shared (empty_releases project)
    (mkStore project ({[candidate]} ∪ ∅) ∅ ∅ ∅).
Definition s_policy : ReleaseStore :=
  mkReleaseStore (shared s_revision) ({[policyID]} ∪ ∅) ∅ ∅ (mkPointer "" 0).
Definition s_job : ReleaseStore := Eval vm_compute in (CreateOrGetReleaseJob s_policy jobID 10 (request candidate "release-1")).2.
Definition s_running : ReleaseStore := Eval vm_compute in (TransitionReleaseJob s_job 11 jobID Queued Running None).2.
Definition intent : Intent := Eval vm_compute in intent_of intentID jobID "" "release-1" 12.
Definition s_intent : ReleaseStore := Eval vm_compute in (CreateIntent s_running intent).2.
(** The process died: the job was left running and is now interrupted. *)
Definition s_interrupted : ReleaseStore := Eval vm_compute in (TransitionReleaseJob s_intent 13 jobID Running Interrupted None).2.
Definition w_interrupted : World (option GraphSnapshot) := mkWorld s_interrupted None 0.


Lemma reached_policy : reached 2 s_policy.
Proof.
  eapply (reached_step 2 2 s_revision); [|lia|right; apply (step_policy 2 s_revision policyID)].
  eapply (reached_step 1 2 (empty_releases project)); [|lia|].
  - exists 1. split; [lia|]. exists project, 1. split; [lia|]. apply release_runs_refl.
  - right. apply (step_shared 2 (empty_releases project)). apply (JobStore.step_revision 2 (empty_store project) candidate).
Defined.
Lemma reached_job : reached 10 s_job.
Proof.
  replace s_job with (CreateOrGetReleaseJob s_policy jobID 10 (request candidate "release-1")).2 by (vm_compute; reflexivity).
  eapply reached_step; [exact reached_policy|lia|apply CreateOrGetReleaseJob_step].
Qed.
Lemma reached_running : reached 11 s_running.
Proof.
  replace s_running with (TransitionReleaseJob s_job 11 jobID Queued Running None).2 by (vm_compute; reflexivity).
  eapply reached_step; [exact reached_job|lia|apply TransitionReleaseJob_step].
Qed.
Lemma reached_intent : reached 12 s_intent.
Proof.
  replace s_intent with (CreateIntent s_running intent).2 by (vm_compute; reflexivity).
  eapply reached_step; [exact reached_running|lia|right; apply step_create_intent]. by vm_compute.
Qed.
Lemma reached_interrupted : reached 13 s_interrupted.
Proof.
  replace s_interrupted with (TransitionReleaseJob s_intent 13 jobID Running Interrupted None).2 by (vm_compute; reflexivity).
  eapply reached_step; [exact reached_intent|lia|apply TransitionReleaseJob_step].
Qed.

Lemma world_ok_reached now st (g : option GraphSnapshot) : reached now st -> now <= 100 -> world_ok (mkWorld st g 0).
Proof. intros (t & Ht & Hr) Hnow. exists t. split; [by apply release_reachable_ok|]. simpl. lia. Qed.

Lemma world_interrupted : world_ok w_interrupted.
Proof. apply (world_ok_reached 13 s_interrupted); [exact reached_interrupted|lia]. Qed.
Lemma intent_interrupted : intents (store w_interrupted) !! Intent_ID intent = Some intent.
Proof. vm_compute. reflexivity. Qed.

Definition job_interrupted : JobRecord := Eval vm_compute in
  match jobs (shared s_interrupted) !! jobID with Some r => r | None => queued_record "" (mkRequest "" "" "" "" "" "") 0 end.

Lemma recovery_verdict_truthful_witness :
  verdict intent (store w_interrupted) (reconcile intent w_interrupted).1 (reconcile intent w_interrupted).2.
Proof. exact (recovery_verdict_truthful intent w_interrupted world_interrupted intent_interrupted). Defined.

Lemma identified_interrupted : identified (store w_interrupted) intent job_interrupted.
Proof. unfold identified, release_record. split_and!; vm_compute; reflexivity. Qed.
Lemma ready_interrupted : ready intent w_interrupted job_interrupted.
Proof.
  split; [vm_compute; reflexivity|]. split.
  - split; [right; vm_compute; reflexivity|]. split; [vm_compute; discriminate|].
    intros n. exists (if (n <? 50)%nat then uuid "10" else uuid "11"). split; [reflexivity|].
    destruct (n <? 50)%nat; vm_compute; reflexivity.
  - exists (mkSnapshot "" "" ""), None. split; [reflexivity|]. split; [vm_compute; reflexivity|]. right. left.
    eexists. split; [reflexivity|]. vm_compute. reflexivity.
Qed.

Lemma recovery_publishes_witness :
  exists outcome w', reconcile intent w_interrupted = (mkRecovery (Intent_ID intent) outcome None, w') /\
    (outcome = RecoveryCompleted \/ outcome = RecoveryContinued) /\
    published (store w') (Intent_ID intent) (Intent_JobID intent).
Proof.
  apply (recovery_publishes intent w_interrupted job_interrupted world_interrupted intent_interrupted identified_interrupted);
    [|exact ready_interrupted].
  split; [right; vm_compute; reflexivity|vm_compute; reflexivity].
Defined.

(** ** The published history *)
Definition s_published : ReleaseStore := Eval vm_compute in store (reconcile intent w_interrupted).2.
Definition release1 : ID := uuid "10".

(** ** Releases that were canceled or failed half way *)

(** The job of [s_intent] is canceled after the Graph accepted it; then the
    project is opened again. *)
Definition w_canceled : World (option GraphSnapshot) := Eval vm_compute in
  (Worker_Cancel jobID ExternalAccepted (mkWorld s_intent None 0)).2.
Definition w_reopened : World (option GraphSnapshot) := Eval vm_compute in (reconcile intent w_canceled).2.

(** A cancellation that arrives after the external acceptance leaves a release
    that is published while its job can never be completed: every further
    recovery asks for support. *)
Theorem canceled_release_stays_open :
  (reconcile intent w_canceled).1 =
    mkRecovery intentID RecoveryRequiresSupport (Some (recovery_error "release Job could not be completed")) /\
  Pointer_ReleaseID (pointer (store w_reopened)) = release1 /\
  (exists i, intents (store w_reopened) !! intentID = Some i /\ Intent_Phase i = IntentSucceeded /\
     (reconcile i w_reopened).1 =
       mkRecovery intentID RecoveryRequiresSupport (Some (recovery_error "release Job could not be completed"))) /\
  (exists j, GetReleaseJob (store w_reopened) jobID = Ok j /\ Job_Status j = Interrupted /\ Job_CancelGeneration j = 1).
Proof.
  split; [vm_compute; reflexivity|]. split; [vm_compute; reflexivity|]. split.
  - eexists. split; [vm_compute; reflexivity|]. split; [reflexivity|vm_compute; reflexivity].
  - eexists. split; [vm_compute; reflexivity|]. by split.
Qed.

(** A second release on top of it. *)
Definition job2 : ID := uuid "14".
Definition intent2ID : ID := uuid "15".
Definition intent2 : Intent := Eval vm_compute in intent_of intent2ID job2 release1 "release-2" 112.
Definition w_second : World (option GraphSnapshot) := Eval vm_compute in
  let st := store w_reopened in
  let st := (CreateOrGetReleaseJob st job2 110 (request candidate "release-2")).2 in
  let st := (TransitionReleaseJob st 111 job2 Queued Running None).2 in
  let st := (CreateIntent st intent2).2 in
  (reconcile intent2 (mkWorld st (graph w_reopened) 60)).2.

Definition intent_second : Intent := Eval vm_compute in default intent (intents (store w_second) !! intentID).
Definition w_third : World (option GraphSnapshot) := Eval vm_compute in (reconcile intent_second w_second).2.

(** The next recovery of the first intent turns its SUCCEEDED phase into FAILED
    although its release is in the history. *)
Theorem published_intent_marked_failed :
  intents (store w_second) !! intentID = Some intent_second /\ Intent_Phase intent_second = IntentSucceeded /\
  (reconcile intent_second w_second).2 = w_third /\
  (fun row => Release_IntentID (Row_Release row)) <$> releases (store w_third) !! release1 = Some intentID /\
  Intent_Phase <$> intents (store w_third) !! intentID = Some IntentFailed /\
  Record_Status <$> jobs (shared (store w_third)) !! jobID = Some Failed.
Proof. split_and!; vm_compute; reflexivity. Qed.

(** A live run that failed after claiming the Graph: the worker marked the job
    failed and left the intent. *)
Definition w_failed : World (option GraphSnapshot) := Eval vm_compute in
  let st := (TransitionIntent s_intent 13 intentID IntentRecorded IntentGraphActivating "" "").2 in
  mkWorld (TransitionReleaseJob st 14 jobID Running Failed None).2 None 0.

Definition intent_failed : Intent := Eval vm_compute in default intent (intents (store w_failed) !! intentID).
Definition w_stranded : World (option GraphSnapshot) := Eval vm_compute in (reconcile intent_failed w_failed).2.

(** Recovery activates the Graph for a job that is already over; the commit is
    refused, nothing restores the Graph, and the pointer stays. *)
Theorem failed_release_strands_graph :
  intents (store w_failed) !! intentID = Some intent_failed /\
  Outcome (reconcile intent_failed w_failed).1 = RecoveryRequiresSupport /\
  (reconcile intent_failed w_failed).2 = w_stranded /\ pointer (store w_stranded) = mkPointer "" 0 /\
  graph w_failed = None /\ graph w_stranded = Some (mkSnapshot project candidate zeros).
Proof. split_and!; vm_compute; reflexivity. Qed.

(** ** The published history *)
Definition s_activated : ReleaseStore := Eval vm_compute in
  (TransitionIntent s_intent 20 intentID IntentRecorded IntentGraphActivated "" "").2.
Definition s_committed : ReleaseStore := Eval vm_compute in
  (CommitActivatedIntent s_activated 21 (Some release1) intentID 0).2.
Lemma reached_activated : reached 20 s_activated.
Proof.
  replace s_activated with (TransitionIntent s_intent 20 intentID IntentRecorded IntentGraphActivated "" "").2
    by (vm_compute; reflexivity).
  eapply reached_step; [exact reached_intent|lia|right; apply step_transition_intent].
Qed.
Lemma step_committed : release_step 21 s_activated s_committed.
Proof.
  replace s_committed with (CommitActivatedIntent s_activated 21 (Some release1) intentID 0).2 by (vm_compute; reflexivity).
  apply step_commit. intros id [= <-]. vm_compute. reflexivity.
Qed.

Lemma published_history_is_linear_witness :
  exists l l', history s_activated l /\ history s_committed (l' ++ l) /\
    forall id row, releases s_activated !! id = Some row -> releases s_committed !! id = Some row.
Proof.
  destruct reached_activated as (t & Ht & Hr).
  apply (published_history_is_linear t s_activated 21 s_committed Hr).
  eapply release_runs_step; [apply release_runs_refl|lia|exact step_committed].
Defined.

Definition commit_answer : Release * ActivePointer := Eval vm_compute in
  match (CommitActivatedIntent s_activated 21 (Some release1) intentID 0).1 with
  | Ok x => x | Err _ => (mkRelease "" "" "" "" 0, mkPointer "" 0) end.
Lemma commit_at_most_once_witness :
  exists e, CommitActivatedIntent (CommitActivatedIntent s_activated 21 (Some release1) intentID 0).2 30 (Some (uuid "11")) intentID 1 =
    (Err e, (CommitActivatedIntent s_activated 21 (Some release1) intentID 0).2).
Proof.
  destruct reached_activated as (t & Ht & Hr).
  apply (commit_at_most_once t s_activated 21 (Some release1) intentID 0 commit_answer.1 commit_answer.2 21
           (CommitActivatedIntent s_activated 21 (Some release1) intentID 0).2 30 (Some (uuid "11")) 1 Hr);
    [lia| |vm_compute; reflexivity|apply release_runs_refl].
  intros id [= <-]. vm_compute. reflexivity.
Defined.
End ReleaseExamples.
