(* ===== verification/ReleaseRuntime.v ===== *)
(** * internal/bootstrap/release_runtime.go: submitting, canceling and running a release

    The worker's callback is the live saga: preflight at every boundary, the
    mandatory backup, the intent, the Graph activation, the commit.  The channel,
    the in-flight set and the goroutines around it are not modelled: [run_release]
    is one piece of work, executed in the project's write lane.  The backup
    service, the gate results and the validation runs are arguments. *)
From S2P Require Import Prelude GoSort GoStrings GoCrypto GoJson Domain Job JobStore.
From S2P Require Import ReleaseTypes ReleaseStore ReleaseHistory ValidationTypes ReleasePreflight ReleaseSaga ReleaseRecovery ReleaseRecoveryFacts.
From S2P Require VersionGate ReleaseExamples.
Open Scope Z_scope.

(** ** The canonical JSON of gate results (versioning/gate/types.go) *)
Definition strings_json (l : list string) : json := if bool_decide (l = []) then JNull else JArray (JString <$> l).
Definition state_text (s : VersionGate.ResultState) : string :=
  match s with
  | VersionGate.Pass => "PASS" | VersionGate.Warning => "WARNING" | VersionGate.Block => "BLOCK"
  | VersionGate.Unavailable => "UNAVAILABLE" | VersionGate.Stale => "STALE" | VersionGate.StateUnknown s => s
  end%string.
Definition omitempty (key value : string) : list (string * json) :=
  if bool_decide (value = ""%string) then [] else [(key, JString value)].

Definition descriptor_json (d : VersionGate.Descriptor) : json :=
  JObject [("capability_id"%string, JString (VersionGate.Descriptor_CapabilityID d));
           ("gate_id"%string, JString (VersionGate.Descriptor_GateID d));
           ("contract_version"%string, JString (VersionGate.Descriptor_ContractVersion d));
           ("implementation_version"%string, JString (VersionGate.Descriptor_ImplementationVersion d));
           ("required_inputs"%string, strings_json (VersionGate.RequiredInputs d));
           ("supported_states"%string, strings_json (state_text <$> VersionGate.SupportedStates d));
           ("overridable_numeric_block"%string, JBool (VersionGate.OverridableNumericBlock d))].
Definition evidence_json (e : VersionGate.Evidence) : json :=
  JObject ([("id"%string, JString (VersionGate.Evidence_ID e)); ("hash"%string, JString (VersionGate.Evidence_Hash e))] ++
           omitempty "url" (VersionGate.Evidence_URL e)).
Definition candidate_json (c : VersionGate.CandidateContext) : json :=
  JObject ([("revision_id"%string, JString (VersionGate.Candidate_RevisionID c));
            ("config_hash"%string, JString (VersionGate.Candidate_ConfigHash c));
            ("version_manifest_hash"%string, JString (VersionGate.Candidate_ManifestHash c));
            ("policy_id"%string, JString (VersionGate.Candidate_PolicyID c))] ++
           omitempty "baseline_release_id" (VersionGate.BaselineReleaseID c)).
Definition context_json (c : VersionGate.EvaluationContext) : json :=
  JObject ([("candidate"%string, candidate_json (VersionGate.Candidate c));
            ("policy_hash"%string, JString (VersionGate.PolicyHash c))] ++
           omitempty "scene_id" (VersionGate.SceneID c) ++ omitempty "metric_id" (VersionGate.MetricID c) ++
           omitempty "threshold_id" (VersionGate.Context_ThresholdID c) ++
           [("implementation_versions"%string,
             JObject ((fun kv => (kv.1, JString kv.2)) <$> map_to_list (VersionGate.ImplementationVersions c)))]).
(** An empty evidence list is the nil slice. *)
Definition result_json (r : VersionGate.Result) : json :=
  JObject [("id"%string, JString (VersionGate.Result_ID r));
           ("descriptor"%string, descriptor_json (VersionGate.Result_Descriptor r));
           ("state"%string, JString (state_text (VersionGate.State r)));
           ("evidence"%string, if bool_decide (VersionGate.Evidence_ID <$> VersionGate.Result_Evidence r = []) then JNull
                               else JArray (evidence_json <$> VersionGate.Result_Evidence r));
           ("result_hash"%string, JString (VersionGate.ResultHash r));
           ("context"%string, context_json (VersionGate.Context_ r))].
Definition results_json (l : list VersionGate.Result) : json :=
  match l with [] => JNull | _ => JArray (result_json <$> l) end.

Section runtime.
Context {G : Type} `{GraphGate G, Runtime, UuidLib, UnicodeTables, FloatText}.
(** [runtime.preflight(s)]: the service over the store (and Graph) it reads. *)
Context (service : World G -> PreflightService) (backup : BackupGate (G := G)).

Inductive RuntimeError := ErrReleaseRuntimeUnavailable | ErrSubmit (e : PreflightError) | ErrSubmitStore (e : ReleaseError).

(** [Submit], up to the enqueueing of the work. *)
Definition Submit (command : Command) : Saga G (result ReleaseJob RuntimeError) :=
  fun w =>
  match PreflightService_Preflight (service w) command with
  | Err e => (Err (ErrSubmit e), w)
  | Ok preflight =>
      (let* r := write (fun st now id =>
        match id with
        | None => (Err ErrNewID, st)
        | Some id =>
            CreateOrGetReleaseJob st id now
              (mkJobRequest (projectID (shared st)) (Command_CandidateRevisionID command) (ConfigHash command)
                 (Command_IdempotencyKey command) (Validated_RequestHash (Validated preflight)))
        end) in
      saga_ret match r with Err e => Err (ErrSubmitStore e) | Ok (job, _) => Ok job end) w
  end.

(** [releaseRuntime.Cancel] *)
Definition Runtime_Cancel (jobID : ID) : Saga G (result (option ReleaseJob * bool) WorkerError) :=
  let* r := read (fun st => GetReleaseJob st jobID) in
  match r with
  | Err e => saga_ret (Err (ErrStore e))
  | Ok job =>
      Worker_Cancel jobID (if bool_decide (Job_Status job = Queued) then BeforeMandatoryBackup else ExternalAccepted)
  end.

Definition unavailable : string := "release runtime unavailable".
Definition recheck (stage : RecheckStage) (command : Command) : Saga G (result Preflight string) :=
  fun w => (or_else (Recheck (service w) stage command) "preflight"%string, w).
(** [domain.NewID()] and [time.Now().UTC()] *)
Definition fresh_id : Saga G (result ID string) :=
  write (fun st _ id => (match id with Some id => Ok id | None => Err "uuid"%string end, st)).
Definition time_now : Saga G Time := write (fun st now _ => (now, st)).

Definition live_intent (intentID : ID) (job : ReleaseJob) (command : Command) (manifest : string)
    (evidence : BackupEvidence) (now : Time) : Intent :=
  mkIntent intentID (Job_ID job) (Job_RevisionID job) (Command_BaselineReleaseID command) (Command_PolicyID command)
    manifest (sha256_hex manifest) (Command_Confirmations command) evidence "" (Command_BaselineReleaseID command)
    (Job_RequestHash job) (Job_IdempotencyKey job) (Command_Notes command) (Command_Override command) ""
    IntentRecorded "" now now.

(** [TransitionIntent], refused when the row moved. *)
Definition live_transition (intent : Intent) (from to : IntentPhase) (external : string) : Saga G (result Intent string) :=
  let* t := transition_intent (Intent_ID intent) from to external "" in
  saga_ret match t with Ok (Some i, true) => Ok i | _ => Err unavailable end.

Definition record_intent (job : ReleaseJob) (command : Command) (preflight : Preflight) (evidence : BackupEvidence) :
    Saga G (result Intent string) :=
  match CanonicalJSON (results_json (Preflight_Results preflight)) with
  | Err e => saga_ret (Err e)
  | Ok manifest =>
      let*? intentID := fresh_id in
      let* now := time_now in
      let* created := write (fun st _ _ => CreateIntent st (live_intent intentID job command manifest evidence now)) in
      saga_ret match created with Ok (intent, _) => Ok intent | Err _ => Err "intent"%string end
  end.

(** The callback of [releaseRuntime.run]. *)
Definition live_release (command : Command) (job : ReleaseJob) : Saga G (result JobResult string) :=
  let*? _ := recheck RecheckWorkerStart command in
  let*? _ := recheck RecheckBeforeBackup command in
  let*? evidence := PerformMandatoryBackup backup job in
  let*? preflight := recheck RecheckBeforeGraph command in
  let*? intent := record_intent job command preflight evidence in
  let*? intent := live_transition intent IntentRecorded IntentGraphActivating "" in
  let*? activation := ActivateGraph job intent in
  let*? intent := live_transition intent IntentGraphActivating IntentGraphActivated (TaskID activation) in
  let*? _ := recheck RecheckBeforeCommit command in
  let*? intent := live_transition intent IntentGraphActivated IntentPointerCommitting (TaskID activation) in
  let* r := commit_intent (Intent_ID intent) (Generation (Validated_Pointer (Validated preflight))) in
  saga_ret match r with
           | Err _ => Err "commit"%string
           | Ok (release, _) => Ok (release_result (Release_ID release))
           end.

(** [releaseRuntime.run] *)
Definition run_release (jobID : ID) (command : Command) : Saga G (option ReleaseJob * option WorkerError) :=
  Worker_Run jobID (live_release command).
End runtime.

(** ** What a run guarantees *)
Section facts.
Context {G : Type} `{GraphGate G, RuntimeLaws, UnicodeTables, FloatText}.
Context (service : World G -> PreflightService) (backup : BackupGate (G := G)).
(** A backup leaves the release store well formed. *)
Context (backup_ok : forall id h w, world_ok w -> world_ok (backup id h w).2).

Lemma wp_live_transition intent st i w from to external (Q : result Intent string -> World G -> Prop) :
  on_the_way intent st i w -> IntentPhase_Valid from = true -> IntentPhase_Valid to = true ->
  (forall i' w', on_the_way intent st i' w' -> Backup i' = Backup i -> Intent_Phase i' = to -> Q (Ok i') w') ->
  (forall e w', Q (Err e) w') ->
  wp (live_transition i from to external) w Q.
Proof.
  intros Hway Hfrom Hto HQ Herr. pose proof Hway as (Hok & Hi & Hid & Hsame & Hh & Hsh & Hpol & Hrel & Hptr).
  rewrite <- Hid in Hi. unfold live_transition. apply wp_bind.
  destruct (decide (Intent_Phase i = from)) as [<-|Hne].
  - apply wp_transition_intent; [done..|]. intros i' w' Hok' Hi'. apply wp_ret, HQ; [|done|done].
    destruct Hsame as [Hj Hrow]. unfold on_the_way, same_identity. rewrite <- Hid. by split_and!.
  - unfold wp at 1, transition_intent, write, TransitionIntent.
    destruct (intent_row _ _ _ Hok Hi) as (_ & _ & Hiid & _). rewrite Hiid, Hfrom, Hto. simpl. rewrite Hi.
    rewrite decide_False by done. simpl. apply wp_ret, Herr.
Qed.

Lemma wp_perform_backup job w (Q : result BackupEvidence string -> World G -> Prop) :
  world_ok w -> (forall evidence w', world_ok w' -> Q (Ok evidence) w') -> (forall e w', Q (Err e) w') ->
  wp (PerformMandatoryBackup backup job) w Q.
Proof.
  intros Hok HQ Herr. unfold PerformMandatoryBackup. case_guard; [by apply wp_ret|]. apply wp_bind.
  pose proof (backup_ok (Job_ID job) (Job_RequestHash job) w Hok) as Hok'. unfold wp at 1.
  destruct (backup _ _ w) as [[evidence|e] w']; simpl in *; apply wp_ret; [|auto]. case_guard; auto.
Qed.

Lemma intent_of_job_Some st job i : intent_of_job st job = Some i ->
  Intent_JobID i = job /\ exists id, intents st !! id = Some i.
Proof.
  unfold intent_of_job. intros Hh%head_Some_elem_of. apply list_elem_of_filter in Hh as [Hj Hin].
  apply list_elem_of_fmap in Hin as ([id i'] & -> & Hin). split; [done|]. exists id. by apply elem_of_map_to_list.
Qed.

Lemma wp_record_intent job command preflight evidence w (Q : result Intent string -> World G -> Prop) :
  world_ok w ->
  (forall i w', on_the_way i (store w') i w' -> Intent_JobID i = Job_ID job -> pointer (store w') = pointer (store w) ->
     Q (Ok i) w') ->
  (forall e w', Q (Err e) w') ->
  wp (record_intent job command preflight evidence) w Q.
Proof.
  intros Hok HQ Herr. unfold record_intent. destruct (CanonicalJSON _) as [manifest|]; [|by apply wp_ret].
  apply wp_try. unfold wp at 1, fresh_id, write. destruct (newID (ticks w)) as [intentID|]; simpl; [|auto].
  apply wp_bind. unfold wp at 1, time_now, write. simpl. apply wp_bind.
  set (now := clock (S (ticks w))). set (new := live_intent _ _ _ _ _ now).
  set (w1 := mkWorld (store w) (graph w) (S (S (ticks w)))).
  assert (world_ok w1) as Hok1.
  { destruct Hok as (t & Hst & Ht). exists t. split; [done|]. simpl.
    pose proof (clock_monotone (ticks w)). pose proof (clock_monotone (S (ticks w))). lia. }
  assert (Intent_UpdatedAt new <= clock (ticks w1)) as Hnew by apply clock_monotone.
  change (wp (write (fun st _ _ => CreateIntent st new)) w1
    (fun created w' => wp (saga_ret match created with Ok (intent, _) => Ok intent | Err _ => Err "intent"%string end) w' Q)).
  unfold wp at 1, write. pose proof (step_create_intent (clock (ticks w1)) (store w1) new Hnew) as Hstep.
  apply (world_ok_step w1) in Hstep; [|done].
  destruct (CreateIntent (store w1) new) as [[[i dup]|e] st'] eqn:Hc; simpl in *; apply wp_ret; [|auto].
  unfold CreateIntent in Hc. destruct (_ || _ || _) in Hc; [done|].
  destruct (intent_of_job (store w) (Intent_JobID new)) as [row|] eqn:Hjob.
  - destruct (intent_of_job_Some _ _ _ Hjob) as (Hj & id & Hrow).
    destruct (scanReleaseIntent row) as [existing|] eqn:Hs; [|done]. injection Hc as <- <- <-.
    apply scanReleaseIntent_Ok in Hs as (-> & _). apply HQ; [|done|done].
    apply on_the_way_start; [done|]. simpl. by destruct (intent_row _ _ _ Hok Hrow) as (-> & _).
  - destruct (decide (intent_constraints _ new)); [|done]. injection Hc as <- <- <-. apply HQ; [|done|done].
    apply on_the_way_start; [done|]. simpl. apply lookup_insert_eq.
Qed.

(** A job's release, published on top of what was active. *)
Definition released_on (job : ReleaseJob) (before : ActivePointer) (res : JobResult) (w' : World G) : Prop :=
  let rid := Job.Result_ID res in
  pointer (store w') = mkPointer rid (next_generation (Generation before)) /\
  exists row i, releases (store w') !! rid = Some row /\ Row_BaselineReleaseID row = Pointer_ReleaseID before /\
    intents (store w') !! Release_IntentID (Row_Release row) = Some i /\ Intent_Phase i = IntentSucceeded /\
    Intent_JobID i = Job_ID job /\ Release_RevisionID (Row_Release row) = Job_RevisionID job.

Lemma wp_recheck stage command w (Q : result Preflight string -> World G -> Prop) :
  (forall p, PreflightService_Preflight (service w) command = Ok p -> Q (Ok p) w) -> (forall e, Q (Err e) w) ->
  wp (recheck service stage command) w Q.
Proof.
  intros HQ Herr. unfold wp, recheck, Recheck. simpl. case_guard; simpl; [done|].
  destruct (PreflightService_Preflight _ _) as [p|e] eqn:Hp; simpl; auto.
Qed.

(** What a run does is known to its continuation. *)
Lemma wp_run {A : Type} (m : Saga G A) w (Q : A -> World G -> Prop) : wp m w (fun a w' => m w = (a, w') -> Q a w') -> wp m w Q.
Proof. unfold wp. intros HQ. apply HQ. by destruct (m w). Qed.

(** From the recorded intent [i0] at [w0] to the world [w2] in which the Graph
    has activated the candidate and the intent is GRAPH_ACTIVATED. *)
Definition activated_run (job : ReleaseJob) (i0 : Intent) (w0 : World G) (i : Intent) (w2 : World G) : Prop :=
  exists ia wa activation wb,
    live_transition i0 IntentRecorded IntentGraphActivating "" w0 = (Ok ia, wa) /\
    ActivateGraph job ia wa = (Ok activation, wb) /\
    live_transition ia IntentGraphActivating IntentGraphActivated (TaskID activation) wb = (Ok i, w2).
(** From [w2] the run makes one phase transition and commits, and nothing else. *)
Definition committed_run (i : Intent) (generation : Z) (w2 : World G) (res : JobResult) (w' : World G) : Prop :=
  exists external ic wc release p,
    live_transition i IntentGraphActivated IntentPointerCommitting external w2 = (Ok ic, wc) /\
    commit_intent (Intent_ID ic) generation wc = (Ok (release, p), w') /\ res = release_result (Release_ID release).

(** The tail of the saga: from the recorded intent to the commit. *)
Lemma wp_live_tail command job i w generation (Q : result JobResult string -> World G -> Prop) :
  world_ok w -> on_the_way i (store w) i w -> Intent_JobID i = Job_ID job ->
  (forall res i2 w2 w' p, activated_run job i w i2 w2 -> PreflightService_Preflight (service w2) command = Ok p ->
     intents (store w2) !! Intent_ID i = Some i2 -> Intent_JobID i2 = Job_ID job -> Intent_Phase i2 = IntentGraphActivated ->
     committed_run i2 generation w2 res w' ->
     pointer (store w2) = pointer (store w) -> Generation (pointer (store w)) = generation ->
     released_on job (pointer (store w)) res w' -> Q (Ok res) w') ->
  (forall e w', Q (Err e) w') ->
  wp (let*? i := live_transition i IntentRecorded IntentGraphActivating "" in
      let*? activation := ActivateGraph job i in
      let*? i := live_transition i IntentGraphActivating IntentGraphActivated (TaskID activation) in
      let*? _ := recheck service RecheckBeforeCommit command in
      let*? i := live_transition i IntentGraphActivated IntentPointerCommitting (TaskID activation) in
      let* r := commit_intent (Intent_ID i) generation in
      saga_ret match r with Err _ => Err "commit"%string | Ok (release, _) => Ok (release_result (Release_ID release)) end) w Q.
Proof.
  intros Hok Hway0 Hj HQ Herr.
  apply wp_try, wp_run, (wp_live_transition i (store w)); [done|done|done| |auto]. intros i1 w1 Hway1 _ _ Hrun1.
  apply wp_try, wp_run. unfold ActivateGraph at 1. case_guard as Hg; [by apply wp_ret|].
  assert (Intent_CandidateRevisionID i = Job_RevisionID job) as Hrev.
  { destruct Hway1 as (_ & _ & _ & [_ Hsame] & _). apply orb_false_iff in Hg as [_ Hm%negb_false_iff].
    unfold intent_matches_job in Hm. bool_to_prop. pose proof (Hsame "" 0)%string as Hrow.
    apply (f_equal (fun row => Release_RevisionID (Row_Release row))) in Hrow. simpl in Hrow. congruence. }
  apply wp_bind, wp_call. intros r g _. apply wp_ret.
  destruct (match r with Ok _ => _ | Err _ => _ end) as [activation|e]; [|auto]. intros Hrun2.
  apply wp_try, wp_run, (wp_live_transition i (store w)); [by apply on_the_way_graph|done|done| |auto]. intros i2 w2 Hway2 _ Hphase2 Hrun3.
  apply wp_try, wp_recheck; [|auto]. intros p Hp.
  apply wp_try, wp_run, (wp_live_transition i (store w)); [done|done|done| |auto]. intros i3 w3 Hway3 _ _ Hrun4.
  apply wp_bind. unfold wp at 1. destruct (commit_intent (Intent_ID i3) generation w3) as [r5 w5] eqn:Hrun5.
  pose proof Hrun5 as Hrun6. unfold commit_intent, write in Hrun6.
  destruct (CommitActivatedIntent _ _ _ _ _) as [[[release p']|e] st'] eqn:Hc; injection Hrun6 as <- <-; simpl; apply wp_ret; [|auto].
  pose proof (f_equal fst Hc) as Hok1. simpl in Hok1.
  destruct (commit_Ok _ _ _ _ _ _ _ Hok1) as (i0 & j & id & Hij & Hnew & _ & Hgen & Hbase & _ & Hrelease & _ & Hst').
  rewrite Hc in Hst'. simpl in Hst'. subst st' release.
  destruct Hway3 as (Hok3 & Hi3 & Hid3 & [Hj3 Hsame3] & _ & _ & _ & Hrel3 & Hptr3).
  assert (i0 = i3) as ->.
  { unfold intent_with_job in Hij. rewrite Hid3, Hi3 in Hij. simpl in Hij. destruct (row_of _ _); simplify_eq/=. done. }
  destruct Hway2 as (_ & Hi2 & _ & [Hj2 _] & _ & _ & _ & _ & Hptr2).
  apply (HQ _ i2 w2 _ p); [by exists i1, w1, activation, (mkWorld (store w1) g (ticks w1))|done|done|congruence|done| |done|congruence|].
  { exists (TaskID activation), i3, w3. do 2 eexists. split_and!; [exact Hrun4|exact Hrun5|done]. }
  split; simpl; [by rewrite Hptr3|].
  exists (release_row id i3 (clock (ticks w3))), (with_phase i3 IntentSucceeded (ExternalTaskID i3) (ErrorDetails i3) (clock (ticks w3))).
  rewrite !lookup_insert_eq. split_and!; try done; simpl; [congruence|congruence|].
  pose proof (Hsame3 "" 0)%string as Hrow. apply (f_equal (fun row => Release_RevisionID (Row_Release row))) in Hrow.
  simpl in Hrow. congruence.
Qed.

(** C7: a live release is published only through the gates: a run that returns a
    result passed preflight when it began, again after its mandatory backup (at
    [w1]), and again (at [w2]) when the Graph had activated the candidate and the
    intent was GRAPH_ACTIVATED; after that last check the run does nothing but
    the transition to POINTER_COMMITTING and the commit.  The active pointer at
    [w2] is the one of [w1], with the generation the preflight saw, and the run
    leaves exactly one release of this job on top of the release active there,
    the pointer on it, and its intent SUCCEEDED. *)
Theorem live_release_is_gated command job (w : World G) res w' :
  world_ok w -> live_release service backup command job w = (Ok res, w') ->
  exists p0 evidence w1 p1 i0 w0 i w2 p2,
    PreflightService_Preflight (service w) command = Ok p0 /\
    PerformMandatoryBackup backup job w = (Ok evidence, w1) /\
    PreflightService_Preflight (service w1) command = Ok p1 /\
    record_intent job command p1 evidence w1 = (Ok i0, w0) /\
    activated_run job i0 w0 i w2 /\
    PreflightService_Preflight (service w2) command = Ok p2 /\
    intents (store w2) !! Intent_ID i0 = Some i /\ Intent_JobID i = Job_ID job /\ Intent_Phase i = IntentGraphActivated /\
    committed_run i (Generation (Validated_Pointer (Validated p1))) w2 res w' /\
    pointer (store w2) = pointer (store w1) /\
    Generation (Validated_Pointer (Validated p1)) = Generation (pointer (store w1)) /\
    released_on job (pointer (store w1)) res w'.
Proof.
  intros Hok Hrun.
  match goal with |- ?goal =>
    assert (wp (live_release service backup command job) w (fun r w'' => r = Ok res -> w'' = w' -> goal)) as Hwp
  end; [|unfold wp in Hwp; rewrite Hrun in Hwp; by apply Hwp].
  clear Hrun. unfold live_release.
  apply wp_try, wp_recheck; [|done]. intros p0 Hp0. apply wp_try, wp_recheck; [|done]. intros _ _.
  apply wp_try, wp_run, wp_perform_backup; [done| |done]. intros evidence w1 Hok1 Hbackup.
  apply wp_try, wp_recheck; [|done]. intros p1 Hp1.
  apply wp_try, wp_run, wp_record_intent; [done| |done]. intros i0 w0 Hway Hj Hptr Hrecord. pose proof Hway as (Hok0 & _).
  apply wp_live_tail; [done|done|done| |done].
  intros res' i w2 w'' p2 Hact Hp2 Hi Hji Hphase Hcommit Hptr2 Hgen Hrel [= ->] ->. rewrite Hptr in Hptr2, Hgen, Hrel.
  exists p0, evidence, w1, p1, i0, w0, i, w2, p2. by split_and!.
Qed.

(** *** One worker per job *)
Lemma release_step_row now st st' id r :
  release_step now st st' -> jobs (shared st) !! id = Some r -> exists r', jobs (shared st') !! id = Some r' /\ row_le r r'.
Proof.
  intros Hs Hr. assert (shared st' = shared st \/ JobStore.step now (shared st) (shared st')) as [-> |Hj].
  - destruct Hs as [s Hs|intent _|iid expected next external details|newID intentID generation _|pid]; simpl; auto; left.
    + unfold CreateIntent. case_guard; [done|]. destruct (intent_of_job _ _); [done|]. by case_goal.
    + unfold TransitionIntent. case_guard; [done|]. destruct (intents st !! iid); [|done]. by case_goal.
    + unfold CommitActivatedIntent. case_guard; [done|]. destruct (intent_with_job st intentID) as [[i j]|]; [|done].
      case_guard; [done|]. case_guard; [done|]. destruct newID; [|done]. by case_goal.
  - by exists r.
  - apply step_jobs_change in Hj. by eapply jobs_change_row_le.
Qed.

Lemma release_runs_row t st t' st' id r :
  release_runs t st t' st' -> jobs (shared st) !! id = Some r -> exists r', jobs (shared st') !! id = Some r' /\ row_le r r'.
Proof.
  induction 1 as [|t' st' now st'' _ IH _ Hs]; intros Hr; [by exists r|].
  destruct (IH Hr) as (r1 & Hr1 & Hle). destruct (release_step_row _ _ _ _ _ Hs Hr1) as (r2 & Hr2 & Hle2).
  exists r2. split; [done|]. by etrans.
Qed.

(** a release job runs at most once: when its status has left queued, no
    later state of the store, whatever operations led to it, lets a worker call
    its callback again; the attempt changes nothing. *)
Theorem claimed_job_never_runs_again t st t' st' id r run (g : G) n :
  release_reachable t st -> jobs (shared st) !! id = Some r -> release_record r -> Record_Status r <> Queued ->
  release_runs t st t' st' ->
  Worker_Run id run (mkWorld st' g n) = ((None, Some ErrJobTerminal), mkWorld st' g n).
Proof.
  intros Hreach Hr Hrr Hst Hruns. apply release_reachable_ok in Hreach as Hok.
  pose proof (release_runs_ok _ _ _ _ Hok Hruns) as (Hstore & _).
  destruct (release_runs_row _ _ _ _ _ _ Hruns Hr) as (r' & Hr' & Hreq & Hid & _ & Hle).
  pose proof (store_ok_readable _ _ _ _ Hstore Hr') as Hg. pose proof Hg as (Hvid & _ & _ & Hv)%GetJob_Ok.
  assert (release_record r') as Hrr' by (unfold release_record in *; by rewrite Hreq).
  assert (GetReleaseJob st' id = Ok (job_view r')) as Hget.
  { unfold GetReleaseJob. rewrite Hvid, Hg. simpl. by rewrite JobFromSharedRecord_view. }
  assert (Record_Status r' <> Queued) as Hst'.
  { intros E. rewrite E in Hle. destruct Hle as [E'|Hlt]; [congruence|simpl in Hlt; lia]. }
  apply Record_Valid_iff in Hv as (_ & Hrv & Hsv & _). unfold Request_Valid in Hrv. bool_to_prop.
  assert (wp (Worker_Run id run) (mkWorld st' g n)
            (fun x w' => (x, w') = ((None, Some ErrJobTerminal), mkWorld st' g n))) as Hwp.
  { unfold Worker_Run. rewrite Hvid. apply wp_bind. unfold wp at 1, read. cbn [fst snd store]. rewrite Hget.
    change (Job_ProjectID (job_view r')) with (ProjectID (Record_Request r')).
    match goal with H : ID_Valid (ProjectID _) = true |- _ => rewrite H end.
    apply wp_bind. unfold wp at 1, read. cbn [fst snd store]. rewrite Hget.
    change (Job_Status (job_view r')) with (Record_Status r'). rewrite bool_decide_false by done.
    apply wp_ret. unfold JobStatus_Valid. rewrite Hsv. by destruct (Record_Status r'). }
  unfold wp in Hwp. by destruct (Worker_Run id run _).
Qed.

(** The live saga records no previous Graph identity, so recovery never restores
    the Graph of an intent it recorded. *)
Lemma blank_identity_never_restores intent job text (w : World G) :
  world_ok w -> PreviousGraphIdentity intent = ""%string -> graph (fail intent job true text w).2 = graph w.
Proof.
  intros _ Hblank. unfold fail, restore_graph, saga_bind, saga_ret, GraphRestoreRequest_Valid, restore_request. simpl.
  rewrite Hblank, andb_false_r. simpl. unfold transition_intent, transition_job, write.
  destruct (TransitionIntent _ _ _ _ _ _ _) as [[[? []]|] ?]; simpl; try done.
  destruct (_ || _ || _); simpl; [|done]. by destruct (TransitionReleaseJob _ _ _ _ _ _).
Qed.
End facts.

Module RuntimeExamples.
Import ReleaseExamples.ReleaseExamples ReleasePreflight.PreflightExamples.
Local Existing Instance canonical_uuid.
Local Existing Instance latin1_tables.
Local Existing Instance text_floats.
Local Existing Instance example_runtime.
Local Existing Instance example_runtime_laws.
Local Existing Instance example_graph.

Lemma claimed_job_never_runs_again_witness (w := mkWorld s_interrupted (@None GraphSnapshot) 0) :
  Worker_Run jobID (fun _ => saga_ret (Err "never"%string)) w = ((None, Some ErrJobTerminal), w).
Proof.
  destruct reached_running as (t & Ht & Hr).
  assert (exists t', release_runs t s_running t' s_interrupted) as (t' & Hruns).
  { destruct reached_interrupted as (t' & _). exists 13.
    eapply (release_runs_step t s_running 12 s_intent); [|lia|].
    - eapply (release_runs_step t s_running t s_running); [apply release_runs_refl|lia|].
      replace s_intent with (CreateIntent s_running intent).2 by (vm_compute; reflexivity).
      apply step_create_intent. vm_compute. discriminate.
    - replace s_interrupted with (set_shared s_intent (Transition (shared s_intent) 13 jobID Running Interrupted None 0).2)
        by (vm_compute; reflexivity).
      apply step_shared, JobStore.step_transition. }
  assert (exists r, jobs (shared s_running) !! jobID = Some r /\ release_record r /\ Record_Status r <> Queued) as (r & Hrow & Hrr & Hst).
  { exists (default job_interrupted (jobs (shared s_running) !! jobID)).
    split; [vm_compute; reflexivity|]. split; [split; vm_compute; reflexivity|vm_compute; discriminate]. }
  exact (claimed_job_never_runs_again t s_running t' s_interrupted jobID r _ None 0%nat Hr Hrow Hrr Hst Hruns).
Defined.

(** A live run over a store with the revision and policy of the preflight
    example. *)
Definition revisionID : ID := Command_CandidateRevisionID command.
Definition l_project : ID := ReleaseExamples.ReleaseExamples.uuid "09".
Definition l_revision : ReleaseStore :=
  set_shared (empty_releases l_project) (mkStore l_project ({[revisionID]} ∪ ∅) ∅ ∅ ∅).
Definition l_policy : ReleaseStore :=
  mkReleaseStore (shared l_revision) ({[Command_PolicyID command]} ∪ ∅) ∅ ∅ (mkPointer "" 0).
Definition l_request : JobRequest :=
  mkJobRequest l_project revisionID (ConfigHash command) "key" (Validated_RequestHash (Validated passed)).
Definition l_job : ReleaseStore := Eval vm_compute in (CreateOrGetReleaseJob l_policy jobID 10 l_request).2.
Definition l_running : ReleaseStore := Eval vm_compute in (TransitionReleaseJob l_job 11 jobID Queued Running None).2.
Definition l_view : ReleaseJob := Eval vm_compute in
  match GetReleaseJob l_running jobID with Ok j => j | Err _ => zero_job end.
Lemma reached_l_running : ReleaseExamples.reached 11 l_running.
Proof.
  replace l_running with (TransitionReleaseJob l_job 11 jobID Queued Running None).2 by (vm_compute; reflexivity).
  eapply (ReleaseExamples.reached_step 10); [|lia|apply TransitionReleaseJob_step].
  replace l_job with (CreateOrGetReleaseJob l_policy jobID 10 l_request).2 by (vm_compute; reflexivity).
  eapply (ReleaseExamples.reached_step 2); [|lia|apply CreateOrGetReleaseJob_step].
  eapply (ReleaseExamples.reached_step 2 2 l_revision); [|lia|right; apply (step_policy 2 l_revision (Command_PolicyID command))].
  eapply (ReleaseExamples.reached_step 1 2 (empty_releases l_project)); [|lia|].
  - exists 1. split; [lia|]. exists l_project, 1. split; [lia|]. apply release_runs_refl.
  - right. apply (step_shared 2 (empty_releases l_project)). apply (JobStore.step_revision 2 (empty_store l_project) revisionID).
Qed.

Definition l_service (w : World (option GraphSnapshot)) : PreflightService :=
  mkService (Some (mkSources (fun _ => Ok revision) (fun _ => Ok VersionGate.GateExamples.policy)
                     (fun id => or_else (GetRelease (store w) id) "release"%string)
                     (or_else (GetActivePointer (store w)) "pointer"%string)))
    (Some (ValidationGate_Check runs)) (Some VersionGate.GateExamples.gates) (Some (fun _ _ => Ok VersionGate.GateExamples.results)).
Definition l_backup : BackupGate (G := option GraphSnapshot) :=
  fun _ _ => saga_ret (Ok (mkBackup true true VersionGate.GateExamples.zeros)).
Definition l_world : World (option GraphSnapshot) := mkWorld l_running None 0.
Definition l_result : JobResult := release_result (ReleaseExamples.ReleaseExamples.uuid "10").
Definition l_after : World (option GraphSnapshot) := Eval vm_compute in (live_release l_service l_backup command l_view l_world).2.

Lemma live_release_is_gated_witness :
  exists p0 evidence w1 p1 i0 w0 i w2 p2,
    PreflightService_Preflight (l_service l_world) command = Ok p0 /\
    PerformMandatoryBackup l_backup l_view l_world = (Ok evidence, w1) /\
    PreflightService_Preflight (l_service w1) command = Ok p1 /\
    record_intent l_view command p1 evidence w1 = (Ok i0, w0) /\
    activated_run l_view i0 w0 i w2 /\
    PreflightService_Preflight (l_service w2) command = Ok p2 /\
    intents (store w2) !! Intent_ID i0 = Some i /\ Intent_JobID i = Job_ID l_view /\ Intent_Phase i = IntentGraphActivated /\
    committed_run i (Generation (Validated_Pointer (Validated p1))) w2 l_result l_after /\
    pointer (store w2) = pointer (store w1) /\
    Generation (Validated_Pointer (Validated p1)) = Generation (pointer (store w1)) /\
    released_on l_view (pointer (store w1)) l_result l_after.
Proof.
  assert (live_release l_service l_backup command l_view l_world = (Ok l_result, l_after)) as Hrun
    by (vm_compute; reflexivity).
  assert (world_ok l_world) as Hok.
  { apply (ReleaseExamples.ReleaseExamples.world_ok_reached 11 l_running); [exact reached_l_running|lia]. }
  apply (live_release_is_gated l_service l_backup (fun _ _ _ H => H) command l_view l_world l_result l_after Hok Hrun).
Defined.
End RuntimeExamples.
