(* ===== verification/GraphGate.v ===== *)
(** * internal/graph/gate: the Graph snapshot as a release gate, and its activation

    descriptor.go, evaluator.go, activation.go, and [graphResult] with
    [newGateResult] of bootstrap/release_gate_results.go.  A gate result is read
    from the Graph tables of [GraphStore] and from one inspection of the provider;
    an activation inspects again before it activates.  A [nil] port, which both
    refuse, is not a value here. *)
From S2P Require Import Prelude GoSort GoStrings GoCrypto GoJson GoFloat Domain JobStore FormulaDecimal DomainEntity.
From S2P Require EntityStore VersionGate ReleaseTypes ReleaseRuntime GraphProjector.
From S2P Require Import ValidationTypes Job GraphSync GraphStore GraphHistory.
Import GraphProjector(ProjectionSummary, ProjectionSummary_Valid, Summary_ProjectID, Summary_RevisionID, Summary_ConfigHash, ManifestHash,
  Summary_NodeCount, Summary_EdgeCount).
Import VersionGate(CandidateContext, CandidateContext_Valid, Candidate_RevisionID, Candidate_ConfigHash, ReleasePolicy, Pass, Block, Unavailable, Stale).
Import ReleaseTypes(GraphActivationRequest, GraphActivationRequest_Valid, GraphActivationEvidence, Evidence_Matches,
  Activation_ProjectID, Activation_RevisionID, Activation_ConfigHash, Activation_IntentID).
Open Scope Z_scope.

(** ** descriptor.go *)
Definition CapabilityID : string := "eco.graph.snapshot".
Definition GateID : string := "eco.graph.snapshot.ready".
Definition ContractVersion : string := "1".
Definition ImplementationVersion : string := "graph-gate-v1".
Definition Provider_Descriptor : VersionGate.Descriptor :=
  VersionGate.mkDescriptor CapabilityID GateID ContractVersion ImplementationVersion
    ["revision_id"; "config_hash"; "version_manifest_hash"; "projection_schema_version"; "projector_version"; "graph_manifest_hash";
     "node_count"; "edge_count"; "provider_api_version"; "provider_schema_version"; "provider_capabilities"; "graph_sync_result_identity"]%string
    [Pass; VersionGate.Warning; Block; Unavailable; Stale] false.

(** ** The provider's activation *)
Record SnapshotActivation := mkSnapshotActivation { Activation_Namespace : string; ActiveVersion : string; Activation_Changed : bool }.
Class GraphActivator (P : Type) := {
  activator_provider :: GraphProvider P;
  ActivateSnapshot : string -> string -> string -> P -> result SnapshotActivation ProviderFailure * P
}.

Definition summary_expectation (s : ProjectionSummary) : SnapshotExpectation :=
  mkExpectation (Summary_ProjectID s) (Summary_RevisionID s) (ManifestHash s) (Summary_NodeCount s) (Summary_EdgeCount s).

Section gate.
Context {P : Type} `{GraphActivator P, UnicodeTables, UuidLib}.

(** ** evaluator.go *)
Record EvaluationRequest := mkEvaluationRequest {
  Eval_Candidate : CandidateContext; Eval_Summary : ProjectionSummary; Eval_State : SyncState; Eval_Job : option GraphJob; Eval_RequestID : string
}.
Record Evaluation := mkEvaluation {
  Evaluated : VersionGate.ResultState; Eval_Evidence : list VersionGate.Evidence; Eval_Warnings : list string; Eval_Reasons : list string
}.
Definition refused (state : VersionGate.ResultState) (reasons : list string) : Evaluation := mkEvaluation state [] [] reasons.
(** The local identities agree: the candidate, its summary, its synchronisation and the job that settled it. *)
Definition same_identity (r : EvaluationRequest) : bool :=
  let candidate := Eval_Candidate r in let summary := Eval_Summary r in let state := Eval_State r in
  bool_decide (Candidate_RevisionID candidate = Summary_RevisionID summary) &&
  bool_decide (Candidate_ConfigHash candidate = Summary_ConfigHash summary) &&
  bool_decide (Sync_RevisionID state = Summary_RevisionID summary) && bool_decide (Pipeline state = StateReady) &&
  negb (bool_decide (LatestJobID state = EmptyString)) &&
  match Eval_Job r with
  | None => false
  | Some job =>
      bool_decide (GJob_ID job = LatestJobID state) && bool_decide (GJob_RevisionID job = Candidate_RevisionID candidate) &&
      bool_decide (GJob_InputHash job = Candidate_ConfigHash candidate) && bool_decide (GJob_Status job = Succeeded)
  end.
Definition stale_reasons : list string := ["SNAPSHOT_IDENTITY_MISMATCH"; "CONTENT_HASH_MISMATCH"; "SNAPSHOT_COUNT_MISMATCH"]%string.
Definition Evaluate (r : EvaluationRequest) (p : P) : Evaluation * P :=
  let summary := Eval_Summary r in
  if negb (CandidateContext_Valid (Eval_Candidate r)) || negb (ProjectionSummary_Valid summary) || bool_decide (Eval_RequestID r = EmptyString)
  then (refused Unavailable ["GRAPH_GATE_INPUT_UNAVAILABLE"%string], p)
  else if negb (same_identity r) then (refused Stale ["LOCAL_GRAPH_IDENTITY_MISMATCH"%string], p)
  else
    match InspectSnapshot (Summary_ProjectID summary) (Summary_RevisionID summary) (Eval_RequestID r) p with
    | (Err _, p) => (refused Unavailable ["PROVIDER_SNAPSHOT_UNAVAILABLE"%string], p)
    | (Ok snapshot, p) =>
        let verification := VerifySnapshot (summary_expectation summary) snapshot in
        if negb (Verified_Ready verification) then
          (refused (if existsb (fun reason => among reason stale_reasons) (Verified_Reasons verification) then Stale else Block)
             (Verified_Reasons verification), p)
        else
          (mkEvaluation Pass
             [VersionGate.mkEvidence ("graph-summary:" +:+ Summary_RevisionID summary) (ManifestHash summary) "";
              VersionGate.mkEvidence ("provider-snapshot:" +:+ Summary_ProjectID summary +:+ ":" +:+ Summary_RevisionID summary) (Snap_ContentHash snapshot) ""]
             (Verified_Warnings verification) [], p)
    end%string.

(** ** bootstrap/release_gate_results.go *)
(** [id] is what [domain.NewID] returns, empty when it fails. *)
Definition newGateResult (id : ID) (candidate : CandidateContext) (policy : ReleasePolicy) (descriptor : VersionGate.Descriptor)
    (state : VersionGate.ResultState) (evidence : list VersionGate.Evidence) (resultHash : string) : VersionGate.Result :=
  let hash :=
    if string_len resultHash =? 64 then resultHash
    else sha256_hex (ReleaseRuntime.state_text state +:+ VersionGate.separator +:+ VersionGate.Descriptor_CapabilityID descriptor +:+ VersionGate.separator +:+
                     VersionGate.Descriptor_GateID descriptor +:+ VersionGate.separator +:+ Candidate_RevisionID candidate +:+ VersionGate.separator +:+
                     VersionGate.CanonicalHash policy)%string in
  VersionGate.mkResult id descriptor state evidence hash
    (VersionGate.mkContext candidate (VersionGate.CanonicalHash policy) "" "" ""
       {[VersionGate.Descriptor_CapabilityID descriptor := VersionGate.Descriptor_ImplementationVersion descriptor]}).
(** What [graphResult] hands to [newGateResult]. *)
Definition graph_verdict (d : GraphDb) (candidate : CandidateContext) (p : P) : VersionGate.ResultState * list VersionGate.Evidence * string * P :=
  let revision := Candidate_RevisionID candidate in
  let unavailable := (Unavailable, [], EmptyString, p) in
  match GraphProjectionSummary d revision with
  | Ok (Some summary) =>
      match GetGraphSyncState d revision with
      | Ok (Some state) =>
          if negb (ID_Valid (LatestJobID state)) then unavailable
          else match GetGraphJob d (LatestJobID state) with
               | Err _ => unavailable
               | Ok job =>
                   let '(evaluation, p) :=
                     Evaluate (mkEvaluationRequest candidate summary state (Some job) ("release-graph-gate-" +:+ revision)%string) p in
                   (Evaluated evaluation, Eval_Evidence evaluation, ManifestHash summary, p)
               end
      | _ => unavailable
      end
  | _ => unavailable
  end.
Definition graphResult (d : GraphDb) (id : ID) (candidate : CandidateContext) (policy : ReleasePolicy) (descriptor : VersionGate.Descriptor) (p : P) :
    VersionGate.Result * P :=
  let '(state, evidence, hash, p) := graph_verdict d candidate p in
  (newGateResult id candidate policy descriptor state evidence hash, p).

(** ** activation.go *)
Definition ErrActivationInvalid : string := "graph activation candidate is not ready".
Definition matching_summary (d : GraphDb) (request : GraphActivationRequest) : option ProjectionSummary :=
  match GraphProjectionSummary d (Activation_RevisionID request) with
  | Ok (Some s) =>
      if ProjectionSummary_Valid s && bool_decide (Summary_ProjectID s = Activation_ProjectID request) &&
         bool_decide (Summary_RevisionID s = Activation_RevisionID request) && bool_decide (Summary_ConfigHash s = Activation_ConfigHash request)
      then Some s else None
  | _ => None
  end.
Definition Activate (d : GraphDb) (request : GraphActivationRequest) (p : P) : result GraphActivationEvidence string * P :=
  let invalid := Err ErrActivationInvalid in
  if negb (GraphActivationRequest_Valid request) then (invalid, p)
  else
    match matching_summary d request with
    | None => (invalid, p)
    | Some summary =>
        match InspectSnapshot (Summary_ProjectID summary) (Summary_RevisionID summary) (Activation_IntentID request) p with
        | (Err _, p) => (invalid, p)
        | (Ok snapshot, p) =>
            if negb (Verified_Ready (VerifySnapshot (summary_expectation summary) snapshot)) then (invalid, p)
            else
              match ActivateSnapshot (Summary_ProjectID summary) (Summary_RevisionID summary) (Activation_IntentID request) p with
              | (Err _, p) => (invalid, p)
              | (Ok activation, p) =>
                  if negb (bool_decide (Activation_Namespace activation = Summary_ProjectID summary)) ||
                     negb (bool_decide (ActiveVersion activation = Summary_RevisionID summary))
                  then (invalid, p)
                  else (Ok (ReleaseTypes.mkEvidence (Activation_Changed activation) (Activation_ProjectID request) (Activation_RevisionID request)
                              (Activation_ConfigHash request) (Activation_IntentID request) (Snap_TaskID snapshot)), p)
              end
        end
    end.
End gate.

(** ** Facts *)
Section facts.
Context {P : Type} `{GraphActivator P, UnicodeTables, ApdLib, UuidLib, FloatText, TimeText}.

(** One summary of a revision is stored when the read returns it. *)
Lemma GraphProjectionSummary_unique d id s schema version row :
  GraphProjectionSummary d id = Ok (Some s) -> summaries d !! (id, schema, version) = Some row -> Stored_Summary row = s.
Proof.
  unfold GraphProjectionSummary. destruct (ID_Valid id); [|done]. simpl. intros Hg Hrow.
  assert (((id, schema, version), row) ∈
    List.filter (fun entry : (ID * string * string) * SummaryRow => bool_decide (entry.1.1.1 = id)) (map_to_list (summaries d))) as Hin.
  { apply list_elem_of_In, List.filter_In. split; [apply list_elem_of_In, elem_of_map_to_list; exact Hrow|]. by apply bool_decide_eq_true_2. }
  destruct (List.filter _ _) as [|[k r] [|]]; try done. apply list_elem_of_singleton in Hin as [= <- <-].
  destruct (ProjectionSummary_Valid _); simpl in Hg; congruence.
Qed.

Lemma GetGraphSyncState_Some d id s : GetGraphSyncState d id = Ok (Some s) -> exists t, sync_states d !! id = Some (s, t).
Proof.
  unfold GetGraphSyncState. case_guard; [done|]. destruct (sync_states d !! id) as [[s' t]|]; [|done]. unfold scan_state.
  destruct (Sync_Valid s'); [|done]. simpl. intros [= ->]. by exists t.
Qed.
Lemma summary_valid d id s : GraphProjectionSummary d id = Ok (Some s) -> ProjectionSummary_Valid s = true.
Proof.
  unfold GraphProjectionSummary. case_guard; [done|]. destruct (List.filter _ _) as [|[k row] [|]]; try done.
  case_guard as Hv; [done|]. intros [= <-]. by apply negb_false_iff in Hv.
Qed.
Lemma valid_summary s : ProjectionSummary_Valid s = true -> valid_expectation (summary_expectation s).
Proof.
  unfold ProjectionSummary_Valid, GraphProjector.validHash. intros Hv. bool_to_prop. destruct_and? Hv. by split_and!.
Qed.
Lemma summary_hash d id s : GraphProjectionSummary d id = Ok (Some s) -> (string_len (ManifestHash s) =? 64) = true.
Proof.
  intros Hs%summary_valid%valid_summary. destruct Hs as (_ & _ & Hh & _). by apply andb_true_iff in Hh as [Hh _].
Qed.
Lemma graph_verdict_hash d candidate (p p' : P) evidence hash :
  graph_verdict d candidate p = (Pass, evidence, hash, p') ->
  exists s, GraphProjectionSummary d (Candidate_RevisionID candidate) = Ok (Some s) /\ hash = ManifestHash s.
Proof.
  unfold graph_verdict. destruct (GraphProjectionSummary d _) as [[summary|]|]; [|done..].
  destruct (GetGraphSyncState d _) as [[state|]|]; [|done..]. case_guard; [done|].
  destruct (GetGraphJob d _); [|done]. destruct (Evaluate _ p) as [e q]. intros [= _ _ <- _]. by exists summary.
Qed.

(** A passing evaluation, taken apart. *)
Lemma Evaluate_pass r (p p' : P) e :
  Evaluate r p = (e, p') -> Evaluated e = Pass ->
  same_identity r = true /\ CandidateContext_Valid (Eval_Candidate r) = true /\ ProjectionSummary_Valid (Eval_Summary r) = true /\
  exists snapshot,
    InspectSnapshot (Summary_ProjectID (Eval_Summary r)) (Summary_RevisionID (Eval_Summary r)) (Eval_RequestID r) p = (Ok snapshot, p') /\
    exact_snapshot (summary_expectation (Eval_Summary r)) snapshot.
Proof.
  unfold Evaluate. case_guard as Hg; [by intros [= <- <-]|]. case_guard as Hs; [by intros [= <- <-]|].
  apply orb_false_elim in Hg as [[Hc Hv]%orb_false_elim _]. apply negb_false_iff in Hc, Hv, Hs.
  destruct (InspectSnapshot _ _ _ p) as [[snapshot|f] q]; [|by intros [= <- <-]].
  case_guard as Hr; [intros [= <- <-]; simpl; by destruct existsb|]. apply negb_false_iff in Hr.
  intros [= <- <-] _. split_and!; try done. exists snapshot. split; [done|]. exact (proj2 (proj1 (VerifySnapshot_ready _ _) Hr)).
Qed.

Section passing.
Context (svc : EntityStore.Service).

(** A candidate passes the Graph gate only when its database and its provider
    both hold it. *)
Record current_graph (d : GraphDb) (candidate : CandidateContext) (summary : ProjectionSummary) (snapshot : Snapshot) : Prop := {
  current_summary : GraphProjectionSummary d (Candidate_RevisionID candidate) = Ok (Some summary);
  current_revision : Summary_RevisionID summary = Candidate_RevisionID candidate;
  current_config : Summary_ConfigHash summary = Candidate_ConfigHash candidate;
  current_state : exists state t, sync_states d !! Candidate_RevisionID candidate = Some (state, t) /\ Pipeline state = StateReady /\
    commit_evidence d (Candidate_RevisionID candidate) (LatestJobID state) (ManifestHash summary);
  current_snapshot : exact_snapshot (summary_expectation summary) snapshot
}.

Lemma graph_verdict_pass d candidate (p p' : P) evidence hash :
  graph_ok d -> graph_verdict d candidate p = (Pass, evidence, hash, p') ->
  exists summary snapshot, current_graph d candidate summary snapshot /\ CandidateContext_Valid candidate = true /\
    InspectSnapshot (Summary_ProjectID summary) (Candidate_RevisionID candidate) ("release-graph-gate-" +:+ Candidate_RevisionID candidate)%string p =
      (Ok snapshot, p').
Proof.
  intros Hok. unfold graph_verdict. destruct (GraphProjectionSummary d _) as [[summary|]|] eqn:Hs; [|done..].
  destruct (GetGraphSyncState d _) as [[state|]|] eqn:Hst; [|done..]. destruct (ID_Valid (LatestJobID state)); [|done]. simpl.
  destruct (GetGraphJob d _) as [job|] eqn:Hj; [|done]. destruct (Evaluate _ p) as [e q] eqn:He. intros [= Hp <- <- <-].
  apply Evaluate_pass in He as (Hsame & Hc & Hv & snapshot & Hi & Hx); [|done]. simpl in *.
  unfold same_identity in Hsame. simpl in Hsame. bool_to_prop. destruct_and? Hsame.
  rename select (Pipeline _ = _) into Hready. rename select (Candidate_RevisionID _ = _) into Hid.
  exists summary, snapshot. split_and!; [|exact Hc|rewrite <- Hid in Hi; exact Hi]. split; [exact Hs|by symmetry|by symmetry| |exact Hx].
  apply GetGraphSyncState_Some in Hst as [t Hst]. exists state, t. split_and!; [done..|].
  destruct (state_ready _ _ _ (ok_states _ Hok _ _ _ Hst) Hready) as [h Hev]. destruct (proj1 (proj2 Hev)) as (schema & version & row & Hrow & Hh).
  rewrite (GraphProjectionSummary_unique _ _ _ _ _ _ Hs Hrow) in Hh. by subst h.
Qed.

(** C16: A Graph gate result passes only where the database and the provider agree on the candidate: in a reachable
    database its synchronisation is Ready with a succeeded job, an impact handoff and the one stored summary of the
    candidate's own configuration, and the provider, asked in the same evaluation, shows that exact snapshot, ready to be
    queried.  The result is valid evidence for that candidate and policy and carries the snapshot's hash. *)
Theorem graph_gate_is_current d id candidate policy descriptor (p : P) :
  reachable_graph svc d -> VersionGate.State (graphResult d id candidate policy descriptor p).1 = Pass ->
  exists summary snapshot,
    current_graph d candidate summary snapshot /\
    InspectSnapshot (Summary_ProjectID summary) (Candidate_RevisionID candidate) ("release-graph-gate-" +:+ Candidate_RevisionID candidate)%string p =
      (Ok snapshot, (graphResult d id candidate policy descriptor p).2) /\
    VersionGate.ResultHash (graphResult d id candidate policy descriptor p).1 = Snap_ContentHash snapshot /\
    VersionGate.Candidate (VersionGate.Context_ (graphResult d id candidate policy descriptor p).1) = candidate.
Proof.
  intros Hr Hp. apply reachable_graph_ok in Hr. unfold graphResult in *.
  destruct (graph_verdict d candidate p) as [[[state evidence] hash] q] eqn:Hv. simpl in Hp |- *. subst state.
  pose proof (graph_verdict_hash _ _ _ _ _ _ Hv) as (s & Hs & Hhash).
  apply graph_verdict_pass in Hv as (summary & snapshot & Hc & _ & Hi); [|done]. exists summary, snapshot. split_and!; try done.
  pose proof (current_summary _ _ _ _ Hc) as Hs'. rewrite Hs in Hs'. injection Hs' as ->. subst hash.
  destruct (current_snapshot _ _ _ _ Hc) as [_ Hx _ _ _]. simpl in Hx. rewrite Hx. apply summary_hash in Hs. by rewrite Hs.
Qed.
End passing.

Lemma matching_summary_Some d request s :
  matching_summary d request = Some s <->
  GraphProjectionSummary d (Activation_RevisionID request) = Ok (Some s) /\ ProjectionSummary_Valid s = true /\
  Summary_ProjectID s = Activation_ProjectID request /\ Summary_RevisionID s = Activation_RevisionID request /\
  Summary_ConfigHash s = Activation_ConfigHash request.
Proof.
  unfold matching_summary. destruct (GraphProjectionSummary d _) as [[s'|]|]; [|naive_solver..].
  case_guard as Hg; [|split; [done|]].
  - bool_to_prop. destruct_and? Hg. naive_solver.
  - intros ([= ->] & Hv & Hp & Hr & Hc). by rewrite Hv, !bool_decide_true in Hg.
Qed.

(** An activation succeeds only on the candidate's own snapshot: the evidence answers the request, the stored summary
    is of the requested project, revision and configuration, the provider showed exactly that snapshot, ready, under the
    same intent, and its next answer confirms that this version of the project is the active one. *)
Theorem activation_is_certified d request (p p' : P) evidence :
  Activate d request p = (Ok evidence, p') ->
  Evidence_Matches evidence request = true /\
  exists summary snapshot q activation,
    matching_summary d request = Some summary /\
    InspectSnapshot (Activation_ProjectID request) (Activation_RevisionID request) (Activation_IntentID request) p = (Ok snapshot, q) /\
    exact_snapshot (summary_expectation summary) snapshot /\ ReleaseTypes.TaskID evidence = Snap_TaskID snapshot /\
    ActivateSnapshot (Activation_ProjectID request) (Activation_RevisionID request) (Activation_IntentID request) q = (Ok activation, p') /\
    Activation_Namespace activation = Activation_ProjectID request /\ ActiveVersion activation = Activation_RevisionID request.
Proof.
  unfold Activate. case_guard; [done|]. destruct (matching_summary d request) as [s|] eqn:Hm; [|done].
  apply matching_summary_Some in Hm as (_ & _ & Hp & Hr & _). rewrite Hp, Hr.
  destruct (InspectSnapshot _ _ _ p) as [[snapshot|] q]; [|done]. case_guard as Hx; [done|]. apply negb_false_iff, VerifySnapshot_ready in Hx as [_ Hx].
  destruct (ActivateSnapshot _ _ _ q) as [[a|] q'] eqn:Ha; [|done]. case_guard as Hg; [done|].
  intros [= <- <-]. apply orb_false_elim in Hg as [Hn Hv]. bool_to_prop.
  split; [unfold Evidence_Matches; simpl; by rewrite !bool_decide_true|]. by exists s, snapshot, q, a.
Qed.

(** C17: Activating a candidate that passed the Graph gate answers what the provider answers: take a valid request for
    that candidate, at any later time when the one stored summary is still the gate's and is of the requested project, and
    the provider shows for the activation's inspection the snapshot it showed the gate.  Then nothing of the service stands
    in the way: it makes the one activation request, and if the answer names the requested project and revision the
    evidence carries the provider's own "changed" and the snapshot's task; any other answer is an invalid activation. *)
Theorem passed_gate_activates svc d later id candidate policy descriptor request (p p2 : P) :
  reachable_graph svc d -> VersionGate.State (graphResult d id candidate policy descriptor p).1 = Pass ->
  GraphActivationRequest_Valid request = true -> Activation_RevisionID request = Candidate_RevisionID candidate ->
  Activation_ConfigHash request = Candidate_ConfigHash candidate ->
  GraphProjectionSummary later (Activation_RevisionID request) = GraphProjectionSummary d (Activation_RevisionID request) ->
  (forall s, GraphProjectionSummary d (Activation_RevisionID request) = Ok (Some s) -> Summary_ProjectID s = Activation_ProjectID request) ->
  let inspect intent := InspectSnapshot (Activation_ProjectID request) (Activation_RevisionID request) intent in
  let shown := inspect (Activation_IntentID request) p2 in
  shown.1 = (inspect ("release-graph-gate-" +:+ Candidate_RevisionID candidate)%string p).1 ->
  let answered := ActivateSnapshot (Activation_ProjectID request) (Activation_RevisionID request) (Activation_IntentID request) shown.2 in
  exists snapshot, shown.1 = Ok snapshot /\
    Activate later request p2 =
      (match answered.1 with
       | Ok a =>
           if decide (Activation_Namespace a = Activation_ProjectID request /\ ActiveVersion a = Activation_RevisionID request)
           then Ok (ReleaseTypes.mkEvidence (Activation_Changed a) (Activation_ProjectID request) (Activation_RevisionID request)
                      (Activation_ConfigHash request) (Activation_IntentID request) (Snap_TaskID snapshot))
           else Err ErrActivationInvalid
       | Err _ => Err ErrActivationInvalid
       end, answered.2).
Proof.
  intros Hr%reachable_graph_ok Hpass Hvalid Hrev Hhash Hlater Hproject inspect shown Hshown answered. unfold graphResult in Hpass.
  destruct (graph_verdict d candidate p) as [[[state evidence] hash] q] eqn:Hv. simpl in Hpass. subst state.
  apply graph_verdict_pass in Hv as (s & snapshot & [Hs Hsr Hsc _ Hx] & _ & Hi); [|done].
  assert (ProjectionSummary_Valid s = true) as Hsv by (by eapply summary_valid).
  rewrite <- Hrev in Hs. assert (matching_summary later request = Some s) as Hm.
  { apply matching_summary_Some. rewrite Hlater. split_and!; [done|done|by apply Hproject|congruence|congruence]. }
  exists snapshot. rewrite (Hproject s Hs), <- Hrev in Hi. unfold inspect in Hshown. rewrite <- Hrev, Hi in Hshown. split; [exact Hshown|].
  unfold Activate. rewrite Hvalid, Hm, (Hproject s Hs), Hsr, <- Hrev. cbn [negb].
  fold (inspect (Activation_IntentID request) p2). fold shown. unfold answered. destruct shown as [r q2]. cbn [fst snd] in *. rewrite Hshown.
  assert (Verified_Ready (VerifySnapshot (summary_expectation s) snapshot) = true) as ->.
  { apply VerifySnapshot_ready. split; [by apply valid_summary|done]. }
  cbn [negb]. destruct (ActivateSnapshot _ _ _ q2) as [[a|e] q3]; cbn [fst snd]; [|done].
  case_guard as Hg; bool_to_prop.
  - rewrite decide_False; [done|]. intros [Hn Hv]. by rewrite !bool_decide_true in Hg.
  - rewrite decide_True; [done|]. destruct_and? Hg. done.
Qed.
End facts.
