(* ===== verification/GraphGateExamples.v ===== *)
(** * The Graph gate and activation of a synchronised revision, evaluated

    The simulated provider of GraphExamples, which after the evaluated run holds
    the snapshot of the revision, and activates what it holds. *)
From S2P Require Import Prelude GoSort GoStrings GoCrypto GoJson GoFloat Domain JobStore FormulaDecimal DomainEntity.
From S2P Require EntityStore EntityRuns VersionGate ReleaseTypes GraphProjection.
From S2P Require Import ValidationTypes Job GraphSync GraphStore GraphServices GraphHistory GraphRuntime GraphExamples GraphGate.
Open Scope Z_scope.

Module GateExamples.
Import GraphExamples.
Local Existing Instance canonical_uuid.
Local Existing Instance latin1_tables.
Local Existing Instance integer_apd.
Local Existing Instance EntityRuns.StoreExamples.text_floats.
Local Existing Instance EntityRuns.StoreExamples.text_times.

#[local] Instance sim_activator : GraphActivator Sim := {|
  activator_provider := sim_provider;
  ActivateSnapshot := fun ns v _ p =>
    match held p with
    | Some (ns', v', _) => if bool_decide (ns = ns') && bool_decide (v = v') then (Ok (mkSnapshotActivation ns v true), p) else (Err (missing "SNAPSHOT_NOT_FOUND"), p)
    | None => (Err (missing "SNAPSHOT_NOT_FOUND"), p)
    end
|}.
Definition candidate : VersionGate.CandidateContext := VersionGate.mkCandidate revision config_hash config_hash (uuid "77") "".
Definition policy : VersionGate.ReleasePolicy :=
  VersionGate.mkPolicy (VersionGate.mkDefinition [] 0 "" false []) (uuid "77") 1 config_hash 1.
Definition gate := graphResult (db w2) (uuid "88") candidate policy Provider_Descriptor (provider w2).
Definition activation_request : ReleaseTypes.GraphActivationRequest := ReleaseTypes.mkActivation project revision config_hash (uuid "99").
Definition activated := Activate (db w2) activation_request (provider w2).

(** The gate before the run, after it, and after the provider lost the snapshot. *)
Example gate_states :
  (VersionGate.State (graphResult (db w1) (uuid "88") candidate policy Provider_Descriptor (provider w1)).1, VersionGate.State gate.1,
   VersionGate.State (graphResult (db w2) (uuid "88") candidate policy Provider_Descriptor (mkSim None 0)).1) =
  (VersionGate.Unavailable, VersionGate.Pass, VersionGate.Unavailable).
Proof. computed. Qed.

Lemma graph_gate_is_current_witness :
  VersionGate.State gate.1 = VersionGate.Pass /\
  exists summary snapshot, current_graph (db w2) candidate summary snapshot /\ VersionGate.ResultHash gate.1 = Snap_ContentHash snapshot.
Proof.
  assert (VersionGate.State gate.1 = VersionGate.Pass) as Hp by computed. split; [exact Hp|].
  destruct (graph_gate_is_current service (db w2) (uuid "88") candidate policy Provider_Descriptor (provider w2) reached_ran Hp)
    as (summary & snapshot & Hc & _ & Hh & _).
  exists summary, snapshot. split; [exact Hc|exact Hh].
Defined.
Lemma activation_is_certified_witness :
  exists evidence, activated.1 = Ok evidence /\ ReleaseTypes.Evidence_Matches evidence activation_request = true.
Proof.
  assert (exists evidence, activated = (Ok evidence, provider w2)) as [evidence He] by (eexists; computed).
  exists evidence. split; [rewrite He; reflexivity|].
  exact (proj1 (activation_is_certified (db w2) activation_request (provider w2) (provider w2) evidence He)).
Defined.
(** Later the provider has answered other requests, and still holds the snapshot. *)
Definition provider_later : Sim := match provider w2 with mkSim h n => mkSim h (n + 7) end.
Lemma passed_gate_activates_witness :
  exists snapshot, Activate (db w2) activation_request provider_later =
    (Ok (ReleaseTypes.mkEvidence true project revision config_hash (uuid "99") (Snap_TaskID snapshot)), provider_later).
Proof.
  assert (VersionGate.State gate.1 = VersionGate.Pass) as Hp by computed.
  assert (forall s, GraphProjectionSummary (db w2) revision = Ok (Some s) -> GraphProjector.Summary_ProjectID s = project) as Hs.
  { intros s E. assert (exists s', GraphProjectionSummary (db w2) revision = Ok (Some s') /\ GraphProjector.Summary_ProjectID s' = project) as (s' & E' & Hs')
      by (eexists; split; [computed|reflexivity]). rewrite E in E'. injection E' as ->. exact Hs'. }
  destruct (passed_gate_activates service (db w2) (db w2) (uuid "88") candidate policy Provider_Descriptor activation_request (provider w2)
    provider_later reached_ran Hp eq_refl eq_refl eq_refl eq_refl Hs) as (snapshot & _ & Ha); [computed|].
  exists snapshot. rewrite Ha.
  assert (ActivateSnapshot project revision (uuid "99") (InspectSnapshot project revision (uuid "99") provider_later).2 =
    (Ok (mkSnapshotActivation project revision true), provider_later)) as Hanswer by computed.
  cbn [activation_request ReleaseTypes.Activation_ProjectID
       ReleaseTypes.Activation_RevisionID ReleaseTypes.Activation_IntentID ReleaseTypes.Activation_ConfigHash].
  rewrite Hanswer. cbn [fst snd]. rewrite decide_True; [reflexivity|split; reflexivity].
Defined.
End GateExamples.
