(* ===== verification/ImpactPlan.v ===== *)
(** * internal/graph/impact: the input of an impact analysis, and what changed

    types.go, planner/normalize.go, planner/changed.go, planner/admission.go and
    report/canonical.go.  An analysis compares two revisions: the planner admits
    the pair, normalises the options and hashes them, and lists the changed
    entities from which the dependency graph is searched. *)
From S2P Require Import Prelude GoSort GoStrings GoCrypto GoJson GoFloat Domain FormulaDecimal DomainEntity VersionDiff.
From S2P Require VersionGate ReleasePreflight.
From S2P Require Import GraphProjector GraphText GraphProjection ValidationTypes GraphSync GraphGate.
Open Scope Z_scope.

(** ** types.go *)
Definition AnalysisContractVersion : string := "dependency-impact-v1".
Inductive Direction := DirectionIncoming | DirectionOutgoing | DirectionBoth | DirectionOther (spelling : string).
#[global] Instance Direction_eq_dec : EqDecision Direction.
Proof. solve_decision. Defined.
Definition Direction_text (d : Direction) : string :=
  match d with DirectionIncoming => "incoming" | DirectionOutgoing => "outgoing" | DirectionBoth => "both" | DirectionOther s => s end.
Definition Direction_Valid (d : Direction) : bool := match d with DirectionOther _ => false | _ => true end.
Definition ValidHash (value : string) : bool := hash_shape value.

Record RevisionIdentity := mkIdentity {
  Identity_RevisionID : ID; Identity_ConfigHash : string; VersionManifestHash : string; GraphManifestHash : string;
  GraphNodeCount : Z; GraphEdgeCount : Z
}.
#[global] Instance RevisionIdentity_eq_dec : EqDecision RevisionIdentity.
Proof. solve_decision. Defined.
Definition RevisionIdentity_Valid `{UuidLib} (i : RevisionIdentity) : bool :=
  ID_Valid (Identity_RevisionID i) && ValidHash (Identity_ConfigHash i) && ValidHash (VersionManifestHash i) &&
  ValidHash (GraphManifestHash i) && (0 <=? GraphNodeCount i) && (0 <=? GraphEdgeCount i).
Record Filters := mkFilters {
  RelationshipKinds : list string; NodeTypes : list string; EdgeTypes : list string; Filters_Direction : Direction
}.
#[global] Instance Filters_eq_dec : EqDecision Filters.
Proof. solve_decision. Defined.
Record Limits := mkLimits { MaxDepth : Z; MaxNodes : Z; DefaultPathsPerTarget : Z; ExpandedMaxPaths : Z }.
#[global] Instance Limits_eq_dec : EqDecision Limits.
Proof. solve_decision. Defined.
Record SuspectedOptions := mkSuspected { Suspected_Enabled : bool; MaxSeeds : Z; MaxResults : Z; GraphMaxDepth : Z }.
#[global] Instance SuspectedOptions_eq_dec : EqDecision SuspectedOptions.
Proof. solve_decision. Defined.
Record Command := mkCommand {
  Command_ProjectID : ID; Command_BaseRevisionID : ID; Command_TargetRevisionID : ID; Command_Filters : Filters;
  Command_Limits : Limits; Command_Suspected : SuspectedOptions
}.
Record Input := mkInput {
  Input_ProjectID : ID; Input_Base : RevisionIdentity; Input_Target : RevisionIdentity; ContractVersion : string;
  Input_Filters : Filters; Input_Limits : Limits; Suspected : SuspectedOptions
}.
#[global] Instance Input_eq_dec : EqDecision Input.
Proof. solve_decision. Defined.
Record ChangedEntity := mkChanged {
  Changed_EntityID : ID; Changed_Kind : EntityKind; Changed_ChangeKind : ChangeKind; FieldPaths : list string;
  TargetNodeID : string; QueryEligible : bool; Ineligibility : string
}.

(** ** planner/normalize.go *)
Inductive PlanError :=
  | ErrInvalidInput | ErrLimitExceeded | ErrInvalidRevisionPair | ErrGraphNotReady | ErrGraphIdentity | ErrValidationRequired
  | ErrNoBaseline | ErrBaseline (e : string).
(** A set of strings as the code builds it: first occurrences, sorted. *)
Definition string_set (values : list string) : list string := sort_strings (remove_dups values).
Definition canonical_element (value : string) : bool :=
  negb (bool_decide (value = EmptyString)) && bool_decide (value = TrimSpace value).
Definition normalizeSet (values : list string) : list string := string_set (List.filter canonical_element values).
Definition validRawSet (values : list string) : bool := forallb canonical_element values.
Definition entity_kinds : list EntityKind := [KindAttribute; KindTag; KindCharacter; KindSkill; KindItem; KindEffect].
Definition validNodeTypes (values : list string) : bool := forallb (fun v => among v (EntityKind_text <$> entity_kinds)) values.
Definition validEdgeTypes (values : list string) : bool :=
  forallb (fun v => among v ((fun r => RelationToken_text (Token r)) <$> V1Relations)) values.

(** [json.Marshal] of a normalised input, whose slices are never nil. *)
Definition strings_json (l : list string) : string := marshal_array (marshal_string <$> l).
Definition bool_json (b : bool) : string := if b then "true" else "false".
Definition identity_json (i : RevisionIdentity) : string :=
  marshal_struct [("revision_id", marshal_string (Identity_RevisionID i)); ("config_hash", marshal_string (Identity_ConfigHash i));
                  ("version_manifest_hash", marshal_string (VersionManifestHash i)); ("graph_manifest_hash", marshal_string (GraphManifestHash i));
                  ("graph_node_count", Itoa (GraphNodeCount i)); ("graph_edge_count", Itoa (GraphEdgeCount i))]%string.
Definition filters_json (f : Filters) : string :=
  marshal_struct [("relationship_kinds", strings_json (RelationshipKinds f)); ("node_types", strings_json (NodeTypes f));
                  ("edge_types", strings_json (EdgeTypes f)); ("direction", marshal_string (Direction_text (Filters_Direction f)))]%string.
Definition limits_json (l : Limits) : string :=
  marshal_struct [("max_depth", Itoa (MaxDepth l)); ("max_nodes", Itoa (MaxNodes l));
                  ("default_paths_per_target", Itoa (DefaultPathsPerTarget l)); ("expanded_max_paths", Itoa (ExpandedMaxPaths l))]%string.
Definition suspected_json (s : SuspectedOptions) : string :=
  marshal_struct [("enabled", bool_json (Suspected_Enabled s)); ("max_seeds", Itoa (MaxSeeds s)); ("max_results", Itoa (MaxResults s));
                  ("graph_max_depth", Itoa (GraphMaxDepth s))]%string.
Definition input_json (i : Input) : string :=
  marshal_struct [("project_uuid", marshal_string (Input_ProjectID i)); ("base", identity_json (Input_Base i));
                  ("target", identity_json (Input_Target i)); ("analysis_contract_version", marshal_string (ContractVersion i));
                  ("filters", filters_json (Input_Filters i)); ("limits", limits_json (Input_Limits i));
                  ("suspected", suspected_json (Suspected i))]%string.

Section plan.
Context `{UuidLib}.

Definition plan_guard (b : bool) (e : PlanError) : result unit PlanError := if b then Ok tt else Err e.
Definition or_default (value def : Z) : Z := if value =? 0 then def else value.
Definition within (low value high : Z) : bool := (low <=? value) && (value <=? high).
Definition normalize_filters (f : Filters) : result Filters PlanError :=
  let? _ := plan_guard (validRawSet (RelationshipKinds f) && validRawSet (NodeTypes f) && validRawSet (EdgeTypes f)) ErrInvalidInput in
  let kinds := normalizeSet (RelationshipKinds f) in
  let kinds := if bool_decide (kinds = []) then ["explicit"%string] else kinds in
  let? _ := plan_guard (bool_decide (kinds = ["explicit"%string])) ErrInvalidInput in
  let direction := if bool_decide (Direction_text (Filters_Direction f) = EmptyString) then DirectionIncoming else Filters_Direction f in
  let normal := mkFilters kinds (normalizeSet (NodeTypes f)) (normalizeSet (EdgeTypes f)) direction in
  let? _ := plan_guard (Direction_Valid direction && validNodeTypes (NodeTypes normal) && validEdgeTypes (EdgeTypes normal)) ErrInvalidInput in
  Ok normal.
Definition normalize_limits (l : Limits) : result Limits PlanError :=
  let l := mkLimits (or_default (MaxDepth l) 3) (or_default (MaxNodes l) 500) (or_default (DefaultPathsPerTarget l) 1)
             (or_default (ExpandedMaxPaths l) 20) in
  let? _ := plan_guard ((1 <=? MaxDepth l) && (1 <=? MaxNodes l) && (DefaultPathsPerTarget l =? 1) && (1 <=? ExpandedMaxPaths l)) ErrInvalidInput in
  let? _ := plan_guard ((MaxDepth l <=? 6) && (MaxNodes l <=? 500) && (ExpandedMaxPaths l <=? 100)) ErrLimitExceeded in
  Ok l.
Definition normalize_suspected (s : SuspectedOptions) : result SuspectedOptions PlanError :=
  let s := mkSuspected (Suspected_Enabled s) (or_default (MaxSeeds s) 20) (or_default (MaxResults s) 20) (or_default (GraphMaxDepth s) 2) in
  let? _ := plan_guard (within 1 (MaxSeeds s) 100 && within 1 (MaxResults s) 100 && within 0 (GraphMaxDepth s) 3) ErrLimitExceeded in
  Ok s.
Definition Normalize (i : Input) : result (Input * string * string) PlanError :=
  let? filters := normalize_filters (Input_Filters i) in
  let? limits := normalize_limits (Input_Limits i) in
  let? suspected := normalize_suspected (Suspected i) in
  let? _ := plan_guard (ID_Valid (Input_ProjectID i) && RevisionIdentity_Valid (Input_Base i) && RevisionIdentity_Valid (Input_Target i) &&
                        negb (bool_decide (Identity_RevisionID (Input_Base i) = Identity_RevisionID (Input_Target i)))) ErrInvalidInput in
  let normal := mkInput (Input_ProjectID i) (Input_Base i) (Input_Target i) AnalysisContractVersion filters limits suspected in
  Ok (normal, input_json normal, sha256_hex (input_json normal)).

(** ** planner/changed.go *)
Definition change_rank (k : ChangeKind) : Z :=
  match k with Modify => 1 | Move => 2 | Add => 3 | Delete => 4 | KindUnknown _ => 0 end.
Definition dominantChange (current candidate : ChangeKind) : ChangeKind :=
  if change_rank current <? change_rank candidate then candidate else current.
Definition matchesNodeFilter (kind : string) (filters : list string) : bool :=
  bool_decide (filters = []) || existsb (fun f => bool_decide (f = kind)) filters.
(** One change: [byID] after it. *)
Definition add_change (byID : gmap ID ChangedEntity) (c : FieldChange) : gmap ID ChangedEntity :=
  let entry := default (mkChanged (EntityID c) (Change_EntityKind c) (Kind c) [] "" false "") (byID !! EntityID c) in
  <[EntityID c := mkChanged (Changed_EntityID entry) (Changed_Kind entry) (dominantChange (Changed_ChangeKind entry) (Kind c))
                    (FieldPaths entry ++ [Path c]) (TargetNodeID entry) (QueryEligible entry) (Ineligibility entry)]> byID.
(** The second loop: the target's entity decides what the graph can be asked. *)
Definition finish_change (i : Input) (entities : gmap ID Entity) (entry : ChangedEntity) : ChangedEntity :=
  let finish node eligible reason :=
    mkChanged (Changed_EntityID entry) (Changed_Kind entry) (Changed_ChangeKind entry) (normalizeSet (FieldPaths entry)) node eligible reason in
  match entities !! Changed_EntityID entry with
  | Some e =>
      if negb (is_archived e) && matchesNodeFilter (EntityKind_text (Entity_Kind e)) (NodeTypes (Input_Filters i))
      then finish (NodeID (Input_ProjectID i) e) true ""
      else if is_archived e then finish "" false "not_in_target_graph"
      else finish "" false "filtered_node_type"
  | None => finish "" false "not_in_target_graph"
  end%string.
Definition changed_entities (i : Input) (changes : list FieldChange) (targets : list Entity) : list ChangedEntity :=
  let byID := foldl add_change ∅ changes in
  sort_by (less_on Changed_EntityID String.ltb) (finish_change i (by_id targets) <$> (map_to_list byID).*2).
Definition ChangedSet `{FloatText, ManifestReader} (i : Input) (targets : list Entity) : result (list ChangedEntity) DiffError :=
  let? changes := CompareRevisions (Identity_RevisionID (Input_Base i)) (Identity_RevisionID (Input_Target i)) in
  Ok (changed_entities i changes targets).

(** ** report/canonical.go *)
Definition ExpansionHash (reportID targetNodeID : string) (maxPaths : Z) (i : Input) : option string :=
  if bool_decide (reportID = EmptyString) || bool_decide (targetNodeID = EmptyString) || (maxPaths <? 1) || (100 <? maxPaths) then None
  else Some (sha256_hex (marshal_struct [("version", marshal_string AnalysisContractVersion); ("report_id", marshal_string reportID);
    ("target_node_id", marshal_string targetNodeID); ("max_paths", Itoa maxPaths); ("filters", filters_json (Input_Filters i));
    ("limits", limits_json (Input_Limits i))]%string)).
Definition EvaluateFreshness (saved : Input) (current : option Input) : Freshness :=
  match current with
  | None => mkFreshness false ["no_current_selection"%string]
  | Some current =>
      if bool_decide (input_json saved = input_json current) then mkFreshness true []
      else
        let reasons :=
          (reason (negb (bool_decide (Identity_RevisionID (Input_Base saved) = Identity_RevisionID (Input_Base current)))) "base_revision_changed" ++
           reason (negb (bool_decide (Identity_RevisionID (Input_Target saved) = Identity_RevisionID (Input_Target current)))) "target_revision_changed" ++
           reason (negb (bool_decide (GraphManifestHash (Input_Base saved) = GraphManifestHash (Input_Base current))) ||
                   negb (bool_decide (GraphManifestHash (Input_Target saved) = GraphManifestHash (Input_Target current)))) "graph_identity_changed" ++
           reason (negb (bool_decide (ContractVersion saved = ContractVersion current))) "analysis_version_changed")%list in
        mkFreshness false (if bool_decide (reasons = []) then ["analysis_options_changed"%string] else reasons)
  end.
End plan.

(** ** planner/admission.go *)
Section admission.
Context {P : Type} `{GraphProvider P, UnicodeTables, UuidLib}.

Record Admission := mkAdmission {
  Admission_ReadProjectionRevision : ID -> result Revision string;
  GetRevisionRecord : ID -> result VersionGate.Record_ string;
  Validation_Check : ID -> string -> ValidationVersions -> result GateResult string;
  Admission_Summary : ID -> result (option ProjectionSummary) string
}.
Definition ok_or {A E : Type} (r : result A E) (e : PlanError) : result A PlanError := match r with Ok a => Ok a | Err _ => Err e end.
(** The local evidence: the record of the revision and its projection summary. *)
Definition admitted_revision (a : Admission) (projectID revisionID : ID) : result (VersionGate.Metadata * ProjectionSummary) PlanError :=
  let? projection := ok_or (Admission_ReadProjectionRevision a revisionID) ErrInvalidRevisionPair in
  let? _ := plan_guard (bool_decide (Revision_ProjectID projection = projectID) && bool_decide (Revision_RevisionID projection = revisionID))
              ErrInvalidRevisionPair in
  let? record := ok_or (GetRevisionRecord a revisionID) ErrInvalidRevisionPair in
  let metadata := VersionGate.Record_Metadata record in
  let? _ := plan_guard (VersionGate.Record_Valid record && bool_decide (VersionGate.RevisionID metadata = revisionID) &&
                        bool_decide (VersionGate.ConfigHash metadata = Revision_ConfigHash projection)) ErrInvalidRevisionPair in
  let? versions := ok_or (ReleasePreflight.ValidationManifest (VersionGate.Manifest metadata)) ErrValidationRequired in
  let? state := ok_or (Validation_Check a revisionID (VersionGate.ConfigHash metadata) versions) ErrValidationRequired in
  let? _ := plan_guard (bool_decide (state = GatePass)) ErrValidationRequired in
  let? summary := ok_or (Admission_Summary a revisionID) ErrGraphNotReady in
  match summary with
  | Some s =>
      let? _ := plan_guard (ProjectionSummary_Valid s && bool_decide (Summary_ProjectID s = projectID) &&
                            bool_decide (Summary_RevisionID s = revisionID) && bool_decide (Summary_ConfigHash s = VersionGate.ConfigHash metadata))
                  ErrGraphNotReady in
      Ok (metadata, s)
  | None => Err ErrGraphNotReady
  end.
Definition identity (a : Admission) (projectID revisionID : ID) (requestID : string) (p : P) : result RevisionIdentity PlanError * P :=
  match admitted_revision a projectID revisionID with
  | Err e => (Err e, p)
  | Ok (metadata, s) =>
      match InspectSnapshot projectID revisionID requestID p with
      | (Err _, p) => (Err ErrGraphNotReady, p)
      | (Ok snapshot, p) =>
          if negb (Verified_Ready (VerifySnapshot (mkExpectation projectID revisionID (ManifestHash s) (Summary_NodeCount s) (Summary_EdgeCount s)) snapshot))
          then (Err ErrGraphIdentity, p)
          else (Ok (mkIdentity revisionID (VersionGate.ConfigHash metadata) (VersionGate.ManifestHash metadata) (ManifestHash s)
                      (Summary_NodeCount s) (Summary_EdgeCount s)), p)
      end
  end.
Definition Explicit (a : Admission) (command : Command) (requestID : string) (p : P) : result (Input * string * string) PlanError * P :=
  let projectID := Command_ProjectID command in
  let base := Command_BaseRevisionID command in let target := Command_TargetRevisionID command in
  if negb (ID_Valid projectID) || negb (ID_Valid base) || negb (ID_Valid target) || bool_decide (base = target) then (Err ErrInvalidRevisionPair, p)
  else
    match identity a projectID base (requestID +:+ ".base")%string p with
    | (Err e, p) => (Err e, p)
    | (Ok b, p) =>
        match identity a projectID target (requestID +:+ ".target")%string p with
        | (Err e, p) => (Err e, p)
        | (Ok t, p) => (Normalize (mkInput projectID b t "" (Command_Filters command) (Command_Limits command) (Command_Suspected command)), p)
        end
    end.
Definition AutomaticCommand (baseline : result (ID * bool) string) (projectID targetID : ID) (filters : Filters) (limits : Limits)
    (suspected : SuspectedOptions) : result Command PlanError :=
  if negb (ID_Valid projectID) || negb (ID_Valid targetID) then Err ErrInvalidRevisionPair
  else match baseline with
       | Err e => Err (ErrBaseline e)
       | Ok (_, false) => Err ErrNoBaseline
       | Ok (baseID, true) => Ok (mkCommand projectID baseID targetID filters limits suspected)
       end.
End admission.

(** ** Facts: sets of strings *)
Definition same_elements {A : Type} (l l' : list A) : Prop := forall x, x ∈ l <-> x ∈ l'.
#[global] Instance same_elements_equiv {A : Type} : Equivalence (@same_elements A).
Proof. split; [by intros l x|intros l l' E x; symmetry; apply E|intros a b c E F x; by rewrite (E x), (F x)]. Qed.
Lemma elem_of_string_set x l : x ∈ string_set l <-> x ∈ l.
Proof. unfold string_set, sort_strings. by rewrite elem_of_sort_by, elem_of_remove_dups. Qed.
Lemma string_set_sorted l : StronglySorted (fun a b => String.ltb a b = true) (string_set l).
Proof. apply sort_strings_NoDup_lt, NoDup_remove_dups. Qed.
#[global] Instance string_set_proper : Proper (same_elements ==> eq) string_set.
Proof.
  intros l l' E. apply sort_by_unique; [apply _|]. apply NoDup_Permutation; [apply NoDup_remove_dups..|].
  intros x. rewrite !elem_of_remove_dups. apply E.
Qed.
Lemma string_set_idempotent l : string_set (string_set l) = string_set l.
Proof. apply string_set_proper. intros x. apply elem_of_string_set. Qed.
Lemma string_set_below l : StronglySorted (not_after String.ltb) (string_set l).
Proof. apply sort_by_sorted, _. Qed.
#[global] Instance filter_same {A : Type} (p : A -> bool) : Proper (same_elements ==> same_elements) (List.filter p).
Proof. intros l l' E x. rewrite !list_elem_of_In, !List.filter_In, <- !list_elem_of_In. by rewrite (E x). Qed.
#[global] Instance forallb_same {A : Type} (p : A -> bool) : Proper (same_elements ==> eq) (forallb p).
Proof.
  intros l l' E. apply eq_true_iff_eq. rewrite !List.forallb_forall. split; intros Hp x Hx%list_elem_of_In%E%list_elem_of_In; by apply Hp.
Qed.
#[global] Instance normalizeSet_proper : Proper (same_elements ==> eq) normalizeSet.
Proof. intros l l' E. apply string_set_proper. by rewrite E. Qed.
#[global] Instance validRawSet_proper : Proper (same_elements ==> eq) validRawSet.
Proof. apply forallb_same. Qed.
(** On a raw set nothing is dropped. *)
Lemma normalizeSet_same l : validRawSet l = true -> same_elements (normalizeSet l) l.
Proof.
  intros Hv x. unfold normalizeSet. rewrite elem_of_string_set, list_elem_of_In, List.filter_In, <- list_elem_of_In.
  unfold validRawSet in Hv. rewrite List.forallb_forall in Hv. split; [by intros []|]. intros Hx. split; [done|]. by apply Hv, list_elem_of_In.
Qed.
Lemma normalizeSet_fixed l : validRawSet l = true -> validRawSet (normalizeSet l) = true /\ normalizeSet (normalizeSet l) = normalizeSet l.
Proof. intros Hv. pose proof (normalizeSet_same l Hv) as E. split; [by rewrite E|by rewrite E at 1]. Qed.

(** ** Normalisation *)
Section normal.
Context `{UuidLib}.

(** The same request: sets may differ in order and repetition. *)
Record same_request (i j : Input) : Prop := {
  same_project : Input_ProjectID i = Input_ProjectID j;
  same_revisions : Input_Base i = Input_Base j /\ Input_Target i = Input_Target j;
  same_limits : Input_Limits i = Input_Limits j /\ Suspected i = Suspected j;
  same_direction : Filters_Direction (Input_Filters i) = Filters_Direction (Input_Filters j);
  same_kinds : same_elements (RelationshipKinds (Input_Filters i)) (RelationshipKinds (Input_Filters j));
  same_nodes : same_elements (NodeTypes (Input_Filters i)) (NodeTypes (Input_Filters j));
  same_edges : same_elements (EdgeTypes (Input_Filters i)) (EdgeTypes (Input_Filters j))
}.
Lemma Normalize_same i j : same_request i j -> Normalize i = Normalize j.
Proof.
  intros [Hp [Hb Ht] [Hl Hs] Hd Hk Hn He]. unfold Normalize. rewrite Hp, Hb, Ht, Hl, Hs.
  assert (normalize_filters (Input_Filters i) = normalize_filters (Input_Filters j)) as ->; [|done].
  unfold normalize_filters. rewrite Hd, (validRawSet_proper _ _ Hk), (validRawSet_proper _ _ Hn), (validRawSet_proper _ _ He), (normalizeSet_proper _ _ Hk), (normalizeSet_proper _ _ Hn),
    (normalizeSet_proper _ _ He). reflexivity.
Qed.

Record normal_filters (f n : Filters) : Prop := {
  normal_kinds : RelationshipKinds n = ["explicit"%string];
  normal_nodes : same_elements (NodeTypes n) (NodeTypes f) /\ StronglySorted (fun a b => String.ltb a b = true) (NodeTypes n);
  normal_edges : same_elements (EdgeTypes n) (EdgeTypes f) /\ StronglySorted (fun a b => String.ltb a b = true) (EdgeTypes n);
  normal_direction : Direction_Valid (Filters_Direction n) = true
}.
Record normal_limits (l : Limits) (s : SuspectedOptions) : Prop := {
  normal_depth : 1 <= MaxDepth l <= 6;
  normal_count : 1 <= MaxNodes l <= 500;
  normal_paths : DefaultPathsPerTarget l = 1 /\ 1 <= ExpandedMaxPaths l <= 100;
  normal_seeds : 1 <= MaxSeeds s <= 100 /\ 1 <= MaxResults s <= 100 /\ 0 <= GraphMaxDepth s <= 3
}.
Lemma plan_guard_Ok b e u : plan_guard b e = Ok u <-> b = true.
Proof. destruct b, u; simpl; split; congruence. Qed.
Lemma normalize_filters_Ok f n : normalize_filters f = Ok n -> normal_filters f n /\ normalize_filters n = Ok n.
Proof.
  unfold normalize_filters at 1. rewrite result_bind_Ok. intros (u & Hv%plan_guard_Ok & Hf).
  rewrite result_bind_Ok in Hf. destruct Hf as (u' & Hk%plan_guard_Ok & Hf).
  rewrite result_bind_Ok in Hf. destruct Hf as (u'' & Ht%plan_guard_Ok & [= <-]).
  apply bool_decide_eq_true in Hk. rewrite Hk in Ht. rewrite Hk.
  apply andb_true_iff in Hv as [[Hv1 Hv2]%andb_true_iff Hv3]. apply andb_true_iff in Ht as [[Hd Hn]%andb_true_iff He]. simpl in *.
  destruct (normalizeSet_fixed _ Hv2) as [Hr2 Hf2], (normalizeSet_fixed _ Hv3) as [Hr3 Hf3]. split.
  - split; [done|split; [by apply normalizeSet_same|apply string_set_sorted]..|done].
  - unfold normalize_filters. simpl. rewrite Hr2, Hr3. simpl. rewrite Hf2, Hf3.
    assert (bool_decide (Direction_text (if bool_decide (Direction_text (Filters_Direction f) = EmptyString) then DirectionIncoming else Filters_Direction f) = EmptyString) = false) as ->.
    { case_bool_decide as E; [done|]. by rewrite bool_decide_false. }
    unfold plan_guard. simpl. by rewrite Hd, Hn, He.
Qed.

Lemma or_default_fixed v d : or_default (or_default v d) d = or_default v d.
Proof. unfold or_default. destruct (v =? 0) eqn:E; [by destruct (d =? 0)|]. by rewrite E. Qed.
Lemma normalize_limits_Ok l n : normalize_limits l = Ok n ->
  1 <= MaxDepth n <= 6 /\ 1 <= MaxNodes n <= 500 /\ DefaultPathsPerTarget n = 1 /\ 1 <= ExpandedMaxPaths n <= 100 /\ normalize_limits n = Ok n.
Proof.
  unfold normalize_limits at 1. rewrite result_bind_Ok. intros (u & Hg%plan_guard_Ok & Hl). rewrite result_bind_Ok in Hl.
  destruct Hl as (u' & Hg'%plan_guard_Ok & [= <-]). unfold normalize_limits. cbn [MaxDepth MaxNodes DefaultPathsPerTarget ExpandedMaxPaths] in *.
  rewrite !or_default_fixed. unfold plan_guard. rewrite Hg. simpl. rewrite Hg'. simpl. bool_to_prop. destruct_and? Hg. destruct_and? Hg'.
  split_and!; (done || lia).
Qed.
Lemma normalize_suspected_Ok s n : normalize_suspected s = Ok n ->
  1 <= MaxSeeds n <= 100 /\ 1 <= MaxResults n <= 100 /\ 0 <= GraphMaxDepth n <= 3 /\ normalize_suspected n = Ok n.
Proof.
  unfold normalize_suspected at 1. rewrite result_bind_Ok. intros (u & Hg%plan_guard_Ok & [= <-]).
  unfold normalize_suspected. cbn [MaxSeeds MaxResults GraphMaxDepth Suspected_Enabled] in *.
  rewrite !or_default_fixed. unfold plan_guard. rewrite Hg. simpl. unfold within in Hg. bool_to_prop. destruct_and? Hg.
  split_and!; (done || lia).
Qed.

(** Normalisation is canonical: requests that differ only in the order and repetition of their filters are the same
    analysis, with the same text and hash; a normalised input is a fixed point; its filters are the requested sets in
    strict order, the relationship kind is explicit, and every limit is within the contract's bounds. *)
Theorem normalize_canonical i n text hash :
  Normalize i = Ok (n, text, hash) ->
  Normalize n = Ok (n, text, hash) /\ (forall j, same_request i j -> Normalize j = Ok (n, text, hash)) /\
  normal_filters (Input_Filters i) (Input_Filters n) /\ normal_limits (Input_Limits n) (Suspected n) /\
  text = input_json n /\ hash = sha256_hex text /\ ContractVersion n = AnalysisContractVersion /\
  Identity_RevisionID (Input_Base n) <> Identity_RevisionID (Input_Target n).
Proof.
  intros Hn. assert (forall j, same_request i j -> Normalize j = Ok (n, text, hash)) as Hsame by (intros j Hj; by rewrite <- (Normalize_same i j)).
  unfold Normalize in Hn. apply result_bind_Ok in Hn as (f & Hf & Hn). apply result_bind_Ok in Hn as (l & Hl & Hn).
  apply result_bind_Ok in Hn as (s & Hs & Hn). apply result_bind_Ok in Hn as (u & Hg & [= <- <- <-]). pose proof Hg as Hv%plan_guard_Ok.
  apply normalize_filters_Ok in Hf as [Hf Hff]. apply normalize_limits_Ok in Hl as (? & ? & ? & ? & Hll).
  apply normalize_suspected_Ok in Hs as (? & ? & ? & Hss). split_and!; try done.
  - unfold Normalize. cbn [Input_Filters Input_Limits Suspected Input_ProjectID Input_Base Input_Target]. rewrite Hff, Hll, Hss. simpl. by rewrite Hg.
  - bool_to_prop. by destruct_and? Hv.
Qed.
End normal.

(** ** The changed entities *)
Section changed.
Context `{UuidLib}.
Notation of_entity id changes := (filter (fun c => EntityID c = id) changes).

(** What the loop has gathered about one entity from its changes. *)
Definition gathered (entry : ChangedEntity) (changes : list FieldChange) : Prop :=
  FieldPaths entry = Path <$> changes /\ Changed_ChangeKind entry ∈ Kind <$> changes /\
  Forall (fun c => change_rank (Kind c) <= change_rank (Changed_ChangeKind entry)) changes /\
  Changed_Kind entry ∈ Change_EntityKind <$> changes /\ TargetNodeID entry = EmptyString /\ QueryEligible entry = false.
Lemma dominantChange_rank k k' :
  change_rank k <= change_rank (dominantChange k k') /\ change_rank k' <= change_rank (dominantChange k k') /\
  (dominantChange k k' = k \/ dominantChange k k' = k').
Proof. unfold dominantChange. destruct (_ <? _) eqn:E; bool_to_prop; split_and!; auto; lia. Qed.
Lemma add_changes_spec changes id :
  match foldl add_change ∅ changes !! id with
  | None => of_entity id changes = []
  | Some entry => Changed_EntityID entry = id /\ gathered entry (of_entity id changes)
  end.
Proof.
  induction changes as [|c changes IH] using rev_ind; [cbn [foldl]; by rewrite lookup_empty|].
  rewrite foldl_app, filter_app. cbn [foldl]. unfold add_change at 1. destruct (decide (EntityID c = id)) as [<-|Hne].
  - rewrite lookup_insert_eq, filter_cons_True, filter_nil by done. destruct (foldl _ _ _ !! _) as [e|] eqn:Hl; simpl.
    + destruct IH as [Hid (Hp & Hk & Hr & Ht & Hn & Hq)]. split; [done|]. unfold gathered. simpl.
      destruct (dominantChange_rank (Changed_ChangeKind e) (Kind c)) as (H1 & H2 & Hor). rewrite !fmap_app. split_and!.
      * by rewrite Hp.
      * destruct Hor as [->| ->]; set_solver.
      * apply Forall_app. split; [|by constructor]. eapply Forall_impl; [exact Hr|]. simpl. lia.
      * set_solver.
      * done.
      * done.
    + rewrite IH. simpl. split; [done|]. unfold gathered, dominantChange. rewrite Z.ltb_irrefl. simpl. split_and!; try done; try set_solver.
      by repeat constructor.
  - rewrite lookup_insert_ne, filter_cons_False, filter_nil, app_nil_r by done. exact IH.
Qed.
Lemma gathered_from changes id e : foldl add_change ∅ changes !! id = Some e -> exists c, id = EntityID c /\ c ∈ changes.
Proof.
  intros Hl. pose proof (add_changes_spec changes id) as Hs. rewrite Hl in Hs. destruct Hs as [_ (_ & Hk & _)].
  apply list_elem_of_fmap in Hk as (c & _ & Hc). apply list_elem_of_filter in Hc as [<- Hc]. by exists c.
Qed.
Lemma gathered_of changes c : c ∈ changes -> is_Some (foldl add_change ∅ changes !! EntityID c).
Proof.
  intros Hin. pose proof (add_changes_spec changes (EntityID c)) as Hs. destruct (_ !! _) as [e|]; [by eexists|].
  assert (c ∈ of_entity (EntityID c) changes) as Hc by by apply list_elem_of_filter. rewrite Hs in Hc. by apply elem_of_nil in Hc.
Qed.
Lemma finish_id i entities e : Changed_EntityID (finish_change i entities e) = Changed_EntityID e.
Proof. unfold finish_change. destruct (entities !! _); repeat case_match; done. Qed.
Lemma finish_fields i entities e :
  FieldPaths (finish_change i entities e) = normalizeSet (FieldPaths e) /\ Changed_ChangeKind (finish_change i entities e) = Changed_ChangeKind e.
Proof. unfold finish_change. destruct (entities !! _); repeat case_match; done. Qed.
Lemma finish_eligible i targets e :
  let x := finish_change i (by_id targets) e in
  (QueryEligible x = true <->
     exists t, by_id targets !! Changed_EntityID e = Some t /\ Entity_Status t <> StatusArchived /\
       matchesNodeFilter (EntityKind_text (Entity_Kind t)) (NodeTypes (Input_Filters i)) = true) /\
  (QueryEligible x = true -> exists t, by_id targets !! Changed_EntityID e = Some t /\ is_archived t = false /\ TargetNodeID x = NodeID (Input_ProjectID i) t).
Proof.
  cbv zeta. unfold finish_change. destruct (by_id targets !! _) as [t|].
  2:{ simpl. split; [split; [done|by intros (t & ? & _)]|done]. }
  destruct (is_archived t) eqn:Ha; simpl.
  - split; [split; [done|]|done]. intros (t' & [= <-] & Hs & _). by apply bool_decide_eq_true in Ha.
  - destruct (matchesNodeFilter _ _) eqn:Hm; simpl.
    + split; [split; [intros _|done]|intros _; by exists t]. exists t. split_and!; [done| |done]. by apply bool_decide_eq_false in Ha.
    + split; [split; [done|]|done]. intros (t' & [= <-] & _ & Hs). congruence.
Qed.
Lemma elem_of_changed_entities i changes targets x :
  x ∈ changed_entities i changes targets <->
  exists entry, foldl add_change ∅ changes !! Changed_EntityID x = Some entry /\ x = finish_change i (by_id targets) entry.
Proof.
  unfold changed_entities. rewrite elem_of_sort_by, list_elem_of_fmap.
  split.
  - intros (e & -> & Hin). apply list_elem_of_fmap in Hin as ([id e'] & -> & Hin%elem_of_map_to_list). exists e'. split; [|done].
    pose proof (add_changes_spec changes id) as Hs. rewrite Hin in Hs. destruct Hs as [Hs _]. simpl. by rewrite finish_id, Hs.
  - intros (e & Hl & ->). exists e. split; [done|]. apply list_elem_of_fmap. eexists (_, e). split; [done|]. apply elem_of_map_to_list. exact Hl.
Qed.
Lemma changed_entities_sorted i changes targets :
  StronglySorted (fun a b => String.ltb a b = true) (Changed_EntityID <$> changed_entities i changes targets).
Proof.
  unfold changed_entities. rewrite fmap_sort_on. apply sort_strings_NoDup_lt. rewrite <- list_fmap_compose.
  assert (forall l, (forall id e, (id, e) ∈ l -> Changed_EntityID e = id) ->
    Changed_EntityID ∘ finish_change i (by_id targets) <$> l.*2 = l.*1) as Hids.
  { intros l Hl. rewrite <- list_fmap_compose. apply list_fmap_ext. intros n [id e] Hn%list_elem_of_lookup_2. simpl. rewrite <- (Hl _ _ Hn).
    apply finish_id. }
  rewrite Hids; [apply NoDup_fst_map_to_list|]. intros id e Hin%elem_of_map_to_list. pose proof (add_changes_spec changes id) as Hs.
  rewrite Hin in Hs. by destruct Hs.
Qed.

(** C20: The changed set lists, in the order of their identities, exactly the entities that some change touches: each with
    the strongest kind and the normalised set of the paths of its own changes ([normalizeSet] drops a path with white space
    at an end).  An entity can be asked about exactly when the target has
    it, not archived and of a wanted type; it then names the node that the projection of the target gives it, so every
    start of the graph search is a node of the target's graph. *)
Theorem changed_set_exact `{FloatText, ManifestReader} i targets result_ changes :
  CompareRevisions (Identity_RevisionID (Input_Base i)) (Identity_RevisionID (Input_Target i)) = Ok changes ->
  ChangedSet i targets = Ok result_ ->
  StronglySorted (fun a b => String.ltb a b = true) (Changed_EntityID <$> result_) /\
  (forall id, id ∈ Changed_EntityID <$> result_ <-> id ∈ EntityID <$> changes) /\
  (forall x, x ∈ result_ ->
     let own := of_entity (Changed_EntityID x) changes in
     FieldPaths x = normalizeSet (Path <$> own) /\ Changed_ChangeKind x ∈ Kind <$> own /\
     Forall (fun c => change_rank (Kind c) <= change_rank (Changed_ChangeKind x)) own /\
     (QueryEligible x = true <->
        exists e, by_id targets !! Changed_EntityID x = Some e /\ Entity_Status e <> StatusArchived /\
          matchesNodeFilter (EntityKind_text (Entity_Kind e)) (NodeTypes (Input_Filters i)) = true) /\
     (QueryEligible x = true -> forall d format r snapshot,
        Descriptor_Formatter d = Some format -> Revision_Entities r = targets -> Revision_ProjectID r = Input_ProjectID i ->
        Project d r = Ok snapshot -> TargetNodeID x ∈ Node_ID <$> Nodes snapshot)).
Proof.
  intros Hc Hr. unfold ChangedSet in Hr. rewrite Hc in Hr. injection Hr as <-. split; [apply changed_entities_sorted|]. split.
  - intros id. rewrite !list_elem_of_fmap. split.
    + intros (x & -> & (e & Hl & ->)%elem_of_changed_entities). apply gathered_from in Hl as (c & -> & Hin). by exists c.
    + intros (c & -> & Hin). destruct (gathered_of _ _ Hin) as [e Hl]. pose proof (add_changes_spec changes (EntityID c)) as Hs. rewrite Hl in Hs.
      destruct Hs as [Hid _]. exists (finish_change i (by_id targets) e). rewrite finish_id. split; [done|].
      apply elem_of_changed_entities. exists e. by rewrite finish_id, Hid.
  - intros x (e & Hl & ->)%elem_of_changed_entities. cbv zeta. rewrite finish_id in *. pose proof (add_changes_spec changes (Changed_EntityID e)) as Hs.
    rewrite Hl in Hs. destruct Hs as [_ (Hp & Hk & Hr & _)]. destruct (finish_fields i (by_id targets) e) as [-> ->]. rewrite Hp.
    pose proof (finish_eligible i targets e) as [Hel Hnode]. split_and!; try done.
    intros Hq d format r snapshot Hf <- Hpid Hproj. destruct (Hnode Hq) as (t & Ht & Ha & ->). rewrite <- Hpid.
    assert (Descriptor_Valid d = true) as Hd by (unfold Project in Hproj; rewrite Hf in Hproj; by destruct (Descriptor_Valid d)).
    apply (Project_Ok d format r) in Hproj as [Hok ->]; [|done..]. apply by_id_lookup in Ht as [Ht _]; [|apply Hok].
    by apply projected_node.
Qed.
End changed.
