(* ===== verification/ImpactAnalysis.v ===== *)
(** * internal/graph/impact/analysis: the search of the dependency graph

    The queries and answers of types.go and ports.go, traverse.go and paths.go.
    The graph belongs to the provider: the analysis asks it for the nodes that the
    changed entities reach and for one path to each, and accepts only answers that
    the contract allows.  [DefaultPaths] asks with several workers at once; its
    collector is a function of the answers in the order in which they arrive. *)
From S2P Require Import Prelude GoSort GoStrings GoCrypto GoJson Domain DomainEntity.
From S2P Require Import GraphSync ImpactPlan.
Open Scope Z_scope.

(** ** types.go: queries and answers *)
Inductive TruncationReason := ReasonMaxDepth | ReasonMaxNodes | ReasonMaxPaths | ReasonOther (spelling : string).
#[global] Instance TruncationReason_eq_dec : EqDecision TruncationReason.
Proof. solve_decision. Defined.
(** The fields of [graphsync.Node] and [graphsync.Edge] that the analysis reads. *)
Record ImpactNode := mkImpactNode { INode_ID : string; INode_Type : string; INode_Label : string; INode_Text : string }.
#[global] Instance ImpactNode_eq_dec : EqDecision ImpactNode.
Proof. solve_decision. Defined.
Record ImpactEdge := mkImpactEdge {
  IEdge_ID : string; IEdge_From : string; IEdge_To : string; IEdge_Type : string; IEdge_RelationKind : string; IEdge_HasProvenance : bool
}.
#[global] Instance ImpactEdge_eq_dec : EqDecision ImpactEdge.
Proof. solve_decision. Defined.
Record NodeDepth := mkNodeDepth { Depth_Node : ImpactNode; Depth : Z }.
Record TraverseRequest := mkTraverse {
  Traverse_Namespace : string; Traverse_Version : string; StartNodeIDs : list string; Traverse_Kinds : list string;
  Traverse_NodeTypes : list string; Traverse_EdgeTypes : list string; Traverse_Direction : Direction; Traverse_MaxDepth : Z; Traverse_MaxNodes : Z
}.
Record TraverseResponse := mkTraverseResponse {
  Traverse_Resolved : string; Traverse_Hash : string; Traverse_Nodes : list NodeDepth; Traverse_Truncated : bool;
  Traverse_Reasons : list TruncationReason; Traverse_Warnings : list string
}.
Record Path := mkPath {
  Path_Source : string; Path_Target : string; Path_NodeIDs : list string; Path_EdgeIDs : list string; Path_Nodes : list ImpactNode;
  Path_Edges : list ImpactEdge; HopCount : Z; Path_Truncated : bool; Path_Reasons : list TruncationReason
}.
#[global] Instance Path_eq_dec : EqDecision Path.
Proof. solve_decision. Defined.
Record PathsRequest := mkPaths {
  Paths_Namespace : string; Paths_Version : string; SourceNodeIDs : list string; TargetNodeIDs : list string; Paths_Kinds : list string;
  Paths_NodeTypes : list string; Paths_EdgeTypes : list string; Paths_Direction : Direction; Paths_MaxDepth : Z; Paths_MaxNodes : Z; MaxPaths : Z
}.
Record PathsResponse := mkPathsResponse {
  Paths_Resolved : string; Paths_Hash : string; Paths : list Path; Paths_Truncated : bool; Paths_Reasons : list TruncationReason;
  Paths_Warnings : list string
}.
(** The fields of an evidence that the client and the retrieval read. *)
Record SuspectedEvidence := mkSuspectedEvidence {
  Evidence_Rank : Z; Evidence_Node : ImpactNode; CitationText : string; SeedNodeID : string; Evidence_Path : option Path; AlgorithmVersion : string
}.
Record RetrieveRequest := mkRetrieve {
  Retrieve_Namespace : string; Retrieve_Version : string; Query : string; Retrieve_Kinds : list string; Retrieve_NodeTypes : list string;
  Retrieve_EdgeTypes : list string; Retrieve_MaxSeeds : Z; Retrieve_MaxResults : Z; Retrieve_MaxDepth : Z
}.
Record RetrieveResponse := mkRetrieveResponse {
  Retrieve_Resolved : string; Retrieve_Hash : string; Retrieve_Mode : string; Degraded : bool; Retrieve_Warnings : list string;
  Retrieve_Results : list SuspectedEvidence
}.
Class GraphQueryProvider (P : Type) := {
  Query_Traverse : TraverseRequest -> string -> P -> result TraverseResponse ProviderFailure * P;
  Query_Paths : PathsRequest -> string -> P -> result PathsResponse ProviderFailure * P;
  Query_Retrieve : RetrieveRequest -> string -> P -> result RetrieveResponse ProviderFailure * P
}.

Record AffectedEntity := mkAffected {
  Affected_Node : ImpactNode; MinimumDepth : Z; Direct : bool; Indirect : bool; TagRule : bool; DefaultPath : option Path
}.
#[global] Instance AffectedEntity_eq_dec : EqDecision AffectedEntity.
Proof. solve_decision. Defined.
Definition Affected_ID (a : AffectedEntity) : string := INode_ID (Affected_Node a).

(** ** traverse.go *)
Inductive AnalysisError := ErrProviderContract | ErrQuery (f : ProviderFailure) | ErrContextDone.
Record DeterministicResult := mkDeterministic {
  Deterministic_Affected : list AffectedEntity; Deterministic_Reasons : list TruncationReason; Deterministic_Warnings : list string;
  Deterministic_Truncated : bool; Deterministic_State : string
}.
Definition eligibleStarts (changed : list ChangedEntity) : list string :=
  string_set (TargetNodeID <$> List.filter (fun e => QueryEligible e && negb (bool_decide (TargetNodeID e = EmptyString))) changed).
Definition verifyIdentity (i : Input) (version hash : string) : bool :=
  bool_decide (version = Identity_RevisionID (Input_Target i)) && bool_decide (hash = GraphManifestHash (Input_Target i)).
Definition reason_order : list TruncationReason := [ReasonMaxDepth; ReasonMaxNodes; ReasonMaxPaths].
Definition MergeReasons (groups : list (list TruncationReason)) : list TruncationReason :=
  List.filter (fun r => bool_decide (r ∈ mjoin groups)) reason_order.
Definition WarningFor (r : TruncationReason) : string :=
  match r with
  | ReasonMaxDepth => "MAX_DEPTH: narrow relationship/type filters or increase depth within the maximum of 6"
  | ReasonMaxNodes => "MAX_NODES: narrow node/relation filters; the report contains a deterministic prefix"
  | ReasonMaxPaths => "MAX_PATHS: narrow path filters or increase max_paths within the maximum of 100"
  | ReasonOther _ => ""
  end.
Definition traverse_request (i : Input) (starts : list string) : TraverseRequest :=
  mkTraverse (Input_ProjectID i) (Identity_RevisionID (Input_Target i)) starts ["explicit"%string] (NodeTypes (Input_Filters i))
    (EdgeTypes (Input_Filters i)) (Filters_Direction (Input_Filters i)) (MaxDepth (Input_Limits i)) (MaxNodes (Input_Limits i)).
(** One record of the answer: [byID] after it. *)
Definition traverse_node (i : Input) (starts : list string) (byID : gmap string AffectedEntity) (record : NodeDepth) :
    result (gmap string AffectedEntity) AnalysisError :=
  let id := INode_ID (Depth_Node record) in let depth := Depth record in
  if bool_decide (id = EmptyString) || (depth <? 0) || (MaxDepth (Input_Limits i) <? depth) then Err ErrProviderContract
  else if depth =? 0 then (if bool_decide (id ∈ starts) then Ok byID else Err ErrProviderContract)
  else if bool_decide (id ∈ starts) then Ok byID
  else
    let better := match byID !! id with None => true | Some existing => depth <? MinimumDepth existing end in
    Ok (if better then <[id := mkAffected (Depth_Node record) depth (depth =? 1) (2 <=? depth) false None]> byID else byID).
Definition affected_less : AffectedEntity -> AffectedEntity -> bool :=
  then_by MinimumDepth Z.ltb (less_on Affected_ID String.ltb).
Definition traverse_answer (i : Input) (starts : list string) (response : TraverseResponse) : result DeterministicResult AnalysisError :=
  if negb (verifyIdentity i (Traverse_Resolved response) (Traverse_Hash response)) then Err ErrProviderContract
  else
    let? byID := foldr_result (traverse_node i starts) ∅ (Traverse_Nodes response) in
    let affected := sort_by affected_less (map_to_list byID).*2 in
    Ok (mkDeterministic affected (MergeReasons [Traverse_Reasons response]) (Traverse_Warnings response) (Traverse_Truncated response)
          (if bool_decide (affected = []) then "empty" else "ready")).
Definition Traverse {P : Type} `{GraphQueryProvider P} (i : Input) (changed : list ChangedEntity) (requestID : string) (p : P) :
    result DeterministicResult AnalysisError * P :=
  let starts := eligibleStarts changed in
  if bool_decide (starts = []) then (Ok (mkDeterministic [] [] [] false "no_eligible_starts"), p)
  else
    match Query_Traverse (traverse_request i starts) requestID p with
    | (Err f, p) => (Err (ErrQuery f), p)
    | (Ok response, p) => (traverse_answer i starts response, p)
    end.

(** ** paths.go *)
Definition contains (values : list string) (value : string) : bool := search_contains values value.
Definition containsOptional (values : list string) (value : string) : bool := bool_decide (values = []) || contains values value.
Definition edgeAllowed (e : ImpactEdge) (from to : string) (direction : Direction) : bool :=
  let runs a b := bool_decide (IEdge_From e = a) && bool_decide (IEdge_To e = b) in
  match direction with
  | DirectionIncoming => runs to from
  | DirectionOutgoing => runs from to
  | DirectionBoth => runs from to || runs to from
  | DirectionOther _ => false
  end.
Definition hasTagRule (path : Path) : bool :=
  existsb (fun e => among (IEdge_Type e) ["entity_has_tag"; "item_enhances_tag"]%string) (Path_Edges path).
(** The hop over edge [k], from node [k] to node [k + 1]. *)
Definition valid_hop (i : Input) (hop : (string * ImpactEdge) * (string * (string * ImpactNode))) : bool :=
  let '((edgeID, edge), (from, (to, node))) := hop in
  bool_decide (IEdge_ID edge = edgeID) && bool_decide (IEdge_RelationKind edge = "explicit"%string) && IEdge_HasProvenance edge &&
  edgeAllowed edge from to (Filters_Direction (Input_Filters i)) && containsOptional (EdgeTypes (Input_Filters i)) (IEdge_Type edge) &&
  containsOptional (NodeTypes (Input_Filters i)) (INode_Type node).
Definition hops (path : Path) : list ((string * ImpactEdge) * (string * (string * ImpactNode))) :=
  zip (zip (Path_EdgeIDs path) (Path_Edges path)) (zip (Path_NodeIDs path) (zip (tail (Path_NodeIDs path)) (tail (Path_Nodes path)))).
Definition count {A : Type} (l : list A) : Z := Z.of_nat (length l).
Definition validatePath (path : Path) (starts : list string) (target : string) (i : Input) : bool :=
  bool_decide (Path_Target path = target) && (1 <=? HopCount path) && (HopCount path <=? MaxDepth (Input_Limits i)) &&
  (count (Path_NodeIDs path) =? HopCount path + 1) && (count (Path_EdgeIDs path) =? HopCount path) &&
  (count (Path_Nodes path) =? count (Path_NodeIDs path)) && (count (Path_Edges path) =? count (Path_EdgeIDs path)) &&
  bool_decide (head (Path_NodeIDs path) = Some (Path_Source path)) && bool_decide (last (Path_NodeIDs path) = Some target) &&
  contains starts (Path_Source path) &&
  forallb (fun '(id, node) => negb (bool_decide (id = EmptyString)) && bool_decide (INode_ID node = id)) (zip (Path_NodeIDs path) (Path_Nodes path)) &&
  nodupb (Path_NodeIDs path) && forallb (valid_hop i) (hops path).
Definition nonempty_text (s : string) : bool := negb (bool_decide (s = EmptyString)).
Definition stableWarnings (values : list string) : list string := string_set (List.filter nonempty_text values).

Definition paths_request (i : Input) (starts : list string) (target : string) (maxPaths : Z) : PathsRequest :=
  mkPaths (Input_ProjectID i) (Identity_RevisionID (Input_Target i)) starts [target] ["explicit"%string] (NodeTypes (Input_Filters i))
    (EdgeTypes (Input_Filters i)) (Filters_Direction (Input_Filters i)) (MaxDepth (Input_Limits i)) (MaxNodes (Input_Limits i)) maxPaths.
(** The collector: what one arrival does to [ordered], [allReasons] and [warnings]. *)
Definition Arrival : Type := nat * result PathsResponse AnalysisError.
Definition collected : Type := list AffectedEntity * list TruncationReason * list string.
Definition with_path (path : Path) (a : AffectedEntity) : AffectedEntity :=
  mkAffected (Affected_Node a) (MinimumDepth a) (Direct a) (Indirect a) (hasTagRule path) (Some path).
Definition collect (i : Input) (starts : list string) (acc : collected) (item : Arrival) : result collected AnalysisError :=
  let '(ordered, reasons, warnings) := acc in
  let? response := item.2 in
  if negb (verifyIdentity i (Paths_Resolved response) (Paths_Hash response)) then Err ErrProviderContract
  else
    match Paths response, ordered !! item.1 with
    | [path], Some a =>
        if negb (validatePath path starts (Affected_ID a) i) then Err ErrProviderContract
        else Ok (<[item.1 := with_path path a]> ordered, reasons ++ Paths_Reasons response, warnings ++ Paths_Warnings response)%list
    | _, _ => Err ErrProviderContract
    end.
Definition DefaultPaths (i : Input) (changed : list ChangedEntity) (affected : list AffectedEntity) (arrivals : list Arrival) :
    result collected AnalysisError :=
  let starts := eligibleStarts changed in
  if bool_decide (affected = []) || bool_decide (starts = []) then Ok (affected, [], [])
  else
    let? (ordered, reasons, warnings) := foldr_result (collect i starts) (affected, [], []) arrivals in
    if negb (bool_decide (length arrivals = length affected)) then Err ErrContextDone
    else Ok (ordered, MergeReasons [reasons], stableWarnings warnings).
Definition expand_answer (i : Input) (starts : list string) (target : string) (response : PathsResponse) :
    result (list Path * list TruncationReason * list string) AnalysisError :=
  if negb (verifyIdentity i (Paths_Resolved response) (Paths_Hash response)) then Err ErrProviderContract
  else if negb (forallb (fun path => validatePath path starts target i) (Paths response)) then Err ErrProviderContract
  else Ok (Paths response, MergeReasons [Paths_Reasons response], stableWarnings (Paths_Warnings response)).
Definition ExpandPaths {P : Type} `{GraphQueryProvider P} (i : Input) (changed : list ChangedEntity) (target : string) (maxPaths : Z)
    (requestID : string) (p : P) : result (list Path * list TruncationReason * list string) AnalysisError * P :=
  let maxPaths := or_default maxPaths 20 in
  if (maxPaths <? 1) || (100 <? maxPaths) || bool_decide (target = EmptyString) then (Err ErrProviderContract, p)
  else
    match Query_Paths (paths_request i (eligibleStarts changed) target maxPaths) requestID p with
    | (Err f, p) => (Err (ErrQuery f), p)
    | (Ok response, p) => (expand_answer i (eligibleStarts changed) target response, p)
    end.

(** ** Facts: the traversal *)
Section traversal.
Context (i : Input) (starts : list string).
Notation node_id r := (INode_ID (Depth_Node r)).

(** Which records the contract allows, and which ones count. *)
Definition allowed (r : NodeDepth) : Prop :=
  node_id r <> EmptyString /\ 0 <= Depth r <= MaxDepth (Input_Limits i) /\ (Depth r = 0 -> node_id r ∈ starts).
Definition counts (r : NodeDepth) : Prop := Depth r <> 0 /\ node_id r ∉ starts.
#[local] Instance counts_dec r : Decision (counts r) := _.
Definition entry_of (r : NodeDepth) : AffectedEntity := mkAffected (Depth_Node r) (Depth r) (Depth r =? 1) (2 <=? Depth r) false None.
Definition place (byID : gmap string AffectedEntity) (r : NodeDepth) : gmap string AffectedEntity :=
  if decide (counts r) then
    match byID !! node_id r with
    | Some a => if Depth r <? MinimumDepth a then <[node_id r := entry_of r]> byID else byID
    | None => <[node_id r := entry_of r]> byID
    end
  else byID.
Lemma traverse_node_Ok byID r byID' : traverse_node i starts byID r = Ok byID' <-> allowed r /\ byID' = place byID r.
Proof.
  unfold traverse_node, allowed, place, counts, entry_of. case_guard as Hg.
  - split; [done|]. intros [(Hid & Hd & _) _]. bool_to_prop. rewrite !orb_true_iff in Hg. bool_to_prop.
    destruct Hg as [[Hg|Hg]|Hg]; bool_to_prop; (done || lia).
  - apply orb_false_elim in Hg as [[Hid Hd]%orb_false_elim Hm]. bool_to_prop.
    destruct (Depth r =? 0) eqn:E; bool_to_prop; destruct (bool_decide (_ ∈ starts)) eqn:Es; bool_to_prop.
    + rewrite decide_False by naive_solver. split; [intros [= <-]|intros [_ ->]; done]. split_and!; (done || lia).
    + split; [done|]. intros [(_ & _ & Hz) _]. by specialize (Hz E).
    + rewrite decide_False by naive_solver. split; [intros [= <-]|intros [_ ->]; done]. split_and!; (done || lia).
    + rewrite decide_True by done. split.
      * intros [= <-]. split; [split_and!; (done || lia)|]. destruct (byID !! _); [|done]. by destruct (_ <? _).
      * intros [_ ->]. destruct (byID !! _); [|done]. by destruct (_ <? _).
Qed.
Lemma traverse_nodes_Ok records : forall byID byID',
  foldr_result (traverse_node i starts) byID records = Ok byID' <-> Forall allowed records /\ byID' = foldl place byID records.
Proof.
  induction records as [|r records IH]; intros byID byID'; simpl.
  - split; [intros [= <-]; by repeat constructor|intros [_ ->]; done].
  - rewrite result_bind_Ok, Forall_cons. setoid_rewrite traverse_node_Ok. setoid_rewrite IH. naive_solver.
Qed.

(** The entry of a node is its first record of least depth. *)
Record best (seen : list NodeDepth) (a : AffectedEntity) : Prop := {
  best_record : exists r, r ∈ seen /\ counts r /\ a = entry_of r;
  best_least : forall r, r ∈ seen -> counts r -> node_id r = Affected_ID a -> MinimumDepth a <= Depth r
}.
Definition tracks (seen : list NodeDepth) (byID : gmap string AffectedEntity) : Prop :=
  forall id, match byID !! id with
             | None => forall r, r ∈ seen -> counts r -> node_id r <> id
             | Some a => Affected_ID a = id /\ best seen a
             end.
Lemma best_snoc seen r a : best seen a -> (counts r -> node_id r = Affected_ID a -> MinimumDepth a <= Depth r) -> best (seen ++ [r]) a.
Proof.
  intros [(r' & Hin & Hc & Hn) Hl] Hr. split; [exists r'; set_solver|].
  intros r'' [Hin'| ->%list_elem_of_singleton]%elem_of_app; [by apply Hl|by apply Hr].
Qed.
Lemma best_first seen r : counts r -> (forall r', r' ∈ seen -> counts r' -> node_id r' = node_id r -> Depth r <= Depth r') -> best (seen ++ [r]) (entry_of r).
Proof.
  intros Hc Hr. split; [exists r; set_solver|]. simpl. unfold Affected_ID. simpl.
  intros r' [Hin| ->%list_elem_of_singleton]%elem_of_app Hc' Hid; [by apply Hr|lia].
Qed.
Lemma place_tracks seen byID r : tracks seen byID -> tracks (seen ++ [r]) (place byID r).
Proof.
  intros Ht id. unfold place. destruct (decide (counts r)) as [Hc|Hc].
  2:{ specialize (Ht id). destruct (byID !! id) as [a|]; [destruct Ht; split; [done|by apply best_snoc]|].
      intros r' [Hin| ->%list_elem_of_singleton]%elem_of_app; [by apply Ht|done]. }
  pose proof (Ht (node_id r)) as Hr. specialize (Ht id).
  assert (node_id r <> id -> match byID !! id with
    | None => forall r', r' ∈ (seen ++ [r])%list -> counts r' -> node_id r' <> id | Some a => Affected_ID a = id /\ best (seen ++ [r]) a end) as Hother.
  { intros Hne. destruct (byID !! id) as [a|]; [destruct Ht as [Hid Hb]; split; [done|apply best_snoc; [done|congruence]]|].
    intros r' [Hin| ->%list_elem_of_singleton]%elem_of_app; [by apply Ht|done]. }
  destruct (byID !! node_id r) as [a|] eqn:Hl; [destruct (_ <? _) eqn:E; bool_to_prop|];
    (destruct (decide (node_id r = id)) as [<-|Hne]; [|by rewrite ?lookup_insert_ne by done; apply Hother]).
  - rewrite lookup_insert_eq. split; [done|]. destruct Hr as [Hid [_ Hleast]]. apply best_first; [done|].
    intros r' Hin Hc' Hid'. etrans; [|apply Hleast; [done..|congruence]]. lia.
  - rewrite Hl. destruct Hr as [Hid Hb]. split; [done|]. by apply best_snoc.
  - rewrite lookup_insert_eq. split; [done|]. apply best_first; [done|]. intros r' Hin Hc' Hid'. by destruct (Hr r' Hin Hc').
Qed.
Lemma places_track records : tracks records (foldl place ∅ records).
Proof.
  induction records as [|r records IH] using rev_ind; [intros id; cbn [foldl]; rewrite lookup_empty; set_solver|].
  rewrite foldl_app. simpl. by apply place_tracks.
Qed.
End traversal.

Lemma elem_of_map_values {A : Type} (m : gmap string A) x : x ∈ (map_to_list m).*2 <-> exists k, m !! k = Some x.
Proof.
  rewrite list_elem_of_fmap. split.
  - intros ([k v] & -> & Hin%elem_of_map_to_list). by exists k.
  - intros [k Hk]. exists (k, x). split; [done|]. by apply elem_of_map_to_list.
Qed.
(** A map whose values know their keys. *)
Lemma NoDup_map_values {A : Type} (key : A -> string) (m : gmap string A) :
  (forall k x, m !! k = Some x -> key x = k) -> NoDup (key <$> (map_to_list m).*2).
Proof.
  intros Hk. assert (key <$> (map_to_list m).*2 = (map_to_list m).*1) as ->; [|apply NoDup_fst_map_to_list].
  rewrite <- list_fmap_compose. apply list_fmap_ext. intros n [k x] Hn%list_elem_of_lookup_2%elem_of_map_to_list. by apply Hk.
Qed.
#[global] Instance affected_less_weak : WeakOrder affected_less.
Proof. apply _. Qed.
Lemma affected_less_key x y : affected_less x y = false -> affected_less y x = false -> Affected_ID x = Affected_ID y.
Proof. intros Hxy Hyx. destruct (then_by_eq _ _ _ _ _ Hxy Hyx) as (_ & H1 & H2). by apply (st_total (less := String.ltb)). Qed.

Section exact.
Context (i : Input) (starts : list string).
Notation node_id r := (INode_ID (Depth_Node r)).

Lemma place_key records k a : foldl (place starts) ∅ records !! k = Some a -> Affected_ID a = k /\ best starts records a.
Proof. intros Hk. pose proof (places_track starts records k) as Ht. by rewrite Hk in Ht. Qed.
Lemma place_unordered records records' :
  NoDup ((fun r => node_id r) <$> records) -> records' ≡ₚ records -> foldl (place starts) ∅ records' = foldl (place starts) ∅ records.
Proof.
  intros Hnd Hp. apply map_eq. intros id. pose proof (places_track starts records id) as Ht. pose proof (places_track starts records' id) as Ht'.
  destruct (foldl _ _ records !! id) as [a|], (foldl _ _ records' !! id) as [a'|]; [| | |done].
  - destruct Ht as [Hid [(r & Hin & _ & ->) _]], Ht' as [Hid' [(r' & Hin' & _ & ->) _]]. rewrite Hp in Hin'.
    do 2 f_equal. apply (NoDup_fmap_key (fun r => node_id r) records); [done..|]. unfold Affected_ID in *. simpl in *. congruence.
  - destruct Ht as [Hid [(r & Hin & Hc & ->) _]]. rewrite <- Hp in Hin. by destruct (Ht' r Hin Hc).
  - destruct Ht' as [Hid [(r & Hin & Hc & ->) _]]. rewrite Hp in Hin. by destruct (Ht r Hin Hc).
Qed.

Lemma traverse_answer_Ok response r :
  traverse_answer i starts response = Ok r <->
  verifyIdentity i (Traverse_Resolved response) (Traverse_Hash response) = true /\ Forall (allowed i starts) (Traverse_Nodes response) /\
  r = let affected := sort_by affected_less (map_to_list (foldl (place starts) ∅ (Traverse_Nodes response))).*2 in
      mkDeterministic affected (MergeReasons [Traverse_Reasons response]) (Traverse_Warnings response) (Traverse_Truncated response)
        (if bool_decide (affected = []) then "empty" else "ready").
Proof.
  unfold traverse_answer. destruct (verifyIdentity _ _ _); simpl; [|naive_solver]. rewrite result_bind_Ok. setoid_rewrite traverse_nodes_Ok.
  split; [intros (m & [Ha ->] & [= <-]); done|intros (_ & Ha & ->); by eexists].
Qed.
End exact.

Definition with_nodes (response : TraverseResponse) (nodes : list NodeDepth) : TraverseResponse :=
  mkTraverseResponse (Traverse_Resolved response) (Traverse_Hash response) nodes (Traverse_Truncated response) (Traverse_Reasons response)
    (Traverse_Warnings response).

(** C19: The affected entities are exactly the nodes the provider reports beyond the changed ones, each once, at its least
    reported depth, which is between 1 and the limit, direct at depth 1 and indirect beyond, ordered by depth and
    identity.  They come from the pinned target snapshot only, and where the answer has every node once the order of its
    records makes no difference. *)
Theorem traversal_exact {P : Type} `{GraphQueryProvider P} i changed requestID (p p' : P) r :
  let starts := eligibleStarts changed in
  starts <> [] -> Traverse i changed requestID p = (Ok r, p') ->
  exists response,
    Query_Traverse (traverse_request i starts) requestID p = (Ok response, p') /\
    Traverse_Resolved response = Identity_RevisionID (Input_Target i) /\ Traverse_Hash response = GraphManifestHash (Input_Target i) /\
    (forall a, a ∈ Deterministic_Affected r ->
       best starts (Traverse_Nodes response) a /\ Affected_ID a ∉ starts /\ 1 <= MinimumDepth a <= MaxDepth (Input_Limits i) /\
       Direct a = bool_decide (MinimumDepth a = 1) /\ Indirect a = negb (Direct a)) /\
    (forall record, record ∈ Traverse_Nodes response -> INode_ID (Depth_Node record) ∉ starts ->
       INode_ID (Depth_Node record) ∈ Affected_ID <$> Deterministic_Affected r) /\
    NoDup (Affected_ID <$> Deterministic_Affected r) /\ StronglySorted (not_after affected_less) (Deterministic_Affected r) /\
    (forall nodes, NoDup ((fun r => INode_ID (Depth_Node r)) <$> Traverse_Nodes response) -> nodes ≡ₚ Traverse_Nodes response ->
       traverse_answer i starts (with_nodes response nodes) = Ok r).
Proof.
  intros starts Hne. unfold Traverse. fold starts. rewrite bool_decide_false by done.
  destruct (Query_Traverse _ _ _) as [[response|] q] eqn:Hq; [|done]. intros [= Ha ->].
  apply traverse_answer_Ok in Ha as (Hv & Hall & ->). cbv zeta. cbn [Deterministic_Affected]. exists response. split; [done|].
  unfold verifyIdentity in Hv. apply andb_true_iff in Hv as [Hv Hh]. apply bool_decide_eq_true in Hv, Hh. split_and!; [exact Hv|exact Hh|..].
  - intros a Ha. apply elem_of_sort_by, elem_of_map_values in Ha as [k Ha]. apply place_key in Ha as [_ Hb]. split; [done|].
    destruct Hb as [(record & Hin & [Hd Hs] & ->) _]. rewrite Forall_forall in Hall. destruct (Hall record Hin) as (_ & Hr & _).
    unfold Affected_ID. simpl. split_and!; [done|lia|lia| |].
    + destruct (Z.eqb_spec (Depth record) 1) as [E|E]; [rewrite bool_decide_true by exact E|rewrite bool_decide_false by exact E]; done.
    + destruct (Z.eqb_spec (Depth record) 1), (Z.leb_spec 2 (Depth record)); simpl; (done || lia).
  - intros record Hin Hs. rewrite Forall_forall in Hall. destruct (Hall record Hin) as (_ & _ & Hz).
    assert (counts starts record) as Hc by (split; [by intros ?%Hz|done]).
    pose proof (places_track starts (Traverse_Nodes response) (INode_ID (Depth_Node record))) as Ht.
    destruct (_ !! _) as [a|] eqn:Hl; [|by destruct (Ht record Hin Hc)]. apply list_elem_of_fmap. exists a. destruct Ht as [<- _]. split; [done|].
    apply elem_of_sort_by, elem_of_map_values. by eexists.
  - rewrite sort_by_perm. apply NoDup_map_values. intros k a Hk. by apply place_key in Hk as [Hk _].
  - apply sort_by_sorted, _.
  - intros nodes Hnd Hp. apply traverse_answer_Ok. simpl. split_and!; [|by rewrite Hp|by rewrite (place_unordered starts _ _ Hnd Hp)].
    unfold verifyIdentity. by rewrite Hv, Hh, !bool_decide_true.
Qed.

(** ** Facts: paths *)
Definition allows (types : list string) (type : string) : Prop := types = [] \/ type ∈ types.
Lemma containsOptional_sorted types type :
  StronglySorted (not_after String.ltb) types -> containsOptional types type = true <-> allows types type.
Proof. intros Hs. unfold containsOptional, contains, allows. by rewrite orb_true_iff, bool_decide_eq_true, search_contains_sorted. Qed.
(** The filters of a normalised input are searched as sets. *)
Definition searchable (f : Filters) : Prop :=
  StronglySorted (not_after String.ltb) (NodeTypes f) /\ StronglySorted (not_after String.ltb) (EdgeTypes f).
Lemma strictly_sorted l : StronglySorted (fun a b => String.ltb a b = true) l -> StronglySorted (not_after String.ltb) l.
Proof.
  induction 1 as [|x l _ IH Hx]; constructor; [done|]. eapply Forall_impl; [exact Hx|]. intros y Hy. by apply (wo_asym String.ltb).
Qed.
Lemma normal_searchable f n : normal_filters f n -> searchable n.
Proof. intros [_ [_ Hn] [_ He] _]. by split; apply strictly_sorted. Qed.

(** The way an edge may be taken. *)
Definition directed (direction : Direction) (e : ImpactEdge) (from to : string) : Prop :=
  match direction with
  | DirectionIncoming => IEdge_From e = to /\ IEdge_To e = from
  | DirectionOutgoing => IEdge_From e = from /\ IEdge_To e = to
  | DirectionBoth => (IEdge_From e = from /\ IEdge_To e = to) \/ (IEdge_From e = to /\ IEdge_To e = from)
  | DirectionOther _ => False
  end.
Lemma edgeAllowed_iff e from to direction : edgeAllowed e from to direction = true <-> directed direction e from to.
Proof. unfold edgeAllowed, directed. destruct direction; rewrite ?orb_true_iff, ?andb_true_iff, ?bool_decide_eq_true; done. Qed.

(** A route of the target's graph from a changed entity to an affected one. *)
Record route (i : Input) (starts : list string) (target : string) (path : Path) : Prop := {
  route_start : exists rest, Path_NodeIDs path = Path_Source path :: rest;
  route_source : Path_Source path ∈ starts;
  route_end : last (Path_NodeIDs path) = Some target;
  route_simple : NoDup (Path_NodeIDs path);
  route_length : length (Path_NodeIDs path) = S (length (Path_EdgeIDs path)) /\ 1 <= count (Path_EdgeIDs path) <= MaxDepth (Input_Limits i);
  route_nodes : INode_ID <$> Path_Nodes path = Path_NodeIDs path;
  route_edges : IEdge_ID <$> Path_Edges path = Path_EdgeIDs path;
  route_hops : forall k e from to, Path_Edges path !! k = Some e -> Path_NodeIDs path !! k = Some from -> Path_Nodes path !! S k = Some to ->
    IEdge_RelationKind e = "explicit"%string /\ IEdge_HasProvenance e = true /\
    directed (Filters_Direction (Input_Filters i)) e from (INode_ID to) /\
    allows (EdgeTypes (Input_Filters i)) (IEdge_Type e) /\ allows (NodeTypes (Input_Filters i)) (INode_Type to)
}.
Lemma forallb_zip_fmap {A : Type} (f : A -> string) (p : string -> bool) ids (l : list A) :
  length l = length ids -> forallb (fun '(id, x) => p id && bool_decide (f x = id)) (zip ids l) = true -> f <$> l = ids.
Proof.
  revert ids. induction l as [|x l IH]; intros [|id ids]; simpl; [done..|]. intros [= Hl] Hf. apply andb_true_iff in Hf as [Hf Hrest].
  apply andb_true_iff in Hf as [_ Hx]. apply bool_decide_eq_true in Hx. f_equal; [done|by apply IH].
Qed.
Lemma validatePath_route i starts target path :
  StronglySorted (not_after String.ltb) starts -> searchable (Input_Filters i) ->
  validatePath path starts target i = true -> route i starts target path.
Proof.
  intros Hstarts [Hnt Het] Hv. unfold validatePath, count in Hv. rewrite !andb_true_iff in Hv.
  destruct Hv as [[[[[[[[[[[[Ht Hh1] Hh2] Hn] He] Hnn] Hee] Hhead] Hlast] Hsource] Hids] Hnd] Hhops].
  bool_to_prop. apply nodupb_NoDup in Hnd.
  assert (INode_ID <$> Path_Nodes path = Path_NodeIDs path) as Hnodes.
  { eapply (forallb_zip_fmap INode_ID (fun id => negb (bool_decide (id = EmptyString)))); [lia|done]. }
  rewrite forallb_forall in Hhops.
  assert (forall k e from to, Path_Edges path !! k = Some e -> Path_NodeIDs path !! k = Some from -> Path_Nodes path !! S k = Some to ->
    exists id, Path_EdgeIDs path !! k = Some id /\ valid_hop i ((id, e), (from, (INode_ID to, to))) = true) as Hhop.
  { intros k e from to Hke Hkf Hkt. destruct (lookup_lt_is_Some_2 (Path_EdgeIDs path) k) as [id Hid].
    { apply lookup_lt_Some in Hke. lia. }
    exists id. split; [done|]. apply Hhops, list_elem_of_In. apply list_elem_of_lookup. exists k. unfold hops.
    rewrite !lookup_zip_Some, !lookup_tail. split_and!; [done|done|done|by rewrite <- Hnodes, list_lookup_fmap, Hkt|done]. }
  split.
  - destruct (Path_NodeIDs path) as [|x rest]; [done|]. injection Hhead as ->. by exists rest.
  - by apply search_contains_sorted in Hsource.
  - done.
  - done.
  - unfold count. lia.
  - done.
  - apply list_eq. intros k. rewrite list_lookup_fmap. destruct (Path_Edges path !! k) as [e|] eqn:Hke; simpl.
    + pose proof (lookup_lt_Some _ _ _ Hke) as Hlt. destruct (lookup_lt_is_Some_2 (Path_NodeIDs path) k) as [from Hfrom]; [lia|].
      destruct (lookup_lt_is_Some_2 (Path_Nodes path) (S k)) as [to Hto]; [lia|]. destruct (Hhop _ _ _ _ Hke Hfrom Hto) as (id & -> & Hval).
      unfold valid_hop in Hval. rewrite !andb_true_iff in Hval. destruct Hval as [[[[[Hi _] _] _] _] _]. apply bool_decide_eq_true in Hi. by rewrite Hi.
    + symmetry. apply lookup_ge_None. apply lookup_ge_None in Hke. lia.
  - intros k e from to Hke Hkf Hkt. destruct (Hhop _ _ _ _ Hke Hkf Hkt) as (id & _ & Hval). unfold valid_hop in Hval.
    rewrite !andb_true_iff in Hval. destruct Hval as [[[[[_ Hk] Hp] Hd] Hte] Htn]. apply bool_decide_eq_true in Hk.
    apply edgeAllowed_iff in Hd. split_and!; [done..|by apply containsOptional_sorted|by apply containsOptional_sorted].
Qed.

(** ** The collector of the concurrent path queries *)
Section collector.
Context (i : Input) (starts : list string) (affected : list AffectedEntity) (answer : nat -> result PathsResponse AnalysisError).

Definition arrive (k : nat) : Arrival := (k, answer k).
Definition answered {A : Type} (f : PathsResponse -> A) (def : A) (k : nat) : A := match answer k with Ok r => f r | Err _ => def end.
Definition put (l : list AffectedEntity) (k : nat) : list AffectedEntity :=
  match answered Paths [] k, l !! k with [path], Some a => <[k := with_path path a]> l | _, _ => l end.
(** The answer of query [k] is accepted, whatever has arrived before. *)
Definition accepted (k : nat) : Prop :=
  exists response path a, answer k = Ok response /\ affected !! k = Some a /\ Paths response = [path] /\
    verifyIdentity i (Paths_Resolved response) (Paths_Hash response) = true /\ validatePath path starts (Affected_ID a) i = true.
Lemma with_path_ID path a : Affected_ID (with_path path a) = Affected_ID a.
Proof. done. Qed.
Lemma put_ids l k : Affected_ID <$> put l k = Affected_ID <$> l.
Proof.
  unfold put. destruct (answered Paths [] k) as [|path [|]]; [done| |done]. destruct (l !! k) as [a|] eqn:Hk; [|done].
  rewrite list_fmap_insert, with_path_ID. apply list_insert_id. by rewrite list_lookup_fmap, Hk.
Qed.
Lemma collect_Ok ordered reasons warnings k acc :
  Affected_ID <$> ordered = Affected_ID <$> affected ->
  collect i starts (ordered, reasons, warnings) (arrive k) = Ok acc <->
  accepted k /\ acc = (put ordered k, reasons ++ answered Paths_Reasons [] k, warnings ++ answered Paths_Warnings [] k)%list.
Proof.
  intros Hids. unfold collect, arrive, accepted, put, answered. simpl.
  destruct (answer k) as [response|e]; simpl; [|split; [done|by intros [(r' & path' & b' & ? & _) _]]].
  assert (Affected_ID <$> ordered !! k = Affected_ID <$> affected !! k) as Hk by by rewrite <- !list_lookup_fmap, Hids.
  destruct (verifyIdentity _ _ _) eqn:Hv; simpl; [|split; [done|intros [(r' & path' & b' & [= <-] & _ & _ & Hv' & _) _]; congruence]].
  destruct (Paths response) as [|path [|]] eqn:Hp;
    [by split; [|intros [(r' & path' & b' & [= <-] & _ & Hp' & _) _]; congruence]| |by split; [|intros [(r' & path' & b' & [= <-] & _ & Hp' & _) _]; congruence]].
  destruct (ordered !! k) as [a|], (affected !! k) as [b|]; simpl in Hk; try discriminate; [|by split; [|intros [(r' & path' & b' & _ & ? & _) _]]].
  injection Hk as Hk. destruct (validatePath path starts (Affected_ID a) i) eqn:Hval; simpl.
  - split; [intros [= <-]|intros [_ ->]; done]. split; [|done]. exists response, path, b. by rewrite <- Hk.
  - split; [done|]. intros [(r' & path' & b' & [= <-] & [= <-] & Hp' & _ & Hv') _]. rewrite Hp in Hp'. injection Hp' as <-. congruence.
Qed.
Lemma collects_Ok order : forall ordered reasons warnings acc,
  Affected_ID <$> ordered = Affected_ID <$> affected ->
  foldr_result (collect i starts) (ordered, reasons, warnings) (arrive <$> order) = Ok acc <->
  Forall accepted order /\
  acc = (foldl put ordered order, reasons ++ mjoin (answered Paths_Reasons [] <$> order), warnings ++ mjoin (answered Paths_Warnings [] <$> order))%list.
Proof.
  induction order as [|k order IH]; intros ordered reasons warnings acc Hids; simpl.
  - rewrite !app_nil_r. split; [intros [= <-]; by repeat constructor|intros [_ ->]; done].
  - rewrite result_bind_Ok, Forall_cons. split.
    + intros (acc' & [Ha ->]%collect_Ok & Hrest); [|done]. apply IH in Hrest as [Hall ->]; [|by rewrite put_ids]. split; [done|]. by rewrite !app_assoc.
    + intros [[Ha Hall] ->]. eexists. split; [by apply collect_Ok|]. apply IH; [by rewrite put_ids|]. split; [done|]. by rewrite !app_assoc.
Qed.
Lemma puts_lookup order l k :
  foldl put l order !! k =
  if decide (k ∈ order) then match answered Paths [] k with [path] => with_path path <$> l !! k | _ => l !! k end else l !! k.
Proof.
  induction order as [|j order IH] using rev_ind; [done|]. rewrite foldl_app. cbn [foldl].
  unfold put at 1. destruct (decide (j = k)) as [->|Hne].
  - rewrite decide_True by set_solver. destruct (answered Paths [] k) as [|path [|]] eqn:Hp; [by rewrite IH; case_decide| |by rewrite IH; case_decide].
    assert (with_path path <$> foldl put l order !! k = with_path path <$> l !! k) as Hw by (rewrite IH; case_decide; [by destruct (l !! k)|done]).
    destruct (foldl put l order !! k) as [a|] eqn:Ha; simpl in Hw; [|by rewrite Ha].
    rewrite list_lookup_insert_eq; [exact Hw|]. by eapply lookup_lt_Some.
  - assert ((match answered Paths [] j, foldl put l order !! j with
             | [path], Some a => <[j := with_path path a]> (foldl put l order) | _, _ => foldl put l order end) !! k = foldl put l order !! k) as ->.
    { destruct (answered Paths [] j) as [|path [|]]; [done| |done]. destruct (_ !! j); [|done]. by rewrite list_lookup_insert_ne. }
    rewrite IH. destruct (decide (k ∈ order)); [by rewrite decide_True by set_solver|]. rewrite decide_False; [done|]. set_solver.
Qed.
Lemma puts_length order l : length (foldl put l order) = length l.
Proof.
  revert l. induction order as [|k order IH]; intros l; simpl; [done|]. rewrite IH, <- (length_fmap Affected_ID (put l k)), put_ids. by rewrite length_fmap.
Qed.
End collector.

#[global] Instance MergeReasons_perm : Proper ((≡ₚ) ==> eq) (fun l => MergeReasons [l]).
Proof.
  intros l l' Hp. unfold MergeReasons. apply List.filter_ext. intros r. apply bool_decide_ext. simpl. by rewrite !app_nil_r, Hp.
Qed.
#[global] Instance stableWarnings_perm : Proper ((≡ₚ) ==> eq) stableWarnings.
Proof. intros l l' Hp. unfold stableWarnings. apply string_set_proper, filter_same. intros x. by rewrite Hp. Qed.
#[global] Instance mjoin_perm {A B : Type} (f : A -> list B) : Proper ((≡ₚ) ==> (≡ₚ)) (fun l => mjoin (f <$> l)).
Proof.
  intros l l' Hp. induction Hp as [|x l l' _ IH|x y l|l l' l'' _ IH _ IH']; simpl; [done|by rewrite IH|by rewrite !app_assoc, (Permutation_app_comm (f y))|by etrans].
Qed.

(** C18: Whatever the order in which the workers' answers arrive, the default paths are the same or the query fails: an
    accepted collection is accepted in every order with the same entities, reasons and warnings; every affected entity
    then carries one path, which is a route: simple, from a changed entity to it, within the depth, hop by hop in the
    wanted direction over explicit edges of the wanted types.  No collection that misses an answer is accepted. *)
Theorem default_paths_any_order i changed affected answer order r :
  searchable (Input_Filters i) -> eligibleStarts changed <> [] -> affected <> [] -> order ≡ₚ seq 0 (length affected) ->
  DefaultPaths i changed affected (arrive answer <$> order) = Ok r ->
  (forall order', order' ≡ₚ seq 0 (length affected) -> DefaultPaths i changed affected (arrive answer <$> order') = Ok r) /\
  (forall k a, affected !! k = Some a ->
     exists path, r.1.1 !! k = Some (with_path path a) /\ route i (eligibleStarts changed) (Affected_ID a) path) /\
  Affected_ID <$> r.1.1 = Affected_ID <$> affected /\
  (forall arrivals r', DefaultPaths i changed affected arrivals = Ok r' -> length arrivals = length affected).
Proof.
  intros Hs Hne Ha Hp Hr. unfold DefaultPaths in *. rewrite !bool_decide_false in Hr |- * by done. simpl in *.
  set (starts := eligibleStarts changed) in *. apply result_bind_Ok in Hr as (acc & Hc & Hr).
  apply (collects_Ok i starts affected answer order affected [] [] acc eq_refl) in Hc as [Hall ->].
  assert (forall l, l ≡ₚ seq 0 (length affected) -> length (arrive answer <$> l) = length affected) as Hlen.
  { intros l Hl. by rewrite length_fmap, Hl, length_seq. }
  rewrite bool_decide_true in Hr by by apply Hlen. injection Hr as <-. cbn [fst snd app]. split_and!.
  - intros order' Hp'. assert (order' ≡ₚ order) as Hoo by by rewrite Hp, Hp'.
    assert (Forall (accepted i starts affected answer) order') as Hall' by by rewrite Hoo.
    rewrite (proj2 (collects_Ok i starts affected answer order' affected [] [] _ eq_refl) (conj Hall' eq_refl)).
    simpl. rewrite bool_decide_true by by apply Hlen. simpl. f_equal. f_equal; [f_equal|].
    + apply list_eq. intros k. rewrite !puts_lookup. by rewrite (decide_ext (k ∈ order') (k ∈ order)) by by rewrite Hoo.
    + apply (MergeReasons_perm _ _ (mjoin_perm _ _ _ Hoo)).
    + apply (stableWarnings_perm _ _ (mjoin_perm _ _ _ Hoo)).
  - intros k a Hk. assert (k ∈ order) as Hin by (rewrite Hp; apply elem_of_seq; apply lookup_lt_Some in Hk; lia).
    rewrite Forall_forall in Hall. destruct (Hall k Hin) as (response & path & a' & Hans & Hk' & Hpath & _ & Hval).
    rewrite Hk in Hk'. injection Hk' as <-. exists path. split; [|by apply validatePath_route; [apply string_set_below|..]].
    rewrite puts_lookup, decide_True by done. unfold answered. by rewrite Hans, Hpath, Hk.
  - clear. induction order as [|k order IH] using rev_ind; [done|]. rewrite foldl_app. simpl. by rewrite put_ids.
  - intros arrivals r' Hr. apply result_bind_Ok in Hr as ([[o rs] ws] & _ & Hr).
    case_bool_decide; [done|discriminate].
Qed.

(** Expanded paths are routes to the target. *)
Lemma expand_answer_routes i changed target response paths reasons warnings :
  searchable (Input_Filters i) -> expand_answer i (eligibleStarts changed) target response = Ok (paths, reasons, warnings) ->
  Forall (route i (eligibleStarts changed) target) paths.
Proof.
  intros Hs. unfold expand_answer. case_guard; [done|]. case_guard as Hf; [done|]. intros [= <- _ _]. apply negb_false_iff, forallb_Forall in Hf.
  eapply Forall_impl; [exact Hf|]. intros path Hv. by apply validatePath_route; [apply string_set_below|..].
Qed.
