(* ===== verification/ImpactRetrieval.v ===== *)
(** * internal/graph/impact/retrieval: suspected associations and their explanation

    service.go and explainer.go.  The retrieval sends one bounded text that
    describes the changed entities; the explanation of a report's evidence is
    kept only when it cites nothing but that evidence. *)
From S2P Require Import Prelude GoSort GoStrings GoCrypto GoJson JsonRoundTrip Domain DomainEntity.
From S2P Require VersionDiff GraphProjector.
From S2P Require Import GraphSync ImpactPlan ImpactAnalysis.
Import GraphProjector(marshal_struct, marshal_array).
Open Scope Z_scope.

(** ** service.go *)
Definition MaxQueryBytes : Z := 16 * 1024.
Definition query_header : string := "dependency-impact-query-v1" +:+ String (char_of 10) "".
(** A node that the map lacks is the zero node. *)
Definition zero_node : ImpactNode := mkImpactNode "" "" "" "".
Definition query_line (nodes : gmap string ImpactNode) (item : ChangedEntity) : string :=
  let node := default zero_node (nodes !! TargetNodeID item) in
  ("node=" +:+ TargetNodeID item +:+ " kind=" +:+ EntityKind_text (Changed_Kind item) +:+ " change=" +:+ VersionDiff.kind_text (Changed_ChangeKind item) +:+
   " fields=" +:+ Join (sort_strings (FieldPaths item)) "," +:+ " label=" +:+ INode_Label node +:+ " text=" +:+ INode_Text node +:+
   String (char_of 10) "")%string.
Definition queried (item : ChangedEntity) : bool := QueryEligible item && negb (bool_decide (TargetNodeID item = EmptyString)).
Fixpoint write_lines (nodes : gmap string ImpactNode) (rows : list ChangedEntity) (built : string) : string :=
  match rows with
  | [] => built
  | item :: rows =>
      if negb (queried item) then write_lines nodes rows built
      else
        let remaining := MaxQueryBytes - string_len built in
        if remaining <=? 0 then built
        else
          let line := query_line nodes item in
          let line := if remaining <? string_len line then string_take (Z.to_nat remaining) line else line in
          write_lines nodes rows (built +:+ line)%string
  end.
Definition BuildQuery (changed : list ChangedEntity) (nodes : gmap string ImpactNode) : string :=
  write_lines nodes (sort_by (less_on Changed_EntityID String.ltb) changed) query_header.

Inductive SuspectedState :=
  | SuspectedDisabled | SuspectedReady | SuspectedDegraded | SuspectedRebuildRequired | SuspectedUnavailable | SuspectedCanceled.
#[global] Instance SuspectedState_eq_dec : EqDecision SuspectedState.
Proof. solve_decision. Defined.
Record RetrievalResult := mkRetrieval {
  Retrieval_State : SuspectedState; Retrieval_Evidence : list SuspectedEvidence; Retrieval_Warnings : list string
}.
Definition retrieve_request (i : Input) (query : string) : RetrieveRequest :=
  mkRetrieve (Input_ProjectID i) (Identity_RevisionID (Input_Target i)) query ["explicit"%string] (NodeTypes (Input_Filters i))
    (EdgeTypes (Input_Filters i)) (MaxSeeds (Suspected i)) (MaxResults (Suspected i)) (GraphMaxDepth (Suspected i)).
(** A missing index or an unavailable provider is a state of the result; any
    other answer that is not of the target's snapshot is an error. *)
Definition Retrieve {P : Type} `{GraphQueryProvider P} (i : Input) (changed : list ChangedEntity) (nodes : gmap string ImpactNode)
    (requestID : string) (p : P) : result RetrievalResult AnalysisError * P :=
  if negb (Suspected_Enabled (Suspected i)) then (Ok (mkRetrieval SuspectedDisabled [] []), p)
  else
    match Query_Retrieve (retrieve_request i (BuildQuery changed nodes)) requestID p with
    | (Err (Transport _), p) => (Ok (mkRetrieval SuspectedUnavailable [] ["RETRIEVAL_UNAVAILABLE"%string]), p)
    | (Err (Provider e), p) =>
        (if bool_decide (Error_Code e = "SNAPSHOT_INDEX_NOT_READY"%string) then
           Ok (mkRetrieval SuspectedRebuildRequired [] ["SNAPSHOT_INDEX_NOT_READY"%string])
         else if among (Error_Code e) ["RETRIEVAL_UNAVAILABLE"; "GRAPH_STORE_UNAVAILABLE"]%string then
           Ok (mkRetrieval SuspectedUnavailable [] [Error_Code e])
         else Err (ErrQuery (Provider e)), p)
    | (Ok response, p) =>
        (if negb (verifyIdentity i (Retrieve_Resolved response) (Retrieve_Hash response)) then Err ErrProviderContract
         else Ok (mkRetrieval (if Degraded response then SuspectedDegraded else SuspectedReady) (Retrieve_Results response)
                    (stableWarnings (Retrieve_Warnings response))), p)
    end.

(** ** explainer.go *)
Record EvidenceRef := mkRef { Ref_ID : string; Ref_Hash : string; Ref_Kind : string }.
Record ExplanationOutput := mkExplanation { Output_Text : string; Output_Provider : string; Output_Model : string; Output_Refs : list string }.
Record ExplanationAttempt := mkAttempt {
  Attempt_ID : ID; Attempt_ReportID : ID; Attempt_InputHash : string; Attempt_Status : string; Attempt_Text : string; Attempt_Provider : string;
  Attempt_Model : string; Attempt_Refs : list string; Diagnostics : string; Attempt_CreatedAt : Time
}.
Definition MaxExplanationRefs : Z := 50.
Definition ErrInvalidExplanation : string := "invalid evidence explanation".
(** The error of an explainer: that of its context, or another. *)
Inductive ExplainFailure := ContextEnded | ExplainerFailed (message : string).
Definition explain_diagnostic (f : ExplainFailure) : string := match f with ContextEnded => "AI_TIMEOUT" | ExplainerFailed _ => "AI_UNAVAILABLE" end.
Definition ref_json (r : EvidenceRef) : string :=
  marshal_struct [("id", marshal_string (Ref_ID r)); ("hash", marshal_string (Ref_Hash r)); ("kind", marshal_string (Ref_Kind r))]%string.
Definition valid_ref (r : EvidenceRef) : bool :=
  negb (bool_decide (Ref_ID r = EmptyString)) && ValidHash (Ref_Hash r) && negb (bool_decide (Ref_Kind r = EmptyString)).

Section explanation.
Context `{UuidLib}.

Definition ref_count (reportID : ID) (refs : list EvidenceRef) : bool :=
  ID_Valid reportID && negb (bool_decide (refs = [])) && (count refs <=? MaxExplanationRefs).
Definition ExplanationInputHash (reportID : ID) (refs : list EvidenceRef) : result (list EvidenceRef * string) string :=
  if negb (ref_count reportID refs) then Err ErrInvalidExplanation
  else
    let refs := sort_by (less_on Ref_ID String.ltb) refs in
    if negb (forallb valid_ref refs && nodupb (Ref_ID <$> refs)) then Err ErrInvalidExplanation
    else Ok (refs, sha256_hex (marshal_struct [("version", marshal_string AnalysisContractVersion); ("report_id", marshal_string reportID);
                                               ("refs", marshal_array (ref_json <$> refs))]%string)).
Definition Explain (explainer : ID -> list EvidenceRef -> result ExplanationOutput ExplainFailure) (newID : result ID string) (now : Time)
    (reportID : ID) (refs : list EvidenceRef) : result ExplanationAttempt string :=
  if negb (ref_count reportID refs) then Err ErrInvalidExplanation
  else
    let? (refs, hash) := ExplanationInputHash reportID refs in
    let? attemptID := newID in
    let failed diagnostics := mkAttempt attemptID reportID hash "failed" "" "" "" [] diagnostics now in
    Ok match explainer reportID refs with
       | Err f => failed (explain_diagnostic f)
       | Ok output =>
           if bool_decide (TrimSpace (Output_Text output) = EmptyString) || bool_decide (Output_Provider output = EmptyString) ||
              bool_decide (Output_Model output = EmptyString) || bool_decide (Output_Refs output = [])
           then failed "INVALID_EXPLANATION_OUTPUT"%string
           else if negb (forallb (fun id => bool_decide (id ∈ Ref_ID <$> refs)) (Output_Refs output)) then failed "UNSUPPORTED_EVIDENCE_REF"%string
           else mkAttempt attemptID reportID hash "succeeded" (Output_Text output) (Output_Provider output) (Output_Model output) (Output_Refs output) "" now
       end.
End explanation.

(** ** Facts *)
Lemma write_lines_bounded nodes rows : forall built, string_len built <= MaxQueryBytes ->
  string_len (write_lines nodes rows built) <= MaxQueryBytes /\ exists rest, write_lines nodes rows built = (built +:+ rest)%string.
Proof.
  induction rows as [|item rows IH]; intros built Hb; cbn [write_lines]; [split; [done|exists ""%string; by rewrite string_app_empty]|].
  case_guard; [by apply IH|]. case_guard as Hr; [split; [done|exists ""%string; by rewrite string_app_empty]|]. apply Z.leb_gt in Hr. cbv zeta.
  set (line := if _ <? _ then _ else _).
  assert (string_len line <= MaxQueryBytes - string_len built) as Hl.
  { unfold line, string_len in *. case_guard as Hc; [|by apply Z.ltb_ge in Hc]. rewrite length_string_take. lia. }
  destruct (IH (built +:+ line)%string) as [Hlen [rest Heq]].
  { unfold string_len in *. rewrite string_length_app. lia. }
  split; [done|]. exists (line +:+ rest)%string. rewrite Heq. apply string_app_assoc.
Qed.
(** The query fits the contract, is not blank, and does not depend on the order
    in which the changed entities are listed. *)
Lemma BuildQuery_bounded changed nodes : string_len (BuildQuery changed nodes) <= MaxQueryBytes /\ TrimSpace (BuildQuery changed nodes) <> EmptyString.
Proof.
  destruct (write_lines_bounded nodes (sort_by (less_on Changed_EntityID String.ltb) changed) query_header) as [Hl [rest Heq]]; [by vm_compute|].
  split; [exact Hl|]. unfold BuildQuery. rewrite Heq. unfold query_header. simpl. by apply TrimSpace_nonblank.
Qed.
Lemma BuildQuery_perm changed changed' nodes :
  NoDup (Changed_EntityID <$> changed) -> changed ≡ₚ changed' -> BuildQuery changed nodes = BuildQuery changed' nodes.
Proof. intros Hnd Hp. unfold BuildQuery. by rewrite (sort_on_key_unique Changed_EntityID String.ltb changed changed'). Qed.

Section explained.
Context `{UuidLib}.

Lemma ref_count_perm reportID refs refs' : refs' ≡ₚ refs -> ref_count reportID refs' = ref_count reportID refs.
Proof.
  intros Hp. unfold ref_count, count. rewrite (Permutation_length Hp). do 3 f_equal. apply bool_decide_ext.
  split; intros ->; [by apply Permutation_nil_l in Hp|by apply Permutation_nil_r in Hp].
Qed.
Lemma ExplanationInputHash_Ok reportID refs sorted hash :
  ExplanationInputHash reportID refs = Ok (sorted, hash) -> Forall (fun r => ValidHash (Ref_Hash r) = true) sorted /\ sorted ≡ₚ refs.
Proof.
  unfold ExplanationInputHash. case_guard; [done|]. case_guard as Hg; [done|]. intros [= <- _]. split; [|apply sort_by_perm].
  apply negb_false_iff, andb_true_iff in Hg as [Hv _]. apply forallb_Forall in Hv. eapply Forall_impl; [exact Hv|]. intros r Hr. unfold valid_ref in Hr.
  by rewrite !andb_true_iff in Hr; destruct Hr as [[_ ?] _].
Qed.
Lemma ExplanationInputHash_perm reportID refs refs' sorted_hash :
  refs' ≡ₚ refs -> ExplanationInputHash reportID refs = Ok sorted_hash -> ExplanationInputHash reportID refs' = Ok sorted_hash.
Proof.
  intros Hp Hh. unfold ExplanationInputHash in *. rewrite (ref_count_perm _ _ _ Hp). destruct (negb (ref_count _ _)); [done|]. cbv zeta in *.
  assert (sort_by (less_on Ref_ID String.ltb) refs' = sort_by (less_on Ref_ID String.ltb) refs) as ->; [|exact Hh].
  destruct (negb _) eqn:Hg in Hh; [done|]. apply negb_false_iff, andb_true_iff in Hg as [_ Hnd]. apply nodupb_NoDup in Hnd.
  rewrite sort_by_perm in Hnd. symmetry. apply sort_on_key_unique; [apply _|done|by symmetry].
Qed.

(** An explanation that is kept cites evidence only: a succeeded attempt has a text, names its provider and model, and
    every reference in it is one of the given ones; every other attempt keeps neither text nor references.  The attempt is
    identified by its report and the set of the evidence: the order in which it is listed makes no difference. *)
Theorem explanation_cites_given_evidence explainer newID now reportID refs attempt :
  Explain explainer newID now reportID refs = Ok attempt ->
  Attempt_ReportID attempt = reportID /\ 1 <= count refs <= MaxExplanationRefs /\
  (Attempt_Status attempt = "succeeded"%string ->
     TrimSpace (Attempt_Text attempt) <> EmptyString /\ Attempt_Provider attempt <> EmptyString /\ Attempt_Model attempt <> EmptyString /\
     Attempt_Refs attempt <> [] /\ forall id, id ∈ Attempt_Refs attempt -> exists r, r ∈ refs /\ Ref_ID r = id /\ ValidHash (Ref_Hash r) = true) /\
  (Attempt_Status attempt <> "succeeded"%string -> Attempt_Status attempt = "failed"%string /\ Attempt_Text attempt = EmptyString /\ Attempt_Refs attempt = []) /\
  (forall refs', refs' ≡ₚ refs -> Explain explainer newID now reportID refs' = Ok attempt).
Proof.
  intros He. assert (forall refs', refs' ≡ₚ refs -> Explain explainer newID now reportID refs' = Ok attempt) as Hperm.
  { intros refs' Hp. unfold Explain in *. rewrite (ref_count_perm _ _ _ Hp). destruct (negb (ref_count reportID refs)); [done|].
    pose proof He as ([sorted hash] & Hh & _)%result_bind_Ok. rewrite (ExplanationInputHash_perm _ _ _ _ Hp Hh), <- He. by rewrite Hh. }
  unfold Explain in He. destruct (negb (ref_count reportID refs)) eqn:Hc; [done|]. apply negb_false_iff in Hc. apply result_bind_Ok in He as ([sorted hash] & Hh & He).
  apply result_bind_Ok in He as (attemptID & _ & [= <-]). apply ExplanationInputHash_Ok in Hh as (Hvalid & Hp).
  assert (1 <= count refs <= MaxExplanationRefs) as Hcount.
  { unfold ref_count, count in *. rewrite !andb_true_iff in Hc. destruct Hc as [[_ Hne] Hm%Z.leb_le]. destruct refs; [done|]. simpl in *. lia. }
  split; [by repeat case_match|]. split; [exact Hcount|]. split; [|split; [|exact Hperm]].
  2:{ repeat case_match; simpl; done. }
  destruct (explainer reportID sorted) as [output|f]; [|done]. case_guard as Hg; [done|]. case_guard as Hr; [done|].
  intros _. simpl. rewrite !orb_false_iff, !bool_decide_eq_false in Hg. destruct Hg as [[[? ?] ?] ?]. split_and!; [done..|].
  intros id Hid. apply negb_false_iff, forallb_Forall in Hr. rewrite Forall_forall in Hr. specialize (Hr id Hid). apply bool_decide_eq_true in Hr.
  apply list_elem_of_fmap in Hr as (r & -> & Hr). exists r. rewrite <- Hp. split_and!; [done..|]. rewrite Forall_forall in Hvalid. by apply Hvalid.
Qed.
End explained.
