(* ===== verification/GraphClient.v ===== *)
(** * internal/graph/client: what the client of the Graph provider sends and accepts

    query.go, wire.go, errors.go, sanitize.go and the retry policy of client.go.
    The HTTP exchange itself ([Client.call]) is the class [Exchange]; the client
    checks a query before it is sent and an answer before it is returned, so it
    implements the interface [GraphQueryProvider] of the analysis. *)
From S2P Require Import Prelude GoSort GoStrings GoCrypto GoJson Domain DomainEntity.
From S2P Require VersionDiff VersionGate GraphProjector.
From S2P Require Import GraphSync GraphGate ImpactPlan ImpactAnalysis ImpactRetrieval.
Open Scope Z_scope.

(** ** query.go: the checks *)
Definition blank_text (s : string) : bool := bool_decide (TrimSpace s = EmptyString).
Definition validQueryIdentity (namespace version : string) : bool := negb (blank_text namespace) && negb (blank_text version).
Definition validResponseIdentity (want got hash : string) : bool := bool_decide (want = got) && ValidHash hash.
Definition validExplicit (values : list string) : bool := bool_decide (values = ["explicit"%string]).
Definition uniqueNonemptyOptional (values : list string) : bool := forallb (fun v => negb (blank_text v)) values && nodupb values.
Definition uniqueNonempty (values : list string) : bool := negb (bool_decide (values = [])) && uniqueNonemptyOptional values.
Definition reason_rank (r : TruncationReason) : Z :=
  match r with ReasonMaxDepth => 1 | ReasonMaxNodes => 2 | ReasonMaxPaths => 3 | ReasonOther _ => 0 end.
Fixpoint increasing_reasons (previous : Z) (reasons : list TruncationReason) : bool :=
  match reasons with
  | [] => true
  | r :: rest => negb ((reason_rank r =? 0) || (reason_rank r <=? previous)) && increasing_reasons (reason_rank r) rest
  end.
Definition validReasons (truncated : bool) (reasons : list TruncationReason) : bool :=
  (truncated || bool_decide (reasons = [])) && increasing_reasons 0 reasons.

Definition ErrContract (what : string) : ProviderFailure := Transport ("local-rag contract violation: " +:+ what)%string.
Definition validateTraverse (r : TraverseRequest) : bool :=
  validQueryIdentity (Traverse_Namespace r) (Traverse_Version r) && uniqueNonempty (StartNodeIDs r) && validExplicit (Traverse_Kinds r) &&
  Direction_Valid (Traverse_Direction r) && within 1 (Traverse_MaxDepth r) 6 && within 1 (Traverse_MaxNodes r) 500 &&
  uniqueNonemptyOptional (Traverse_NodeTypes r) && uniqueNonemptyOptional (Traverse_EdgeTypes r).
Definition validatePaths (r : PathsRequest) : bool :=
  validQueryIdentity (Paths_Namespace r) (Paths_Version r) && uniqueNonempty (SourceNodeIDs r) && uniqueNonempty (TargetNodeIDs r) &&
  validExplicit (Paths_Kinds r) && Direction_Valid (Paths_Direction r) && within 1 (Paths_MaxDepth r) 6 && within 1 (Paths_MaxNodes r) 500 &&
  within 1 (MaxPaths r) 100 && uniqueNonemptyOptional (Paths_NodeTypes r) && uniqueNonemptyOptional (Paths_EdgeTypes r).
Definition validateRetrieve (r : RetrieveRequest) : bool :=
  validQueryIdentity (Retrieve_Namespace r) (Retrieve_Version r) && negb (blank_text (Query r)) && (string_len (Query r) <=? 16 * 1024) &&
  validExplicit (Retrieve_Kinds r) && within 1 (Retrieve_MaxSeeds r) 100 && within 1 (Retrieve_MaxResults r) 100 &&
  within 0 (Retrieve_MaxDepth r) 3 && uniqueNonemptyOptional (Retrieve_NodeTypes r) && uniqueNonemptyOptional (Retrieve_EdgeTypes r).
Definition validateTraverseResponse (r : TraverseRequest) (a : TraverseResponse) : bool :=
  validResponseIdentity (Traverse_Version r) (Traverse_Resolved a) (Traverse_Hash a) && validReasons (Traverse_Truncated a) (Traverse_Reasons a) &&
  forallb (fun n => negb (bool_decide (INode_ID (Depth_Node n) = EmptyString)) && within 0 (Depth n) (Traverse_MaxDepth r)) (Traverse_Nodes a) &&
  nodupb ((fun n => INode_ID (Depth_Node n)) <$> Traverse_Nodes a).
Definition validPath (path : Path) (maxDepth : Z) : bool :=
  negb (bool_decide (Path_Source path = EmptyString)) && negb (bool_decide (Path_Target path = EmptyString)) && within 0 (HopCount path) maxDepth &&
  (HopCount path =? count (Path_EdgeIDs path)) && (count (Path_NodeIDs path) =? count (Path_EdgeIDs path) + 1) &&
  (count (Path_Nodes path) =? count (Path_NodeIDs path)) && (count (Path_Edges path) =? count (Path_EdgeIDs path)) &&
  bool_decide (head (Path_NodeIDs path) = Some (Path_Source path)) && bool_decide (last (Path_NodeIDs path) = Some (Path_Target path)) &&
  forallb (fun '(id, node) => negb (bool_decide (id = EmptyString)) && bool_decide (INode_ID node = id)) (zip (Path_NodeIDs path) (Path_Nodes path)) &&
  nodupb (Path_NodeIDs path) &&
  forallb (fun '(id, edge) => negb (bool_decide (id = EmptyString)) && bool_decide (IEdge_ID edge = id) &&
             bool_decide (IEdge_RelationKind edge = "explicit"%string) && IEdge_HasProvenance edge) (zip (Path_EdgeIDs path) (Path_Edges path)) &&
  validReasons (Path_Truncated path) (Path_Reasons path).
Definition validatePathsResponse (r : PathsRequest) (a : PathsResponse) : bool :=
  validResponseIdentity (Paths_Version r) (Paths_Resolved a) (Paths_Hash a) && (count (Paths a) <=? MaxPaths r) &&
  validReasons (Paths_Truncated a) (Paths_Reasons a) && forallb (fun path => validPath path (Paths_MaxDepth r)) (Paths a).
Definition valid_evidence (maxDepth : Z) (index : nat) (e : SuspectedEvidence) : bool :=
  (Evidence_Rank e =? Z.of_nat index + 1) && negb (bool_decide (INode_ID (Evidence_Node e) = EmptyString)) && negb (blank_text (CitationText e)) &&
  negb (bool_decide (AlgorithmVersion e = EmptyString)) && negb (bool_decide (SeedNodeID e = EmptyString)) &&
  option_forallb (fun path => validPath path maxDepth) (Evidence_Path e).
Definition validateRetrieveResponse (r : RetrieveRequest) (a : RetrieveResponse) : bool :=
  validResponseIdentity (Retrieve_Version r) (Retrieve_Resolved a) (Retrieve_Hash a) && negb (bool_decide (Retrieve_Mode a = EmptyString)) &&
  (count (Retrieve_Results a) <=? Retrieve_MaxResults r) &&
  forallb (fun '(index, e) => valid_evidence (Retrieve_MaxDepth r) index e) (zip (seq 0 (length (Retrieve_Results a))) (Retrieve_Results a)).

(** ** client.go: one exchange, and the retries around it *)
Class Exchange (P : Type) := {
  exchange_traverse : TraverseRequest -> string -> P -> result TraverseResponse ProviderFailure * P;
  exchange_paths : PathsRequest -> string -> P -> result PathsResponse ProviderFailure * P;
  exchange_retrieve : RetrieveRequest -> string -> P -> result RetrieveResponse ProviderFailure * P;
  isTransient : string -> bool;   (* deadline, truncated body or temporary network error *)
  slept : nat -> result unit string   (* the pause after an attempt, or the end of the context *)
}.
Section client.
Context {P : Type} `{Exchange P}.

(** Check the query, exchange, check the answer. *)
Definition checked {Q A : Type} (validate : Q -> bool) (accept : Q -> A -> bool) (what : string)
    (exchange : Q -> string -> P -> result A ProviderFailure * P) (query : Q) (requestID : string) (p : P) : result A ProviderFailure * P :=
  if negb (validate query) then (Err (ErrContract ("invalid " +:+ what +:+ " request")%string), p)
  else if blank_text requestID then (Err (ErrContract "request ID is required"), p)
  else
    match exchange query requestID p with
    | (Err f, p) => (Err f, p)
    | (Ok answer, p) => (if accept query answer then Ok answer else Err (ErrContract ("invalid " +:+ what +:+ " response")%string), p)
    end.
Definition Client_Traverse := checked validateTraverse validateTraverseResponse "traverse" exchange_traverse.
Definition Client_Paths := checked validatePaths validatePathsResponse "paths" exchange_paths.
Definition Client_Retrieve := checked validateRetrieve validateRetrieveResponse "retrieve" exchange_retrieve.

Definition retryable (f : ProviderFailure) : bool := match f with Provider e => Error_Retryable e | Transport e => isTransient e end.
(** The loop of [RetryPolicy.Do] with [remaining] attempts after this one. *)
Fixpoint retry {A : Type} (attempt : P -> result A ProviderFailure * P) (remaining index : nat) (p : P) : result A ProviderFailure * P :=
  match attempt p with
  | (Ok a, p) => (Ok a, p)
  | (Err f, p) =>
      if negb (retryable f) then (Err f, p)
      else match remaining with
           | O => (Err f, p)
           | S remaining => match slept index with Err e => (Err (Transport e), p) | Ok _ => retry attempt remaining (S index) p end
           end
  end.
Definition RetryPolicy_Do {A : Type} (maxRetries : Z) (attempt : P -> result A ProviderFailure * P) (p : P) : result A ProviderFailure * P :=
  let max := or_default maxRetries 3 in
  if max <? 1 then (Err (Transport "invalid retry count"), p) else retry attempt (Z.to_nat (max - 1)) 0 p.
Definition DoWithCorrelation {A : Type} (maxRetries : Z) (root : string) (attempt : P -> result A ProviderFailure * P) (p : P) :
    result A ProviderFailure * P :=
  if blank_text root then (Err (Transport "root request ID is required"), p) else RetryPolicy_Do maxRetries attempt p.
(** [ImpactQueryProvider], which implements the port of the analysis. *)
Definition ImpactQueryProvider (maxRetries : Z) : GraphQueryProvider P := {|
  Query_Traverse := fun query id => DoWithCorrelation maxRetries id (Client_Traverse query id);
  Query_Paths := fun query id => DoWithCorrelation maxRetries id (Client_Paths query id);
  Query_Retrieve := fun query id => DoWithCorrelation maxRetries id (Client_Retrieve query id)
|}.
End client.

(** ** errors.go and sanitize.go *)
Inductive ErrorKind :=
  | ErrorBaseUnavailable | ErrorSnapshotMissing | ErrorTaskMissing | ErrorNotReady | ErrorHashConflict | ErrorHashMismatch | ErrorCapability
  | ErrorStoreUnavailable | ErrorRetryExhausted | ErrorIntegrity | ErrorNodeMissing | ErrorQueryInvalid | ErrorRetrieval | ErrorUnexpected.
Definition error_codes : list (string * ErrorKind) :=
  [("BASE_SNAPSHOT_NOT_FOUND", ErrorBaseUnavailable); ("BASE_SNAPSHOT_NOT_READY", ErrorBaseUnavailable); ("SNAPSHOT_NOT_FOUND", ErrorSnapshotMissing);
   ("TASK_NOT_FOUND", ErrorTaskMissing); ("SNAPSHOT_NOT_READY", ErrorNotReady); ("SNAPSHOT_INDEX_NOT_READY", ErrorNotReady);
   ("NODE_NOT_FOUND", ErrorNodeMissing); ("CONTENT_HASH_CONFLICT", ErrorHashConflict); ("CONTENT_HASH_MISMATCH", ErrorHashMismatch);
   ("INVALID_SNAPSHOT_REQUEST", ErrorCapability); ("INVALID_DELTA_OPERATION", ErrorCapability); ("LIMIT_EXCEEDED", ErrorCapability);
   ("INVALID_GRAPH_QUERY", ErrorQueryInvalid); ("RETRIEVAL_UNAVAILABLE", ErrorRetrieval); ("GRAPH_STORE_UNAVAILABLE", ErrorStoreUnavailable);
   ("RETRY_EXHAUSTED", ErrorRetryExhausted); ("REIMPORT_REQUIRED", ErrorIntegrity); ("DUPLICATE_NODE_ID", ErrorIntegrity);
   ("DUPLICATE_EDGE_ID", ErrorIntegrity); ("DANGLING_EDGE", ErrorIntegrity); ("INVALID_RELATION_PROVENANCE", ErrorIntegrity)]%string.
Definition ClassifyError (e : option ProviderError) : ErrorKind :=
  match e with
  | None => ErrorUnexpected
  | Some e => match List.find (fun entry => bool_decide (entry.1 = Error_Code e)) error_codes with Some (_, k) => k | None => ErrorUnexpected end
  end.
Record SafeError := mkSafeError { Safe_Code : string; Safe_Retryable : bool; Safe_RequestID : string; Safe_Kind : ErrorKind }.
Definition SafeProviderError (e : option ProviderError) : SafeError :=
  match e with
  | None => mkSafeError "" false "" ErrorUnexpected
  | Some p => mkSafeError (Error_Code p) (Error_Retryable p) (Error_RequestID p) (ClassifyError e)
  end.
Record SafeDiagnostic := mkSafeDiagnostic {
  RootRequestID : string; AttemptRequestID : string; ProviderCode : string; Diagnostic_RequestID : string; Diagnostic_Retryable : bool
}.
Definition NewSafeDiagnostic (root attempt : string) (e : option ProviderError) : SafeDiagnostic :=
  let safe := SafeProviderError e in mkSafeDiagnostic root attempt (Safe_Code safe) (Safe_RequestID safe) (Safe_Retryable safe).

(** ** wire.go: the answers as the program's values *)
Definition wire_hash (value : string) : bool := VersionGate.validHash value.
Record snapshotWire := mkSnapshotWire {
  SW_Namespace : string; SW_Version : string; SW_BaseVersion : option string; SW_SchemaVersion : string; SW_ContentHash : string;
  SW_NodeCount : Z; SW_EdgeCount : Z; SW_TaskID : string; SW_Status : string; SW_QueryReady : bool;
  SW_Components : option (list Component); SW_Warnings : list string
}.
Definition wire_component (c : Component) : bool :=
  among (Component_Name c) ["graph"; "fts"; "vector"]%string &&
  among (Component_State c) ["pending"; "building"; "ready"; "failed"; "unavailable"]%string.
Definition snapshotWire_toDomain (w : snapshotWire) : result Snapshot ProviderFailure :=
  if blank_text (SW_Namespace w) || blank_text (SW_Version w) || negb (bool_decide (SW_SchemaVersion w = SnapshotSchemaVersion)) ||
     negb (wire_hash (SW_ContentHash w)) || (SW_NodeCount w <? 0) || (SW_EdgeCount w <? 0) || blank_text (SW_TaskID w) ||
     negb (among (SW_Status w) ["building"; "ready"; "failed"]%string)
  then Err (ErrContract "invalid snapshot response")
  else
    match SW_Components w with
    | None => Err (ErrContract "invalid snapshot response")
    | Some components =>
        if negb (forallb wire_component components) then Err (ErrContract "invalid component")
        else Ok (mkSnapshot (SW_Namespace w) (SW_Version w) (default EmptyString (SW_BaseVersion w)) (SW_SchemaVersion w) (SW_ContentHash w)
                   (SW_TaskID w) (SW_Status w) (SW_NodeCount w) (SW_EdgeCount w) (SW_QueryReady w) components (SW_Warnings w))
    end.
Record activationWire := mkActivationWire { AW_Namespace : string; AW_ActiveVersion : string; AW_Changed : option bool }.
Definition activationWire_toDomain (w : activationWire) (namespace version : string) : result SnapshotActivation ProviderFailure :=
  match AW_Changed w with
  | Some changed =>
      if negb (bool_decide (AW_Namespace w = namespace)) || negb (bool_decide (AW_ActiveVersion w = version))
      then Err (ErrContract "invalid activation response")
      else Ok (mkSnapshotActivation (AW_Namespace w) (AW_ActiveVersion w) changed)
  | None => Err (ErrContract "invalid activation response")
  end.
Record healthWire := mkHealthWire {
  HW_SchemaVersion : string; HW_Status : string; HW_Service : string; HW_APIVersions : list string; HW_SchemaVersions : list string;
  HW_Capabilities : list HealthState; HW_Dependencies : list HealthState; HW_Limits : list Limit
}.
Definition healthWire_toDomain (w : healthWire) : result Health ProviderFailure :=
  if negb (bool_decide (HW_SchemaVersion w = SnapshotSchemaVersion)) || negb (among (HW_Status w) ["ok"; "degraded"; "unavailable"]%string) ||
     negb (bool_decide (HW_Service w = "local-rag"%string)) || bool_decide (HW_APIVersions w = []) || bool_decide (HW_SchemaVersions w = [])
  then Err (ErrContract "invalid health response")
  else Ok (mkHealth (HW_Status w) (HW_APIVersions w) (HW_SchemaVersions w) (HW_Capabilities w) (HW_Dependencies w) (HW_Limits w)).

(** ** Facts *)
Lemma string_set_NoDup l : NoDup (string_set l).
Proof. apply NoDup_sort_by, NoDup_remove_dups. Qed.
Lemma unique_texts l : NoDup l -> Forall (fun v => TrimSpace v <> EmptyString) l -> uniqueNonemptyOptional l = true.
Proof.
  intros Hnd Hall. unfold uniqueNonemptyOptional, blank_text. rewrite (proj2 (nodupb_NoDup l) Hnd), andb_true_r. apply forallb_Forall.
  eapply Forall_impl; [exact Hall|]. intros v Hv. simpl. by rewrite bool_decide_false.
Qed.
Lemma normalizeSet_unique l : uniqueNonemptyOptional (normalizeSet l) = true.
Proof.
  apply unique_texts; [apply string_set_NoDup|]. apply Forall_forall. intros v Hv%elem_of_string_set%list_elem_of_In%List.filter_In.
  destruct Hv as [_ Hv]. unfold canonical_element in Hv. apply andb_true_iff in Hv as [Hne Heq]. apply bool_decide_eq_true in Heq.
  rewrite <- Heq. by apply negb_true_iff, bool_decide_eq_false in Hne.
Qed.

Section queries.
Context `{UuidLib}.
Context (id_text : forall s, ID_Valid s = true -> TrimSpace s <> EmptyString).

Lemma starts_unique i changes targets :
  eligibleStarts (changed_entities i changes targets) <> [] -> uniqueNonempty (eligibleStarts (changed_entities i changes targets)) = true.
Proof.
  intros Hne. unfold uniqueNonempty. rewrite bool_decide_false by done. simpl. apply unique_texts; [apply string_set_NoDup|].
  apply Forall_forall. intros v Hv. unfold eligibleStarts in Hv. rewrite elem_of_string_set in Hv. apply list_elem_of_fmap in Hv as (x & -> & Hx).
  apply list_elem_of_In, List.filter_In in Hx as [Hx%list_elem_of_In Hq]. apply andb_true_iff in Hq as [Hq _].
  apply elem_of_changed_entities in Hx as (e & _ & ->). destruct (finish_eligible i targets e) as [_ Hn].
  destruct (Hn Hq) as (t & _ & _ & ->). unfold GraphProjector.NodeID. by apply TrimSpace_nonblank.
Qed.

(** C21: Which queries of the analysis the client refuses, exactly: for a normalised input and the changed entities of
    its pair, the traversal is refused only when no changed entity is an eligible start, a path query only for that, for a
    target whose identity is blank, or for a number of paths out of bounds, and the retrieval's text never. *)
Theorem analysis_queries_accepted i n text hash changes targets :
  let starts := eligibleStarts (changed_entities n changes targets) in
  Normalize i = Ok (n, text, hash) ->
  validateTraverse (traverse_request n starts) = negb (bool_decide (starts = [])) /\
  (forall target maxPaths, validatePaths (paths_request n starts target maxPaths) =
     negb (bool_decide (starts = [])) && negb (bool_decide (TrimSpace target = EmptyString)) && (1 <=? maxPaths) && (maxPaths <=? 100)) /\
  forall nodes, validateRetrieve (retrieve_request n (BuildQuery (changed_entities n changes targets) nodes)) = true.
Proof.
  intros starts Hn. assert (uniqueNonempty starts = negb (bool_decide (starts = []))) as Hs.
  { destruct (decide (starts = [])) as [->|Hne]; [done|]. rewrite bool_decide_false by done. by apply starts_unique. }
  unfold Normalize in Hn.
  apply result_bind_Ok in Hn as (f & Hf & Hn). apply result_bind_Ok in Hn as (l & Hl & Hn).
  apply result_bind_Ok in Hn as (s & Hsus & Hn). apply result_bind_Ok in Hn as (u & Hg%plan_guard_Ok & [= <- _ _]).
  apply normalize_limits_Ok in Hl as (Hd & Hc & _). apply normalize_suspected_Ok in Hsus as (Hms & Hmr & Hmd & _).
  assert (validQueryIdentity (Input_ProjectID i) (Identity_RevisionID (Input_Target i)) = true) as Hid.
  { rewrite !andb_true_iff in Hg. destruct Hg as [[[Hp _] Ht] _]. unfold RevisionIdentity_Valid in Ht. rewrite !andb_true_iff in Ht.
    destruct Ht as [[[[[Ht _] _] _] _] _]. unfold validQueryIdentity, blank_text. rewrite !bool_decide_false; [done|by apply id_text..]. }
  assert (Direction_Valid (Filters_Direction f) = true /\ uniqueNonemptyOptional (NodeTypes f) = true /\ uniqueNonemptyOptional (EdgeTypes f) = true) as (Hdir & Hnt & Het).
  { pose proof (normal_direction _ _ (proj1 (normalize_filters_Ok _ _ Hf))) as Hdir. split; [done|]. unfold normalize_filters in Hf.
    apply result_bind_Ok in Hf as (u1 & _ & Hf). apply result_bind_Ok in Hf as (u2 & _ & Hf). apply result_bind_Ok in Hf as (u3 & _ & [= <-]).
    split; apply normalizeSet_unique. }
  assert (within 1 (MaxDepth l) 6 = true /\ within 1 (MaxNodes l) 500 = true) as [Hwd Hwn].
  { unfold within. rewrite !andb_true_iff, !Z.leb_le. lia. }
  split_and!.
  - unfold validateTraverse. simpl. by rewrite Hid, Hs, Hdir, Hwd, Hwn, Hnt, Het, ?andb_true_r.
  - intros target maxPaths. unfold validatePaths. simpl. rewrite Hid, Hs, Hdir, Hwd, Hwn, Hnt, Het, !andb_true_r.
    assert (uniqueNonempty [target] = negb (bool_decide (TrimSpace target = EmptyString))) as ->
      by (unfold uniqueNonempty, uniqueNonemptyOptional, blank_text; simpl; rewrite ?andb_true_r; done).
    unfold within. by rewrite andb_assoc.
  - intros nodes. destruct (BuildQuery_bounded (changed_entities (mkInput (Input_ProjectID i) (Input_Base i) (Input_Target i) AnalysisContractVersion f l s)
      changes targets) nodes) as [Hlen Hblank].
    revert Hlen Hblank. generalize (BuildQuery (changed_entities (mkInput (Input_ProjectID i) (Input_Base i) (Input_Target i)
      AnalysisContractVersion f l s) changes targets) nodes). intros q Hlen Hblank.
    unfold validateRetrieve. cbn [Retrieve_Namespace Retrieve_Version Query Retrieve_Kinds Retrieve_NodeTypes Retrieve_EdgeTypes Retrieve_MaxSeeds
      Retrieve_MaxResults Retrieve_MaxDepth retrieve_request Input_ProjectID Input_Target Input_Filters Suspected].
    change (16 * 1024) with MaxQueryBytes. rewrite Hid, Hnt, Het, (proj2 (Z.leb_le _ _) Hlen). unfold blank_text, within.
    rewrite bool_decide_false by exact Hblank. rewrite !(proj2 (Z.leb_le _ _)) by lia. done.
Qed.
End queries.

(** A retried call answers what one of its attempts answers. *)
Lemma retry_answers {P A : Type} `{Exchange P} (attempt : P -> result A ProviderFailure * P) remaining : forall index (p : P) a q,
  retry attempt remaining index p = (Ok a, q) -> exists p', attempt p' = (Ok a, q).
Proof.
  induction remaining as [|n IH]; intros index p a q; simpl; destruct (attempt p) as [[b|f] p'] eqn:Ha.
  - intros [= <- <-]. by exists p.
  - by destruct (negb _).
  - intros [= <- <-]. by exists p.
  - destruct (negb _); [done|]. destruct (slept index); [apply IH|done].
Qed.
