(* ===== verification/ImpactExamples.v ===== *)
(** * An impact analysis, evaluated

    A tag is renamed between two revisions; two skills that carry it are affected.
    The witnesses of the theorems on impact analysis. *)
From S2P Require Import Prelude GoSort GoStrings GoCrypto GoJson Domain DomainEntity.
From S2P Require VersionDiff GraphProjector GraphProjection.
From S2P Require Import GraphSync ImpactPlan ImpactAnalysis ImpactRetrieval GraphClient.
Open Scope Z_scope.

Module ImpactExamples.
Local Existing Instance canonical_uuid.
Import GraphProjection.ProjectionExamples.
#[local] Instance text_floats : FloatText := {| float_text := Ok |}.

(** ** The request *)
Definition base_id : ID := uuid "cc".
Definition target_id : ID := uuid "bb".
Definition revision_of (id : ID) : RevisionIdentity := mkIdentity id some_hash some_hash some_hash 3 2.
Definition raw (nodes : list string) : Input :=
  mkInput (uuid "aa") (revision_of base_id) (revision_of target_id) "" (mkFilters [] nodes ["item_enhances_tag"; "entity_has_tag"]%string (DirectionOther ""))
    (mkLimits 0 0 0 0) (mkSuspected true 0 0 0).
Definition asked : Input := raw ["tag"; "skill"; "tag"]%string.
Definition normal : Input := Eval vm_compute in match Normalize asked with Ok (n, _, _) => n | Err _ => asked end.
Definition normal_text : string := Eval vm_compute in match Normalize asked with Ok (_, t, _) => t | Err _ => EmptyString end.
Definition normal_hash : string := Eval vm_compute in match Normalize asked with Ok (_, _, h) => h | Err _ => EmptyString end.
Lemma asked_normal : Normalize asked = Ok (normal, normal_text, normal_hash).
Proof. vm_compute. reflexivity. Qed.
Lemma normalize_canonical_witness :
  NodeTypes (Input_Filters normal) = ["skill"; "tag"]%string /\ Normalize (raw ["skill"; "tag"]%string) = Ok (normal, normal_text, normal_hash).
Proof.
  split; [reflexivity|]. destruct (normalize_canonical asked normal normal_text normal_hash asked_normal) as (_ & Hsame & _).
  apply Hsame. split; [reflexivity|split; reflexivity|split; reflexivity|reflexivity|intros x; reflexivity| |intros x; reflexivity].
  intros x. simpl. rewrite !elem_of_cons. naive_solver.
Defined.

(** ** What changed *)
Definition quoted (s : string) : string := (quote_mark +:+ s +:+ quote_mark)%string.
Definition named (name : string) : list VersionDiff.EntityBlob :=
  [VersionDiff.mkBlob (uuid "01") KindTag StatusActive ("{" +:+ quoted "name" +:+ ":" +:+ quoted name +:+ "}")%string].
#[local] Instance two_revisions : VersionDiff.ManifestReader :=
  {| VersionDiff.Materialize := fun id => Ok (named (if decide (id = base_id) then "Flame" else "Fire")%string) |}.
Definition targets : list Entity := GraphProjector.Revision_Entities first.
Definition changes : list VersionDiff.FieldChange := Eval vm_compute in
  match VersionDiff.CompareRevisions base_id target_id with Ok l => l | Err _ => [] end.
Definition changed : list ChangedEntity := Eval vm_compute in match ChangedSet normal targets with Ok l => l | Err _ => [] end.
Lemma renamed : VersionDiff.CompareRevisions base_id target_id = Ok changes.
Proof. vm_compute. reflexivity. Qed.
Lemma changed_ok : ChangedSet normal targets = Ok changed.
Proof. vm_compute. reflexivity. Qed.
Lemma changed_set_exact_witness :
  (fun x => (Changed_EntityID x, FieldPaths x, QueryEligible x)) <$> changed = [(uuid "01", ["/name"%string], true)] /\
  forall x, x ∈ changed -> TargetNodeID x ∈ GraphProjector.Node_ID <$> GraphProjector.Nodes first_result.
Proof.
  split; [reflexivity|]. destruct (changed_set_exact normal targets changed changes renamed changed_ok) as (_ & _ & Hx).
  intros x Hin. destruct (Hx x Hin) as (_ & _ & _ & _ & Hnode).
  assert (QueryEligible x = true) as Hq by (apply list_elem_of_singleton in Hin as ->; reflexivity).
  apply (Hnode Hq GraphProjection.ProjectionExamples.v1 GraphProjector.V1Formatter first first_result); [reflexivity..|vm_compute; reflexivity].
Defined.

(** ** The provider's answers *)
Definition tag_node : string := GraphProjector.NodeID (uuid "aa") (tag "Fire").
Definition skill_node (n : string) : string := ("urn:eco:" +:+ uuid "aa" +:+ ":skill:" +:+ uuid n)%string.
Definition a_tag : ImpactNode := mkImpactNode tag_node "tag" "Fire" "".
Definition a_skill (n : string) : ImpactNode := mkImpactNode (skill_node n) "skill" "Comet" "".
Definition reached_nodes : list NodeDepth := [mkNodeDepth a_tag 0; mkNodeDepth (a_skill "03") 1; mkNodeDepth (a_skill "02") 1].
Definition path_to (n : string) : Path :=
  mkPath tag_node (skill_node n) [tag_node; skill_node n] [n] [a_tag; a_skill n]
    [mkImpactEdge n (skill_node n) tag_node "entity_has_tag" "explicit" true] 1 false [].
Definition traverse_ok : TraverseResponse := mkTraverseResponse target_id some_hash reached_nodes false [] [].
#[local] Instance pinned : GraphQueryProvider unit := {|
  Query_Traverse := fun _ _ p => (Ok traverse_ok, p);
  Query_Paths := fun r _ p =>
    (Ok (mkPathsResponse target_id some_hash [path_to (if decide (TargetNodeIDs r = [skill_node "02"]) then "02" else "03")%string] false [] []), p);
  Query_Retrieve := fun _ _ p => (Err (Transport "down"), p)
|}.
Definition traversed : DeterministicResult := Eval vm_compute in
  match (Traverse normal changed "r" tt).1 with Ok r => r | Err _ => mkDeterministic [] [] [] false "" end.
Definition affected : list AffectedEntity := Eval vm_compute in Deterministic_Affected traversed.
Lemma starts_nonempty : eligibleStarts changed <> [].
Proof. vm_compute. discriminate. Qed.
Lemma traversal_exact_witness :
  Affected_ID <$> affected = [skill_node "02"; skill_node "03"] /\
  traverse_answer normal (eligibleStarts changed) (with_nodes traverse_ok (rev reached_nodes)) = Ok traversed.
Proof.
  split; [reflexivity|].
  assert (Traverse normal changed "r" tt = (Ok traversed, tt)) as Ht by (vm_compute; reflexivity).
  destruct (traversal_exact normal changed "r" tt tt traversed starts_nonempty Ht) as (response & Hq & _ & _ & _ & _ & _ & _ & Hperm).
  injection Hq as <-. apply Hperm; [|simpl; solve_Permutation].
  apply (bool_decide_unpack _). vm_compute. exact I.
Defined.

(** The two answers, in either order. *)
Definition answer (k : nat) : result PathsResponse AnalysisError :=
  match affected !! k with
  | Some a => match (Query_Paths (paths_request normal (eligibleStarts changed) (Affected_ID a) 1) "r" tt).1 with Ok r => Ok r | Err f => Err (ErrQuery f) end
  | None => Err ErrContextDone
  end.
Definition paths_found : collected := Eval vm_compute in
  match DefaultPaths normal changed affected (arrive answer <$> [0; 1]%nat) with Ok r => r | Err _ => ([], [], []) end.
Lemma default_paths_any_order_witness :
  TagRule <$> paths_found.1.1 = [true; true] /\ DefaultPaths normal changed affected (arrive answer <$> [1; 0]%nat) = Ok paths_found.
Proof.
  split; [reflexivity|]. assert (searchable (Input_Filters normal)) as Hs.
  { destruct (normalize_canonical asked normal normal_text normal_hash asked_normal) as (_ & _ & Hf & _). by eapply normal_searchable. }
  refine (proj1 (default_paths_any_order normal changed affected answer [0; 1]%nat paths_found Hs starts_nonempty _ _ _) [1; 0]%nat _);
    [discriminate|reflexivity|vm_compute; reflexivity|apply Permutation_swap].
Defined.

(** ** The client *)
Lemma canonical_text s : ID_Valid s = true -> TrimSpace s <> EmptyString.
Proof.
  unfold ID_Valid, uuid_v7, canonical_uuid, canonical_v7. rewrite !andb_true_iff. intros [[Hl _] Hc]. bool_to_prop.
  destruct s as [|a s]; [done|]. simpl in Hc. apply andb_true_iff in Hc as [Ha _].
  assert (forall b, mem_char b "0123456789abcdef-" = true -> byte_of b < 128 /\ IsSpace (byte_of b) = false) as Hb.
  { intros b Hb. destruct b as [[] [] [] [] [] [] [] []]; vm_compute in Hb; try discriminate Hb; split; reflexivity. }
  destruct (Hb a Ha) as [H1 H2]. by apply TrimSpace_nonblank.
Qed.
Lemma analysis_queries_accepted_witness :
  changed = changed_entities normal changes targets /\ validateTraverse (traverse_request normal (eligibleStarts changed)) = true /\
  validatePaths (paths_request normal (eligibleStarts changed) " " 10) = false.
Proof.
  assert (changed = changed_entities normal changes targets) as Hc by (vm_compute; reflexivity). split; [exact Hc|].
  pose proof starts_nonempty as Hne. rewrite Hc in Hne |- *.
  destruct (analysis_queries_accepted canonical_text asked normal normal_text normal_hash changes targets asked_normal) as (Ht & Hp & _).
  rewrite Ht, Hp, !bool_decide_false by exact Hne. split; reflexivity.
Defined.
(** An answer that is cut short may give no reason for it: the client accepts it. *)
Example truncated_without_reason :
  validateTraverseResponse (traverse_request normal (eligibleStarts changed))
    (mkTraverseResponse target_id some_hash reached_nodes true [] []) = true /\ MergeReasons [[]] = [].
Proof. split; vm_compute; reflexivity. Qed.

(** A node whose identity is a space is a valid answer, and its path query an invalid one. *)
Example blank_node_stops_the_analysis :
  let blank_node := mkTraverseResponse target_id some_hash [mkNodeDepth (mkImpactNode " " "skill" "Comet" "") 1] false [] [] in
  validateTraverseResponse (traverse_request normal (eligibleStarts changed)) blank_node = true /\
  is_ok (traverse_answer normal (eligibleStarts changed) blank_node) = true /\
  validatePaths (paths_request normal (eligibleStarts changed) " " 10) = false.
Proof. split_and!; vm_compute; reflexivity. Qed.

(** ** The explanation *)
Definition evidence : list EvidenceRef := [mkRef "b" some_hash "path"; mkRef "a" some_hash "node"].
Definition explainer (report : ID) (refs : list EvidenceRef) : result ExplanationOutput ExplainFailure :=
  Ok (mkExplanation "Comet burns" "local" "model" ["a"%string]).
Definition explained : ExplanationAttempt := Eval vm_compute in
  match Explain explainer (Ok (uuid "ee")) 5 (uuid "dd") evidence with Ok a => a | Err _ => mkAttempt "" "" "" "" "" "" "" [] "" 0 end.
Lemma explanation_cites_given_evidence_witness :
  Attempt_Refs explained = ["a"%string] /\ Explain explainer (Ok (uuid "ee")) 5 (uuid "dd") (rev evidence) = Ok explained.
Proof.
  split; [reflexivity|].
  assert (Explain explainer (Ok (uuid "ee")) 5 (uuid "dd") evidence = Ok explained) as He by (vm_compute; reflexivity).
  destruct (explanation_cites_given_evidence explainer (Ok (uuid "ee")) 5 (uuid "dd") evidence explained He) as (_ & _ & _ & _ & Hperm).
  apply Hperm. simpl. apply Permutation_swap.
Defined.
End ImpactExamples.
